(* ===== verification/_CoqProject ===== *)
-Q . S2P
Prelude.v
JsString.v
Regex.v
JsValue.v
Json.v
DslTypes.v
Operators.v
SqlSelect.v
SqlMutation.v
Resolvers.v
GqlSchema.v
ClientMutation.v
ClientQueries.v
DslAst.v
DslMapper.v
MapperSpec.v
DslValidation.v
Renderer.v
Pipeline.v
JsonWrite.v
JsonPretty.v
ViewState.v
Mock.v
TextResolver.v
Stores.v
Tabs.v
TabsLaws.v
Spotlight.v
ChatTurn.v
ChatTurnLaws.v
Grammar.v
GrammarLaws.v
DomainGrammar.v
EventSchemaGrammar.v
ViewGrammar.v
PipelineGrammar.v
Languages.v
Lexing.v
NewItem.v
Completion.v
Designer.v
Console.v
BusLink.v
AstModel.v
AstTyping.v
DslAstTypes.v
PipelineAstTypes.v
AstLaws.v
Embedder.v
EmbeddingResolver.v
IntentResolver.v
Composer.v
ComposerLaws.v
Assistant.v
Auth.v
Session.v
LogStore.v
RecordForm.v
EventBus.v
ListTab.v
EventContent.v
StreamDetail.v
NewEvent.v
ChatHistory.v
RpcSeam.v
GrammarTypes.v
EventContext.v
ParseWorker.v
Widgets.v
Translate.v
Activity.v
PipelineRun.v
PipelineList.v
StreamManager.v
Finetuning.v
KvStore.v
