(* ===== verification/Prelude.v ===== *)
(** * Onisin: a verification library for the TypeScript core

    Onisin is a desktop system that is driven by two small languages.  A
    [.domain] file declares a table, its fields, permissions, relations and
    option lists; a [.view] file declares a screen over one or more domains.  A
    third language, [.pipeline], chains retrieval and model steps.  The parsed
    definitions generate a GraphQL schema with SQL resolvers, the text chunks a
    language model is prompted with, the mutations a form sends, and the state
    of the forms themselves; the chat application keeps results and editors in
    a workspace of tabs.  This library models that core and proves what it
    promises.  Paths below are relative to [src/].

    ** Files and the code they model

    Language and standard library:
    - [Prelude]: errors as values ([outcome]), list lemmas, first occurrences
      ([firsts]), automation.
    - [JsString], [JsValue]: ECMAScript strings (UTF-16 code units), numbers,
      values, plain objects in enumeration order, [Map]s.
    - [Json], [JsonWrite], [JsonPretty]: [JSON.parse] and [JSON.stringify], their round trip,
      and the interface [TextCodec] through which the stores use it.
    - [Regex]: the patterns the sources use, as a backtracking matcher with a
      correctness theorem, groups and the global search.

    [packages/oos-dsls-ts]:
    - [DslTypes]: [src/types.ts], one inductive or record per type.
    - [DslAst]: the syntax trees of [src/generated/ast.ts] the mappers read.
    - [DslMapper]: [src/mapper/], trees to runtime definitions; [MapperSpec]: what
      a view is mapped to, as a relation that does not use the mapper.
    - [DslValidation]: [src/validation/] and [src/parse.ts].
    - [Operators]: [src/renderer/operators.ts], the table of filter operators
      that the schema and the chunks share.
    - [Renderer]: [src/renderer/aliases.ts], [llm-chunk.ts], [view-chunk.ts].

    [packages/oos-gql-ts]:
    - [SqlSelect], [SqlMutation]: [src/sql/] and the dialects of
      [src/db-client.ts].
    - [Resolvers]: [src/resolvers/]; a resolver is a tree of queries that is
      run against an arbitrary database.
    - [GqlSchema]: [src/schema/], [naming.ts], [types-mapping.ts],
      [permissions.ts].
    - [ClientMutation], [ClientQueries]: [src/client/].

    [packages/oos-pipeline-ts]:
    - [Pipeline]: [src/types.ts], [mapper.ts], [validator.ts], [parser.ts].

    [packages/oos-ui-ts]:
    - [ViewState]: [src/state.ts], [envelope.ts], the row source of
      [components/table.tsx].
    - [Mock]: [src/mock/], the preview generator.
    - [Widgets]: [components/widgets.tsx] with [format.ts].

    [apps/oos/src/mainview]:
    - [TextResolver]: [store/resolver.ts], the keyword path.
    - [Stores]: the row codecs of [store/chats.ts], [turns.ts],
      [pipeline-steps.ts], [ui-state.ts], [finetuning.ts].
    - [Tabs], [TabsLaws]: [store/tabs.ts], the definitions and their theory.
    - [ChatTurn], [ChatTurnLaws]: [hooks/useChat.ts], a chat turn with its agent
      events, cancellation and autosave.
    - [Composer], [ComposerLaws]: [components/Chat.tsx], the chat input.
    - [Embedder]: [embedder/embedder.ts] (and its copy in [apps/oosd]), in
      double precision; [EmbeddingResolver]: the embedding path of
      [store/resolver.ts].
    - [Auth], [Session]: [store/auth.ts], the identity part of [rpc.ts],
      [components/LoginScreen.tsx], and the gate of [App.tsx].
    - [LogStore]: [store/log-store.ts].
    - [RecordForm]: [components/DetailRenderer.tsx]; [EventBus]:
      [domain-events.ts]; [ListTab]: [components/ViewRenderer.tsx], and a list,
      a form and a server together.
    - [EventContent], [StreamDetail]: [components/StreamDetailPanel.tsx], the
      text an event is edited as and the panel; [NewEvent]:
      [components/NewEventPanel.tsx]; [StreamManager]:
      [components/StreamManagerPanel.tsx].
    - [Finetuning]: [components/SettingsFinetuningPanel.tsx] over the hook of
      [store/finetuning.ts]; [KvStore]: [components/KvStorePanel.tsx] of
      [apps/oosd].
    - [ChatHistory]: [components/ChatHistoryPanel.tsx], [chat-events.ts];
      [Activity]: [components/ActivityListPanel.tsx], [ActivityDetailPanel.tsx],
      [PipelineStepTimeline.tsx]; [Translate]: [components/TranslatePanel.tsx].
    - [PipelineList], [PipelineRun]: [components/PipelineListPanel.tsx] with
      [PipelineExamplesDrawer.tsx], and [components/PipelineRunPanel.tsx].
    - [Spotlight]: [components/spotlight-actions.tsx], [OosSpotlight.tsx].

    [apps/oosd/src/mainview]:
    - [IntentResolver]: the resolver of the assistant, [embedder/dsl-resolver.ts].
    - [Assistant]: [components/ChatPanel.tsx].
    - [NewItem]: [components/templates.ts], [NewItemDialog.tsx]; [Designer]:
      [App.tsx] with its editors and lists.
    - [Completion]: [lang/monaco/completion.ts], and of [apps/oos]
      [kv-completion.ts] and [pipeline-lang.ts].
    - [GrammarTypes]: [components/EventTypesPanel.tsx]; [EventContext]:
      [components/EventsPanel.tsx] and the SQL it writes.

    [apps/ooso/src/mainview]:
    - [Console]: [state.ts], [components/ServiceTable.tsx], [nats.ts].

    Several applications:
    - [BusLink]: the shared connection, [nats.ts] of [oos], [oosd] and [ooso].
    - [RpcSeam]: [rpc.ts] of [oos] and [oosd], all their methods.
    - [ParseWorker]: [lang/worker/] of [oos] and [oosd].

    Generated parsers of [oos-dsls-ts] and [oos-pipeline-ts]:
    - [Grammar], [GrammarLaws]: what a grammar is, recognition by recursive
      descent, and its theory; [DomainGrammar], [EventSchemaGrammar],
      [ViewGrammar], [PipelineGrammar]: [generated/grammar.ts]; [Languages]:
      theorems about the four; [Lexing]: from text to tokens, and which texts
      are sentences.
    - [AstModel], [DslAstTypes], [PipelineAstTypes]: [generated/ast.ts];
      [AstTyping], [AstLaws]: the values a rule yields and their types.

    ** How the parts meet

    [Operators] is the contract between the schema, the SQL decoder and the
    chunks: [GqlSchema] proves that every argument the schema exposes filters
    by its operator, [Renderer] that every example shown to the model is a
    query the schema accepts, [ClientMutation] that every mutation a form
    builds has arguments the schema accepts.  [DslMapper] produces the
    definitions all of them consume.  [RecordForm] loads and saves through
    [ViewState], publishes on [EventBus], and [ListTab] composes the two with a
    list.  [Composer] hands messages to [ChatTurn].  [ViewState] consumes what
    [ClientQueries] extracts and what [Mock] invents, and [Widgets] shows it.
    [NewItem], [Completion] and [PipelineList] read the texts the program writes
    with [Lexing].  [Spotlight], [PipelineRun] and [StreamManager] act on the
    workspace of [Tabs]; [Designer] is proved against the interface
    [DocumentStore], which its service implements.

    ** What the theorems show

    - SQL: every statement binds exactly its placeholders in every dialect; the
      text of a statement does not depend on argument values; a mutation
      without RETURNING reads its row back; read-only fields are never written.
    - Schema: filter and write arguments mean what the SQL layer does with
      them; fields are routed to their own resolver; permissions fail closed.
    - Client: string escaping reads back, mutations are well formed, unknown
      fields are reported, responses are read by name.
    - Languages: the mapper of a view is the relation that describes it part by
      part, the mapper of a domain buckets its members and treats modifiers
      independently; the validators report exactly the violations; an accepted pipeline runs with every read resolved, and
      parsing leaves the document store clean on every path.
    - Chunks: the alias list is exact, examples are accepted, the section on
      dropdowns asks once for each option list, with a query the schema serves,
      white space is normal.
    - Forms: load, edit and save change exactly the edited field; a preview
      shows a typed value in every bound place.
    - Workspace: an invariant over all reachable states, the exact condition
      under which the active tab is open (with the sessions that violate it),
      where the focus goes on closing, displacement, idempotence of focusing,
      locality of run updates.
    - Grammars: recognition ends and decides the language; every tree is of the
      type the generated module declares, with two named exceptions.
    - Chat: one turn at a time, every turn ends, the transcript of a turn under
      any interleaving; what the input sends; what the assistant posts and opens.
    - Embedding: the closest candidate in double precision, one load and one
      build at a time, the answer of every call under any interleaving.
    - Session: a token is read back, and workspace, claims and login screen are
      what the host reported since the last sign-out.
    - Records: what a save sends and leaves; publishing reaches the subscribers;
      a list follows the forms of its domain, and is empty when its last query failed.
    - Log buffer: the newest records, without a gap, within its bound.
    - Texts that are read again: which snippets, stubs, templates and examples
      parse, and which do not; the SQL of an event context creates what its
      form says; the text of an event keeps the fields it can.
    - Windows and panels, under every interleaving of clicks and answers: what
      the designer's clean editors show, what the event panels send, that an
      accepted pipeline run is kept, what the parse worker answers, the table of
      the console, one connection at a time.  The cases at the end of these
      files are the interleavings in which a panel does what it should not.
    - The seam: every failure of a call is told by its method, but for a list of
      those that are not.
    - What is shown: bound widgets, durations, groups of chats, the palette.
    - Resolver and stores: the first mentioned domain and the documented order
      of preference among its views; stored rows read back.

    ** Representation, bounds and fuel

    - A function that may throw returns [outcome]; a promise that rejects is
      the same value.  Shared stores are passed explicitly.
    - Numbers are exact decimals, so arithmetic is exact where a double is
      (up to 15 digits).  Where the program divides or takes roots the double is
      written out: [Embedder], the durations of [Activity], the percentage of
      [PipelineRun].
    - Case mapping is exact on Latin-1.  The property name [__proto__], whose
      assignment changes a prototype, is outside the model of objects.
    - Fuel: the JSON parser takes [2 * length + 1] steps, shown never to be
      felt ([Json.json_fuel_enough]); the search loop of [containsWord] takes
      one more than the length of the text, shown to find every occurrence
      ([TextResolver.word_loop_spec]); stripping zeros of a printed number is
      bounded by its digits; a scan for code blocks takes one more than the
      units of the text ([Assistant.scan_fuel]); recognition takes what
      [Languages.parsing_ends] gives; a delivery takes one step more than the
      entries of its channel ([EventBus.publish_exact]) unless a listener
      subscribes meanwhile, when it need not end; the tokens of a text take its
      length ([Lexing.tokens_fuel]), a global search and the removal of tagged
      blocks one more ([PipelineRun.remove_blocks_fuel]); [is_phrase] answers
      [None] when its fuel does not suffice, and every use of it here, with 300 or
      400, is shown to answer; [StreamManager.settle] takes the weight of the
      calls that are out ([StreamManager.settle_done]).  Everything else is
      structural.
    - Asynchronous code is a transition system: a call that waits is part of the
      state and its answer is an event, so theorems quantify over every order of
      answers.  A React effect runs as part of the event that caused it.
    - Parameters: the database handler, the Langium services that build trees
      (the mappers see well-typed trees, without the holes of error recovery),
      the collation of the host, and the bundled documentation topics.
    - Ids that are minted from the clock are distinct from open ones when the
      clock has moved on ([TabsLaws.fresh]).

    ** Not modelled

    - Presentation: the components that only lay out what they are given, the
      theme, Markdown, icons, and the Monaco set-up.  They keep no state of their
      own beyond what is modelled.
    - Connection, identity, chunk, help and documentation panels: forms
      over one call each, of the shape the modelled panels have; the agent's
      tool loop they configure runs in the Rust services.
    - The transport behind the seams (NATS, JetStream buckets, Tauri commands), the
      dependency injection of the generated parsers, the Langium runtime, and the
      libraries: they are parameters.
    - Generated documentation texts, seeds, scripts, tests, the benchmark, and the
      Rust half of the repository. *)

From stdpp Require Export prelude gmap strings.
From Stdlib Require Export ZArith NArith Lia.
From Stdlib Require DecimalN.

(** * Errors

    A TypeScript function that may [throw] returns an [outcome]: the value, or
    the message of the [Error] it raised. *)
Inductive outcome (A : Type) : Type :=
| Ok (a : A)
| Throw (msg : list N).
Arguments Ok {A} a.
Arguments Throw {A} msg.

#[export] Instance outcome_ret : MRet outcome := λ A a, Ok a.
#[export] Instance outcome_bind : MBind outcome := λ A B f m,
  match m with Ok a => f a | Throw e => Throw e end.

Lemma outcome_bind_Ok {A B} (m : outcome A) (f : A → outcome B) b :
  m ≫= f = Ok b → ∃ a, m = Ok a ∧ f a = Ok b.
Proof. destruct m; simpl; [eauto|discriminate]. Qed.

(** [for (const x of l) out.push(f(x))] where [f] may throw. *)
Fixpoint outcome_map {A B} (f : A → outcome B) (l : list A) : outcome (list B) :=
  match l with
  | [] => Ok []
  | x :: l => y ← f x; ys ← outcome_map f l; Ok (y :: ys)
  end.

(** * Automation *)

(** A decidable statement without variables, by evaluation. *)
Ltac decide_closed := apply (bool_decide_unpack _); vm_compute; exact I.

(** Splits on every condition a result was chosen by. *)
Ltac split_ifs := repeat match goal with |- context [if ?b then _ else _] => destruct b end.

(** Membership facts about concrete lists, to contradictions and equations. *)
Ltac elem_cases :=
  repeat match goal with
  | H : _ ∈ [] |- _ => by apply elem_of_nil in H
  | H : _ ∈ [_] |- _ => apply list_elem_of_singleton in H
  | H : _ ∈ _ :: _ |- _ => apply elem_of_cons in H as [H|H]
  | H : _ ∈ _ ++ _ |- _ => apply elem_of_app in H as [H|H]
  end.

(** Facts about lists that close side conditions. *)
Create HintDb lists.

(** * Lists *)

Lemma Forall_elem {A} {P : A → Prop} {l} (H : Forall P l) x : x ∈ l → P x.
Proof. by apply Forall_forall. Qed.

Lemma NoDup_fmap_filter {A B} (f : A → B) (P : A → Prop) `{!∀ x, Decision (P x)} l :
  NoDup (f <$> l) → NoDup (f <$> filter P l).
Proof.
  induction l as [|x l IH]; [done|]. rewrite fmap_cons, NoDup_cons. intros [Hx Hl].
  rewrite filter_cons. case_decide; [|by apply IH].
  rewrite fmap_cons, NoDup_cons. split; [|by apply IH].
  intros (y & Hxy & Hy)%list_elem_of_fmap. apply Hx, list_elem_of_fmap.
  exists y. by apply list_elem_of_filter in Hy as [_ ?].
Qed.

Lemma elem_delete {A} (x m : A) (l : list A) i : x ∈ l → l !! i = Some m → x ≠ m → x ∈ delete i l.
Proof.
  intros [j Hj]%list_elem_of_lookup Hi Hne. apply list_elem_of_lookup.
  destruct (decide (j < i)).
  - exists j. by rewrite list_lookup_delete_lt.
  - exists (j - 1). assert (j ≠ i) by congruence. rewrite list_lookup_delete_ge by lia.
    by replace (S (j - 1)) with j by lia.
Qed.

Lemma filter_all {A} (P : A → Prop) `{!∀ x, Decision (P x)} l :
  Forall P l → filter P l = l.
Proof.
  induction 1 as [|x l Hx _ IH]; [done|].
  by rewrite filter_cons_True, IH.
Qed.

Lemma find_app {A} (f : A → bool) l1 l2 :
  List.find f (l1 ++ l2) =
  match List.find f l1 with Some x => Some x | None => List.find f l2 end.
Proof. induction l1 as [|x l1 IH]; simpl; [done|]. by destruct (f x). Qed.

Lemma exists_elem_cons {A} (P : A → Prop) x l :
  (∃ y, y ∈ x :: l ∧ P y) ↔ P x ∨ ∃ y, y ∈ l ∧ P y.
Proof. setoid_rewrite elem_of_cons. naive_solver. Qed.

Lemma omap_cons_eq {A B} (f : A → option B) x l :
  omap f (x :: l) = match f x with Some y => y :: omap f l | None => omap f l end.
Proof. reflexivity. Qed.

(** [for (const x of l) { const y = f(x); if (y) out.push(y); }] *)
Section filter_map.
Context {A B : Type} (f : A → option B).

Fixpoint filter_map (l : list A) : list B :=
  match l with
  | [] => []
  | x :: l => match f x with Some y => y :: filter_map l | None => filter_map l end
  end.

Lemma filter_map_omap l : filter_map l = omap f l.
Proof. induction l as [|x l IH]; simpl; [done|]. by destruct (f x); rewrite IH. Qed.

Lemma filter_map_app l1 l2 : filter_map (l1 ++ l2) = filter_map l1 ++ filter_map l2.
Proof. induction l1 as [|x l1 IH]; simpl; [done|]. by destruct (f x); rewrite IH. Qed.
End filter_map.

Lemma app_nil_iff {A} (l1 l2 : list A) : l1 ++ l2 = [] ↔ l1 = [] ∧ l2 = [].
Proof. destruct l1; naive_solver. Qed.

Lemma concat_nil_iff {A} (ls : list (list A)) : concat ls = [] ↔ Forall (λ l, l = []) ls.
Proof.
  induction ls as [|l ls IH]; [by split|]. cbn [concat]. by rewrite app_nil_iff, Forall_cons, IH.
Qed.

(** [l.find(f)] splits the list at its answer. *)
Lemma find_split {A} (f : A → bool) l x :
  List.find f l = Some x →
  ∃ before after, l = before ++ x :: after ∧ f x = true ∧ ∀ y, y ∈ before → f y ≠ true.
Proof.
  induction l as [|y l IH]; [done|]. cbn [List.find]. destruct (f y) eqn:E.
  - intros [= <-]. exists [], l. split_and!; [done|done|]. by intros y' ?%elem_of_nil.
  - intros (before & after & -> & Hx & Hb)%IH. exists (y :: before), after.
    split_and!; [done|done|]. intros y' [->|Hy]%elem_of_cons; [by rewrite E|by apply Hb].
Qed.

(** ** First occurrences *)

Section firsts.
Context {A : Type} `{EqDecision A}.

(** The members in the order in which they come up. *)
Fixpoint firsts (l : list A) : list A :=
  match l with [] => [] | k :: l => k :: filter (λ k', k' ≠ k) (firsts l) end.

Lemma elem_of_firsts k l : k ∈ firsts l ↔ k ∈ l.
Proof.
  induction l as [|a l IH]; [done|]. cbn [firsts]. rewrite !elem_of_cons, list_elem_of_filter, IH.
  destruct (decide (k = a)); tauto.
Qed.
Lemma firsts_NoDup l : NoDup (firsts l).
Proof.
  induction l as [|a l IH]; [by apply NoDup_nil|]. cbn [firsts]. apply NoDup_cons. split; [|by apply NoDup_filter].
  rewrite list_elem_of_filter. tauto.
Qed.
Lemma firsts_snoc l k : firsts (l ++ [k]) = if decide (k ∈ l) then firsts l else firsts l ++ [k].
Proof.
  induction l as [|a l IH]; [done|]. cbn [firsts app]. rewrite IH. destruct (decide (k ∈ l)) as [Hk|Hk].
  - rewrite decide_True by by right. done.
  - destruct (decide (k = a)) as [->|Hne].
    + rewrite decide_True by by left. rewrite filter_app. rewrite (filter_cons_False _ a []) by (intros H; by apply H).
      by rewrite filter_nil, app_nil_r.
    + rewrite decide_False by (rewrite elem_of_cons; tauto). rewrite filter_app. rewrite (filter_cons_True _ k []) by done. done.
Qed.
End firsts.

#[export] Hint Resolve NoDup_fmap_filter Forall_nil_2 Forall_cons_2 : lists.
#[export] Hint Resolve list_elem_of_fmap_2 : lists.
