(* ===== verification/JsString.v ===== *)
(** ECMAScript strings and the [String.prototype] operations the program uses.

    A string is its sequence of UTF-16 code units, as the language defines it.
    [js], written [ #"..."], turns a literal of this development into that
    sequence.  Case mapping is exact on the Latin-1 range (which holds every
    letter the program compares against); other code units map to themselves. *)

From S2P Require Export Prelude.

Declare Scope js_scope.
Delimit Scope js_scope with js.
#[global] Open Scope js_scope.

Abbreviation str := (list N).

(** ** Literals *)

Fixpoint bytes_of (s : string) : list N :=
  match s with
  | EmptyString => []
  | String a s => Ascii.N_of_ascii a :: bytes_of s
  end.

(** UTF-8 to UTF-16, for well-formed input. *)
Fixpoint utf16_of_utf8 (l : list N) : str :=
  match l with
  | [] => []
  | b :: l1 =>
    if (b <? 128)%N then b :: utf16_of_utf8 l1 else
    match l1 with
    | [] => []
    | c :: l2 =>
      if (b <? 224)%N then ((b - 192) * 64 + (c - 128))%N :: utf16_of_utf8 l2 else
      match l2 with
      | [] => []
      | d :: l3 =>
        if (b <? 240)%N
        then ((b - 224) * 4096 + (c - 128) * 64 + (d - 128))%N :: utf16_of_utf8 l3 else
        match l3 with
        | [] => []
        | e :: l4 =>
          let cp := ((b - 240) * 262144 + (c - 128) * 4096 + (d - 128) * 64
                     + (e - 128) - 65536)%N in
          (55296 + cp / 1024)%N :: (56320 + cp mod 1024)%N :: utf16_of_utf8 l4
        end
      end
    end
  end.

Definition js (s : string) : str := utf16_of_utf8 (bytes_of s).
Notation "# s" := (js s) (at level 8, s at level 0, format "# s") : js_scope.

(** Code units that are awkward to write in a literal. *)
Definition dq : N := 34.          (** the double quote *)
Definition nl : N := 10.
Definition cr : N := 13.
Definition tab : N := 9.
Definition backslash : N := 92.

(** The literal between double quotes. *)
Definition quoted (s : str) : str := [dq] ++ s ++ [dq].

(** Closed decidable facts about literals, by evaluation. *)
Ltac closed_goal :=
  tryif (match goal with x : _ |- _ => match goal with |- context [x] => idtac end end)
  then fail else idtac.
Ltac js_decide := closed_goal; decide_closed.

(** Two texts that differ in how their pieces are bracketed and cut. *)
Ltac text_assoc := repeat (rewrite <- app_assoc; cbn [app]); done.

(** ** Character classes *)

Definition is_digit (c : N) : bool := ((48 <=? c) && (c <=? 57))%N.
Definition is_upper (c : N) : bool := ((65 <=? c) && (c <=? 90))%N.
Definition is_lower (c : N) : bool := ((97 <=? c) && (c <=? 122))%N.

(** The WhiteSpace and LineTerminator code points: what [trim] removes and
    what [\s] matches. *)
Definition is_space (c : N) : bool :=
  bool_decide (c ∈ [9; 10; 11; 12; 13; 32; 160; 5760; 8232; 8233; 8239; 8287;
                    12288; 65279]%N)
  || ((8192 <=? c) && (c <=? 8202))%N.

Definition to_lower1 (c : N) : N :=
  if is_upper c then (c + 32)%N
  else if ((192 <=? c) && (c <=? 222) && negb (c =? 215))%N then (c + 32)%N
  else c.
Definition to_lower (s : str) : str := to_lower1 <$> s.

Definition to_upper1 (c : N) : str :=
  if is_lower c then [(c - 32)%N]
  else if (c =? 223)%N then #"SS"
  else if (c =? 255)%N then [376%N]
  else if (c =? 181)%N then [924%N]
  else if ((224 <=? c) && (c <=? 254) && negb (c =? 247))%N then [(c - 32)%N]
  else [c].
Definition to_upper (s : str) : str := s ≫= to_upper1.

(** ** Searching *)

Fixpoint starts_with (p s : str) : bool :=
  match p, s with
  | [], _ => true
  | a :: p, b :: s => (a =? b)%N && starts_with p s
  | _ :: _, [] => false
  end.

(** [s.endsWith(p)] *)
Definition ends_with (p s : str) : bool :=
  (length p <=? length s) && bool_decide (drop (length s - length p) s = p).

(** [s.slice(0, -n)] *)
Definition slice_end (n : nat) (s : str) : str := take (length s - n) s.

(** [hay.indexOf(needle)]: the least position at which [needle] occurs. *)
Fixpoint index_of (needle hay : str) : option nat :=
  if starts_with needle hay then Some 0
  else match hay with
       | [] => None
       | _ :: hay => S <$> index_of needle hay
       end.

Definition includes (needle hay : str) : bool := bool_decide (is_Some (index_of needle hay)).

(** ** Trimming *)

Fixpoint trim_start (s : str) : str :=
  match s with
  | [] => []
  | c :: s' => if is_space c then trim_start s' else s
  end.
Definition trim_end (s : str) : str := reverse (trim_start (reverse s)).
Definition trim (s : str) : str := trim_end (trim_start s).

(** ** Splitting and joining *)

(** [l.join(sep)] *)
Fixpoint join (sep : str) (l : list str) : str :=
  match l with
  | [] => []
  | [s] => s
  | s :: l => s ++ sep ++ join sep l
  end.

(** [s.split(c)] for a separator of one code unit. *)
Fixpoint split_on (c : N) (s : str) : list str :=
  match s with
  | [] => [[]]
  | a :: s =>
    if (a =? c)%N then [] :: split_on c s
    else match split_on c s with
         | [] => [[a]]
         | p :: ps => (a :: p) :: ps
         end
  end.

(** ** Decimal integers *)

Fixpoint units_of_uint (u : Decimal.uint) : str :=
  match u with
  | Decimal.Nil => []
  | Decimal.D0 u => 48%N :: units_of_uint u
  | Decimal.D1 u => 49%N :: units_of_uint u
  | Decimal.D2 u => 50%N :: units_of_uint u
  | Decimal.D3 u => 51%N :: units_of_uint u
  | Decimal.D4 u => 52%N :: units_of_uint u
  | Decimal.D5 u => 53%N :: units_of_uint u
  | Decimal.D6 u => 54%N :: units_of_uint u
  | Decimal.D7 u => 55%N :: units_of_uint u
  | Decimal.D8 u => 56%N :: units_of_uint u
  | Decimal.D9 u => 57%N :: units_of_uint u
  end.

Definition digit_cons (c : N) (u : Decimal.uint) : Decimal.uint :=
  match (c - 48)%N with
  | 0%N => Decimal.D0 u | 1%N => Decimal.D1 u | 2%N => Decimal.D2 u
  | 3%N => Decimal.D3 u | 4%N => Decimal.D4 u | 5%N => Decimal.D5 u
  | 6%N => Decimal.D6 u | 7%N => Decimal.D7 u | 8%N => Decimal.D8 u
  | _ => Decimal.D9 u
  end.

(** The longest prefix of decimal digits. *)
Fixpoint uint_of_units (s : str) : Decimal.uint :=
  match s with
  | [] => Decimal.Nil
  | c :: s => if is_digit c then digit_cons c (uint_of_units s) else Decimal.Nil
  end.

Definition show_N (n : N) : str := units_of_uint (N.to_uint n).
Definition show_nat (n : nat) : str := show_N (N.of_nat n).
Definition show_Z (z : Z) : str :=
  match z with
  | Z0 => #"0"
  | Zpos p => show_N (Npos p)
  | Zneg p => #"-" ++ show_N (Npos p)
  end.

(** The value of the longest digit prefix, and how many digits it has. *)
Definition digits_value (s : str) : N := N.of_uint (uint_of_units s).
Fixpoint digits_count (s : str) : nat :=
  match s with
  | c :: s => if is_digit c then S (digits_count s) else 0
  | [] => 0
  end.

(** [/^\d+$/.test(s)] *)
Definition all_digits (s : str) : bool :=
  negb (bool_decide (s = [])) && forallb is_digit s.

(** * Lemmas *)

Lemma starts_with_spec p s : starts_with p s = true ↔ ∃ k, s = p ++ k.
Proof.
  revert s; induction p as [|a p IH]; intros [|b s]; simpl.
  - split; [by exists []|done].
  - split; [by eexists|done].
  - split; [done|by intros [? ?]].
  - rewrite andb_true_iff, N.eqb_eq, IH. split.
    + intros [-> [k ->]]. by exists k.
    + intros [k [= -> ->]]. eauto.
Qed.

Lemma starts_with_app p s : starts_with p (p ++ s) = true.
Proof. apply starts_with_spec. eauto. Qed.

Lemma ends_with_spec p s : ends_with p s = true ↔ ∃ k, s = k ++ p.
Proof.
  unfold ends_with. rewrite andb_true_iff, Nat.leb_le, bool_decide_eq_true. split.
  - intros [_ H]. exists (take (length s - length p) s).
    by rewrite <- H at 2; rewrite take_drop.
  - intros [k ->]. rewrite length_app. split; [lia|].
    replace (length k + length p - length p) with (length k) by lia.
    by rewrite drop_app_length.
Qed.

Lemma ends_with_app p k : ends_with p (k ++ p) = true.
Proof. apply ends_with_spec. eauto. Qed.

Lemma slice_end_app k p : slice_end (length p) (k ++ p) = k.
Proof.
  unfold slice_end. rewrite length_app.
  replace (length k + length p - length p) with (length k) by lia.
  apply take_app_length.
Qed.

Lemma units_of_uint_digits u : forallb is_digit (units_of_uint u) = true.
Proof. induction u; simpl; auto. Qed.

Lemma units_of_uint_inj u v : units_of_uint u = units_of_uint v → u = v.
Proof.
  revert v; induction u; intros v; destruct v; simpl; intros [=]; try done;
    f_equal; auto.
Qed.

Lemma show_N_digits n : forallb is_digit (show_N n) = true.
Proof. apply units_of_uint_digits. Qed.

Lemma show_N_inj n m : show_N n = show_N m → n = m.
Proof.
  intros H%units_of_uint_inj.
  apply (f_equal N.of_uint) in H. by rewrite !DecimalN.Unsigned.of_to in H.
Qed.

Lemma show_nat_inj n m : show_nat n = show_nat m → n = m.
Proof. intros H%show_N_inj. lia. Qed.

(** A string that does not begin with a digit. *)
Definition no_digit_head (s : str) : Prop :=
  match s with c :: _ => is_digit c = false | [] => True end.

Lemma uint_of_units_app u s :
  no_digit_head s → uint_of_units (units_of_uint u ++ s) = u.
Proof.
  intros Hs. induction u; simpl; try by f_equal.
  destruct s as [|c s]; [done|]. simpl in *. by rewrite Hs.
Qed.

Lemma digits_value_show n s : no_digit_head s → digits_value (show_N n ++ s) = n.
Proof.
  intros. unfold digits_value, show_N. rewrite uint_of_units_app by done.
  apply DecimalN.Unsigned.of_to.
Qed.

Lemma show_N_nonempty n : show_N n ≠ [].
Proof.
  destruct n as [|p]; [done|]. intros H.
  assert (Hz : show_N (Npos p) = units_of_uint Decimal.Nil) by done.
  apply units_of_uint_inj, (f_equal N.of_uint) in Hz.
  by rewrite DecimalN.Unsigned.of_to in Hz.
Qed.

Lemma show_N_not_in c n : is_digit c = false → c ∉ show_N n.
Proof.
  intros Hc Hin. pose proof (show_N_digits n) as Hd. rewrite forallb_forall in Hd.
  apply list_elem_of_In, Hd in Hin. congruence.
Qed.

Lemma all_digits_show n : all_digits (show_N n) = true.
Proof.
  unfold all_digits. rewrite show_N_digits.
  rewrite bool_decide_eq_false_2 by apply show_N_nonempty. done.
Qed.

Lemma join_cons sep s l : l ≠ [] → join sep (s :: l) = s ++ sep ++ join sep l.
Proof. by destruct l. Qed.

Lemma join_app sep l1 l2 :
  l1 ≠ [] → l2 ≠ [] → join sep (l1 ++ l2) = join sep l1 ++ sep ++ join sep l2.
Proof.
  intros H1 H2. induction l1 as [|s l1 IH]; [done|].
  destruct l1 as [|s' l1]; [by apply join_cons|].
  rewrite <- app_comm_cons, join_cons by done.
  rewrite IH, (join_cons sep s (s' :: l1)) by done. by rewrite !app_assoc.
Qed.

Lemma elem_of_join c sep l :
  c ∈ join sep l → c ∈ sep ∨ ∃ s, s ∈ l ∧ c ∈ s.
Proof.
  induction l as [|s l IH]; [set_solver|].
  destruct l as [|s' l]; [simpl; intros; right; exists s; set_solver|].
  rewrite join_cons by done. rewrite !elem_of_app. intros [?|[?|H]]; [right; exists s; set_solver|by left|].
  destruct (IH H) as [?|(s0 & ? & ?)]; [by left|].
  right. exists s0. by split; [right|].
Qed.

Lemma split_on_nonempty c s : split_on c s ≠ [].
Proof. destruct s as [|a s]; simpl; [done|]. by destruct (_ =? _)%N, (split_on c s). Qed.

Lemma split_on_app c s t :
  c ∉ s → split_on c (s ++ c :: t) = s :: split_on c t.
Proof.
  induction s as [|a s IH]; simpl; intros Hc.
  - by rewrite N.eqb_refl.
  - destruct (N.eqb_spec a c) as [->|]; [set_solver|].
    by rewrite IH by set_solver.
Qed.

Lemma split_on_none c s : c ∉ s → split_on c s = [s].
Proof.
  induction s as [|a s IH]; simpl; intros Hc; [done|].
  destruct (N.eqb_spec a c) as [->|]; [set_solver|].
  by rewrite IH by set_solver.
Qed.

Lemma split_on_join c l :
  l ≠ [] → Forall (λ s, c ∉ s) l → split_on c (join [c] l) = l.
Proof.
  intros Hl. induction 1 as [|s l Hs Hall IH]; [done|].
  destruct l as [|s' l]; [by apply split_on_none|].
  rewrite join_cons by done.
  change ([c] ++ ?x) with (c :: x). by rewrite split_on_app, IH.
Qed.

Lemma join_split_on c s : join [c] (split_on c s) = s.
Proof.
  induction s as [|a s IH]; simpl; [done|].
  destruct (N.eqb_spec a c) as [->|].
  - rewrite join_cons by apply split_on_nonempty. by rewrite IH.
  - pose proof (split_on_nonempty c s).
    destruct (split_on c s) as [|p ps]; [done|].
    rewrite <- IH. by destruct ps.
Qed.

(** Trimming *)

Definition space_free_ends (s : str) : Prop :=
  (∀ c, head s = Some c → is_space c = false) ∧
  (∀ c, last s = Some c → is_space c = false).

Lemma trim_start_suffix s : ∃ k, s = k ++ trim_start s ∧ Forall (λ c, is_space c = true) k.
Proof.
  induction s as [|c s [k [Hk Hall]]]; simpl; [by exists []|].
  destruct (is_space c) eqn:E.
  - exists (c :: k). split; [simpl; congruence|by constructor].
  - by exists [].
Qed.

Lemma trim_start_head s c : head (trim_start s) = Some c → is_space c = false.
Proof.
  induction s as [|a s IH]; simpl; [done|].
  destruct (is_space a) eqn:E; [done|]. simpl. by intros [= ->].
Qed.

Lemma trim_start_id s : (∀ c, head s = Some c → is_space c = false) → trim_start s = s.
Proof. destruct s as [|c s]; simpl; [done|]. intros H. by rewrite H. Qed.

Lemma head_reverse (s : str) : head (reverse s) = last s.
Proof. by rewrite <- (reverse_involutive s) at 2; rewrite last_reverse. Qed.

Lemma trim_id s : space_free_ends s → trim s = s.
Proof.
  intros [H1 H2]. unfold trim, trim_end. rewrite (trim_start_id s) by done.
  rewrite trim_start_id by (intros c; rewrite head_reverse; apply H2).
  apply reverse_involutive.
Qed.

Lemma trim_ends s : space_free_ends (trim s).
Proof.
  unfold trim, trim_end. set (t := trim_start s).
  destruct (trim_start_suffix (reverse t)) as (k & Hk & _).
  assert (Ht : t = reverse (trim_start (reverse t)) ++ reverse k).
  { rewrite <- (reverse_involutive t) at 1. rewrite Hk at 1. by rewrite reverse_app. }
  split.
  - intros c Hc. apply (trim_start_head s). fold t. rewrite Ht.
    by destruct (reverse (trim_start (reverse t))).
  - intros c. rewrite last_reverse. apply trim_start_head.
Qed.

Lemma trim_part s : ∃ k1 k2, s = k1 ++ trim s ++ k2.
Proof.
  unfold trim, trim_end. destruct (trim_start_suffix s) as (k1 & Hk1 & _).
  destruct (trim_start_suffix (reverse (trim_start s))) as (k2 & Hk2 & _).
  exists k1, (reverse k2). rewrite Hk1 at 1. f_equal.
  rewrite <- reverse_app, <- Hk2. by rewrite reverse_involutive.
Qed.

Lemma trim_idemp s : trim (trim s) = trim s.
Proof. apply trim_id, trim_ends. Qed.

Lemma trim_nonempty c s : c ∈ s → is_space c = false → trim s ≠ [].
Proof.
  intros Hin Hc E. assert (∀ t, trim_start t = [] → Forall (λ c, is_space c = true) t) as Hs.
  { intros t Ht. destruct (trim_start_suffix t) as (k & Ek & Hk). rewrite Ht, app_nil_r in Ek. by subst t. }
  unfold trim, trim_end in E. apply (f_equal reverse) in E. rewrite reverse_involutive in E. apply Hs in E.
  destruct (trim_start_suffix s) as (k & Ek & Hk). rewrite Ek in Hin. rewrite Forall_forall in E, Hk.
  apply elem_of_app in Hin as [Hin|Hin]; [apply Hk in Hin; congruence|].
  rewrite (E c) in Hc; [done|]. by apply elem_of_reverse.
Qed.

(** ** The words of a text *)

Lemma split_on_app_sep c s t :
  split_on c (s ++ c :: t) = split_on c s ++ split_on c t.
Proof.
  induction s as [|a s IH]; simpl; [by rewrite N.eqb_refl|].
  destruct (N.eqb_spec a c); [by rewrite IH|].
  rewrite IH. pose proof (split_on_nonempty c s). by destruct (split_on c s).
Qed.

(** [w] is not one of the words of [s]. *)
Definition word_free (w s : str) : Prop := w ∉ split_on 32%N s.

Lemma word_free_app w s t :
  word_free w (s ++ 32%N :: t) ↔ word_free w s ∧ word_free w t.
Proof. unfold word_free. rewrite split_on_app_sep, not_elem_of_app. done. Qed.

Lemma word_free_word w s : 32%N ∉ s → s ≠ w → word_free w s.
Proof. intros Hs Hw. unfold word_free. rewrite split_on_none by done. set_solver. Qed.

(** A word with a unit that does not occur in [w] is not [w]. *)
Lemma word_free_unit w s c : 32%N ∉ s → c ∈ s → c ∉ w → word_free w s.
Proof. intros Hs Hc Hw. apply word_free_word; [done|]. by intros ->. Qed.

(** A comma-separated list of words followed by a mark that [w] lacks. *)
Lemma word_free_join w pre l post c :
  32%N ∉ pre → Forall (λ s, 32%N ∉ s) l → l ≠ [] →
  32%N ∉ post → c ∈ post → c ∉ w → 44%N ∉ w →
  word_free w (pre ++ join #", " l ++ post).
Proof.
  intros Hpre Hl Hne Hpost Hc Hw Hcomma. revert pre Hpre.
  induction Hl as [|s l Hs Hl IH]; [done|]. intros pre Hpre.
  destruct l as [|s' l].
  - apply (word_free_unit _ _ c); simpl; set_solver.
  - rewrite join_cons by done. rewrite <- app_assoc.
    replace (pre ++ s ++ (#", " ++ join #", " (s' :: l)) ++ post)
      with ((pre ++ s ++ [44%N]) ++ 32%N :: ([] ++ join #", " (s' :: l) ++ post))
      by (rewrite <- !app_assoc; done).
    apply word_free_app. split.
    + apply (word_free_unit _ _ 44%N); set_solver.
    + apply IH; [done|set_solver].
Qed.
