(* ===== verification/Regex.v ===== *)
(** Regular expressions of ECMAScript: the part of the pattern syntax that the
    terminal rules of [generated/grammar.ts] and the sources of this
    development use, and which prefixes of a text a pattern matches, in the
    order in which the backtracking matcher finds them, and the global search for
    a pattern with groups.  [remainders_spec] is the matcher's correctness: what it
    finds is what the pattern's language contains. *)

From S2P Require Export JsString.

#[local] Set Warnings "-register-all".

(** * Patterns *)

(** What stands in a class: a range, [\w], [\s] or [\S]. *)
Inductive ClassItem := Range (lo hi : N) | Word | Space | NotSpace.

Inductive Regex :=
| RSet (negated : bool) (items : list ClassItem)
| REmpty
| RSeq (r1 r2 : Regex)
| RAlt (r1 r2 : Regex)
| RStar (lazily : bool) (r : Regex).

Definition is_word (c : N) : bool := is_lower c || is_upper c || is_digit c || (c =? 95)%N.

Definition item_has (i : ClassItem) (c : N) : bool :=
  match i with
  | Range lo hi => ((lo <=? c) && (c <=? hi))%N
  | Word => is_word c
  | Space => is_space c
  | NotSpace => negb (is_space c)
  end.
Definition set_has (negated : bool) (items : list ClassItem) (c : N) : bool :=
  xorb negated (existsb (λ i, item_has i c) items).

Lemma set_has_pos items c : set_has false items c = existsb (λ i, item_has i c) items.
Proof. unfold set_has. by destruct (existsb _ items). Qed.

Lemma set_has_neg items c : set_has true items c = negb (existsb (λ i, item_has i c) items).
Proof. unfold set_has. by destruct (existsb _ items). Qed.

(** [r?] prefers to match, [r+] matches at least once. *)
Definition ROpt (r : Regex) : Regex := RAlt r REmpty.
Definition RPlus (lazily : bool) (r : Regex) : Regex := RSeq r (RStar lazily r).
Definition one (c : N) : Regex := RSet false [Range c c].

(** ** Their syntax *)

(** What follows a backslash. *)
Definition escape_item (c : N) : ClassItem :=
  if (c =? 119)%N then Word else if (c =? 115)%N then Space else if (c =? 83)%N then NotSpace
  else if (c =? 110)%N then Range 10 10 else if (c =? 114)%N then Range 13 13 else if (c =? 116)%N then Range 9 9
  else if (c =? 100)%N then Range 48 57
  else Range c c.

(** The items of a class up to its bracket. *)
Fixpoint class_items (s : str) : option (list ClassItem * str) :=
  match s with
  | 93%N :: s => Some ([], s)
  | 92%N :: c :: s => p ← class_items s; Some (escape_item c :: p.1, p.2)
  | lo :: ((45%N :: ((hi :: s') as bracket)) as s) =>
    if (hi =? 93)%N then p ← class_items s; Some (Range lo lo :: p.1, p.2)
    else p ← class_items s'; Some (Range lo hi :: p.1, p.2)
  | c :: s => p ← class_items s; Some (Range c c :: p.1, p.2)
  | [] => None
  end.

(** The quantifier behind an atom. *)
Definition quantified (r : Regex) (s : str) : Regex * str :=
  match s with
  | 42%N :: 63%N :: s => (RStar true r, s)
  | 42%N :: s => (RStar false r, s)
  | 43%N :: s => (RPlus false r, s)
  | 63%N :: s => (ROpt r, s)
  | _ => (r, s)
  end.

Fixpoint parse_alt (fuel : nat) (s : str) : option (Regex * str) :=
  match fuel with
  | O => None
  | S fuel =>
    p ← parse_seq fuel s;
    match p.2 with
    | 124%N :: s => q ← parse_alt fuel s; Some (RAlt p.1 q.1, q.2)
    | _ => Some p
    end
  end
with parse_seq (fuel : nat) (s : str) : option (Regex * str) :=
  match fuel with
  | O => None
  | S fuel =>
    let atom := match s with
                | [] | 124%N :: _ | 41%N :: _ => None
                | 40%N :: 63%N :: 58%N :: s | 40%N :: s =>
                  p ← parse_alt fuel s;
                  match p.2 with 41%N :: s => Some (p.1, s) | _ => None end
                | 91%N :: 94%N :: s => p ← class_items s; Some (RSet true p.1, p.2)
                | 91%N :: s => p ← class_items s; Some (RSet false p.1, p.2)
                | 92%N :: c :: s => Some (RSet false [escape_item c], s)
                | 46%N :: s => Some (RSet true [Range 10 10; Range 13 13; Range 8232 8233], s)
                | c :: s => Some (one c, s)
                end in
    match atom with
    | None => match s with [] | 124%N :: _ | 41%N :: _ => Some (REmpty, s) | _ => None end
    | Some (r, s) =>
      let q := quantified r s in
      p ← parse_seq fuel q.2;
      Some (match p.1 with REmpty => q.1 | r2 => RSeq q.1 r2 end, p.2)
    end
  end.

(** The source of a pattern literal, [/…/]. *)
Definition parse_pattern (s : str) : option Regex :=
  match parse_alt (2 * S (length s)) s with Some (r, []) => Some r | _ => None end.
Definition parse_literal (s : str) : option Regex :=
  match s with
  | 47%N :: s => if bool_decide (last s = Some 47%N) then parse_pattern (removelast s) else None
  | _ => None
  end.

(** * What a pattern matches *)

Inductive in_lang : Regex → str → Prop :=
| in_set negated items c : set_has negated items c = true → in_lang (RSet negated items) [c]
| in_empty : in_lang REmpty []
| in_cat r1 r2 w1 w2 : in_lang r1 w1 → in_lang r2 w2 → in_lang (RSeq r1 r2) (w1 ++ w2)
| in_left r1 r2 w : in_lang r1 w → in_lang (RAlt r1 r2) w
| in_right r1 r2 w : in_lang r2 w → in_lang (RAlt r1 r2) w
| in_done lazily r : in_lang (RStar lazily r) []
| in_more lazily r w1 w2 : in_lang r w1 → in_lang (RStar lazily r) w2 → in_lang (RStar lazily r) (w1 ++ w2).

(** Iterations that consume something, at most [n]. *)
Fixpoint iterations (lazily : bool) (step : str → list str) (n : nat) (s : str) : list str :=
  match n with
  | O => [s]
  | S n =>
    let more := filter (λ s', length s' < length s) (step s) ≫= iterations lazily step n in
    if lazily then s :: more else more ++ [s]
  end.

(** What can remain of [s] behind a match, the preferred one first. *)
Fixpoint remainders (r : Regex) (s : str) : list str :=
  match r with
  | RSet negated items =>
    match s with c :: s => if set_has negated items c then [s] else [] | [] => [] end
  | REmpty => [s]
  | RSeq r1 r2 => remainders r1 s ≫= remainders r2
  | RAlt r1 r2 => remainders r1 s ++ remainders r2 s
  | RStar lazily r => iterations lazily (remainders r) (length s) s
  end.

(** The match at the start of [s]: what remains behind it. *)
Definition match_at (r : Regex) (s : str) : option str := head (remainders r s).
(** [/^r$/.test(s)] *)
Definition test_whole (r : Regex) (s : str) : bool := existsb (λ e, bool_decide (length e = 0)) (remainders r s).

(** ** The matcher finds the language *)

Lemma elem_of_iterations lazily step n s rest :
  rest ∈ iterations lazily step (S n) s ↔
  rest = s ∨ ∃ s', s' ∈ step s ∧ length s' < length s ∧ rest ∈ iterations lazily step n s'.
Proof.
  cbn [iterations]. set (more := filter _ (step s) ≫= _).
  assert (rest ∈ more ↔ ∃ s', s' ∈ step s ∧ length s' < length s ∧ rest ∈ iterations lazily step n s') as Hm.
  { unfold more. rewrite list_elem_of_bind. split.
    - intros (s' & Hr & [? ?]%list_elem_of_filter). by exists s'.
    - intros (s' & ? & ? & ?). exists s'. by rewrite list_elem_of_filter. }
  destruct lazily; [rewrite elem_of_cons, Hm|rewrite elem_of_app, Hm, list_elem_of_singleton]; tauto.
Qed.

Lemma star_nonempty lazily r w :
  in_lang (RStar lazily r) w → w = [] ∨
  ∃ w1 w2, w = w1 ++ w2 ∧ w1 ≠ [] ∧ in_lang r w1 ∧ in_lang (RStar lazily r) w2.
Proof.
  remember (RStar lazily r) as rs eqn:E. induction 1; try done; [by left|].
  injection E as -> ->. destruct w1 as [|c w1]; [by apply IHin_lang2|]. right. by exists (c :: w1), w2.
Qed.

Lemma iterations_spec lazily r n s rest :
  (∀ s rest, rest ∈ remainders r s ↔ ∃ w, s = w ++ rest ∧ in_lang r w) → length s ≤ n →
  rest ∈ iterations lazily (remainders r) n s ↔ ∃ w, s = w ++ rest ∧ in_lang (RStar lazily r) w.
Proof.
  intros IH. revert s rest. induction n as [|n IHn]; intros s rest Hn.
  - destruct s; [|cbn in Hn; lia]. cbn [iterations]. rewrite list_elem_of_singleton. split.
    + intros ->. exists []. split; [done|constructor].
    + intros (w & Hw & _). by destruct w, rest.
  - rewrite elem_of_iterations. split.
    + intros [->|(s' & Hs & Hl & Hr)]; [exists []; split; [done|constructor]|].
      apply IH in Hs as (w1 & -> & H1). apply IHn in Hr as (w2 & -> & H2).
      2:{ rewrite length_app in Hl, Hn. lia. }
      exists (w1 ++ w2). split; [by rewrite app_assoc|by constructor].
    + intros (w & -> & [->|(w1 & w2 & -> & Hne & H1 & H2)]%star_nonempty); [by left|]. right.
      exists (w2 ++ rest). rewrite <- app_assoc in *. rewrite (length_app w1) in *.
      assert (length w1 > 0) by (destruct w1; cbn; [done|lia]).
      split_and!; [apply IH; by exists w1|lia|]. apply IHn; [lia|by exists w2].
Qed.

Lemma remainders_spec r s rest : rest ∈ remainders r s ↔ ∃ w, s = w ++ rest ∧ in_lang r w.
Proof.
  revert s rest. induction r as [neg items| |r1 IH1 r2 IH2|r1 IH1 r2 IH2|lz r IH]; intros s rest; cbn [remainders].
  - destruct s as [|c s].
    + split; [intros []%elem_of_nil|]. intros (w & Hw & Hin). inversion Hin; subst. by destruct rest.
    + destruct (set_has neg items c) eqn:E.
      * rewrite list_elem_of_singleton. split.
        -- intros ->. exists [c]. split; [done|by constructor].
        -- intros (w & Hw & Hin). inversion Hin; subst. by injection Hw as _ ->.
      * split; [intros []%elem_of_nil|]. intros (w & Hw & Hin). inversion Hin; subst. injection Hw as -> _. congruence.
  - rewrite list_elem_of_singleton. split.
    + intros ->. exists []. split; [done|constructor].
    + intros (w & -> & Hin). by inversion Hin.
  - rewrite list_elem_of_bind. split.
    + intros (s' & Hr & Hs). apply IH2 in Hr as (w2 & -> & H2). apply IH1 in Hs as (w1 & -> & H1).
      exists (w1 ++ w2). split; [by rewrite app_assoc|by constructor].
    + intros (w & -> & Hin). inversion Hin as [| |? ? w1 w2 H1 H2| | | |]; subst. exists (w2 ++ rest).
      split; [apply IH2; by exists w2|]. apply IH1. exists w1. by rewrite app_assoc.
  - rewrite elem_of_app, IH1, IH2. split.
    + intros [(w & -> & H)|(w & -> & H)]; exists w; (split; [done|]); [by apply in_left|by apply in_right].
    + intros (w & -> & H). inversion H; subst; [left|right]; by exists w.
  - by apply iterations_spec.
Qed.

Lemma match_at_lang r s rest : match_at r s = Some rest → ∃ w, s = w ++ rest ∧ in_lang r w.
Proof.
  unfold match_at. intros H. apply remainders_spec. destruct (remainders r s); [done|]. injection H as ->. by left.
Qed.

Lemma test_whole_lang r s : test_whole r s = true ↔ in_lang r s.
Proof.
  unfold test_whole. rewrite existsb_exists. split.
  - intros (e & He & Hl). apply bool_decide_eq_true in Hl. destruct e; [|done].
    apply list_elem_of_In, remainders_spec in He as (w & -> & H). by rewrite app_nil_r.
  - intros H. exists []. split; [|done]. apply list_elem_of_In, remainders_spec. exists s. by rewrite app_nil_r.
Qed.

Lemma bind_one (f : str → list str) (s : str) : [s] ≫= f = f s.
Proof. apply app_nil_r. Qed.

(** A greedy repetition of a pattern that matches one character at a time
    takes every character it can. *)
Lemma match_each r (P : N → Prop) w rest :
  (∀ c s, P c → remainders r (c :: s) = [s]) → remainders r rest = [] → Forall P w →
  match_at (RStar false r) (w ++ rest) = Some rest.
Proof.
  intros Hr Hend Hw. unfold match_at. cbn [remainders].
  assert (∀ n, length w ≤ n → head (iterations false (remainders r) n (w ++ rest)) = Some rest) as H.
  { induction Hw as [|c w Hc Hw IH]; intros n Hn.
    - cbn [app]. destruct n as [|n]; [done|]. cbn [iterations]. by rewrite Hend.
    - destruct n as [|n]; [cbn in Hn; lia|]. cbn in Hn. cbn [app iterations]. rewrite (Hr c _ Hc).
      rewrite filter_cons, decide_True by (cbn [length]; lia). cbn [filter list_filter].
      rewrite bind_one. specialize (IH n ltac:(lia)). by destruct (iterations _ _ n (w ++ rest)). }
  apply H. rewrite length_app. lia.
Qed.

Lemma match_run neg items w rest :
  Forall (λ c, set_has neg items c = true) w →
  match rest with c :: _ => set_has neg items c = false | [] => True end →
  match_at (RStar false (RSet neg items)) (w ++ rest) = Some rest.
Proof.
  intros Hw Hr. apply (match_each _ (λ c, set_has neg items c = true)); [|by destruct rest; cbn [remainders]; rewrite ?Hr|done].
  intros c s Hc. cbn [remainders]. by rewrite Hc.
Qed.

(** A sequence prefers what its first part prefers, if the second part can
    follow. *)
Lemma match_seq r1 r2 s s' rest :
  match_at r1 s = Some s' → match_at r2 s' = Some rest → match_at (RSeq r1 r2) s = Some rest.
Proof.
  unfold match_at. cbn [remainders]. intros H1 H2. destruct (remainders r1 s) as [|x l]; [done|]. injection H1 as ->.
  rewrite bind_cons. by destruct (remainders r2 s').
Qed.

Lemma match_one neg items c s : set_has neg items c = true → match_at (RSet neg items) (c :: s) = Some s.
Proof. intros H. unfold match_at. cbn [remainders]. by rewrite H. Qed.

(** A first character of one class, then a greedy run of another. *)
Lemma match_word neg1 items1 neg items c w rest :
  set_has neg1 items1 c = true → Forall (λ c, set_has neg items c = true) w →
  match rest with c :: _ => set_has neg items c = false | [] => True end →
  match_at (RSeq (RSet neg1 items1) (RStar false (RSet neg items))) (c :: w ++ rest) = Some rest.
Proof. intros Hc Hw Hr. eapply match_seq; [by apply match_one|by apply match_run]. Qed.

Lemma in_lang_alt r1 r2 w : in_lang (RAlt r1 r2) w ↔ in_lang r1 w ∨ in_lang r2 w.
Proof. split; [intros H; inversion H; subst; [by left|by right]|]. intros [H|H]; [by apply in_left|by apply in_right]. Qed.

Lemma in_lang_run neg items w :
  in_lang (RStar false (RSet neg items)) w ↔ Forall (λ c, set_has neg items c = true) w.
Proof.
  split.
  - remember (RStar false (RSet neg items)) as r eqn:E. induction 1; try done.
    injection E as -> ->. apply Forall_app. split; [|by apply IHin_lang2].
    inversion H; subst. by constructor.
  - induction 1 as [|c w Hc Hw IH]; [constructor|]. by apply (in_more _ _ [c] w); [constructor|].
Qed.

(** * Groups and global search

    A pattern with groups is the sequence of its parts, each marked whether it
    is a group; the assertions [^], [$] and [\b] at its ends are predicates on
    what stands next to the match. *)

Fixpoint captures (parts : list (bool * Regex)) (s : str) : list (list str * str) :=
  match parts with
  | [] => [([], s)]
  | (group, r) :: parts =>
    remainders r s ≫= λ s',
      (λ p : list str * str, (if group then take (length s - length s') s :: p.1 else p.1, p.2))
      <$> captures parts s'
  end.

Record Search := MkSearch {
  search_start : option N → str → bool;     (** the unit before the match, the text from it on *)
  search_parts : list (bool * Regex);
  search_end : str → bool }.                (** the text behind the match *)

Definition is_line_end (c : N) : bool := bool_decide (c ∈ [10; 13; 8232; 8233]%N).
(** [^] and [$] under the flag [m]. *)
Definition line_start (prev : option N) (s : str) : bool :=
  match prev with Some c => is_line_end c | None => true end.
Definition line_end (s : str) : bool := match s with c :: _ => is_line_end c | [] => true end.
(** [\b] *)
Definition word_boundary (prev : option N) (s : str) : bool :=
  xorb (default false (is_word <$> prev)) (default false (is_word <$> head s)).
Definition anywhere (prev : option N) (s : str) : bool := true.

(** The match at this place: its groups and the text behind it. *)
Definition exec_here (p : Search) (prev : option N) (s : str) : option (list str * str) :=
  if search_start p prev s then head (filter (λ m, search_end p m.2 = true) (captures (search_parts p) s)) else None.

(** [while ((m = re.exec(s)) !== null)] with the flag [g]: the groups of the
    matches from here on.  Each round consumes at least one unit as long as no
    match is empty. *)
Fixpoint exec_loop (fuel : nat) (p : Search) (prev : option N) (s : str) : list (list str) :=
  match fuel with
  | O => []
  | S fuel =>
    match exec_here p prev s with
    | Some (groups, rest) => groups :: exec_loop fuel p (last (take (length s - length rest) s)) rest
    | None => match s with [] => [] | c :: s => exec_loop fuel p (Some c) s end
    end
  end.
Definition exec_from (p : Search) (prev : option N) (s : str) : list (list str) := exec_loop (S (length s)) p prev s.
Definition exec_all (p : Search) (s : str) : list (list str) := exec_from p None s.

Lemma captures_spec group r parts s groups rest :
  (groups, rest) ∈ captures ((group, r) :: parts) s ↔
  ∃ w s' g, s = w ++ s' ∧ in_lang r w ∧ (g, rest) ∈ captures parts s' ∧ groups = if group : bool then w :: g else g.
Proof.
  cbn [captures]. rewrite list_elem_of_bind. setoid_rewrite list_elem_of_fmap. setoid_rewrite remainders_spec.
  assert (∀ w s' : str, take (length (w ++ s') - length s') (w ++ s') = w) as Ht.
  { intros w s'. rewrite length_app, Nat.add_sub. apply take_app_length. }
  split.
  - intros (s' & ([g rest'] & Hp & Hg) & w & -> & Hw). cbn [fst snd] in Hp. rewrite Ht in Hp.
    injection Hp as -> ->. by exists w, s', g.
  - intros (w & s' & g & -> & Hw & Hg & ->). exists s'. split; [|by exists w].
    exists (g, rest). split; [|done]. cbn [fst snd]. by rewrite Ht.
Qed.

Lemma captures_done s groups rest : (groups, rest) ∈ captures [] s ↔ groups = [] ∧ rest = s.
Proof. cbn [captures]. rewrite list_elem_of_singleton. naive_solver. Qed.

Section search.
Context (p : Search).
Hypothesis consumes : ∀ s g rest, (g, rest) ∈ captures (search_parts p) s → length rest < length s.

Lemma exec_here_elem prev s m :
  exec_here p prev s = Some m → m ∈ captures (search_parts p) s ∧ search_end p m.2 = true.
Proof.
  unfold exec_here. destruct (search_start p prev s); [|done]. intros H.
  assert (m ∈ filter (λ m, search_end p m.2 = true) (captures (search_parts p) s)) as Hm.
  { destruct (filter _ _); [done|]. injection H as ->. by left. }
  by apply list_elem_of_filter in Hm as [? ?].
Qed.

(** The only match that its surroundings allow is the one found. *)
Lemma exec_here_only prev s m :
  search_start p prev s = true → m ∈ captures (search_parts p) s → search_end p m.2 = true →
  (∀ m', m' ∈ captures (search_parts p) s → search_end p m'.2 = true → m' = m) → exec_here p prev s = Some m.
Proof.
  intros Hs Hm He Hall. unfold exec_here. rewrite Hs. set (l := filter _ _).
  assert (m ∈ l) as Hl by (apply list_elem_of_filter; done).
  destruct l as [|m' l'] eqn:E; [by apply elem_of_nil in Hl|]. cbn [head]. f_equal.
  assert (m' ∈ l) as Hl' by (rewrite E; left). apply list_elem_of_filter in Hl' as [? ?]. by apply Hall.
Qed.

Lemma exec_here_none prev s :
  (∀ m, m ∈ captures (search_parts p) s → search_end p m.2 = true → False) → exec_here p prev s = None.
Proof.
  intros Hall. destruct (exec_here p prev s) as [m|] eqn:E; [|done]. by apply exec_here_elem in E as [? ?]; destruct (Hall m).
Qed.

Lemma exec_loop_enough n k prev s : length s < n → length s < k → exec_loop n p prev s = exec_loop k p prev s.
Proof.
  revert k prev s. induction n as [|n IH]; intros k prev s Hn Hk; [lia|]. destruct k as [|k]; [lia|].
  cbn [exec_loop]. destruct (exec_here p prev s) as [[g rest]|] eqn:E.
  - apply exec_here_elem in E as [E _]. apply consumes in E. f_equal. apply IH; lia.
  - destruct s as [|c s]; [done|]. cbn [length] in *. apply IH; lia.
Qed.

Lemma exec_from_hit prev s g rest :
  exec_here p prev s = Some (g, rest) →
  exec_from p prev s = g :: exec_from p (last (take (length s - length rest) s)) rest.
Proof.
  intros H. unfold exec_from at 1. cbn [exec_loop]. rewrite H. f_equal.
  apply exec_here_elem in H as [H _]. apply consumes in H. apply exec_loop_enough; lia.
Qed.

Lemma exec_from_miss prev c s : exec_here p prev (c :: s) = None → exec_from p prev (c :: s) = exec_from p (Some c) s.
Proof. intros H. unfold exec_from at 1. cbn [exec_loop]. rewrite H. apply exec_loop_enough; cbn [length]; lia. Qed.

Lemma exec_from_nil prev : exec_here p prev [] = None → exec_from p prev [] = [].
Proof. intros H. unfold exec_from. cbn [exec_loop length]. by rewrite H. Qed.

(** A pattern that is anchored to the start of a line does not match inside
    one. *)
Lemma exec_from_line c w rest :
  search_start p = line_start → is_line_end c = false → Forall (λ c, is_line_end c = false) w →
  exec_from p (Some c) (w ++ nl :: rest) = exec_from p (Some nl) rest.
Proof.
  intros Hl Hc Hw. revert c Hc. induction Hw as [|d w Hd Hw IH]; intros c Hc; cbn [app].
  - apply exec_from_miss. unfold exec_here. rewrite Hl. cbn [line_start]. by rewrite Hc.
  - rewrite exec_from_miss; [by apply IH|]. unfold exec_here. rewrite Hl. cbn [line_start]. by rewrite Hc.
Qed.
End search.
