(* ===== verification/JsValue.v ===== *)
(** ECMAScript values: numbers, the [unknown] values that cross the program's
    boundaries, plain objects in enumeration order, and [Map] in insertion order.

    A finite number is kept as the decimal [mant * 10 ^ dexp] that denotes it:
    the shortest decimal of a double identifies the double, so the
    representation is exact for numbers of up to 15 significant digits, and no
    operation of the modelled code rounds beyond that.  The two zeros are not
    distinguished (they print alike). *)

From S2P Require Export JsString.
Local Open Scope Z_scope.

(** * Numbers *)

Inductive jsnum :=
| NaN
| Infinite (negative : bool)
| Dec (mant dexp : Z).

#[export] Instance jsnum_eq_dec : EqDecision jsnum.
Proof. solve_decision. Defined.

Definition num_of_Z (z : Z) : jsnum := Dec z 0.

Definition is_finite (n : jsnum) : bool :=
  match n with Dec _ _ => true | _ => false end.

(** [n === 0] *)
Definition num_is_zero (n : jsnum) : bool :=
  match n with Dec m _ => m =? 0 | _ => false end.

(** [Math.trunc(n)] *)
Definition num_trunc (n : jsnum) : jsnum :=
  match n with
  | Dec m e => if e <? 0 then Dec (Z.quot m (10 ^ (- e))) 0 else Dec (m * 10 ^ e) 0
  | _ => n
  end.

(** Strip trailing zeros of the mantissa; [fuel] bounds its digits. *)
Fixpoint num_normalise (fuel : nat) (m e : Z) : Z * Z :=
  match fuel with
  | O => (m, e)
  | S fuel => if m mod 10 =? 0 then num_normalise fuel (m / 10) (e + 1) else (m, e)
  end.

Definition zeros (n : Z) : str := replicate (Z.to_nat n) 48%N.

(** [Number::toString] on the decimal [digits * 10 ^ (n - length digits)]. *)
Definition show_decimal (digits : str) (n : Z) : str :=
  let k := Z.of_nat (length digits) in
  if (k <=? n) && (n <=? 21) then digits ++ zeros (n - k)
  else if (0 <? n) && (n <=? 21) then
    take (Z.to_nat n) digits ++ #"." ++ drop (Z.to_nat n) digits
  else if (-6 <? n) && (n <=? 0) then #"0." ++ zeros (- n) ++ digits
  else
    let exponent := (if 0 <=? n - 1 then #"+" else []) ++ show_Z (n - 1) in
    match digits with
    | [d] => [d] ++ #"e" ++ exponent
    | d :: ds => [d] ++ #"." ++ ds ++ #"e" ++ exponent
    | [] => []
    end.

(** [String(n)] *)
Definition num_to_string (x : jsnum) : str :=
  match x with
  | NaN => #"NaN"
  | Infinite false => #"Infinity"
  | Infinite true => #"-Infinity"
  | Dec 0 _ => #"0"
  | Dec m e =>
    let '(a, e') := num_normalise (length (show_N (Z.abs_N m))) (Z.abs m) e in
    let digits := show_N (Z.abs_N a) in
    (if m <? 0 then #"-" else []) ++ show_decimal digits (Z.of_nat (length digits) + e')
  end.

(** [parseInt(s, 10)]: an optional sign, then the longest digit prefix. *)
Definition parse_int (s : str) : jsnum :=
  let s := trim_start s in
  let '(neg, s) :=
    match s with
    | 45%N :: r => (true, r)
    | 43%N :: r => (false, r)
    | _ => (false, s)
    end in
  if Nat.eqb (digits_count s) 0 then NaN
  else let z := Z.of_N (digits_value s) in num_of_Z (if neg then - z else z).

Definition digit_prefix (s : str) : str := take (digits_count s) s.

(** The fraction [.ddd] at the front of [s], if any. *)
Definition parse_fraction (s : str) : str * str :=
  match s with
  | 46%N :: r => (digit_prefix r, drop (digits_count r) r)
  | _ => ([], s)
  end.

(** The exponent [e+ddd] at the front of [s], 0 when there is none. *)
Definition parse_exponent (s : str) : Z :=
  match s with
  | (101%N | 69%N) :: r =>
    let '(neg, r) :=
      match r with
      | 45%N :: r' => (true, r')
      | 43%N :: r' => (false, r')
      | _ => (false, r)
      end in
    let z := Z.of_N (digits_value r) in if neg then - z else z
  | _ => 0
  end.

(** [parseFloat(s)]: the longest prefix that is a decimal literal. *)
Definition parse_float (s : str) : jsnum :=
  let s := trim_start s in
  let '(neg, s) :=
    match s with
    | 45%N :: r => (true, r)
    | 43%N :: r => (false, r)
    | _ => (false, s)
    end in
  if starts_with #"Infinity" s then Infinite neg else
  let whole := digit_prefix s in
  let '(frac, rest) := parse_fraction (drop (digits_count s) s) in
  if bool_decide (whole ++ frac = []) then NaN
  else
    let m := Z.of_N (digits_value (whole ++ frac)) in
    Dec (if neg then - m else m) (parse_exponent rest - Z.of_nat (length frac)).

(** * Values *)

#[local] Set Warnings "-register-all".

(** An object is its own enumerable string-keyed properties, in the order
    [Object.entries] lists them. *)
Inductive jsval :=
| VUndef
| VNull
| VBool (b : bool)
| VNum (n : jsnum)
| VBigInt (z : Z)
| VStr (s : str)
| VArr (l : list jsval)
| VObj (o : list (str * jsval)).

Abbreviation jsobj := (list (str * jsval)).

(** [typeof v] *)
Definition type_of (v : jsval) : str :=
  match v with
  | VUndef => #"undefined"
  | VNull => #"object"
  | VBool _ => #"boolean"
  | VNum _ => #"number"
  | VBigInt _ => #"bigint"
  | VStr _ => #"string"
  | VArr _ | VObj _ => #"object"
  end.

Definition is_undef (v : jsval) : bool := match v with VUndef => true | _ => false end.
Definition is_nullish (v : jsval) : bool :=
  match v with VUndef | VNull => true | _ => false end.

(** [String(v)] for values without a [toString] of their own. *)
Fixpoint to_string (v : jsval) : str :=
  match v with
  | VUndef => #"undefined"
  | VNull => #"null"
  | VBool true => #"true"
  | VBool false => #"false"
  | VNum n => num_to_string n
  | VBigInt z => show_Z z
  | VStr s => s
  | VArr l =>
    join #"," (map (λ v, match v with VUndef | VNull => [] | _ => to_string v end) l)
  | VObj _ => #"[object Object]"
  end.

(** ** Association lists *)

Section assoc.
Context {A : Type}.
Implicit Types l : list (str * A).

Fixpoint assoc_get (k : str) l : option A :=
  match l with
  | [] => None
  | (k', v) :: l => if decide (k = k') then Some v else assoc_get k l
  end.

Fixpoint assoc_update (k : str) (v : A) l : list (str * A) :=
  match l with
  | [] => []
  | (k', v') :: l => if decide (k = k') then (k', v) :: l
                     else (k', v') :: assoc_update k v l
  end.

(** [m.set(k, v)] on a [Map]: in place, or at the end. *)
Definition map_set (k : str) (v : A) l : list (str * A) :=
  match assoc_get k l with
  | Some _ => assoc_update k v l
  | None => l ++ [(k, v)]
  end.

(** [m.delete(k)] *)
Definition map_delete (k : str) l : list (str * A) := filter (λ p, p.1 ≠ k) l.

(** The array index a property name denotes, if it does. *)
Definition array_index (k : str) : option N :=
  let n := digits_value k in
  if bool_decide (show_N n = k) && (n <? 4294967295)%N then Some n else None.

(** A new property of an object: index names come first, in numeric order,
    then the others in order of creation. *)
Fixpoint obj_insert (k : str) (v : A) l : list (str * A) :=
  match l with
  | [] => [(k, v)]
  | (k', v') :: l' =>
    match array_index k, array_index k' with
    | Some i, Some j => if (i <? j)%N then (k, v) :: l else (k', v') :: obj_insert k v l'
    | Some _, None => (k, v) :: l
    | None, _ => (k', v') :: obj_insert k v l'
    end
  end.

(** [o[k] = v] *)
Definition obj_set (k : str) (v : A) l : list (str * A) :=
  match assoc_get k l with
  | Some _ => assoc_update k v l
  | None => obj_insert k v l
  end.
End assoc.

(** [o[k]] on a plain object *)
Definition obj_get (k : str) (o : jsobj) : jsval := default VUndef (assoc_get k o).

(** [k in o] *)
Definition obj_has {A} (k : str) (o : list (str * A)) : bool :=
  bool_decide (is_Some (assoc_get k o)).

(** [Boolean(v)] *)
Definition truthy (v : jsval) : bool :=
  match v with
  | VUndef | VNull => false
  | VBool b => b
  | VNum n => negb (num_is_zero n) && negb (bool_decide (n = NaN))
  | VBigInt z => negb (z =? 0)
  | VStr s => negb (bool_decide (s = []))
  | VArr _ | VObj _ => true
  end.

(** [typeof v === "object" && v] *)
Definition is_object (v : jsval) : bool :=
  match v with VArr _ | VObj _ => true | _ => false end.

(** [v[k]], own properties only; [null] and [undefined] have none to read. *)
Definition get_prop (k : str) (v : jsval) : outcome jsval :=
  match v with
  | VUndef | VNull =>
    Throw (#"Cannot read properties of " ++ to_string v ++ #" (reading '" ++ k ++ #"')")
  | VObj o => Ok (obj_get k o)
  | VArr l =>
    Ok (match array_index k with
        | Some i => default VUndef (l !! N.to_nat i)
        | None => if decide (k = #"length") then VNum (num_of_Z (Z.of_nat (length l))) else VUndef
        end)
  | VStr s =>
    Ok (match array_index k with
        | Some i => match s !! N.to_nat i with Some c => VStr [c] | None => VUndef end
        | None => if decide (k = #"length") then VNum (num_of_Z (Z.of_nat (length s))) else VUndef
        end)
  | VBool _ | VNum _ | VBigInt _ => Ok VUndef
  end.

(** [Object.entries(v)] on an object or an array. *)
Definition object_entries (v : jsval) : jsobj :=
  match v with
  | VObj o => o
  | VArr l => imap (λ i x, (show_nat i, x)) l
  | _ => []
  end.

(** * Lemmas *)

Section assoc_lemmas.
Context {A : Type}.
Implicit Types l : list (str * A).

Lemma assoc_get_elem k v l : assoc_get k l = Some v → (k, v) ∈ l.
Proof.
  induction l as [|[k' v'] l IH]; simpl; [done|].
  case_decide as Hk; [|right; auto]. intros [= ->]. subst. by left.
Qed.

Lemma assoc_get_None k l : assoc_get k l = None ↔ k ∉ l.*1.
Proof.
  induction l as [|[k' v'] l IH]; [set_solver|]. simpl.
  rewrite not_elem_of_cons. destruct (decide (k = k')) as [->|Hk].
  - split; [done|]. by intros [].
  - rewrite IH. tauto.
Qed.

Lemma assoc_get_is_Some k l : is_Some (assoc_get k l) ↔ k ∈ l.*1.
Proof.
  rewrite <- not_eq_None_Some, assoc_get_None.
  split; [apply dec_stable|by intros ? []].
Qed.

Lemma elem_assoc_get k v l : NoDup l.*1 → (k, v) ∈ l → assoc_get k l = Some v.
Proof.
  induction l as [|[k' v'] l IH]; [set_solver|]. simpl.
  rewrite NoDup_cons. intros [Hk' Hl] [[= -> ->]|Hin]%elem_of_cons.
  - by rewrite decide_True.
  - rewrite decide_False; [auto|]. intros ->. apply Hk', list_elem_of_fmap.
    by exists (k', v).
Qed.

Lemma assoc_get_app k l1 l2 :
  assoc_get k (l1 ++ l2) = match assoc_get k l1 with Some v => Some v | None => assoc_get k l2 end.
Proof. induction l1 as [|[k' v'] l1 IH]; simpl; [done|]. by case_decide. Qed.

Lemma assoc_get_update k k' v l :
  is_Some (assoc_get k l) →
  assoc_get k' (assoc_update k v l) = if decide (k' = k) then Some v else assoc_get k' l.
Proof.
  induction l as [|[k0 v0] l IH]; simpl; [by intros []|].
  destruct (decide (k = k0)) as [->|].
  - intros _. simpl. by case_decide.
  - intros H. simpl. destruct (decide (k' = k0)) as [->|]; [|by apply IH].
    by rewrite decide_False.
Qed.

Lemma assoc_update_keys k v l : (assoc_update k v l).*1 = l.*1.
Proof.
  induction l as [|[k0 v0] l IH]; simpl; [done|]. case_decide; simpl; by f_equal.
Qed.

Lemma map_set_get k k' v l :
  assoc_get k' (map_set k v l) = if decide (k' = k) then Some v else assoc_get k' l.
Proof.
  unfold map_set. destruct (assoc_get k l) eqn:E.
  - by apply assoc_get_update.
  - rewrite assoc_get_app. simpl. case_decide as Hk; [by subst; rewrite E|].
    by destruct (assoc_get k' l).
Qed.

Lemma map_set_keys_NoDup k v l : NoDup l.*1 → NoDup (map_set k v l).*1.
Proof.
  unfold map_set. destruct (assoc_get k l) eqn:E; [by rewrite assoc_update_keys|].
  rewrite fmap_app, NoDup_app. intros Hl. split_and!; [done| |apply NoDup_singleton].
  intros x Hx ->%list_elem_of_singleton. by apply assoc_get_None in E.
Qed.

Lemma map_delete_get k k' l :
  assoc_get k' (map_delete k l) = if decide (k' = k) then None else assoc_get k' l.
Proof.
  unfold map_delete. induction l as [|[k0 v0] l IH]; simpl; [by case_decide|].
  rewrite filter_cons. simpl. destruct (decide (k0 ≠ k)) as [Hn|Hn].
  - simpl. rewrite IH. destruct (decide (k' = k0)); [|done].
    by rewrite decide_False by congruence.
  - rewrite IH. apply dec_stable in Hn as ->. by case_decide.
Qed.

Lemma obj_insert_get k k' v l :
  assoc_get k l = None →
  assoc_get k' (obj_insert k v l) = if decide (k' = k) then Some v else assoc_get k' l.
Proof.
  induction l as [|[k0 v0] l IH]; simpl; [done|].
  destruct (decide (k = k0)) as [|Hk]; [done|]. intros Hn.
  assert (Hrest : assoc_get k' ((k0, v0) :: obj_insert k v l) =
                  if decide (k' = k) then Some v else assoc_get k' ((k0, v0) :: l)).
  { simpl. rewrite IH by done. destruct (decide (k' = k0)) as [->|]; [|done].
    by rewrite decide_False. }
  destruct (array_index k) as [i|], (array_index k0) as [j|];
    [destruct (i <? j)%N|..]; first [exact Hrest|reflexivity].
Qed.

Lemma obj_insert_keys k v l : (obj_insert k v l).*1 ≡ₚ k :: l.*1.
Proof.
  induction l as [|[k0 v0] l IH]; simpl; [done|].
  assert (Hrest : k0 :: (obj_insert k v l).*1 ≡ₚ k :: k0 :: l.*1)
    by (rewrite IH; apply Permutation_swap).
  destruct (array_index k) as [i|], (array_index k0) as [j|];
    [destruct (i <? j)%N|..]; first [exact Hrest|reflexivity].
Qed.

Lemma obj_set_get k k' v l :
  assoc_get k' (obj_set k v l) = if decide (k' = k) then Some v else assoc_get k' l.
Proof.
  unfold obj_set. destruct (assoc_get k l) eqn:E;
    [by apply assoc_get_update|by apply obj_insert_get].
Qed.

Lemma obj_set_keys_NoDup k v l : NoDup l.*1 → NoDup (obj_set k v l).*1.
Proof.
  unfold obj_set. destruct (assoc_get k l) eqn:E; [by rewrite assoc_update_keys|].
  rewrite obj_insert_keys, NoDup_cons. by apply assoc_get_None in E.
Qed.

(** Names that are not array indices are enumerated in order of creation. *)
Lemma obj_set_snoc k v l :
  array_index k = None → k ∉ l.*1 → obj_set k v l = l ++ [(k, v)].
Proof.
  intros Hi Hk. unfold obj_set. rewrite (proj2 (assoc_get_None k l) Hk).
  clear Hk. induction l as [|[k0 v0] l IH]; simpl; [done|]. by rewrite Hi, IH.
Qed.
End assoc_lemmas.

(** ** Numbers *)

Lemma num_of_Z_trunc z : num_trunc (num_of_Z z) = num_of_Z z.
Proof. unfold num_trunc, num_of_Z. simpl. by rewrite Z.mul_1_r. Qed.

Example num_print_1 :
  map num_to_string [Dec 5 0; Dec 314 (-2); Dec (-1500) (-2); Dec 1 21; Dec 25 (-8); Dec 0 3]
  = [ #"5"; #"3.14"; #"-15"; #"1e+21"; #"2.5e-7"; #"0"].
Proof. vm_compute. reflexivity. Qed.

Example num_parse_1 :
  map (λ s, num_to_string (parse_float s)) [ #" 1.50kg"; #"-2e3"; #".5"; #"abc"; #"7."]
  = [ #"1.5"; #"-2000"; #"0.5"; #"NaN"; #"7"].
Proof. vm_compute. reflexivity. Qed.

Example int_parse_1 :
  map (λ s, num_to_string (parse_int s)) [ #"42abc"; #"-7"; #"x"; #"007"; #""]
  = [ #"42"; #"-7"; #"NaN"; #"7"; #"NaN"].
Proof. vm_compute. reflexivity. Qed.

(** ** A loop that sets one property per element *)

Section set_loop.
Context {A X : Type} (key : X → str) (val : X → A).

Definition set_loop (m : list (str * A)) (l : list X) : list (str * A) :=
  foldl (λ m x, obj_set (key x) (val x) m) m l.

Lemma set_loop_Some k v m l :
  assoc_get k (set_loop m l) = Some v →
  (∃ x, x ∈ l ∧ key x = k ∧ val x = v) ∨ assoc_get k m = Some v.
Proof.
  unfold set_loop. revert m. induction l as [|x l IH]; intros m; cbn [foldl]; [by right|].
  intros [(y & ? & ?)|H]%IH; [left; exists y; by split; [right|]|].
  rewrite obj_set_get in H. case_decide; [|by right].
  injection H as <-. left. exists x. split; [by left|done].
Qed.

Lemma set_loop_other k m l : k ∉ key <$> l → assoc_get k (set_loop m l) = assoc_get k m.
Proof.
  unfold set_loop. revert m. induction l as [|x l IH]; intros m; [done|].
  rewrite fmap_cons, not_elem_of_cons. intros [Hx Hl]. cbn [foldl].
  by rewrite IH, obj_set_get, decide_False.
Qed.

(** All elements with the key agree on the value. *)
Lemma set_loop_get x m l :
  x ∈ l → (∀ y, y ∈ l → key y = key x → val y = val x) →
  assoc_get (key x) (set_loop m l) = Some (val x).
Proof.
  unfold set_loop. revert m x. induction l as [|y l IH]; intros m x Hx Hval; [by apply elem_of_nil in Hx|].
  cbn [foldl]. destruct (decide (key x ∈ key <$> l)) as [Hin|Hin].
  - apply list_elem_of_fmap in Hin as (z & Hz & Hzl).
    assert (Hvz : val z = val x) by (apply Hval; [by right|done]).
    rewrite Hz, <- Hvz. apply IH; [done|]. intros w Hw Hk.
    rewrite Hvz. apply Hval; [by right|congruence].
  - fold (set_loop (obj_set (key y) (val y) m) l). rewrite set_loop_other by done.
    apply elem_of_cons in Hx as [->|Hx].
    + by rewrite obj_set_get, decide_True.
    + destruct Hin. apply list_elem_of_fmap. eauto.
Qed.

Lemma set_loop_keys k m l :
  k ∈ (set_loop m l).*1 ↔ k ∈ m.*1 ∨ k ∈ key <$> l.
Proof.
  rewrite <- !assoc_get_is_Some. split.
  - intros [v [(x & Hx & <- & _)|H]%set_loop_Some]; [|left; eauto].
    right. apply list_elem_of_fmap. eauto.
  - unfold set_loop. revert m. induction l as [|x l IH]; intros m; cbn [foldl].
    { intros [?|H]; [done|]. by apply elem_of_nil in H. }
    intros H. apply IH. rewrite obj_set_get. case_decide; [left; eauto|].
    destruct H as [?|H]; [by left|]. rewrite fmap_cons in H.
    apply elem_of_cons in H as [->|?]; [done|by right].
Qed.
End set_loop.

(** Lookups in objects and maps after an update. *)
Create Rewrite HintDb js_objects.
#[export] Hint Rewrite @obj_set_get @map_set_get @assoc_get_app : js_objects.
