(* ===== verification/Json.v ===== *)
(** [JSON.parse] of the ECMAScript standard library, which several components
    read their wire formats with.

    The recursive descent takes a fuel argument; [json_fuel_enough] shows that
    twice the length of the text, plus one, is always enough, so [json_parse]
    answers [None] exactly on the texts [JSON.parse] throws on. *)

From S2P Require Export JsValue.

(** * Definitions *)

Definition json_ws (c : N) : bool :=
  (c =? tab)%N || (c =? nl)%N || (c =? cr)%N || (c =? 32)%N.

Fixpoint skip_ws (s : str) : str :=
  match s with
  | [] => []
  | c :: s' => if json_ws c then skip_ws s' else s
  end.

(** The rest of the text after white space and the unit [c]. *)
Definition eat (c : N) (s : str) : option str :=
  match skip_ws s with
  | a :: s => if (a =? c)%N then Some s else None
  | [] => None
  end.

Definition hex_value (c : N) : option N :=
  if is_digit c then Some (c - 48)%N
  else if ((97 <=? c) && (c <=? 102))%N then Some (c - 87)%N
  else if ((65 <=? c) && (c <=? 70))%N then Some (c - 55)%N
  else None.

(** The unit a one-letter escape stands for. *)
Definition simple_escape (e : N) : option N :=
  if (e =? dq)%N || (e =? backslash)%N || (e =? 47)%N then Some e
  else if (e =? 98)%N then Some 8%N
  else if (e =? 102)%N then Some 12%N
  else if (e =? 110)%N then Some nl
  else if (e =? 114)%N then Some cr
  else if (e =? 116)%N then Some tab
  else None.

(** The string after its opening quote, and the rest of the text. *)
Fixpoint json_string (s : str) : option (str * str) :=
  match s with
  | [] => None
  | c :: s =>
    if (c =? dq)%N then Some ([], s)
    else if (c <? 32)%N then None
    else if (c =? backslash)%N then
      match s with
      | [] => None
      | e :: s =>
        if (e =? 117)%N then
          match s with
          | h1 :: h2 :: h3 :: h4 :: s =>
            a ← hex_value h1; b ← hex_value h2; c ← hex_value h3; d ← hex_value h4;
            '(body, rest) ← json_string s;
            Some ((((a * 16 + b) * 16 + c) * 16 + d)%N :: body, rest)
          | _ => None
          end
        else
          u ← simple_escape e; '(body, rest) ← json_string s; Some (u :: body, rest)
      end
    else '(body, rest) ← json_string s; Some (c :: body, rest)
  end.

(** The integer part: [0], or digits that do not begin with it. *)
Definition json_int (s : str) : option (str * str) :=
  match s with
  | c :: r =>
    if (c =? 48)%N then Some ([c], r)
    else if is_digit c then Some (digit_prefix s, drop (digits_count s) s)
    else None
  | [] => None
  end.

Definition json_frac (s : str) : str * str :=
  match s with
  | c :: r => if (c =? 46)%N && (0 <? digits_count r)
              then (digit_prefix r, drop (digits_count r) r) else ([], s)
  | [] => ([], s)
  end.

Definition json_sign (s : str) : bool * str :=
  match s with
  | c :: r => if (c =? 45)%N then (true, r) else if (c =? 43)%N then (false, r) else (false, s)
  | [] => (false, s)
  end.

Definition json_exp (s : str) : Z * str :=
  match s with
  | c :: r =>
    if (c =? 101)%N || (c =? 69)%N then
      let '(neg, r) := json_sign r in
      if 0 <? digits_count r then
        let z := Z.of_N (digits_value r) in
        ((if neg then - z else z)%Z, drop (digits_count r) r)
      else (0%Z, s)
    else (0%Z, s)
  | [] => (0%Z, s)
  end.

Definition json_number (s : str) : option (jsval * str) :=
  let '(neg, s1) := match s with
                    | c :: r => if (c =? 45)%N then (true, r) else (false, s)
                    | [] => (false, s)
                    end in
  '(whole, s2) ← json_int s1;
  let '(frac, s3) := json_frac s2 in
  let '(e, s4) := json_exp s3 in
  let m := Z.of_N (digits_value (whole ++ frac)) in
  Some (VNum (Dec (if neg then - m else m) (e - Z.of_nat (length frac)))%Z, s4).

Definition json_scalar (s : str) : option (jsval * str) :=
  if starts_with #"true" s then Some (VBool true, drop 4 s)
  else if starts_with #"false" s then Some (VBool false, drop 5 s)
  else if starts_with #"null" s then Some (VNull, drop 4 s)
  else json_number s.

Fixpoint json_value (fuel : nat) (s : str) : option (jsval * str) :=
  match fuel with
  | 0 => None
  | S fuel =>
    match eat 123%N s with
    | Some s1 =>
      match eat 125%N s1 with
      | Some s2 => Some (VObj [], s2)
      | None => json_members fuel [] s1
      end
    | None =>
      match eat 91%N s with
      | Some s1 =>
        match eat 93%N s1 with
        | Some s2 => Some (VArr [], s2)
        | None => json_elements fuel [] s1
        end
      | None =>
        match eat dq s with
        | Some s1 => '(t, s2) ← json_string s1; Some (VStr t, s2)
        | None => json_scalar (skip_ws s)
        end
      end
    end
  end
with json_elements (fuel : nat) (acc : list jsval) (s : str) : option (jsval * str) :=
  match fuel with
  | 0 => None
  | S fuel =>
    '(v, s1) ← json_value fuel s;
    match eat 44%N s1 with
    | Some s2 => json_elements fuel (acc ++ [v]) s2
    | None => s2 ← eat 93%N s1; Some (VArr (acc ++ [v]), s2)
    end
  end
with json_members (fuel : nat) (acc : jsobj) (s : str) : option (jsval * str) :=
  match fuel with
  | 0 => None
  | S fuel =>
    s1 ← eat dq s;
    '(k, s2) ← json_string s1;
    s3 ← eat 58%N s2;
    '(v, s4) ← json_value fuel s3;
    let acc := obj_set k v acc in
    match eat 44%N s4 with
    | Some s5 => json_members fuel acc s5
    | None => s5 ← eat 125%N s4; Some (VObj acc, s5)
    end
  end.

Definition json_fuel (s : str) : nat := S (2 * length s).

(** [JSON.parse(s)]; [None] when it throws. *)
Definition json_parse (s : str) : option jsval :=
  '(v, rest) ← json_value (json_fuel s) s;
  if decide (skip_ws rest = []) then Some v else None.

(** * Lemmas *)

(** [l] is no longer than [m], counting [m] as one shorter for each unit
    consumed. *)
Lemma skip_ws_length s : length (skip_ws s) ≤ length s.
Proof. induction s as [|c s IH]; simpl; [lia|]. destruct (json_ws c); simpl; lia. Qed.

Lemma eat_length c s s' : eat c s = Some s' → length s' < length s.
Proof.
  unfold eat. pose proof (skip_ws_length s) as H.
  destruct (skip_ws s) as [|a r]; [done|]. case_match; [|done].
  intros [= <-]. simpl in H. lia.
Qed.

Lemma json_string_length s body rest : json_string s = Some (body, rest) → length rest < length s.
Proof.
  revert body rest. induction s as [s IH] using (induction_ltof1 _ (@length N)). unfold ltof in IH.
  intros body rest. destruct s as [|c s]; [done|]. cbn [json_string].
  destruct (c =? dq)%N; [intros [= _ <-]; simpl; lia|].
  destruct (c <? 32)%N; [done|].
  assert (Hrec : ∀ t (u : N), length t < length (c :: s) →
    ('(body, rest) ← json_string t; Some (u :: body, rest)) = Some (body, rest) →
    length rest < length (c :: s)).
  { intros t u Ht. destruct (json_string t) as [[b r]|] eqn:E; [|done].
    intros [= _ <-]. apply IH in E; [lia|done]. }
  destruct (c =? backslash)%N; [|apply Hrec; simpl; lia].
  destruct s as [|e s]; [done|]. destruct (e =? 117)%N.
  - destruct s as [|h1 [|h2 [|h3 [|h4 s]]]]; try done.
    destruct (hex_value h1), (hex_value h2), (hex_value h3), (hex_value h4); try done.
    apply Hrec. simpl. lia.
  - destruct (simple_escape e); [|done]. apply Hrec. simpl. lia.
Qed.

Lemma json_int_length s w r : json_int s = Some (w, r) → length r < length s.
Proof.
  destruct s as [|c s]; [done|]. cbn [json_int].
  destruct (c =? 48)%N; [intros [= _ <-]; simpl; lia|].
  destruct (is_digit c) eqn:Hc; [|done]. intros [= _ <-].
  cbn [digits_count]. rewrite Hc, length_drop. simpl. lia.
Qed.

Lemma json_frac_length s f r : json_frac s = (f, r) → length r ≤ length s.
Proof.
  destruct s as [|c s]; cbn [json_frac]; [by intros [= _ <-]|].
  case_match; intros [= _ <-]; [|done]. rewrite length_drop. simpl. lia.
Qed.

Lemma json_sign_length s b r : json_sign s = (b, r) → length r ≤ length s.
Proof.
  destruct s as [|c s]; cbn [json_sign]; [by intros [= _ <-]|].
  destruct (c =? 45)%N; [|destruct (c =? 43)%N]; intros [= _ <-]; simpl; lia.
Qed.

Lemma json_exp_length s e r : json_exp s = (e, r) → length r ≤ length s.
Proof.
  destruct s as [|c s]; cbn [json_exp]; [by intros [= _ <-]|].
  destruct (_ || _); [|by intros [= _ <-]].
  destruct (json_sign s) as [neg t] eqn:Ht. apply json_sign_length in Ht.
  destruct (0 <? digits_count t); intros [= _ <-]; [|done].
  rewrite length_drop. simpl. lia.
Qed.

Lemma json_number_length s v r : json_number s = Some (v, r) → length r < length s.
Proof.
  unfold json_number.
  assert (Hsign : ∀ b t, (match s with
      | c :: r => if (c =? 45)%N then (true, r) else (false, s) | [] => (false, s) end) = (b, t) →
    length t ≤ length s).
  { destruct s as [|c s']; [by intros b t [= _ <-]|].
    intros b t. destruct (c =? 45)%N; intros [= _ <-]; simpl; lia. }
  destruct (match s with | c :: r => _ | [] => _ end) as [neg s1]. specialize (Hsign _ _ eq_refl).
  destruct (json_int s1) as [[w s2]|] eqn:E2; [|done]. apply json_int_length in E2.
  cbn [mbind option_bind].
  destruct (json_frac s2) as [f s3] eqn:E3. apply json_frac_length in E3.
  destruct (json_exp s3) as [e s4] eqn:E4. apply json_exp_length in E4.
  intros [= _ <-]. lia.
Qed.

Lemma json_scalar_length s v r : json_scalar s = Some (v, r) → length r < length s.
Proof.
  unfold json_scalar.
  assert (Hlit : ∀ p n, starts_with p s = true → length p = S n → length (drop (S n) s) < length s).
  { intros p n [k ->]%starts_with_spec Hn. rewrite length_drop, length_app. lia. }
  destruct (starts_with #"true" s) eqn:E1; [intros [= _ <-]; by apply (Hlit _ 3 E1)|].
  destruct (starts_with #"false" s) eqn:E2; [intros [= _ <-]; by apply (Hlit _ 4 E2)|].
  destruct (starts_with #"null" s) eqn:E3; [intros [= _ <-]; by apply (Hlit _ 3 E3)|].
  apply json_number_length.
Qed.

(** Reading a value consumes at least one unit, whatever the fuel. *)
Lemma json_consumes fuel :
  (∀ s v r, json_value fuel s = Some (v, r) → length r < length s) ∧
  (∀ acc s v r, json_elements fuel acc s = Some (v, r) → length r < length s) ∧
  (∀ acc s v r, json_members fuel acc s = Some (v, r) → length r < length s).
Proof.
  induction fuel as [|fuel (IHv & IHe & IHm)]; [done|]. split_and!.
  - intros s v r. cbn [json_value].
    destruct (eat 123 s) as [s1|] eqn:E1; [apply eat_length in E1|].
    { destruct (eat 125 s1) as [s2|] eqn:E2; [apply eat_length in E2; intros [= _ <-]; lia|].
      intros H%IHm. lia. }
    destruct (eat 91 s) as [s1|] eqn:E2; [apply eat_length in E2|].
    { destruct (eat 93 s1) as [s2|] eqn:E3; [apply eat_length in E3; intros [= _ <-]; lia|].
      intros H%IHe. lia. }
    destruct (eat dq s) as [s1|] eqn:E3; [apply eat_length in E3|].
    { destruct (json_string s1) as [[t s2]|] eqn:E4; [|done]. apply json_string_length in E4.
      intros [= _ <-]. lia. }
    intros H%json_scalar_length. pose proof (skip_ws_length s). lia.
  - intros acc s v r. cbn [json_elements].
    destruct (json_value fuel s) as [[w s1]|] eqn:E1; [|done]. apply IHv in E1. cbn [mbind option_bind].
    destruct (eat 44 s1) as [s2|] eqn:E2; [apply eat_length in E2; intros H%IHe; lia|].
    destruct (eat 93 s1) as [s2|] eqn:E3; [|done]. apply eat_length in E3. intros [= _ <-]. lia.
  - intros acc s v r. cbn [json_members].
    destruct (eat dq s) as [s1|] eqn:E1; [|done]. apply eat_length in E1. cbn [mbind option_bind].
    destruct (json_string s1) as [[k s2]|] eqn:E2; cbn [mbind option_bind]; [|done]. apply json_string_length in E2.
    destruct (eat 58 s2) as [s3|] eqn:E3; cbn [mbind option_bind]; [|done]. apply eat_length in E3.
    destruct (json_value fuel s3) as [[w s4]|] eqn:E4; cbn [mbind option_bind]; [|done]. apply IHv in E4.
    destruct (eat 44 s4) as [s5|] eqn:E5; [apply eat_length in E5; intros H%IHm; lia|].
    destruct (eat 125 s4) as [s5|] eqn:E6; [|done]. apply eat_length in E6. intros [= _ <-]. lia.
Qed.

(** Any two amounts of fuel above the bound agree. *)
Lemma json_fuel_agree f1 :
  (∀ f2 s, 2 * length s < f1 → 2 * length s < f2 → json_value f1 s = json_value f2 s) ∧
  (∀ f2 acc s, S (2 * length s) < f1 → S (2 * length s) < f2 →
     json_elements f1 acc s = json_elements f2 acc s) ∧
  (∀ f2 acc s, S (2 * length s) < f1 → S (2 * length s) < f2 →
     json_members f1 acc s = json_members f2 acc s).
Proof.
  induction f1 as [|f1 (IHv & IHe & IHm)]; [split_and!; lia|]. split_and!.
  - intros [|f2] s H1 H2; [lia|]. cbn [json_value].
    destruct (eat 123 s) as [s1|] eqn:E1; [apply eat_length in E1|].
    { destruct (eat 125 s1); [done|]. apply IHm; lia. }
    destruct (eat 91 s) as [s1|] eqn:E2; [apply eat_length in E2|done].
    destruct (eat 93 s1); [done|]. apply IHe; lia.
  - intros [|f2] acc s H1 H2; [lia|]. cbn [json_elements].
    rewrite (IHv f2 s) by lia.
    destruct (json_value f2 s) as [[w s1]|] eqn:E1; [|done].
    apply json_consumes in E1. cbn [mbind option_bind].
    destruct (eat 44 s1) as [s2|] eqn:E2; [|done]. apply eat_length in E2. apply IHe; lia.
  - intros [|f2] acc s H1 H2; [lia|]. cbn [json_members].
    destruct (eat dq s) as [s1|] eqn:E1; [|done]. apply eat_length in E1. cbn [mbind option_bind].
    destruct (json_string s1) as [[k s2]|] eqn:E2; cbn [mbind option_bind]; [|done]. apply json_string_length in E2.
    destruct (eat 58 s2) as [s3|] eqn:E3; cbn [mbind option_bind]; [|done]. apply eat_length in E3.
    rewrite (IHv f2 s3) by lia.
    destruct (json_value f2 s3) as [[w s4]|] eqn:E4; cbn [mbind option_bind]; [|done]. apply json_consumes in E4.
    destruct (eat 44 s4) as [s5|] eqn:E5; [|done]. apply eat_length in E5. apply IHm; lia.
Qed.

Lemma json_fuel_enough fuel s : json_fuel s ≤ fuel → json_value fuel s = json_value (json_fuel s) s.
Proof. unfold json_fuel. intros H. apply json_fuel_agree; lia. Qed.

Example json_parse_1 :
  json_parse (#" { " ++ quoted #"a" ++ #": [1, -2.5e3, true ], " ++ quoted #"2" ++ #": null, " ++
              quoted #"a" ++ #": {} } ") =
  Some (VObj [(#"2", VNull); (#"a", VObj [])]).
Proof. vm_compute. reflexivity. Qed.

Example json_parse_2 : json_parse #"[1, 02]" = None ∧ json_parse #"[1,]" = None ∧
  json_parse #"[-2.50e+1]" = Some (VArr [VNum (Dec (-250) (-1))]).
Proof. split_and!; vm_compute; reflexivity. Qed.

(** * Theorems *)

(** The fuel of the parser is never felt: any larger amount reads every
    text to the same value, or to the same rejection. *)
Theorem json_parse_fuel fuel s :
  json_fuel s ≤ fuel →
  json_parse s =
  ('(v, rest) ← json_value fuel s; if decide (skip_ws rest = []) then Some v else None).
Proof. intros H. unfold json_parse. by rewrite (json_fuel_enough fuel s H). Qed.

Lemma json_parse_fuel_witness :
  json_parse #"[[7], {}]" =
  ('(v, rest) ← json_value 100 #"[[7], {}]"; if decide (skip_ws rest = []) then Some v else None).
Proof. apply (json_parse_fuel 100). vm_compute. lia. Defined.
