(* ===== verification/DslTypes.v ===== *)
(** The runtime shape of views and domains: [packages/oos-dsls-ts/src/types.ts].

    Unions of string literals are inductive types, tagged unions keep one
    constructor per [kind], optional properties are options. *)

From S2P Require Export JsValue.

#[local] Set Warnings "-register-all".

(** ** Shared primitives *)

Record FieldRefDef := MkFieldRefDef { ref_domain : str; ref_field : str }.

Inductive FormatKind := FmtCurrency | FmtNumber | FmtPercent | FmtDatetime | FmtDate | FmtTime.
Inductive DateStyle := Short | Medium | Long | Full.

(** A format detail as the mapper leaves it: a digit count, a date style, or
    a string cast to one. *)
Inductive FormatDetail := DetailNumber (n : jsnum) | DetailStyle (s : DateStyle) | DetailOther (s : str).

Record FormatDef := MkFormatDef { fmt_kind : FormatKind; fmt_detail : option FormatDetail }.

Inductive SpacingTokenName := Xs | Sm | Md | Lg | Xl.
Inductive SpacingDef := SpacingTokenDef (t : SpacingTokenName) | SpacingScaleDef (n : jsnum).

Inductive PaddingProp := Pp | Ppt | Ppb | Ppl | Ppr | Ppx | Ppy.
Inductive MarginProp := Mm | Mmt | Mmb | Mml | Mmr | Mmx | Mmy.

Inductive LayoutModDef :=
| PaddingDef (prop : PaddingProp) (value : SpacingDef)
| MarginDef (prop : MarginProp) (value : SpacingDef)
| GapDef (value : SpacingDef)
| ColsDef (value : jsnum)
| ExpandDef
| ScrollDef (value : bool).

Inductive PresentationTargetDef := TargetTab | TargetModal | TargetWindow | TargetReplace.

Inductive NavModifierDef :=
| BindDef (source : FieldRefDef)
| AsDef (target : PresentationTargetDef)
| ConfirmDef (message : str).

(** ** Toolbar and actions *)

Inductive ToolbarItemDef :=
| SaveItem
| DeleteItem (confirm : option str)
| ExitItem
| RefreshItem (caption : str)
| NewItem (caption target : str) (navMods : list NavModifierDef).

Inductive ViewActionEventDef := OnSelect | OnNew | OnEdit.

Record ViewActionDef := MkViewActionDef {
  action_event : ViewActionEventDef;
  action_target : str;
  action_navMods : list NavModifierDef
}.

(** ** Tables and widgets *)

Record ColumnDef := MkColumnDef {
  column_field : FieldRefDef;
  column_caption : str;
  column_width : option jsnum;
  column_format : option FormatDef
}.

Record TableDef := MkTableDef {
  rowSource : FieldRefDef;
  table_actions : list ViewActionDef;
  table_columns : list ColumnDef
}.

Inductive WidgetKindDef :=
| WText | WTextarea | WNumber | WPassword | WEmail | WDate | WDaterange | WTime
| WSelect | WMultiselect | WCombobox | WRadio | WCheck | WSwitch | WSlider
| WRangeslider | WRating | WColor | WFile | WProgress | WBadge | WAvatar | WTags | WJson.

Record WidgetDef := MkWidgetDef {
  widget : WidgetKindDef;
  widget_caption : option str;
  widget_bind : FieldRefDef;
  widget_readOnly : bool;
  widget_focus : bool;
  widget_expand : bool;
  widget_placeholder : option str;
  widget_format : option FormatDef;
  widget_min : option jsnum;
  widget_max : option jsnum;
  widget_step_ : option jsnum;
  widget_layout : list LayoutModDef
}.

Record ButtonDef := MkButtonDef {
  button_caption : str; actionRef : option str; button_layout : list LayoutModDef }.

Record LinkDef := MkLinkDef {
  link_caption : str; href : str; link_layout : list LayoutModDef }.

Record IconDef := MkIconDef {
  icon_name : str; icon_size : option jsnum; icon_layout : list LayoutModDef }.

Inductive RichTextStyle := Plain | Bold | Italic | Heading | Subheading | Mono.
Record RichTextSpanDef := MkRichTextSpanDef { span_style : RichTextStyle; span_text : str }.
Record RichTextDef := MkRichTextDef { spans : list RichTextSpanDef }.

(** ** Body elements *)

Inductive BodyElementDef :=
| SectionDef (caption : option str) (mods : list LayoutModDef) (body : list BodyElementDef)
| StackDef (mods : list LayoutModDef) (body : list BodyElementDef)
| RowDef (mods : list LayoutModDef) (body : list BodyElementDef)
| GridDef (cols : jsnum) (mods : list LayoutModDef) (body : list BodyElementDef)
| TabsDef (mods : list LayoutModDef) (tabs : list TabPaneDef)
| AccordionDef (mods : list LayoutModDef) (items : list AccordionItemDef)
| CardDef (caption : option str) (mods : list LayoutModDef) (body : list BodyElementDef)
| TableElement (t : TableDef)
| DividerDef
| SeparatorDef
| WidgetElement (w : WidgetDef)
| ButtonElement (b : ButtonDef)
| LinkElement (l : LinkDef)
| RichTextElement (r : RichTextDef)
| IconElement (i : IconDef)
with TabPaneDef : Type :=
| MkTabPaneDef (caption : str) (body : list BodyElementDef)
with AccordionItemDef : Type :=
| MkAccordionItemDef (caption : str) (open : bool) (body : list BodyElementDef).

(** The leaf elements of a body, in document order. *)
Fixpoint def_leaves (e : BodyElementDef) : list BodyElementDef :=
  match e with
  | SectionDef _ _ b | StackDef _ b | RowDef _ b | GridDef _ _ b | CardDef _ _ b =>
    flat_map def_leaves b
  | TabsDef _ ts => flat_map pane_leaves ts
  | AccordionDef _ its => flat_map item_def_leaves its
  | _ => [e]
  end
with pane_leaves (t : TabPaneDef) : list BodyElementDef :=
  match t with MkTabPaneDef _ b => flat_map def_leaves b end
with item_def_leaves (i : AccordionItemDef) : list BodyElementDef :=
  match i with MkAccordionItemDef _ _ b => flat_map def_leaves b end.

(** Induction that reaches into the bodies of containers, panes and items. *)
Section body_def_ind.
Context (P : BodyElementDef → Prop)
  (Hleaf : ∀ e, match e with
                | SectionDef _ _ _ | StackDef _ _ | RowDef _ _ | GridDef _ _ _ | CardDef _ _ _
                | TabsDef _ _ | AccordionDef _ _ => False
                | _ => True
                end → P e)
  (Hsection : ∀ c m b, Forall P b → P (SectionDef c m b))
  (Hstack : ∀ m b, Forall P b → P (StackDef m b))
  (Hrow : ∀ m b, Forall P b → P (RowDef m b))
  (Hgrid : ∀ n m b, Forall P b → P (GridDef n m b))
  (Hcard : ∀ c m b, Forall P b → P (CardDef c m b))
  (Htabs : ∀ m ts, Forall (λ t, match t with MkTabPaneDef _ b => Forall P b end) ts → P (TabsDef m ts))
  (Haccordion : ∀ m its,
     Forall (λ i, match i with MkAccordionItemDef _ _ b => Forall P b end) its → P (AccordionDef m its)).

Fixpoint BodyElementDef_deep_ind (e : BodyElementDef) : P e :=
  let all := fix all (l : list BodyElementDef) : Forall P l :=
    match l with
    | [] => Forall_nil_2 P
    | x :: l => Forall_cons_2 P x l (BodyElementDef_deep_ind x) (all l)
    end in
  match e with
  | SectionDef c m b => Hsection c m b (all b)
  | StackDef m b => Hstack m b (all b)
  | RowDef m b => Hrow m b (all b)
  | GridDef n m b => Hgrid n m b (all b)
  | CardDef c m b => Hcard c m b (all b)
  | TabsDef m ts => Htabs m ts
      ((fix tabs (l : list TabPaneDef) :
          Forall (λ t, match t with MkTabPaneDef _ b => Forall P b end) l :=
        match l with
        | [] => Forall_nil_2 _
        | t :: l => Forall_cons_2 _ t l
            (match t return match t with MkTabPaneDef _ b => Forall P b end with
             | MkTabPaneDef _ b => all b end) (tabs l)
        end) ts)
  | AccordionDef m its => Haccordion m its
      ((fix items (l : list AccordionItemDef) :
          Forall (λ i, match i with MkAccordionItemDef _ _ b => Forall P b end) l :=
        match l with
        | [] => Forall_nil_2 _
        | i :: l => Forall_cons_2 _ i l
            (match i return match i with MkAccordionItemDef _ _ b => Forall P b end with
             | MkAccordionItemDef _ _ b => all b end) (items l)
        end) its)
  | TableElement t => Hleaf (TableElement t) I
  | DividerDef => Hleaf DividerDef I
  | SeparatorDef => Hleaf SeparatorDef I
  | WidgetElement w => Hleaf (WidgetElement w) I
  | ButtonElement b => Hleaf (ButtonElement b) I
  | LinkElement l => Hleaf (LinkElement l) I
  | RichTextElement r => Hleaf (RichTextElement r) I
  | IconElement i => Hleaf (IconElement i) I
  end.
End body_def_ind.

(** ** Views *)

Record ViewDomainBindingDef := MkBinding {
  binding_name : str; binding_alias : str; binding_primary : bool }.

Record AutoRefreshDef := MkAutoRefresh { refresh_domain : str; refresh_event : str }.

Record ViewDef := MkViewDef {
  view_name : str;
  view_title : str;
  view_domains : list ViewDomainBindingDef;
  view_default : bool;
  view_autoRefresh : option AutoRefreshDef;
  view_toolbar : list ToolbarItemDef;
  view_body : list BodyElementDef
}.

(** ** Domains *)

Inductive FieldTypeDef := TInt | TFloat | TString | TText | TBool | TDate | TDatetime.
Inductive ExampleOpDef := OpEq | OpNe | OpLt | OpLe | OpGt | OpGe | OpLike | OpIn.

Record ExampleDef := MkExampleDef {
  example_op : ExampleOpDef;
  example_value : str;
  example_valueIsString : bool;
  example_description : str
}.

Inductive PermissionActionDef := Read | Write | Delete.
Record PermissionDef := MkPermissionDef { role : str; actions : list PermissionActionDef }.

Inductive RelationKindDef := HasMany | HasOne | BelongsTo.
Record RelationDef := MkRelationDef {
  relation_name : str;
  relation_kind : RelationKindDef;
  relation_target : str;
  localField : str;
  foreignField : str
}.

Record MetaDef := MkMetaDef {
  meta_name : str;
  meta_table : str;
  valueField : str;
  labelField : str;
  orderBy : option str;
  meta_dsn : option str
}.

Record DomainFieldDef := MkDomainFieldDef {
  field_name : str;
  field_type : FieldTypeDef;
  readOnly : bool;
  filterable : bool;
  optionsRef : option str;
  examples : list ExampleDef
}.

Record AiHintDef := MkAiHintDef { hint_name : str; hint_body : str }.

Record DomainDef := MkDomainDef {
  domain_name : str;
  domain_source : str;
  domain_dsn : str;
  permissions : list PermissionDef;
  fields : list DomainFieldDef;
  relations : list RelationDef;
  metas : list MetaDef;
  aiHints : list AiHintDef;
  domain_aliases : list str
}.

(** ** Decidable equality of the enumerations *)

#[export] Instance field_type_eq_dec : EqDecision FieldTypeDef.
Proof. solve_decision. Defined.
#[export] Instance example_op_eq_dec : EqDecision ExampleOpDef.
Proof. solve_decision. Defined.
#[export] Instance permission_action_eq_dec : EqDecision PermissionActionDef.
Proof. solve_decision. Defined.

(** ** Names the enumerations print as *)

Definition field_type_name (t : FieldTypeDef) : str :=
  match t with
  | TInt => #"int" | TFloat => #"float" | TString => #"string" | TText => #"text"
  | TBool => #"bool" | TDate => #"date" | TDatetime => #"datetime"
  end.

Definition action_name (a : PermissionActionDef) : str :=
  match a with Read => #"read" | Write => #"write" | Delete => #"delete" end.

Definition relation_kind_name (k : RelationKindDef) : str :=
  match k with HasMany => #"has_many" | HasOne => #"has_one" | BelongsTo => #"belongs_to" end.

(** ** Names the grammar admits

    Every name of a domain is an [ID] token of the grammar,
    [[_a-zA-Z][\w_]*]: letters, digits and underscores. *)
Definition is_id_unit (c : N) : bool :=
  is_lower c || is_upper c || is_digit c || (c =? 95)%N.

Definition is_id (s : str) : bool :=
  match s with c :: _ => negb (is_digit c) && forallb is_id_unit s | [] => false end.

Lemma is_id_not_in c s : is_id s = true → is_id_unit c = false → c ∉ s.
Proof.
  destruct s as [|a s]; [done|]. unfold is_id. rewrite andb_true_iff, forallb_forall.
  intros [_ H] Hc Hin. apply list_elem_of_In, H in Hin. congruence.
Qed.

(** The names of a domain that reach a SQL statement are identifiers. *)
Definition domain_ids (d : DomainDef) : Prop :=
  is_id (domain_source d) = true ∧ Forall (λ f, is_id (field_name f) = true) (fields d).

(** ** A domain for the examples *)

Definition sample_field (n : str) (t : FieldTypeDef) (ro fi : bool) : DomainFieldDef :=
  MkDomainFieldDef n t ro fi None [].

Definition sample_person : DomainDef :=
  MkDomainDef #"person" #"person" #"demo"
    [ MkPermissionDef #"admin" [Read; Write; Delete]; MkPermissionDef #"user" [Read] ]
    [ sample_field #"id" TInt true true;
      sample_field #"firstname" TString false true;
      sample_field #"age" TInt false true;
      sample_field #"net_worth" TFloat false false;
      sample_field #"created_at" TDatetime true false ]
    [ MkRelationDef #"notes" HasMany #"note" #"id" #"person_id" ]
    [ MkMetaDef #"city" #"cities" #"id" #"name" (Some #"name") None ]
    [ MkAiHintDef #"persons" #"People of the demo." ] [ #"Mitarbeiter" ].

Lemma sample_person_ids : domain_ids sample_person.
Proof. split; [reflexivity|]. repeat constructor. Qed.
