(* ===== verification/Operators.v ===== *)
(** The catalogue of filter operators:
    [packages/oos-dsls-ts/src/renderer/operators.ts].  The schema builder and
    the chunk renderer both read it. *)

From S2P Require Export DslTypes.

(** * Definitions *)

Record FilterOp := MkFilterOp {
  op_name : ExampleOpDef;
  op_label : str;
  op_suffix : str;
  op_sampleValue : str
}.

(** [operatorsForType] *)
Definition operatorsForType (fieldType : FieldTypeDef) : list FilterOp :=
  match fieldType with
  | TString | TText =>
    [ MkFilterOp OpLike #"contains" #"_contains" (quoted #"a");
      MkFilterOp OpEq #"equals" #"_eq" (quoted #"value");
      MkFilterOp OpNe #"not equals" #"_ne" (quoted #"value") ]
  | TInt | TFloat =>
    [ MkFilterOp OpEq #"equals" #"_eq" #"0";
      MkFilterOp OpNe #"not equals" #"_ne" #"0";
      MkFilterOp OpGt #"greater than" #"_gt" #"0";
      MkFilterOp OpGe #"greater or equal" #"_gte" #"0";
      MkFilterOp OpLt #"less than" #"_lt" #"0";
      MkFilterOp OpLe #"less or equal" #"_lte" #"0" ]
  | TBool => [ MkFilterOp OpEq #"equals" #"_eq" #"true" ]
  | TDate | TDatetime =>
    [ MkFilterOp OpEq #"equals" #"_eq" (quoted #"2024-01-01");
      MkFilterOp OpGt #"after" #"_gt" (quoted #"2024-01-01");
      MkFilterOp OpLt #"before" #"_lt" (quoted #"2024-01-01") ]
  end.

(** [findOperator] *)
Definition findOperator (fieldType : FieldTypeDef) (opName : ExampleOpDef) : option FilterOp :=
  List.find (λ op, bool_decide (op_name op = opName)) (operatorsForType fieldType).

(** [formatExampleValue] *)
Definition formatExampleValue (fieldType : FieldTypeDef) (value : str) (valueIsString : bool) : str :=
  if valueIsString then quoted value
  else if decide (fieldType = TString ∨ fieldType = TText) then quoted value
  else value.

(** [renderFilterArg] *)
Definition renderFilterArg (fieldName suffix value : str) : str :=
  fieldName ++ suffix ++ #": " ++ value.

(** * Lemmas *)

Lemma operators_names_NoDup t : NoDup (op_name <$> operatorsForType t).
Proof. destruct t; decide_closed. Qed.

Lemma operators_suffixes_NoDup t : NoDup (op_suffix <$> operatorsForType t).
Proof. destruct t; decide_closed. Qed.

Lemma operators_suffix_nonempty t op : op ∈ operatorsForType t → op_suffix op ≠ [].
Proof.
  intros Hop. assert (H : Forall (λ op, op_suffix op ≠ []) (operatorsForType t)).
  { destruct t; decide_closed. }
  rewrite Forall_forall in H. by apply H.
Qed.

Lemma findOperator_Some t n op :
  findOperator t n = Some op ↔ op ∈ operatorsForType t ∧ op_name op = n.
Proof.
  unfold findOperator. split.
  - intros [H1 H2]%List.find_some. apply bool_decide_eq_true in H2.
    by split; [apply list_elem_of_In|].
  - intros [Hop Hn]. pose proof (operators_names_NoDup t) as Hnd.
    induction (operatorsForType t) as [|o l IH]; [by apply elem_of_nil in Hop|]. simpl.
    apply NoDup_cons in Hnd as [Ho Hl].
    apply elem_of_cons in Hop as [->|Hop]; [by rewrite bool_decide_eq_true_2|].
    rewrite bool_decide_eq_false_2; [by apply IH|].
    intros E. apply Ho, list_elem_of_fmap. exists op. split; [congruence|done].
Qed.
