(* ===== verification/SqlSelect.v ===== *)
(** SELECT statements: [packages/oos-gql-ts/src/sql/select.ts], and the
    placeholder dialects of [db-client.ts]. *)

From S2P Require Export DslTypes.

(** * Definitions *)

(** [`$${i}`] *)
Definition placeholder (i : nat) : str := #"$" ++ show_nat i.

(** [selectColumnList] *)
Definition selectColumnList (d : DomainDef) : str :=
  join #", " (field_name <$> fields d).

Inductive SqlOp := SqlEq | SqlNe | SqlGt | SqlGte | SqlLt | SqlLte | SqlContains.

#[export] Instance sql_op_eq_dec : EqDecision SqlOp.
Proof. solve_decision. Defined.

(** [SUFFIXES] *)
Definition SUFFIXES : list (str * SqlOp) :=
  [ (#"_contains", SqlContains);
    (#"_gte", SqlGte);
    (#"_lte", SqlLte);
    (#"_eq", SqlEq);
    (#"_ne", SqlNe);
    (#"_gt", SqlGt);
    (#"_lt", SqlLt) ].

(** The [Map] from name to field that [buildWhereClause] fills: for a repeated
    name the last field wins. *)
Definition fieldByName (d : DomainDef) : gmap str DomainFieldDef :=
  foldl (λ m f, <[field_name f := f]> m) ∅ (fields d).

(** The suffix loop of [decodeFilterArg]. *)
Fixpoint decode_suffix (m : gmap str DomainFieldDef) (argName : str)
    (suffixes : list (str * SqlOp)) : option (DomainFieldDef * SqlOp) :=
  match suffixes with
  | [] => None
  | (suffix, op) :: rest =>
    if negb (ends_with suffix argName) then decode_suffix m argName rest
    else match m !! slice_end (length suffix) argName with
         | Some f => Some (f, op)
         | None => decode_suffix m argName rest
         end
  end.

(** [decodeFilterArg] *)
Definition decodeFilterArg (argName : str) (m : gmap str DomainFieldDef)
    : option (DomainFieldDef * SqlOp) :=
  match m !! argName with
  | Some direct => Some (direct, SqlEq)
  | None => decode_suffix m argName SUFFIXES
  end.

Record WhereClause := MkWhere { where_sql : str; where_values : list jsval }.

(** The loop's variables: conditions, values, and the next placeholder. *)
Record WhereState := MkWhereState {
  conditions : list str; wvalues : list jsval; next_param : nat }.

(** One [case] of the operator switch: push a condition and its value. *)
Definition push_condition (st : WhereState) (text : str) (v : jsval) : WhereState :=
  MkWhereState (conditions st ++ [text ++ placeholder (next_param st)])
               (wvalues st ++ [v]) (S (next_param st)).

Definition where_switch (st : WhereState) (f : DomainFieldDef) (op : SqlOp) (argVal : jsval)
    : WhereState :=
  match op with
  | SqlEq => push_condition st (field_name f ++ #" = ") argVal
  | SqlNe => push_condition st (field_name f ++ #" <> ") argVal
  | SqlGt => push_condition st (field_name f ++ #" > ") argVal
  | SqlGte => push_condition st (field_name f ++ #" >= ") argVal
  | SqlLt => push_condition st (field_name f ++ #" < ") argVal
  | SqlLte => push_condition st (field_name f ++ #" <= ") argVal
  | SqlContains =>
    push_condition st (field_name f ++ #" ILIKE ") (VStr (#"%" ++ to_string argVal ++ #"%"))
  end.

(** The body of the loop over [Object.entries(args)]. *)
Definition where_step (m : gmap str DomainFieldDef) (st : WhereState) (entry : str * jsval)
    : WhereState :=
  let '(argName, argVal) := entry in
  if is_nullish argVal then st
  else if decide (argName = #"id") then st
  else match decodeFilterArg argName m with
       | None => st
       | Some (f, op) => where_switch st f op argVal
       end.

(** [buildWhereClause] *)
Definition buildWhereClause (d : DomainDef) (args : jsobj) : WhereClause :=
  let init := MkWhereState [] [] 1 in
  let id := obj_get #"id" args in
  let st := if is_undef id then init else push_condition init #"id = " id in
  let st := foldl (where_step (fieldByName d)) st args in
  match conditions st with
  | [] => MkWhere [] []
  | cs => MkWhere (#" WHERE " ++ join #" AND " cs) (wvalues st)
  end.

(** ** Dialects ([db-client.ts]) *)

Inductive DbDialect := Postgres | Mysql | Mariadb | Mssql | Oracle | Sqlite3.

Definition dialectSupportsReturning (d : DbDialect) : bool :=
  match d with Postgres | Mariadb => true | _ => false end.

(** [sql.replace(/\$\d+/g, "?")]; [skipping] while inside a match. *)
Fixpoint replace_params (skipping : bool) (s : str) : str :=
  match s with
  | [] => []
  | c :: s =>
    if skipping && is_digit c then replace_params true s
    else if (c =? 36)%N && (0 <? digits_count s) then 63%N :: replace_params true s
    else c :: replace_params false s
  end.

Definition toDialectParams (sql : str) (_dialect : DbDialect) : str :=
  replace_params false sql.

(** ** What a statement asks the driver to bind *)

(** The numbers of the [$n] placeholders of a statement, in textual order. *)
Fixpoint sql_params (s : str) : list N :=
  match s with
  | [] => []
  | c :: s =>
    if (c =? 36)%N && (0 <? digits_count s) then digits_value s :: sql_params s
    else sql_params s
  end.

(** The placeholders [$1], ..., [$n], each once and in order. *)
Definition numbered (n : nat) : list N := N.of_nat <$> seq 1 n.

(** Number of [?] markers. *)
Definition question_marks (s : str) : nat := length (filter (λ c, c = 63%N) s).

(** * Placeholders *)

Lemma sql_params_app s t : 36%N ∉ s → sql_params (s ++ t) = sql_params t.
Proof.
  induction s as [|c s IH]; [done|]. rewrite not_elem_of_cons. intros [Hc Hs]. simpl.
  destruct (N.eqb_spec c 36); [congruence|]. simpl. auto.
Qed.

Lemma sql_params_nil s : 36%N ∉ s → sql_params s = [].
Proof. intros H. rewrite <- (app_nil_r s). by rewrite sql_params_app. Qed.

Lemma digits_count_show n s : 0 < digits_count (show_N n ++ s).
Proof.
  pose proof (show_N_digits n) as Hd. pose proof (show_N_nonempty n) as Hn.
  destruct (show_N n) as [|c l]; [done|]. simpl in *.
  apply andb_true_iff in Hd as [-> _]. lia.
Qed.

Lemma sql_params_placeholder i t :
  no_digit_head t → sql_params (placeholder i ++ t) = N.of_nat i :: sql_params t.
Proof.
  intros Ht. unfold placeholder, show_nat.
  change (#"$" ++ show_N (N.of_nat i)) with (36%N :: show_N (N.of_nat i)).
  cbn [app sql_params]. rewrite (proj2 (Nat.ltb_lt _ _) (digits_count_show _ _)). simpl.
  rewrite digits_value_show by done. f_equal. apply sql_params_app, show_N_not_in. done.
Qed.

(** A list of conditions, each a [$]-free text and its placeholder. *)
Lemma sql_params_join (texts : list str) sep k t :
  36%N ∉ sep → no_digit_head sep → sep ≠ [] → no_digit_head t →
  Forall (λ s, 36%N ∉ s) texts →
  sql_params (join sep (imap (λ i s, s ++ placeholder (k + i)) texts) ++ t) =
  (N.of_nat <$> seq k (length texts)) ++ sql_params t.
Proof.
  intros Hsep Hd Hne Ht Hall. revert k.
  induction Hall as [|s texts Hs _ IH]; intros k; [done|]. cbn [imap].
  rewrite Nat.add_0_r. cbn [length seq fmap list_fmap].
  rewrite (imap_ext _ (λ i s, s ++ placeholder (S k + i))) by (intros; simpl; do 2 f_equal; lia).
  destruct texts as [|s' texts].
  { simpl. by rewrite <- app_assoc, sql_params_app, sql_params_placeholder. }
  rewrite join_cons by done. rewrite <- !app_assoc, sql_params_app by done.
  rewrite sql_params_placeholder by (by destruct sep).
  rewrite sql_params_app by done. rewrite IH. done.
Qed.

Lemma numbered_app n m :
  numbered (n + m) = numbered n ++ (N.of_nat <$> seq (S n) m).
Proof. unfold numbered. by rewrite seq_app, fmap_app. Qed.

Lemma replace_params_no_params b s :
  sql_params (replace_params b s) = [] ∧
  no_digit_head (if b then replace_params b s else []).
Proof.
  revert b. induction s as [|c s IH]; intros b; [by destruct b|]. simpl.
  destruct (b && is_digit c) eqn:Hb.
  - apply andb_true_iff in Hb as [-> _]. apply IH.
  - destruct ((c =? 36)%N && (0 <? digits_count s)) eqn:Hp.
    + simpl. destruct (IH true) as [-> _]. by destruct b.
    + simpl. destruct (IH false) as [Hps _]. rewrite Hps.
      split; [|by destruct b].
      destruct ((c =? 36)%N && (0 <? digits_count (replace_params false s))) eqn:Hq;
        [exfalso|done].
      apply andb_true_iff in Hq as [Hc Hq]. rewrite Hc in Hp. simpl in Hp.
      destruct s as [|c' s]; [done|]. simpl in Hq, Hp.
      destruct (is_digit c') eqn:Hd; [done|].
      destruct ((c' =? 36)%N && (0 <? digits_count s)); simpl in Hq; [done|].
      by rewrite Hd in Hq.
Qed.

Lemma replace_params_marks b s :
  63%N ∉ s → question_marks (replace_params b s) = length (sql_params s).
Proof.
  unfold question_marks. revert b. induction s as [|c s IH]; intros b; [done|].
  rewrite not_elem_of_cons. intros [Hc Hs]. simpl.
  destruct (b && is_digit c) eqn:Hb.
  - rewrite IH by done. destruct (N.eqb_spec c 36) as [->|]; [|done].
    by apply andb_true_iff in Hb as [_ ?].
  - destruct ((c =? 36)%N && (0 <? digits_count s)).
    + rewrite filter_cons_True by done. simpl. by rewrite IH.
    + rewrite filter_cons_False by congruence. by apply IH.
Qed.

(** * The WHERE clause against a specification *)

(** The comparison an operator stands for, and the value it binds. *)
Definition op_text (op : SqlOp) : str :=
  match op with
  | SqlEq => #" = " | SqlNe => #" <> " | SqlGt => #" > " | SqlGte => #" >= "
  | SqlLt => #" < " | SqlLte => #" <= " | SqlContains => #" ILIKE "
  end.

Definition op_value (op : SqlOp) (v : jsval) : jsval :=
  match op with SqlContains => VStr (#"%" ++ to_string v ++ #"%") | _ => v end.

(** One argument's condition (without its placeholder) and value. *)
Definition where_term (m : gmap str DomainFieldDef) (entry : str * jsval) : option (str * jsval) :=
  if is_nullish entry.2 then None
  else if decide (entry.1 = #"id") then None
  else '(f, op) ← decodeFilterArg entry.1 m;
       Some (field_name f ++ op_text op, op_value op entry.2).

Definition where_terms (d : DomainDef) (args : jsobj) : list (str * jsval) :=
  (if is_undef (obj_get #"id" args) then [] else [(#"id = ", obj_get #"id" args)])
  ++ omap (where_term (fieldByName d)) args.

Definition number_terms (k : nat) (ts : list (str * jsval)) : list str :=
  imap (λ i s, s ++ placeholder (k + i)) ts.*1.

Definition render_where (ts : list (str * jsval)) : WhereClause :=
  match ts with
  | [] => MkWhere [] []
  | _ => MkWhere (#" WHERE " ++ join #" AND " (number_terms 1 ts)) ts.*2
  end.

Lemma where_switch_push st f op v :
  where_switch st f op v = push_condition st (field_name f ++ op_text op) (op_value op v).
Proof. by destruct op. Qed.

Lemma where_step_term m st entry :
  where_step m st entry =
  match where_term m entry with
  | Some (text, v) => push_condition st text v
  | None => st
  end.
Proof.
  destruct entry as [name v]. unfold where_step, where_term. simpl.
  destruct (is_nullish v); [done|]. case_decide; [done|].
  destruct (decodeFilterArg name m) as [[f op]|]; simpl; [apply where_switch_push|done].
Qed.

(** The loop's state after pushing [ts] onto [st]. *)
Definition push_terms (st : WhereState) (ts : list (str * jsval)) : WhereState :=
  MkWhereState (conditions st ++ number_terms (next_param st) ts)
               (wvalues st ++ ts.*2) (next_param st + length ts).

Lemma push_terms_nil st : push_terms st [] = st.
Proof. destruct st. unfold push_terms. simpl. by rewrite !app_nil_r, Nat.add_0_r. Qed.

Lemma push_terms_cons st t ts :
  push_terms st (t :: ts) = push_terms (push_condition st t.1 t.2) ts.
Proof.
  unfold push_terms, push_condition, number_terms. simpl. rewrite <- !app_assoc. simpl.
  rewrite Nat.add_0_r. f_equal; [|lia]. do 2 f_equal.
  apply imap_ext. intros i x _. simpl. by rewrite Nat.add_succ_r.
Qed.

Lemma where_loop m st args :
  foldl (where_step m) st args = push_terms st (omap (where_term m) args).
Proof.
  revert st. induction args as [|e args IH]; intros st; simpl.
  { by rewrite push_terms_nil. }
  rewrite IH, where_step_term. destruct (where_term m e) as [[text v]|]; [|done].
  by rewrite push_terms_cons.
Qed.

Lemma buildWhereClause_terms d args :
  buildWhereClause d args = render_where (where_terms d args).
Proof.
  unfold buildWhereClause, where_terms. rewrite where_loop.
  destruct (is_undef _).
  - unfold render_where. simpl. by destruct (omap _ _).
  - pose proof (push_terms_cons (MkWhereState [] [] 1) (#"id = ", obj_get #"id" args)
                  (omap (where_term (fieldByName d)) args)) as H.
    cbn [fst snd] in H. by rewrite <- H.
Qed.

Lemma number_terms_length k ts : length (number_terms k ts) = length ts.
Proof. unfold number_terms. by rewrite length_imap, length_fmap. Qed.

(** ** Decoding *)

Lemma fieldByName_foldl (fs : list DomainFieldDef) (m : gmap str DomainFieldDef) n f :
  foldl (λ m f, <[field_name f := f]> m) m fs !! n = Some f →
  (f ∈ fs ∧ field_name f = n) ∨ m !! n = Some f.
Proof.
  revert m. induction fs as [|f0 fs IH]; intros m; simpl; [by right|].
  intros [[? ?]|H]%IH; [left; set_solver|].
  destruct (decide (field_name f0 = n)) as [<-|].
  - rewrite lookup_insert_eq in H. injection H as ->. left. set_solver.
  - rewrite lookup_insert_ne in H by done. by right.
Qed.

Lemma fieldByName_Some d n f :
  fieldByName d !! n = Some f → f ∈ fields d ∧ field_name f = n.
Proof. by intros [?|?]%fieldByName_foldl. Qed.

Lemma fieldByName_None_foldl (fs : list DomainFieldDef) (m : gmap str DomainFieldDef) n :
  n ∉ field_name <$> fs → foldl (λ m f, <[field_name f := f]> m) m fs !! n = m !! n.
Proof.
  revert m. induction fs as [|f0 fs IH]; intros m; simpl; [done|].
  rewrite not_elem_of_cons. intros [? ?]. rewrite IH by done. by apply lookup_insert_ne.
Qed.

Lemma fieldByName_None d n : fieldByName d !! n = None ↔ n ∉ field_name <$> fields d.
Proof.
  split.
  - unfold fieldByName. generalize (∅ : gmap str DomainFieldDef).
    induction (fields d) as [|f fs IH]; intros m; simpl; [set_solver|].
    intros H Hin. destruct (decide (n ∈ field_name <$> fs)) as [|Hn]; [by eapply IH|].
    rewrite fieldByName_None_foldl in H by done.
    apply elem_of_cons in Hin as [->|]; [|done]. by rewrite lookup_insert_eq in H.
  - intros. unfold fieldByName. by rewrite fieldByName_None_foldl, lookup_empty.
Qed.

Lemma fieldByName_lookup d f :
  NoDup (field_name <$> fields d) → f ∈ fields d → fieldByName d !! field_name f = Some f.
Proof.
  intros Hnd Hf. destruct (fieldByName d !! field_name f) as [g|] eqn:E.
  - apply fieldByName_Some in E as [Hg Hn]. f_equal.
    apply list_elem_of_lookup in Hf as [i Hi], Hg as [j Hj].
    assert (i = j) as ->; [|congruence].
    eapply NoDup_lookup; [done|rewrite list_lookup_fmap, Hi; done|].
    by rewrite list_lookup_fmap, Hj; simpl; f_equal.
  - apply fieldByName_None in E. exfalso. apply E, list_elem_of_fmap. eauto.
Qed.

Lemma decode_suffix_Some (m : gmap str DomainFieldDef) n l f op :
  decode_suffix m n l = Some (f, op) →
  ∃ suffix, (suffix, op) ∈ l ∧ m !! slice_end (length suffix) n = Some f ∧
            n = slice_end (length suffix) n ++ suffix.
Proof.
  induction l as [|[suffix op'] l IH]; simpl; [done|].
  destruct (ends_with suffix n) eqn:He; simpl.
  - destruct (m !! _) as [g|] eqn:Hm.
    + intros [= -> ->]. exists suffix. split_and!; [by left|done|].
      apply ends_with_spec in He as [k ->]. by rewrite slice_end_app.
    + intros (s & ? & ?)%IH. exists s. split; [by right|done].
  - intros (s & ? & ?)%IH. exists s. split; [by right|done].
Qed.

Lemma decodeFilterArg_field d n f op :
  decodeFilterArg n (fieldByName d) = Some (f, op) → f ∈ fields d.
Proof.
  unfold decodeFilterArg. destruct (fieldByName d !! n) as [g|] eqn:E.
  - intros [= <- <-]. by apply fieldByName_Some in E as [? _].
  - intros (s & _ & H & _)%decode_suffix_Some. by apply fieldByName_Some in H as [? _].
Qed.

(** The suffixes of the table exclude one another, so the order in which the
    loop tries them does not matter. *)
Lemma ends_with_shorter s s' n :
  ends_with s n = true → ends_with s' n = true → length s ≤ length s' →
  ends_with s s' = true.
Proof.
  rewrite !ends_with_spec. intros [k ->] [k' Hk'] Hlen.
  apply app_eq_inv in Hk' as [(m & -> & ->)|(m & -> & ->)].
  - by exists m.
  - rewrite length_app in Hlen. assert (m = []) as -> by (apply nil_length_inv; lia).
    by exists [].
Qed.

Lemma SUFFIXES_not_nested :
  Forall (λ p : str * SqlOp, Forall (λ q : str * SqlOp,
    implb (ends_with p.1 q.1) (bool_decide (p = q)) = true) SUFFIXES) SUFFIXES.
Proof. repeat constructor. Qed.

Lemma SUFFIXES_exclusive p q n :
  p ∈ SUFFIXES → q ∈ SUFFIXES → ends_with p.1 n = true → ends_with q.1 n = true → p = q.
Proof.
  intros Hp Hq Ep Eq. pose proof SUFFIXES_not_nested as H.
  rewrite Forall_forall in H.
  assert (Hnest : ∀ a b, a ∈ SUFFIXES → b ∈ SUFFIXES → ends_with a.1 b.1 = true → a = b).
  { intros a b Ha Hb Hab. specialize (H a Ha). rewrite Forall_forall in H.
    specialize (H b Hb). rewrite Hab in H. by apply bool_decide_eq_true in H. }
  destruct (decide (length p.1 ≤ length q.1)) as [Hle|Hle].
  - by apply Hnest, (ends_with_shorter _ _ n).
  - symmetry. apply Hnest; [done..|]. apply (ends_with_shorter _ _ n); [done..|lia].
Qed.

Lemma decode_suffix_complete (m : gmap str DomainFieldDef) n l s op f :
  (∀ p, p ∈ l → p ∈ SUFFIXES) → (s, op) ∈ l → ends_with s n = true →
  m !! slice_end (length s) n = Some f → decode_suffix m n l = Some (f, op).
Proof.
  intros Hl Hin Hs Hm. induction l as [|[s' op'] l IH]; simpl; [set_solver|].
  destruct (ends_with s' n) eqn:Hs'; simpl.
  - assert ((s', op') = (s, op)) as [= -> ->].
    { apply (SUFFIXES_exclusive _ _ n); [apply Hl; by left|by apply Hl|done..]. }
    by rewrite Hm.
  - apply elem_of_cons in Hin as [[= -> ->]|Hin]; [congruence|].
    apply IH; [|done]. intros p ?. apply Hl. by right.
Qed.

Lemma decodeFilterArg_suffixed d f s op :
  NoDup (field_name <$> fields d) → f ∈ fields d → (s, op) ∈ SUFFIXES →
  field_name f ++ s ∉ field_name <$> fields d →
  decodeFilterArg (field_name f ++ s) (fieldByName d) = Some (f, op).
Proof.
  intros Hnd Hf Hs Hno. unfold decodeFilterArg.
  rewrite (proj2 (fieldByName_None _ _) Hno).
  apply (decode_suffix_complete _ _ _ s); [done|done|apply ends_with_app|].
  rewrite slice_end_app. by apply fieldByName_lookup.
Qed.

Lemma decodeFilterArg_bare d f :
  NoDup (field_name <$> fields d) → f ∈ fields d →
  decodeFilterArg (field_name f) (fieldByName d) = Some (f, SqlEq).
Proof. intros. unfold decodeFilterArg. by rewrite fieldByName_lookup. Qed.

(** ** Placeholders and values *)

Lemma op_text_no_dollar op : 36%N ∉ op_text op.
Proof. destruct op; js_decide. Qed.

Lemma field_name_no_dollar d f :
  domain_ids d → f ∈ fields d → ∀ c, is_id_unit c = false → c ∉ field_name f.
Proof.
  intros [_ H] Hf c Hc. rewrite Forall_forall in H. apply is_id_not_in; auto.
Qed.

Lemma where_terms_no_dollar d args :
  domain_ids d → Forall (λ s, 36%N ∉ s) (where_terms d args).*1.
Proof.
  intros Hd. unfold where_terms. rewrite fmap_app, Forall_app. split.
  - destruct (is_undef _); repeat constructor.
    change (36%N ∉ #"id = "). js_decide.
  - apply Forall_fmap, Forall_forall. intros [s v] Hin. simpl.
    apply list_elem_of_omap in Hin as ([n v'] & _ & Ht). unfold where_term in Ht.
    destruct (is_nullish _); [done|]. case_decide; [done|].
    destruct (decodeFilterArg _ _) as [[f op]|] eqn:E; [|done].
    injection Ht as <- _. rewrite not_elem_of_app. split; [|apply op_text_no_dollar].
    apply decodeFilterArg_field in E. by apply (field_name_no_dollar d).
Qed.

Lemma where_sql_params d args t :
  domain_ids d → no_digit_head t → 36%N ∉ t →
  sql_params (where_sql (buildWhereClause d args) ++ t) =
  numbered (length (where_values (buildWhereClause d args))).
Proof.
  intros Hd Ht Hdt. rewrite buildWhereClause_terms.
  pose proof (where_terms_no_dollar d args Hd) as Hno.
  unfold render_where. destruct (where_terms d args) as [|t0 ts]; [by apply sql_params_nil|].
  cbn [where_sql where_values]. rewrite <- app_assoc.
  rewrite (sql_params_app #" WHERE ") by js_decide.
  unfold number_terms. rewrite sql_params_join; try done.
  - rewrite (sql_params_nil t), app_nil_r by done. by rewrite !length_fmap.
  - js_decide.
Qed.

(** ** What the statement text may depend on

    The text of a WHERE clause is a function of the names of the arguments
    and of which of them are null; argument values only reach the values
    array. *)
Definition arg_shape (entry : str * jsval) : str * (bool * bool) :=
  (entry.1, (is_undef entry.2, is_nullish entry.2)).

Lemma assoc_get_shape k args args' :
  arg_shape <$> args = arg_shape <$> args' →
  is_undef (obj_get k args) = is_undef (obj_get k args').
Proof.
  unfold obj_get. revert args'.
  induction args as [|[n v] args IH]; intros [|[n' v'] args']; simpl; try done.
  intros [= -> Hu Hn Hs]. case_decide; [done|]. by apply IH.
Qed.

Lemma where_term_shape m e e' :
  arg_shape e = arg_shape e' → fst <$> where_term m e = fst <$> where_term m e'.
Proof.
  destruct e as [n v], e' as [n' v']. unfold arg_shape, where_term. simpl.
  intros [= -> _ ->]. destruct (is_nullish v'); [done|]. case_decide; [done|].
  by destruct (decodeFilterArg n' m) as [[f op]|].
Qed.

Lemma omap_fst_shape m args args' :
  arg_shape <$> args = arg_shape <$> args' →
  (omap (where_term m) args).*1 = (omap (where_term m) args').*1.
Proof.
  revert args'. induction args as [|e args IH]; intros [|e' args']; simpl; try done.
  intros H. injection H as H1 H2 H3 Hs.
  assert (Ht : fst <$> where_term m e = fst <$> where_term m e').
  { apply where_term_shape. unfold arg_shape. congruence. }
  destruct (where_term m e) as [[s v]|], (where_term m e') as [[s' v']|]; try done.
  - injection Ht as ->. simpl. f_equal. by apply IH.
  - by apply IH.
Qed.

Lemma where_sql_shape d args args' :
  arg_shape <$> args = arg_shape <$> args' →
  where_sql (buildWhereClause d args) = where_sql (buildWhereClause d args').
Proof.
  intros Hs. rewrite !buildWhereClause_terms.
  assert (Ht : (where_terms d args).*1 = (where_terms d args').*1).
  { unfold where_terms. rewrite !fmap_app, (omap_fst_shape _ _ _ Hs).
    f_equal. rewrite (assoc_get_shape _ _ _ Hs). by destruct (is_undef _). }
  unfold render_where, number_terms.
  destruct (where_terms d args) as [|x xs], (where_terms d args') as [|y ys];
    try done. cbn [where_sql]. by rewrite Ht.
Qed.
