(* ===== verification/SqlMutation.v ===== *)
(** UPDATE / INSERT / DELETE statements: [packages/oos-gql-ts/src/sql/mutation.ts]. *)

From S2P Require Export SqlSelect.

(** * Definitions *)

Record SqlCommand := MkCommand { cmd_sql : str; cmd_values : list jsval; idValue : jsval }.

(** [settableFieldNames] *)
Definition settableFieldNames (d : DomainDef) : gset str :=
  foldl (λ out f,
    if readOnly f then out
    else if decide (field_name f = #"id") then out
    else {[field_name f]} ∪ out) ∅ (fields d).

(** The variables of the assembly loops: columns (or SET clauses),
    placeholders, values, and the next placeholder number. *)
Record BuildState := MkBuildState {
  columns : list str; placeholders : list str; bvalues : list jsval; param_i : nat }.

Definition build_init : BuildState := MkBuildState [] [] [] 1.

Definition update_step (settable : gset str) (st : BuildState) (entry : str * jsval)
    : BuildState :=
  let '(key, val) := entry in
  if decide (key = #"id") then st
  else if decide (key ∉ settable) then st
  else if is_undef val then st
  else MkBuildState (columns st ++ [key ++ #" = " ++ placeholder (param_i st)])
                    (placeholders st) (bvalues st ++ [val]) (S (param_i st)).

(** [buildUpdate] *)
Definition buildUpdate (d : DomainDef) (args : jsobj) : option SqlCommand :=
  let idVal := obj_get #"id" args in
  if is_undef idVal then None else
  let st := foldl (update_step (settableFieldNames d)) build_init args in
  match columns st with
  | [] => None
  | setClauses =>
    Some (MkCommand
      (#"UPDATE " ++ domain_source d ++ #" SET " ++ join #", " setClauses ++
       #" WHERE id = " ++ placeholder (param_i st) ++ #" RETURNING " ++ selectColumnList d)
      (bvalues st ++ [idVal]) idVal)
  end.

Definition insert_step (settable : gset str) (st : BuildState) (entry : str * jsval)
    : BuildState :=
  let '(key, val) := entry in
  if decide (key ∉ settable) then st
  else if is_undef val then st
  else MkBuildState (columns st ++ [key]) (placeholders st ++ [placeholder (param_i st)])
                    (bvalues st ++ [val]) (S (param_i st)).

(** [buildInsert] *)
Definition buildInsert (d : DomainDef) (args : jsobj) : option SqlCommand :=
  let st := foldl (insert_step (settableFieldNames d)) build_init args in
  match columns st with
  | [] => None
  | cols =>
    Some (MkCommand
      (#"INSERT INTO " ++ domain_source d ++ #" (" ++ join #", " cols ++ #") VALUES (" ++
       join #", " (placeholders st) ++ #") RETURNING " ++ selectColumnList d)
      (bvalues st) VUndef)
  end.

(** [buildDelete] *)
Definition buildDelete (d : DomainDef) (args : jsobj) : option SqlCommand :=
  let idVal := obj_get #"id" args in
  if is_undef idVal then None else
  Some (MkCommand (#"DELETE FROM " ++ domain_source d ++ #" WHERE id = $1 RETURNING id")
                  [idVal] idVal).

(** * The settable columns *)

Definition settable_field (f : DomainFieldDef) : Prop :=
  readOnly f = false ∧ field_name f ≠ #"id".

Lemma elem_of_settable_foldl (fs : list DomainFieldDef) (s : gset str) (n : str) :
  n ∈ foldl (λ out f,
    if readOnly f then out
    else if decide (field_name f = #"id") then out
    else {[field_name f]} ∪ out) s fs ↔
  (∃ f, f ∈ fs ∧ settable_field f ∧ field_name f = n) ∨ n ∈ s.
Proof.
  revert s. induction fs as [|f fs IH]; intros s; simpl; [set_solver|].
  rewrite IH, exists_elem_cons. unfold settable_field at 2.
  destruct (readOnly f) eqn:Hr; [|case_decide as Hid].
  - naive_solver.
  - naive_solver.
  - rewrite elem_of_union, elem_of_singleton. naive_solver.
Qed.

Lemma elem_of_settable d (n : str) :
  n ∈ settableFieldNames d ↔ ∃ f, f ∈ fields d ∧ settable_field f ∧ field_name f = n.
Proof. unfold settableFieldNames. rewrite elem_of_settable_foldl. set_solver. Qed.

(** The arguments that become columns. *)
Definition settable_entry (d : DomainDef) (entry : str * jsval) : Prop :=
  entry.1 ∈ settableFieldNames d ∧ is_undef entry.2 = false.

#[export] Instance settable_entry_dec d e : Decision (settable_entry d e).
Proof. unfold settable_entry. apply _. Defined.

Definition set_columns (d : DomainDef) (args : jsobj) : jsobj := filter (settable_entry d) args.

Definition set_clauses (k : nat) (cols : jsobj) : list str :=
  imap (λ i c, c ++ placeholder (k + i)) ((λ e, e.1 ++ #" = ") <$> cols).

Lemma settable_not_id d : #"id" ∉ settableFieldNames d.
Proof. rewrite elem_of_settable. intros (f & _ & [_ ?] & ?). done. Qed.

Lemma update_loop d st args :
  foldl (update_step (settableFieldNames d)) st args =
  MkBuildState (columns st ++ set_clauses (param_i st) (set_columns d args))
    (placeholders st) (bvalues st ++ (set_columns d args).*2)
    (param_i st + length (set_columns d args)).
Proof.
  unfold set_columns. revert st.
  induction args as [|[k v] args IH]; intros st; cbn [foldl].
  { destruct st. simpl. by rewrite !app_nil_r, Nat.add_0_r. }
  rewrite IH. clear IH.
  assert (Hskip : ¬ settable_entry d (k, v) →
    update_step (settableFieldNames d) st (k, v) = st ∧
    filter (settable_entry d) ((k, v) :: args) = filter (settable_entry d) args).
  { intros Hn. rewrite filter_cons_False by done. unfold settable_entry in Hn. simpl in *.
    case_decide; [done|]. case_decide; [done|].
    destruct (is_undef v); [done|]. naive_solver. }
  destruct (decide (settable_entry d (k, v))) as [Hs|Hn].
  - rewrite filter_cons_True by done. destruct Hs as [Hk Hv]. unfold update_step. simpl in *.
    rewrite decide_False by (intros ->; by apply settable_not_id in Hk).
    rewrite decide_False by tauto. rewrite Hv. unfold set_clauses. simpl.
    rewrite <- !app_assoc, Nat.add_0_r. simpl. f_equal; [|lia].
    do 2 f_equal. apply imap_ext. intros. simpl. by rewrite Nat.add_succ_r.
  - destruct (Hskip Hn) as [-> ->]. done.
Qed.

Lemma insert_loop d st args :
  foldl (insert_step (settableFieldNames d)) st args =
  MkBuildState (columns st ++ (set_columns d args).*1)
    (placeholders st ++ (placeholder <$> seq (param_i st) (length (set_columns d args))))
    (bvalues st ++ (set_columns d args).*2)
    (param_i st + length (set_columns d args)).
Proof.
  unfold set_columns. revert st.
  induction args as [|[k v] args IH]; intros st; cbn [foldl].
  { destruct st. simpl. by rewrite !app_nil_r, Nat.add_0_r. }
  rewrite IH. clear IH.
  destruct (decide (settable_entry d (k, v))) as [Hs|Hn].
  - rewrite filter_cons_True by done. destruct Hs as [Hk Hv]. unfold insert_step. simpl in *.
    rewrite decide_False by tauto. rewrite Hv. simpl.
    rewrite <- !app_assoc. simpl. f_equal. lia.
  - rewrite filter_cons_False by done. unfold settable_entry in Hn. simpl in *.
    case_decide; [done|]. destruct (is_undef v); [done|]. naive_solver.
Qed.

(** ** The statements, in terms of the settable arguments *)

Definition update_sql (d : DomainDef) (cols : jsobj) : str :=
  #"UPDATE " ++ domain_source d ++ #" SET " ++ join #", " (set_clauses 1 cols) ++
  #" WHERE id = " ++ placeholder (S (length cols)).

Definition insert_sql (d : DomainDef) (cols : jsobj) : str :=
  #"INSERT INTO " ++ domain_source d ++ #" (" ++ join #", " cols.*1 ++ #") VALUES (" ++
  join #", " (placeholder <$> seq 1 (length cols)) ++ #")".

Lemma set_clauses_nil k cols : set_clauses k cols = [] → cols = [].
Proof. by destruct cols. Qed.

Lemma buildUpdate_spec d args :
  buildUpdate d args =
  let id := obj_get #"id" args in
  if is_undef id then None
  else if decide (set_columns d args = []) then None
  else Some (MkCommand (update_sql d (set_columns d args) ++ #" RETURNING " ++ selectColumnList d)
                       ((set_columns d args).*2 ++ [id]) id).
Proof.
  unfold buildUpdate. cbv zeta. destruct (is_undef _); [done|]. rewrite update_loop.
  cbn [build_init columns bvalues param_i app]. unfold update_sql.
  case_decide as Hc; [by rewrite Hc|].
  pose proof (set_clauses_nil 1 (set_columns d args)) as Hn.
  destruct (set_clauses 1 (set_columns d args)) as [|c cs]; [tauto|].
  do 2 f_equal. by rewrite <- !app_assoc.
Qed.

Lemma buildInsert_spec d args :
  buildInsert d args =
  if decide (set_columns d args = []) then None
  else Some (MkCommand (insert_sql d (set_columns d args) ++ #" RETURNING " ++ selectColumnList d)
                       (set_columns d args).*2 VUndef).
Proof.
  unfold buildInsert. rewrite insert_loop.
  cbn [build_init columns bvalues param_i placeholders app]. unfold insert_sql.
  destruct (set_columns d args) as [|e es]; [done|].
  rewrite decide_False by done. cbn [fmap list_fmap].
  do 2 f_equal. by rewrite <- !app_assoc.
Qed.

(** ** Placeholders and values *)

Lemma set_columns_settable d args :
  Forall (λ e : str * jsval, ∃ f, f ∈ fields d ∧ settable_field f ∧ field_name f = e.1)
    (set_columns d args).
Proof.
  apply Forall_forall. intros e He. unfold set_columns in He.
  apply list_elem_of_filter in He as [[He _] _]. by apply elem_of_settable.
Qed.

Lemma set_columns_unit d args (c : N) :
  domain_ids d → is_id_unit c = false →
  Forall (λ e : str * jsval, c ∉ e.1) (set_columns d args).
Proof.
  intros Hd Hc. eapply Forall_impl; [apply set_columns_settable|].
  intros e (f & Hf & _ & <-). by apply (field_name_no_dollar d).
Qed.

Lemma selectColumnList_unit d (c : N) :
  domain_ids d → is_id_unit c = false → c ∉ #", " → c ∉ selectColumnList d.
Proof.
  intros Hd Hc Hsep [?|(s & Hs & Hin)]%elem_of_join; [done|].
  apply list_elem_of_fmap in Hs as (f & -> & Hf).
  by apply (field_name_no_dollar d f) in Hin.
Qed.

Lemma source_unit d (c : N) : domain_ids d → is_id_unit c = false → c ∉ domain_source d.
Proof. intros [Hs _] Hc. by apply is_id_not_in. Qed.

Lemma update_sql_params d args t :
  domain_ids d → set_columns d args ≠ [] → no_digit_head t → 36%N ∉ t →
  sql_params (update_sql d (set_columns d args) ++ t) =
  numbered (S (length (set_columns d args))).
Proof.
  intros Hd Hne Ht Hdt. unfold update_sql. rewrite <- !app_assoc.
  rewrite (sql_params_app #"UPDATE ") by js_decide.
  rewrite sql_params_app by (by apply source_unit).
  rewrite (sql_params_app #" SET ") by js_decide.
  unfold set_clauses. rewrite sql_params_join; try done.
  - rewrite (sql_params_app #" WHERE id = ") by js_decide.
    rewrite sql_params_placeholder, sql_params_nil by done.
    rewrite length_fmap. replace (S (length (set_columns d args))) with (length (set_columns d args) + 1) by lia.
    rewrite numbered_app. unfold numbered. do 2 f_equal. simpl. do 2 f_equal. lia.
  - js_decide.
  - apply Forall_fmap. eapply Forall_impl; [by apply (set_columns_unit d args 36)|].
    intros e He. simpl. rewrite not_elem_of_app. split; [done|js_decide].
Qed.

Lemma placeholders_imap {A} k (l : list A) :
  placeholder <$> seq k (length l) =
  imap (λ i (s : str), s ++ placeholder (k + i)) ((λ _, []) <$> l).
Proof.
  revert k. induction l as [|x l IH]; intros k; [done|].
  cbn [length seq fmap list_fmap imap]. rewrite Nat.add_0_r. simpl. f_equal.
  rewrite IH. apply imap_ext. intros. simpl. by rewrite Nat.add_succ_r.
Qed.

Lemma insert_sql_params d args t :
  domain_ids d → set_columns d args ≠ [] → 36%N ∉ t →
  sql_params (insert_sql d (set_columns d args) ++ t) =
  numbered (length (set_columns d args)).
Proof.
  intros Hd Hne Hdt. unfold insert_sql. rewrite <- !app_assoc.
  rewrite (sql_params_app #"INSERT INTO ") by js_decide.
  rewrite sql_params_app by (by apply source_unit).
  rewrite (sql_params_app #" (") by js_decide.
  rewrite (sql_params_app (join _ _)).
  2: { intros [H|(s & Hs & Hin)]%elem_of_join; [revert H; js_decide|].
       apply list_elem_of_fmap in Hs as (e & -> & He).
       pose proof (set_columns_unit d args 36 Hd eq_refl) as H.
       rewrite Forall_forall in H. by apply (H e He). }
  rewrite (sql_params_app #") VALUES (") by js_decide.
  rewrite placeholders_imap, sql_params_join; try done.
  - rewrite sql_params_nil, app_nil_r; [by rewrite length_fmap|].
    rewrite not_elem_of_app. split; [js_decide|done].
  - js_decide.
  - apply Forall_fmap, Forall_forall. intros. simpl. set_solver.
Qed.
