(* ===== verification/Resolvers.v ===== *)
(** The resolver factories over a [DbClient]:
    [packages/oos-gql-ts/src/resolvers/{sql-resolvers,meta-resolver}.ts].

    A resolver is asynchronous: it issues queries, one after the other, and
    continues with the rows each returns.  It is modelled as a [prog], a tree
    of queries; the database is the handler [run] interprets the tree with,
    and may reject any query. *)

From S2P Require Export SqlMutation.

(** * Definitions *)

Record DbCall := MkCall { call_sql : str; call_values : list jsval }.

Abbreviation DbRow := jsobj.

Inductive prog (A : Type) : Type :=
| Ret (a : A)
| Raise (msg : str)
| Query (sql : str) (values : list jsval) (k : list DbRow → prog A).
Arguments Ret {A} a.
Arguments Raise {A} msg.
Arguments Query {A} sql values k.

(** A database: what a call does to its state, and the rows or the error it
    answers with. *)
Definition db_handler (S : Type) : Type := S → DbCall → S * outcome (list DbRow).

(** Run a program: the calls it made, the database's last state, the outcome. *)
Fixpoint run {S A} (h : db_handler S) (s : S) (p : prog A) : list DbCall * S * outcome A :=
  match p with
  | Ret a => ([], s, Ok a)
  | Raise msg => ([], s, Throw msg)
  | Query sql values k =>
    let call := MkCall sql values in
    match h s call with
    | (s, Throw msg) => ([call], s, Throw msg)
    | (s, Ok rows) =>
      let '(calls, s, r) := run h s (k rows) in (call :: calls, s, r)
    end
  end.

(** [rows[0]] *)
Definition first_row (rows : list DbRow) : jsval :=
  match rows with r :: _ => VObj r | [] => VUndef end.

(** ** [sql.replace(/ RETURNING .+$/, "")] *)

(** What [.] does not match. *)
Definition line_end (c : N) : bool := bool_decide (c ∈ [10; 13; 8232; 8233]%N).
Definition dot_plus_end (s : str) : bool :=
  negb (bool_decide (s = [])) && forallb (negb ∘ line_end) s.

Fixpoint strip_returning (s : str) : str :=
  match s with
  | [] => []
  | c :: s' =>
    if starts_with #" RETURNING " s && dot_plus_end (drop 11 s) then []
    else c :: strip_returning s'
  end.

(** ** The factories *)

Definition select_all (domain : DomainDef) : str :=
  #"SELECT " ++ selectColumnList domain ++ #" FROM " ++ domain_source domain.

Definition select_by_id (domain : DomainDef) : str := select_all domain ++ #" WHERE id = $1".

(** [makeQueryResolver] *)
Definition makeQueryResolver (domain : DomainDef) (dialect : DbDialect) (args : jsobj)
    : prog jsval :=
  let clause := buildWhereClause domain args in
  let text := toDialectParams (select_all domain ++ where_sql clause) dialect in
  Query text (where_values clause) (λ rows, Ret (VArr (VObj <$> rows))).

(** [makeUpdateResolver] *)
Definition makeUpdateResolver (domain : DomainDef) (dialect : DbDialect) (args : jsobj)
    : prog jsval :=
  match buildUpdate domain args with
  | None => Raise #"update requires id and at least one settable field"
  | Some cmd =>
    if dialectSupportsReturning dialect then
      Query (toDialectParams (cmd_sql cmd) dialect) (cmd_values cmd) (λ rows, Ret (first_row rows))
    else
      Query (toDialectParams (strip_returning (cmd_sql cmd)) dialect) (cmd_values cmd) (λ _,
        Query (toDialectParams (select_by_id domain) dialect) [idValue cmd] (λ rows,
          Ret (first_row rows)))
  end.

(** [(result[0] as DbRow | undefined)?.insertId] *)
Definition insert_id (rows : list DbRow) : jsval :=
  match rows with r :: _ => obj_get #"insertId" r | [] => VUndef end.

(** [makeInsertResolver] *)
Definition makeInsertResolver (domain : DomainDef) (dialect : DbDialect) (args : jsobj)
    : prog jsval :=
  match buildInsert domain args with
  | None => Raise #"insert requires at least one settable field"
  | Some cmd =>
    if dialectSupportsReturning dialect then
      Query (toDialectParams (cmd_sql cmd) dialect) (cmd_values cmd) (λ rows, Ret (first_row rows))
    else
      Query (toDialectParams (strip_returning (cmd_sql cmd)) dialect) (cmd_values cmd) (λ result,
        let insertId := insert_id result in
        if is_undef insertId then Raise #"insert did not return an id" else
        Query (toDialectParams (select_by_id domain) dialect) [insertId] (λ rows,
          Ret (first_row rows)))
  end.

(** [makeDeleteResolver] *)
Definition makeDeleteResolver (domain : DomainDef) (dialect : DbDialect) (args : jsobj)
    : prog jsval :=
  match buildDelete domain args with
  | None => Raise #"delete requires id"
  | Some cmd =>
    if dialectSupportsReturning dialect then
      Query (toDialectParams (cmd_sql cmd) dialect) (cmd_values cmd) (λ rows, Ret (first_row rows))
    else
      Query (toDialectParams (strip_returning (cmd_sql cmd)) dialect) (cmd_values cmd) (λ _,
        Ret (VObj [(#"id", idValue cmd)]))
  end.

(** [makeMetaResolver] *)
Definition makeMetaResolver (meta : MetaDef) : prog jsval :=
  let order := match orderBy meta with
               | Some o => if decide (o = []) then [] else #" ORDER BY " ++ o
               | None => []
               end in
  Query (#"SELECT " ++ valueField meta ++ #" AS value, " ++ labelField meta ++ #" AS label " ++
         #"FROM " ++ meta_table meta ++ order) []
        (λ rows, Ret (VArr (VObj <$> rows))).

(** * Stripping the RETURNING clause *)

Lemma strip_returning_earlier c p t :
  starts_with #" RETURNING " ((c :: p) ++ #" RETURNING " ++ t) = true →
  c = 32%N ∧ ¬ word_free #"RETURNING" p.
Proof.
  intros [k Hk]%starts_with_spec.
  assert (Hk' : p ++ 32%N :: #"RETURNING" ++ 32%N :: t = #"RETURNING" ++ 32%N :: k ∧ c = 32%N)
    by (injection Hk; intros; by split).
  clear Hk. destruct Hk' as [Hk ->]. split; [done|]. intros Hw.
  apply (f_equal (split_on 32%N)) in Hk.
  rewrite !split_on_app_sep in Hk. rewrite (split_on_none _ #"RETURNING") in Hk by js_decide.
  unfold word_free in Hw. pose proof (split_on_nonempty 32%N p).
  destruct (split_on 32%N p) as [|w ws]; [done|].
  cbn [app] in Hk. injection Hk as -> _. set_solver.
Qed.

(** The regular expression removes exactly the clause when no earlier word
    of the statement is [RETURNING]. *)
Lemma strip_returning_clause p t :
  word_free #"RETURNING" p → dot_plus_end t = true →
  strip_returning (p ++ #" RETURNING " ++ t) = p.
Proof.
  intros Hw Ht.
  assert (H : ∀ r q, p = q ++ r → strip_returning (r ++ #" RETURNING " ++ t) = r).
  { intros r. induction r as [|c r IH]; intros q Hq.
    { change ([] ++ #" RETURNING " ++ t) with (32%N :: #"RETURNING " ++ t).
      cbn [strip_returning].
      change (32%N :: #"RETURNING " ++ t) with (#" RETURNING " ++ t).
      rewrite starts_with_app. change (drop 11 (#" RETURNING " ++ t)) with t. by rewrite Ht. }
    cbn [app strip_returning].
    destruct (starts_with #" RETURNING " (c :: r ++ #" RETURNING " ++ t)) eqn:E.
    - exfalso. apply strip_returning_earlier in E as [-> E]. apply E.
      rewrite Hq in Hw. by apply word_free_app in Hw as [_ ?].
    - cbn [andb]. f_equal. apply (IH (q ++ [c])). by rewrite <- app_assoc. }
  by apply (H p []).
Qed.

(** A domain whose identifiers are identifiers and none of them is the
    keyword the fallback cuts the statement at. *)
Definition returning_free (d : DomainDef) : Prop :=
  domain_ids d ∧ domain_source d ≠ #"RETURNING" ∧
  Forall (λ f, field_name f ≠ #"RETURNING") (fields d) ∧ fields d ≠ [].

Section clause_free.
Context (d : DomainDef) (Hd : returning_free d).

Lemma source_word_free : word_free #"RETURNING" (domain_source d).
Proof.
  destruct Hd as (Hids & Hs & _). apply word_free_word; [|done]. by apply source_unit.
Qed.

Lemma set_columns_word_free args :
  Forall (λ e : str * jsval, word_free #"RETURNING" e.1) (set_columns d args).
Proof.
  destruct Hd as (Hids & _ & Hf & _). eapply Forall_impl; [apply set_columns_settable|].
  intros e (f & Hin & _ & <-). rewrite Forall_forall in Hf.
  apply word_free_word; [by apply (field_name_no_dollar d)|auto].
Qed.

Lemma placeholder_no_space k : 32%N ∉ placeholder k.
Proof.
  unfold placeholder. rewrite not_elem_of_app.
  split; [js_decide|by apply show_N_not_in].
Qed.

Lemma placeholder_word_free k s :
  32%N ∉ s → word_free #"RETURNING" (placeholder k ++ s).
Proof.
  intros Hs. apply (word_free_unit _ _ 36%N).
  - rewrite not_elem_of_app. split; [apply placeholder_no_space|done].
  - apply elem_of_app. left. by left.
  - js_decide.
Qed.

Lemma set_clauses_word_free k cols s :
  Forall (λ e : str * jsval, word_free #"RETURNING" e.1) cols →
  32%N ∉ s → cols ≠ [] →
  word_free #"RETURNING" (join #", " (set_clauses k cols) ++ s).
Proof.
  intros Hc Hs. revert k. induction Hc as [|e cols He Hc IH]; [done|]. intros k _.
  assert (Hhead : ∀ u, 32%N ∉ u →
    word_free #"RETURNING" (e.1 ++ 32%N :: #"=" ++ 32%N :: placeholder (k + 0) ++ u)).
  { intros u Hu. rewrite !word_free_app. split_and!; [done| |by apply placeholder_word_free].
    apply word_free_word; js_decide. }
  destruct cols as [|e' cols].
  - specialize (Hhead s Hs). cbn [set_clauses imap fmap list_fmap join].
    replace ((e.1 ++ #" = ") ++ placeholder (k + 0)) with
      (e.1 ++ 32%N :: #"=" ++ 32%N :: placeholder (k + 0)) by (by rewrite <- app_assoc).
    rewrite <- app_assoc. exact Hhead.
  - specialize (Hhead #"," ltac:(js_decide)). specialize (IH (S k) ltac:(done)).
    assert (Hrest : set_clauses k (e :: e' :: cols) =
      ((e.1 ++ #" = ") ++ placeholder (k + 0)) :: set_clauses (S k) (e' :: cols)).
    { unfold set_clauses. rewrite fmap_cons, imap_cons. f_equal. apply imap_ext.
      intros. simpl. by rewrite Nat.add_succ_r. }
    rewrite Hrest, join_cons by done.
    replace (_ ++ s) with
      ((e.1 ++ 32%N :: #"=" ++ 32%N :: placeholder (k + 0) ++ #",") ++
       32%N :: join #", " (set_clauses (S k) (e' :: cols)) ++ s)
      by (change #" = " with (32%N :: #"=" ++ [32%N]); change #", " with (#"," ++ [32%N]);
          repeat (rewrite <- app_assoc; cbn [app]); done).
    apply word_free_app. by split.
Qed.
Lemma update_sql_word_free args :
  set_columns d args ≠ [] → word_free #"RETURNING" (update_sql d (set_columns d args)).
Proof.
  intros Hne. unfold update_sql.
  replace (_ ++ _) with
    (#"UPDATE" ++ 32%N :: domain_source d ++ 32%N :: #"SET" ++ 32%N ::
     (join #", " (set_clauses 1 (set_columns d args)) ++ []) ++ 32%N ::
     #"WHERE id =" ++ 32%N :: placeholder (S (length (set_columns d args))) ++ [])
    by (rewrite !app_nil_r; text_assoc).
  rewrite !word_free_app. split_and!.
  - js_decide.
  - apply source_word_free.
  - js_decide.
  - apply set_clauses_word_free; [apply set_columns_word_free|set_solver|done].
  - js_decide.
  - apply placeholder_word_free. set_solver.
Qed.

Lemma insert_sql_word_free args :
  set_columns d args ≠ [] → word_free #"RETURNING" (insert_sql d (set_columns d args)).
Proof.
  intros Hne. unfold insert_sql.
  replace (_ ++ _) with
    (#"INSERT INTO" ++ 32%N :: domain_source d ++ 32%N ::
     (#"(" ++ join #", " (set_columns d args).*1 ++ #")") ++ 32%N ::
     #"VALUES" ++ 32%N ::
     (#"(" ++ join #", " (placeholder <$> seq 1 (length (set_columns d args))) ++ #")"))
    by text_assoc.
  rewrite !word_free_app. split_and!; [js_decide|apply source_word_free| |js_decide|].
  - apply (word_free_join _ _ _ _ 41%N); [js_decide| | |js_decide..].
    + apply Forall_fmap, (set_columns_unit d args 32); [apply Hd|done].
    + by destruct (set_columns d args).
  - apply (word_free_join _ _ _ _ 41%N); [js_decide| | |js_decide..].
    + apply Forall_fmap, Forall_forall. intros. apply placeholder_no_space.
    + by destruct (set_columns d args).
Qed.

Lemma delete_sql_word_free :
  word_free #"RETURNING" (#"DELETE FROM " ++ domain_source d ++ #" WHERE id = $1").
Proof.
  replace (_ ++ _) with
    (#"DELETE FROM" ++ 32%N :: domain_source d ++ 32%N :: #"WHERE id = $1") by text_assoc.
  rewrite !word_free_app. split_and!; [js_decide|apply source_word_free|js_decide].
Qed.

Lemma selectColumnList_clause : dot_plus_end (selectColumnList d) = true.
Proof.
  destruct Hd as (Hids & _ & _ & Hne). unfold dot_plus_end. apply andb_true_iff. split.
  - rewrite bool_decide_eq_false_2; [done|]. unfold selectColumnList.
    destruct Hids as [_ Hf]. destruct (fields d) as [|f fs]; [done|].
    apply Forall_cons in Hf as [Hf _]. cbn [fmap list_fmap].
    destruct (field_name f) eqn:E; [by cbn in Hf|]. by destruct (field_name <$> fs).
  - apply forallb_forall. intros c Hc. cbn. unfold line_end.
    rewrite bool_decide_eq_false_2; [done|]. intros Hl.
    apply list_elem_of_In in Hc. revert Hc.
    repeat (apply elem_of_cons in Hl as [->|Hl];
      [apply selectColumnList_unit; [done|done|js_decide]|]). set_solver.
Qed.

(** The statement a dialect without RETURNING runs. *)
Lemma strip_update args :
  set_columns d args ≠ [] →
  strip_returning (update_sql d (set_columns d args) ++ #" RETURNING " ++ selectColumnList d) =
  update_sql d (set_columns d args).
Proof.
  intros. apply strip_returning_clause;
    [by apply update_sql_word_free|apply selectColumnList_clause].
Qed.

Lemma strip_insert args :
  set_columns d args ≠ [] →
  strip_returning (insert_sql d (set_columns d args) ++ #" RETURNING " ++ selectColumnList d) =
  insert_sql d (set_columns d args).
Proof.
  intros. apply strip_returning_clause;
    [by apply insert_sql_word_free|apply selectColumnList_clause].
Qed.

Lemma strip_delete :
  strip_returning (#"DELETE FROM " ++ domain_source d ++ #" WHERE id = $1 RETURNING id") =
  #"DELETE FROM " ++ domain_source d ++ #" WHERE id = $1".
Proof.
  replace (#"DELETE FROM " ++ domain_source d ++ #" WHERE id = $1 RETURNING id") with
    ((#"DELETE FROM " ++ domain_source d ++ #" WHERE id = $1") ++ #" RETURNING " ++ #"id")
    by text_assoc.
  apply strip_returning_clause; [apply delete_sql_word_free|done].
Qed.

End clause_free.

(** * Question marks *)

Lemma set_clauses_unit (c : N) k cols :
  Forall (λ e : str * jsval, c ∉ e.1) cols → c ∉ #" = $" → is_digit c = false →
  Forall (λ s, c ∉ s) (set_clauses k cols).
Proof.
  intros Hc Heq Hdig. unfold set_clauses. apply Forall_forall. intros s Hs.
  apply elem_of_lookup_imap in Hs as (i & y & -> & Hy).
  apply list_elem_of_lookup_2, list_elem_of_fmap in Hy as (e & -> & He).
  rewrite Forall_forall in Hc. unfold placeholder.
  change #" = $" with (#" = " ++ #"$") in Heq. rewrite not_elem_of_app in Heq.
  rewrite !not_elem_of_app. destruct Heq. split_and!; try done; [by apply Hc|].
  by apply show_N_not_in.
Qed.

Lemma not_in_join c sep l : c ∉ sep → Forall (λ s, c ∉ s) l → c ∉ join sep l.
Proof.
  intros Hs Hl [?|(s & Hin & ?)]%elem_of_join; [done|].
  rewrite Forall_forall in Hl. by apply (Hl s).
Qed.

Lemma placeholder_no_mark k : 63%N ∉ placeholder k.
Proof.
  unfold placeholder. rewrite not_elem_of_app. split; [js_decide|by apply show_N_not_in].
Qed.

Lemma update_sql_no_mark d args :
  domain_ids d → 63%N ∉ update_sql d (set_columns d args).
Proof.
  intros Hd. unfold update_sql. rewrite !not_elem_of_app. split_and!; try js_decide.
  - by apply source_unit.
  - apply not_in_join; [js_decide|]. apply set_clauses_unit; [|js_decide|done].
    by apply set_columns_unit.
  - apply placeholder_no_mark.
Qed.

Lemma insert_sql_no_mark d args :
  domain_ids d → 63%N ∉ insert_sql d (set_columns d args).
Proof.
  intros Hd. unfold insert_sql. rewrite !not_elem_of_app. split_and!; try js_decide.
  - by apply source_unit.
  - apply not_in_join; [js_decide|]. by apply Forall_fmap, set_columns_unit.
  - apply not_in_join; [js_decide|]. apply Forall_fmap, Forall_forall.
    intros. apply placeholder_no_mark.
Qed.

Lemma select_all_no_unit d (c : N) :
  domain_ids d → is_id_unit c = false → c ∉ #"SELECT , FROM" → c ∉ select_all d.
Proof.
  intros Hd Hc Hn. unfold select_all.
  assert (H : ∀ w, Forall (λ x, x ∈ #"SELECT , FROM") w → c ∉ w).
  { intros w Hw Hin. rewrite Forall_forall in Hw. by apply Hn, Hw. }
  rewrite !not_elem_of_app. split_and!.
  - apply H. js_decide.
  - apply selectColumnList_unit; [done|done|]. apply H. js_decide.
  - apply H. js_decide.
  - by apply source_unit.
Qed.

Lemma where_sql_no_mark d args :
  domain_ids d → 63%N ∉ where_sql (buildWhereClause d args).
Proof.
  intros Hd. rewrite buildWhereClause_terms. unfold render_where.
  destruct (where_terms d args) as [|t ts] eqn:E; [set_solver|]. rewrite <- E. clear E t ts.
  cbn [where_sql]. rewrite not_elem_of_app. split; [js_decide|].
  apply not_in_join; [js_decide|]. unfold number_terms. apply Forall_forall.
  intros s (i & y & -> & Hy)%elem_of_lookup_imap. apply list_elem_of_lookup_2 in Hy.
  rewrite not_elem_of_app. split; [|apply placeholder_no_mark].
  unfold where_terms in Hy. rewrite fmap_app, elem_of_app in Hy. destruct Hy as [Hy|Hy].
  - destruct (is_undef _); [set_solver|]. apply list_elem_of_singleton in Hy as ->. change (63%N ∉ #"id = "); js_decide.
  - apply list_elem_of_fmap in Hy as ([y' v] & -> & Hy).
    apply list_elem_of_omap in Hy as (e & _ & He). unfold where_term in He.
    destruct (is_nullish _); [done|]. case_decide; [done|].
    destruct (decodeFilterArg _ _) as [[f op]|] eqn:Ed; [|done].
    injection He as <- _. apply decodeFilterArg_field in Ed. cbn [fst].
    rewrite not_elem_of_app. split; [by apply (field_name_no_dollar d)|].
    destruct op; js_decide.
Qed.

(** A call whose [?] markers and values correspond one to one, with no
    numbered placeholder left. *)
Definition call_binds (c : DbCall) : Prop :=
  question_marks (call_sql c) = length (call_values c) ∧ sql_params (call_sql c) = [].

Lemma dialect_call_binds sql (values : list jsval) dialect :
  63%N ∉ sql → length (sql_params sql) = length values →
  call_binds (MkCall (toDialectParams sql dialect) values).
Proof.
  intros H1 H2. unfold call_binds, toDialectParams. cbn [call_sql call_values].
  rewrite replace_params_marks by done. split; [done|].
  apply replace_params_no_params.
Qed.

Lemma numbered_length n : length (numbered n) = n.
Proof. unfold numbered. by rewrite length_fmap, length_seq. Qed.

Lemma select_by_id_binds d dialect v :
  domain_ids d → call_binds (MkCall (toDialectParams (select_by_id d) dialect) [v]).
Proof.
  intros Hd. apply dialect_call_binds; unfold select_by_id.
  - rewrite not_elem_of_app. split; [|js_decide].
    apply select_all_no_unit; [done|done|js_decide].
  - rewrite sql_params_app; [done|]. apply select_all_no_unit; [done|done|js_decide].
Qed.

(** ** What the resolvers ask for, by shape of program *)

(** Every call a program can make satisfies [P]. *)
Inductive all_calls {A} (P : DbCall → Prop) : prog A → Prop :=
| calls_ret a : all_calls P (Ret a)
| calls_raise msg : all_calls P (Raise msg)
| calls_query sql values k :
  P (MkCall sql values) → (∀ rows, all_calls P (k rows)) → all_calls P (Query sql values k).

Lemma all_calls_run {S A} (P : DbCall → Prop) (h : db_handler S) s (p : prog A) :
  all_calls P p → Forall P (run h s p).1.1.
Proof.
  intros Hp. revert s. induction Hp as [a|msg|sql values k HP _ IH]; intros s; simpl; [done..|].
  destruct (h s (MkCall sql values)) as [s' [rows|msg]]; [|by repeat constructor].
  specialize (IH rows s'). destruct (run h s' (k rows)) as [[calls s''] r]. by constructor.
Qed.

(** * Theorems *)

(** ** Every statement binds its values *)

Inductive resolver_kind := QueryR | UpdateR | InsertR | DeleteR.

Definition resolver (k : resolver_kind) : DomainDef → DbDialect → jsobj → prog jsval :=
  match k with
  | QueryR => makeQueryResolver
  | UpdateR => makeUpdateResolver
  | InsertR => makeInsertResolver
  | DeleteR => makeDeleteResolver
  end.

(** The mutating resolvers as one scheme: what they run with and without
    RETURNING. *)
Lemma update_resolver_eq d dialect args :
  returning_free d →
  makeUpdateResolver d dialect args =
  if is_undef (obj_get #"id" args) || bool_decide (set_columns d args = []) then
    Raise #"update requires id and at least one settable field"
  else
    let values := (set_columns d args).*2 ++ [obj_get #"id" args] in
    if dialectSupportsReturning dialect then
      Query (toDialectParams (update_sql d (set_columns d args) ++ #" RETURNING " ++
                              selectColumnList d) dialect) values (λ rows, Ret (first_row rows))
    else
      Query (toDialectParams (update_sql d (set_columns d args)) dialect) values (λ _,
        Query (toDialectParams (select_by_id d) dialect) [obj_get #"id" args] (λ rows,
          Ret (first_row rows))).
Proof.
  intros Hd. unfold makeUpdateResolver. rewrite buildUpdate_spec. cbv zeta.
  destruct (is_undef _); [done|]. cbn [orb].
  destruct (decide (set_columns d args = [])) as [Hn|Hn].
  - by rewrite bool_decide_eq_true_2.
  - rewrite bool_decide_eq_false_2 by done. cbn [cmd_sql cmd_values idValue].
    by rewrite strip_update.
Qed.

Lemma insert_resolver_eq d dialect args :
  returning_free d →
  makeInsertResolver d dialect args =
  if bool_decide (set_columns d args = []) then
    Raise #"insert requires at least one settable field"
  else
    let values := (set_columns d args).*2 in
    if dialectSupportsReturning dialect then
      Query (toDialectParams (insert_sql d (set_columns d args) ++ #" RETURNING " ++
                              selectColumnList d) dialect) values (λ rows, Ret (first_row rows))
    else
      Query (toDialectParams (insert_sql d (set_columns d args)) dialect) values (λ result,
        if is_undef (insert_id result) then Raise #"insert did not return an id" else
        Query (toDialectParams (select_by_id d) dialect) [insert_id result] (λ rows,
          Ret (first_row rows))).
Proof.
  intros Hd. unfold makeInsertResolver. rewrite buildInsert_spec.
  destruct (decide (set_columns d args = [])) as [Hn|Hn].
  - by rewrite bool_decide_eq_true_2.
  - rewrite bool_decide_eq_false_2 by done. cbn [cmd_sql cmd_values].
    by rewrite strip_insert.
Qed.

Lemma delete_resolver_eq d dialect args :
  returning_free d →
  makeDeleteResolver d dialect args =
  if is_undef (obj_get #"id" args) then Raise #"delete requires id"
  else
    let text := #"DELETE FROM " ++ domain_source d ++ #" WHERE id = $1" in
    if dialectSupportsReturning dialect then
      Query (toDialectParams (text ++ #" RETURNING id") dialect) [obj_get #"id" args]
        (λ rows, Ret (first_row rows))
    else
      Query (toDialectParams text dialect) [obj_get #"id" args]
        (λ _, Ret (VObj [(#"id", obj_get #"id" args)])).
Proof.
  intros Hd. unfold makeDeleteResolver, buildDelete. cbv zeta.
  destruct (is_undef _); [done|]. cbn [cmd_sql cmd_values idValue].
  rewrite strip_delete by done. destruct (dialectSupportsReturning dialect); [|done].
  replace ((#"DELETE FROM " ++ domain_source d ++ #" WHERE id = $1") ++ #" RETURNING id")
    with (#"DELETE FROM " ++ domain_source d ++ #" WHERE id = $1 RETURNING id") by text_assoc.
  done.
Qed.

Lemma with_clause_binds d t (values : list jsval) dialect :
  domain_ids d → 63%N ∉ t →
  length (sql_params (t ++ #" RETURNING " ++ selectColumnList d)) = length values →
  call_binds (MkCall (toDialectParams (t ++ #" RETURNING " ++ selectColumnList d) dialect) values).
Proof.
  intros Hd Ht Hl. apply dialect_call_binds; [|done].
  rewrite !not_elem_of_app. split_and!; [done|js_decide|].
  apply selectColumnList_unit; [done|done|js_decide].
Qed.

Lemma clause_no_dollar d : domain_ids d → 36%N ∉ #" RETURNING " ++ selectColumnList d.
Proof.
  intros Hd. rewrite not_elem_of_app. split; [js_decide|].
  apply selectColumnList_unit; [done|done|js_decide].
Qed.

Lemma resolver_calls_bind_all k d dialect args :
  returning_free d → all_calls call_binds (resolver k d dialect args).
Proof.
  intros Hr. pose proof (proj1 Hr) as Hd. destruct k; cbn [resolver].
  - apply calls_query; [|by constructor]. apply dialect_call_binds.
    + rewrite not_elem_of_app. split; [|by apply where_sql_no_mark].
      apply select_all_no_unit; [done|done|js_decide].
    + rewrite sql_params_app by (apply select_all_no_unit; [done|done|js_decide]).
      rewrite <- (app_nil_r (where_sql _)), where_sql_params by (done || set_solver).
      apply numbered_length.
  - rewrite update_resolver_eq by done. destruct (_ || _) eqn:E; [by constructor|].
    apply orb_false_iff in E as [_ E%bool_decide_eq_false].
    assert (Hlen : length ((set_columns d args).*2 ++ [obj_get #"id" args]) =
                   S (length (set_columns d args)))
      by (rewrite length_app, length_fmap; simpl; lia).
    destruct (dialectSupportsReturning dialect).
    + apply calls_query; [|by constructor]. apply with_clause_binds; [done|by apply update_sql_no_mark|].
      rewrite update_sql_params, numbered_length; [done|done|done|done|by apply clause_no_dollar].
    + apply calls_query; [|intros; apply calls_query; [by apply select_by_id_binds|by constructor]].
      apply dialect_call_binds; [by apply update_sql_no_mark|].
      rewrite <- (app_nil_r (update_sql _ _)).
      rewrite update_sql_params, numbered_length; [done|done|done|done|set_solver].
  - rewrite insert_resolver_eq by done. case_bool_decide as E; [by constructor|].
    destruct (dialectSupportsReturning dialect).
    + apply calls_query; [|by constructor]. apply with_clause_binds; [done|by apply insert_sql_no_mark|].
      rewrite insert_sql_params, numbered_length, length_fmap;
        [done|done|done|by apply clause_no_dollar].
    + apply calls_query; [|intros rows; destruct (is_undef _);
        [by constructor|apply calls_query; [by apply select_by_id_binds|by constructor]]].
      apply dialect_call_binds; [by apply insert_sql_no_mark|].
      rewrite <- (app_nil_r (insert_sql _ _)).
      rewrite insert_sql_params, numbered_length, length_fmap; [done|done|done|set_solver].
  - rewrite delete_resolver_eq by done. destruct (is_undef _); [by constructor|].
    assert (Hparams : ∀ t, 36%N ∉ t → no_digit_head t →
      sql_params ((#"DELETE FROM " ++ domain_source d ++ #" WHERE id = $1") ++ t) = [1%N]).
    { intros t Ht Hh. rewrite <- !app_assoc. rewrite (sql_params_app #"DELETE FROM ") by js_decide.
      rewrite sql_params_app by (by apply source_unit).
      change (#" WHERE id = $1") with (#" WHERE id = " ++ placeholder 1).
      rewrite <- app_assoc, (sql_params_app #" WHERE id = ") by js_decide.
      by rewrite sql_params_placeholder, sql_params_nil. }
    assert (Hmark : 63%N ∉ #"DELETE FROM " ++ domain_source d ++ #" WHERE id = $1").
    { rewrite !not_elem_of_app. split_and!; [js_decide|by apply source_unit|js_decide]. }
    destruct (dialectSupportsReturning dialect); (apply calls_query; [|by constructor]);
      (apply dialect_call_binds).
    + rewrite not_elem_of_app. split; [done|js_decide].
    + by rewrite Hparams by (done || js_decide).
    + done.
    + rewrite <- (app_nil_r (_ ++ _ ++ _)). by rewrite Hparams by (done || set_solver).
Qed.

(** ** Statement texts and the values of the arguments *)

(** The texts a program sends are, in order, a prefix of [plan]. *)
Inductive texts_within {A} : list str → prog A → Prop :=
| within_ret plan a : texts_within plan (Ret a)
| within_raise plan msg : texts_within plan (Raise msg)
| within_query sql plan values k :
  (∀ rows, texts_within plan (k rows)) → texts_within (sql :: plan) (Query sql values k).

Lemma texts_within_run {S A} (h : db_handler S) s plan (p : prog A) :
  texts_within plan p → (call_sql <$> (run h s p).1.1) `prefix_of` plan.
Proof.
  intros Hp. revert s. induction Hp as [plan a|plan msg|sql plan values k _ IH]; intros s; simpl.
  - apply prefix_nil.
  - apply prefix_nil.
  - destruct (h s (MkCall sql values)) as [s' [rows|msg]].
    + specialize (IH rows s'). destruct (run h s' (k rows)) as [[calls s''] r].
      by apply prefix_cons.
    + simpl. apply prefix_cons, prefix_nil.
Qed.

(** The texts each resolver may send, from the domain, the dialect and the
    names of the arguments. *)
Definition resolver_plan (k : resolver_kind) (d : DomainDef) (dialect : DbDialect) (args : jsobj)
    : list str :=
  let dp sql := toDialectParams sql dialect in
  let clause t ret :=
    if dialectSupportsReturning dialect then [dp (t ++ #" RETURNING " ++ ret)]
    else [dp t; dp (select_by_id d)] in
  match k with
  | QueryR => [dp (select_all d ++ where_sql (buildWhereClause d args))]
  | UpdateR => clause (update_sql d (set_columns d args)) (selectColumnList d)
  | InsertR => clause (insert_sql d (set_columns d args)) (selectColumnList d)
  | DeleteR => clause (#"DELETE FROM " ++ domain_source d ++ #" WHERE id = $1") #"id"
  end.

Lemma resolver_within_plan k d dialect args :
  returning_free d → texts_within (resolver_plan k d dialect args) (resolver k d dialect args).
Proof.
  intros Hd. destruct k; unfold resolver_plan; cbn [resolver].
  - apply within_query. intros. apply within_ret.
  - rewrite update_resolver_eq by done. destruct (_ || _); [apply within_raise|].
    destruct (dialectSupportsReturning dialect); apply within_query; intros; [apply within_ret|].
    apply within_query. intros. apply within_ret.
  - rewrite insert_resolver_eq by done. destruct (bool_decide _); [apply within_raise|].
    destruct (dialectSupportsReturning dialect); apply within_query; intros; [apply within_ret|].
    destruct (is_undef _); [apply within_raise|]. apply within_query. intros. apply within_ret.
  - rewrite delete_resolver_eq by done. destruct (is_undef _); [apply within_raise|].
    destruct (dialectSupportsReturning dialect).
    + change (#" RETURNING id") with (#" RETURNING " ++ #"id"). apply within_query.
      intros. apply within_ret.
    + apply within_query. intros. apply within_ret.
Qed.

Lemma set_columns_shape d args args' :
  arg_shape <$> args = arg_shape <$> args' →
  (set_columns d args).*1 = (set_columns d args').*1.
Proof.
  unfold set_columns. revert args'.
  induction args as [|[n v] args IH]; intros [|[n' v'] args']; try done.
  cbn [fmap list_fmap]. unfold arg_shape at 1 3. cbn [fst snd]. intros [= -> Hu Hn Hs].
  specialize (IH _ Hs). destruct (decide (settable_entry d (n', v))) as [H|H].
  - rewrite !filter_cons_True; [cbn; by f_equal| |done].
    unfold settable_entry in *. cbn [fst snd] in *. by rewrite <- Hu.
  - rewrite !filter_cons_False; [done| |done].
    unfold settable_entry in *. cbn [fst snd] in *. by rewrite <- Hu.
Qed.

Lemma set_clauses_keys k (cols cols' : jsobj) :
  cols.*1 = cols'.*1 → set_clauses k cols = set_clauses k cols'.
Proof.
  intros H. unfold set_clauses. f_equal.
  assert (E : ∀ l : jsobj, (λ e, e.1 ++ #" = ") <$> l = (λ n, n ++ #" = ") <$> l.*1)
    by (intros l; by rewrite <- list_fmap_compose).
  by rewrite !E, H.
Qed.

Lemma resolver_plan_shape k d dialect args args' :
  arg_shape <$> args = arg_shape <$> args' →
  resolver_plan k d dialect args = resolver_plan k d dialect args'.
Proof.
  intros Hs. unfold resolver_plan.
  pose proof (set_columns_shape d _ _ Hs) as Hc.
  assert (Hl : length (set_columns d args) = length (set_columns d args')).
  { by rewrite <- (length_fmap fst), Hc, length_fmap. }
  destruct k; [by rewrite (where_sql_shape _ _ _ Hs)|..|done].
  - unfold update_sql. by rewrite (set_clauses_keys _ _ _ Hc), Hl.
  - unfold insert_sql. by rewrite Hc, Hl.
Qed.

(** ** Properties *)

(** C1: whatever the database answers and in every dialect, each statement a
    resolver sends has exactly as many [?] markers as the call binds values,
    and no numbered placeholder is left for the driver to misread. *)
Theorem resolver_calls_bind {S} k d dialect args (h : db_handler S) s :
  returning_free d → Forall call_binds (run h s (resolver k d dialect args)).1.1.
Proof. intros Hd. by apply all_calls_run, resolver_calls_bind_all. Qed.

(** C2: two requests whose arguments have the same names, and agree on which
    are null, send statements with the same texts for as long as both run:
    the values a client supplies reach the database only as bound values,
    never in the text, whatever the two databases answer. *)
Theorem resolver_text_noninterference {S S'} k d dialect args args'
    (h : db_handler S) (h' : db_handler S') s s' :
  returning_free d → arg_shape <$> args = arg_shape <$> args' →
  let texts := call_sql <$> (run h s (resolver k d dialect args)).1.1 in
  let texts' := call_sql <$> (run h' s' (resolver k d dialect args')).1.1 in
  texts `prefix_of` texts' ∨ texts' `prefix_of` texts.
Proof.
  intros Hd Hs. cbv zeta.
  pose proof (texts_within_run h s _ _ (resolver_within_plan k d dialect args Hd)) as H1.
  pose proof (texts_within_run h' s' _ _ (resolver_within_plan k d dialect args' Hd)) as H2.
  rewrite (resolver_plan_shape _ _ _ _ _ Hs) in H1. by eapply prefix_weak_total.
Qed.

(** on a dialect without RETURNING a mutation runs the statement with the
    clause cut off (and nothing else), then reads the row back by id with a
    second statement; the id is the one the caller gave, or the one the insert
    reported.  A missing id or an empty column list is rejected before any
    statement is sent. *)
Theorem mutations_without_returning d dialect args :
  returning_free d → dialectSupportsReturning dialect = false →
  let cols := set_columns d args in
  let id := obj_get #"id" args in
  let send t values k := Query (toDialectParams t dialect) values k in
  let read_back v := send (select_by_id d) [v] (λ rows, Ret (first_row rows)) in
  makeUpdateResolver d dialect args =
    (if is_undef id || bool_decide (cols = [])
     then Raise #"update requires id and at least one settable field"
     else send (update_sql d cols) (cols.*2 ++ [id]) (λ _, read_back id)) ∧
  makeInsertResolver d dialect args =
    (if bool_decide (cols = [])
     then Raise #"insert requires at least one settable field"
     else send (insert_sql d cols) cols.*2 (λ result,
       if is_undef (insert_id result) then Raise #"insert did not return an id"
       else read_back (insert_id result))) ∧
  makeDeleteResolver d dialect args =
    (if is_undef id then Raise #"delete requires id"
     else send (#"DELETE FROM " ++ domain_source d ++ #" WHERE id = $1") [id]
            (λ _, Ret (VObj [(#"id", id)]))).
Proof.
  intros Hd Hdial. cbv zeta.
  rewrite update_resolver_eq, insert_resolver_eq, delete_resolver_eq by done.
  by rewrite Hdial.
Qed.

(** an argument that names no writable field (an unknown name, or a field
    the domain declares read-only) changes nothing an update or an insert
    does, wherever it stands among the arguments. *)
Theorem readonly_arguments_ignored d dialect args1 args2 name v :
  name ≠ #"id" → (∀ f, f ∈ fields d → field_name f = name → readOnly f = true) →
  makeUpdateResolver d dialect (args1 ++ (name, v) :: args2) =
    makeUpdateResolver d dialect (args1 ++ args2) ∧
  makeInsertResolver d dialect (args1 ++ (name, v) :: args2) =
    makeInsertResolver d dialect (args1 ++ args2).
Proof.
  intros Hid Hro.
  assert (Hcols : set_columns d (args1 ++ (name, v) :: args2) = set_columns d (args1 ++ args2)).
  { unfold set_columns. rewrite !filter_app, filter_cons_False; [done|].
    intros [(f & Hf & [Hset _] & Hn)%elem_of_settable _]. specialize (Hro f Hf Hn). congruence. }
  assert (Hget : obj_get #"id" (args1 ++ (name, v) :: args2) = obj_get #"id" (args1 ++ args2)).
  { unfold obj_get. rewrite !assoc_get_app. cbn [assoc_get]. by rewrite decide_False. }
  unfold makeUpdateResolver, makeInsertResolver.
  by rewrite !buildUpdate_spec, !buildInsert_spec, Hcols, Hget.
Qed.

(** ** Witnesses *)

Lemma sample_person_returning_free : returning_free sample_person.
Proof.
  split_and!; [exact sample_person_ids|js_decide| |done].
  decide_closed.
Qed.

(** A database that counts its calls and answers each with one row. *)
Definition counting_db : db_handler nat :=
  λ s _, (S s, Ok [[(#"id", VNum (num_of_Z 7)); (#"insertId", VNum (num_of_Z 7))]]).

Definition sample_update : jsobj :=
  [ (#"id", VNum (num_of_Z 7)); (#"firstname", VStr #"Anna"); (#"created_at", VStr #"now");
    (#"age", VNum (num_of_Z 30)) ].

Example sample_update_calls :
  (run counting_db 0 (makeUpdateResolver sample_person Mysql sample_update)).1.1 =
  [ MkCall #"UPDATE person SET firstname = ?, age = ? WHERE id = ?"
      [VStr #"Anna"; VNum (num_of_Z 30); VNum (num_of_Z 7)];
    MkCall #"SELECT id, firstname, age, net_worth, created_at FROM person WHERE id = ?"
      [VNum (num_of_Z 7)] ].
Proof. vm_compute. reflexivity. Qed.

Lemma resolver_calls_bind_witness :
  Forall call_binds (run counting_db 0 (resolver UpdateR sample_person Mysql sample_update)).1.1.
Proof. apply (resolver_calls_bind UpdateR), sample_person_returning_free. Defined.

Definition hostile_update : jsobj :=
  [ (#"id", VNum (num_of_Z 7)); (#"firstname", VStr #"x'; DROP TABLE person; --");
    (#"created_at", VStr #"$1 ?"); (#"age", VNum NaN) ].

Lemma resolver_text_noninterference_witness :
  let texts := call_sql <$>
    (run counting_db 0 (resolver InsertR sample_person Oracle sample_update)).1.1 in
  let texts' := call_sql <$>
    (run counting_db 5 (resolver InsertR sample_person Oracle hostile_update)).1.1 in
  texts `prefix_of` texts' ∨ texts' `prefix_of` texts.
Proof.
  apply (resolver_text_noninterference InsertR sample_person Oracle sample_update hostile_update);
    [apply sample_person_returning_free|reflexivity].
Defined.

Lemma mutations_without_returning_witness :
  makeDeleteResolver sample_person Sqlite3 sample_update =
  Query #"DELETE FROM person WHERE id = ?" [VNum (num_of_Z 7)]
    (λ _, Ret (VObj [(#"id", VNum (num_of_Z 7))])).
Proof.
  pose proof (mutations_without_returning sample_person Sqlite3 sample_update
    sample_person_returning_free eq_refl) as (_ & _ & H). exact H.
Defined.

Lemma readonly_arguments_ignored_witness :
  makeUpdateResolver sample_person Postgres
    ([(#"id", VNum (num_of_Z 7))] ++ (#"created_at", VStr #"now") :: [(#"age", VNull)]) =
  makeUpdateResolver sample_person Postgres
    ([(#"id", VNum (num_of_Z 7))] ++ [(#"age", VNull)]).
Proof.
  apply readonly_arguments_ignored; [js_decide|].
  refine (proj1 (Forall_forall
    (λ f, field_name f = #"created_at" → readOnly f = true) _) _).
  repeat constructor; intros Hn; try discriminate Hn; reflexivity.
Defined.
