(* ===== verification/GqlSchema.v ===== *)
(** The GraphQL schema a set of domains exposes:
    [packages/oos-gql-ts/src/{naming,types-mapping,permissions}.ts] and
    [schema/{object-type,filter-args,mutation-args,build}.ts].

    The [graphql] package's type constructors are kept as data: a schema is
    the configuration the builder hands to [new GraphQLSchema]. *)

From S2P Require Export Operators Resolvers.

#[local] Set Warnings "-register-all".

(** * Definitions *)

(** ** [naming.ts] *)

Definition domainQueryName (domainName : str) : str := domainName.

(** [(part ? part[0].toUpperCase() + part.slice(1) : part)] *)
Definition capitalise (part : str) : str :=
  match part with [] => [] | c :: rest => to_upper1 c ++ rest end.

Definition domainTypeName (domainName : str) : str :=
  if decide (domainName = []) then domainName
  else join [] (capitalise <$> split_on 95%N domainName).

Inductive MutationVerb := VUpdate | VInsert | VDelete.

Definition verb_name (v : MutationVerb) : str :=
  match v with VUpdate => #"update" | VInsert => #"insert" | VDelete => #"delete" end.

Definition mutationFieldName (verb : MutationVerb) (domainName : str) : str :=
  verb_name verb ++ #"_" ++ domainName.

Definition metaQueryName (metaName : str) : str := #"meta_" ++ metaName.
Definition metaTypeName (metaName : str) : str := #"MetaOption_" ++ metaName.

(** ** [types-mapping.ts] *)

Inductive Scalar := GraphQLInt | GraphQLFloat | GraphQLString | GraphQLBoolean.

Definition gqlScalarFor (t : FieldTypeDef) : Scalar :=
  match t with
  | TInt => GraphQLInt
  | TFloat => GraphQLFloat
  | TBool => GraphQLBoolean
  | TString | TText | TDate | TDatetime => GraphQLString
  end.

(** ** [permissions.ts] *)

Fixpoint allowed_in (ps : list PermissionDef) (r : str) (action : PermissionActionDef) : bool :=
  match ps with
  | [] => false
  | p :: ps =>
    if decide (role p ≠ r) then allowed_in ps r action
    else bool_decide (action ∈ actions p)
  end.

Definition isActionAllowed (domain : DomainDef) (r : str) (action : PermissionActionDef) : bool :=
  allowed_in (permissions domain) r action.

Definition assertActionAllowed (domain : DomainDef) (r : str) (action : PermissionActionDef)
    : outcome unit :=
  if negb (isActionAllowed domain r action) then
    Throw (#"role " ++ quoted r ++ #" not allowed to " ++ action_name action ++ #" " ++
           domain_name domain)
  else Ok tt.

(** ** Types and arguments *)

Record ObjectType := MkObjectType { object_name : str; object_fields : list (str * Scalar) }.

Inductive InputType := InScalar (s : Scalar) | InNonNull (s : Scalar).
Inductive OutputType := OutObject (o : ObjectType) | OutList (o : ObjectType).

Abbreviation ArgumentMap := (list (str * InputType)).

(** [buildDomainObjectType] *)
Definition buildDomainObjectType (domain : DomainDef) : ObjectType :=
  MkObjectType (domainTypeName (domain_name domain))
    (foldl (λ m f, obj_set (field_name f) (gqlScalarFor (field_type f)) m) [] (fields domain)).

(** [buildMetaObjectType] *)
Definition buildMetaObjectType (meta : MetaDef) : ObjectType :=
  MkObjectType (metaTypeName (meta_name meta))
    [(#"value", GraphQLString); (#"label", GraphQLString)].

(** [appendFieldArgs] *)
Definition appendFieldArgs (args : ArgumentMap) (f : DomainFieldDef) : ArgumentMap :=
  let scalar := InScalar (gqlScalarFor (field_type f)) in
  foldl (λ args op, obj_set (field_name f ++ op_suffix op) scalar args)
        (obj_set (field_name f) scalar args)
        (operatorsForType (field_type f)).

(** [buildQueryArgs] *)
Definition buildQueryArgs (domain : DomainDef) : ArgumentMap :=
  foldl (λ args f, if negb (filterable f) then args else appendFieldArgs args f)
        [(#"id", InScalar GraphQLInt)] (fields domain).

(** The loop [buildMutationArgs] and [buildInsertArgs] share. *)
Definition settable_args (init : ArgumentMap) (domain : DomainDef) : ArgumentMap :=
  foldl (λ args f,
    if readOnly f then args
    else if decide (field_name f = #"id") then args
    else obj_set (field_name f) (InScalar (gqlScalarFor (field_type f))) args)
    init (fields domain).

Definition buildMutationArgs (domain : DomainDef) : ArgumentMap :=
  settable_args [(#"id", InNonNull GraphQLInt)] domain.

Definition buildInsertArgs (domain : DomainDef) : ArgumentMap := settable_args [] domain.

Definition buildDeleteArgs : ArgumentMap := [(#"id", InNonNull GraphQLInt)].

(** ** [schema/build.ts] *)

Record FieldConfig := MkFieldConfig {
  cfg_type : OutputType;
  cfg_args : ArgumentMap;
  cfg_resolve : jsobj → prog jsval
}.

Abbreviation FieldConfigMap := (list (str * FieldConfig)).

Definition addDomainQuery (flds : FieldConfigMap) (domain : DomainDef) (objType : ObjectType)
    (dialect : DbDialect) : FieldConfigMap :=
  obj_set (domainQueryName (domain_name domain))
    (MkFieldConfig (OutList objType) (buildQueryArgs domain) (makeQueryResolver domain dialect))
    flds.

Definition addDomainMutations (flds : FieldConfigMap) (domain : DomainDef) (objType : ObjectType)
    (dialect : DbDialect) : FieldConfigMap :=
  let name := domain_name domain in
  let flds := obj_set (mutationFieldName VUpdate name)
    (MkFieldConfig (OutObject objType) (buildMutationArgs domain)
                   (makeUpdateResolver domain dialect)) flds in
  let flds := obj_set (mutationFieldName VInsert name)
    (MkFieldConfig (OutObject objType) (buildInsertArgs domain)
                   (makeInsertResolver domain dialect)) flds in
  obj_set (mutationFieldName VDelete name)
    (MkFieldConfig (OutObject objType) buildDeleteArgs
                   (makeDeleteResolver domain dialect)) flds.

Definition addMetaQueries (flds : FieldConfigMap) (ms : list MetaDef) : FieldConfigMap :=
  foldl (λ flds meta,
    obj_set (metaQueryName (meta_name meta))
      (MkFieldConfig (OutList (buildMetaObjectType meta)) [] (λ _, makeMetaResolver meta)) flds)
    flds ms.

(** The query fields and the mutation fields of the schema; [None] for a
    missing root type. *)
Record SchemaConfig := MkSchema {
  schema_query : option FieldConfigMap;
  schema_mutation : option FieldConfigMap
}.

Definition add_domain (dialect : DbDialect) (acc : FieldConfigMap * FieldConfigMap)
    (domain : DomainDef) : FieldConfigMap * FieldConfigMap :=
  let '(queryFields, mutationFields) := acc in
  let objType := buildDomainObjectType domain in
  let queryFields := addDomainQuery queryFields domain objType dialect in
  let mutationFields := addDomainMutations mutationFields domain objType dialect in
  (addMetaQueries queryFields (metas domain), mutationFields).

(** [buildSchema] *)
Definition buildSchema (domains : list DomainDef) (dialect : DbDialect) : SchemaConfig :=
  let '(queryFields, mutationFields) := foldl (add_domain dialect) ([], []) domains in
  match queryFields with
  | [] => MkSchema None None
  | _ =>
    MkSchema (Some queryFields)
      (match mutationFields with [] => None | _ => Some mutationFields end)
  end.

(** * Lemmas *)

(** ** The arguments of a query *)

(** The names [appendFieldArgs] adds for a field. *)
Definition field_arg_names (f : DomainFieldDef) : list str :=
  field_name f :: ((λ op, field_name f ++ op_suffix op) <$> operatorsForType (field_type f)).

Lemma appendFieldArgs_loop args f :
  appendFieldArgs args f =
  set_loop id (λ _, InScalar (gqlScalarFor (field_type f))) args (field_arg_names f).
Proof.
  unfold appendFieldArgs, set_loop, field_arg_names. cbn [foldl id].
  generalize (obj_set (field_name f) (InScalar (gqlScalarFor (field_type f))) args).
  induction (operatorsForType (field_type f)) as [|op ops IH]; intros m; [done|].
  cbn [fmap list_fmap foldl id]. apply IH.
Qed.

Lemma appendFieldArgs_Some args f k t :
  assoc_get k (appendFieldArgs args f) = Some t →
  (k ∈ field_arg_names f ∧ t = InScalar (gqlScalarFor (field_type f))) ∨
  assoc_get k args = Some t.
Proof.
  rewrite appendFieldArgs_loop. intros [(x & Hx & <- & <-)|?]%set_loop_Some; [by left|by right].
Qed.

Lemma appendFieldArgs_in args f k :
  k ∈ field_arg_names f →
  assoc_get k (appendFieldArgs args f) = Some (InScalar (gqlScalarFor (field_type f))).
Proof. intros Hk. rewrite appendFieldArgs_loop. 
  by apply (set_loop_get id (λ _, InScalar (gqlScalarFor (field_type f))) k).
Qed.

Lemma appendFieldArgs_out args f k :
  k ∉ field_arg_names f → assoc_get k (appendFieldArgs args f) = assoc_get k args.
Proof. intros Hk. rewrite appendFieldArgs_loop. apply set_loop_other. by rewrite list_fmap_id. Qed.

Lemma buildQueryArgs_Some d k t :
  assoc_get k (buildQueryArgs d) = Some t →
  k = #"id" ∧ t = InScalar GraphQLInt ∨
  ∃ f, f ∈ fields d ∧ filterable f = true ∧ k ∈ field_arg_names f ∧
       t = InScalar (gqlScalarFor (field_type f)).
Proof.
  unfold buildQueryArgs. remember [(#"id", InScalar GraphQLInt)] as m eqn:Hm.
  assert (Hinit : assoc_get k m = Some t → k = #"id" ∧ t = InScalar GraphQLInt).
  { subst m. cbn [assoc_get]. case_decide; [|done]. by intros [= <-]. }
  clear Hm. revert m Hinit.
  assert (Hgen : ∀ (fs : list DomainFieldDef) m,
    assoc_get k (foldl (λ args f, if negb (filterable f) then args else appendFieldArgs args f)
                  m fs) = Some t →
    assoc_get k m = Some t ∨
    ∃ f, f ∈ fs ∧ filterable f = true ∧ k ∈ field_arg_names f ∧
         t = InScalar (gqlScalarFor (field_type f))).
  { induction fs as [|f fs IH]; intros m; cbn [foldl]; [by left|].
    intros [H|(g & ? & ?)]%IH; [|right; exists g; by split; [right|]].
    destruct (filterable f) eqn:Hf; cbn [negb] in H; [|by left].
    apply appendFieldArgs_Some in H as [[? ?]|?]; [|by left].
    right. exists f. split_and!; [by left|done..]. }
  intros m Hinit [H|H]%Hgen; [left; by apply Hinit|by right].
Qed.

Lemma buildQueryArgs_is_Some d f k :
  f ∈ fields d → filterable f = true → k ∈ field_arg_names f →
  is_Some (assoc_get k (buildQueryArgs d)).
Proof.
  unfold buildQueryArgs. generalize [(#"id", InScalar GraphQLInt)].
  assert (Hkeep : ∀ (fs : list DomainFieldDef) (m : ArgumentMap),
    is_Some (assoc_get k m) →
    is_Some (assoc_get k (foldl (λ args f, if negb (filterable f) then args
                                           else appendFieldArgs args f) m fs))).
  { induction fs as [|g fs IH]; intros m Hm; [done|]. cbn [foldl]. apply IH.
    destruct (negb (filterable g)); [done|].
    destruct (decide (k ∈ field_arg_names g)).
    - by rewrite appendFieldArgs_in.
    - by rewrite appendFieldArgs_out. }
  induction (fields d) as [|g fs IH]; intros m Hin Hf Hk; [by apply elem_of_nil in Hin|].
  cbn [foldl]. apply elem_of_cons in Hin as [<-|Hin].
  - apply Hkeep. rewrite Hf. cbn [negb]. by rewrite appendFieldArgs_in.
  - by apply IH.
Qed.

(** The SQL comparison an operator of the catalogue is taught to mean. *)
Definition sql_op_of (op : ExampleOpDef) : option SqlOp :=
  match op with
  | OpEq => Some SqlEq | OpNe => Some SqlNe | OpLt => Some SqlLt | OpLe => Some SqlLte
  | OpGt => Some SqlGt | OpGe => Some SqlGte | OpLike => Some SqlContains | OpIn => None
  end.

(** Every operator of the catalogue is in the decoder's table, with its own
    meaning. *)
Lemma operators_decodable t op :
  op ∈ operatorsForType t →
  ∃ sop, sql_op_of (op_name op) = Some sop ∧ (op_suffix op, sop) ∈ SUFFIXES.
Proof.
  assert (H : Forall (λ op, match sql_op_of (op_name op) with
                            | Some sop => bool_decide ((op_suffix op, sop) ∈ SUFFIXES)
                            | None => false end = true) (operatorsForType t)).
  { destruct t; decide_closed. }
  rewrite Forall_forall in H. intros Hop%H. destruct (sql_op_of _); [|done].
  apply bool_decide_eq_true in Hop. eauto.
Qed.

(** No field is named like another field with an operator suffix. *)
Definition suffix_free (d : DomainDef) : Prop :=
  ∀ f s op, f ∈ fields d → (s, op) ∈ SUFFIXES → field_name f ++ s ∉ field_name <$> fields d.

Lemma where_single d name v f op :
  name ≠ #"id" → is_nullish v = false → decodeFilterArg name (fieldByName d) = Some (f, op) →
  buildWhereClause d [(name, v)] =
  MkWhere (#" WHERE " ++ field_name f ++ op_text op ++ #"$1") [op_value op v].
Proof.
  intros Hid Hv Hdec. rewrite buildWhereClause_terms. unfold where_terms.
  assert (Hu : is_undef (obj_get #"id" [(name, v)]) = true).
  { unfold obj_get. cbn [assoc_get]. by rewrite decide_False. }
  rewrite Hu. cbn [app omap list_omap]. unfold where_term. cbn [fst snd].
  rewrite Hv, decide_False, Hdec by done. cbn [mbind option_bind].
  unfold render_where, number_terms. cbn [fmap list_fmap imap join fst snd].
  change (placeholder (1 + 0)) with #"$1". by rewrite <- app_assoc.
Qed.

Lemma settable_args_keys init d k :
  k ∈ (settable_args init d).*1 ↔ k ∈ init.*1 ∨ k ∈ settableFieldNames d.
Proof.
  unfold settable_args. rewrite elem_of_settable. revert init.
  induction (fields d) as [|f fs IH]; intros init; cbn [foldl].
  - split; [by left|]. intros [?|(f & Hf & _)]; [done|by apply elem_of_nil in Hf].
  - rewrite IH, exists_elem_cons. unfold settable_field at 2.
    destruct (readOnly f) eqn:Hr; [naive_solver|].
    case_decide as Hid; [naive_solver|].
    rewrite <- !assoc_get_is_Some, obj_set_get. case_decide; naive_solver.
Qed.

(** * Theorems *)

(** C3: the read arguments of the schema and the WHERE builder agree.  For
    every filterable field and every operator the catalogue lists for its
    type, the schema accepts the suffixed argument with the field's scalar,
    and supplying it alone filters by exactly that comparison on that column;
    the bare name means equality. *)
Theorem filter_arguments_mean_their_operator d f v :
  NoDup (field_name <$> fields d) → suffix_free d → f ∈ fields d → filterable f = true →
  is_nullish v = false →
  (∀ op, op ∈ operatorsForType (field_type f) →
    field_name f ++ op_suffix op ≠ #"id" →
    is_Some (assoc_get (field_name f ++ op_suffix op) (buildQueryArgs d)) ∧
    ∃ sop, sql_op_of (op_name op) = Some sop ∧
      buildWhereClause d [(field_name f ++ op_suffix op, v)] =
      MkWhere (#" WHERE " ++ field_name f ++ op_text sop ++ #"$1") [op_value sop v]) ∧
  is_Some (assoc_get (field_name f) (buildQueryArgs d)) ∧
  (field_name f ≠ #"id" →
   buildWhereClause d [(field_name f, v)] =
   MkWhere (#" WHERE " ++ field_name f ++ #" = $1") [v]).
Proof.
  intros Hnd Hsf Hf Hfil Hv. split_and!.
  - intros op Hop Hid. split.
    { eapply buildQueryArgs_is_Some; [done..|]. right. apply list_elem_of_fmap. eauto. }
    destruct (operators_decodable _ _ Hop) as (sop & Hs & Hin). exists sop. split; [done|].
    apply where_single; [done..|]. apply decodeFilterArg_suffixed; [done..|].
    by apply (Hsf f _ sop).
  - eapply buildQueryArgs_is_Some; [done..|]. by left.
  - intros Hid. rewrite (where_single d _ v f SqlEq) by (done || by apply decodeFilterArg_bare).
    done.
Qed.

(** conversely the schema accepts no filter on a field that is not
    filterable: every argument of a query is [id], or decodes to a filterable
    field and one of the operators of its type. *)
Theorem query_arguments_filterable_only d k t :
  NoDup (field_name <$> fields d) → suffix_free d →
  assoc_get k (buildQueryArgs d) = Some t →
  k = #"id" ∨
  ∃ f sop, f ∈ fields d ∧ filterable f = true ∧ t = InScalar (gqlScalarFor (field_type f)) ∧
    decodeFilterArg k (fieldByName d) = Some (f, sop) ∧
    (sop = SqlEq ∨ ∃ op, op ∈ operatorsForType (field_type f) ∧ sql_op_of (op_name op) = Some sop).
Proof.
  intros Hnd Hsf [[? _]|(f & Hf & Hfil & Hk & Ht)]%buildQueryArgs_Some; [by left|right].
  unfold field_arg_names in Hk. apply elem_of_cons in Hk as [->|Hk].
  - exists f, SqlEq. split_and!; [done..|by apply decodeFilterArg_bare|by left].
  - apply list_elem_of_fmap in Hk as (op & -> & Hop).
    destruct (operators_decodable _ _ Hop) as (sop & Hs & Hin).
    exists f, sop. split_and!; [done..| |right; eauto].
    apply decodeFilterArg_suffixed; [done..|]. by apply (Hsf f _ sop).
Qed.

(** C4: the schema and the SQL builders enforce the same write rule: an
    update or insert argument exists exactly for the columns the SQL layer
    would set, plus the required [id] of an update; a column that only a
    read-only field names is in neither. *)
Theorem write_arguments_agree d k :
  (k ∈ (buildMutationArgs d).*1 ↔ k = #"id" ∨ k ∈ settableFieldNames d) ∧
  (k ∈ (buildInsertArgs d).*1 ↔ k ∈ settableFieldNames d) ∧
  (k ∈ settableFieldNames d ↔
   k ≠ #"id" ∧ ∃ f, f ∈ fields d ∧ field_name f = k ∧ readOnly f = false).
Proof.
  unfold buildMutationArgs, buildInsertArgs. rewrite !settable_args_keys, elem_of_settable.
  unfold settable_field. cbn [fmap list_fmap fst]. rewrite list_elem_of_singleton.
  rewrite elem_of_nil. naive_solver.
Qed.

(** ** Routing *)

Lemma mutationFieldName_inj v v' n n' :
  mutationFieldName v n = mutationFieldName v' n' → v = v' ∧ n = n'.
Proof.
  unfold mutationFieldName. destruct v, v'; cbn; intros H; try discriminate H;
    injection H; intros; done.
Qed.

(** The configuration a domain contributes for a mutation verb. *)
Definition mutation_config (d : DomainDef) (dialect : DbDialect) (v : MutationVerb) : FieldConfig :=
  let objType := OutObject (buildDomainObjectType d) in
  match v with
  | VUpdate => MkFieldConfig objType (buildMutationArgs d) (makeUpdateResolver d dialect)
  | VInsert => MkFieldConfig objType (buildInsertArgs d) (makeInsertResolver d dialect)
  | VDelete => MkFieldConfig objType buildDeleteArgs (makeDeleteResolver d dialect)
  end.

Definition query_config (d : DomainDef) (dialect : DbDialect) : FieldConfig :=
  MkFieldConfig (OutList (buildDomainObjectType d)) (buildQueryArgs d) (makeQueryResolver d dialect).

Definition meta_config (m : MetaDef) : FieldConfig :=
  MkFieldConfig (OutList (buildMetaObjectType m)) [] (λ _, makeMetaResolver m).

Lemma addDomainMutations_get flds d dialect k :
  assoc_get k (addDomainMutations flds d (buildDomainObjectType d) dialect) =
  if decide (k = mutationFieldName VDelete (domain_name d)) then Some (mutation_config d dialect VDelete)
  else if decide (k = mutationFieldName VInsert (domain_name d)) then Some (mutation_config d dialect VInsert)
  else if decide (k = mutationFieldName VUpdate (domain_name d)) then Some (mutation_config d dialect VUpdate)
  else assoc_get k flds.
Proof. unfold addDomainMutations. by autorewrite with js_objects. Qed.

Lemma addDomainMutations_verb flds d dialect v :
  assoc_get (mutationFieldName v (domain_name d))
    (addDomainMutations flds d (buildDomainObjectType d) dialect) = Some (mutation_config d dialect v).
Proof.
  rewrite addDomainMutations_get.
  destruct v.
  - rewrite !decide_False by (intros [? _]%mutationFieldName_inj; discriminate).
    by rewrite decide_True.
  - rewrite decide_False by (intros [? _]%mutationFieldName_inj; discriminate).
    by rewrite decide_True.
  - by rewrite decide_True.
Qed.

Lemma addDomainMutations_other flds d dialect v n :
  n ≠ domain_name d →
  assoc_get (mutationFieldName v n) (addDomainMutations flds d (buildDomainObjectType d) dialect) =
  assoc_get (mutationFieldName v n) flds.
Proof.
  intros Hn. rewrite addDomainMutations_get.
  repeat case_decide; try done;
    match goal with H : mutationFieldName _ _ = mutationFieldName _ _ |- _ =>
      by apply mutationFieldName_inj in H as [_ ->] end.
Qed.

Lemma addMetaQueries_loop flds ms :
  addMetaQueries flds ms = set_loop (metaQueryName ∘ meta_name) meta_config flds ms.
Proof. reflexivity. Qed.

(** The two maps of a schema after its loop. *)
Definition schema_fields (domains : list DomainDef) (dialect : DbDialect) :=
  foldl (add_domain dialect) ([], []) domains.

Lemma schema_mutations_get acc (domains : list DomainDef) dialect d v :
  NoDup (domain_name <$> domains) → d ∈ domains →
  assoc_get (mutationFieldName v (domain_name d)) (foldl (add_domain dialect) acc domains).2 =
  Some (mutation_config d dialect v).
Proof.
  revert acc. induction domains as [|d0 ds IH]; intros [q m]; [by intros _ ?%elem_of_nil|].
  rewrite fmap_cons. intros [Hnot Hnd]%NoDup_cons Hin. cbn [foldl].
  apply elem_of_cons in Hin as [<-|Hd]; [|by apply IH]. cbn [add_domain]. clear IH Hnd.
  assert (Hkeep : ∀ acc,
    assoc_get (mutationFieldName v (domain_name d)) acc.2 = Some (mutation_config d dialect v) →
    assoc_get (mutationFieldName v (domain_name d)) (foldl (add_domain dialect) acc ds).2 =
    Some (mutation_config d dialect v)).
  { induction ds as [|d1 ds IH]; intros [q' m'] H; [done|]. cbn [foldl add_domain].
    rewrite fmap_cons, not_elem_of_cons in Hnot. destruct Hnot. apply IH; [done|]. cbn [snd].
    by rewrite addDomainMutations_other. }
  apply Hkeep. cbn [snd]. apply addDomainMutations_verb.
Qed.

Lemma schema_query_add acc dialect d k :
  k ≠ domain_name d → k ∉ (metaQueryName ∘ meta_name) <$> metas d →
  assoc_get k (add_domain dialect acc d).1 = assoc_get k acc.1.
Proof.
  destruct acc as [q m]. intros Hk Hm. cbn [add_domain fst].
  rewrite addMetaQueries_loop, set_loop_other by done.
  unfold addDomainQuery, domainQueryName. by rewrite obj_set_get, decide_False.
Qed.

Lemma schema_query_get acc (domains : list DomainDef) dialect d :
  NoDup (domain_name <$> domains) → d ∈ domains →
  (∀ d', d' ∈ domains → domain_name d ∉ (metaQueryName ∘ meta_name) <$> metas d') →
  assoc_get (domain_name d) (foldl (add_domain dialect) acc domains).1 =
  Some (query_config d dialect).
Proof.
  revert acc. induction domains as [|d0 ds IH]; intros acc; [by intros _ ?%elem_of_nil|].
  rewrite fmap_cons. intros [Hnot Hnd]%NoDup_cons Hin Hmeta. cbn [foldl].
  assert (Hmeta' : ∀ d', d' ∈ ds → domain_name d ∉ (metaQueryName ∘ meta_name) <$> metas d')
    by (intros; apply Hmeta; by right).
  apply elem_of_cons in Hin as [<-|Hd]; [|by apply IH]. clear IH Hnd.
  assert (Hkeep : ∀ acc,
    assoc_get (domain_name d) acc.1 = Some (query_config d dialect) →
    assoc_get (domain_name d) (foldl (add_domain dialect) acc ds).1 =
    Some (query_config d dialect)).
  { clear Hmeta. induction ds as [|d1 ds IH]; intros acc' H; [done|]. cbn [foldl].
    rewrite fmap_cons, not_elem_of_cons in Hnot. destruct Hnot.
    apply IH; [done|intros; apply Hmeta'; by right|].
    rewrite schema_query_add; [done|done|]. apply Hmeta'. by left. }
  apply Hkeep. destruct acc as [q m]. cbn [add_domain fst].
  rewrite addMetaQueries_loop, set_loop_other by (apply Hmeta; by left).
  unfold addDomainQuery, domainQueryName. by rewrite obj_set_get, decide_True.
Qed.

Lemma add_domain_query_nonempty acc dialect d : (add_domain dialect acc d).1 ≠ [].
Proof.
  destruct acc as [q m]. cbn [add_domain fst]. rewrite addMetaQueries_loop. intros E.
  assert (Hk : domain_name d ∈ (set_loop (metaQueryName ∘ meta_name) meta_config
    (addDomainQuery q d (buildDomainObjectType d) dialect) (metas d)).*1).
  { apply set_loop_keys. left. apply assoc_get_is_Some. unfold addDomainQuery, domainQueryName.
    rewrite obj_set_get, decide_True by done. eauto. }
  rewrite E in Hk. by apply elem_of_nil in Hk.
Qed.

Lemma schema_query_nonempty (domains : list DomainDef) dialect :
  domains ≠ [] → (foldl (add_domain dialect) ([], []) domains).1 ≠ [].
Proof.
  destruct domains as [|d ds _] using rev_ind; [done|]. intros _.
  rewrite foldl_snoc. apply add_domain_query_nonempty.
Qed.

(** in the schema of domains with distinct names, each mutation field
    [<verb>_<domain>] runs the resolver of that verb on that domain with that
    domain's arguments, whatever the other domains are called; and when no
    domain is named like a meta query, the field named after a domain runs
    that domain's query. *)
Theorem schema_routes (domains : list DomainDef) dialect d :
  NoDup (domain_name <$> domains) → d ∈ domains →
  (∀ v, ∃ ms, schema_mutation (buildSchema domains dialect) = Some ms ∧
     assoc_get (mutationFieldName v (domain_name d)) ms = Some (mutation_config d dialect v)) ∧
  ((∀ d', d' ∈ domains → domain_name d ∉ (metaQueryName ∘ meta_name) <$> metas d') →
   ∃ qs, schema_query (buildSchema domains dialect) = Some qs ∧
     assoc_get (domain_name d) qs = Some (query_config d dialect)).
Proof.
  intros Hnd Hd.
  pose proof (λ v, schema_mutations_get ([], []) domains dialect d v Hnd Hd) as Hm.
  pose proof (schema_query_get ([], []) domains dialect d Hnd Hd) as Hq.
  assert (Hne : (foldl (add_domain dialect) ([], []) domains).1 ≠ []).
  { apply schema_query_nonempty. by destruct domains; [apply elem_of_nil in Hd|]. }
  unfold buildSchema. destruct (foldl (add_domain dialect) ([], []) domains) as [q m].
  cbn [fst snd] in *. destruct q as [|q0 q]; [done|]. cbn [schema_query schema_mutation]. split.
  - intros v. specialize (Hm v). destruct m as [|m0 m]; [done|]. eauto.
  - intros H. eauto.
Qed.

(** permissions fail closed.  An action is allowed exactly when the first
    entry declared for the role lists it; a role without an entry may do
    nothing, and [assertActionAllowed] throws in exactly the other cases. *)
Theorem permissions_fail_closed d r a :
  (isActionAllowed d r a = true ↔
   ∃ ps1 p ps2, permissions d = ps1 ++ p :: ps2 ∧ role p = r ∧ a ∈ actions p ∧
     Forall (λ p, role p ≠ r) ps1) ∧
  (assertActionAllowed d r a = Ok tt ↔ isActionAllowed d r a = true).
Proof.
  split.
  - unfold isActionAllowed. induction (permissions d) as [|p ps IH]; simpl.
    { split; [done|]. by intros ([|] & ? & ? & ? & _). }
    case_decide as Hr.
    + rewrite IH. split.
      * intros (ps1 & p' & ps2 & -> & ? & ? & ?). exists (p :: ps1), p', ps2. auto.
      * intros ([|p0 ps1] & p' & ps2 & Heq & ? & ? & Hall); injection Heq as -> ->; [done|].
        apply Forall_cons in Hall as [_ Hall]. by exists ps1, p', ps2.
    + rewrite bool_decide_eq_true. split.
      * intros Ha. by exists [], p, ps.
      * intros ([|p0 ps1] & p' & ps2 & Heq & ? & ? & Hall); injection Heq as -> ->; [done|].
        by apply Forall_cons in Hall as [? _].
  - unfold assertActionAllowed. by destruct (isActionAllowed d r a).
Qed.

(** ** Witnesses *)

Definition sample_firstname : DomainFieldDef := sample_field #"firstname" TString false true.

Lemma sample_person_names : NoDup (field_name <$> fields sample_person).
Proof. decide_closed. Qed.

Lemma sample_person_suffix_free : suffix_free sample_person.
Proof.
  assert (H : forallb (λ f, forallb (λ so : str * SqlOp,
      negb (bool_decide (field_name f ++ so.1 ∈ field_name <$> fields sample_person))) SUFFIXES)
    (fields sample_person) = true) by (vm_compute; reflexivity).
  intros f s op Hf Hs Hin. rewrite forallb_forall in H.
  apply list_elem_of_In, H in Hf. rewrite forallb_forall in Hf.
  apply list_elem_of_In, Hf in Hs. apply negb_true_iff, bool_decide_eq_false in Hs. done.
Qed.

Lemma filter_arguments_mean_their_operator_witness :
  buildWhereClause sample_person [(#"firstname", VStr #"Anna")] =
  MkWhere #" WHERE firstname = $1" [VStr #"Anna"].
Proof.
  apply (filter_arguments_mean_their_operator sample_person sample_firstname (VStr #"Anna")
    sample_person_names sample_person_suffix_free); [|done..|js_decide].
  right. left.
Defined.

Lemma query_arguments_filterable_only_witness :
  #"age_gte" = #"id" ∨
  ∃ f sop, f ∈ fields sample_person ∧ filterable f = true ∧
    InScalar GraphQLInt = InScalar (gqlScalarFor (field_type f)) ∧
    decodeFilterArg #"age_gte" (fieldByName sample_person) = Some (f, sop) ∧
    (sop = SqlEq ∨ ∃ op, op ∈ operatorsForType (field_type f) ∧ sql_op_of (op_name op) = Some sop).
Proof.
  apply (query_arguments_filterable_only sample_person #"age_gte" (InScalar GraphQLInt)
    sample_person_names sample_person_suffix_free).
  vm_compute. reflexivity.
Defined.

Lemma schema_routes_witness :
  ∃ ms, schema_mutation (buildSchema [sample_person] Mysql) = Some ms ∧
    assoc_get #"delete_person" ms = Some (mutation_config sample_person Mysql VDelete).
Proof.
  refine (proj1 (schema_routes [sample_person] Mysql sample_person _ _) VDelete);
    [apply NoDup_singleton|by left].
Defined.
