(* ===== verification/ClientMutation.v ===== *)
(** From a data map to a GraphQL mutation:
    [packages/oos-gql-ts/src/client/build-mutation.ts]. *)

From S2P Require Export GqlSchema.

(** * Definitions *)

Record BuildMutationResult := MkMutation {
  mut_query : str;
  mut_verb : MutationVerb;
  returnFields : list str
}.

(** [indexFields] *)
Definition indexFields (domain : DomainDef) : gmap str DomainFieldDef :=
  foldl (λ out f, <[field_name f := f]> out) ∅ (fields domain).

(** [isEmptyId] *)
Definition isEmptyId (v : jsval) : bool :=
  match v with
  | VUndef | VNull => true
  | VNum n => num_is_zero n
  | VStr s => bool_decide (trim s = [] ∨ trim s = #"0")
  | VBigInt z => (z =? 0)%Z
  | _ => false
  end.

(** [formatIntLiteral] *)
Definition formatIntLiteral (v : jsval) : outcome jsnum :=
  let fail := Throw (#"buildMutationFromMap: id is not an integer (got " ++ type_of v ++ #")") in
  match v with
  | VNum n => Ok (num_trunc n)
  | VBigInt z => Ok (num_of_Z z)
  | VStr s => let n := parse_int (trim s) in if is_finite n then Ok n else fail
  | _ => fail
  end.

(** [s.replace(",", ".")]: the first comma only. *)
Fixpoint replace_comma (s : str) : str :=
  match s with
  | [] => []
  | c :: s => if (c =? 44)%N then 46%N :: s else c :: replace_comma s
  end.

(** [formatFloatLiteral] *)
Definition formatFloatLiteral (v : jsval) : outcome jsnum :=
  let fail := Throw (#"buildMutationFromMap: cannot coerce to float (got " ++ type_of v ++ #")") in
  match v with
  | VNum n => if is_finite n then Ok n else fail
  | VStr s =>
    let n := parse_float (replace_comma (trim s)) in if is_finite n then Ok n else fail
  | _ => fail
  end.

(** [formatBoolLiteral] *)
Definition formatBoolLiteral (v : jsval) : outcome str :=
  let fail := Throw (#"buildMutationFromMap: cannot coerce to bool (got " ++ type_of v ++ #")") in
  match v with
  | VBool b => Ok (if b then #"true" else #"false")
  | VNum n => Ok (if num_is_zero n then #"false" else #"true")
  | VStr s =>
    let s := to_lower (trim s) in
    if decide (s ∈ [ #"true"; #"1"; #"yes"]) then Ok #"true"
    else if decide (s ∈ [ #"false"; #"0"; #"no"; #""]) then Ok #"false"
    else fail
  | _ => fail
  end.

(** [stringify] *)
Definition stringify (v : jsval) : str := if is_nullish v then [] else to_string v.

(** [escapeGraphQLString]; one case of its switch. *)
Definition escape_unit (c : N) : str :=
  if (c =? backslash)%N then [backslash; backslash]
  else if (c =? dq)%N then [backslash; dq]
  else if (c =? nl)%N then [backslash; 110%N]
  else if (c =? cr)%N then [backslash; 114%N]
  else if (c =? tab)%N then [backslash; 116%N]
  else [c].

Definition escapeGraphQLString (s : str) : str := s ≫= escape_unit.

(** [formatArg] *)
Definition formatArg (name : str) (value : jsval) (type : FieldTypeDef) : outcome str :=
  match type with
  | TInt => n ← formatIntLiteral value; Ok (name ++ #": " ++ num_to_string n)
  | TFloat => n ← formatFloatLiteral value; Ok (name ++ #": " ++ num_to_string n)
  | TBool => b ← formatBoolLiteral value; Ok (name ++ #": " ++ b)
  | TString | TText | TDate | TDatetime =>
    Ok (name ++ #": " ++ quoted (escapeGraphQLString (stringify value)))
  end.

(** [renderMutationString] *)
Definition renderMutationString (mutName : str) (args returns : list str) : str :=
  #"mutation {" ++ [nl] ++ #"  " ++ mutName ++ #"(" ++ join #", " args ++ #") {" ++ [nl] ++
  #"    " ++ join ([nl] ++ #"    ") returns ++ [nl] ++ #"  }" ++ [nl] ++ #"}".

(** The validation loop: the first key that is neither [id] nor a field. *)
Fixpoint unknown_field (m : gmap str DomainFieldDef) (keys : list str) : option str :=
  match keys with
  | [] => None
  | key :: keys =>
    if decide (key = #"id") then unknown_field m keys
    else match m !! key with
         | None => Some key
         | Some _ => unknown_field m keys
         end
  end.

(** The rendering loop over the entries: the arguments and the returned
    fields it appends. *)
Fixpoint mutation_loop (m : gmap str DomainFieldDef) (entries : jsobj)
    (acc : list str * list str) : outcome (list str * list str) :=
  match entries with
  | [] => Ok acc
  | (key, value) :: rest =>
    if decide (key = #"id") then mutation_loop m rest acc
    else
      let '(args, returns) := acc in
      let returns := returns ++ [key] in
      match m !! key with
      | None => Throw #"Cannot read properties of undefined (reading 'readOnly')"
      | Some field =>
        if readOnly field then mutation_loop m rest (args, returns)
        else
          arg ← formatArg key value (field_type field);
          mutation_loop m rest (args ++ [arg], returns)
      end
  end.

(** [buildMutationFromMap] *)
Definition buildMutationFromMap (domain : DomainDef) (data : jsobj) : outcome BuildMutationResult :=
  if decide (data = []) then
    Throw (#"buildMutationFromMap: empty data for domain " ++ quoted (domain_name domain))
  else
    let m := indexFields domain in
    match unknown_field m data.*1 with
    | Some key =>
      Throw (#"buildMutationFromMap: unknown field " ++ quoted key ++ #" on domain " ++
             quoted (domain_name domain))
    | None =>
      let id := obj_get #"id" data in
      let isUpdate := negb (isEmptyId id) in
      let verb := if isUpdate then VUpdate else VInsert in
      let mutName := mutationFieldName verb (domain_name domain) in
      init ← (if isUpdate
              then n ← formatIntLiteral id; Ok ([ #"id: " ++ num_to_string n], [])
              else Ok ([], [ #"id"]));
      '(args, returns) ← mutation_loop m data init;
      match args with
      | [] => Throw (#"buildMutationFromMap: no settable fields for " ++ verb_name verb ++ #"_" ++
                     domain_name domain)
      | _ => Ok (MkMutation (renderMutationString mutName args returns) verb returns)
      end
    end.

(** [buildDeleteMutation] *)
Definition buildDeleteMutation (domain : DomainDef) (id : jsval) : outcome str :=
  if isEmptyId id then
    Throw (#"buildDeleteMutation: empty id for domain " ++ quoted (domain_name domain))
  else
    n ← formatIntLiteral id;
    Ok (#"mutation {" ++ [nl] ++ #"  " ++ mutationFieldName VDelete (domain_name domain) ++
        #"(id: " ++ num_to_string n ++ #") {" ++ [nl] ++ #"    id" ++ [nl] ++ #"  }" ++ [nl] ++ #"}").

(** * String literals *)

(** The characters of a GraphQL string literal up to its closing quote, and
    what follows it: the [StringCharacter] grammar of the GraphQL language
    without its [\u] form, which the renderer never writes. *)
Fixpoint lex_string (s : str) : option (str * str) :=
  match s with
  | [] => None
  | c :: s =>
    if (c =? dq)%N then Some ([], s)
    else if (c =? nl)%N || (c =? cr)%N then None
    else if (c =? backslash)%N then
      match s with
      | [] => None
      | e :: s =>
        let unit :=
          if (e =? dq)%N then Some dq
          else if (e =? backslash)%N then Some backslash
          else if (e =? 47)%N then Some 47%N
          else if (e =? 98)%N then Some 8%N
          else if (e =? 102)%N then Some 12%N
          else if (e =? 110)%N then Some nl
          else if (e =? 114)%N then Some cr
          else if (e =? 116)%N then Some tab
          else None in
        u ← unit; '(body, rest) ← lex_string s; Some (u :: body, rest)
      end
    else '(body, rest) ← lex_string s; Some (c :: body, rest)
  end.

Lemma lex_escape_unit c s :
  lex_string (escape_unit c ++ s) = '(body, rest) ← lex_string s; Some (c :: body, rest).
Proof.
  unfold escape_unit.
  destruct (N.eqb_spec c backslash) as [->|H1]; [reflexivity|].
  destruct (N.eqb_spec c dq) as [->|H2]; [reflexivity|].
  destruct (N.eqb_spec c nl) as [->|H3]; [reflexivity|].
  destruct (N.eqb_spec c cr) as [->|H4]; [reflexivity|].
  destruct (N.eqb_spec c tab) as [->|H5]; [reflexivity|].
  cbn [app lex_string].
  apply N.eqb_neq in H1, H2, H3, H4. by rewrite H1, H2, H3, H4.
Qed.

Lemma escape_cons c s : escapeGraphQLString (c :: s) = escape_unit c ++ escapeGraphQLString s.
Proof. reflexivity. Qed.

(** * What a mutation carries *)

Lemma indexFields_fieldByName d : indexFields d = fieldByName d.
Proof. reflexivity. Qed.

(** The entries that become arguments, with the field's type. *)
Definition argument_entry (m : gmap str DomainFieldDef) (e : str * jsval)
    : option (str * jsval * FieldTypeDef) :=
  if decide (e.1 = #"id") then None
  else f ← m !! e.1; if readOnly f then None else Some (e.1, e.2, field_type f).

Definition format_entry (e : str * jsval * FieldTypeDef) : outcome str :=
  formatArg e.1.1 e.1.2 e.2.

Definition known_keys (m : gmap str DomainFieldDef) (keys : list str) : Prop :=
  Forall (λ k, k = #"id" ∨ is_Some (m !! k)) keys.

Definition other_keys (data : jsobj) : list str := filter (λ k, k ≠ #"id") data.*1.

Lemma unknown_field_None m keys : unknown_field m keys = None ↔ known_keys m keys.
Proof.
  unfold known_keys. induction keys as [|k keys IH]; simpl; [done|].
  rewrite Forall_cons. case_decide as Hk; [naive_solver|].
  destruct (m !! k) as [f|].
  - rewrite IH. split; [intros; split; [right; eauto|done]|by intros []].
  - split; [done|]. intros [[?|[? ?]] _]; done.
Qed.

Lemma mutation_loop_spec m entries args returns :
  known_keys m entries.*1 →
  mutation_loop m entries (args, returns) =
  (new ← outcome_map format_entry (omap (argument_entry m) entries);
   Ok (args ++ new, returns ++ other_keys entries)).
Proof.
  unfold other_keys. revert args returns.
  induction entries as [|[k v] entries IH]; intros args returns; cbn [mutation_loop].
  { intros _. cbn. by rewrite !app_nil_r. }
  rewrite fmap_cons. cbn [fst]. intros [Hk Hks]%Forall_cons.
  rewrite filter_cons, omap_cons_eq. unfold argument_entry at 1. cbn [fst snd].
  destruct (decide (k = #"id")) as [->|Hid].
  - rewrite decide_False by tauto. by apply IH.
  - rewrite decide_True by done. destruct Hk as [?|[f Hf]]; [done|]. rewrite Hf.
    cbn [mbind option_bind]. destruct (readOnly f).
    + rewrite IH by done. unfold mbind, outcome_bind.
      destruct (outcome_map _ _); [|done]. by rewrite <- app_assoc.
    + cbn [outcome_map].
      change (format_entry (k, v, field_type f)) with (formatArg k v (field_type f)).
      unfold mbind, outcome_bind. destruct (formatArg k v (field_type f)) as [arg|]; [|done].
      rewrite IH by done. unfold mbind, outcome_bind.
      destruct (outcome_map _ _); [|done]. by rewrite <- !app_assoc.
Qed.

Lemma formatArg_name k v t a : formatArg k v t = Ok a → ∃ lit, a = k ++ #": " ++ lit.
Proof.
  destruct t; cbn [formatArg];
    first [intros (x & _ & [= <-])%outcome_bind_Ok; eauto|intros [= <-]; eauto].
Qed.

Lemma outcome_map_elem {A B} (f : A → outcome B) l l' y :
  outcome_map f l = Ok l' → y ∈ l' → ∃ x, x ∈ l ∧ f x = Ok y.
Proof.
  revert l'. induction l as [|x l IH]; intros l'; cbn [outcome_map].
  - intros [= <-] ?%elem_of_nil. done.
  - intros (z & Hz & (zs & Hzs & [= <-])%outcome_bind_Ok)%outcome_bind_Ok.
    intros [->|Hy]%elem_of_cons; [exists x; by split; [left|]|].
    destruct (IH _ Hzs Hy) as (w & ? & ?). exists w. by split; [right|].
Qed.

Lemma argument_entry_settable d e k v t :
  argument_entry (fieldByName d) e = Some (k, v, t) → k ∈ settableFieldNames d.
Proof.
  unfold argument_entry. case_decide as Hid; [done|].
  destruct (fieldByName d !! e.1) as [f|] eqn:Hf; cbn [mbind option_bind]; [|done].
  destruct (readOnly f) eqn:Hr; [done|]. intros [= <- _ _].
  apply fieldByName_Some in Hf as [Hin Hn]. apply elem_of_settable.
  exists f. split_and!; [done| |done]. split; congruence.
Qed.

(** The whole function, without its loops. *)
Definition id_arguments (id : jsval) : outcome (list str) :=
  if isEmptyId id then Ok [] else n ← formatIntLiteral id; Ok [ #"id: " ++ num_to_string n].

Lemma buildMutationFromMap_spec d data :
  data ≠ [] → known_keys (fieldByName d) data.*1 →
  buildMutationFromMap d data =
  let id := obj_get #"id" data in
  let verb := if isEmptyId id then VInsert else VUpdate in
  let returns := (if isEmptyId id then [ #"id"] else []) ++ other_keys data in
  idargs ← id_arguments id;
  new ← outcome_map format_entry (omap (argument_entry (fieldByName d)) data);
  match idargs ++ new with
  | [] => Throw (#"buildMutationFromMap: no settable fields for " ++ verb_name verb ++ #"_" ++
                 domain_name d)
  | args => Ok (MkMutation (renderMutationString (mutationFieldName verb (domain_name d)) args returns)
                           verb returns)
  end.
Proof.
  intros Hne Hk. unfold buildMutationFromMap, id_arguments. rewrite decide_False by done.
  rewrite indexFields_fieldByName. rewrite (proj2 (unknown_field_None _ _) Hk).
  cbv zeta. destruct (isEmptyId (obj_get #"id" data)); cbn [negb].
  - cbn [mbind outcome_bind]. rewrite mutation_loop_spec by done. unfold mbind, outcome_bind.
    by destruct (outcome_map _ _) as [[|a l]|].
  - destruct (formatIntLiteral _) as [n|]; [|done]. cbn [mbind outcome_bind].
    rewrite mutation_loop_spec by done. unfold mbind, outcome_bind.
    by destruct (outcome_map _ _) as [[|a l]|].
Qed.

(** * Theorems *)

(** C5: what [escapeGraphQLString] writes between quotes is read back as the
    original text, and nothing of it leaks past the closing quote: for every
    text, including quotes, backslashes and line breaks, the string lexer
    returns the text and leaves exactly what follows the literal. *)
Theorem escape_reads_back s rest :
  lex_string (escapeGraphQLString s ++ [dq] ++ rest) = Some (s, rest).
Proof.
  induction s as [|c s IH]; [reflexivity|].
  rewrite escape_cons, <- app_assoc, lex_escape_unit, IH. reflexivity.
Qed.

(** C6: a mutation that is built is an update exactly when the data carries
    a usable id; it names only fields of the domain, asks back for every
    supplied field (and for the new id on insert), and each of its arguments
    is one the server's schema accepts for that mutation, so a read-only
    field is never sent. *)
Theorem buildMutation_correct d data r :
  buildMutationFromMap d data = Ok r →
  let id := obj_get #"id" data in
  mut_verb r = (if isEmptyId id then VInsert else VUpdate) ∧
  known_keys (fieldByName d) data.*1 ∧
  returnFields r = (if isEmptyId id then [ #"id"] else []) ++ other_keys data ∧
  ∃ args, args ≠ [] ∧
    mut_query r = renderMutationString (mutationFieldName (mut_verb r) (domain_name d))
                                       args (returnFields r) ∧
    Forall (λ a, ∃ k lit, a = k ++ #": " ++ lit ∧
      k ∈ (if isEmptyId id then buildInsertArgs d else buildMutationArgs d).*1) args.
Proof.
  intros H. cbv zeta.
  assert (Hne : data ≠ []) by (intros ->; discriminate H).
  assert (Hk : known_keys (fieldByName d) data.*1).
  { apply unknown_field_None. unfold buildMutationFromMap in H.
    rewrite decide_False in H by done. rewrite indexFields_fieldByName in H.
    by destruct (unknown_field _ _). }
  rewrite buildMutationFromMap_spec in H by done. cbv zeta in H.
  apply outcome_bind_Ok in H as (idargs & Hid & H).
  apply outcome_bind_Ok in H as (new & Hnew & H).
  assert (Hids : Forall (λ a, ∃ k lit, a = k ++ #": " ++ lit ∧
    k ∈ (if isEmptyId (obj_get #"id" data) then buildInsertArgs d else buildMutationArgs d).*1) idargs).
  { unfold id_arguments in Hid. destruct (isEmptyId _); [by injection Hid as <-|].
    apply outcome_bind_Ok in Hid as (n & _ & [= <-]). apply Forall_singleton.
    exists #"id", (num_to_string n). split; [done|]. apply settable_args_keys. left. by left. }
  assert (Hnews : Forall (λ a, ∃ k lit, a = k ++ #": " ++ lit ∧
    k ∈ (if isEmptyId (obj_get #"id" data) then buildInsertArgs d else buildMutationArgs d).*1) new).
  { apply Forall_forall. intros a Ha.
    destruct (outcome_map_elem _ _ _ _ Hnew Ha) as ([[k v] t] & He & Hf).
    apply list_elem_of_omap in He as (e & _ & He).
    apply argument_entry_settable in He. apply formatArg_name in Hf as [lit Hlit].
    exists k, lit. split; [done|]. destruct (isEmptyId _); apply settable_args_keys; by right. }
  destruct (idargs ++ new) as [|a args] eqn:Hargs; [done|]. injection H as <-.
  split_and!; [done..|]. exists (a :: args). split_and!; [done..|].
  rewrite <- Hargs. by apply Forall_app.
Qed.

(** a key the domain does not declare is reported, by name, before
    anything is rendered: the first unknown key decides the error. *)
Theorem unknown_field_rejected d ks1 k v ks2 :
  known_keys (fieldByName d) ks1.*1 → k ≠ #"id" → k ∉ field_name <$> fields d →
  buildMutationFromMap d (ks1 ++ (k, v) :: ks2) =
  Throw (#"buildMutationFromMap: unknown field " ++ quoted k ++ #" on domain " ++
         quoted (domain_name d)).
Proof.
  intros Hks Hid Hk. unfold buildMutationFromMap.
  rewrite decide_False by (by destruct ks1).
  rewrite indexFields_fieldByName, fmap_app, fmap_cons. cbn [fst].
  assert (Hu : unknown_field (fieldByName d) (ks1.*1 ++ k :: ks2.*1) = Some k).
  { induction Hks as [|k' ks Hk' Hks IH]; cbn [app unknown_field].
    - rewrite decide_False by done. by rewrite (proj2 (fieldByName_None d k) Hk).
    - case_decide; [done|]. destruct Hk' as [?|[f ->]]; done. }
  by rewrite Hu.
Qed.

(** The id argument keeps an update from ever being refused as empty: an
    update of no settable field is rendered, with an empty selection. *)
Lemma update_without_fields_rendered :
  buildMutationFromMap sample_person [(#"id", VNum (num_of_Z 5))] =
  Ok (MkMutation (#"mutation {" ++ [nl] ++ #"  update_person(id: 5) {" ++ [nl] ++ #"    " ++
                  [nl] ++ #"  }" ++ [nl] ++ #"}") VUpdate []).
Proof. vm_compute. reflexivity. Qed.

(** ** Witnesses *)

Definition sample_data : jsobj :=
  [ (#"id", VStr #" 17 "); (#"firstname", VStr ([dq] ++ #"A\B")); (#"created_at", VStr #"now");
    (#"net_worth", VStr #"1,5") ].

Example sample_data_mutation :
  buildMutationFromMap sample_person sample_data =
  Ok (MkMutation
    (#"mutation {" ++ [nl] ++ #"  update_person(id: 17, firstname: " ++
     quoted ([backslash; dq] ++ #"A\\B") ++ #", net_worth: 1.5) {" ++ [nl] ++
     #"    firstname" ++ [nl] ++ #"    created_at" ++ [nl] ++ #"    net_worth" ++ [nl] ++
     #"  }" ++ [nl] ++ #"}")
    VUpdate [ #"firstname"; #"created_at"; #"net_worth"]).
Proof. vm_compute. reflexivity. Qed.

Lemma buildMutation_correct_witness :
  ∃ r, buildMutationFromMap sample_person sample_data = Ok r ∧ mut_verb r = VUpdate.
Proof.
  eexists. split; [vm_compute; reflexivity|].
  refine (proj1 (buildMutation_correct sample_person sample_data _ _)).
  vm_compute. reflexivity.
Defined.

Lemma unknown_field_rejected_witness :
  buildMutationFromMap sample_person ([(#"age", VNull)] ++ (#"salary", VNull) :: []) =
  Throw (#"buildMutationFromMap: unknown field " ++ quoted #"salary" ++ #" on domain " ++
         quoted #"person").
Proof.
  apply (unknown_field_rejected sample_person [(#"age", VNull)] #"salary" VNull []); js_decide.
Defined.
