(* ===== verification/ClientQueries.v ===== *)
(** The read side of the client:
    [packages/oos-gql-ts/src/client/{build-meta-query,build-detail-query}.ts].
    The query builders, and the extractors that read the server's response. *)

From S2P Require Export Json GqlSchema.

(** * Definitions *)

(** [buildMetaQueriesForDomain] *)
Definition buildMetaQueriesForDomain (domain : DomainDef) : str :=
  match metas domain with
  | [] => []
  | ms => #"{ " ++ join #" " ((λ m, metaQueryName (meta_name m) ++ #" { value label }") <$> ms) ++ #" }"
  end.

(** One step of the loop of [extractMetaPayload]. *)
Definition meta_short_key (key : str) : str :=
  if starts_with #"meta_" key then drop (length #"meta_") key else key.

(** [extractMetaPayload].  The property access on the parsed value is outside
    the [try], so it may throw. *)
Definition extractMetaPayload (json : str) : outcome jsobj :=
  match json_parse json with
  | None => Ok []
  | Some parsed =>
    data ← get_prop #"data" parsed;
    if negb (is_object data) then Ok []
    else Ok (foldl (λ out e, obj_set (meta_short_key e.1) e.2 out) [] (object_entries data))
  end.

(** [buildDetailQuery]; [id] is the text of the interpolated id. *)
Definition buildDetailQuery (domain : DomainDef) (id : str) : str :=
  #"{ " ++ domainQueryName (domain_name domain) ++ #"(id: " ++ id ++ #") { " ++
  join #" " (field_name <$> fields domain) ++ #" } }".

(** [extractDetailRow] *)
Definition extractDetailRow (json domainName : str) : outcome (option jsval) :=
  match json_parse json with
  | None => Ok None
  | Some parsed =>
    data ← get_prop #"data" parsed;
    if negb (is_object data) then Ok None
    else
      block ← get_prop (domainQueryName domainName) data;
      match block with
      | VArr (row :: _) => if is_object row then Ok (Some row) else Ok None
      | _ => Ok None
      end
  end.

(** * Lemmas *)

Lemma meta_short_key_meta n : meta_short_key (#"meta_" ++ n) = n.
Proof. unfold meta_short_key. by rewrite starts_with_app. Qed.

Lemma get_prop_ok k v : is_nullish v = false → ∃ x, get_prop k v = Ok x.
Proof. destruct v; try done; eauto. Qed.

Lemma json_scalar_not_undef s v r : json_scalar s = Some (v, r) → v ≠ VUndef.
Proof.
  unfold json_scalar. repeat case_match; try by intros [= <- _].
  unfold json_number. destruct (match s with | c :: r => _ | [] => _ end) as [neg s1].
  destruct (json_int s1) as [[w s2]|]; [|done]. cbn [mbind option_bind].
  destruct (json_frac s2) as [f s3]. destruct (json_exp s3) as [e s4]. by intros [= <- _].
Qed.

Lemma json_not_undef fuel :
  (∀ s v r, json_value fuel s = Some (v, r) → v ≠ VUndef) ∧
  (∀ acc s v r, json_elements fuel acc s = Some (v, r) → v ≠ VUndef) ∧
  (∀ acc s v r, json_members fuel acc s = Some (v, r) → v ≠ VUndef).
Proof.
  induction fuel as [|fuel (IHv & IHe & IHm)]; [done|]. split_and!.
  - intros s v r. cbn [json_value].
    destruct (eat 123 s) as [s1|]; [destruct (eat 125 s1); [by intros [= <- _]|apply IHm]|].
    destruct (eat 91 s) as [s1|]; [destruct (eat 93 s1); [by intros [= <- _]|apply IHe]|].
    destruct (eat dq s) as [s1|]; [|apply json_scalar_not_undef].
    destruct (json_string s1) as [[t s2]|]; [|done]. by intros [= <- _].
  - intros acc s v r. cbn [json_elements].
    destruct (json_value fuel s) as [[w s1]|]; [|done]. cbn [mbind option_bind].
    destruct (eat 44 s1); [apply IHe|]. destruct (eat 93 s1); [|done]. by intros [= <- _].
  - intros acc s v r. cbn [json_members].
    destruct (eat dq s) as [s1|]; [|done]. cbn [mbind option_bind].
    destruct (json_string s1) as [[k s2]|]; cbn [mbind option_bind]; [|done].
    destruct (eat 58 s2) as [s3|]; cbn [mbind option_bind]; [|done].
    destruct (json_value fuel s3) as [[w s4]|]; cbn [mbind option_bind]; [|done].
    destruct (eat 44 s4); [apply IHm|]. destruct (eat 125 s4); [|done]. by intros [= <- _].
Qed.

Lemma json_parse_not_undef s : json_parse s ≠ Some VUndef.
Proof.
  unfold json_parse. destruct (json_value _ s) as [[v r]|] eqn:E; [|done].
  apply json_not_undef in E. cbn [mbind option_bind]. case_decide; [|done]. congruence.
Qed.

(** * Theorems *)

(** the response to the combined meta query is handed on under the names
    fields refer to: looking a meta up by its short name gives exactly what
    the server sent under [meta_<name>], and nothing else is there. *)
Theorem meta_payload_by_name json o data :
  json_parse json = Some (VObj o) → obj_get #"data" o = VObj data → NoDup data.*1 →
  Forall (λ k, starts_with #"meta_" k = true) data.*1 →
  ∃ out, extractMetaPayload json = Ok out ∧
    ∀ n, assoc_get n out = assoc_get (metaQueryName n) data.
Proof.
  intros Hjson Hdata Hnd Hmeta. unfold extractMetaPayload. rewrite Hjson. cbn [get_prop].
  cbn [mbind outcome_bind]. rewrite Hdata. cbn [is_object negb object_entries].
  eexists. split; [done|]. intros n.
  change (assoc_get n (set_loop (λ e : str * jsval, meta_short_key e.1) snd [] data) =
          assoc_get (metaQueryName n) data).
  destruct (assoc_get (metaQueryName n) data) as [v|] eqn:E.
  - apply assoc_get_elem in E as Hin.
    replace n with (meta_short_key (metaQueryName n, v).1) by apply meta_short_key_meta.
    change v with (metaQueryName n, v).2 at 2.
    apply (set_loop_get (λ e : str * jsval, meta_short_key e.1) snd (metaQueryName n, v)); [done|].
    intros [k w] Hkw Hk. cbn [fst snd] in *.
    rewrite Forall_forall in Hmeta.
    assert (Hks : k ∈ data.*1) by (apply list_elem_of_fmap; by exists (k, w)).
    apply Hmeta, starts_with_spec in Hks as [k' ->].
    unfold metaQueryName in Hk. rewrite !meta_short_key_meta in Hk. subst k'. apply (elem_assoc_get _ _ _ Hnd) in Hkw.
    change (assoc_get (metaQueryName n) data = Some w) in Hkw. congruence.
  - destruct (assoc_get n (set_loop _ _ _ _)) as [v|] eqn:E2; [|done]. exfalso.
    apply set_loop_Some in E2 as [([k w] & Hkw & Hk & _)|?]; [|done]. cbn [fst] in Hk.
    rewrite Forall_forall in Hmeta.
    assert (Hks : k ∈ data.*1) by (apply list_elem_of_fmap; by exists (k, w)).
    pose proof Hks as Hks'. apply Hmeta, starts_with_spec in Hks as [k' ->].
    rewrite meta_short_key_meta in Hk. subst k'. by apply assoc_get_None in E.
Qed.

(** the extractors are total on every response except one: a body that
    is the JSON text [null] makes both of them throw a TypeError, because the
    property access is outside the [try]. *)
Theorem extractors_throw_only_on_null json name :
  ((∃ msg, extractMetaPayload json = Throw msg) ↔ json_parse json = Some VNull) ∧
  ((∃ msg, extractDetailRow json name = Throw msg) ↔ json_parse json = Some VNull).
Proof.
  pose proof (json_parse_not_undef json) as Hu.
  assert (Hok : ∀ p, json_parse json = Some p → p ≠ VNull →
    (∃ out, extractMetaPayload json = Ok out) ∧ ∃ row, extractDetailRow json name = Ok row).
  { intros p Hp Hn. unfold extractMetaPayload, extractDetailRow. rewrite Hp.
    destruct (get_prop_ok #"data" p) as [data ->]; [by destruct p|].
    cbn [mbind outcome_bind]. destruct (is_object data) eqn:Ho; cbn [negb]; [|eauto].
    split; [eauto|].
    destruct (get_prop_ok (domainQueryName name) data) as [block ->]; [by destruct data|].
    cbn [mbind outcome_bind]. destruct block as [| | | | | |[|row l]|]; eauto.
    destruct (is_object row); eauto. }
  destruct (json_parse json) as [p|] eqn:Hp.
  - assert (p = VNull ∨ p ≠ VNull) as [->|Hn] by (destruct p; auto).
    + unfold extractMetaPayload, extractDetailRow. rewrite Hp.
      cbn [get_prop mbind outcome_bind]. split; (split; [done|intros _; by eexists]).
    + destruct (Hok p eq_refl Hn) as [[out ->] [row ->]].
      split; (split; [by intros [? ?]|by intros [= ->]]).
  - unfold extractMetaPayload, extractDetailRow. rewrite Hp.
    split; (split; [by intros [? ?]|done]).
Qed.

(** the row extractor returns exactly the first element of the block the
    detail query named, when the response has one and it is an object: the
    field the query selects and the field the extractor reads are the same. *)
Theorem detail_row_of_response d json o data row rows id :
  json_parse json = Some (VObj o) → obj_get #"data" o = VObj data →
  obj_get (domain_name d) data = VArr (row :: rows) → is_object row = true →
  starts_with (#"{ " ++ domain_name d ++ #"(id: " ++ id ++ #")") (buildDetailQuery d id) = true ∧
  extractDetailRow json (domain_name d) = Ok (Some row).
Proof.
  intros Hjson Hdata Hblock Hrow. split.
  - apply starts_with_spec. exists (#" { " ++ join #" " (field_name <$> fields d) ++ #" } }").
    unfold buildDetailQuery, domainQueryName. change (#") { ") with (#")" ++ #" { "). text_assoc.
  - unfold extractDetailRow. rewrite Hjson. cbn [get_prop mbind outcome_bind]. rewrite Hdata.
    cbn [is_object negb get_prop]. unfold domainQueryName. cbn [mbind outcome_bind].
    by rewrite Hblock, Hrow.
Qed.

(** ** Witnesses *)

Definition sample_meta_response : str :=
  #"{" ++ quoted #"data" ++ #":{" ++ quoted #"meta_city" ++ #":[{" ++ quoted #"value" ++ #":1}]}}".

Lemma meta_payload_by_name_witness :
  ∃ out, extractMetaPayload sample_meta_response = Ok out ∧
    ∀ n, assoc_get n out =
         assoc_get (metaQueryName n) [(#"meta_city", VArr [VObj [(#"value", VNum (Dec 1 0))]])].
Proof.
  apply (meta_payload_by_name sample_meta_response
    [(#"data", VObj [(#"meta_city", VArr [VObj [(#"value", VNum (Dec 1 0))]])])]);
    [vm_compute; reflexivity|vm_compute; reflexivity|apply NoDup_singleton|].
  repeat constructor.
Defined.

Definition sample_detail_response : str :=
  #"{" ++ quoted #"data" ++ #":{" ++ quoted #"person" ++ #":[{" ++ quoted #"id" ++ #":5}]}}".

Lemma detail_row_of_response_witness :
  starts_with (#"{ " ++ #"person" ++ #"(id: " ++ #"5" ++ #")") (buildDetailQuery sample_person #"5") = true ∧
  extractDetailRow sample_detail_response #"person" = Ok (Some (VObj [(#"id", VNum (Dec 5 0))])).
Proof.
  apply (detail_row_of_response sample_person sample_detail_response
    [(#"data", VObj [(#"person", VArr [VObj [(#"id", VNum (Dec 5 0))]])])]
    [(#"person", VArr [VObj [(#"id", VNum (Dec 5 0))]])] _ []);
    vm_compute; reflexivity.
Defined.
