(* ===== verification/DslAst.v ===== *)
(** The syntax trees the parser produces for [.view] and [.domain] files:
    the node types of [packages/oos-dsls-ts/src/generated/ast.ts] that the
    mappers read.

    The parser is generated; a tree is the mappers' input.  A node kind the
    mappers do not know (their [default] branches) is the [Unknown...]
    constructor of each union. *)

From S2P Require Export DslTypes.

#[local] Set Warnings "-register-all".

(** ** Shared nodes *)

Record FieldRef := MkFieldRef { fr_domain : str; fr_field : str }.

(** [detail] is typed as a number or one of four words; the grammar's rule
    delivers strings. *)
Inductive RawDetail := RawNumber (n : jsnum) | RawString (s : str).
Record FormatToken := MkFormatToken { ft_kind : FormatKind; ft_detail : option RawDetail }.

Inductive SpacingValue := SpacingToken (t : SpacingTokenName) | SpacingScale (n : jsnum).

Inductive LayoutMod :=
| Padding (prop : PaddingProp) (value : SpacingValue)
| Margin (prop : MarginProp) (value : SpacingValue)
| Gap (value : SpacingValue)
| Cols (value : jsnum)
| Expand
| ScrollFlag (scroll : str)
| UnknownMod.

Inductive NavModifier :=
| Bind (source : FieldRef)
| As (target : PresentationTargetDef)
| Confirm (message : str)
| UnknownNav.

(** ** Views *)

Inductive ToolbarItem :=
| ToolbarSave
| ToolbarDelete (confirm : option str)
| ToolbarExit
| ToolbarRefresh (caption : option str)
| ToolbarNew (caption target : str) (navMods : option (list NavModifier))
| UnknownToolbar.

Record ViewAction := MkViewAction {
  va_event : ViewActionEventDef; va_target : str; va_navMods : option (list NavModifier) }.

Inductive ColumnModifier :=
| ColumnWidth (value : jsnum)
| ColumnFormat (fmt : FormatToken)
| UnknownColumnMod.

Record Column := MkColumn {
  col_field : FieldRef; col_caption : str; col_mods : list ColumnModifier }.

Record Table := MkTable {
  tbl_rowSource : FieldRef; tbl_actions : list ViewAction; tbl_columns : list Column }.

Inductive WidgetModifier :=
| WidgetReadOnly
| WidgetFocus
| WidgetExpand
| WidgetPlaceholder (value : str)
| WidgetFormat (fmt : FormatToken)
| WidgetMin (value : jsnum)
| WidgetMax (value : jsnum)
| WidgetStep (value : jsnum)
| WidgetLayout (m : LayoutMod).

Record Widget := MkWidget {
  wid_kind : WidgetKindDef; wid_caption : option str; wid_bind : FieldRef;
  wid_mods : list WidgetModifier }.

Record Button := MkButton {
  btn_caption : str; btn_actionRef : option str; btn_mods : option (list LayoutMod) }.
Record LinkWidget := MkLink {
  lnk_caption : str; lnk_href : str; lnk_mods : option (list LayoutMod) }.

Inductive IconModifier := IconSize (value : jsnum) | IconLayout (m : LayoutMod).
Record IconWidget := MkIcon { icn_name : str; icn_mods : list IconModifier }.

Record RichTextSpan := MkSpan { spn_style : RichTextStyle; spn_text : str }.
Record RichText := MkRichText { rt_spans : list RichTextSpan }.

Inductive BodyElement :=
| Section_ (caption : option str) (mods : option (list LayoutMod)) (body : list BodyElement)
| Stack (mods : option (list LayoutMod)) (body : list BodyElement)
| Row (mods : option (list LayoutMod)) (body : list BodyElement)
| Grid (cols : jsnum) (mods : option (list LayoutMod)) (body : list BodyElement)
| Tabs (mods : option (list LayoutMod)) (tabs : list Tab)
| Accordion (mods : option (list LayoutMod)) (items : list AccordionItem)
| Card (caption : option str) (mods : option (list LayoutMod)) (body : list BodyElement)
| TableNode (t : Table)
| Divider
| Separator
| WidgetNode (w : Widget)
| ButtonNode (b : Button)
| LinkNode (l : LinkWidget)
| IconNode (i : IconWidget)
| RichTextNode (r : RichText)
| UnknownElement
with Tab := MkTab (caption : str) (body : list BodyElement)
with AccordionItem := MkAccordionItem (caption : str) (open : bool) (body : list BodyElement).

Record DomainBinding := MkDomainBinding { db_name : str; db_alias : option str }.
Record AutoRefresh := MkAutoRefreshNode { ar_domain : str; ar_event : str }.

Record ViewDecl := MkViewDecl {
  vd_name : str;
  vd_title : str;
  vd_domains : list DomainBinding;
  vd_default : bool;
  vd_autoRefresh : option AutoRefresh;
  vd_toolbar : list ToolbarItem;
  vd_body : list BodyElement
}.

(** ** Domains *)

Inductive FieldModifier :=
| ReadOnly
| Filterable
| OptionsRef (refText : option str)
| UnknownFieldMod.

Inductive ExampleValue := StringValue (s : str) | NumberValue (n : jsnum).
Record Example_ := MkExample {
  ex_op : ExampleOpDef; ex_value : ExampleValue; ex_description : str }.

Record Field := MkField {
  fld_name : str; fld_type : FieldTypeDef; fld_modifiers : list FieldModifier;
  fld_examples : list Example_ }.

Record Permission := MkPermission { prm_role : str; prm_actions : list PermissionActionDef }.
Record Relation := MkRelation {
  rel_name : str; rel_kind : RelationKindDef; rel_target : str;
  rel_localField : str; rel_foreignField : str }.
Record Meta := MkMeta {
  mta_name : str; mta_table : str; mta_valueField : str; mta_labelField : str;
  mta_orderBy : option str; mta_dsn : option str }.
Record AiHint := MkAiHint { ai_name : str; ai_body : str }.
Record AliasList := MkAliasList { al_values : list str }.

Inductive DomainMember :=
| MField (f : Field)
| MPermission (p : Permission)
| MRelation (r : Relation)
| MMeta (m : Meta)
| MAiHint (h : AiHint)
| MAliasList (a : AliasList)
| UnknownMember.

Record DomainDecl := MkDomainDecl {
  dd_name : str; dd_source : str; dd_dsn : str; dd_members : list DomainMember }.

(** ** Induction over bodies *)

Section body_ind.
Context (P : BodyElement → Prop).
Context
  (Hsection : ∀ c m b, Forall P b → P (Section_ c m b))
  (Hstack : ∀ m b, Forall P b → P (Stack m b))
  (Hrow : ∀ m b, Forall P b → P (Row m b))
  (Hgrid : ∀ c m b, Forall P b → P (Grid c m b))
  (Htabs : ∀ m ts, Forall (λ t, match t with MkTab _ b => Forall P b end) ts → P (Tabs m ts))
  (Haccordion : ∀ m its,
     Forall (λ i, match i with MkAccordionItem _ _ b => Forall P b end) its → P (Accordion m its))
  (Hcard : ∀ c m b, Forall P b → P (Card c m b))
  (Htable : ∀ t, P (TableNode t)) (Hdivider : P Divider) (Hseparator : P Separator)
  (Hwidget : ∀ w, P (WidgetNode w)) (Hbutton : ∀ b, P (ButtonNode b))
  (Hlink : ∀ l, P (LinkNode l)) (Hicon : ∀ i, P (IconNode i))
  (Hrich : ∀ r, P (RichTextNode r)) (Hunknown : P UnknownElement).

Fixpoint BodyElement_deep_ind (e : BodyElement) : P e :=
  let all := fix all (l : list BodyElement) : Forall P l :=
    match l with
    | [] => Forall_nil_2 P
    | x :: l => Forall_cons_2 P x l (BodyElement_deep_ind x) (all l)
    end in
  match e with
  | Section_ c m b => Hsection c m b (all b)
  | Stack m b => Hstack m b (all b)
  | Row m b => Hrow m b (all b)
  | Grid c m b => Hgrid c m b (all b)
  | Tabs m ts => Htabs m ts
      ((fix tabs (l : list Tab) : Forall (λ t, match t with MkTab _ b => Forall P b end) l :=
        match l with
        | [] => Forall_nil_2 _
        | t :: l => Forall_cons_2 _ t l
            (match t return match t with MkTab _ b => Forall P b end with
             | MkTab _ b => all b end) (tabs l)
        end) ts)
  | Accordion m its => Haccordion m its
      ((fix items (l : list AccordionItem) :
          Forall (λ i, match i with MkAccordionItem _ _ b => Forall P b end) l :=
        match l with
        | [] => Forall_nil_2 _
        | i :: l => Forall_cons_2 _ i l
            (match i return match i with MkAccordionItem _ _ b => Forall P b end with
             | MkAccordionItem _ _ b => all b end) (items l)
        end) its)
  | Card c m b => Hcard c m b (all b)
  | TableNode t => Htable t
  | Divider => Hdivider
  | Separator => Hseparator
  | WidgetNode w => Hwidget w
  | ButtonNode b => Hbutton b
  | LinkNode l => Hlink l
  | IconNode i => Hicon i
  | RichTextNode r => Hrich r
  | UnknownElement => Hunknown
  end.
End body_ind.
