(* ===== verification/DslMapper.v ===== *)
(** From syntax trees to the runtime definitions:
    [packages/oos-dsls-ts/src/mapper/{common,view,view-elements,domain}.ts]. *)

From S2P Require Export DslAst.

(** * Definitions *)

(** ** [mapper/common.ts] *)

Definition mapFieldRef (ref : FieldRef) : FieldRefDef := MkFieldRefDef (fr_domain ref) (fr_field ref).

(** A string detail, as the type it is cast to. *)
Definition detail_of_string (s : str) : FormatDetail :=
  if decide (s = #"short") then DetailStyle Short
  else if decide (s = #"medium") then DetailStyle Medium
  else if decide (s = #"long") then DetailStyle Long
  else if decide (s = #"full") then DetailStyle Full
  else DetailOther s.

Definition mapFormat (token : FormatToken) : FormatDef :=
  MkFormatDef (ft_kind token)
    (match ft_detail token with
     | Some (RawNumber n) => Some (DetailNumber n)
     | Some (RawString raw) =>
       if all_digits raw then Some (DetailNumber (num_of_Z (Z.of_N (digits_value raw))))
       else Some (detail_of_string raw)
     | None => None
     end).

Definition mapSpacing (value : SpacingValue) : SpacingDef :=
  match value with
  | SpacingToken t => SpacingTokenDef t
  | SpacingScale n => SpacingScaleDef n
  end.

Definition mapLayoutMod (mod_ : LayoutMod) : option LayoutModDef :=
  match mod_ with
  | Padding prop value => Some (PaddingDef prop (mapSpacing value))
  | Margin prop value => Some (MarginDef prop (mapSpacing value))
  | Gap value => Some (GapDef (mapSpacing value))
  | Cols value => Some (ColsDef value)
  | Expand => Some ExpandDef
  | ScrollFlag scroll => Some (ScrollDef (bool_decide (scroll = #"true")))
  | UnknownMod => None
  end.

Definition mapLayoutMods (mods : option (list LayoutMod)) : list LayoutModDef :=
  match mods with
  | None => []
  | Some mods => filter_map mapLayoutMod mods
  end.

(** ** [mapper/view-elements.ts] *)

Definition mapNavModifier (m : NavModifier) : option NavModifierDef :=
  match m with
  | Bind source => Some (BindDef (mapFieldRef source))
  | As target => Some (AsDef target)
  | Confirm message => Some (ConfirmDef message)
  | UnknownNav => None
  end.

Definition mapNavModifiers (mods : option (list NavModifier)) : list NavModifierDef :=
  match mods with
  | None => []
  | Some mods => filter_map mapNavModifier mods
  end.

Definition mapToolbarItem (item : ToolbarItem) : option ToolbarItemDef :=
  match item with
  | ToolbarSave => Some SaveItem
  | ToolbarDelete confirm => Some (DeleteItem confirm)
  | ToolbarExit => Some ExitItem
  | ToolbarRefresh caption => Some (RefreshItem (default #"Aktualisieren" caption))
  | ToolbarNew caption target navMods => Some (NewItem caption target (mapNavModifiers navMods))
  | UnknownToolbar => None
  end.

Definition mapViewAction (node : ViewAction) : ViewActionDef :=
  MkViewActionDef (va_event node) (va_target node) (mapNavModifiers (va_navMods node)).

Definition column_step (acc : option jsnum * option FormatDef) (mod_ : ColumnModifier)
    : option jsnum * option FormatDef :=
  match mod_ with
  | ColumnWidth value => (Some value, acc.2)
  | ColumnFormat fmt => (acc.1, Some (mapFormat fmt))
  | UnknownColumnMod => acc
  end.

Definition mapColumn (node : Column) : ColumnDef :=
  let '(width, format) := foldl column_step (None, None) (col_mods node) in
  MkColumnDef (mapFieldRef (col_field node)) (col_caption node) width format.

Definition mapTable (node : Table) : TableDef :=
  MkTableDef (mapFieldRef (tbl_rowSource node))
    (map mapViewAction (tbl_actions node)) (map mapColumn (tbl_columns node)).

(** One case of the switch over a widget's modifiers: the definition so far,
    and the layout modifiers set aside. *)
Definition widget_step (acc : WidgetDef * list LayoutMod) (mod_ : WidgetModifier)
    : WidgetDef * list LayoutMod :=
  let '(def, layoutMods) := acc in
  let upd ro fo ex ph fm mi ma st :=
    MkWidgetDef (widget def) (widget_caption def) (widget_bind def)
      ro fo ex ph fm mi ma st (widget_layout def) in
  let '(MkWidgetDef _ _ _ ro fo ex ph fm mi ma st _) := def in
  match mod_ with
  | WidgetReadOnly => (upd true fo ex ph fm mi ma st, layoutMods)
  | WidgetFocus => (upd ro true ex ph fm mi ma st, layoutMods)
  | WidgetExpand => (upd ro fo true ph fm mi ma st, layoutMods)
  | WidgetPlaceholder value => (upd ro fo ex (Some value) fm mi ma st, layoutMods)
  | WidgetFormat fmt => (upd ro fo ex ph (Some (mapFormat fmt)) mi ma st, layoutMods)
  | WidgetMin value => (upd ro fo ex ph fm (Some value) ma st, layoutMods)
  | WidgetMax value => (upd ro fo ex ph fm mi (Some value) st, layoutMods)
  | WidgetStep value => (upd ro fo ex ph fm mi ma (Some value), layoutMods)
  | WidgetLayout m => (def, layoutMods ++ [m])
  end.

Definition mapWidget (node : Widget) : WidgetDef :=
  let init := MkWidgetDef (wid_kind node) (wid_caption node) (mapFieldRef (wid_bind node))
                false false false None None None None None [] in
  let '(def, layoutMods) := foldl widget_step (init, []) (wid_mods node) in
  MkWidgetDef (widget def) (widget_caption def) (widget_bind def) (widget_readOnly def)
    (widget_focus def) (widget_expand def) (widget_placeholder def) (widget_format def)
    (widget_min def) (widget_max def) (widget_step_ def) (mapLayoutMods (Some layoutMods)).

Definition mapButton (node : Button) : ButtonDef :=
  MkButtonDef (btn_caption node) (btn_actionRef node) (mapLayoutMods (btn_mods node)).

Definition mapLink (node : LinkWidget) : LinkDef :=
  MkLinkDef (lnk_caption node) (lnk_href node) (mapLayoutMods (lnk_mods node)).

Definition icon_step (acc : option jsnum * list LayoutMod) (mod_ : IconModifier)
    : option jsnum * list LayoutMod :=
  match mod_ with
  | IconSize value => (Some value, acc.2)
  | IconLayout m => (acc.1, acc.2 ++ [m])
  end.

Definition mapIcon (node : IconWidget) : IconDef :=
  let '(size, layoutMods) := foldl icon_step (None, []) (icn_mods node) in
  MkIconDef (icn_name node) size (mapLayoutMods (Some layoutMods)).

Definition mapRichText (node : RichText) : RichTextDef :=
  MkRichTextDef (map (λ s, MkRichTextSpanDef (spn_style s) (spn_text s)) (rt_spans node)).

(** [mapBodyElement]; [filter_map mapBodyElement] is the loop of
    [mapBodyElements]. *)
Fixpoint mapBodyElement (node : BodyElement) : option BodyElementDef :=
  match node with
  | Section_ caption mods body =>
    Some (SectionDef caption (mapLayoutMods mods) (filter_map mapBodyElement body))
  | Stack mods body => Some (StackDef (mapLayoutMods mods) (filter_map mapBodyElement body))
  | Row mods body => Some (RowDef (mapLayoutMods mods) (filter_map mapBodyElement body))
  | Grid cols mods body =>
    Some (GridDef cols (mapLayoutMods mods) (filter_map mapBodyElement body))
  | Tabs mods tabs => Some (TabsDef (mapLayoutMods mods) (map mapTabPane tabs))
  | Accordion mods items => Some (AccordionDef (mapLayoutMods mods) (map mapAccordionItem items))
  | Card caption mods body =>
    Some (CardDef caption (mapLayoutMods mods) (filter_map mapBodyElement body))
  | TableNode t => Some (TableElement (mapTable t))
  | Divider => Some DividerDef
  | Separator => Some SeparatorDef
  | WidgetNode w => Some (WidgetElement (mapWidget w))
  | ButtonNode b => Some (ButtonElement (mapButton b))
  | LinkNode l => Some (LinkElement (mapLink l))
  | IconNode i => Some (IconElement (mapIcon i))
  | RichTextNode r => Some (RichTextElement (mapRichText r))
  | UnknownElement => None
  end
with mapTabPane (node : Tab) : TabPaneDef :=
  match node with
  | MkTab caption body => MkTabPaneDef caption (filter_map mapBodyElement body)
  end
with mapAccordionItem (node : AccordionItem) : AccordionItemDef :=
  match node with
  | MkAccordionItem caption open body =>
    MkAccordionItemDef caption open (filter_map mapBodyElement body)
  end.

Definition mapBodyElements (nodes : option (list BodyElement)) : list BodyElementDef :=
  match nodes with
  | None => []
  | Some nodes => filter_map mapBodyElement nodes
  end.

(** ** [mapper/view.ts] *)

Definition mapBinding (idx : nat) (b : DomainBinding) : ViewDomainBindingDef :=
  MkBinding (db_name b) (default (db_name b) (db_alias b)) (bool_decide (idx = 0)).

Definition mapView (v : ViewDecl) : ViewDef :=
  MkViewDef (vd_name v) (vd_title v) (imap mapBinding (vd_domains v)) (vd_default v)
    (match vd_autoRefresh v with
     | Some a => Some (MkAutoRefresh (ar_domain a) (ar_event a))
     | None => None
     end)
    (filter_map mapToolbarItem (vd_toolbar v))
    (mapBodyElements (Some (vd_body v))).

(** ** [mapper/domain.ts] *)

Definition mapExample (ex : Example_) : ExampleDef :=
  match ex_value ex with
  | StringValue s => MkExampleDef (ex_op ex) s true (ex_description ex)
  | NumberValue n => MkExampleDef (ex_op ex) (num_to_string n) false (ex_description ex)
  end.

(** The modifier loop of [mapField]: [readOnly], [filterable], [optionsRef]. *)
Definition modifier_step (acc : bool * bool * option str) (m : FieldModifier)
    : bool * bool * option str :=
  let '(ro, fi, opt) := acc in
  match m with
  | ReadOnly => (true, fi, opt)
  | Filterable => (ro, true, opt)
  | OptionsRef refText => (ro, fi, refText)
  | UnknownFieldMod => acc
  end.

Definition mapField (f : Field) : DomainFieldDef :=
  let '(ro, fi, opt) := foldl modifier_step (false, false, None) (fld_modifiers f) in
  MkDomainFieldDef (fld_name f) (fld_type f) ro fi opt (map mapExample (fld_examples f)).

Definition mapPermission (p : Permission) : PermissionDef :=
  MkPermissionDef (prm_role p) (prm_actions p).

Definition mapRelation (r : Relation) : RelationDef :=
  MkRelationDef (rel_name r) (rel_kind r) (rel_target r) (rel_localField r) (rel_foreignField r).

Definition mapMeta (m : Meta) : MetaDef :=
  MkMetaDef (mta_name m) (mta_table m) (mta_valueField m) (mta_labelField m)
    (mta_orderBy m) (mta_dsn m).

Definition mapAiHint (h : AiHint) : AiHintDef := MkAiHintDef (ai_name h) (ai_body h).

(** [values] trimmed, blanks dropped. *)
Definition trimmed_values (values : list str) : list str :=
  filter_map (λ v, let trimmed := trim v in
                   if decide (trimmed = []) then None else Some trimmed) values.

(** One case of the switch over the members, on the domain built so far. *)
Definition member_step (d : DomainDef) (member : DomainMember) : DomainDef :=
  let '(MkDomainDef name source dsn ps fs rs ms hs al) := d in
  match member with
  | MField f => MkDomainDef name source dsn ps (fs ++ [mapField f]) rs ms hs al
  | MPermission p => MkDomainDef name source dsn (ps ++ [mapPermission p]) fs rs ms hs al
  | MRelation r => MkDomainDef name source dsn ps fs (rs ++ [mapRelation r]) ms hs al
  | MMeta m => MkDomainDef name source dsn ps fs rs (ms ++ [mapMeta m]) hs al
  | MAiHint h => MkDomainDef name source dsn ps fs rs ms (hs ++ [mapAiHint h]) al
  | MAliasList a => MkDomainDef name source dsn ps fs rs ms hs (al ++ trimmed_values (al_values a))
  | UnknownMember => d
  end.

Definition mapDomain (decl : DomainDecl) : DomainDef :=
  foldl member_step
    (MkDomainDef (dd_name decl) (dd_source decl) (dd_dsn decl) [] [] [] [] [] [])
    (dd_members decl).

(** * Lemmas *)

(** ** Loops over modifiers *)

(** The last value a modifier list gives, if any. *)
Definition last_given {A B} (sel : A → option B) (l : list A) : option B := last (filter_map sel l).

Lemma last_given_snoc {A B} (sel : A → option B) l x :
  last_given sel (l ++ [x]) = match sel x with Some y => Some y | None => last_given sel l end.
Proof.
  unfold last_given. rewrite filter_map_app. cbn [filter_map].
  destruct (sel x); [apply last_snoc|by rewrite app_nil_r].
Qed.

Definition sel_refText (m : FieldModifier) : option (option str) :=
  match m with OptionsRef r => Some r | _ => None end.

#[export] Instance field_modifier_eq_dec : EqDecision FieldModifier.
Proof. solve_decision. Defined.

Lemma bool_decide_snoc {A} `{EqDecision A} (x y : A) l :
  bool_decide (x ∈ l ++ [y]) = bool_decide (x ∈ l) || bool_decide (x = y).
Proof.
  rewrite <- bool_decide_or. apply bool_decide_ext. by rewrite elem_of_app, list_elem_of_singleton.
Qed.

Lemma modifier_loop (ms : list FieldModifier) :
  foldl modifier_step (false, false, None) ms =
  (bool_decide (ReadOnly ∈ ms), bool_decide (Filterable ∈ ms),
   default None (last_given sel_refText ms)).
Proof.
  induction ms as [|m ms IH] using rev_ind; [done|].
  rewrite foldl_snoc, IH, !bool_decide_snoc, last_given_snoc.
  destruct m; cbn [modifier_step sel_refText default id]; f_equal; try f_equal;
    rewrite ?bool_decide_eq_true_2 by done;
    rewrite ?bool_decide_eq_false_2 by done; by rewrite ?orb_true_r, ?orb_false_r.
Qed.

Definition sel_field (m : DomainMember) : option Field :=
  match m with MField f => Some f | _ => None end.
Definition sel_permission (m : DomainMember) : option Permission :=
  match m with MPermission p => Some p | _ => None end.
Definition sel_relation (m : DomainMember) : option Relation :=
  match m with MRelation r => Some r | _ => None end.
Definition sel_meta (m : DomainMember) : option Meta :=
  match m with MMeta m => Some m | _ => None end.
Definition sel_hint (m : DomainMember) : option AiHint :=
  match m with MAiHint h => Some h | _ => None end.
Definition sel_aliases (m : DomainMember) : option AliasList :=
  match m with MAliasList a => Some a | _ => None end.

(** What [mapDomain] returns, bucket by bucket. *)
Definition domain_buckets (decl : DomainDecl) : DomainDef :=
  let ms := dd_members decl in
  MkDomainDef (dd_name decl) (dd_source decl) (dd_dsn decl)
    (mapPermission <$> filter_map sel_permission ms)
    (mapField <$> filter_map sel_field ms)
    (mapRelation <$> filter_map sel_relation ms)
    (mapMeta <$> filter_map sel_meta ms)
    (mapAiHint <$> filter_map sel_hint ms)
    (flat_map (trimmed_values ∘ al_values) (filter_map sel_aliases ms)).

Lemma mapDomain_buckets_loop decl : mapDomain decl = domain_buckets decl.
Proof.
  unfold mapDomain, domain_buckets. destruct decl as [name source dsn ms].
  cbn [dd_name dd_source dd_dsn dd_members].
  induction ms as [|m ms IH] using rev_ind; [done|].
  rewrite foldl_snoc, IH, !filter_map_app, !fmap_app, flat_map_app.
  destruct m; cbn [member_step filter_map sel_permission sel_field sel_relation sel_meta
    sel_hint sel_aliases fmap list_fmap flat_map]; by rewrite ?app_nil_r.
Qed.

Lemma trimmed_values_clean vs a : a ∈ trimmed_values vs → a ≠ [] ∧ trim a = a.
Proof.
  unfold trimmed_values. induction vs as [|v vs IH]; cbn [filter_map]; [by intros ?%elem_of_nil|].
  destruct (decide (trim v = [])) as [|Hv]; [done|].
  intros [->|?]%elem_of_cons; [|by apply IH]. split; [done|apply trim_idemp].
Qed.

(** * Theorems *)

(** members of a domain fall into their buckets in declaration order,
    however the kinds are interleaved and whatever unknown members stand
    between them; the aliases of all clauses are concatenated, trimmed and
    never blank. *)
Theorem mapDomain_buckets decl :
  mapDomain decl = domain_buckets decl ∧
  Forall (λ a, a ≠ [] ∧ trim a = a) (domain_aliases (mapDomain decl)).
Proof.
  split; [apply mapDomain_buckets_loop|]. rewrite mapDomain_buckets_loop.
  cbn [domain_buckets domain_aliases]. apply Forall_forall. intros a Ha.
  apply list_elem_of_In, in_flat_map in Ha as (al & _ & Ha).
  apply list_elem_of_In in Ha. by eapply trimmed_values_clean.
Qed.

(** a field is read-only (filterable) exactly when the modifier occurs,
    wherever it stands among the others; the last options reference wins. *)
Theorem mapField_modifiers f :
  (readOnly (mapField f) = true ↔ ReadOnly ∈ fld_modifiers f) ∧
  (filterable (mapField f) = true ↔ Filterable ∈ fld_modifiers f) ∧
  optionsRef (mapField f) = default None (last_given sel_refText (fld_modifiers f)).
Proof.
  unfold mapField. rewrite modifier_loop. cbn [readOnly filterable optionsRef].
  by rewrite !bool_decide_eq_true.
Qed.

Definition sel_layout (m : WidgetModifier) : option LayoutMod :=
  match m with WidgetLayout l => Some l | _ => None end.
Definition sel_min (m : WidgetModifier) : option jsnum :=
  match m with WidgetMin v => Some v | _ => None end.
Definition sel_max (m : WidgetModifier) : option jsnum :=
  match m with WidgetMax v => Some v | _ => None end.
Definition sel_step (m : WidgetModifier) : option jsnum :=
  match m with WidgetStep v => Some v | _ => None end.
Definition sel_placeholder (m : WidgetModifier) : option str :=
  match m with WidgetPlaceholder v => Some v | _ => None end.
Definition sel_format (m : WidgetModifier) : option FormatToken :=
  match m with WidgetFormat f => Some f | _ => None end.
Definition is_flag (flag m : WidgetModifier) : bool :=
  match flag, m with
  | WidgetReadOnly, WidgetReadOnly | WidgetFocus, WidgetFocus | WidgetExpand, WidgetExpand => true
  | _, _ => false
  end.

(** The widget definition and the layout modifiers, modifier by modifier. *)
Lemma widget_loop kind caption bind (ms : list WidgetModifier) :
  foldl widget_step (MkWidgetDef kind caption bind false false false None None None None None [], [])
    ms =
  (MkWidgetDef kind caption bind
     (existsb (is_flag WidgetReadOnly) ms) (existsb (is_flag WidgetFocus) ms)
     (existsb (is_flag WidgetExpand) ms) (last_given sel_placeholder ms)
     (mapFormat <$> last_given sel_format ms)
     (last_given sel_min ms) (last_given sel_max ms) (last_given sel_step ms) [],
   filter_map sel_layout ms).
Proof.
  induction ms as [|m ms IH] using rev_ind; [done|].
  rewrite foldl_snoc, IH, !existsb_app, !last_given_snoc, filter_map_app.
  destruct m; cbn [widget_step existsb is_flag sel_placeholder sel_format sel_min sel_max sel_step
    sel_layout filter_map fmap option_fmap option_map];
    rewrite ?orb_false_r, ?orb_true_r, ?app_nil_r; reflexivity.
Qed.

(** a widget's modifiers are bucketed without interfering: each flag is
    set exactly when its modifier occurs, the last minimum, maximum, step,
    placeholder and format win, and the layout modifiers keep their order
    (the widget's [expand] is not the layout's). *)
Theorem mapWidget_modifiers node :
  let def := mapWidget node in
  let ms := wid_mods node in
  widget_readOnly def = existsb (is_flag WidgetReadOnly) ms ∧
  widget_focus def = existsb (is_flag WidgetFocus) ms ∧
  widget_expand def = existsb (is_flag WidgetExpand) ms ∧
  widget_placeholder def = last_given sel_placeholder ms ∧
  widget_format def = mapFormat <$> last_given sel_format ms ∧
  widget_min def = last_given sel_min ms ∧
  widget_max def = last_given sel_max ms ∧
  widget_step_ def = last_given sel_step ms ∧
  widget_layout def = mapLayoutMods (Some (filter_map sel_layout ms)) ∧
  widget_bind def = mapFieldRef (wid_bind node).
Proof. cbv zeta. unfold mapWidget. by rewrite widget_loop. Qed.
