(* ===== verification/MapperSpec.v ===== *)
(** What it means that a runtime view says the same as its syntax tree, stated kind by kind without the functions of
    [DslMapper], and that [mapView] returns just that view. *)

From S2P Require Export DslMapper.

#[local] Set Warnings "-register-all".

(** * Specification *)

(** The images of a list, in order; unknown elements have none. *)
Inductive images {A B} (unknown : A → Prop) (R : A → B → Prop) : list A → list B → Prop :=
| images_nil : images unknown R [] []
| images_unknown a l ds : unknown a → images unknown R l ds → images unknown R (a :: l) ds
| images_known a d l ds : R a d → images unknown R l ds → images unknown R (a :: l) (d :: ds).

Definition same_ref (r : FieldRef) (r' : FieldRefDef) : Prop := ref_domain r' = fr_domain r ∧ ref_field r' = fr_field r.

Inductive same_detail : RawDetail → FormatDetail → Prop :=
| same_number n : same_detail (RawNumber n) (DetailNumber n)
| same_digits s : all_digits s = true → same_detail (RawString s) (DetailNumber (num_of_Z (Z.of_N (digits_value s))))
| same_short : same_detail (RawString #"short") (DetailStyle Short)
| same_medium : same_detail (RawString #"medium") (DetailStyle Medium)
| same_long : same_detail (RawString #"long") (DetailStyle Long)
| same_full : same_detail (RawString #"full") (DetailStyle Full)
| same_other s :
  all_digits s = false → s ∉ [ #"short"; #"medium"; #"long"; #"full"] → same_detail (RawString s) (DetailOther s).
Definition same_format (t : FormatToken) (d : FormatDef) : Prop :=
  fmt_kind d = ft_kind t ∧ option_Forall2 same_detail (ft_detail t) (fmt_detail d).

Inductive same_spacing : SpacingValue → SpacingDef → Prop :=
| same_token t : same_spacing (SpacingToken t) (SpacingTokenDef t)
| same_scale n : same_spacing (SpacingScale n) (SpacingScaleDef n).
Inductive same_mod : LayoutMod → LayoutModDef → Prop :=
| same_padding p v v' : same_spacing v v' → same_mod (Padding p v) (PaddingDef p v')
| same_margin p v v' : same_spacing v v' → same_mod (Margin p v) (MarginDef p v')
| same_gap v v' : same_spacing v v' → same_mod (Gap v) (GapDef v')
| same_cols n : same_mod (Cols n) (ColsDef n)
| same_expand : same_mod Expand ExpandDef
| same_scroll s b : (b = true ↔ s = #"true") → same_mod (ScrollFlag s) (ScrollDef b).
Definition same_mods (ms : list LayoutMod) (ds : list LayoutModDef) : Prop := images (λ m, m = UnknownMod) same_mod ms ds.

Inductive same_nav : NavModifier → NavModifierDef → Prop :=
| same_bind r r' : same_ref r r' → same_nav (Bind r) (BindDef r')
| same_as t : same_nav (As t) (AsDef t)
| same_confirm s : same_nav (Confirm s) (ConfirmDef s).
Definition same_navs (ms : option (list NavModifier)) (ds : list NavModifierDef) : Prop :=
  images (λ m, m = UnknownNav) same_nav (default [] ms) ds.

Inductive same_toolbar : ToolbarItem → ToolbarItemDef → Prop :=
| same_save : same_toolbar ToolbarSave SaveItem
| same_delete c : same_toolbar (ToolbarDelete c) (DeleteItem c)
| same_exit : same_toolbar ToolbarExit ExitItem
| same_refresh c : same_toolbar (ToolbarRefresh (Some c)) (RefreshItem c)
| same_refresh_unnamed : same_toolbar (ToolbarRefresh None) (RefreshItem #"Aktualisieren")
| same_new c t ms ds : same_navs ms ds → same_toolbar (ToolbarNew c t ms) (NewItem c t ds).

Definition same_action (a : ViewAction) (d : ViewActionDef) : Prop :=
  action_event d = va_event a ∧ action_target d = va_target a ∧ same_navs (va_navMods a) (action_navMods d).
Definition sel_width (m : ColumnModifier) : option jsnum := match m with ColumnWidth n => Some n | _ => None end.
Definition sel_column_format (m : ColumnModifier) : option FormatToken := match m with ColumnFormat f => Some f | _ => None end.
(** Of modifiers given more than once the last counts. *)
Definition same_column (c : Column) (d : ColumnDef) : Prop :=
  same_ref (col_field c) (column_field d) ∧ column_caption d = col_caption c ∧
  column_width d = last_given sel_width (col_mods c) ∧
  option_Forall2 same_format (last_given sel_column_format (col_mods c)) (column_format d).
Definition same_table (t : Table) (d : TableDef) : Prop :=
  same_ref (tbl_rowSource t) (rowSource d) ∧ Forall2 same_action (tbl_actions t) (table_actions d) ∧
  Forall2 same_column (tbl_columns t) (table_columns d).

(** The widget's own [expand] is a flag, that of its layout a modifier. *)
Definition same_widget (w : Widget) (d : WidgetDef) : Prop :=
  let ms := wid_mods w in
  widget d = wid_kind w ∧ widget_caption d = wid_caption w ∧ same_ref (wid_bind w) (widget_bind d) ∧
  (widget_readOnly d = true ↔ WidgetReadOnly ∈ ms) ∧ (widget_focus d = true ↔ WidgetFocus ∈ ms) ∧
  (widget_expand d = true ↔ WidgetExpand ∈ ms) ∧
  widget_placeholder d = last_given sel_placeholder ms ∧ option_Forall2 same_format (last_given sel_format ms) (widget_format d) ∧
  widget_min d = last_given sel_min ms ∧ widget_max d = last_given sel_max ms ∧ widget_step_ d = last_given sel_step ms ∧
  same_mods (filter_map sel_layout ms) (widget_layout d).
Definition sel_size (m : IconModifier) : option jsnum := match m with IconSize n => Some n | _ => None end.
Definition sel_icon_layout (m : IconModifier) : option LayoutMod := match m with IconLayout m => Some m | _ => None end.
Definition same_icon (i : IconWidget) (d : IconDef) : Prop :=
  icon_name d = icn_name i ∧ icon_size d = last_given sel_size (icn_mods i) ∧
  same_mods (filter_map sel_icon_layout (icn_mods i)) (icon_layout d).
Definition same_span (s : RichTextSpan) (d : RichTextSpanDef) : Prop := span_style d = spn_style s ∧ span_text d = spn_text s.

Inductive same_element : BodyElement → BodyElementDef → Prop :=
| same_section c m b m' b' :
  same_mods (default [] m) m' → images (λ e, e = UnknownElement) same_element b b' → same_element (Section_ c m b) (SectionDef c m' b')
| same_stack m b m' b' :
  same_mods (default [] m) m' → images (λ e, e = UnknownElement) same_element b b' → same_element (Stack m b) (StackDef m' b')
| same_row m b m' b' :
  same_mods (default [] m) m' → images (λ e, e = UnknownElement) same_element b b' → same_element (Row m b) (RowDef m' b')
| same_grid n m b m' b' :
  same_mods (default [] m) m' → images (λ e, e = UnknownElement) same_element b b' → same_element (Grid n m b) (GridDef n m' b')
| same_card c m b m' b' :
  same_mods (default [] m) m' → images (λ e, e = UnknownElement) same_element b b' → same_element (Card c m b) (CardDef c m' b')
| same_tabs m ts m' ts' : same_mods (default [] m) m' → Forall2 same_pane ts ts' → same_element (Tabs m ts) (TabsDef m' ts')
| same_accordion m is_ m' is' :
  same_mods (default [] m) m' → Forall2 same_item is_ is' → same_element (Accordion m is_) (AccordionDef m' is')
| same_table_element t t' : same_table t t' → same_element (TableNode t) (TableElement t')
| same_divider : same_element Divider DividerDef
| same_separator : same_element Separator SeparatorDef
| same_widget_element w w' : same_widget w w' → same_element (WidgetNode w) (WidgetElement w')
| same_button c a m m' :
  same_mods (default [] m) m' → same_element (ButtonNode (MkButton c a m)) (ButtonElement (MkButtonDef c a m'))
| same_link c h m m' :
  same_mods (default [] m) m' → same_element (LinkNode (MkLink c h m)) (LinkElement (MkLinkDef c h m'))
| same_icon_element i i' : same_icon i i' → same_element (IconNode i) (IconElement i')
| same_richtext ss ss' : Forall2 same_span ss ss' → same_element (RichTextNode (MkRichText ss)) (RichTextElement (MkRichTextDef ss'))
with same_pane : Tab → TabPaneDef → Prop :=
| same_pane_intro c b b' : images (λ e, e = UnknownElement) same_element b b' → same_pane (MkTab c b) (MkTabPaneDef c b')
with same_item : AccordionItem → AccordionItemDef → Prop :=
| same_item_intro c o b b' :
  images (λ e, e = UnknownElement) same_element b b' → same_item (MkAccordionItem c o b) (MkAccordionItemDef c o b').

(** The first domain is the primary one; without an alias a domain goes by its name. *)
Definition same_binding (i : nat) (b : DomainBinding) (d : ViewDomainBindingDef) : Prop :=
  binding_name d = db_name b ∧ binding_alias d = default (db_name b) (db_alias b) ∧ (binding_primary d = true ↔ i = 0).
Definition same_refresh_rule (a : AutoRefresh) (d : AutoRefreshDef) : Prop :=
  refresh_domain d = ar_domain a ∧ refresh_event d = ar_event a.
Definition same_view (v : ViewDecl) (d : ViewDef) : Prop :=
  view_name d = vd_name v ∧ view_title d = vd_title v ∧ view_default d = vd_default v ∧
  length (view_domains d) = length (vd_domains v) ∧
  (∀ i b b', vd_domains v !! i = Some b → view_domains d !! i = Some b' → same_binding i b b') ∧
  option_Forall2 same_refresh_rule (vd_autoRefresh v) (view_autoRefresh d) ∧
  images (λ t, t = UnknownToolbar) same_toolbar (vd_toolbar v) (view_toolbar d) ∧
  images (λ e, e = UnknownElement) same_element (vd_body v) (view_body d).

(** * Lemmas *)

(** [R] is the graph of [f]. *)
Abbreviation graph_of R f := (∀ a d, R a d ↔ f a = d).
Definition graph_some {A B} (unknown : A → Prop) (R : A → B → Prop) (f : A → option B) (a : A) : Prop :=
  (unknown a ↔ f a = None) ∧ ∀ d, R a d ↔ f a = Some d.

Lemma images_graph {A B} (unknown : A → Prop) (R : A → B → Prop) f l :
  Forall (graph_some unknown R f) l → ∀ ds, images unknown R l ds ↔ filter_map f l = ds.
Proof.
  induction 1 as [|a l [Hu Hr] _ IH]; intros ds; cbn [filter_map].
  - split; [by inversion 1|intros <-; constructor].
  - split.
    + inversion 1; subst; [rewrite (proj1 Hu) by done; by apply IH|rewrite (proj1 (Hr _)) by done; f_equal; by apply IH].
    + destruct (f a) as [d|] eqn:E; intros <-.
      * apply images_known; [by apply Hr|by apply IH].
      * apply images_unknown; [by apply Hu|by apply IH].
Qed.
Lemma Forall2_graph {A B} (R : A → B → Prop) f l :
  Forall (λ a, ∀ d, R a d ↔ f a = d) l → ∀ ds, Forall2 R l ds ↔ map f l = ds.
Proof.
  induction 1 as [|a l Ha _ IH]; intros ds; cbn [map]; split; try (by inversion 1); try (by intros <-; constructor).
  - inversion 1; subst. f_equal; [by apply Ha|by apply IH].
  - intros <-. constructor; [by apply Ha|by apply IH].
Qed.
Lemma option_graph {A B} (R : A → B → Prop) f : graph_of R f → graph_of (option_Forall2 R) (fmap f).
Proof.
  intros H o d. split; [intros [a b Hab|]; cbn; f_equal; by apply H|intros <-]. destruct o; constructor. by apply H.
Qed.
Lemma graph_all {A} (P : A → Prop) l : (∀ a, P a) → Forall P l.
Proof. intros H. by apply Forall_forall. Qed.
Lemma bool_same (b c : bool) (P : Prop) : (c = true ↔ P) → (b = true ↔ P) ↔ c = b.
Proof. destruct b, c; naive_solver. Qed.

Lemma ref_graph : graph_of same_ref mapFieldRef.
Proof. intros [a b] [a' b']. unfold same_ref, mapFieldRef. cbn. naive_solver. Qed.
Definition detail_of (d : RawDetail) : FormatDetail :=
  match d with
  | RawNumber n => DetailNumber n
  | RawString raw => if all_digits raw then DetailNumber (num_of_Z (Z.of_N (digits_value raw))) else detail_of_string raw
  end.
Lemma detail_graph : graph_of same_detail detail_of.
Proof.
  intros r d. split.
  - intros H. inversion H as [| s Hs | | | | | s Hs Hn]; subst; cbn [detail_of]; try done; rewrite Hs; [done|].
    unfold detail_of_string. rewrite !decide_False by set_solver. done.
  - intros <-. destruct r as [n|s]; cbn [detail_of]; [constructor|]. destruct (all_digits s) eqn:Es; [by constructor|].
    unfold detail_of_string. repeat (case_decide; [subst; constructor|]). constructor; [done|]. set_solver.
Qed.
Lemma format_graph : graph_of same_format mapFormat.
Proof.
  intros [k o] [k' o']. unfold same_format. cbn [fmt_kind ft_kind fmt_detail ft_detail].
  rewrite (option_graph _ _ detail_graph). unfold mapFormat. cbn [ft_kind ft_detail].
  destruct o as [[n|s]|]; cbn [fmap option_fmap option_map detail_of]; try case_match; naive_solver.
Qed.
Lemma spacing_graph : graph_of same_spacing mapSpacing.
Proof. intros v d. split; [by inversion 1|intros <-; destruct v; constructor]. Qed.
Lemma mod_graph m : graph_some (λ m, m = UnknownMod) same_mod mapLayoutMod m.
Proof.
  split; [by destruct m|]. intros d. split.
  - inversion 1 as [p v v' Hv|p v v' Hv|v v' Hv| | |s b Hb]; subst; cbn [mapLayoutMod];
      try (apply spacing_graph in Hv; by rewrite Hv); try done.
    do 2 f_equal. apply (bool_same b _ (s = #"true")); [apply bool_decide_eq_true|done].
  - destruct m; cbn [mapLayoutMod]; intros [= <-]; constructor; try by apply spacing_graph. apply bool_decide_eq_true.
Qed.
Lemma mods_graph ms : ∀ ds, same_mods ms ds ↔ mapLayoutMods (Some ms) = ds.
Proof. apply images_graph, graph_all, mod_graph. Qed.
Lemma mods_default ms : ∀ ds, same_mods (default [] ms) ds ↔ mapLayoutMods ms = ds.
Proof. intros ds. rewrite mods_graph. by destruct ms. Qed.
Lemma nav_graph m : graph_some (λ m, m = UnknownNav) same_nav mapNavModifier m.
Proof.
  split; [by destruct m|]. intros d. split.
  - inversion 1 as [r r' Hr| |]; subst; cbn [mapNavModifier]; try done. apply ref_graph in Hr. by rewrite Hr.
  - destruct m; cbn [mapNavModifier]; intros [= <-]; constructor. by apply ref_graph.
Qed.
Lemma navs_graph : graph_of same_navs mapNavModifiers.
Proof.
  intros ms ds. unfold same_navs. rewrite (images_graph _ _ mapNavModifier) by apply graph_all, nav_graph. by destruct ms.
Qed.
Lemma toolbar_graph t : graph_some (λ t, t = UnknownToolbar) same_toolbar mapToolbarItem t.
Proof.
  split; [by destruct t|]. intros d. split.
  - inversion 1 as [| | | | |c t' ms ds Hn]; subst; cbn [mapToolbarItem]; try done. apply navs_graph in Hn. by rewrite Hn.
  - destruct t as [| | |[c|]| |]; cbn [mapToolbarItem default]; intros [= <-]; constructor. by apply navs_graph.
Qed.
Lemma action_graph : graph_of same_action mapViewAction.
Proof. intros [e t n] [e' t' n']. unfold same_action, mapViewAction. cbn. rewrite navs_graph. naive_solver. Qed.

Lemma column_loop (ms : list ColumnModifier) :
  foldl column_step (None, None) ms = (last_given sel_width ms, mapFormat <$> last_given sel_column_format ms).
Proof.
  induction ms as [|m ms IH] using rev_ind; [done|]. rewrite foldl_snoc, IH, !last_given_snoc. by destruct m.
Qed.
Lemma column_graph : graph_of same_column mapColumn.
Proof.
  intros c [f cap w fmt]. unfold same_column, mapColumn. rewrite column_loop. cbn [column_field column_caption column_width column_format].
  rewrite ref_graph, (option_graph _ _ format_graph). naive_solver.
Qed.
Lemma table_graph : graph_of same_table mapTable.
Proof.
  intros t [r a c]. unfold same_table, mapTable. cbn [rowSource table_actions table_columns].
  rewrite ref_graph, (Forall2_graph _ mapViewAction), (Forall2_graph _ mapColumn) by (apply graph_all; intros; apply action_graph || apply column_graph).
  naive_solver.
Qed.
Lemma flag_in (f : WidgetModifier) ms :
  f = WidgetReadOnly ∨ f = WidgetFocus ∨ f = WidgetExpand → existsb (is_flag f) ms = true ↔ f ∈ ms.
Proof.
  intros Hf. rewrite existsb_exists. setoid_rewrite <- list_elem_of_In. split.
  - intros (x & Hx & Hm). assert (f = x) as ->; [|done]. destruct Hf as [->|[->| ->]]; by destruct x.
  - intros Hm. exists f. split; [done|]. by destruct Hf as [->|[->| ->]].
Qed.
Lemma widget_graph : graph_of same_widget mapWidget.
Proof.
  intros w [k c b ro fo ex ph fm mi ma st la]. unfold same_widget, mapWidget. rewrite widget_loop.
  cbn [widget widget_caption widget_bind widget_readOnly widget_focus widget_expand widget_placeholder widget_format widget_min widget_max widget_step_ widget_layout].
  rewrite ref_graph, (option_graph _ _ format_graph), mods_graph.
  rewrite (bool_same _ _ _ (flag_in WidgetReadOnly (wid_mods w) ltac:(auto))), (bool_same _ _ _ (flag_in WidgetFocus (wid_mods w) ltac:(auto))),
    (bool_same _ _ _ (flag_in WidgetExpand (wid_mods w) ltac:(auto))).
  split; [by intros (-> & -> & <- & <- & <- & <- & -> & <- & -> & -> & -> & <-)|]. intros [= <- <- <- <- <- <- <- <- <- <- <- <-]. by split_and!.
Qed.
Lemma icon_loop (ms : list IconModifier) :
  foldl icon_step (None, []) ms = (last_given sel_size ms, filter_map sel_icon_layout ms).
Proof.
  induction ms as [|m ms IH] using rev_ind; [done|]. rewrite foldl_snoc, IH, last_given_snoc, filter_map_app.
  destruct m; cbn [icon_step sel_size sel_icon_layout filter_map fst snd]; by rewrite ?app_nil_r.
Qed.
Lemma icon_graph : graph_of same_icon mapIcon.
Proof.
  intros i [n s la]. unfold same_icon, mapIcon. rewrite icon_loop. cbn [icon_name icon_size icon_layout]. rewrite mods_graph. naive_solver.
Qed.
Lemma span_graph : graph_of same_span (λ s, MkRichTextSpanDef (spn_style s) (spn_text s)).
Proof. intros s [a b]. unfold same_span. cbn. naive_solver. Qed.

Definition element_ok : BodyElement → Prop := graph_some (λ e, e = UnknownElement) same_element mapBodyElement.
Lemma body_graph b : Forall element_ok b → ∀ ds, images (λ e, e = UnknownElement) same_element b ds ↔ filter_map mapBodyElement b = ds.
Proof. apply images_graph. Qed.
Lemma pane_graph c b : Forall element_ok b → ∀ d, same_pane (MkTab c b) d ↔ mapTabPane (MkTab c b) = d.
Proof.
  intros Hb d. split.
  - inversion 1 as [? ? b' Hi]; subst. cbn [mapTabPane]. f_equal. by apply body_graph.
  - intros <-. constructor. by apply body_graph.
Qed.
Lemma item_graph c o b : Forall element_ok b → ∀ d, same_item (MkAccordionItem c o b) d ↔ mapAccordionItem (MkAccordionItem c o b) = d.
Proof.
  intros Hb d. split.
  - inversion 1 as [? ? ? b' Hi]; subst. cbn [mapAccordionItem]. f_equal. by apply body_graph.
  - intros <-. constructor. by apply body_graph.
Qed.
(** A container whose constructor is the only one that fits. *)
Ltac container Hb :=
  split; [done|]; intros d; split;
  [inversion 1; subst; cbn [mapBodyElement]; do 2 f_equal; by first [apply mods_default | apply (body_graph _ Hb)]
  |cbn [mapBodyElement]; intros [= <-]; constructor; by first [apply mods_default | apply (body_graph _ Hb)]].
Lemma element_graph e : element_ok e.
Proof.
  induction e as [c m b Hb|m b Hb|m b Hb|n m b Hb|m ts Hts|m its Hits|c m b Hb|t| | |w|w|l|i|r| ] using BodyElement_deep_ind;
    try container Hb; (split; [done|]; intros d; split).
  - inversion 1 as [| | | | |? ? ? ts' Hm Ht| | | | | | | | | ]; subst. cbn [mapBodyElement]. do 2 f_equal; [by apply mods_default|].
    revert Ht. apply Forall2_graph. eapply Forall_impl; [exact Hts|]. intros [c b] Hb. by apply pane_graph.
  - cbn [mapBodyElement]. intros [= <-]. constructor; [by apply mods_default|]. apply (Forall2_graph _ mapTabPane); [|done].
    eapply Forall_impl; [exact Hts|]. intros [c b] Hb. by apply pane_graph.
  - inversion 1 as [| | | | | |? ? ? ts' Hm Ht| | | | | | | | ]; subst. cbn [mapBodyElement]. do 2 f_equal; [by apply mods_default|].
    revert Ht. apply Forall2_graph. eapply Forall_impl; [exact Hits|]. intros [c o b] Hb. by apply item_graph.
  - cbn [mapBodyElement]. intros [= <-]. constructor; [by apply mods_default|]. apply (Forall2_graph _ mapAccordionItem); [|done].
    eapply Forall_impl; [exact Hits|]. intros [c o b] Hb. by apply item_graph.
  - inversion 1 as [| | | | | | |? ? Ht| | | | | | | ]; subst. cbn [mapBodyElement]. do 2 f_equal. by apply table_graph.
  - intros [= <-]. constructor. by apply table_graph.
  - inversion 1 as [| | | | | | | | | |? ? Ht| | | | ]; subst. cbn [mapBodyElement]. do 2 f_equal. by apply widget_graph.
  - intros [= <-]. constructor. by apply widget_graph.
  - inversion 1 as [| | | | | | | | | | |? ? ? ? Ht| | | ]; subst. cbn [mapBodyElement]. unfold mapButton. cbn. do 3 f_equal. by apply mods_default.
  - intros [= <-]. destruct w as [c a m]. constructor. by apply mods_default.
  - inversion 1 as [| | | | | | | | | | | |? ? ? ? Ht| | ]; subst. cbn [mapBodyElement]. unfold mapLink. cbn. do 3 f_equal. by apply mods_default.
  - intros [= <-]. destruct l as [c a m]. constructor. by apply mods_default.
  - inversion 1 as [| | | | | | | | | | | | |? ? Ht| ]; subst. cbn [mapBodyElement]. do 2 f_equal. by apply icon_graph.
  - intros [= <-]. constructor. by apply icon_graph.
  - inversion 1 as [| | | | | | | | | | | | | |? ? Ht]; subst. cbn [mapBodyElement]. unfold mapRichText. cbn [rt_spans]. do 3 f_equal.
    revert Ht. apply Forall2_graph, graph_all. intros a. apply span_graph.
  - intros [= <-]. destruct r as [ss]. constructor. apply (Forall2_graph _ (λ s, MkRichTextSpanDef (spn_style s) (spn_text s))); [|done].
    apply graph_all. intros a. apply span_graph.
Qed.

Lemma bindings_graph (bs : list DomainBinding) ds :
  length ds = length bs ∧ (∀ i b b', bs !! i = Some b → ds !! i = Some b' → same_binding i b b') ↔ imap mapBinding bs = ds.
Proof.
  assert (∀ i b d, same_binding i b d ↔ mapBinding i b = d) as Hb.
  { intros i b [n a p]. unfold same_binding, mapBinding. cbn [binding_name binding_alias binding_primary].
    rewrite (bool_same p (bool_decide (i = 0)) (i = 0)) by apply bool_decide_eq_true. naive_solver. }
  split.
  - intros [Hlen H]. apply list_eq. intros i. rewrite list_lookup_imap. destruct (bs !! i) as [b|] eqn:Eb; cbn [fmap option_fmap option_map].
    + destruct (ds !! i) as [d|] eqn:Ed; [f_equal; by apply Hb, H|].
      apply lookup_lt_Some in Eb. apply lookup_ge_None in Ed. lia.
    + apply lookup_ge_None in Eb. symmetry. apply lookup_ge_None. lia.
  - intros <-. split; [by rewrite length_imap|]. intros i b b' Eb. rewrite list_lookup_imap, Eb. cbn. intros [= <-]. by apply Hb.
Qed.
Lemma refresh_graph : graph_of same_refresh_rule (λ a, MkAutoRefresh (ar_domain a) (ar_event a)).
Proof. intros a [x y]. unfold same_refresh_rule. cbn. naive_solver. Qed.

(** * Theorem *)

(** C8: [mapView] returns the one view that says the same as the tree: every known element, modifier, toolbar item, action, column and
    domain binding is there, once, in its place and with its own kind and contents, the last of repeated modifiers counts, and unknown nodes
    leave no trace. *)
Theorem mapView_exact v d : mapView v = d ↔ same_view v d.
Proof.
  unfold same_view. rewrite (option_graph _ _ refresh_graph (vd_autoRefresh v)).
  rewrite (images_graph _ _ mapToolbarItem) by apply graph_all, toolbar_graph.
  rewrite body_graph by apply graph_all, element_graph. pose proof (bindings_graph (vd_domains v) (view_domains d)) as Hb. split.
  - intros <-. apply proj2 in Hb. destruct (Hb eq_refl). by split_and!.
  - intros (H1 & H2 & H3 & H4 & H5 & H6 & H7 & H8). apply proj1 in Hb. specialize (Hb (conj H4 H5)).
    destruct d as [n t ds df ar tb bd]. cbn in *. unfold mapView, mapBodyElements. subst. by destruct (vd_autoRefresh v).
Qed.

Example small_view :
  mapView (MkViewDecl #"v" #"V" [MkDomainBinding #"a" None; MkDomainBinding #"b" (Some #"x")] false None [UnknownToolbar; ToolbarRefresh None]
    [Row None [UnknownElement; WidgetNode (MkWidget WNumber None (MkFieldRef #"a" #"n") [WidgetMin (Dec 1 0); WidgetReadOnly; WidgetMin (Dec 2 0)])]; Divider])
  = MkViewDef #"v" #"V" [MkBinding #"a" #"a" true; MkBinding #"b" #"x" false] false None [RefreshItem #"Aktualisieren"]
    [RowDef [] [WidgetElement (MkWidgetDef WNumber None (MkFieldRefDef #"a" #"n") true false false None None (Some (Dec 2 0)) None None [])]; DividerDef].
Proof. reflexivity. Qed.
