(* ===== verification/DslValidation.v ===== *)
(** The custom validators of the two languages:
    [packages/oos-dsls-ts/src/validation/{domain,view}.ts], and the parse
    entry points of [parse.ts].

    A diagnostic is what the validator hands to the acceptor: a severity, a
    message, and the position of the node it points at.  The Langium services
    that produce the tree are the parameter of the parse functions. *)

From S2P Require Export DslMapper.

(** * Definitions *)

Inductive Severity := SevError | SevWarning.
Record Diagnostic := MkDiagnostic { severity : Severity; message : str; node_index : option nat }.

(** [checkGlobalPrefix] *)
Definition checkGlobalPrefix (decl : DomainDecl) : list Diagnostic :=
  if starts_with #"global." (dd_name decl) then
    [MkDiagnostic SevError
       #"Domain names starting with 'global.' are reserved for embedded LLM prompts." None]
  else [].

(** [checkAliasListNonEmpty] *)
Definition checkAliasListNonEmpty (node : AliasList) : list Diagnostic :=
  let meaningful := filter (λ v, trim v ≠ []) (al_values node) in
  if decide (meaningful = []) then
    [MkDiagnostic SevWarning
       #"Empty 'aliases [...]' clause has no effect; remove it or add entries." None]
  else [].

(** [binding.alias ?? binding.name] *)
Definition binding_key (b : DomainBinding) : str := default (db_name b) (db_alias b).

Definition alias_message (alias : str) (domains : list DomainBinding) (prev : nat) : str :=
  #"Alias '" ++ alias ++ #"' is already used by domain '" ++
  match domains !! prev with Some b => db_name b | None => #"?" end ++ #"' in this view.".

(** The loop of [checkUniqueAliases] from index [i] on: [seen] maps an alias
    to the index of its first binding. *)
Fixpoint unique_aliases_loop (domains : list DomainBinding) (i : nat) (rest : list DomainBinding)
    (seen : gmap str nat) : list Diagnostic :=
  match rest with
  | [] => []
  | binding :: rest =>
    let alias := binding_key binding in
    match seen !! alias with
    | Some prev =>
      MkDiagnostic SevError (alias_message alias domains prev) (Some i)
        :: unique_aliases_loop domains (S i) rest seen
    | None => unique_aliases_loop domains (S i) rest (<[alias := i]> seen)
    end
  end.

(** [checkUniqueAliases] *)
Definition checkUniqueAliases (decl : ViewDecl) : list Diagnostic :=
  unique_aliases_loop (vd_domains decl) 0 (vd_domains decl) ∅.

Section parse.
Context {ViewResult DomainResult : Type}.
(** The parse service: the tree, unless parsing aborted, and diagnostics. *)
Variable parse_view_service : str → option ViewDecl * ViewResult.
Variable parse_domain_service : str → option DomainDecl * DomainResult.

Definition parseView (text : str) : option ViewDef * ViewResult :=
  let '(root, diagnostics) := parse_view_service text in (mapView <$> root, diagnostics).

Definition parseDomain (text : str) : option DomainDef * DomainResult :=
  let '(root, diagnostics) := parse_domain_service text in (mapDomain <$> root, diagnostics).
End parse.

(** * Lemmas *)

(** The first index at which an alias stands, among the bindings before [i]. *)
Definition first_binding (domains : list DomainBinding) (i : nat) (alias : str) : option nat :=
  fst <$> list_find (λ b, binding_key b = alias) (take i domains).

(** The diagnostics, stated without the loop: one for every binding whose
    alias an earlier one has, naming the first of those. *)
Definition duplicate_at (domains : list DomainBinding) (i : nat) (b : DomainBinding)
    : option Diagnostic :=
  prev ← first_binding domains i (binding_key b);
  Some (MkDiagnostic SevError (alias_message (binding_key b) domains prev) (Some i)).

Definition duplicate_diagnostics (domains : list DomainBinding) : list Diagnostic :=
  omap (λ p, duplicate_at domains p.1 p.2) (imap pair domains).

Lemma omap_nil_iff {A B} (f : A → option B) l : omap f l = [] ↔ Forall (λ x, f x = None) l.
Proof.
  induction l as [|x l IH]; [by split|]. rewrite omap_cons_eq, Forall_cons.
  destruct (f x); [by split; [|intros []]|]. naive_solver.
Qed.

Lemma first_binding_S domains i b alias :
  domains !! i = Some b →
  first_binding domains (S i) alias =
  match first_binding domains i alias with
  | Some p => Some p
  | None => if decide (binding_key b = alias) then Some i else None
  end.
Proof.
  intros Hb. unfold first_binding. rewrite (take_S_r _ _ _ Hb).
  apply lookup_lt_Some in Hb as Hlt.
  destruct (list_find _ (take i domains)) as [[j c]|] eqn:E.
  - by rewrite (list_find_app_l _ _ _ _ _ E).
  - rewrite (list_find_app_r _ _ _ E). cbn [list_find].
    case_decide; [|done]. cbn. rewrite length_take. f_equal. lia.
Qed.

Lemma unique_aliases_loop_spec domains i rest seen :
  drop i domains = rest → (∀ a, seen !! a = first_binding domains i a) →
  unique_aliases_loop domains i rest seen =
  omap (λ p, duplicate_at domains p.1 p.2) (imap (λ j b, (i + j, b)) rest).
Proof.
  revert i seen. induction rest as [|b rest IH]; intros i seen Hrest Hseen; [done|].
  cbn [unique_aliases_loop imap]. rewrite omap_cons_eq. cbn [fst snd]. rewrite Nat.add_0_r.
  assert (Hb : domains !! i = Some b).
  { rewrite <- (Nat.add_0_r i), <- lookup_drop, Hrest. done. }
  assert (Hdrop : drop (S i) domains = rest).
  { rewrite <- Nat.add_1_r, <- drop_drop, Hrest. done. }
  assert (Himap : imap ((λ j b0, (i + j, b0)) ∘ S) rest = imap (λ j b0, (S i + j, b0)) rest).
  { apply imap_ext. intros. simpl. by rewrite Nat.add_succ_r. }
  rewrite Himap. unfold duplicate_at at 1. rewrite <- Hseen.
  destruct (seen !! binding_key b) as [prev|] eqn:E; cbn [mbind option_bind].
  - f_equal. apply IH; [done|]. intros a. rewrite (first_binding_S _ _ _ _ Hb), Hseen.
    destruct (first_binding domains i a) eqn:Ea; [done|].
    rewrite decide_False; [done|]. intros <-. rewrite Hseen in E. congruence.
  - apply IH; [done|]. intros a. rewrite (first_binding_S _ _ _ _ Hb).
    destruct (decide (binding_key b = a)) as [<-|Hne].
    + rewrite lookup_insert_eq. by rewrite Hseen in E; rewrite E.
    + rewrite lookup_insert_ne by done. rewrite Hseen. by destruct (first_binding domains i a).
Qed.

Lemma checkUniqueAliases_spec decl :
  checkUniqueAliases decl = duplicate_diagnostics (vd_domains decl).
Proof.
  unfold checkUniqueAliases, duplicate_diagnostics.
  rewrite (unique_aliases_loop_spec _ 0); [done|done|].
  intros a. unfold first_binding. by rewrite take_0, lookup_empty.
Qed.

Lemma first_binding_None domains i a :
  first_binding domains i a = None ↔ a ∉ binding_key <$> take i domains.
Proof.
  unfold first_binding. rewrite fmap_None, list_find_None, Forall_forall.
  rewrite list_elem_of_fmap. naive_solver.
Qed.

Lemma duplicate_diagnostics_nil domains :
  duplicate_diagnostics domains = [] ↔ NoDup (binding_key <$> domains).
Proof.
  assert (H : duplicate_diagnostics domains = [] ↔
    ∀ i b, domains !! i = Some b → first_binding domains i (binding_key b) = None).
  { unfold duplicate_diagnostics. rewrite omap_nil_iff, Forall_lookup. split.
    - intros H i b Hb. specialize (H i (i, b)). rewrite list_lookup_imap, Hb in H.
      specialize (H eq_refl). unfold duplicate_at in H. cbn [fst snd] in H.
      destruct (first_binding domains i (binding_key b)); [|done].
      cbn [mbind option_bind] in H. discriminate H.
    - intros H i p Hp. rewrite list_lookup_imap in Hp.
      destruct (domains !! i) as [b|] eqn:Hb; [|done]. injection Hp as <-.
      unfold duplicate_at. cbn [fst snd]. by rewrite (H _ _ Hb). }
  rewrite H, NoDup_alt. split.
  - intros Hf i j a Hi Hj. rewrite list_lookup_fmap_Some in Hi, Hj.
    destruct Hi as (b & -> & Hb), Hj as (c & Hbc & Hc).
    destruct (decide (i = j)) as [|Hne]; [done|]. exfalso.
    assert (Hlt : ∀ i j b c, i < j → domains !! i = Some b → domains !! j = Some c →
      binding_key b ≠ binding_key c).
    { clear -Hf. intros i j b c Hij Hb Hc Heq. apply Hf, first_binding_None in Hc. apply Hc.
      rewrite <- Heq. apply list_elem_of_fmap. exists b. split; [done|].
      apply list_elem_of_lookup. exists i. by rewrite lookup_take_lt. }
    destruct (decide (i < j)); [by apply (Hlt i j b c)|].
    apply (Hlt j i c b); [lia|done..].
  - intros Hnd i b Hb. apply first_binding_None. intros Hin.
    apply list_elem_of_fmap in Hin as (c & Hc & Hin).
    apply list_elem_of_lookup in Hin as [j Hj]. apply lookup_take_Some in Hj as [Hj Hlt].
    assert (j = i); [|lia]. apply (Hnd j i (binding_key b)); rewrite list_lookup_fmap.
    + rewrite Hj. cbn. by rewrite Hc.
    + by rewrite Hb.
Qed.

Lemma mapView_aliases v : binding_alias <$> view_domains (mapView v) = binding_key <$> vd_domains v.
Proof.
  unfold mapView. cbn [view_domains]. generalize 0 as k.
  assert (H : ∀ (l : list DomainBinding) k,
    binding_alias <$> imap (λ i, mapBinding (k + i)) l = binding_key <$> l).
  { induction l as [|b l IH]; intros k; [done|]. cbn [imap fmap list_fmap]. f_equal.
    rewrite <- (IH (S k)). f_equal. apply imap_ext. intros. simpl. by rewrite Nat.add_succ_r. }
  intros _. apply (H _ 0).
Qed.

(** * Theorems *)

(** the alias check reports exactly the bindings whose alias (or name,
    when no alias is given) an earlier binding of the view has, each at its
    own position and naming the first owner; it is silent exactly when the
    aliases of the mapped view are pairwise distinct, so that a bind path is
    unambiguous. *)
Theorem unique_aliases_check decl :
  checkUniqueAliases decl = duplicate_diagnostics (vd_domains decl) ∧
  (checkUniqueAliases decl = [] ↔ NoDup (binding_alias <$> view_domains (mapView decl))).
Proof.
  split; [apply checkUniqueAliases_spec|].
  by rewrite checkUniqueAliases_spec, duplicate_diagnostics_nil, mapView_aliases.
Qed.

(** the warning on an alias clause appears exactly when the clause adds
    nothing to the domain. *)
Theorem alias_warning_exact node :
  checkAliasListNonEmpty node = [] ↔ trimmed_values (al_values node) ≠ [].
Proof.
  unfold checkAliasListNonEmpty, trimmed_values.
  assert (H : filter (λ v, trim v ≠ []) (al_values node) = [] ↔
    filter_map (λ v, let trimmed := trim v in
      if decide (trimmed = []) then None else Some trimmed) (al_values node) = []).
  { induction (al_values node) as [|v vs IH]; [done|]. cbn [filter_map].
    rewrite filter_cons. destruct (decide (trim v = [])) as [E|E].
    - rewrite decide_False by tauto. done.
    - rewrite decide_True by done. done. }
  case_decide as Hf; rewrite H in Hf; naive_solver.
Qed.
