(* ===== verification/Renderer.v ===== *)
(** The text chunks the retrieval pipeline embeds:
    [packages/oos-dsls-ts/src/renderer/{aliases,llm-chunk,view-chunk}.ts].
    A writer takes the parts pushed so far and returns them with its own. *)

From S2P Require Export Operators GqlSchema.

(** * Definitions *)

(** ** [renderer/aliases.ts] *)

(** [germanPlural] *)
Definition germanPlural (singular : str) : str :=
  if decide (singular = []) then singular else
  let lower := to_lower singular in
  if ends_with #"en" lower then singular
  else if ends_with #"er" lower then singular
  else if ends_with #"s" lower then singular
  else if ends_with #"e" lower then singular ++ #"n"
  else match last lower with
       | Some c => if decide (c ∈ #"aiou") then singular ++ #"s" else singular ++ #"en"
       | None => singular ++ #"en"
       end.

(** The phrasings pushed for a plural or an authored alias. *)
Definition phrasings (a : str) : list str :=
  [a; a ++ #" Liste"; #"alle " ++ a; a ++ #" anzeigen"; a ++ #" bearbeiten"].

(** [Array.from(new Set(l))]: first occurrences, in order. *)
Fixpoint set_array (seen : gset str) (l : list str) : list str :=
  match l with
  | [] => []
  | x :: l => if decide (x ∈ seen) then set_array seen l else x :: set_array ({[x]} ∪ seen) l
  end.

(** The loop over the author's aliases. *)
Definition authored (aliases : list str) : list str :=
  flat_map (λ alias, let a := trim alias in
                     if decide (a = []) then [] else phrasings a) aliases.

(** [domainAliases] *)
Definition domainAliases (def : DomainDef) : list str :=
  let singular := domain_name def in
  let plural := germanPlural singular in
  let out := [singular; singular ++ #" Liste"; #"alle " ++ singular; singular ++ #" anzeigen";
              singular ++ #" bearbeiten"; singular ++ #" Detail"] in
  let out := if decide (plural ≠ [] ∧ plural ≠ singular) then out ++ phrasings plural else out in
  let out := out ++ authored (domain_aliases def) in
  set_array ∅ out.

(** ** [renderer/llm-chunk.ts] *)

Abbreviation parts := (list str).

Definition line (s : str) : str := s ++ [nl].

Definition writeHeader (ps : parts) (def : DomainDef) : parts :=
  ps ++ [line (#"Domain: " ++ domain_name def);
         line (#"Source: " ++ domain_source def ++ #"@" ++ domain_dsn def)].

Definition writeAliases (ps : parts) (def : DomainDef) : parts :=
  let variants := filter (λ a, a ≠ domain_name def) (domainAliases def) in
  ps ++ [line (#"Alias: " ++ join #", " variants)].

(** [describeField] *)
Definition describeField (f : DomainFieldDef) : str :=
  let attrs := (if readOnly f then [ #"readonly"] else []) ++
               (if filterable f then [ #"filterable"] else []) ++
               (match optionsRef f with
                | Some o => if decide (o = []) then [] else [ #"options=" ++ o]
                | None => []
                end) in
  match attrs with
  | [] => field_name f ++ #" (" ++ field_type_name (field_type f) ++ #")"
  | _ => field_name f ++ #" (" ++ field_type_name (field_type f) ++ #", " ++ join #", " attrs ++ #")"
  end.

Definition selection_of (def : DomainDef) : str := join #" " (field_name <$> fields def).

Definition writeFields (ps : parts) (def : DomainDef) : parts :=
  match fields def with
  | [] => ps
  | fs =>
    ps ++
    [line (#"Fields: " ++ join #" | " (describeField <$> fs));
     line (#"ALLOWED query fields (ONLY these, no others): " ++ join #", " (field_name <$> fs));
     line (#"GraphQL query all: { " ++ domain_name def ++ #" { " ++ selection_of def ++ #" } }")]
  end.

(** A query with the given arguments, as every example line shows it. *)
Definition example_query (domainName args selection : str) : str :=
  #"{ " ++ domainName ++ #"(" ++ args ++ #") { " ++ selection ++ #" } }".

Definition renderFilterExampleLine (domainName : str) (f : DomainFieldDef) (op : FilterOp)
    (value selection : str) : str :=
  line (#"Filter example (" ++ field_name f ++ #" " ++ op_label op ++ #"): " ++
        example_query domainName (renderFilterArg (field_name f) (op_suffix op) value) selection).

Definition renderFilterExampleOverride (domainName : str) (f : DomainFieldDef) (op : FilterOp)
    (ex : ExampleDef) (value selection : str) : str :=
  let header := #"Filter example (" ++ field_name f ++ #" " ++ op_label op ++ #")" ++
    (if decide (example_description ex = []) then [] else #" — " ++ example_description ex) in
  line (header ++ #": " ++
        example_query domainName (renderFilterArg (field_name f) (op_suffix op) value) selection).

Definition renderMultiFilterExample (domainName : str) (fs : list DomainFieldDef) (selection : str)
    : str :=
  match fs with
  | a :: b :: _ =>
    match operatorsForType (field_type a), operatorsForType (field_type b) with
    | opA :: _, opB :: _ =>
      let argA := renderFilterArg (field_name a) (op_suffix opA) (op_sampleValue opA) in
      let argB := renderFilterArg (field_name b) (op_suffix opB) (op_sampleValue opB) in
      line (#"Filter example (combined — " ++ field_name a ++ #" and " ++ field_name b ++ #"): " ++
            example_query domainName (argA ++ #", " ++ argB) selection) ++
      line (#"Filter note: multiple filters are comma-separated inside the same parenthesis. " ++
            #"Any filterable field can be combined this way.")
    | _, _ => []
    end
  | _ => []
  end.

(** The two passes over one filterable field. *)
Definition field_examples (def : DomainDef) (f : DomainFieldDef) : parts :=
  let selection := selection_of def in
  ((λ op, renderFilterExampleLine (domain_name def) f op (op_sampleValue op) selection)
     <$> operatorsForType (field_type f)) ++
  filter_map (λ ex,
    match findOperator (field_type f) (example_op ex) with
    | None => None
    | Some op =>
      let value := formatExampleValue (field_type f) (example_value ex) (example_valueIsString ex) in
      Some (renderFilterExampleOverride (domain_name def) f op ex value selection)
    end) (examples f).

Definition writeFilterExamples (ps : parts) (def : DomainDef) : parts :=
  match filter (λ f, filterable f = true) (fields def) with
  | [] => ps
  | fs =>
    ps ++ [line (#"Filterable fields: " ++ join #", " (field_name <$> fs))] ++
    flat_map (field_examples def) fs ++
    (if 2 <=? length fs
     then [renderMultiFilterExample (domain_name def) fs (selection_of def)] else [])
  end.

Definition describeRelation (r : RelationDef) : str :=
  relation_name r ++ #" (" ++ relation_kind_name (relation_kind r) ++ #" " ++ relation_target r ++
  #", " ++ localField r ++ #" -> " ++ foreignField r ++ #")".

Definition writeRelations (ps : parts) (def : DomainDef) : parts :=
  match relations def with
  | [] => ps
  | rs => ps ++ [line (#"Relations: " ++ join #" | " (describeRelation <$> rs))]
  end.

Definition describeMetaSource (m : MetaDef) : str :=
  meta_name m ++ #" (from " ++ meta_table m ++ #"." ++ valueField m ++ #", label=" ++
  labelField m ++ #")".

(** The chunk's own [metaQueryName]. *)
Definition chunkMetaQueryName (m : MetaDef) : str := #"meta_" ++ meta_name m.

Definition writeMetas (ps : parts) (def : DomainDef) : parts :=
  match metas def with
  | [] => ps
  | ms =>
    ps ++ [line (#"Dropdown sources: " ++ join #" | " (describeMetaSource <$> ms));
           line #"Meta queries (copy verbatim, do not invent names):"] ++
    ((λ m, line (#"  - " ++ meta_name m ++ #": { " ++ chunkMetaQueryName m ++
                 #" { value label } }")) <$> ms)
  end.

Record DropdownPair := MkPair { pair_field : str; pair_query : str }.

Definition queryByName (def : DomainDef) : gmap str str :=
  foldl (λ m md, <[meta_name md := chunkMetaQueryName md]> m) ∅ (metas def).

Definition collectDropdownPairs (def : DomainDef) : list DropdownPair :=
  filter_map (λ f,
    match optionsRef f with
    | None => None
    | Some o =>
      if decide (o = []) then None
      else match queryByName def !! o with
           | Some q => Some (MkPair (field_name f) q)
           | None => None
           end
    end) (fields def).

(** The deduplication loop over the pairs. *)
Definition metaBlocks (pairs : list DropdownPair) : list str :=
  (λ q, q ++ #" { value label }") <$> set_array ∅ (pair_query <$> pairs).

Definition writeDropdownFieldMapping (ps : parts) (def : DomainDef) : parts :=
  match collectDropdownPairs def with
  | [] => ps
  | pairs =>
    let ps := ps ++ [line #"Dropdown fields (every one below must be fetched together with its meta):"]
                 ++ ((λ p, line (#"  - " ++ pair_field p ++ #" -> " ++ pair_query p)) <$> pairs) in
    if decide (selection_of def = []) then ps
    else ps ++ [line (#"Full example combined query: { " ++ domain_name def ++ #" { " ++
                      selection_of def ++ #" } " ++ join #" " (metaBlocks pairs) ++ #" }")]
  end.

Definition describePermission (p : PermissionDef) : str :=
  role p ++ #"=" ++ join #"," (action_name <$> actions p).

Definition writePermissions (ps : parts) (def : DomainDef) : parts :=
  match permissions def with
  | [] => ps
  | pms => ps ++ [line (#"Permissions: " ++ join #" | " (describePermission <$> pms))]
  end.

(** [s.replace(/\s+/g, " ")]; [inside] a run of white space. *)
Fixpoint collapse_runs (inside : bool) (s : str) : str :=
  match s with
  | [] => []
  | c :: s =>
    if is_space c then (if inside then collapse_runs true s else 32%N :: collapse_runs true s)
    else c :: collapse_runs false s
  end.

Definition collapseWhitespace (s : str) : str := trim (collapse_runs false s).

Definition writeAiHints (ps : parts) (def : DomainDef) : parts :=
  match filter (λ h, collapseWhitespace (hint_body h) ≠ []) (aiHints def) with
  | [] => ps
  | hs =>
    ps ++ [line #"AI hints:"] ++
    ((λ h, line (#"  - " ++ hint_name h ++ #": " ++ collapseWhitespace (hint_body h))) <$> hs)
  end.

(** [renderLLMChunk] *)
Definition renderLLMChunk (def : DomainDef) : str :=
  let ps := writeHeader [] def in
  let ps := writeAliases ps def in
  let ps := writeFields ps def in
  let ps := writeFilterExamples ps def in
  let ps := writeRelations ps def in
  let ps := writeMetas ps def in
  let ps := writeDropdownFieldMapping ps def in
  let ps := writePermissions ps def in
  let ps := writeAiHints ps def in
  join [] ps.

(** ** [renderer/view-chunk.ts] *)

Definition renderViewHeader (def : ViewDef) : str :=
  let flags := if view_default def then #" (default)" else [] in
  let overList := join #", "
    ((λ d, if decide (binding_alias d = binding_name d) then binding_name d
           else binding_name d ++ #"(" ++ binding_alias d ++ #")") <$> view_domains def) in
  #"View: " ++ view_name def ++ #" " ++ quoted (view_title def) ++ #" over " ++ overList ++ flags.

Definition renderViewChunk (def : ViewDef) (source : str) : str :=
  renderViewHeader def ++ [nl; nl] ++ source.

(** * Lemmas *)

Lemma elem_of_set_array seen l x : x ∈ set_array seen l ↔ x ∈ l ∧ x ∉ seen.
Proof.
  revert seen. induction l as [|y l IH]; intros seen; cbn [set_array].
  - rewrite elem_of_nil. naive_solver.
  - case_decide as Hy; rewrite ?elem_of_cons, IH; [set_solver|].
    destruct (decide (x = y)); set_solver.
Qed.

Lemma set_array_NoDup seen l : NoDup (set_array seen l).
Proof.
  revert seen. induction l as [|y l IH]; intros seen; cbn [set_array]; [constructor|].
  case_decide; [apply IH|]. apply NoDup_cons. split; [|apply IH].
  rewrite elem_of_set_array. set_solver.
Qed.

Lemma elem_of_authored aliases x :
  x ∈ authored aliases ↔ ∃ a, a ∈ aliases ∧ trim a ≠ [] ∧ x ∈ phrasings (trim a).
Proof.
  unfold authored. rewrite list_elem_of_In, in_flat_map. split.
  - intros (a & Ha & Hx). case_decide; [done|]. exists a. by rewrite !list_elem_of_In.
  - intros (a & Ha & Ht & Hx). exists a. rewrite <- list_elem_of_In. split; [done|].
    rewrite decide_False by done. by apply list_elem_of_In.
Qed.

(** ** White space *)

Definition space_ok (c : N) : Prop := is_space c = true → c = 32%N.

(** No two adjacent spaces. *)
Fixpoint no_double_space (s : str) : Prop :=
  match s with
  | a :: (b :: _) as t => ¬ (a = 32%N ∧ b = 32%N) ∧ no_double_space t
  | _ => True
  end.

Lemma collapse_runs_ok inside s :
  Forall space_ok (collapse_runs inside s) ∧ no_double_space (collapse_runs inside s) ∧
  (inside = true → head (collapse_runs inside s) ≠ Some 32%N).
Proof.
  revert inside. induction s as [|c s IH]; intros inside; [done|]. cbn [collapse_runs].
  destruct (is_space c) eqn:Hc.
  - destruct (IH true) as (H1 & H2 & H3). destruct inside; [done|]. split_and!; [|..|done].
    + apply Forall_cons. by split; [intros _|].
    + specialize (H3 eq_refl). cbn [no_double_space].
      destruct (collapse_runs true s) as [|b t]; [done|]. split; [|done].
      intros [_ ->]. by apply H3.
  - destruct (IH false) as (H1 & H2 & _).
    assert (Hne : c ≠ 32%N) by (intros ->; discriminate Hc).
    split_and!; [apply Forall_cons; split; [by intros E; rewrite E in Hc|done]| |].
    + cbn [no_double_space]. destruct (collapse_runs false s) as [|b t]; [done|].
      split; [|done]. by intros [? _].
    + intros _ [= ?]. done.
Qed.

Lemma no_double_space_app s t : no_double_space (s ++ t) → no_double_space s ∧ no_double_space t.
Proof.
  induction s as [|a s IH]; [done|]. destruct s as [|b s].
  - cbn [app no_double_space]. destruct t; [done|]. by intros [_ ?].
  - cbn [app no_double_space]. intros [? [? ?]%IH]. done.
Qed.

(** ** Filter examples *)

(** A part that shows a query whose arguments the schema accepts. *)
Definition shows_accepted_query (def : DomainDef) (part : str) : Prop :=
  ∃ pre post (args : list (str * str)),
    part = pre ++ domain_name def ++ #"(" ++
           join #", " ((λ a, a.1 ++ #": " ++ a.2) <$> args) ++ #") { " ++ post ∧
    args ≠ [] ∧
    Forall (λ a, is_Some (assoc_get a.1 (buildQueryArgs def))) args.

Lemma shows_prefix def p part : shows_accepted_query def part → shows_accepted_query def (p ++ part).
Proof.
  intros (pre & post & args & -> & ? & ?). exists (p ++ pre), post, args.
  split_and!; [by rewrite <- app_assoc|done..].
Qed.

Lemma example_accepted def f op pre value post :
  f ∈ fields def → filterable f = true → op ∈ operatorsForType (field_type f) →
  shows_accepted_query def
    (pre ++ domain_name def ++ #"(" ++ renderFilterArg (field_name f) (op_suffix op) value ++
     #") { " ++ post).
Proof.
  intros Hf Hfil Hop. exists pre, post, [(field_name f ++ op_suffix op, value)].
  split_and!; [|done|].
  - unfold renderFilterArg. cbn [fmap list_fmap join fst snd]. by rewrite <- !app_assoc.
  - apply Forall_singleton. cbn [fst]. eapply buildQueryArgs_is_Some; [done..|].
    right. apply list_elem_of_fmap. eauto.
Qed.

Lemma field_examples_accepted def f :
  f ∈ fields def → filterable f = true → Forall (shows_accepted_query def) (field_examples def f).
Proof.
  intros Hf Hfil. unfold field_examples. apply Forall_app. split.
  - apply Forall_fmap, Forall_forall. intros op Hop.
    unfold compose, renderFilterExampleLine, line, example_query. rewrite <- !app_assoc.
    do 5 apply shows_prefix. by apply example_accepted.
  - rewrite filter_map_omap. apply Forall_forall. intros p Hp.
    apply list_elem_of_omap in Hp as (ex & _ & Hp).
    destruct (findOperator (field_type f) (example_op ex)) as [op|] eqn:Hop; [|discriminate Hp].
    apply Some_inj in Hp as <-.
    apply findOperator_Some in Hop as [Hop _].
    unfold renderFilterExampleOverride, line, example_query.
    rewrite <- !app_assoc. do 7 apply shows_prefix. by apply example_accepted.
Qed.

Lemma operatorsForType_cons t : ∃ op ops, operatorsForType t = op :: ops.
Proof. destruct t; do 2 eexists; reflexivity. Qed.

Lemma multi_example_accepted def a b fs :
  a ∈ fields def → filterable a = true → b ∈ fields def → filterable b = true →
  shows_accepted_query def (renderMultiFilterExample (domain_name def) (a :: b :: fs) (selection_of def)).
Proof.
  intros Ha Hfa Hb Hfb. unfold renderMultiFilterExample.
  destruct (operatorsForType_cons (field_type a)) as (opA & opsA & EA).
  destruct (operatorsForType_cons (field_type b)) as (opB & opsB & EB). rewrite EA, EB.
  unfold line, example_query, renderFilterArg. rewrite <- !app_assoc.
  do 5 apply shows_prefix. eexists #"{ ", _,
    [(field_name a ++ op_suffix opA, op_sampleValue opA);
     (field_name b ++ op_suffix opB, op_sampleValue opB)].
  split_and!; [|done|].
  - cbn [fmap list_fmap join fst snd]. rewrite <- !app_assoc. reflexivity.
  - repeat apply Forall_cons_2; [..|constructor]; cbn [fst].
    + eapply buildQueryArgs_is_Some; [exact Ha|done|]. right. apply list_elem_of_fmap.
      exists opA. split; [done|]. rewrite EA. by left.
    + eapply buildQueryArgs_is_Some; [exact Hb|done|]. right. apply list_elem_of_fmap.
      exists opB. split; [done|]. rewrite EB. by left.
Qed.

(** ** The meta queries of a schema *)

Lemma add_domain_query_keys acc dialect d k :
  k ∈ (add_domain dialect acc d).1.*1 ↔
  k ∈ acc.1.*1 ∨ k = domain_name d ∨ k ∈ (metaQueryName ∘ meta_name) <$> metas d.
Proof.
  destruct acc as [q m]. cbn [add_domain fst]. rewrite addMetaQueries_loop, set_loop_keys.
  unfold addDomainQuery, domainQueryName. rewrite <- !assoc_get_is_Some, obj_set_get.
  case_decide; naive_solver.
Qed.

Lemma schema_query_keys (domains : list DomainDef) acc dialect k :
  k ∈ (foldl (add_domain dialect) acc domains).1.*1 ↔
  k ∈ acc.1.*1 ∨
  ∃ d, d ∈ domains ∧ (k = domain_name d ∨ k ∈ (metaQueryName ∘ meta_name) <$> metas d).
Proof.
  revert acc. induction domains as [|d ds IH]; intros acc; cbn [foldl].
  - split; [by left|]. by intros [?|(d & ?%elem_of_nil & _)].
  - rewrite IH, add_domain_query_keys, exists_elem_cons. tauto.
Qed.

(** What the schema serves for the options of a meta. *)
Lemma schema_query_Some (domains : list DomainDef) acc dialect k c :
  assoc_get k (foldl (add_domain dialect) acc domains).1 = Some c →
  assoc_get k acc.1 = Some c ∨ (∃ d, d ∈ domains ∧ domain_name d = k) ∨ ∃ m, c = meta_config m.
Proof.
  revert acc. induction domains as [|d ds IH]; intros acc; cbn [foldl]; [by left|].
  intros [H|[(d' & ? & ?)|?]]%IH; [|right; left; exists d'; by split; [right|]|by right; right].
  destruct acc as [q m]. cbn [add_domain fst] in *. rewrite addMetaQueries_loop in H.
  apply set_loop_Some in H as [(x & _ & _ & <-)|H]; [by right; right; exists x|].
  unfold addDomainQuery, domainQueryName in H. rewrite obj_set_get in H. case_decide; [|by left].
  right; left. exists d. by split; [left|].
Qed.
Lemma meta_query_served (domains : list DomainDef) dialect def n :
  def ∈ domains → n ∈ meta_name <$> metas def → (∀ d, d ∈ domains → domain_name d ≠ metaQueryName n) →
  ∃ qs cfg o, schema_query (buildSchema domains dialect) = Some qs ∧
    assoc_get (metaQueryName n) qs = Some cfg ∧ cfg_args cfg = [] ∧ cfg_type cfg = OutList o ∧ (object_fields o).*1 = [ #"value"; #"label"].
Proof.
  intros Hdef Hn Hno. assert (metaQueryName n ∈ (foldl (add_domain dialect) ([], []) domains).1.*1) as Hk.
  { apply schema_query_keys. right. exists def. split; [done|]. right. rewrite list_fmap_compose. by apply list_elem_of_fmap_2. }
  apply assoc_get_is_Some in Hk as [c Hc]. pose proof Hc as [|[(d & Hd & E)|[m ->]]]%schema_query_Some; [done|by destruct (Hno d Hd)|].
  unfold buildSchema. destruct (foldl _ _ domains) as [qs ms]. cbn [fst] in Hc.
  destruct qs as [|q0 qs]; [done|]. by exists (q0 :: qs), (meta_config m), (buildMetaObjectType m).
Qed.

(** The fields that are dropdowns, with their metas: what [collectDropdownPairs] is to find. *)
Definition dropdown_of (def : DomainDef) (f : DomainFieldDef) : option str :=
  o ← optionsRef f; if decide (o ≠ [] ∧ o ∈ meta_name <$> metas def) then Some o else None.
Definition dropdown_uses (def : DomainDef) : list (str * str) :=
  omap (λ f, (field_name f,.) <$> dropdown_of def f) (fields def).
Definition use_pair (u : str * str) : DropdownPair := MkPair u.1 (metaQueryName u.2).

Lemma queryByName_lookup def n :
  queryByName def !! n = if decide (n ∈ meta_name <$> metas def) then Some (metaQueryName n) else None.
Proof.
  unfold queryByName. assert (∀ (ms : list MetaDef) (acc : gmap str str),
    foldl (λ m md, <[meta_name md := chunkMetaQueryName md]> m) acc ms !! n =
    if decide (n ∈ meta_name <$> ms) then Some (metaQueryName n) else acc !! n) as H; [|by rewrite H, lookup_empty].
  induction ms as [|md ms IH]; intros acc; cbn [foldl fmap list_fmap]; [done|]. rewrite IH.
  destruct (decide (n = meta_name md)) as [->|Hn].
  - rewrite lookup_insert_eq, (decide_True (P:=_ ∈ _ :: _)) by (by left). by case_decide.
  - rewrite lookup_insert_ne by done. do 2 case_decide; set_solver.
Qed.
Lemma collectDropdownPairs_uses def : collectDropdownPairs def = use_pair <$> dropdown_uses def.
Proof.
  unfold collectDropdownPairs, dropdown_uses. rewrite filter_map_omap. induction (fields def) as [|f fs IH]; [done|].
  cbn [omap list_omap]. rewrite IH. unfold dropdown_of. destruct (optionsRef f) as [o|]; cbn [mbind option_bind fmap option_fmap option_map]; [|done].
  rewrite queryByName_lookup. repeat case_decide; naive_solver.
Qed.
Lemma set_array_fmap (f : str → str) seen seen' l :
  Inj (=) (=) f → (∀ x, f x ∈ seen' ↔ x ∈ seen) → set_array seen' (f <$> l) = f <$> set_array seen l.
Proof.
  intros Hf. revert seen seen'. induction l as [|x l IH]; intros seen seen' Hs; [done|]. cbn [fmap list_fmap set_array].
  rewrite (decide_ext _ _ _ _ (Hs x)). case_decide; [by apply IH|]. cbn [fmap list_fmap]. f_equal. apply IH.
  intros y. rewrite !elem_of_union, !elem_of_singleton, Hs. naive_solver.
Qed.
Lemma set_array_sublist seen l : set_array seen l `sublist_of` l.
Proof. revert seen. induction l as [|x l IH]; intros seen; cbn [set_array]; [done|]. case_decide; by constructor. Qed.
Lemma metaBlocks_uses uses :
  metaBlocks (use_pair <$> uses) = (λ n, #"meta_" ++ n ++ #" { value label }") <$> set_array ∅ uses.*2.
Proof.
  unfold metaBlocks. rewrite <- list_fmap_compose. change (pair_query ∘ use_pair) with (metaQueryName ∘ @snd str str).
  rewrite list_fmap_compose, (set_array_fmap metaQueryName ∅); [|by intros ? ? ?%(inj (app _))|set_solver].
  rewrite <- list_fmap_compose. apply list_fmap_ext. intros i n _. unfold metaQueryName. cbn [compose]. by rewrite <- app_assoc.
Qed.

Lemma domainAliases_phrasings def :
  domainAliases def =
  let name := domain_name def in
  let plural := germanPlural name in
  let own := phrasings name ++ [name ++ #" Detail"] in
  set_array ∅ ((if decide (plural ≠ [] ∧ plural ≠ name) then own ++ phrasings plural else own) ++
               authored (domain_aliases def)).
Proof. reflexivity. Qed.

(** * Theorems *)

(** the alias list of a domain has no duplicates, starts with the name,
    and holds exactly the phrasings of the name, of its plural when that
    differs, and of every non-blank alias the author gave (trimmed): an
    authored alias is never lost to the deduplication. *)
Theorem domainAliases_exact def x :
  NoDup (domainAliases def) ∧ head (domainAliases def) = Some (domain_name def) ∧
  (x ∈ domainAliases def ↔
   x ∈ phrasings (domain_name def) ∨ x = domain_name def ++ #" Detail" ∨
   (germanPlural (domain_name def) ≠ domain_name def ∧
    x ∈ phrasings (germanPlural (domain_name def))) ∨
   ∃ a, a ∈ domain_aliases def ∧ trim a ≠ [] ∧ x ∈ phrasings (trim a)).
Proof.
  rewrite domainAliases_phrasings. split_and!; [apply set_array_NoDup| |].
  - cbv zeta. destruct (decide (_ ∧ _)); unfold phrasings at 1; cbn [app set_array];
      (rewrite decide_False by apply not_elem_of_empty); done.
  - cbv zeta. rewrite elem_of_set_array, elem_of_app, elem_of_authored.
    assert (Hplural : ∀ s, s ≠ [] → germanPlural s ≠ []).
    { intros s Hs. unfold germanPlural. rewrite decide_False by done.
      assert (Happ : ∀ t, s ++ t ≠ []) by (intros t; by destruct s).
      repeat case_match; auto. }
    assert (Hempty : germanPlural [] = []) by reflexivity.
    destruct (decide (germanPlural (domain_name def) ≠ [] ∧
                      germanPlural (domain_name def) ≠ domain_name def)) as [[H1 H2]|Hn].
    + rewrite !elem_of_app, list_elem_of_singleton.
      assert (He : x ∈ (∅ : gset str) ↔ False) by set_solver. rewrite He. tauto.
    + assert (Hsame : germanPlural (domain_name def) = domain_name def).
      { destruct (decide (domain_name def = [])) as [E|E]; [by rewrite E|].
        apply dec_stable. intros Hd. apply Hn. split; [by apply Hplural|done]. }
      rewrite elem_of_app, list_elem_of_singleton.
      assert (He : x ∈ (∅ : gset str) ↔ False) by set_solver. rewrite He. tauto.
Qed.

(** the chunk never teaches a filter the server rejects: every part of
    the filter section shows a query on the domain whose arguments are all
    accepted by the schema built from the same domain, the line that lists
    the filterable fields apart. *)
Theorem filter_examples_accepted def part :
  part ∈ writeFilterExamples [] def →
  part = line (#"Filterable fields: " ++
               join #", " (field_name <$> filter (λ f, filterable f = true) (fields def))) ∨
  shows_accepted_query def part.
Proof.
  unfold writeFilterExamples.
  assert (Hall : Forall (λ f, f ∈ fields def ∧ filterable f = true)
                   (filter (λ f, filterable f = true) (fields def))).
  { apply Forall_forall. intros f. rewrite list_elem_of_filter. tauto. }
  destruct (filter _ (fields def)) as [|f fs] eqn:E; [by intros ?%elem_of_nil|].
  rewrite <- E in *. cbn [app]. intros [->|Hp]%elem_of_cons; [by left|right].
  apply elem_of_app in Hp as [Hp|Hp].
  - apply list_elem_of_In, in_flat_map in Hp as (g & Hg & Hp).
    apply list_elem_of_In in Hg, Hp. rewrite Forall_forall in Hall. apply Hall in Hg as [Hg Hgf].
    pose proof (field_examples_accepted def g Hg Hgf) as H. rewrite Forall_forall in H. by apply H.
  - rewrite E in Hp, Hall. destruct fs as [|g fs]; [by apply elem_of_nil in Hp|].
    cbn [length Nat.leb] in Hp. apply list_elem_of_singleton in Hp as ->.
    apply Forall_cons in Hall as [[Hf Hff] Hall]. apply Forall_cons in Hall as [[Hg Hgf] _].
    by apply multi_example_accepted.
Qed.

(** C7: the dropdown section of a chunk.  A field is a dropdown if it names a
    declared meta.  Without one nothing is written; otherwise there is a line for every
    dropdown, in the order of the fields, and the combined query selects all fields of the domain and then
    the options of each of the metas in use exactly once, however many fields share one.  In a schema that
    serves the domain each of these options queries exists, takes no argument and has just the two fields selected,
    provided no domain has the name of such a query. *)
Theorem combined_query_metas def ps :
  selection_of def ≠ [] →
  let uses := dropdown_uses def in
  (uses = [] → writeDropdownFieldMapping ps def = ps) ∧
  (uses ≠ [] → ∃ names,
     writeDropdownFieldMapping ps def =
     ps ++ [line #"Dropdown fields (every one below must be fetched together with its meta):"]
        ++ ((λ u, line (#"  - " ++ u.1 ++ #" -> meta_" ++ u.2)) <$> uses)
        ++ [line (#"Full example combined query: { " ++ domain_name def ++ #" { " ++ selection_of def ++ #" } " ++
                  join #" " ((λ n, #"meta_" ++ n ++ #" { value label }") <$> names) ++ #" }")] ∧
     NoDup names ∧ names `sublist_of` uses.*2 ∧ (∀ n, n ∈ uses.*2 → n ∈ names) ∧
     ∀ (domains : list DomainDef) dialect n,
       def ∈ domains → n ∈ names → (∀ d, d ∈ domains → domain_name d ≠ #"meta_" ++ n) →
       ∃ qs cfg o, schema_query (buildSchema domains dialect) = Some qs ∧
         assoc_get (#"meta_" ++ n) qs = Some cfg ∧ cfg_args cfg = [] ∧ cfg_type cfg = OutList o ∧
         (object_fields o).*1 = [ #"value"; #"label"]).
Proof.
  intros Hsel. cbv zeta. unfold writeDropdownFieldMapping. rewrite collectDropdownPairs_uses.
  set (uses := dropdown_uses def). split; [by intros ->|]. intros Hne. exists (set_array ∅ uses.*2).
  assert (∀ n, n ∈ set_array ∅ uses.*2 ↔ n ∈ uses.*2) as Hin by (intros n; rewrite elem_of_set_array; set_solver).
  split_and!; [|apply set_array_NoDup|apply set_array_sublist|intros n Hn; by apply Hin|].
  - destruct (use_pair <$> uses) as [|p pairs] eqn:Ep; [by apply fmap_nil_inv in Ep|].
    rewrite decide_False, <- Ep, metaBlocks_uses, <- !app_assoc by done. by rewrite <- list_fmap_compose.
  - intros domains dialect n Hdef Hn%Hin Hno. apply meta_query_served with def; [done| |done].
    apply list_elem_of_fmap in Hn as ([f n'] & -> & Hu). unfold uses, dropdown_uses in Hu. apply list_elem_of_omap in Hu as (g & _ & Hu).
    unfold dropdown_of in Hu. destruct (optionsRef g) as [o|]; cbn [mbind option_bind] in Hu; [|done].
    case_decide as Ho; [|done]. injection Hu as _ <-. apply Ho.
Qed.

(** a hint's body always ends up on one line of plain text: its only
    white space is single spaces between words, with none at the ends. *)
Theorem collapseWhitespace_clean s :
  let t := collapseWhitespace s in
  Forall (λ c, is_space c = true → c = 32%N) t ∧ no_double_space t ∧ space_free_ends t.
Proof.
  cbv zeta. unfold collapseWhitespace.
  destruct (collapse_runs_ok false s) as (H1 & H2 & _).
  destruct (trim_part (collapse_runs false s)) as (k1 & k2 & Hk). rewrite Hk in H1, H2.
  split_and!; [| |apply trim_ends].
  - apply Forall_app in H1 as [_ H1]. by apply Forall_app in H1 as [H1 _].
  - apply no_double_space_app in H2 as [_ H2]. by apply no_double_space_app in H2 as [H2 _].
Qed.

(** ** Witnesses *)

Definition sample_chunk_domain : DomainDef :=
  MkDomainDef #"person" #"person" #"demo" []
    [ MkDomainFieldDef #"role" TString false true (Some #"roles") [];
      MkDomainFieldDef #"old_role" TString false false (Some #"roles")
        [MkExampleDef OpLike #"a" true #"starts with a"];
      MkDomainFieldDef #"age" TInt false true None [] ]
    [] [ MkMetaDef #"roles" #"roles" #"id" #"name" None None ]
    [ MkAiHintDef #"h" ([32%N] ++ #"two" ++ [nl; tab] ++ #"words ") ] [].

Example sample_chunk_hint :
  writeAiHints [] sample_chunk_domain = [line #"AI hints:"; line #"  - h: two words"].
Proof. vm_compute. reflexivity. Qed.

Example sample_chunk_combined :
  last (writeDropdownFieldMapping [] sample_chunk_domain) =
  Some (line (#"Full example combined query: { person { role old_role age } " ++
              #"meta_roles { value label } }")).
Proof. vm_compute. reflexivity. Qed.

Lemma filter_examples_accepted_witness :
  shows_accepted_query sample_chunk_domain
    (line #"Filter example (age greater than): { person(age_gt: 0) { role old_role age } }").
Proof.
  destruct (filter_examples_accepted sample_chunk_domain
    (line #"Filter example (age greater than): { person(age_gt: 0) { role old_role age } }"))
    as [H|H]; [|discriminate H|exact H].
  decide_closed.
Defined.

Lemma combined_query_metas_witness :
  ∃ names, last (writeDropdownFieldMapping [] sample_chunk_domain) =
    Some (line (#"Full example combined query: { person { role old_role age } " ++
                join #" " ((λ n, #"meta_" ++ n ++ #" { value label }") <$> names) ++ #" }")) ∧ NoDup names ∧ #"roles" ∈ names.
Proof.
  destruct (combined_query_metas sample_chunk_domain [] ltac:(discriminate)) as [_ H].
  destruct (H ltac:(discriminate)) as (names & E & Hn & _ & Hin & _). exists names. rewrite E. split_and!; [|done|].
  - rewrite !last_app. reflexivity.
  - apply Hin. decide_closed.
Defined.
