(* ===== verification/Pipeline.v ===== *)
(** The pipeline language: [packages/oos-pipeline-ts/src/{types,mapper,validator,parser}.ts].
    The runtime types, the tree they are mapped from, the semantic validator,
    and the parse entry point with the document cache it must leave clean. *)

From S2P Require Export JsValue.

#[local] Set Warnings "-register-all".

(** * [types.ts] *)

Inductive PipelineMode := ModeContext | ModeMass.

Inductive Source :=
| SourceDb (name table : str) (dsn : option str)
| SourceDocs (name uri : str).

Inductive StepMode := PerRow | Aggregate.

Inductive FilterOp := FEq | FNeq | FGt | FGte | FLt | FLte | FLike | FIlike | FIn.

Inductive FilterValue := ValString (s : str) | ValNumber (n : jsnum) | ValParam (param : str).

Inductive WhereExpr :=
| WAnd (exprs : list WhereExpr)
| WOr (exprs : list WhereExpr)
| WNot (expr : WhereExpr)
| WField (field : str) (op : FilterOp) (value : FilterValue).

Record StepWhere := MkStepWhere {
  sw_name : str; sw_source : str; sw_limit : option jsnum; sw_where : option WhereExpr }.

Record StepSemantic := MkStepSemantic {
  ss_name : str; ss_source : str; ss_where : option WhereExpr;
  ss_queries : list str; ss_limit : option jsnum }.

Record StepLlm := MkStepLlm {
  sl_name : str; sl_source : str; sl_input : option str; sl_mode : StepMode;
  sl_system : option str; sl_prompt : str }.

Inductive Step :=
| IsWhere (s : StepWhere)
| IsSemantic (s : StepSemantic)
| IsLlm (s : StepLlm).

Inductive OutTarget := OutEditor | OutNats | OutFile.
Record OutDef := MkOut { out_target : OutTarget; out_subject : option str }.

Record PipelineDef := MkPipeline {
  pl_name : str;
  pl_sources : list Source;
  pl_mode : PipelineMode;
  pl_llm : str;
  pl_embedding : option str;
  pl_steps : list Step;
  pl_out : OutDef
}.

Definition source_name (s : Source) : str :=
  match s with SourceDb n _ _ | SourceDocs n _ => n end.

Definition step_name (s : Step) : str :=
  match s with IsWhere s => sw_name s | IsSemantic s => ss_name s | IsLlm s => sl_name s end.

(** * The syntax tree ([generated/ast.ts]) *)

(** A cross reference: the name of the node it resolved to, and its text. *)
Record CrossRef := MkRef { ref_target : option str; refText : str }.

Inductive AstWhereExpr :=
| AndExpr (exprs : list AstWhereExpr)
| OrExpr (exprs : list AstWhereExpr)
| NotExpr (expr : AstWhereExpr)
| FieldFilter (field : str) (op : FilterOp) (value : FilterValue).

Inductive AstStep :=
| AstSemantic (name source : str) (where_ : option AstWhereExpr) (queries : list str)
    (limit : option jsnum)
| AstWhere (name : str) (source : CrossRef) (limit : option jsnum) (where_ : option AstWhereExpr)
| AstLlm (name source : str) (input : option CrossRef) (mode : StepMode) (system : option str)
    (prompt : str).

Record AstPipeline := MkAstPipeline {
  ap_name : str;
  ap_sources : list Source;
  ap_mode : PipelineMode;
  ap_llm : str;
  ap_embedding : option str;
  ap_steps : list AstStep;
  ap_out : OutDef
}.

(** * [mapper.ts] *)

(** [s.slice(1, -1)] *)
Definition slice_inner (s : str) : str := drop 1 (slice_end 1 s).

Definition stripQuotes (s : str) : str :=
  if (starts_with [dq] s && ends_with [dq] s) || (starts_with #"'" s && ends_with #"'" s)
  then slice_inner s else s.

(** [x ? stripQuotes(x) : undefined] *)
Definition strip_truthy (x : option str) : option str :=
  match x with
  | Some s => if decide (s = []) then None else Some (stripQuotes s)
  | None => None
  end.

Definition mapSource (src : Source) : Source :=
  match src with
  | SourceDb name table dsn => SourceDb name table (strip_truthy dsn)
  | SourceDocs name uri => SourceDocs name (stripQuotes uri)
  end.

Definition mapFilterValue (v : FilterValue) : FilterValue :=
  match v with
  | ValString s => ValString (stripQuotes s)
  | ValNumber n => ValNumber n
  | ValParam p => ValParam p
  end.

Fixpoint mapWhereExpr (expr : AstWhereExpr) : WhereExpr :=
  match expr with
  | AndExpr exprs => WAnd (map mapWhereExpr exprs)
  | OrExpr exprs => WOr (map mapWhereExpr exprs)
  | NotExpr e => WNot (mapWhereExpr e)
  | FieldFilter field op value => WField field op (mapFilterValue value)
  end.

Definition resolveRefName (ref : CrossRef) : str := default (refText ref) (ref_target ref).

Definition mapStep (step : AstStep) : Step :=
  match step with
  | AstSemantic name source wh queries limit =>
    IsSemantic (MkStepSemantic name source (mapWhereExpr <$> wh) (map stripQuotes queries) limit)
  | AstWhere name source limit wh =>
    IsWhere (MkStepWhere name (resolveRefName source) limit (mapWhereExpr <$> wh))
  | AstLlm name source input mode system prompt =>
    IsLlm (MkStepLlm name source (input ≫= ref_target) mode (strip_truthy system)
             (stripQuotes prompt))
  end.

Definition mapOut (out : OutDef) : OutDef :=
  MkOut (out_target out) (strip_truthy (out_subject out)).

Definition mapPipeline (ast : AstPipeline) : PipelineDef :=
  MkPipeline (stripQuotes (ap_name ast)) (map mapSource (ap_sources ast)) (ap_mode ast)
    (stripQuotes (ap_llm ast)) (stripQuotes <$> ap_embedding ast)
    (map mapStep (ap_steps ast)) (mapOut (ap_out ast)).

(** * [validator.ts] *)

Inductive DiagSeverity := DiagError | DiagWarning.

Record PipelineDiagnostic := MkDiag {
  diag_severity : DiagSeverity; diag_message : str; diag_ref : option str }.

(** [x && ...] on an optional string *)
Definition truthy_opt (x : option str) : bool :=
  match x with Some s => negb (bool_decide (s = [])) | None => false end.

(** [steps.findIndex(t => t.name === name)] *)
Definition find_step (steps : list Step) (name : str) : option nat :=
  fst <$> list_find (λ t, step_name t = name) steps.

Definition step_error (name rest : str) : PipelineDiagnostic :=
  MkDiag DiagError (#"Step " ++ quoted name ++ #": " ++ rest) (Some name).

(** The reference check shared in shape by the semantic and the llm case:
    [known] names are fine, others must be an earlier step. *)
Definition check_reference (steps : list Step) (i : nat) (known : bool) (name source what : str)
    : list PipelineDiagnostic :=
  if known then []
  else match find_step steps source with
       | None => [step_error name (#"source " ++ quoted source ++ #" is not a known step or " ++
                                   what ++ #".")]
       | Some srcIdx =>
         if i <=? srcIdx
         then [step_error name (#"source " ++ quoted source ++ #" must be a preceding step.")]
         else []
       end.

Section validate.
Context (def : PipelineDef).

Definition docSources : gset str :=
  list_to_set (filter_map (λ s, match s with SourceDocs n _ => Some n | _ => None end)
                 (pl_sources def)).
Definition dbSources : gset str :=
  list_to_set (filter_map (λ s, match s with SourceDb n _ _ => Some n | _ => None end)
                 (pl_sources def)).
Definition stepNames : gset str := list_to_set (step_name <$> pl_steps def).

Definition check_semantic (i : nat) (s : StepSemantic) : list PipelineDiagnostic :=
  (if decide (ss_source s ∈ docSources) then
     [step_error (ss_name s) #"semantic steps operate on a db vector column, not a docs source."]
   else check_reference (pl_steps def) i (bool_decide (ss_source s ∈ dbSources))
          (ss_name s) (ss_source s) #"db source") ++
  (if truthy_opt (pl_embedding def) then []
   else [step_error (ss_name s) #"semantic steps require an embedding model declaration."]) ++
  (match ss_queries s with
   | [] => [step_error (ss_name s) #"at least one query is required."]
   | _ => []
   end).

Definition check_where (s : StepWhere) : list PipelineDiagnostic :=
  if decide (sw_source s ∈ dbSources) then []
  else [step_error (sw_name s) #"where steps may only reference a db source."].

Definition check_input (i : nat) (s : StepLlm) : list PipelineDiagnostic :=
  match sl_input s with
  | None => []
  | Some input =>
    if decide (input ∉ stepNames) then
      [step_error (sl_name s) (#"input " ++ quoted input ++ #" references an unknown step.")]
    else if decide (input = sl_name s) then
      [step_error (sl_name s) #"input must not reference itself."]
    else match find_step (pl_steps def) input with
         | Some inputIndex =>
           if i <=? inputIndex
           then [step_error (sl_name s) (#"input " ++ quoted input ++ #" must be a preceding step.")]
           else []
         | None => []
         end
  end.

Definition check_llm (i : nat) (s : StepLlm) : list PipelineDiagnostic :=
  check_reference (pl_steps def) i
    (existsb (λ src, bool_decide (source_name src = sl_source s)) (pl_sources def))
    (sl_name s) (sl_source s) #"source" ++
  check_input i s.

Definition check_step (i : nat) (step : Step) : list PipelineDiagnostic :=
  match step with
  | IsSemantic s => check_semantic i s
  | IsWhere s => check_where s
  | IsLlm s => check_llm i s
  end.
End validate.

(** The two uniqueness loops. *)
Fixpoint check_unique (what : str) (seen : gset str) (names : list str)
    : list PipelineDiagnostic :=
  match names with
  | [] => []
  | n :: names =>
    (if decide (n ∈ seen)
     then [MkDiag DiagError (#"Duplicate " ++ what ++ #" name " ++ quoted n ++ #".") (Some n)]
     else []) ++ check_unique what ({[n]} ∪ seen) names
  end.

Definition is_semantic (s : Step) : bool := match s with IsSemantic _ => true | _ => false end.

Definition validatePipeline (def : PipelineDef) : list PipelineDiagnostic :=
  (match pl_mode def, filter (λ s, is_semantic s = true) (pl_steps def) with
   | ModeMass, [] =>
     [MkDiag DiagError
        (#"Pipeline mode " ++ quoted #"mass" ++
         #" requires at least one semantic step for vector pre-selection.") None]
   | _, _ => []
   end) ++
  (match out_target (pl_out def) with
   | OutNats =>
     if truthy_opt (out_subject (pl_out def)) then []
     else [MkDiag DiagError (#"Output target " ++ quoted #"nats" ++ #" requires a subject.") None]
   | _ => []
   end) ++
  concat (imap (check_step def) (pl_steps def)) ++
  check_unique #"source" ∅ (source_name <$> pl_sources def) ++
  check_unique #"step" ∅ (step_name <$> pl_steps def).

(** * [parser.ts]

    The language services are the parameter: what building a document yields
    (the tree, if the parser produced one, and diagnostics), or a throw.  The
    workspace's document store is the explicit state. *)

Record LangiumDiagnostic := MkLangiumDiag { lsp_severity : option N; lsp_message : str }.

Record ParsePipelineResult := MkParseResult {
  pr_def : option PipelineDef; pr_diagnostics : list PipelineDiagnostic }.

Definition of_langium (d : LangiumDiagnostic) : PipelineDiagnostic :=
  MkDiag (if decide (lsp_severity d = Some 1%N) then DiagError else DiagWarning)
         (lsp_message d) None.

Definition is_error (d : PipelineDiagnostic) : bool :=
  match diag_severity d with DiagError => true | DiagWarning => false end.

(** [documents.addDocument(doc)] *)
Definition add_document (uri : str) (docs : gset str) : gset str * outcome unit :=
  if decide (uri ∈ docs)
  then (docs, Throw (#"A document with the URI '" ++ uri ++ #"' is already present."))
  else ({[uri]} ∪ docs, Ok tt).

Section parse.
Variable build : str → outcome (option AstPipeline * list LangiumDiagnostic).

(** The body of the [try]. *)
Definition parse_body (source : str) : outcome ParsePipelineResult :=
  '(value, langium) ← build source;
  let diags := of_langium <$> langium in
  let parseErrors := filter (λ d, is_error d = true) diags in
  match parseErrors, value with
  | [], Some ast =>
    let def := mapPipeline ast in
    Ok (MkParseResult (Some def) (diags ++ validatePipeline def))
  | _, _ => Ok (MkParseResult None diags)
  end.

Definition parsePipeline (source uri : str) (documents : gset str)
    : gset str * outcome ParsePipelineResult :=
  let documents := if decide (uri ∈ documents) then documents ∖ {[uri]} else documents in
  match add_document uri documents with
  | (documents, Throw e) => (documents, Throw e)
  | (documents, Ok _) =>
    let result := parse_body source in
    (documents ∖ {[uri]}, result)
  end.
End parse.

(** * The rules of a valid pipeline, declaratively *)

Definition is_source (def : PipelineDef) (n : str) : Prop := n ∈ source_name <$> pl_sources def.
Definition is_db_source (def : PipelineDef) (n : str) : Prop :=
  ∃ table dsn, SourceDb n table dsn ∈ pl_sources def.
Definition is_docs_source (def : PipelineDef) (n : str) : Prop :=
  ∃ uri, SourceDocs n uri ∈ pl_sources def.

(** Some step before position [i] has the name. *)
Definition precedes (def : PipelineDef) (i : nat) (n : str) : Prop :=
  n ∈ step_name <$> take i (pl_steps def).

Definition step_well_formed (def : PipelineDef) (i : nat) (step : Step) : Prop :=
  match step with
  | IsSemantic s =>
    ¬ is_docs_source def (ss_source s) ∧
    (is_db_source def (ss_source s) ∨ precedes def i (ss_source s)) ∧
    (∃ m, pl_embedding def = Some m ∧ m ≠ []) ∧ ss_queries s ≠ []
  | IsWhere s => is_db_source def (sw_source s)
  | IsLlm s =>
    (is_source def (sl_source s) ∨ precedes def i (sl_source s)) ∧
    (∀ input, sl_input s = Some input → precedes def i input ∧ input ≠ sl_name s)
  end.

Definition WellFormed (def : PipelineDef) : Prop :=
  (pl_mode def = ModeMass → ∃ s, IsSemantic s ∈ pl_steps def) ∧
  (out_target (pl_out def) = OutNats → ∃ subject, out_subject (pl_out def) = Some subject ∧ subject ≠ []) ∧
  (∀ i step, pl_steps def !! i = Some step → step_well_formed def i step) ∧
  NoDup (source_name <$> pl_sources def) ∧
  NoDup (step_name <$> pl_steps def).

(** * Lemmas *)

Lemma truthy_opt_true x : truthy_opt x = true ↔ ∃ s, x = Some s ∧ s ≠ [].
Proof.
  destruct x as [s|]; cbn [truthy_opt]; [|naive_solver].
  rewrite negb_true_iff, bool_decide_eq_false. naive_solver.
Qed.

Lemma elem_of_docSources def n : n ∈ docSources def ↔ is_docs_source def n.
Proof.
  unfold docSources, is_docs_source. rewrite elem_of_list_to_set, filter_map_omap, list_elem_of_omap.
  split.
  - intros ([m t d|m u] & Hin & [=]). subst. eauto.
  - intros [u Hu]. by exists (SourceDocs n u).
Qed.

Lemma elem_of_dbSources def n : n ∈ dbSources def ↔ is_db_source def n.
Proof.
  unfold dbSources, is_db_source. rewrite elem_of_list_to_set, filter_map_omap, list_elem_of_omap.
  split.
  - intros ([m t d|m u] & Hin & [=]). subst. eauto.
  - intros (t & d & Hu). by exists (SourceDb n t d).
Qed.

Lemma find_step_Some (steps : list Step) n j :
  find_step steps n = Some j → (∃ s, steps !! j = Some s ∧ step_name s = n) ∧
    n ∉ step_name <$> take j steps.
Proof.
  unfold find_step. intros ([j' s] & Hf & ->)%fmap_Some. cbn [fst].
  apply list_find_Some in Hf as (Hs & Hn & Hmin). split; [by exists s|].
  intros (t & -> & Ht)%list_elem_of_fmap. apply list_elem_of_lookup in Ht as [k Hk].
  apply lookup_take_Some in Hk as [Hk Hlt]. by apply (Hmin k t).
Qed.

Lemma find_step_None (steps : list Step) n : find_step steps n = None ↔ n ∉ step_name <$> steps.
Proof.
  unfold find_step. rewrite fmap_None. split.
  - intros H%list_find_None. rewrite Forall_forall in H.
    intros (s & -> & Hs)%list_elem_of_fmap. by apply (H s).
  - intros H. apply list_find_None, Forall_forall. intros s Hs <-. apply H.
    by apply list_elem_of_fmap_2.
Qed.

(** The first occurrence is before [i] exactly when some occurrence is. *)
Lemma find_step_precedes def i n :
  (∃ j, find_step (pl_steps def) n = Some j ∧ j < i) ↔ precedes def i n.
Proof.
  unfold precedes. split.
  - intros (j & ((s & Hs & <-) & _)%find_step_Some & Hlt). apply list_elem_of_fmap.
    exists s. split; [done|]. apply list_elem_of_lookup. exists j. by rewrite lookup_take_lt.
  - intros Hin. destruct (find_step (pl_steps def) n) as [j|] eqn:E.
    + exists j. split; [done|]. apply find_step_Some in E as [_ Hno].
      destruct (decide (j < i)) as [|Hge]; [done|]. exfalso. apply Hno.
      apply list_elem_of_fmap in Hin as (s & -> & Hs). apply list_elem_of_fmap.
      exists s. split; [done|]. apply list_elem_of_lookup in Hs as [k Hk].
      apply lookup_take_Some in Hk as [Hk Hlt].
      apply list_elem_of_lookup. exists k. rewrite lookup_take_lt by lia. done.
    + exfalso. apply find_step_None in E. apply E.
      apply list_elem_of_fmap in Hin as (s & -> & Hs). apply list_elem_of_fmap_2.
      apply elem_of_take in Hs as (k & Hk & _). by eapply list_elem_of_lookup_2.
Qed.

Lemma check_reference_nil def i known n src what :
  check_reference (pl_steps def) i known n src what = [] ↔ known = true ∨ precedes def i src.
Proof.
  unfold check_reference. rewrite <- find_step_precedes. destruct known; [naive_solver|].
  destruct (find_step (pl_steps def) src) as [j|].
  - destruct (Nat.leb_spec i j); split; try done; naive_solver lia.
  - split; [done|]. intros [?|(j & ? & _)]; done.
Qed.

Lemma check_semantic_nil def i s :
  check_semantic def i s = [] ↔ step_well_formed def i (IsSemantic s).
Proof.
  unfold check_semantic. cbn [step_well_formed]. rewrite !app_nil_iff.
  rewrite <- (truthy_opt_true (pl_embedding def)), <- elem_of_docSources, <- elem_of_dbSources.
  assert (H1 : (if truthy_opt (pl_embedding def) then []
     else [step_error (ss_name s) #"semantic steps require an embedding model declaration."]) = [] ↔
    truthy_opt (pl_embedding def) = true) by (by destruct (truthy_opt _)).
  assert (H2 : (match ss_queries s with
    | [] => [step_error (ss_name s) #"at least one query is required."] | _ => [] end) = [] ↔
    ss_queries s ≠ []) by (by destruct (ss_queries s)).
  rewrite H1, H2. destruct (decide (ss_source s ∈ docSources def)); [naive_solver|].
  rewrite check_reference_nil, bool_decide_eq_true. tauto.
Qed.

Lemma check_input_nil def i s :
  check_input def i s = [] ↔
  ∀ input, sl_input s = Some input → precedes def i input ∧ input ≠ sl_name s.
Proof.
  unfold check_input. destruct (sl_input s) as [input|]; [|naive_solver].
  transitivity (precedes def i input ∧ input ≠ sl_name s); [|naive_solver].
  rewrite <- (find_step_precedes def i input).
  destruct (decide (input ∉ stepNames def)) as [Hn|Hn].
  - split; [done|]. intros [(j & Hj & _) _]. exfalso.
    apply find_step_Some in Hj as [(t & Ht & <-) _]. apply Hn. unfold stepNames.
    rewrite elem_of_list_to_set. by eapply list_elem_of_fmap_2, list_elem_of_lookup_2.
  - destruct (decide (input = sl_name s)) as [->|Hne]; [split; [done|by intros [_ ?]]|].
    destruct (find_step (pl_steps def) input) as [j|] eqn:E.
    + destruct (Nat.leb_spec i j); split; try done.
      * intros [(k & [= <-] & ?) _]. lia.
      * intros _. split; [eauto|done].
    + exfalso. apply Hn. unfold stepNames. rewrite elem_of_list_to_set. by apply find_step_None.
Qed.

Lemma is_source_existsb def n :
  existsb (λ src, bool_decide (source_name src = n)) (pl_sources def) = true ↔ is_source def n.
Proof.
  unfold is_source. rewrite existsb_exists, list_elem_of_fmap. split.
  - intros (s & Hs & Hn%bool_decide_eq_true). exists s. by rewrite list_elem_of_In.
  - intros (s & -> & Hs). exists s. rewrite <- list_elem_of_In. split; [done|].
    by apply bool_decide_eq_true.
Qed.

Lemma check_step_nil def i step : check_step def i step = [] ↔ step_well_formed def i step.
Proof.
  destruct step as [s|s|s]; cbn [check_step].
  - unfold check_where. cbn [step_well_formed]. rewrite <- elem_of_dbSources. by case_decide.
  - apply check_semantic_nil.
  - unfold check_llm. cbn [step_well_formed].
    by rewrite app_nil_iff, check_reference_nil, check_input_nil, is_source_existsb.
Qed.

Lemma check_unique_nil what seen names :
  check_unique what seen names = [] ↔ NoDup names ∧ Forall (λ n, n ∉ seen) names.
Proof.
  revert seen. induction names as [|n names IH]; intros seen; cbn [check_unique].
  - split; [split; constructor|done].
  - rewrite app_nil_iff, IH, NoDup_cons, Forall_cons.
    assert (H : (if decide (n ∈ seen) then
      [MkDiag DiagError (#"Duplicate " ++ what ++ #" name " ++ quoted n ++ #".") (Some n)]
      else []) = [] ↔ n ∉ seen) by (by case_decide).
    rewrite H, !Forall_forall. split.
    + intros (Hn & Hnd & Hall). split_and!; [|done|done|set_solver].
      intros Hin. apply Hall in Hin. set_solver.
    + intros ([Hno Hnd] & Hn & Hall). split_and!; [done..|].
      intros x Hx. apply not_elem_of_union. split; [|by apply Hall].
      apply not_elem_of_singleton. by intros ->.
Qed.

Lemma check_steps_nil def :
  concat (imap (check_step def) (pl_steps def)) = [] ↔
  ∀ i step, pl_steps def !! i = Some step → step_well_formed def i step.
Proof.
  rewrite concat_nil_iff, Forall_lookup. split.
  - intros H i step Hs. apply check_step_nil. apply (H i). by rewrite list_lookup_imap, Hs.
  - intros H i l Hl. rewrite list_lookup_imap in Hl.
    destruct (pl_steps def !! i) as [step|] eqn:Hs; [|done]. injection Hl as <-.
    by apply check_step_nil, H.
Qed.

Lemma some_semantic def :
  filter (λ s, is_semantic s = true) (pl_steps def) ≠ [] ↔ ∃ s, IsSemantic s ∈ pl_steps def.
Proof.
  split.
  - destruct (filter _ (pl_steps def)) as [|s l] eqn:E; [done|]. intros _.
    assert (Hs : s ∈ filter (λ s, is_semantic s = true) (pl_steps def)) by (rewrite E; by left).
    apply list_elem_of_filter in Hs as [Hsem Hs]. destruct s; try done. eauto.
  - intros [s Hs] E.
    assert (Hin : IsSemantic s ∈ filter (λ s, is_semantic s = true) (pl_steps def))
      by (by apply list_elem_of_filter).
    rewrite E in Hin. by apply elem_of_nil in Hin.
Qed.

Lemma validatePipeline_nil_iff def : validatePipeline def = [] ↔ WellFormed def.
Proof.
  unfold validatePipeline, WellFormed.
  rewrite !app_nil_iff, check_steps_nil, !check_unique_nil.
  assert (Hempty : ∀ l : list str, Forall (λ n, n ∉ (∅ : gset str)) l).
  { intros l. apply Forall_forall. intros. apply not_elem_of_empty. }
  rewrite <- some_semantic, <- (truthy_opt_true (out_subject (pl_out def))).
  destruct (pl_mode def), (filter _ (pl_steps def)), (out_target (pl_out def)),
    (truthy_opt (out_subject (pl_out def))); naive_solver.
Qed.

Lemma parsePipeline_eq build source uri documents :
  parsePipeline build source uri documents = (documents ∖ {[uri]}, parse_body build source).
Proof.
  unfold parsePipeline, add_document.
  assert (Hpre : (if decide (uri ∈ documents) then documents ∖ {[uri]} else documents) =
                 documents ∖ {[uri]}) by (case_decide; set_solver).
  rewrite Hpre. rewrite decide_False by set_solver. f_equal. set_solver.
Qed.

Lemma check_reference_errors steps i known n src what :
  Forall (λ d, is_error d = true) (check_reference steps i known n src what).
Proof.
  unfold check_reference. destruct known; [constructor|].
  destruct (find_step steps src); [case_match|]; repeat constructor.
Qed.

Lemma check_unique_errors what seen names :
  Forall (λ d, is_error d = true) (check_unique what seen names).
Proof.
  revert seen. induction names as [|n names IH]; intros seen; cbn [check_unique]; [constructor|].
  apply Forall_app. split; [case_decide; repeat constructor|apply IH].
Qed.

Lemma check_step_errors def i step : Forall (λ d, is_error d = true) (check_step def i step).
Proof.
  destruct step as [s|s|s]; cbn [check_step].
  - unfold check_where. case_decide; repeat constructor.
  - unfold check_semantic. rewrite !Forall_app. split_and!.
    + case_decide; [repeat constructor|apply check_reference_errors].
    + case_match; repeat constructor.
    + case_match; repeat constructor.
  - unfold check_llm. apply Forall_app. split; [apply check_reference_errors|].
    unfold check_input. repeat case_match; repeat constructor.
Qed.

(** Every diagnostic of the validator is an error. *)
Lemma validatePipeline_errors def : Forall (λ d, is_error d = true) (validatePipeline def).
Proof.
  unfold validatePipeline. rewrite !Forall_app. split_and!; try apply check_unique_errors.
  - repeat case_match; repeat constructor.
  - repeat case_match; repeat constructor.
  - apply Forall_concat, Forall_lookup. intros i l Hl. rewrite list_lookup_imap in Hl.
    destruct (pl_steps def !! i); [|done]. injection Hl as <-. apply check_step_errors.
Qed.

(** * Theorems *)

(** C9: the validator decides well-formedness: it is silent exactly on the
    pipelines that satisfy the declarative rules (mass mode has a semantic
    step, nats has a subject, every reference is a suitable source or an
    earlier step, names are unique). *)
Theorem validatePipeline_decides def : validatePipeline def = [] ↔ WellFormed def.
Proof. apply validatePipeline_nil_iff. Qed.

(** What a step reads: a source or the output of a step, by name. *)
Definition step_reads (s : Step) : list str :=
  match s with
  | IsWhere s => [sw_source s]
  | IsSemantic s => [ss_source s]
  | IsLlm s => sl_source s :: match sl_input s with Some i => [i] | None => [] end
  end.

(** Executing the steps in order, each adding its output to what is there:
    whether every read finds its name. *)
Fixpoint runs (available : list str) (steps : list Step) : bool :=
  match steps with
  | [] => true
  | s :: steps =>
    forallb (λ n, bool_decide (n ∈ available)) (step_reads s) && runs (available ++ [step_name s]) steps
  end.

Lemma well_formed_reads def i step n :
  step_well_formed def i step → n ∈ step_reads step → is_source def n ∨ precedes def i n.
Proof.
  assert (Hdb : ∀ n, is_db_source def n → is_source def n).
  { intros m (t & d & Hin). apply list_elem_of_fmap. by exists (SourceDb m t d). }
  destruct step as [s|s|s]; cbn [step_well_formed step_reads].
  - intros H ->%list_elem_of_singleton. left. by apply Hdb.
  - intros (_ & H & _) ->%list_elem_of_singleton. destruct H; [left; by apply Hdb|by right].
  - intros [Hsrc Hin] [->|Hi]%elem_of_cons; [done|].
    destruct (sl_input s) as [input|]; [|by apply elem_of_nil in Hi].
    apply list_elem_of_singleton in Hi as ->. right. by apply (Hin input).
Qed.

(** C10: a pipeline the validator accepts can be executed step by step in the
    order it is written: each step finds its source and its input among the
    sources and the outputs of the steps before it. *)
Theorem valid_pipeline_runs def :
  validatePipeline def = [] → runs (source_name <$> pl_sources def) (pl_steps def) = true.
Proof.
  unfold validatePipeline. rewrite !app_nil_iff, check_steps_nil. intros (_ & _ & Hwf & _).
  assert (H : ∀ before rest, pl_steps def = before ++ rest →
    runs ((source_name <$> pl_sources def) ++ (step_name <$> before)) rest = true).
  { intros before rest. revert before. induction rest as [|s rest IH]; intros before Heq; [done|].
    cbn [runs]. apply andb_true_iff. split.
    - apply forallb_forall. intros n Hn. apply bool_decide_eq_true, elem_of_app.
      apply list_elem_of_In in Hn.
      assert (Hs : pl_steps def !! length before = Some s)
        by (rewrite Heq; by apply list_lookup_middle).
      destruct (well_formed_reads def _ s n (Hwf _ _ Hs) Hn) as [?|Hp]; [by left|right].
      unfold precedes in Hp. by rewrite Heq, take_app_length in Hp.
    - rewrite <- app_assoc. change [step_name s] with (step_name <$> [s]). rewrite <- fmap_app.
      apply IH. by rewrite <- app_assoc. }
  specialize (H [] (pl_steps def) eq_refl). by rewrite app_nil_r in H.
Qed.

(** parsing leaves the document store as it found it, apart from the
    document of its own address, which is gone afterwards on every path: a
    normal result, parse errors, and a build that throws; and a document a
    previous call left behind never makes it fail. *)
Theorem parsePipeline_cleans build source uri documents :
  parsePipeline build source uri documents = (documents ∖ {[uri]}, parse_body build source).
Proof. apply parsePipeline_eq. Qed.

(** a definition is returned only when the language services report no
    error, and then the result carries no error at all exactly when the
    definition is well formed: callers that refuse errors run only
    well-formed pipelines. *)
Theorem parsePipeline_gate build source uri documents r def :
  (parsePipeline build source uri documents).2 = Ok r → pr_def r = Some def →
  filter (λ d, is_error d = true) (pr_diagnostics r) = [] ↔ WellFormed def.
Proof.
  rewrite parsePipeline_eq. cbn [snd]. unfold parse_body.
  intros ([value langium] & _ & H)%outcome_bind_Ok Hdef.
  destruct (filter _ (of_langium <$> langium)) as [|d ds] eqn:E; [|by injection H as <-].
  destruct value as [ast|]; [|by injection H as <-]. injection H as <-.
  cbn [pr_def pr_diagnostics] in *. injection Hdef as <-.
  rewrite filter_app, E. cbn [app].
  rewrite <- validatePipeline_nil_iff. rewrite filter_all; [done|].
  apply validatePipeline_errors.
Qed.

(** ** Witnesses *)

Definition sample_ast : AstPipeline :=
  MkAstPipeline (quoted #"Schaden") [SourceDb #"schaeden" #"pipeline_documents" None]
    ModeMass (quoted #"granite") (Some #"embed")
    [ AstWhere #"vor" (MkRef (Some #"schaeden") #"schaeden") (Some (num_of_Z 50))
        (Some (FieldFilter #"kategorie" FEq (ValString (quoted #"Einbruch"))));
      AstSemantic #"sem" #"vor" None [quoted #"Fenster"] None;
      AstLlm #"fazit" #"sem" (Some (MkRef (Some #"vor") #"vor")) Aggregate None (quoted #"Fasse zusammen") ]
    (MkOut OutEditor None).

Definition sample_pipeline : PipelineDef := mapPipeline sample_ast.

Lemma valid_pipeline_runs_witness :
  runs (source_name <$> pl_sources sample_pipeline) (pl_steps sample_pipeline) = true.
Proof. apply valid_pipeline_runs. vm_compute. reflexivity. Defined.

Definition sample_build (_ : str) : outcome (option AstPipeline * list LangiumDiagnostic) :=
  Ok (Some sample_ast, [MkLangiumDiag (Some 2%N) #"unused source"]).

Lemma parsePipeline_gate_witness :
  filter (λ d, is_error d = true)
    [MkDiag DiagWarning #"unused source" None] = [] ↔ WellFormed sample_pipeline.
Proof.
  apply (parsePipeline_gate sample_build #"text" #"file:///p" {[ #"file:///p" ]}
    (MkParseResult (Some sample_pipeline) [MkDiag DiagWarning #"unused source" None]));
    vm_compute; reflexivity.
Defined.
