(* ===== verification/JsonWrite.v ===== *)
(** [JSON.stringify] of the ECMAScript standard library, with the round trip
    through the parser of Json.v that the program's stores rely on. *)

From S2P Require Export Json.
From Stdlib Require DecimalPos.

(** * Definitions *)

Definition hex_digit (d : N) : N := if (d <? 10)%N then (d + 48)%N else (d + 87)%N.

(** The escape [\uXXXX]. *)
Definition hex4 (c : N) : str :=
  [backslash; 117; hex_digit (c / 16 / 16 / 16); hex_digit (c / 16 / 16 mod 16);
   hex_digit (c / 16 mod 16); hex_digit (c mod 16)]%N.

Definition is_high (c : N) : bool := ((55296 <=? c) && (c <=? 56319))%N.
Definition is_low (c : N) : bool := ((56320 <=? c) && (c <=? 57343))%N.

(** A unit that is not part of a surrogate pair. *)
Definition quote_unit (c : N) : str :=
  if (c =? dq)%N then [backslash; dq]
  else if (c =? backslash)%N then [backslash; backslash]
  else if (c =? 8)%N then [backslash; 98%N]
  else if (c =? 12)%N then [backslash; 102%N]
  else if (c =? nl)%N then [backslash; 110%N]
  else if (c =? cr)%N then [backslash; 114%N]
  else if (c =? tab)%N then [backslash; 116%N]
  else if (c <? 32)%N || is_high c || is_low c then hex4 c
  else [c].

Fixpoint quote_units (s : str) : str :=
  match s with
  | [] => []
  | c :: s1 =>
    match s1 with
    | d :: s2 =>
      if is_high c && is_low d then c :: d :: quote_units s2 else quote_unit c ++ quote_units s1
    | [] => quote_unit c
    end
  end.

Definition json_quote (s : str) : str := [dq] ++ quote_units s ++ [dq].

(** The text of a value inside a document: an [undefined] element reads
    [null], an [undefined] property is left out. *)
Fixpoint json_text (v : jsval) : str :=
  match v with
  | VUndef | VNull | VBigInt _ => #"null"
  | VBool true => #"true"
  | VBool false => #"false"
  | VNum n => if is_finite n then num_to_string n else #"null"
  | VStr s => json_quote s
  | VArr l => #"[" ++ join #"," (map json_text l) ++ #"]"
  | VObj o =>
    #"{" ++ join #"," ((fix members (o : jsobj) : list str :=
      match o with
      | [] => []
      | (k, v) :: o =>
        if is_undef v then members o else (json_quote k ++ #":" ++ json_text v) :: members o
      end) o) ++ #"}"
  end.

Fixpoint has_bigint (v : jsval) : bool :=
  match v with
  | VBigInt _ => true
  | VArr l => existsb has_bigint l
  | VObj o => existsb (λ p : str * jsval, let '(_, v) := p in has_bigint v) o
  | _ => false
  end.

(** [JSON.stringify(v)]; [None] is [undefined]. *)
Definition json_stringify (v : jsval) : outcome (option str) :=
  if has_bigint v then Throw #"Do not know how to serialize a BigInt"
  else Ok (if is_undef v then None else Some (json_text v)).

(** ** The values a document stands for

    Objects list their properties the way an object does; numbers print
    without an exponent, and are either integers or decimals in lowest terms. *)

Definition goes_after (k k' : str) : bool :=
  match array_index k, array_index k' with
  | Some i, Some j => negb (i <? j)%N
  | Some _, None => false
  | None, _ => true
  end.

Fixpoint keys_ordered (prev ks : list str) : bool :=
  match ks with
  | [] => true
  | k :: ks => bool_decide (k ∉ prev) && forallb (goes_after k) prev && keys_ordered (prev ++ [k]) ks
  end.

Definition num_plain (n : jsnum) : bool :=
  match n with
  | Dec m e =>
    let k := Z.of_nat (length (show_N (Z.abs_N m))) in
    if decide (e = 0)%Z then (k <=? 21)%Z
    else ((e <? 0) && negb (m mod 10 =? 0) && (-6 <? k + e) && (k + e <=? 21))%Z
  | _ => false
  end.

Fixpoint json_plain (v : jsval) : bool :=
  match v with
  | VUndef | VBigInt _ => false
  | VNull | VBool _ | VStr _ => true
  | VNum n => num_plain n
  | VArr l => forallb json_plain l
  | VObj o => keys_ordered [] (o.*1) && forallb (λ p : str * jsval, let '(_, v) := p in json_plain v) o
  end.

Example stringify_1 :
  json_stringify (VObj [(#"2", VNull); (#"a", VArr [VNum (Dec 12 2); VUndef; VBool true]); (#"b", VUndef)])
  = Ok (Some (#"{" ++ quoted #"2" ++ #":null," ++ quoted #"a" ++ #":[1200,null,true]}")).
Proof. vm_compute. reflexivity. Qed.

Example stringify_2 :
  json_quote [55357; 56832; 55357; 10; 34; 1]%N =
  [34; 55357; 56832; 92; 117; 100; 56; 51; 100; 92; 110; 92; 34; 92; 117; 48; 48; 48; 49; 34]%N.
Proof. vm_compute. reflexivity. Qed.

(** * Strings read back *)

Lemma hex_value_digit d : (d < 16)%N → hex_value (hex_digit d) = Some d.
Proof.
  intros Hd. unfold hex_value, hex_digit, is_digit.
  destruct (N.ltb_spec d 10).
  - rewrite (proj2 (andb_true_iff _ _)) by (split; apply N.leb_le; lia). f_equal. lia.
  - rewrite (proj2 (andb_false_iff _ _)) by (right; apply N.leb_gt; lia).
    rewrite (proj2 (andb_true_iff _ _)) by (split; apply N.leb_le; lia). f_equal. lia.
Qed.

Lemma hex4_reads c s :
  (c < 65536)%N →
  json_string (hex4 c ++ s) = ('(body, rest) ← json_string s; Some (c :: body, rest)).
Proof.
  intros Hc. unfold hex4. cbn [app json_string]. change (backslash =? dq)%N with false.
  change (backslash <? 32)%N with false. rewrite N.eqb_refl. change (117 =? 117)%N with true.
  assert (c / 16 / 16 / 16 < 16)%N as Hq by (rewrite !N.Div0.div_div; apply N.Div0.div_lt_upper_bound; lia).
  pose proof (N.div_mod' c 16). pose proof (N.div_mod' (c / 16) 16).
  pose proof (N.div_mod' (c / 16 / 16) 16).
  pose proof (N.mod_lt c 16). pose proof (N.mod_lt (c / 16) 16). pose proof (N.mod_lt (c / 16 / 16) 16).
  rewrite (hex_value_digit _ Hq), !hex_value_digit by lia. cbn [mbind option_bind].
  destruct (json_string s) as [[body rest]|]; [|done]. cbn [mbind option_bind]. do 3 f_equal. lia.
Qed.

Lemma quote_unit_reads c s :
  json_string (quote_unit c ++ s) = ('(body, rest) ← json_string s; Some (c :: body, rest)).
Proof.
  unfold quote_unit.
  destruct (N.eqb_spec c dq) as [->|H1]; [reflexivity|].
  destruct (N.eqb_spec c backslash) as [->|H2]; [reflexivity|].
  destruct (N.eqb_spec c 8) as [->|]; [reflexivity|].
  destruct (N.eqb_spec c 12) as [->|]; [reflexivity|].
  destruct (N.eqb_spec c nl) as [->|]; [reflexivity|].
  destruct (N.eqb_spec c cr) as [->|]; [reflexivity|].
  destruct (N.eqb_spec c tab) as [->|]; [reflexivity|].
  destruct ((c <? 32)%N || is_high c || is_low c) eqn:E.
  - apply hex4_reads. unfold is_high, is_low in E.
    rewrite !orb_true_iff, !andb_true_iff, N.ltb_lt, !N.leb_le in E. lia.
  - apply orb_false_iff in E as [[E _]%orb_false_iff _]. cbn [app json_string].
    rewrite (proj2 (N.eqb_neq _ _) H1), E, (proj2 (N.eqb_neq _ _) H2). reflexivity.
Qed.

Lemma surrogate_reads c s :
  (55296 <= c)%N →
  json_string (c :: s) = ('(body, rest) ← json_string s; Some (c :: body, rest)).
Proof.
  intros Hc. cbn [json_string]. unfold dq, backslash.
  rewrite (proj2 (N.eqb_neq c 34)) by lia. rewrite (proj2 (N.ltb_ge c 32)) by lia.
  by rewrite (proj2 (N.eqb_neq c 92)) by lia.
Qed.

Lemma quote_units_reads n s rest :
  length s ≤ n → json_string (quote_units s ++ dq :: rest) = Some (s, rest).
Proof.
  revert s. induction n as [|n IH]; intros [|c s] Hn; cbn [length] in Hn; try reflexivity; [lia|].
  destruct s as [|d s].
  - cbn [quote_units]. by rewrite quote_unit_reads.
  - change (quote_units (c :: d :: s)) with
      (if is_high c && is_low d then c :: d :: quote_units s
       else quote_unit c ++ quote_units (d :: s)).
    destruct (is_high c && is_low d) eqn:E.
    + apply andb_true_iff in E as [Hc Hd]. unfold is_high, is_low in *. cbn [app].
      rewrite !andb_true_iff, !N.leb_le in Hc, Hd.
      rewrite !surrogate_reads by lia. cbn [length] in Hn. by rewrite IH by lia.
    + rewrite <- app_assoc, quote_unit_reads. by rewrite IH by lia.
Qed.

(** * Numbers read back *)

Lemma units_revapp u v :
  units_of_uint (Decimal.revapp u v) = reverse (units_of_uint u) ++ units_of_uint v.
Proof.
  revert v. induction u; intros w; cbn [Decimal.revapp units_of_uint]; [done|..];
    by rewrite IHu, reverse_cons, <- app_assoc.
Qed.

Lemma show_N_tenfold n : n ≠ 0%N → show_N (10 * n) = show_N n ++ [48%N].
Proof.
  destruct n as [|p]; [done|]. intros _. unfold show_N.
  change (N.to_uint (10 * N.pos p)) with (Decimal.rev (DecimalPos.Unsigned.to_lu (10 * N.pos p))).
  rewrite DecimalPos.Unsigned.to_ldec_tenfold.
  change (N.to_uint (N.pos p)) with (Decimal.rev (DecimalPos.Unsigned.to_lu (N.pos p))).
  unfold Decimal.rev. rewrite !units_revapp. cbn [units_of_uint]. by rewrite reverse_cons, !app_nil_r.
Qed.

Lemma show_N_pow a k : a ≠ 0%N → show_N (a * 10 ^ N.of_nat k) = show_N a ++ replicate k 48%N.
Proof.
  intros Ha. induction k as [|k IH]; [by rewrite N.mul_1_r, app_nil_r|].
  rewrite Nat2N.inj_succ, N.pow_succ_r'.
  replace (a * (10 * 10 ^ N.of_nat k))%N with (10 * (a * 10 ^ N.of_nat k))%N by lia.
  rewrite show_N_tenfold, IH.
  - rewrite <- app_assoc. f_equal. change [48%N] with (replicate 1 48%N). rewrite <- replicate_add.
    by rewrite Nat.add_1_r.
  - intros [|Hp]%N.eq_mul_0; [done|]. by apply N.pow_nonzero in Hp.
Qed.

Lemma num_normalise_spec fuel m e a e' :
  (0 < m)%Z → num_normalise fuel m e = (a, e') →
  ∃ k : nat, (e' = e + Z.of_nat k ∧ m = a * 10 ^ Z.of_nat k ∧ 0 < a)%Z.
Proof.
  revert m e. induction fuel as [|fuel IH]; intros m e Hm; cbn [num_normalise].
  - intros [= <- <-]. exists 0. split_and!; [lia|lia|done].
  - destruct (Z.eqb_spec (m mod 10) 0) as [E|E].
    + intros H. pose proof (Z.div_mod m 10). apply IH in H as (k & -> & Hk & Ha); [|lia].
      exists (S k). rewrite Nat2Z.inj_succ, Z.pow_succ_r by lia. split_and!; [lia| |done]. nia.
    + intros [= <- <-]. exists 0. split_and!; [lia|lia|done].
Qed.

Lemma num_to_string_eq m e :
  m ≠ 0%Z →
  num_to_string (Dec m e) =
  let '(a, e') := num_normalise (length (show_N (Z.abs_N m))) (Z.abs m) e in
  let digits := show_N (Z.abs_N a) in
  (if (m <? 0)%Z then #"-" else []) ++ show_decimal digits (Z.of_nat (length digits) + e').
Proof. by destruct m. Qed.

Lemma num_to_string_int (m : Z) :
  length (show_N (Z.abs_N m)) ≤ 21 → num_to_string (Dec m 0) = show_Z m.
Proof.
  intros Hlen. destruct (Z.eqb_spec m 0) as [->|Hm]; [reflexivity|]. rewrite num_to_string_eq by done.
  destruct (num_normalise _ _ _) as [a e'] eqn:E.
  apply num_normalise_spec in E as (k & -> & Hk & Ha); [|lia].
  assert (show_N (Z.abs_N m) = show_N (Z.abs_N a) ++ replicate k 48%N) as Hshow.
  { rewrite <- show_N_pow by lia. f_equal. apply N2Z.inj.
    rewrite N2Z.inj_mul, N2Z.inj_pow, !N2Z.inj_abs_N, nat_N_Z, Hk. rewrite (Z.abs_eq a) by lia. lia. }
  rewrite Hshow, length_app, length_replicate in Hlen. cbv zeta. unfold show_decimal.
  rewrite (proj2 (Z.leb_le _ _)), (proj2 (Z.leb_le _ 21)) by lia. cbn [andb].
  unfold zeros. replace (Z.to_nat _) with k by lia. rewrite <- Hshow. by destruct m.
Qed.

(** A decimal in lowest terms is printed as it is. *)
Lemma num_to_string_dec (m e : Z) :
  (e < 0)%Z → (m mod 10 ≠ 0)%Z →
  num_to_string (Dec m e) =
  (if (m <? 0)%Z then #"-" else []) ++
  show_decimal (show_N (Z.abs_N m)) (Z.of_nat (length (show_N (Z.abs_N m))) + e).
Proof.
  intros He Hm. assert (m ≠ 0%Z) as Hm0 by (intros ->; by apply Hm).
  rewrite num_to_string_eq by done.
  destruct (show_N (Z.abs_N m)) as [|d ds] eqn:E; [by apply show_N_nonempty in E|].
  cbn [length num_normalise].
  assert (Z.abs m mod 10 ≠ 0)%Z as Hab.
  { intros Hz. apply Hm. apply Z.mod_divide; [done|]. apply Z.divide_abs_r, Z.mod_divide; done. }
  rewrite (proj2 (Z.eqb_neq _ _) Hab). cbv beta iota zeta.
  replace (Z.abs_N (Z.abs m)) with (Z.abs_N m) by lia. by rewrite E.
Qed.

(** ** Reading a number *)

(** What may follow a value in a document. *)
Definition ends_value (rest : str) : Prop :=
  match rest with [] => True | c :: _ => c = 44%N ∨ c = 93%N ∨ c = 125%N ∨ c = nl end.

Lemma ends_value_no_digit rest : ends_value rest → no_digit_head rest.
Proof. destruct rest; [done|]. by intros [->|[->|[->| ->]]]. Qed.

Lemma digits_count_app s rest :
  forallb is_digit s = true → no_digit_head rest → digits_count (s ++ rest) = length s.
Proof.
  intros Hs Hr. induction s as [|c s IH].
  - destruct rest as [|c rest]; [done|]. cbn [app digits_count length] in *.
    unfold no_digit_head in Hr. by rewrite Hr.
  - cbn [forallb] in Hs. apply andb_true_iff in Hs as [Hc Hs].
    cbn [app digits_count length]. by rewrite Hc, IH.
Qed.

Lemma show_N_zero_head n u : N.to_uint n = Decimal.D0 u → n = 0%N.
Proof.
  intros E. pose proof (DecimalN.Unsigned.to_of (N.to_uint n)) as H.
  rewrite DecimalN.Unsigned.of_to, E, DecimalFacts.unorm_D0 in H.
  apply (f_equal N.of_uint) in E. rewrite DecimalN.Unsigned.of_to in E. rewrite E.
  destruct (Decimal.uint_eq_dec u Decimal.Nil) as [->|Hu]; [reflexivity|].
  apply DecimalFacts.nb_digits_unorm in Hu. rewrite <- H in Hu. cbn [Decimal.nb_digits] in Hu. lia.
Qed.

Lemma show_N_head n c s : show_N n = c :: s → n ≠ 0%N → c ≠ 48%N.
Proof.
  unfold show_N. intros E Hn ->. destruct (N.to_uint n) as [|u|u|u|u|u|u|u|u|u|u] eqn:Eu;
    try discriminate E. by apply show_N_zero_head in Eu.
Qed.

(** A numeral without a superfluous leading zero. *)
Definition whole_part (w : str) : Prop :=
  forallb is_digit w = true ∧ (w = [48%N] ∨ ∃ c s, w = c :: s ∧ c ≠ 48%N).

Lemma whole_part_show n : whole_part (show_N n).
Proof.
  split; [apply show_N_digits|]. destruct (decide (n = 0%N)) as [->|Hn]; [by left|right].
  destruct (show_N n) as [|c s] eqn:E; [by apply show_N_nonempty in E|].
  exists c, s. split; [done|]. by apply show_N_head in E.
Qed.

Lemma digit_prefix_app s rest :
  forallb is_digit s = true → no_digit_head rest →
  digit_prefix (s ++ rest) = s ∧ drop (digits_count (s ++ rest)) (s ++ rest) = rest.
Proof.
  intros Hs Hr. unfold digit_prefix. rewrite digits_count_app by done.
  by rewrite take_app_length, drop_app_length.
Qed.

Lemma json_int_reads w rest :
  whole_part w → no_digit_head rest → json_int (w ++ rest) = Some (w, rest).
Proof.
  intros [Hd [-> |(c & s & -> & H48)]] Hr; [done|]. cbn [forallb] in Hd.
  apply andb_true_iff in Hd as Hd'. destruct Hd' as [Hc _]. cbn [app json_int].
  rewrite (proj2 (N.eqb_neq _ _) H48), Hc. change (c :: s ++ rest) with ((c :: s) ++ rest).
  by destruct (digit_prefix_app (c :: s) rest Hd Hr) as [-> ->].
Qed.

(** The fraction of a decimal: empty, or a point and digits. *)
Definition fraction_text (frac : str) : str := match frac with [] => [] | _ => 46%N :: frac end.

Lemma json_frac_reads frac rest :
  forallb is_digit frac = true → ends_value rest → json_frac (fraction_text frac ++ rest) = (frac, rest).
Proof.
  intros Hd Hr. destruct frac as [|c s].
  - destruct rest as [|c rest]; [done|]. by destruct Hr as [->|[->|[->| ->]]].
  - cbn [fraction_text app json_frac]. change (46 =? 46)%N with true.
    change (c :: s ++ rest) with ((c :: s) ++ rest).
    destruct (digit_prefix_app (c :: s) rest Hd (ends_value_no_digit _ Hr)) as [Hp Hdr].
    rewrite Hp, Hdr. by rewrite digits_count_app by (done || by apply ends_value_no_digit).
Qed.

Lemma json_number_reads (neg : bool) w frac rest :
  whole_part w → forallb is_digit frac = true → ends_value rest →
  json_number ((if neg then #"-" else []) ++ w ++ fraction_text frac ++ rest) =
  Some (VNum (Dec (let m := Z.of_N (digits_value (w ++ frac)) in if neg then - m else m)
                  (- Z.of_nat (length frac))), rest).
Proof.
  intros Hw Hfr Hr.
  assert (json_exp rest = (0%Z, rest)) as He
    by (destruct rest as [|c rest]; [done|]; by destruct Hr as [->|[->|[->| ->]]]).
  assert (no_digit_head (fraction_text frac ++ rest)) as Hd
    by (destruct frac; [by apply ends_value_no_digit|done]).
  pose proof (json_int_reads w _ Hw Hd) as Hi. pose proof (json_frac_reads frac rest Hfr Hr) as Hf.
  unfold json_number. destruct neg.
  - cbv beta iota. change (#"-" ++ ?x) with (45%N :: x). cbv beta iota.
    change (45 =? 45)%N with true. cbv beta iota. rewrite Hi. cbn [mbind option_bind]. by rewrite Hf, He.
  - cbn [app]. destruct Hw as [Hwd Hw'].
    destruct w as [|c w]; [by destruct Hw' as [|(? & ? & ? & _)]|].
    cbn [forallb] in Hwd. apply andb_true_iff in Hwd as [Hc _]. unfold is_digit in Hc.
    rewrite andb_true_iff, !N.leb_le in Hc. cbn [app] in *.
    rewrite (proj2 (N.eqb_neq c 45)) by lia. rewrite Hi. cbn [mbind option_bind]. by rewrite Hf, He.
Qed.

(** ** The parts of a printed number *)

Lemma digits_value_zeros k s : digits_value (replicate k 48%N ++ s) = digits_value s.
Proof. induction k as [|k IH]; [done|]. cbn [replicate app]. exact IH. Qed.

Lemma digits_value_show_N n : digits_value (show_N n) = n.
Proof. rewrite <- (app_nil_r (show_N n)). by apply digits_value_show. Qed.

Lemma forallb_take_drop {A} (f : A → bool) n l :
  forallb f l = true → forallb f (take n l) = true ∧ forallb f (drop n l) = true.
Proof. rewrite <- (take_drop n l) at 1. by rewrite forallb_app, andb_true_iff. Qed.

(** A plain number is printed as a whole part and a fraction that denote it. *)
Lemma num_plain_parts n :
  num_plain n = true →
  ∃ (neg : bool) w frac,
    num_to_string n = (if neg then #"-" else []) ++ w ++ fraction_text frac ∧
    whole_part w ∧ forallb is_digit frac = true ∧
    n = Dec (let m := Z.of_N (digits_value (w ++ frac)) in if neg then - m else m)
            (- Z.of_nat (length frac)).
Proof.
  destruct n as [| |m e]; [done..|]. cbn [num_plain]. set (ds := show_N (Z.abs_N m)).
  assert (∀ neg v, neg = (m <? 0)%Z → v = Z.abs_N m →
            m = (let z := Z.of_N v in if neg then - z else z)%Z) as Hsign.
  { intros neg v -> ->. rewrite N2Z.inj_abs_N. cbv zeta. destruct (Z.ltb_spec m 0); lia. }
  pose proof (show_N_digits (Z.abs_N m)) as Hdig. fold ds in Hdig.
  case_decide as He.
  - subst e. rewrite Z.leb_le. intros Hlen. exists (m <? 0)%Z, ds, []. split_and!.
    + rewrite num_to_string_int by (unfold ds in Hlen; lia). cbn [fraction_text].
      rewrite app_nil_r. unfold ds. by destruct m.
    + apply whole_part_show.
    + done.
    + f_equal. apply Hsign; [done|]. rewrite app_nil_r. apply digits_value_show_N.
  - rewrite !andb_true_iff, negb_true_iff, Z.eqb_neq, !Z.ltb_lt, Z.leb_le. intros [[[Hneg Hm] H6] H21].
    rewrite num_to_string_dec by done. fold ds. unfold show_decimal.
    rewrite (proj2 (Z.leb_gt _ _)) by lia. cbn [andb].
    destruct (Z.ltb_spec 0 (Z.of_nat (length ds) + e)) as [Hpos|Hpos].
    + rewrite (proj2 (Z.leb_le _ 21)) by lia. cbn [andb].
      set (k := Z.to_nat (Z.of_nat (length ds) + e)).
      destruct (forallb_take_drop is_digit k ds Hdig) as [Ht Hd].
      exists (m <? 0)%Z, (take k ds), (drop k ds). split_and!; [| |done|].
      * do 2 f_equal. change #"." with [46%N]. cbn [app].
        destruct (drop k ds) eqn:E; [|done].
        apply (f_equal length) in E. rewrite length_drop in E. cbn [length] in E. lia.
      * split; [done|]. destruct (whole_part_show (Z.abs_N m)) as [_ [E|(c & s & E & Hc)]]; fold ds in E.
        { rewrite E in *. cbn [length] in *. lia. }
        right. rewrite E. exists c, (take (pred k) s). split; [|done].
        destruct k as [|k'] eqn:Ek; [lia|done].
      * rewrite take_drop. f_equal; [apply Hsign; [done|apply digits_value_show_N]|].
        rewrite length_drop. lia.
    + rewrite (proj2 (Z.ltb_lt _ _) H6), (proj2 (Z.leb_le _ 0)) by lia. cbn [andb].
      set (k := Z.to_nat (- (Z.of_nat (length ds) + e))).
      assert (forallb is_digit (replicate k 48%N ++ ds) = true) as Hall.
      { rewrite forallb_app, Hdig, andb_true_r. clear. by induction k. }
      exists (m <? 0)%Z, [48%N], (replicate k 48%N ++ ds). split_and!; [|by split; [|left]|done|].
      * f_equal. change #"0." with [48%N; 46%N]. unfold zeros. fold k. cbn [app].
        destruct (replicate k 48%N ++ ds) eqn:E; [|done].
        apply app_nil_iff in E as [_ E]. unfold ds in E. by apply show_N_nonempty in E.
      * rewrite (digits_value_zeros 1), digits_value_zeros.
        f_equal; [apply Hsign; [done|apply digits_value_show_N]|].
        rewrite length_app, length_replicate. lia.
Qed.

Lemma num_plain_reads n rest :
  num_plain n = true → ends_value rest → json_number (num_to_string n ++ rest) = Some (VNum n, rest).
Proof.
  intros Hp Hr. destruct (num_plain_parts n Hp) as (neg & w & frac & -> & Hw & Hf & E).
  rewrite <- !app_assoc, json_number_reads by done. by rewrite <- E.
Qed.

Lemma num_plain_head n :
  num_plain n = true → ∃ a s, num_to_string n = a :: s ∧ (is_digit a = true ∨ a = 45%N).
Proof.
  intros Hp. destruct (num_plain_parts n Hp) as (neg & w & frac & -> & [Hd Hw] & _).
  destruct neg; [exists 45%N, (w ++ fraction_text frac); by split; [|right]|].
  destruct w as [|c w]; [by destruct Hw as [|(? & ? & ? & _)]|].
  cbn [forallb] in Hd. apply andb_true_iff in Hd as [Hc _].
  exists c, (w ++ fraction_text frac). by split; [|left].
Qed.

(** * Values read back *)

Lemma jsval_nested_ind (P : jsval → Prop) :
  (∀ v, match v with VArr _ | VObj _ => False | _ => True end → P v) →
  (∀ l, Forall P l → P (VArr l)) → (∀ o, Forall (λ p : str * jsval, P p.2) o → P (VObj o)) →
  ∀ v, P v.
Proof.
  intros Hs Ha Ho. fix IH 1. intros [| |b|n|z|s|l|o]; try (by apply Hs).
  - apply Ha. induction l as [|v l IHl]; [apply Forall_nil_2|]. apply Forall_cons_2; [apply IH|exact IHl].
  - apply Ho. induction o as [|[k v] o IHo]; [apply Forall_nil_2|].
    apply Forall_cons_2; [apply IH|exact IHo].
Qed.

Lemma eat_unit c a s : json_ws a = false → eat c (a :: s) = if (a =? c)%N then Some s else None.
Proof. intros Ha. unfold eat. cbn [skip_ws]. by rewrite Ha. Qed.

(** The units a document of a value may begin with. *)
Definition opens_value (a : N) : bool :=
  is_digit a || bool_decide (a ∈ [45; 34; 91; 123; 110; 116; 102]%N).

Lemma opens_value_spec a : opens_value a = true → json_ws a = false ∧ a ≠ 93%N ∧ a ≠ 125%N.
Proof.
  unfold opens_value, is_digit, json_ws. rewrite orb_true_iff, andb_true_iff, !N.leb_le, bool_decide_eq_true.
  unfold tab, nl, cr. intros H.
  assert (a ≠ 9 ∧ a ≠ 10 ∧ a ≠ 13 ∧ a ≠ 32 ∧ a ≠ 93 ∧ a ≠ 125)%N as (H1 & H2 & H3 & H4 & H5 & H6)
    by (destruct H as [?|H]; [lia|]; rewrite !elem_of_cons, elem_of_nil in H; lia).
  rewrite (proj2 (N.eqb_neq _ _) H1), (proj2 (N.eqb_neq _ _) H2), (proj2 (N.eqb_neq _ _) H3),
    (proj2 (N.eqb_neq _ _) H4). done.
Qed.

Lemma json_text_head v :
  json_plain v = true → ∃ a s, json_text v = a :: s ∧ opens_value a = true.
Proof.
  destruct v as [| |[]|n| |s|l|o]; try done; intros Hp.
  - by do 2 eexists.
  - by do 2 eexists.
  - by do 2 eexists.
  - cbn [json_plain] in Hp. cbn [json_text]. destruct n as [| |m e]; try discriminate Hp.
    cbn [is_finite]. destruct (num_plain_head _ Hp) as (a & s & -> & Ha). exists a, s. split; [done|].
    unfold opens_value. by destruct Ha as [-> | ->].
  - by do 2 eexists.
  - by do 2 eexists.
  - by do 2 eexists.
Qed.

(** [v] is read off the front of a document. *)
Definition reads (v : jsval) : Prop :=
  json_plain v = true → ∀ fuel rest, ends_value rest →
  2 * length (json_text v ++ rest) < fuel → json_value fuel (json_text v ++ rest) = Some (v, rest).

Lemma value_scalar fuel a s :
  json_ws a = false → a ≠ 123%N → a ≠ 91%N → a ≠ dq → json_value (S fuel) (a :: s) = json_scalar (a :: s).
Proof.
  intros Ha H1 H2 H3. cbn [json_value]. rewrite !eat_unit by done.
  rewrite (proj2 (N.eqb_neq _ _) H1), (proj2 (N.eqb_neq _ _) H2), (proj2 (N.eqb_neq _ _) H3).
  cbn [skip_ws]. by rewrite Ha.
Qed.

Lemma reads_num n : reads (VNum n).
Proof.
  intros Hp fuel rest Hr Hf. cbn [json_plain] in Hp. destruct fuel as [|fuel]; [lia|]. clear Hf.
  cbn [json_text]. destruct n as [| |m e]; try discriminate Hp. cbn [is_finite].
  rewrite <- (num_plain_reads _ rest Hp Hr).
  destruct (num_plain_head _ Hp) as (a & s & -> & Ha). cbn [app].
  assert (a = 45 ∨ 48 <= a <= 57)%N as Ha'.
  { destruct Ha as [Ha| ->]; [right|by left]. unfold is_digit in Ha.
    by rewrite andb_true_iff, !N.leb_le in Ha. }
  rewrite value_scalar.
  - unfold json_scalar. cbn [starts_with].
    assert (∀ p t, (a =? p)%N = false → starts_with (p :: t) (a :: s ++ rest) = false) as Hst.
    { intros p t E. cbn [starts_with]. by rewrite N.eqb_sym, E. }
    change #"true" with (116%N :: #"rue"). change #"false" with (102%N :: #"alse").
    change #"null" with (110%N :: #"ull").
    by rewrite !Hst by (apply N.eqb_neq; lia).
  - unfold json_ws, tab, nl, cr. rewrite !orb_false_iff, !N.eqb_neq. lia.
  - lia.
  - lia.
  - unfold dq. lia.
Qed.

Lemma reads_str s : reads (VStr s).
Proof.
  intros _ fuel rest Hr Hf. destruct fuel as [|fuel]; [lia|]. cbn [json_text]. unfold json_quote.
  rewrite <- !app_assoc. cbn [app json_value]. rewrite !eat_unit by done.
  change (dq =? 123)%N with false. change (dq =? 91)%N with false. rewrite N.eqb_refl.
  cbv beta iota. rewrite (quote_units_reads (length s)) by done. done.
Qed.

Lemma reads_elements l acc fuel rest :
  l ≠ [] → Forall reads l → forallb json_plain l = true →
  S (2 * length (join #"," (map json_text l) ++ 93%N :: rest)) < fuel →
  json_elements fuel acc (join #"," (map json_text l) ++ 93%N :: rest) = Some (VArr (acc ++ l), rest).
Proof.
  intros Hne Hl. revert Hne acc fuel. induction Hl as [|v l Hv Hl IH]; intros Hne acc fuel Hp Hf; [done|].
  cbn [forallb] in Hp. apply andb_true_iff in Hp as [Hpv Hp]. destruct fuel as [|fuel]; [lia|].
  cbn [json_elements]. destruct l as [|w l].
  - cbn [map join] in *. rewrite Hv by first [done|by right; left|lia]. cbn [mbind option_bind].
    by rewrite !eat_unit by done.
  - cbn [map] in *. rewrite join_cons in * by done. rewrite <- !app_assoc in *.
    rewrite Hv by first [done|by left|lia]. cbn [mbind option_bind].
    change (#"," ++ ?x) with (44%N :: x). rewrite eat_unit by done. rewrite N.eqb_refl.
    cbv beta iota. rewrite IH; [by rewrite <- app_assoc|done|done|].
    rewrite length_app in Hf. change (#"," ++ ?x) with (44%N :: x) in Hf. cbn [length] in Hf. lia.
Qed.

Lemma reads_arr l : Forall reads l → reads (VArr l).
Proof.
  intros Hl Hp fuel rest Hr Hf. cbn [json_plain] in Hp. revert Hf. cbn [json_text].
  change (#"[" ++ ?x) with (91%N :: x). change #"]" with [93%N]. cbn [app]. rewrite <- app_assoc.
  cbn [app length]. intros Hf. destruct fuel as [|fuel]; [lia|]. cbn [json_value].
  rewrite (eat_unit 123) by done. rewrite (eat_unit 91) by done. change (91 =? 123)%N with false.
  rewrite N.eqb_refl. cbv beta iota. destruct l as [|v l].
  - cbn [map join app]. by rewrite eat_unit by done.
  - assert (eat 93 (join #"," (map json_text (v :: l)) ++ 93%N :: rest) = None) as ->.
    { cbn [forallb] in Hp. apply andb_true_iff in Hp as [Hpv _].
      apply json_text_head in Hpv as (a & s & Ha & Ho). apply opens_value_spec in Ho as (Hws & H93 & _).
      assert (∃ t, join #"," (map json_text (v :: l)) = a :: t) as [t ->].
      { cbn [map]. rewrite Ha. destruct (map json_text l); cbn [join app]; eauto. }
      cbn [app]. rewrite eat_unit by done. by rewrite (proj2 (N.eqb_neq _ _) H93). }
    rewrite reads_elements; [done|done|done|done|lia].
Qed.

Lemma obj_insert_last {A} k (x : A) (o : list (str * A)) :
  forallb (goes_after k) o.*1 = true → obj_insert k x o = o ++ [(k, x)].
Proof.
  induction o as [|[k' x'] o IH]; [done|]. rewrite fmap_cons. cbn [forallb obj_insert fst].
  rewrite andb_true_iff. intros [Hk Ho]. specialize (IH Ho). unfold goes_after in Hk.
  destruct (array_index k) as [i|], (array_index k') as [j|]; cbn [app]; try discriminate Hk;
    rewrite IH; [|done..]. by destruct (i <? j)%N.
Qed.

Lemma obj_set_last {A} k (x : A) (o : list (str * A)) :
  k ∉ o.*1 → forallb (goes_after k) o.*1 = true → obj_set k x o = o ++ [(k, x)].
Proof. intros Hk%assoc_get_None Ho. unfold obj_set. rewrite Hk. by apply obj_insert_last. Qed.

(** The members of a plain object, as [json_text] writes them. *)
Definition member_text (p : str * jsval) : str := json_quote p.1 ++ #":" ++ json_text p.2.

Lemma json_text_obj o :
  forallb (λ p : str * jsval, let '(_, v) := p in json_plain v) o = true →
  json_text (VObj o) = #"{" ++ join #"," (map member_text o) ++ #"}".
Proof.
  intros Hp. cbn [json_text]. do 3 f_equal. induction o as [|[k v] o IH]; [done|].
  cbn [forallb] in Hp. apply andb_true_iff in Hp as [Hv Hp]. rewrite IH by done. by destruct v.
Qed.

Lemma reads_members o acc fuel rest :
  o ≠ [] → Forall (λ p, reads p.2) o → forallb (λ p : str * jsval, let '(_, v) := p in json_plain v) o = true →
  keys_ordered (acc.*1) (o.*1) = true →
  S (2 * length (join #"," (map member_text o) ++ 125%N :: rest)) < fuel →
  json_members fuel acc (join #"," (map member_text o) ++ 125%N :: rest) = Some (VObj (acc ++ o), rest).
Proof.
  intros Hne Ho. revert Hne acc fuel.
  induction Ho as [|[k v] o Hv Ho IH]; intros Hne acc fuel Hp Hk Hf; [done|].
  cbn [forallb] in Hp. apply andb_true_iff in Hp as [Hpv Hp]. cbn [snd] in Hv.
  rewrite fmap_cons in Hk. cbn [keys_ordered fst] in Hk.
  rewrite !andb_true_iff, bool_decide_eq_true in Hk. destruct Hk as [[Hnew Hafter] Hk].
  change [k] with ([(k, v)].*1) in Hk. rewrite <- fmap_app in Hk.
  destruct fuel as [|fuel]; [lia|]. cbn [json_members].
  assert (∀ t, member_text (k, v) ++ t = dq :: quote_units k ++ dq :: 58%N :: json_text v ++ t) as Hmem.
  { intros t. unfold member_text, json_quote. cbn [fst snd]. change #":" with [58%N].
    by rewrite <- !app_assoc. }
  destruct o as [|p o].
  - cbn [map join] in *. rewrite Hmem in *. rewrite eat_unit by done. rewrite N.eqb_refl.
    cbn [mbind option_bind]. rewrite (quote_units_reads (length k)) by done. cbn [mbind option_bind].
    rewrite eat_unit by done. rewrite N.eqb_refl. cbn [mbind option_bind].
    cbn [length] in Hf. rewrite length_app in Hf. cbn [length] in Hf.
    rewrite Hv by first [done|by right; right; left|lia]. cbn [mbind option_bind].
    rewrite !eat_unit by done. change (125 =? 44)%N with false. rewrite N.eqb_refl.
    cbn [mbind option_bind]. by rewrite obj_set_last.
  - change (map member_text ((k, v) :: p :: o)) with (member_text (k, v) :: map member_text (p :: o)) in *.
    rewrite join_cons in * by done. rewrite <- !app_assoc in *. rewrite Hmem in *.
    rewrite eat_unit by done. rewrite N.eqb_refl.
    cbn [mbind option_bind]. rewrite (quote_units_reads (length k)) by done. cbn [mbind option_bind].
    rewrite eat_unit by done. rewrite N.eqb_refl. cbn [mbind option_bind].
    cbn [length] in Hf. rewrite length_app in Hf. cbn [length] in Hf.
    rewrite Hv by first [done|by left|lia]. cbn [mbind option_bind].
    rewrite obj_set_last by done.
    change (#"," ++ ?x) with (44%N :: x) in *. rewrite eat_unit by done. rewrite N.eqb_refl.
    cbv beta iota. rewrite IH; [by rewrite <- app_assoc|done|done|done|].
    rewrite length_app in Hf. cbn [length] in Hf. lia.
Qed.

Lemma reads_obj o : Forall (λ p, reads p.2) o → reads (VObj o).
Proof.
  intros Ho Hp fuel rest Hr Hf. cbn [json_plain] in Hp. apply andb_true_iff in Hp as [Hk Hp].
  rewrite json_text_obj in * by done. revert Hf.
  change (#"{" ++ ?x) with (123%N :: x). change #"}" with [125%N]. cbn [app]. rewrite <- app_assoc.
  cbn [app length]. intros Hf. destruct fuel as [|fuel]; [lia|]. cbn [json_value].
  rewrite (eat_unit 123) by done. rewrite N.eqb_refl. cbv beta iota. destruct o as [|p o].
  - cbn [map join app]. by rewrite eat_unit by done.
  - assert (eat 125 (join #"," (map member_text (p :: o)) ++ 125%N :: rest) = None) as ->.
    { assert (∃ t, join #"," (map member_text (p :: o)) = dq :: t) as [t ->].
      { cbn [map]. unfold member_text at 1. destruct (map member_text o); cbn [join]; eexists; reflexivity. }
      cbn [app]. by rewrite eat_unit by done. }
    rewrite reads_members; [done|done|done|done|done|lia].
Qed.

Lemma reads_all v : reads v.
Proof.
  induction v as [v Hv|l Hl|o Ho] using jsval_nested_ind; [|by apply reads_arr|by apply reads_obj].
  destruct v as [| |b|n|z|s| |]; try done.
  - intros _ [|fuel] rest Hr Hf; [lia|].
    change (json_text VNull ++ rest) with (110%N :: #"ull" ++ rest). rewrite value_scalar by done.
    reflexivity.
  - intros _ [|fuel] rest Hr Hf; [lia|]. destruct b.
    + change (json_text (VBool true) ++ rest) with (116%N :: #"rue" ++ rest).
      rewrite value_scalar by done. reflexivity.
    + change (json_text (VBool false) ++ rest) with (102%N :: #"alse" ++ rest).
      rewrite value_scalar by done. reflexivity.
  - apply reads_num.
  - apply reads_str.
Qed.

Lemma json_plain_parse v : json_plain v = true → json_parse (json_text v) = Some v.
Proof.
  intros Hp. unfold json_parse. rewrite <- (app_nil_r (json_text v)) at 2.
  rewrite (reads_all v Hp); [done|done|]. rewrite app_nil_r. unfold json_fuel. lia.
Qed.

Lemma json_plain_no_bigint v : json_plain v = true → has_bigint v = false ∧ is_undef v = false.
Proof.
  intros Hp. split; [|by destruct v].
  induction v as [v Hv|l Hl|o Ho] using jsval_nested_ind; [by destruct v| |].
  - cbn [json_plain has_bigint] in *. induction Hl as [|v l Hv Hl IH]; [done|].
    cbn [forallb existsb] in *. apply andb_true_iff in Hp as [Hpv Hp]. by rewrite Hv, IH.
  - cbn [json_plain has_bigint] in *. apply andb_true_iff in Hp as [_ Hp].
    induction Ho as [|[k v] o Hv Ho IH]; [done|]. cbn [forallb existsb snd] in *.
    apply andb_true_iff in Hp as [Hpv Hp]. by rewrite Hv, IH.
Qed.

(** [JSON.parse(JSON.stringify(v))] is [v] for every value a document can carry. *)
Lemma json_round_trip v :
  json_plain v = true → json_stringify v = Ok (Some (json_text v)) ∧ json_parse (json_text v) = Some v.
Proof.
  intros Hp. split; [|by apply json_plain_parse]. unfold json_stringify.
  by destruct (json_plain_no_bigint v Hp) as [-> ->].
Qed.

(** * The interface to the stores

    What a component that keeps values as text relies on: a value of the
    domain is written to a text that is not empty and is read back from it. *)
Class TextCodec (dom : jsval → Prop) (write : jsval → str) (read : str → option jsval) := {
  codec_nonempty v : dom v → write v ≠ [];
  codec_round_trip v : dom v → read (write v) = Some v }.

#[export] Instance json_codec : TextCodec (λ v, json_plain v = true) json_text json_parse.
Proof.
  split; [|exact json_plain_parse]. intros v (a & s & -> & _)%json_text_head. done.
Qed.
