(* ===== verification/JsonPretty.v ===== *)
(** [JSON.stringify(v, null, 2)]: the text of a value over several lines, and its round
    trip through [JSON.parse]. *)

From S2P Require Export JsonWrite.

#[local] Set Warnings "-register-all".

(** A new line and [n] blanks. *)
Definition new_line (n : nat) : str := nl :: repeat 32%N n.

(** A bracket, the items on lines of their own, and the other bracket. *)
Definition block (opening closing : N) (n : nat) (items : list str) : str :=
  match items with
  | [] => [opening; closing]
  | _ => opening :: new_line (2 + n) ++ join (44%N :: new_line (2 + n)) items ++ new_line n ++ [closing]
  end.
Fixpoint json_pretty (n : nat) (v : jsval) : str :=
  match v with
  | VArr l => block 91 93 n (map (json_pretty (2 + n)) l)
  | VObj o =>
    block 123 125 n ((fix members (o : jsobj) : list str :=
      match o with
      | [] => []
      | (k, v) :: o =>
        if is_undef v then members o else (json_quote k ++ #": " ++ json_pretty (2 + n) v) :: members o
      end) o)
  | _ => json_text v
  end.

(** * Laws *)

Lemma skip_ws_app w s : Forall (λ c, json_ws c = true) w → skip_ws (w ++ s) = skip_ws s.
Proof. induction 1 as [|c w Hc _ IH]; [done|]. cbn [app skip_ws]. by rewrite Hc. Qed.
Lemma eat_ws c w s : Forall (λ c, json_ws c = true) w → eat c (w ++ s) = eat c s.
Proof. intros Hw. unfold eat. by rewrite skip_ws_app. Qed.
Lemma json_value_ws fuel w s : Forall (λ c, json_ws c = true) w → json_value fuel (w ++ s) = json_value fuel s.
Proof. intros Hw. destruct fuel as [|fuel]; [done|]. cbn [json_value]. by rewrite !eat_ws, skip_ws_app. Qed.
Lemma json_elements_ws fuel acc w s : Forall (λ c, json_ws c = true) w → json_elements fuel acc (w ++ s) = json_elements fuel acc s.
Proof. intros Hw. destruct fuel as [|fuel]; [done|]. cbn [json_elements]. by rewrite json_value_ws. Qed.
Lemma json_members_ws fuel acc w s : Forall (λ c, json_ws c = true) w → json_members fuel acc (w ++ s) = json_members fuel acc s.
Proof. intros Hw. destruct fuel as [|fuel]; [done|]. cbn [json_members]. by rewrite eat_ws. Qed.
Lemma new_line_ws n : Forall (λ c, json_ws c = true) (new_line n).
Proof. apply Forall_cons_2; [done|]. induction n as [|n IH]; [by apply Forall_nil|]. by apply Forall_cons_2. Qed.

Definition reads_pretty (v : jsval) : Prop :=
  json_plain v = true → ∀ n fuel rest, ends_value rest →
  2 * length (json_pretty n v ++ rest) < fuel → json_value fuel (json_pretty n v ++ rest) = Some (v, rest).
Lemma ends_new_line n s : ends_value (new_line n ++ s).
Proof. by right; right; right. Qed.

Lemma pretty_head n v : json_plain v = true → ∃ a s, json_pretty n v = a :: s ∧ opens_value a = true.
Proof.
  intros Hp. destruct v as [| |b|m|z|s|l|o]; try done; try by apply json_text_head in Hp.
  - cbn [json_pretty]. unfold block. destruct (map _ l); by do 2 eexists.
  - cbn [json_pretty]. unfold block. case_match; by do 2 eexists.
Qed.

(** A closing bracket is not where an item is. *)
Lemma eat_item (c : N) n v t : json_plain v = true → c = 93%N ∨ c = 125%N → eat c (new_line n ++ json_pretty n v ++ t) = None.
Proof.
  intros Hp Hc. rewrite eat_ws by apply new_line_ws. destruct (pretty_head n v Hp) as (a & s & -> & (Hws & H1 & H2)%opens_value_spec).
  cbn [app]. rewrite eat_unit by done. destruct Hc as [->| ->]; by rewrite (proj2 (N.eqb_neq _ _)).
Qed.

Lemma pretty_elements n l acc fuel rest :
  l ≠ [] → Forall reads_pretty l → forallb json_plain l = true →
  let text := join (44%N :: new_line (2 + n)) (map (json_pretty (2 + n)) l) ++ new_line n ++ 93%N :: rest in
  S (2 * length text) < fuel → json_elements fuel acc text = Some (VArr (acc ++ l), rest).
Proof.
  intros Hne Hl. revert Hne acc fuel. induction Hl as [|v l Hv Hl IH]; intros Hne acc fuel Hp text Hf; [done|]. subst text.
  cbn [forallb] in Hp. apply andb_true_iff in Hp as [Hpv Hp]. destruct fuel as [|fuel]; [lia|]. cbn [json_elements].
  destruct l as [|w l].
  - cbn [map join] in *. rewrite (Hv Hpv) by (apply ends_new_line || lia). cbn [mbind option_bind].
    rewrite !eat_ws by apply new_line_ws. by rewrite !eat_unit by done.
  - cbn [map] in *. rewrite join_cons in * by done. rewrite <- !app_assoc in *.
    rewrite (Hv Hpv) by first [by left|lia]. cbn [mbind option_bind].
    change ((44%N :: ?w) ++ ?x) with (44%N :: w ++ x) in *. rewrite eat_unit by done. rewrite N.eqb_refl. cbv beta iota.
    rewrite json_elements_ws by apply new_line_ws. rewrite IH; [by rewrite <- app_assoc|done|done|].
    rewrite length_app in Hf. cbn [length] in Hf. rewrite (length_app (new_line _)) in Hf. lia.
Qed.

Lemma pretty_arr l : Forall reads_pretty l → reads_pretty (VArr l).
Proof.
  intros Hl Hp n fuel rest Hr Hf. cbn [json_plain] in Hp. destruct fuel as [|fuel]; [lia|]. cbn [json_pretty] in *.
  destruct l as [|v l].
  - cbn [map block app json_value]. by rewrite !eat_unit by done.
  - pose proof Hp as Hpv. cbn [forallb] in Hpv. apply andb_true_iff in Hpv as [Hpv _].
    unfold block in *. cbn [map] in *. rewrite <- app_comm_cons, <- !app_assoc in *. cbn [app json_value].
    rewrite (eat_unit 123), (eat_unit 91) by done. change (91 =? 123)%N with false. rewrite N.eqb_refl. cbv beta iota.
    assert (∀ t, eat 93 (new_line (2 + n) ++ join (44%N :: new_line (2 + n)) (json_pretty (2 + n) v :: map (json_pretty (2 + n)) l) ++ t) = None) as ->.
    { intros t. destruct (map _ l); [by apply eat_item; [|left]|]. rewrite join_cons, <- app_assoc by done. by apply eat_item; [|left]. }
    rewrite json_elements_ws by apply new_line_ws.
    apply (pretty_elements n (v :: l) [] fuel rest); [done|done|done|]. cbn [length] in Hf. rewrite (length_app (new_line _)) in Hf.
    change ([93%N] ++ rest) with (93%N :: rest) in Hf. cbn [map]. lia.
Qed.

Definition pretty_member (n : nat) (p : str * jsval) : str := json_quote p.1 ++ #": " ++ json_pretty n p.2.
Lemma pretty_obj n o :
  forallb (λ p : str * jsval, let '(_, v) := p in json_plain v) o = true →
  json_pretty n (VObj o) = block 123 125 n (map (pretty_member (2 + n)) o).
Proof.
  intros Hp. cbn [json_pretty]. f_equal. induction o as [|[k v] o IH]; [done|].
  cbn [forallb] in Hp. apply andb_true_iff in Hp as [Hv Hp]. rewrite IH by done. by destruct v.
Qed.
Lemma member_shape n k v t : pretty_member n (k, v) ++ t = dq :: quote_units k ++ dq :: 58%N :: [32%N] ++ json_pretty n v ++ t.
Proof. unfold pretty_member, json_quote. cbn [fst snd]. change #": " with [58%N; 32%N]. by rewrite <- !app_assoc. Qed.

Lemma pretty_members n o acc fuel rest :
  o ≠ [] → Forall (λ p, reads_pretty p.2) o → forallb (λ p : str * jsval, let '(_, v) := p in json_plain v) o = true →
  keys_ordered (acc.*1) (o.*1) = true →
  let text := join (44%N :: new_line (2 + n)) (map (pretty_member (2 + n)) o) ++ new_line n ++ 125%N :: rest in
  S (2 * length text) < fuel → json_members fuel acc text = Some (VObj (acc ++ o), rest).
Proof.
  intros Hne Ho. revert Hne acc fuel.
  induction Ho as [|[k v] o Hv Ho IH]; intros Hne acc fuel Hp Hk text Hf; [done|]. subst text.
  cbn [forallb] in Hp. apply andb_true_iff in Hp as [Hpv Hp]. cbn [snd] in Hv.
  rewrite fmap_cons in Hk. cbn [keys_ordered fst] in Hk.
  rewrite !andb_true_iff, bool_decide_eq_true in Hk. destruct Hk as [[Hnew Hafter] Hk].
  change [k] with ([(k, v)].*1) in Hk. rewrite <- fmap_app in Hk.
  destruct fuel as [|fuel]; [lia|]. cbn [json_members].
  assert (∀ t, eat dq (dq :: quote_units k ++ dq :: 58%N :: t) = Some (quote_units k ++ dq :: 58%N :: t)) as Eq by (intros t; by rewrite eat_unit).
  destruct o as [|p o].
  - cbn [map join] in *. rewrite member_shape in *. rewrite Eq. cbn [mbind option_bind].
    rewrite (quote_units_reads (length k)) by done. cbn [mbind option_bind]. rewrite eat_unit by done. rewrite N.eqb_refl. cbn [mbind option_bind].
    rewrite json_value_ws by (by apply Forall_singleton). cbn [length] in Hf. rewrite length_app in Hf. cbn [length] in Hf.
    rewrite length_app in Hf. rewrite (Hv Hpv) by (apply ends_new_line || lia). cbn [mbind option_bind].
    rewrite !eat_ws by apply new_line_ws. rewrite !eat_unit by done. change (125 =? 44)%N with false. rewrite N.eqb_refl.
    cbn [mbind option_bind]. by rewrite obj_set_last.
  - change (map (pretty_member (2 + n)) ((k, v) :: p :: o)) with (pretty_member (2 + n) (k, v) :: map (pretty_member (2 + n)) (p :: o)) in *.
    rewrite join_cons in * by done. rewrite <- !app_assoc in *. rewrite member_shape in *. rewrite Eq. cbn [mbind option_bind].
    rewrite (quote_units_reads (length k)) by done. cbn [mbind option_bind]. rewrite eat_unit by done. rewrite N.eqb_refl. cbn [mbind option_bind].
    rewrite json_value_ws by (by apply Forall_singleton). cbn [length] in Hf. rewrite length_app in Hf. cbn [length] in Hf.
    rewrite length_app in Hf. rewrite (Hv Hpv) by first [by left|lia]. cbn [mbind option_bind]. rewrite obj_set_last by done.
    change ((44%N :: ?w) ++ ?x) with (44%N :: w ++ x) in *. rewrite eat_unit by done. rewrite N.eqb_refl. cbv beta iota.
    rewrite json_members_ws by apply new_line_ws. rewrite IH; [by rewrite <- app_assoc|done|done|done|].
    rewrite length_app in Hf. cbn [length] in Hf. rewrite (length_app (new_line _)) in Hf. lia.
Qed.
Lemma pretty_object o : Forall (λ p, reads_pretty p.2) o → reads_pretty (VObj o).
Proof.
  intros Ho Hp n fuel rest Hr Hf. cbn [json_plain] in Hp. apply andb_true_iff in Hp as [Hk Hp]. rewrite pretty_obj in * by done.
  destruct fuel as [|fuel]; [lia|]. destruct o as [|[k v] o].
  - cbn [map block app json_value]. by rewrite !eat_unit by done.
  - unfold block in *. cbn [map] in *. rewrite <- app_comm_cons, <- !app_assoc in *. cbn [app json_value].
    rewrite (eat_unit 123) by done. rewrite N.eqb_refl. cbv beta iota.
    assert (∀ t, eat 125 (new_line (2 + n) ++ join (44%N :: new_line (2 + n)) (pretty_member (2 + n) (k, v) :: map (pretty_member (2 + n)) o) ++ t) = None) as ->.
    { intros t. rewrite eat_ws by apply new_line_ws. destruct (map _ o); [cbn [join]; by rewrite member_shape, eat_unit|].
      by rewrite join_cons, <- app_assoc, member_shape, eat_unit. }
    rewrite json_members_ws by apply new_line_ws.
    apply (pretty_members n ((k, v) :: o) [] fuel rest); [done|done|done|done|]. cbn [length] in Hf. rewrite (length_app (new_line _)) in Hf.
    change ([125%N] ++ rest) with (125%N :: rest) in Hf. cbn [map]. lia.
Qed.
Lemma pretty_all v : reads_pretty v.
Proof.
  induction v as [v Hv|l Hl|o Ho] using jsval_nested_ind; [|by apply pretty_arr|by apply pretty_object].
  intros Hp n fuel rest Hr Hf. assert (json_pretty n v = json_text v) as E by (by destruct v). rewrite E in *. by apply reads_all.
Qed.

(** [JSON.parse(JSON.stringify(v, null, 2))] is [v] for every value a document can carry. *)
Lemma pretty_round_trip n v : json_plain v = true → json_parse (json_pretty n v) = Some v.
Proof.
  intros Hp. unfold json_parse. rewrite <- (app_nil_r (json_pretty n v)) at 2.
  rewrite (pretty_all v Hp); [done|done|]. rewrite app_nil_r. unfold json_fuel. lia.
Qed.
Example pretty_sample :
  json_pretty 0 (VObj [ (#"a", VArr [VNum (Dec 1 0); VArr []]); (#"b", VObj []) ])
  = join [nl] [ #"{"; #"  " ++ quoted #"a" ++ #": ["; #"    1,"; #"    []"; #"  ],"; #"  " ++ quoted #"b" ++ #": {}"; #"}"].
Proof. by vm_compute. Qed.
