(* ===== verification/ViewState.v ===== *)
(** The form state of a rendered view: [packages/oos-ui-ts/src/state.ts], the
    envelope loader and event builder of [envelope.ts], the row source of
    [components/table.tsx], and the option key of [hooks.ts].

    A listener is known by an identity; the state records the calls it makes,
    in order, in [calls].  Listeners do not touch the store while it notifies
    (the program's only listener schedules a React render). *)

From S2P Require Export JsonWrite DslTypes.

#[local] Set Warnings "-register-all".

(** * [state.ts] *)

Record OptionEntry := MkOption { option_value : str; option_label : str }.

Record ViewState := MkViewState {
  values : list (str * str);
  options : list (str * list OptionEntry);
  listeners : list nat;
  calls : list nat }.

(** [new ViewState()] *)
Definition newViewState : ViewState := MkViewState [] [] [] [].

(** [notify()] *)
Definition notify (st : ViewState) : ViewState :=
  MkViewState (values st) (options st) (listeners st) (calls st ++ listeners st).

(** [get(bindPath)] *)
Definition get (bindPath : str) (st : ViewState) : str := default [] (assoc_get bindPath (values st)).

(** [set(bindPath, value)] *)
Definition set (bindPath value : str) (st : ViewState) : ViewState :=
  if decide (assoc_get bindPath (values st) = Some value) then st
  else notify (MkViewState (map_set bindPath value (values st)) (options st) (listeners st) (calls st)).

(** [getOptions(key)] *)
Definition getOptions (key : str) (st : ViewState) : list OptionEntry :=
  default [] (assoc_get key (options st)).

(** [setOptions(key, entries)] *)
Definition setOptions (key : str) (entries : list OptionEntry) (st : ViewState) : ViewState :=
  notify (MkViewState (values st) (map_set key entries (options st)) (listeners st) (calls st)).

(** [snapshot()] *)
Definition snapshot (st : ViewState) : list (str * str) :=
  foldl (λ out p, obj_set p.1 p.2 out) [] (values st).

(** [subscribe(listener)], and the function it returns. *)
Definition subscribe (listener : nat) (st : ViewState) : ViewState :=
  MkViewState (values st) (options st)
    (if decide (listener ∈ listeners st) then listeners st else listeners st ++ [listener]) (calls st).

Definition unsubscribe (listener : nat) (st : ViewState) : ViewState :=
  MkViewState (values st) (options st) (filter (λ l, l ≠ listener) (listeners st)) (calls st).

(** * [envelope.ts] *)

(** [isObject] *)
Definition isObject (v : jsval) : bool := match v with VObj _ => true | _ => false end.

(** [fmtValue] *)
Definition fmtValue (v : jsval) : str :=
  match v with
  | VUndef | VNull => []
  | VStr s => s
  | VNum _ | VBool _ => to_string v
  | _ => []
  end.

Definition join_key (prefix k : str) : str := if decide (prefix = []) then k else prefix ++ #"." ++ k.

(** [flattenInto] *)
Fixpoint flattenInto (prefix : str) (value : jsval) (st : ViewState) : outcome ViewState :=
  match value with
  | VObj o =>
    (fix entries (o : jsobj) (st : ViewState) : outcome ViewState :=
       match o with
       | [] => Ok st
       | (k, child) :: o => st ← flattenInto (join_key prefix k) child st; entries o st
       end) o st
  | VArr _ => text ← json_stringify value; Ok (set prefix (default #"undefined" text) st)
  | _ => Ok (set prefix (fmtValue value) st)
  end.

(** The body of the loop over the items of an option list. *)
Definition option_entry (item : jsval) : option OptionEntry :=
  match item with
  | VObj o =>
    let value := fmtValue (obj_get #"value" o) in
    let label := fmtValue (obj_get #"label" o) in
    Some (MkOption value (if decide (label = []) then value else label))
  | VStr s => Some (MkOption s s)
  | _ => None
  end.

(** [loadOptions] *)
Definition loadOptions (meta : jsobj) (st : ViewState) : ViewState :=
  foldl (λ st '(key, raw), match raw with
                           | VArr items => setOptions key (filter_map option_entry items) st
                           | _ => st
                           end) st meta.

(** One of the two envelope shapes: the content, then the options. *)
Definition load_sections (content meta : jsval) (st : ViewState) : outcome ViewState :=
  st ← (match content with VObj _ => flattenInto [] content st | _ => Ok st end);
  Ok (match meta with VObj m => loadOptions m st | _ => st end).

(** [loadEnvelope] *)
Definition loadEnvelope (raw : jsobj) (st : ViewState) : outcome ViewState :=
  if obj_has #"content" raw || obj_has #"meta" raw then
    load_sections (obj_get #"content" raw) (obj_get #"meta" raw) st
  else if obj_has #"data" raw || obj_has #"options" raw then
    load_sections (obj_get #"data" raw) (obj_get #"options" raw) st
  else flattenInto [] (VObj raw) st.

(** [key.indexOf(".")], [key.substring(idx + 1)] *)
Definition flat_key (key : str) : str :=
  match index_of #"." key with Some idx => drop (S idx) key | None => key end.

(** [buildEvent] *)
Definition buildEvent (screenID action : str) (st : ViewState) : list (str * str) :=
  foldl (λ out p, obj_set (flat_key p.1) p.2 out) [] (snapshot st).

(** * Readers *)

(** The rows [TableRenderer] shows. *)
Definition table_rows (def : TableDef) (st : ViewState) : list jsval :=
  let rowsPath := ref_domain (rowSource def) ++ #"." ++ ref_field (rowSource def) in
  let raw := get rowsPath st in
  if decide (raw = []) then []
  else match json_parse raw with Some (VArr parsed) => parsed | _ => [] end.

(** [useFieldOptionsKey] under a provided domain *)
Definition useFieldOptionsKey (d : option DomainDef) (fieldName : str) : option str :=
  match d with
  | None => None
  | Some d =>
    match List.find (λ f, bool_decide (field_name f = fieldName)) (fields d) with
    | Some f => optionsRef f
    | None => None
    end
  end.

(** * The flat store *)

Lemma set_values_get k' k v st :
  assoc_get k' (values (set k v st)) = if decide (k' = k) then Some v else assoc_get k' (values st).
Proof.
  unfold set. case_decide as H; [|apply map_set_get]. case_decide; [by subst|done].
Qed.

Lemma set_get k' k v st : get k' (set k v st) = if decide (k' = k) then v else get k' st.
Proof. unfold get. rewrite set_values_get. by case_decide. Qed.

Lemma set_keys k v st : NoDup (values st).*1 → NoDup (values (set k v st)).*1.
Proof. intros H. unfold set. case_decide; [done|]. by apply map_set_keys_NoDup. Qed.

(** The leaves [flattenInto] stores, in order. *)
Definition leaf_text (v : jsval) : str := match v with VArr _ => json_text v | _ => fmtValue v end.

Fixpoint leaves (prefix : str) (v : jsval) : list (str * str) :=
  match v with
  | VObj o =>
    (fix entries (o : jsobj) : list (str * str) :=
       match o with
       | [] => []
       | (k, child) :: o => leaves (join_key prefix k) child ++ entries o
       end) o
  | _ => [(prefix, leaf_text v)]
  end.

Definition set_all (ls : list (str * str)) (st : ViewState) : ViewState :=
  foldl (λ st p, set p.1 p.2 st) st ls.

Lemma set_all_app l1 l2 st : set_all (l1 ++ l2) st = set_all l2 (set_all l1 st).
Proof. apply foldl_app. Qed.

(** Loading a value stores its leaves one by one. *)
Lemma flattenInto_leaves v : has_bigint v = false → ∀ prefix st,
  flattenInto prefix v st = Ok (set_all (leaves prefix v) st).
Proof.
  induction v as [v Hv|l Hl|o Ho] using jsval_nested_ind; intros Hb prefix st.
  - by destruct v.
  - cbn [flattenInto leaves]. unfold json_stringify. rewrite Hb. reflexivity.
  - cbn [flattenInto leaves has_bigint] in *. revert st.
    induction Ho as [|[k c] o Hc Ho IH]; intros st; [done|].
    cbn [existsb snd] in *. apply orb_false_iff in Hb as [Hbc Hb].
    rewrite Hc by done. unfold mbind, outcome_bind. rewrite IH by done. by rewrite set_all_app.
Qed.

Lemma set_all_keys ls st : NoDup (values st).*1 → NoDup (values (set_all ls st)).*1.
Proof.
  revert st. induction ls as [|p ls IH]; intros st H; [done|]. by apply IH, set_keys.
Qed.

Lemma set_all_other k ls st :
  k ∉ ls.*1 → assoc_get k (values (set_all ls st)) = assoc_get k (values st).
Proof.
  revert st. induction ls as [|p ls IH]; intros st; [done|].
  rewrite fmap_cons, not_elem_of_cons. intros [Hp Hls]. cbn [set_all foldl].
  fold (set_all ls (set p.1 p.2 st)). by rewrite IH, set_values_get, decide_False.
Qed.

Lemma set_all_get k v ls st :
  NoDup ls.*1 → (k, v) ∈ ls → assoc_get k (values (set_all ls st)) = Some v.
Proof.
  revert st. induction ls as [|p ls IH]; intros st; [by intros _ H%elem_of_nil|].
  rewrite fmap_cons, NoDup_cons. intros [Hp Hnd] Hin. cbn [set_all foldl].
  fold (set_all ls (set p.1 p.2 st)). apply elem_of_cons in Hin as [<-|Hin]; [|by apply IH].
  cbn [fst snd] in *. by rewrite set_all_other, set_values_get, decide_True.
Qed.

Lemma set_all_None ls st k :
  assoc_get k (values (set_all ls st)) = None ↔ (k ∉ ls.*1) ∧ assoc_get k (values st) = None.
Proof.
  revert st. induction ls as [|p ls IH]; intros st; [set_solver|].
  cbn [set_all foldl]. fold (set_all ls (set p.1 p.2 st)). rewrite IH, set_values_get.
  rewrite fmap_cons, not_elem_of_cons. case_decide; naive_solver.
Qed.

(** Options do not touch the values. *)
Lemma loadOptions_values meta st : values (loadOptions meta st) = values st.
Proof.
  unfold loadOptions. revert st. induction meta as [|[k raw] meta IH]; intros st; [done|].
  cbn [foldl]. rewrite IH. by destruct raw.
Qed.

Lemma snapshot_get k st :
  NoDup (values st).*1 → assoc_get k (snapshot st) = assoc_get k (values st).
Proof.
  intros Hnd. unfold snapshot. change (foldl _ _ _) with (set_loop fst snd [] (values st)).
  destruct (assoc_get k (values st)) as [v|] eqn:E.
  - apply assoc_get_elem in E as Hin. apply (set_loop_get fst snd (k, v)); [done|].
    intros [k' v'] Hin' Hk. cbn [fst snd] in *. subst k'.
    apply elem_assoc_get in Hin'; [|done]. congruence.
  - rewrite set_loop_other; [done|]. by apply assoc_get_None.
Qed.

(** ** Keys under one name *)

Definition under (name : str) (k : str) : str := name ++ #"." ++ k.

Lemma index_of_dot name k : (46%N ∉ name) → index_of #"." (under name k) = Some (length name).
Proof.
  unfold under. change #"." with [46%N]. induction name as [|c name IH]; intros Hn; [done|].
  rewrite not_elem_of_cons in Hn. destruct Hn as [Hc Hn].
  cbn [app index_of starts_with length]. rewrite (proj2 (N.eqb_neq 46 c)) by congruence.
  cbn [andb]. cbn [app] in IH. by rewrite IH.
Qed.

Lemma flat_key_under name k : (46%N ∉ name) → flat_key (under name k) = k.
Proof.
  intros Hn. unfold flat_key. rewrite index_of_dot by done. unfold under. change #"." with [46%N].
  rewrite (app_assoc name [46%N] k). apply drop_app_length'. rewrite length_app. simpl. lia.
Qed.

Lemma under_inj name k k' : under name k = under name k' → k = k'.
Proof. unfold under. by intros H%app_inv_head%app_inv_head. Qed.

(** With every key under the name, the event reads the values off by field. *)
Lemma buildEvent_get sid act name k st :
  (46%N ∉ name) → NoDup (values st).*1 → (∀ key, key ∈ (values st).*1 → ∃ f, key = under name f) →
  assoc_get k (buildEvent sid act st) = assoc_get (under name k) (values st).
Proof.
  intros Hn Hnd Hall. unfold buildEvent.
  change (foldl _ _ _) with (set_loop (λ p : str * str, flat_key p.1) snd [] (snapshot st)).
  assert (∀ p, p ∈ snapshot st → ∃ f, p.1 = under name f ∧ assoc_get p.1 (values st) = Some p.2) as Hsnap.
  { intros [key v] Hp. assert (key ∈ (values st).*1) as Hk.
    { apply (list_elem_of_fmap_2 fst) in Hp. unfold snapshot in Hp.
      change (foldl _ _ _) with (set_loop fst snd [] (values st)) in Hp.
      apply set_loop_keys in Hp as [Hp|Hp]; [by apply elem_of_nil in Hp|done]. }
    destruct (Hall key Hk) as [f Hf]. exists f. split; [done|]. cbn [fst snd].
    rewrite <- snapshot_get by done. apply elem_assoc_get; [|done].
    unfold snapshot. generalize (values st). intros l. assert (NoDup (@nil (str * str)).*1) as Hnil by constructor.
    revert Hnil. generalize (@nil (str * str)). induction l as [|q l IH]; intros m Hm; [done|].
    cbn [foldl]. by apply IH, obj_set_keys_NoDup. }
  destruct (assoc_get (under name k) (values st)) as [v|] eqn:E.
  - assert ((under name k, v) ∈ snapshot st) as Hin by (rewrite <- snapshot_get in E by done; by apply assoc_get_elem).
    rewrite <- (flat_key_under name k Hn) at 1.
    apply (set_loop_get (λ p : str * str, flat_key p.1) snd (under name k, v)); [done|].
    intros p Hp Hk. destruct (Hsnap p Hp) as (f & Hf & Hg). cbn [fst snd] in *.
    rewrite Hf, !flat_key_under in Hk by done. subst f. rewrite Hf, E in Hg. by injection Hg.
  - rewrite set_loop_other; [done|]. intros (p & -> & Hp)%list_elem_of_fmap.
    destruct (Hsnap p Hp) as (f & Hf & Hg). rewrite Hf, flat_key_under, <- Hf in E by done. congruence.
Qed.

(** * Loading a record *)

Definition record_envelope (name : str) (rec meta : jsobj) : jsobj :=
  [(#"content", VObj [(name, VObj rec)]); (#"meta", VObj meta)].

(** The values of a record: scalars and arrays a document can carry. *)
Definition record_ok (rec : jsobj) : Prop :=
  NoDup rec.*1 ∧ Forall (λ p, json_plain p.2 = true ∧ isObject p.2 = false) rec.

Definition record_leaves (name : str) (rec : jsobj) : list (str * str) :=
  (λ p : str * jsval, (under name p.1, leaf_text p.2)) <$> rec.

Lemma leaves_record name rec :
  name ≠ [] → Forall (λ p, json_plain p.2 = true ∧ isObject p.2 = false) rec →
  leaves [] (VObj [(name, VObj rec)]) = record_leaves name rec.
Proof.
  intros Hn Hrec. cbn [leaves]. rewrite app_nil_r. change (join_key [] name) with name.
  induction Hrec as [|[k v] rec [_ Hv] Hrec IH]; [done|]. rewrite IH.
  unfold join_key. rewrite decide_False by done. cbn [fst snd] in Hv. by destruct v.
Qed.

Lemma record_no_bigint name rec :
  Forall (λ p, json_plain p.2 = true ∧ isObject p.2 = false) rec →
  has_bigint (VObj [(name, VObj rec)]) = false.
Proof.
  intros Hrec. cbn [has_bigint existsb]. rewrite orb_false_r.
  induction Hrec as [|[k v] rec [Hv _] Hrec IH]; [done|]. cbn [existsb fst snd] in *.
  by rewrite IH, (proj1 (json_plain_no_bigint v Hv)).
Qed.

(** The state after a record is loaded. *)
Definition loaded (name : str) (rec meta : jsobj) : ViewState :=
  loadOptions meta (set_all (record_leaves name rec) newViewState).

Lemma loadEnvelope_record name rec meta :
  name ≠ [] → record_ok rec →
  loadEnvelope (record_envelope name rec meta) newViewState = Ok (loaded name rec meta).
Proof.
  intros Hn [_ Hrec]. unfold loadEnvelope, record_envelope.
  change (obj_has #"content" _ || obj_has #"meta" _) with true. cbv beta iota. unfold load_sections.
  change (obj_get #"content" _) with (VObj [(name, VObj rec)]).
  change (obj_get #"meta" _) with (VObj meta). cbv beta iota.
  rewrite flattenInto_leaves by by apply record_no_bigint. unfold mbind, outcome_bind.
  by rewrite leaves_record.
Qed.

Lemma record_leaves_NoDup name rec : NoDup rec.*1 → NoDup (record_leaves name rec).*1.
Proof.
  intros Hnd. unfold record_leaves. rewrite <- list_fmap_compose. unfold compose. cbn [fst].
  change (NoDup ((under name ∘ fst) <$> rec)). rewrite list_fmap_compose.
  apply NoDup_fmap_2; [|done]. intros k k'. apply under_inj.
Qed.

Lemma loaded_get name rec meta k v :
  record_ok rec → (k, v) ∈ rec →
  assoc_get (under name k) (values (loaded name rec meta)) = Some (leaf_text v).
Proof.
  intros [Hnd _] Hin. unfold loaded. rewrite loadOptions_values.
  apply set_all_get; [by apply record_leaves_NoDup|].
  apply (list_elem_of_fmap_2 (λ p : str * jsval, (under name p.1, leaf_text p.2)) rec (k, v) Hin).
Qed.

Lemma loaded_under name rec meta :
  NoDup (values (loaded name rec meta)).*1 ∧
  ∀ key, key ∈ (values (loaded name rec meta)).*1 → ∃ k, key = under name k ∧ k ∈ rec.*1.
Proof.
  unfold loaded. rewrite loadOptions_values. split.
  - apply set_all_keys. constructor.
  - intros key Hk. destruct (decide (key ∈ (record_leaves name rec).*1)) as [Hin|Hin].
    + apply list_elem_of_fmap in Hin as (p & -> & Hp). apply list_elem_of_fmap in Hp as (q & -> & Hq).
      exists q.1. split; [done|]. by apply list_elem_of_fmap_2.
    + apply assoc_get_is_Some in Hk as [v Hv]. by rewrite set_all_other in Hv.
Qed.

(** An edit of one field keeps the state under the name. *)
Lemma edited_under name f v st :
  NoDup (values st).*1 → (∀ key, key ∈ (values st).*1 → ∃ k, key = under name k) →
  NoDup (values (set (under name f) v st)).*1 ∧
  ∀ key, key ∈ (values (set (under name f) v st)).*1 → ∃ k, key = under name k.
Proof.
  intros Hnd Hall. split; [by apply set_keys|]. intros key Hk.
  apply assoc_get_is_Some in Hk as [w Hw]. rewrite set_values_get in Hw. case_decide; [eauto|].
  apply Hall, assoc_get_is_Some. eauto.
Qed.

(** C12: A record loaded from a backend envelope shows its scalars as text and
    its arrays as the very rows the backend sent; saved without an edit it
    yields the same text under the same field names and nothing else, and after
    an edit exactly the edited field differs. *)
Theorem load_edit_save name rec meta sid act :
  name ≠ [] → (46%N ∉ name) → record_ok rec →
  ∃ st, loadEnvelope (record_envelope name rec meta) newViewState = Ok st ∧
    (∀ k v, (k, v) ∈ rec →
       get (name ++ #"." ++ k) st = leaf_text v ∧
       assoc_get k (buildEvent sid act st) = Some (leaf_text v)) ∧
    (∀ k, k ∉ rec.*1 → assoc_get k (buildEvent sid act st) = None) ∧
    (∀ k rows def, (k, VArr rows) ∈ rec → rowSource def = MkFieldRefDef name k →
       table_rows def st = rows) ∧
    (∀ f v k, assoc_get k (buildEvent sid act (set (name ++ #"." ++ f) v st)) =
       if decide (k = f) then Some v else assoc_get k (buildEvent sid act st)).
Proof.
  intros Hn Hdot Hrec. exists (loaded name rec meta). split; [by apply loadEnvelope_record|].
  destruct (loaded_under name rec meta) as [Hnd Hkeys].
  assert (∀ key, key ∈ (values (loaded name rec meta)).*1 → ∃ k, key = under name k) as Hall
    by (intros key (k & ? & _)%Hkeys; eauto).
  split_and!.
  - intros k v Hin. pose proof (loaded_get name rec meta k v Hrec Hin) as Hg. split.
    + unfold get. change (name ++ #"." ++ k) with (under name k). by rewrite Hg.
    + by rewrite (buildEvent_get _ _ name).
  - intros k Hk. rewrite (buildEvent_get _ _ name) by done. apply assoc_get_None.
    intros (k' & E & Hk')%Hkeys. apply under_inj in E. by subst k'.
  - intros k rows def Hin Hdef. unfold table_rows. rewrite Hdef. cbn [ref_domain ref_field].
    unfold get. change (name ++ #"." ++ k) with (under name k).
    rewrite (loaded_get name rec meta k (VArr rows)) by done. cbn [default].
    destruct Hrec as [_ Hrec]. apply (Forall_elem Hrec) in Hin as [Hp _].
    cbn [snd leaf_text] in *. unfold default, id.
    rewrite decide_False by by apply codec_nonempty. by rewrite codec_round_trip.
  - intros f v k. change (name ++ #"." ++ f) with (under name f).
    destruct (edited_under name f v _ Hnd Hall) as [Hnd' Hall'].
    rewrite !(buildEvent_get _ _ name), set_values_get by done.
    destruct (decide (k = f)) as [->|Hkf]; [by rewrite decide_True|].
    rewrite decide_False; [done|]. by intros ->%under_inj.
Qed.

Definition sample_record : jsobj :=
  [ (#"id", VNum (num_of_Z 42)); (#"firstname", VStr #"Frank"); (#"rating", VNum (Dec 45 (-1)));
    (#"rows", VArr [VObj [(#"id", VNum (num_of_Z 1)); (#"note", VStr #"a,b")]; VNull]) ].

Lemma sample_record_ok : record_ok sample_record.
Proof.
  split; [decide_closed|].
  repeat (apply Forall_cons_2; [split; vm_compute; reflexivity|]). apply Forall_nil_2.
Qed.

Lemma load_edit_save_witness :
  ∃ st, loadEnvelope (record_envelope #"person" sample_record []) newViewState = Ok st ∧
    assoc_get #"rating" (buildEvent #"v" #"save" (set #"person.firstname" #"Eva" st)) = Some #"4.5".
Proof.
  destruct (load_edit_save #"person" sample_record [] #"v" #"save") as (st & Hst & Hget & _ & _ & Hedit).
  - discriminate.
  - decide_closed.
  - apply sample_record_ok.
  - exists st. split; [exact Hst|].
    change #"person.firstname" with (#"person" ++ #"." ++ #"firstname"). rewrite Hedit, decide_False by discriminate.
    apply (Hget #"rating" (VNum (Dec 45 (-1)))). right. right. left.
Defined.

(** * Listeners *)

(** Writing a value calls every subscribed listener exactly once, in the
    order of subscription, when the stored value changes, and nobody when it
    does not; the other paths, the options and the subscriptions stay. *)
Theorem set_notifies_once p v st :
  get p (set p v st) = v ∧
  (∀ q, q ≠ p → get q (set p v st) = get q st) ∧
  options (set p v st) = options st ∧ listeners (set p v st) = listeners st ∧
  calls (set p v st) = calls st ++ (if decide (assoc_get p (values st) = Some v) then [] else listeners st).
Proof.
  split_and!.
  - by rewrite set_get, decide_True.
  - intros q Hq. by rewrite set_get, decide_False.
  - unfold set. by case_decide.
  - unfold set. by case_decide.
  - unfold set. case_decide; [by rewrite app_nil_r|done].
Qed.
