(* ===== verification/Mock.v ===== *)
(** The preview data generator: [packages/oos-ui-ts/src/mock/values.ts],
    [options.ts] and [envelope.ts].

    Dates are computed in UTC: [setDate] works on the local calendar, and the
    dates of a preview lie in the nine days before its fixed noon-time anchor,
    so the calendar day it reads off is the same in every time zone without a
    change of clocks in those days. *)

From S2P Require Export ViewState.

#[local] Set Warnings "-register-all".

(** * [values.ts] *)

Definition FIRST_NAMES : list str :=
  [ #"Elena"; #"Markus"; #"Sophie"; #"Tobias"; #"Anna"; #"Lukas"; #"Mia"; #"Felix"; #"Hannah"; #"Jonas" ].

Definition LAST_NAMES : list str :=
  [ #"Kovač"; #"Hofer"; #"Berger"; #"Lehmann"; #"Schneider"; #"Becker"; #"Wagner"; #"Krüger"; #"Vogel";
    #"Bauer" ].

Definition WORDS : list str :=
  [ #"Cloud-Architecture"; #"Migration"; #"DACH"; #"Roadmap"; #"Sprint-Planning"; #"Operations";
    #"Stakeholder"; #"Review"; #"Kickoff"; #"Strategy" ].

(** [pick] *)
Definition pick {A} (d : A) (arr : list A) (seed : nat) : A := nth (seed mod length arr) arr d.

Definition num_of_nat (n : nat) : jsnum := num_of_Z (Z.of_nat n).

(** [mockInt] *)
Definition mockInt (name : str) (seed : nat) : jsnum :=
  let lower := to_lower name in
  if decide (lower = #"id") then num_of_nat (seed + 1)
  else if includes #"age" lower then num_of_nat (25 + (seed * 7) mod 50)
  else if includes #"year" lower then num_of_nat (1990 + (seed * 3) mod 35)
  else if includes #"count" lower || includes #"qty" lower then num_of_nat (((seed + 1) * 3) mod 25)
  else num_of_nat (seed * 7 + 12).

(** [mockFloat]; [Number((k * 3.14).toFixed(2))] is the decimal [k * 314 / 100]. *)
Definition mockFloat (name : str) (seed : nat) : jsnum :=
  let lower := to_lower name in
  if includes #"price" lower || includes #"worth" lower || includes #"amount" lower ||
     includes #"salary" lower || includes #"cost" lower
  then num_of_Z (50000 + Z.of_nat seed * 75000 + (Z.of_nat seed * 137) mod 10000)
  else Dec (Z.of_nat (seed + 1) * 314) (-2).

(** The civil date of a day number counted from 1970-01-01. *)
Definition civil_from_days (z : Z) : Z * Z * Z :=
  (let z := z + 719468 in
   let era := z / 146097 in
   let doe := z mod 146097 in
   let yoe := (doe - doe / 1460 + doe / 36524 - doe / 146096) / 365 in
   let doy := doe - (365 * yoe + yoe / 4 - yoe / 100) in
   let mp := (5 * doy + 2) / 153 in
   let d := doy - (153 * mp + 2) / 5 + 1 in
   let m := if mp <? 10 then mp + 3 else mp - 9 in
   (yoe + era * 400 + (if m <=? 2 then 1 else 0), m, d))%Z.

Definition pad2 (z : Z) : str := (if (z <? 10)%Z then #"0" else []) ++ show_Z z.

Definition iso_date (days : Z) : str :=
  let '(y, m, d) := civil_from_days days in show_Z y ++ #"-" ++ pad2 m ++ #"-" ++ pad2 d.

(** [mockDate]: three days back per row from 2026-04-15. *)
Definition mockDate (seed : nat) (withTime : bool) : str :=
  iso_date (20558 - 3 * Z.of_nat seed) ++ (if withTime then #"T10:00:00Z" else []).

(** [mockString] *)
Definition mockString (name : str) (seed : nat) : str :=
  let lower := to_lower name in
  let first := pick [] FIRST_NAMES seed in
  let last_ := pick [] LAST_NAMES seed in
  let word n := pick [] WORDS n in
  if decide (lower = #"id") then show_nat (seed + 1)
  else if includes #"first" lower && includes #"name" lower then first
  else if includes #"last" lower && includes #"name" lower then last_
  else if includes #"name" lower then first ++ #" " ++ last_
  else if includes #"email" lower then
    to_lower first ++ #"." ++ List.filter is_lower (to_lower last_) ++ #"@example.com"
  else if includes #"phone" lower then
    #"+49 " ++ show_nat (89 + seed) ++ #" " ++ show_nat (1000 + seed * 17)
  else if includes #"city" lower || includes #"town" lower then
    pick [] [ #"München"; #"Berlin"; #"Hamburg"; #"Köln"; #"Frankfurt" ] seed
  else if includes #"country" lower then pick [] [ #"Deutschland"; #"Österreich"; #"Schweiz" ] seed
  else if includes #"title" lower then word seed ++ #" " ++ word (seed + 1)
  else if includes #"url" lower || includes #"href" lower then #"https://example.com/" ++ show_nat seed
  else word seed ++ #" " ++ show_nat (seed + 1).

(** [mockText] *)
Definition mockText (_name : str) (seed : nat) : str :=
  let word n := pick [] WORDS n in
  join #" " [word seed; word (seed + 1); word (seed + 2); #"–"; word (seed + 3); word (seed + 4) ++ #"."].

(** The typed default of a field. *)
Definition typed_value (f : DomainFieldDef) (seed : nat) : jsval :=
  match field_type f with
  | TInt => VNum (mockInt (field_name f) seed)
  | TFloat => VNum (mockFloat (field_name f) seed)
  | TBool => VBool (Nat.even seed)
  | TDate => VStr (mockDate seed false)
  | TDatetime => VStr (mockDate seed true)
  | TText => VStr (mockText (field_name f) seed)
  | TString => VStr (mockString (field_name f) seed)
  end.

(** [mockValueForField] *)
Definition mockValueForField (f : DomainFieldDef) (seed : nat) (optionFor : str → nat → option str) : jsval :=
  match optionsRef f with
  | Some (c :: ref) =>
    match optionFor (c :: ref) seed with Some v => VStr v | None => typed_value f seed end
  | _ => typed_value f seed
  end.

(** * [options.ts] *)

Definition PRESETS : list (str * list OptionEntry) :=
  [ (#"cities", [ MkOption #"1" #"München"; MkOption #"2" #"Berlin"; MkOption #"3" #"Hamburg";
                  MkOption #"4" #"Frankfurt" ]);
    (#"countries", [ MkOption #"de" #"Deutschland"; MkOption #"at" #"Österreich"; MkOption #"ch" #"Schweiz";
                     MkOption #"fr" #"Frankreich" ]);
    (#"roles", [ MkOption #"admin" #"Administrator"; MkOption #"manager" #"Manager";
                 MkOption #"user" #"Benutzer"; MkOption #"guest" #"Gast" ]);
    (#"departments", [ MkOption #"architecture" #"Architektur"; MkOption #"development" #"Entwicklung";
                       MkOption #"operations" #"Betrieb"; MkOption #"sales" #"Vertrieb" ]);
    (#"statuses", [ MkOption #"draft" #"Entwurf"; MkOption #"active" #"Aktiv";
                    MkOption #"archived" #"Archiviert"; MkOption #"pending" #"Wartend" ]);
    (#"priorities", [ MkOption #"low" #"Niedrig"; MkOption #"normal" #"Normal"; MkOption #"high" #"Hoch";
                      MkOption #"urgent" #"Dringend" ]) ].

(** [matchPreset] *)
Definition matchPreset (name : str) : option (list OptionEntry) :=
  snd <$> List.find (λ p, includes p.1 (to_lower name)) PRESETS.

(** [generic]; [lower.replace(/s$/, "")] *)
Definition generic (name : str) : list OptionEntry :=
  let lower := to_lower name in
  let cut := if ends_with #"s" lower then slice_end 1 lower else lower in
  let root := if decide (cut = []) then #"item" else cut in
  (λ i, MkOption (show_nat i) (root ++ #" " ++ show_nat i)) <$> [1; 2; 3; 4].

(** [mockOptionsFor] *)
Definition mockOptionsFor (meta : MetaDef) : list OptionEntry :=
  match matchPreset (meta_name meta) with Some preset => preset | None => generic (meta_name meta) end.

(** * [envelope.ts] *)

Definition ROW_COUNT : nat := 4.

(** [buildMetaSection] *)
Definition buildMetaSection (d : DomainDef) : list (str * list OptionEntry) :=
  set_loop meta_name mockOptionsFor [] (metas d).

(** [makeOptionResolver] *)
Definition makeOptionResolver (meta : list (str * list OptionEntry)) (ref : str) (seed : nat) : option str :=
  match assoc_get ref meta with
  | None | Some [] => None
  | Some list => option_value <$> list !! (seed mod length list)
  end.

(** [buildRow] *)
Definition buildRow (d : DomainDef) (seed : nat) (optionFor : str → nat → option str) : jsobj :=
  set_loop field_name (λ f, mockValueForField f seed optionFor) [] (fields d).

(** [matches], [containsTableForAlias], [isTableForAlias] *)
Fixpoint matches (alias : str) (el : BodyElementDef) : bool :=
  match el with
  | TableElement t => bool_decide (ref_domain (rowSource t) = alias)
  | SectionDef _ _ b | StackDef _ b | RowDef _ b | GridDef _ _ b | CardDef _ _ b => existsb (matches alias) b
  | TabsDef _ ts => existsb (pane_matches alias) ts
  | AccordionDef _ its => existsb (item_matches alias) its
  | _ => false
  end
with pane_matches (alias : str) (t : TabPaneDef) : bool :=
  match t with MkTabPaneDef _ b => existsb (matches alias) b end
with item_matches (alias : str) (i : AccordionItemDef) : bool :=
  match i with MkAccordionItemDef _ _ b => existsb (matches alias) b end.

Definition containsTableForAlias (body : list BodyElementDef) (alias : str) : bool :=
  existsb (matches alias) body.

(** The option entries as the objects the envelope holds. *)
Definition option_object (o : OptionEntry) : jsval :=
  VObj [(#"value", VStr (option_value o)); (#"label", VStr (option_label o))].

Definition primaryAlias (v : ViewDef) (d : DomainDef) : str :=
  match List.find (λ b, bool_decide (binding_name b = domain_name d)) (view_domains v) with
  | Some b => binding_alias b
  | None => domain_name d
  end.

(** The record of the domain: with [hasTable], [{ rows, ...buildRow(domain, 0) }]. *)
Definition mock_record (d : DomainDef) (optionFor : str → nat → option str) (hasTable : bool) : jsobj :=
  if hasTable then
    set_loop fst snd [(#"rows", VArr ((λ i, VObj (buildRow d i optionFor)) <$> seq 0 ROW_COUNT))]
      (buildRow d 0 optionFor)
  else buildRow d 0 optionFor.

(** [mockEnvelope] *)
Definition mockEnvelope (v : ViewDef) (d : DomainDef) : jsobj :=
  let meta := buildMetaSection d in
  let optionFor := makeOptionResolver meta in
  let alias := primaryAlias v d in
  let hasTable := containsTableForAlias (view_body v) alias in
  [ (#"content", VObj [(alias, VObj (mock_record d optionFor hasTable))]);
    (#"meta", VObj ((λ p : str * list OptionEntry, (p.1, VArr (option_object <$> p.2))) <$> meta)) ].

Example mock_dates :
  map (λ i, mockDate i true) [0; 1; 5] =
  [ #"2026-04-15T10:00:00Z"; #"2026-04-12T10:00:00Z"; #"2026-03-31T10:00:00Z" ].
Proof. vm_compute. reflexivity. Qed.

(** * Rows *)

(** The fields of a domain as the grammar has them: identifiers, once each. *)
Definition fields_ok (d : DomainDef) : Prop :=
  NoDup (field_name <$> fields d) ∧ Forall (λ f, is_id (field_name f) = true) (fields d).

Lemma is_id_no_index s : is_id s = true → array_index s = None.
Proof.
  intros Hs. unfold array_index. rewrite bool_decide_false; [done|]. intros E.
  pose proof (show_N_digits (digits_value s)) as Hd. rewrite E in Hd.
  destruct s as [|c s]; [done|]. unfold is_id in Hs. cbn [forallb] in Hd.
  apply andb_true_iff in Hd as [Hc _]. by rewrite Hc in Hs.
Qed.

(** Properties that are no array indices are listed in the order of creation. *)
Lemma set_loop_list {A X} (key : X → str) (val : X → A) m l :
  NoDup (m.*1 ++ (key <$> l)) → Forall (λ x, array_index (key x) = None) l →
  set_loop key val m l = m ++ ((λ x, (key x, val x)) <$> l).
Proof.
  unfold set_loop. revert m. induction l as [|x l IH]; intros m Hnd Hk; [by rewrite app_nil_r|].
  apply Forall_cons in Hk as [Hx Hk]. cbn [foldl]. rewrite fmap_cons in Hnd.
  assert (key x ∉ m.*1) as Hm.
  { apply NoDup_app in Hnd as (_ & Hd & _). intros Hin. by apply (Hd _ Hin); left. }
  rewrite obj_set_snoc by done. rewrite IH; [by rewrite <- app_assoc| |done].
  rewrite fmap_app, <- app_assoc. exact Hnd.
Qed.

Lemma buildRow_list d seed o :
  fields_ok d → buildRow d seed o = (λ f, (field_name f, mockValueForField f seed o)) <$> fields d.
Proof.
  intros [Hnd Hid]. unfold buildRow. rewrite set_loop_list; [done|done|].
  eapply Forall_impl; [exact Hid|]. intros f. apply is_id_no_index.
Qed.

Lemma keys_ordered_ids prev ks :
  NoDup (prev ++ ks) → Forall (λ k, array_index k = None) ks → keys_ordered prev ks = true.
Proof.
  intros Hnd Hk. revert prev Hnd. induction Hk as [|k ks Hk _ IH]; intros prev Hnd; [done|].
  cbn [keys_ordered]. rewrite !andb_true_iff, bool_decide_eq_true. split_and!.
  - apply NoDup_app in Hnd as (_ & Hd & _). intros Hin. by apply (Hd _ Hin); left.
  - apply forallb_forall. intros k' _. unfold goes_after. by rewrite Hk.
  - apply IH. by rewrite <- app_assoc.
Qed.

(** ** Values of the four rows *)

(** The type of a value agrees with the field's. *)
Definition value_fits (t : FieldTypeDef) (v : jsval) : bool :=
  match t, v with
  | TInt, VNum (Dec _ 0%Z) => true
  | TFloat, VNum n => is_finite n
  | TBool, VBool _ => true
  | (TString | TText | TDate | TDatetime), VStr _ => true
  | _, _ => false
  end.

Definition shows_well (t : FieldTypeDef) (v : jsval) : bool :=
  value_fits t v && json_plain v && negb (isObject v) && negb (bool_decide (leaf_text v = [])).

Lemma four_rows (P : nat → Prop) i : P 0 → P 1 → P 2 → P 3 → i < ROW_COUNT → P i.
Proof. unfold ROW_COUNT. intros. do 4 (destruct i as [|i]; [done|]). lia. Qed.

Lemma mockInt_shows name i : i < ROW_COUNT → shows_well TInt (VNum (mockInt name i)) = true.
Proof.
  apply (four_rows (λ i, shows_well TInt (VNum (mockInt name i)) = true)); unfold mockInt; cbv zeta; split_ifs; vm_compute; reflexivity.
Qed.

Lemma mockFloat_shows name i : i < ROW_COUNT → shows_well TFloat (VNum (mockFloat name i)) = true.
Proof.
  apply (four_rows (λ i, shows_well TFloat (VNum (mockFloat name i)) = true)); unfold mockFloat; cbv zeta; split_ifs; vm_compute; reflexivity.
Qed.

Lemma mockString_shows name i : i < ROW_COUNT → shows_well TString (VStr (mockString name i)) = true.
Proof.
  apply (four_rows (λ i, shows_well TString (VStr (mockString name i)) = true)); unfold mockString; cbv zeta; split_ifs; vm_compute; reflexivity.
Qed.

Lemma typed_value_shows f i : i < ROW_COUNT → shows_well (field_type f) (typed_value f i) = true.
Proof.
  unfold typed_value. destruct (field_type f).
  - apply mockInt_shows.
  - apply mockFloat_shows.
  - apply mockString_shows.
  - apply (four_rows (λ i, shows_well TText (VStr (mockText (field_name f) i)) = true));
      vm_compute; reflexivity.
  - apply (four_rows (λ i, shows_well TBool (VBool (Nat.even i)) = true)); vm_compute; reflexivity.
  - apply (four_rows (λ i, shows_well TDate (VStr (mockDate i false)) = true)); vm_compute; reflexivity.
  - apply (four_rows (λ i, shows_well TDatetime (VStr (mockDate i true)) = true)); vm_compute; reflexivity.
Qed.

(** ** Options *)

Definition entry_shown (o : OptionEntry) : Prop := option_value o ≠ [] ∧ option_label o ≠ [].

Lemma mockOptions_shown m : mockOptionsFor m ≠ [] ∧ Forall entry_shown (mockOptionsFor m).
Proof.
  unfold mockOptionsFor, matchPreset. destruct (List.find _ PRESETS) as [[k l]|] eqn:E.
  - apply find_some in E as [Hin _]. cbn [fmap option_fmap option_map snd].
    assert (Forall (λ p : str * list OptionEntry, p.2 ≠ [] ∧ Forall entry_shown p.2) PRESETS) as H.
    { repeat (apply Forall_cons_2; [split; [discriminate|]; repeat (apply Forall_cons_2; [by split|]);
        apply Forall_nil_2|]). apply Forall_nil_2. }
    apply list_elem_of_In in Hin. by apply (Forall_elem H) in Hin.
  - cbn [fmap option_fmap option_map]. unfold generic. split; [discriminate|].
    apply Forall_fmap, Forall_forall. intros i _. unfold compose, entry_shown. cbn [option_value option_label].
    split; [apply show_N_nonempty|]. intros H. apply (f_equal length) in H.
    rewrite !length_app in H. cbn [length js] in H. change (length #" ") with 1 in H. simpl in H. lia.
Qed.

Lemma buildMetaSection_get d m :
  m ∈ metas d → assoc_get (meta_name m) (buildMetaSection d) = Some (mockOptionsFor m).
Proof.
  intros Hm. apply (set_loop_get meta_name mockOptionsFor m); [done|].
  intros m' _ E. unfold mockOptionsFor. by rewrite E.
Qed.

Lemma set_loop_NoDup {A X} (key : X → str) (val : X → A) m l :
  NoDup m.*1 → NoDup (set_loop key val m l).*1.
Proof.
  unfold set_loop. revert m. induction l as [|x l IH]; intros m Hm; [done|].
  cbn [foldl]. by apply IH, obj_set_keys_NoDup.
Qed.

(** A resolved option is the value of an entry of its list. *)
Lemma resolver_in d ref seed v :
  makeOptionResolver (buildMetaSection d) ref seed = Some v →
  ∃ l o, assoc_get ref (buildMetaSection d) = Some l ∧ o ∈ l ∧ option_value o = v.
Proof.
  unfold makeOptionResolver. destruct (assoc_get ref _) as [[|o l]|]; [done| |done].
  intros (o' & H & ->)%fmap_Some. exists (o :: l), o'. split_and!; [done| |done].
  by apply list_elem_of_lookup_2 in H.
Qed.

Lemma resolver_some d m seed :
  m ∈ metas d → ∃ o, o ∈ mockOptionsFor m ∧
    makeOptionResolver (buildMetaSection d) (meta_name m) seed = Some (option_value o).
Proof.
  intros Hm. unfold makeOptionResolver. rewrite buildMetaSection_get by done.
  destruct (mockOptions_shown m) as [Hne _]. destruct (mockOptionsFor m) as [|o l]; [done|].
  destruct (lookup_lt_is_Some_2 (o :: l) (seed mod length (o :: l))) as [o' Ho'].
  { apply Nat.mod_upper_bound. discriminate. }
  exists o'. rewrite Ho'. split; [by apply list_elem_of_lookup_2 in Ho'|done].
Qed.

Lemma section_shown d ref l :
  assoc_get ref (buildMetaSection d) = Some l → Forall entry_shown l.
Proof.
  intros H. apply set_loop_Some in H as [(m & _ & _ & <-)|H]; [apply mockOptions_shown|done].
Qed.

(** ** Every value of the four rows can be shown *)

Lemma mock_value_shows d f i :
  i < ROW_COUNT →
  let v := mockValueForField f i (makeOptionResolver (buildMetaSection d)) in
  json_plain v = true ∧ isObject v = false ∧ leaf_text v ≠ [].
Proof.
  intros Hi. assert (json_plain (typed_value f i) = true ∧ isObject (typed_value f i) = false ∧
                     leaf_text (typed_value f i) ≠ []) as Ht.
  { pose proof (typed_value_shows f i Hi) as H. unfold shows_well in H.
    rewrite !andb_true_iff, !negb_true_iff, bool_decide_eq_false in H. tauto. }
  cbv zeta. unfold mockValueForField. destruct (optionsRef f) as [[|c ref]|]; [done| |done].
  destruct (makeOptionResolver _ _ _) as [v|] eqn:E; [|done].
  apply resolver_in in E as (l & o & Hl & Ho & <-). split_and!; [done|done|].
  apply section_shown in Hl. by apply (Forall_elem Hl) in Ho as [Ho _].
Qed.

(** ** Tables of the body *)

Lemma matches_spec alias e :
  matches alias e = true ↔ ∃ t, TableElement t ∈ def_leaves e ∧ ref_domain (rowSource t) = alias.
Proof.
  assert (∀ b, Forall (λ e, matches alias e = true ↔
            ∃ t, TableElement t ∈ def_leaves e ∧ ref_domain (rowSource t) = alias) b →
          existsb (matches alias) b = true ↔
            ∃ t, TableElement t ∈ flat_map def_leaves b ∧ ref_domain (rowSource t) = alias) as Hbody.
  { induction 1 as [|x b Hx _ IH]; [split; [done|by intros (t & Ht%elem_of_nil & _)]|].
    cbn [existsb flat_map]. rewrite orb_true_iff, Hx, IH. setoid_rewrite elem_of_app. naive_solver. }
  induction e using BodyElementDef_deep_ind; cbn [matches def_leaves]; try by apply Hbody.
  - destruct e; try done; cbn [matches def_leaves]; setoid_rewrite list_elem_of_singleton;
      try (split; [done|by intros (? & ? & _)]).
    rewrite bool_decide_eq_true. naive_solver.
  - induction H as [|[c b] ts Hb _ IH]; [split; [done|by intros (t & Ht%elem_of_nil & _)]|].
    cbn [existsb flat_map pane_matches pane_leaves]. rewrite orb_true_iff, (Hbody b Hb), IH.
    setoid_rewrite elem_of_app. naive_solver.
  - induction H as [|[c o b] its Hb _ IH]; [split; [done|by intros (t & Ht%elem_of_nil & _)]|].
    cbn [existsb flat_map item_matches item_def_leaves]. rewrite orb_true_iff, (Hbody b Hb), IH.
    setoid_rewrite elem_of_app. naive_solver.
Qed.

Lemma containsTable_true body t alias :
  TableElement t ∈ flat_map def_leaves body → ref_domain (rowSource t) = alias →
  containsTableForAlias body alias = true.
Proof.
  intros Ht Ha. unfold containsTableForAlias. apply existsb_exists.
  apply list_elem_of_In, in_flat_map in Ht as (e & He & Ht). exists e. split; [done|].
  apply matches_spec. exists t. split; [by apply list_elem_of_In|done].
Qed.

(** * The envelope *)

Section envelope.
Context (d : DomainDef) (Hfields : fields_ok d).

Abbreviation resolver := (makeOptionResolver (buildMetaSection d)).

Lemma buildRow_keys i : (buildRow d i resolver).*1 = field_name <$> fields d.
Proof. rewrite buildRow_list by done. by rewrite <- list_fmap_compose. Qed.

Lemma buildRow_elem i f :
  f ∈ fields d → (field_name f, mockValueForField f i resolver) ∈ buildRow d i resolver.
Proof.
  intros Hf. rewrite buildRow_list by done.
  apply (list_elem_of_fmap_2 (λ f, (field_name f, mockValueForField f i resolver)) _ _ Hf).
Qed.

Lemma buildRow_ok i : i < ROW_COUNT → record_ok (buildRow d i resolver).
Proof.
  intros Hi. split; [rewrite buildRow_keys; apply Hfields|].
  rewrite buildRow_list by done. apply Forall_fmap, Forall_forall. intros f _. unfold compose.
  destruct (mock_value_shows d f i Hi) as (? & ? & _). done.
Qed.

Lemma buildRow_plain i : i < ROW_COUNT → json_plain (VObj (buildRow d i resolver)) = true.
Proof.
  intros Hi. cbn [json_plain]. rewrite andb_true_iff. split.
  - rewrite buildRow_keys. apply keys_ordered_ids; [apply Hfields|].
    apply Forall_fmap. eapply Forall_impl; [apply Hfields|]. intros f. apply is_id_no_index.
  - apply forallb_forall. intros [k v] Hin%list_elem_of_In.
    destruct (buildRow_ok i Hi) as [_ H]. by apply (Forall_elem H) in Hin as [? _].
Qed.

Definition mock_rows : list jsval := (λ i, VObj (buildRow d i resolver)) <$> seq 0 ROW_COUNT.

Lemma mock_rows_plain : json_plain (VArr mock_rows) = true.
Proof.
  cbn [json_plain]. apply forallb_forall. intros v (i & -> & Hi)%list_elem_of_In%list_elem_of_fmap.
  apply buildRow_plain. apply elem_of_seq in Hi. lia.
Qed.

Lemma mock_record_list b :
  #"rows" ∉ field_name <$> fields d →
  mock_record d resolver b = (if b then [(#"rows", VArr mock_rows)] else []) ++ buildRow d 0 resolver.
Proof.
  intros Hrows. destruct b; [|done]. unfold mock_record. rewrite set_loop_list.
  - f_equal. rewrite <- (list_fmap_id (buildRow d 0 resolver)) at 2. apply list_fmap_ext. by intros ? [].
  - cbn [fmap list_fmap fst app]. rewrite buildRow_keys. apply NoDup_cons. split; [done|apply Hfields].
  - destruct Hfields as [_ Hid]. rewrite buildRow_list by done. apply Forall_fmap.
    eapply Forall_impl; [exact Hid|]. intros f. apply is_id_no_index.
Qed.

Lemma mock_record_ok b : #"rows" ∉ field_name <$> fields d → record_ok (mock_record d resolver b).
Proof.
  intros Hrows. rewrite mock_record_list by done. destruct (buildRow_ok 0) as [Hnd Hall]; [unfold ROW_COUNT; lia|].
  destruct b; [|done]. split.
  - cbn [app fmap list_fmap fst]. apply NoDup_cons. rewrite buildRow_keys in *. done.
  - cbn [app]. apply Forall_cons_2; [|done]. split; [apply mock_rows_plain|done].
Qed.
End envelope.

(** ** Options reach the state *)

Lemma loadOptions_get ms st k :
  NoDup ms.*1 →
  getOptions k (loadOptions ((λ p : str * list OptionEntry, (p.1, VArr (option_object <$> p.2))) <$> ms) st) =
  match assoc_get k ms with
  | Some l => filter_map option_entry (option_object <$> l)
  | None => getOptions k st
  end.
Proof.
  unfold loadOptions. revert st. induction ms as [|[k' l] ms IH]; intros st Hnd; [done|].
  rewrite fmap_cons in Hnd. apply NoDup_cons in Hnd as [Hk Hnd]. rewrite fmap_cons. cbn [foldl fst snd].
  rewrite IH by done. cbn [assoc_get]. destruct (decide (k = k')) as [->|Hkk].
  - rewrite (proj2 (assoc_get_None k' ms) Hk). unfold getOptions, setOptions, notify. cbn [options].
    autorewrite with js_objects. by rewrite decide_True.
  - destruct (assoc_get k ms); [done|]. unfold getOptions, setOptions, notify. cbn [options].
    autorewrite with js_objects. by rewrite decide_False.
Qed.

Lemma option_entries l : Forall entry_shown l → filter_map option_entry (option_object <$> l) = l.
Proof.
  induction 1 as [|[v lb] l [_ Hl] _ IH]; [done|]. rewrite fmap_cons. cbn [filter_map].
  unfold option_object at 1, option_entry at 1. cbn [option_value option_label] in *.
  change (fmtValue (obj_get #"value" _)) with v. change (fmtValue (obj_get #"label" _)) with lb.
  cbv zeta. rewrite decide_False by done. by rewrite IH.
Qed.

(** ** The state of a preview *)

Definition mock_value (d : DomainDef) (f : DomainFieldDef) (i : nat) : jsval :=
  mockValueForField f i (makeOptionResolver (buildMetaSection d)).

Section preview.
Context (v : ViewDef) (d : DomainDef) (Hfields : fields_ok d)
  (Hrows : #"rows" ∉ field_name <$> fields d) (Hid : is_id (primaryAlias v d) = true).

Definition preview_record : jsobj :=
  mock_record d (makeOptionResolver (buildMetaSection d))
    (containsTableForAlias (view_body v) (primaryAlias v d)).

Definition preview_state : ViewState :=
  loaded (primaryAlias v d) preview_record
    ((λ p : str * list OptionEntry, (p.1, VArr (option_object <$> p.2))) <$> buildMetaSection d).

Lemma preview_loaded : loadEnvelope (mockEnvelope v d) newViewState = Ok preview_state.
Proof.
  apply (loadEnvelope_record (primaryAlias v d) preview_record); [|by apply mock_record_ok].
  intros E. by rewrite E in Hid.
Qed.

Lemma preview_get k w :
  (k, w) ∈ preview_record → get (primaryAlias v d ++ #"." ++ k) preview_state = leaf_text w.
Proof.
  intros Hin. unfold get, preview_state. change (primaryAlias v d ++ #"." ++ k) with (under (primaryAlias v d) k).
  by rewrite (loaded_get _ _ _ k w) by (done || by apply mock_record_ok).
Qed.

Lemma preview_field f :
  f ∈ fields d →
  get (primaryAlias v d ++ #"." ++ field_name f) preview_state = leaf_text (mock_value d f 0).
Proof.
  intros Hf. apply preview_get. unfold preview_record. rewrite mock_record_list by done.
  apply elem_of_app. right. by apply buildRow_elem.
Qed.

Lemma preview_table t :
  TableElement t ∈ flat_map def_leaves (view_body v) →
  rowSource t = MkFieldRefDef (primaryAlias v d) #"rows" → table_rows t preview_state = mock_rows d.
Proof.
  intros Ht Hsrc. unfold table_rows. rewrite Hsrc. cbn [ref_domain ref_field].
  rewrite (preview_get #"rows" (VArr (mock_rows d))).
  - cbn [leaf_text]. pose proof (mock_rows_plain d Hfields) as Hp.
    rewrite decide_False by by apply codec_nonempty. by rewrite codec_round_trip.
  - unfold preview_record. rewrite mock_record_list by done.
    rewrite (containsTable_true _ t) by (try rewrite Hsrc; done). by left.
Qed.

Lemma preview_options m : m ∈ metas d → getOptions (meta_name m) preview_state = mockOptionsFor m.
Proof.
  intros Hm. unfold preview_state, loaded. rewrite loadOptions_get.
  - rewrite buildMetaSection_get by done. apply option_entries, mockOptions_shown.
  - apply set_loop_NoDup. constructor.
Qed.

Lemma mock_rows_get i f :
  i < ROW_COUNT → f ∈ fields d →
  ∃ row, mock_rows d !! i = Some (VObj row) ∧ obj_get (field_name f) row = mock_value d f i.
Proof.
  intros Hi Hf. exists (buildRow d i (makeOptionResolver (buildMetaSection d))). split.
  - unfold mock_rows. rewrite list_lookup_fmap, lookup_seq_lt by done. done.
  - unfold obj_get. rewrite (elem_assoc_get _ (mock_value d f i)); [done| |].
    + rewrite buildRow_keys by done. apply Hfields.
    + by apply buildRow_elem.
Qed.
End preview.

(** The preview of a view over a domain shows something in every bound
    place: each field of the domain reads a non-empty text of the field's type,
    a table over the domain's rows shows four rows with a value of its own for
    every field, and a field with an option list holds the value of one of the
    options its dropdown offers. *)
Theorem preview_complete v d :
  fields_ok d → #"rows" ∉ field_name <$> fields d → is_id (primaryAlias v d) = true →
  let alias := primaryAlias v d in
  ∃ st, loadEnvelope (mockEnvelope v d) newViewState = Ok st ∧
    (∀ f, f ∈ fields d →
       get (alias ++ #"." ++ field_name f) st = leaf_text (mock_value d f 0) ∧ leaf_text (mock_value d f 0) ≠ [] ∧
       (optionsRef f = None → value_fits (field_type f) (mock_value d f 0) = true)) ∧
    (∀ t, TableElement t ∈ flat_map def_leaves (view_body v) → rowSource t = MkFieldRefDef alias #"rows" →
       length (table_rows t st) = 4 ∧
       ∀ i f, i < 4 → f ∈ fields d → ∃ row, table_rows t st !! i = Some (VObj row) ∧
         obj_get (field_name f) row = mock_value d f i) ∧
    (∀ f m, f ∈ fields d → m ∈ metas d → optionsRef f = Some (meta_name m) → meta_name m ≠ [] →
       ∃ o, o ∈ getOptions (meta_name m) st ∧ option_value o = get (alias ++ #"." ++ field_name f) st).
Proof.
  intros Hf Hrows Hid alias. exists (preview_state v d). split_and!.
  - by apply preview_loaded.
  - intros f Hin. split_and!; [by apply preview_field| |].
    + destruct (mock_value_shows d f 0) as (_ & _ & ?); [unfold ROW_COUNT; lia|done].
    + intros Hopt. unfold mock_value, mockValueForField. rewrite Hopt.
      pose proof (typed_value_shows f 0) as H. unfold shows_well in H.
      rewrite !andb_true_iff in H. apply H. unfold ROW_COUNT. lia.
  - intros t Ht Hsrc. rewrite (preview_table v d Hf Hrows t Ht Hsrc). split; [done|].
    intros i f Hi Hin. by apply mock_rows_get.
  - intros f m Hin Hm Hopt Hne. rewrite preview_options by done.
    destruct (resolver_some d m 0 Hm) as (o & Ho & Hres). exists o. split; [done|].
    unfold alias. rewrite (preview_field v d Hf Hrows f Hin).
    unfold mock_value, mockValueForField. rewrite Hopt. destruct (meta_name m) eqn:E; [done|].
    rewrite <- E in *. by rewrite Hres.
Qed.

Definition sample_view : ViewDef :=
  MkViewDef #"person_list" #"Personen" [MkBinding #"person" #"p" true] true None []
    [ CardDef None [] [TableElement (MkTableDef (MkFieldRefDef #"p" #"rows") [] [])] ].

Lemma preview_complete_witness :
  ∃ st, loadEnvelope (mockEnvelope sample_view sample_person) newViewState = Ok st ∧
    length (table_rows (MkTableDef (MkFieldRefDef #"p" #"rows") [] []) st) = 4.
Proof.
  destruct (preview_complete sample_view sample_person) as (st & Hst & _ & Ht & _).
  - split; [decide_closed|apply sample_person_ids].
  - decide_closed.
  - reflexivity.
  - exists st. split; [exact Hst|]. apply Ht; [by left|reflexivity].
Defined.
