(* ===== verification/TextResolver.v ===== *)
(** The keyword resolver of the chat input:
    [apps/oos/src/mainview/store/resolver.ts], without its embedding path.

    [localeCompare] is the collation of the host's locale, which the program
    does not fix: [collate], a three-way comparison of names. *)

From S2P Require Export JsValue.

#[local] Set Warnings "-register-all".

(** * Types *)

Record DomainIndexEntry := MkDomainEntry {
  index_name : str; index_source : str; index_scope : option str; index_aliases : list str }.

Record ViewIndexEntry := MkViewEntry {
  ventry_name : str; ventry_title : str; ventry_domain : str; ventry_default : bool;
  ventry_fields : list str }.

Record ResolveResult := MkResult {
  res_domain : option DomainIndexEntry; res_views : list ViewIndexEntry;
  res_suggestion : option ViewIndexEntry }.

Inductive ResolverState :=
| Loading
| Ready (domains : list DomainIndexEntry) (views : list ViewIndexEntry)
| Failed (message : str).

(** * Words *)

(** [/[a-z0-9_äöüß]/i] on one code unit; [None] is the empty string. *)
Definition isWordChar (ch : option N) : bool :=
  match ch with
  | None => false
  | Some c => is_lower c || is_upper c || is_digit c ||
              bool_decide (c ∈ [95; 228; 246; 252; 196; 214; 220; 223]%N)
  end.

(** [haystack.indexOf(needle, from)] *)
Definition index_from (needle hay : str) (from : nat) : option nat :=
  Nat.add from <$> index_of needle (drop from hay).

(** The loop of [containsWord]; [fuel] bounds its rounds. *)
Fixpoint word_loop (fuel : nat) (hay needle : str) (from : nat) : bool :=
  match fuel with
  | O => false
  | S fuel =>
    if length hay <? from + length needle then false
    else match index_from needle hay from with
         | None => false
         | Some idx =>
           let before := if Nat.eqb idx 0 then None else hay !! (idx - 1) in
           let after := if Nat.eqb (idx + length needle) (length hay) then None
                        else hay !! (idx + length needle) in
           if negb (isWordChar before) && negb (isWordChar after) then true
           else word_loop fuel hay needle (idx + 1)
         end
  end.

(** [containsWord]; each round moves [from] on, so the length bounds them. *)
Definition containsWord (haystack needle : str) : bool :=
  if decide (needle = []) then false else word_loop (S (length haystack)) haystack needle 0.

(** * Choosing a view *)

(** [Number(b.default) - Number(a.default) || a.name.localeCompare(b.name)] *)
Section choose.
Context (collate : str → str → comparison).

Definition view_compare (a b : ViewIndexEntry) : comparison :=
  match ventry_default a, ventry_default b with
  | true, false => Lt
  | false, true => Gt
  | _, _ => collate (ventry_name a) (ventry_name b)
  end.

(** [views.sort(view_compare)], a stable sort. *)
Fixpoint insert_view (v : ViewIndexEntry) (l : list ViewIndexEntry) : list ViewIndexEntry :=
  match l with
  | [] => [v]
  | w :: l' => match view_compare v w with Gt => w :: insert_view v l' | _ => v :: l end
  end.

Definition sort_views (l : list ViewIndexEntry) : list ViewIndexEntry := foldr insert_view [] l.

(** [pickListyView] *)
Definition list_shaped (v : ViewIndexEntry) : bool :=
  let n := to_lower (ventry_name v) in
  existsb (λ m, bool_decide (n = drop 1 m) || includes m n)
    [ #"_list"; #"_index"; #"_table"; #"_overview" ].

Definition detail_shaped (v : ViewIndexEntry) : bool :=
  existsb (λ m, includes m (to_lower (ventry_name v))) [ #"_detail"; #"_edit"; #"_form"; #"_new" ].

Definition pickListyView (views : list ViewIndexEntry) : option ViewIndexEntry :=
  match List.find list_shaped views with
  | Some v => Some v
  | None => List.find (λ v, negb (detail_shaped v)) views
  end.

(** The [??] chain. *)
Definition or_else {A} (a b : option A) : option A := match a with Some x => Some x | None => b end.

(** [shapeResult] *)
Definition shapeResult (state_views : list ViewIndexEntry) (domain : DomainIndexEntry) (lower : str)
    : ResolveResult :=
  let views := sort_views (filter (λ v, ventry_domain v = index_name domain) state_views) in
  let named := List.find (λ v, containsWord lower (to_lower (ventry_name v))) views in
  let suggestion :=
    or_else named (or_else (List.find ventry_default views) (or_else (pickListyView views) (head views))) in
  MkResult (Some domain) views suggestion.

Definition mentions (lower : str) (d : DomainIndexEntry) : bool :=
  existsb (λ a, containsWord lower (to_lower a)) (index_aliases d).

Definition no_result : ResolveResult := MkResult None [] None.

(** [resolveText] *)
Definition resolveText (state : ResolverState) (text : str) : ResolveResult :=
  match state with
  | Ready domains views =>
    let lower := to_lower text in
    match List.find (mentions lower) domains with
    | None => no_result
    | Some domain => shapeResult views domain lower
    end
  | _ => no_result
  end.
End choose.

Example contains_word_1 :
  containsWord #"zeig alle personen aus wien" #"personen" = true ∧
  containsWord #"personalisiert person" #"person" = true ∧
  containsWord #"unpersönlich" #"persönlich" = false ∧
  containsWord #"a person_list b" #"person" = false ∧ containsWord #"x" [] = false.
Proof. split_and!; vm_compute; reflexivity. Qed.

(** * Occurrences of words *)

(** [w] stands in [text] with no word character next to it. *)
Definition occurs_word (text w : str) : Prop :=
  w ≠ [] ∧ ∃ pre post, text = pre ++ w ++ post ∧
    isWordChar (last pre) = false ∧ isWordChar (head post) = false.

Lemma index_of_Some n h i :
  index_of n h = Some i →
  starts_with n (drop i h) = true ∧ ∀ j, j < i → starts_with n (drop j h) = false.
Proof.
  revert i. induction h as [|c h IH]; intros i; cbn [index_of].
  - destruct (starts_with n []) eqn:E; [|done]. intros [= <-]. split; [done|lia].
  - destruct (starts_with n (c :: h)) eqn:E.
    + intros [= <-]. split; [done|lia].
    + destruct (index_of n h) as [i'|]; [|done]. intros [= <-].
      destruct (IH i' eq_refl) as [Hs Hl]. split; [done|].
      intros [|j] Hj; [done|]. apply Hl. lia.
Qed.

Lemma index_of_None n h j : n ≠ [] → index_of n h = None → starts_with n (drop j h) = false.
Proof.
  intros Hn. revert j. induction h as [|c h IH]; intros j; cbn [index_of].
  - rewrite drop_nil. by destruct (starts_with n []).
  - destruct (starts_with n (c :: h)) eqn:E; [done|].
    destruct (index_of n h) as [i'|]; [done|]. intros _. destruct j as [|j]; [done|]. by apply IH.
Qed.

Lemma index_from_Some n h from i :
  index_from n h from = Some i →
  from ≤ i ∧ starts_with n (drop i h) = true ∧
  ∀ j, from ≤ j < i → starts_with n (drop j h) = false.
Proof.
  unfold index_from. intros (k & Hk & ->)%fmap_Some.
  apply index_of_Some in Hk as [Hs Hl]. rewrite drop_drop in Hs. split_and!; [lia|done|].
  intros j Hj. replace j with (from + (j - from)) by lia. rewrite <- drop_drop. apply Hl. lia.
Qed.

Lemma index_from_None n h from j :
  n ≠ [] → index_from n h from = None → from ≤ j → starts_with n (drop j h) = false.
Proof.
  unfold index_from. intros Hn H Hj. destruct (index_of n (drop from h)) eqn:E; [done|].
  replace j with (from + (j - from)) by lia. rewrite <- drop_drop. by apply index_of_None.
Qed.

(** An occurrence by its position. *)
Definition word_at (h n : str) (i : nat) : Prop :=
  starts_with n (drop i h) = true ∧
  isWordChar (last (take i h)) = false ∧ isWordChar (h !! (i + length n)) = false.

Lemma word_at_bound h n i : n ≠ [] → starts_with n (drop i h) = true → i + length n ≤ length h.
Proof.
  intros Hn (k & Hk)%starts_with_spec. apply (f_equal length) in Hk.
  rewrite length_drop, length_app in Hk. destruct n; [done|]. cbn [length] in *. lia.
Qed.

Lemma occurs_word_at h n : occurs_word h n ↔ n ≠ [] ∧ ∃ i, word_at h n i.
Proof.
  unfold occurs_word. split; intros [Hn H]; (split; [done|]).
  - destruct H as (pre & post & -> & Hb & Ha). exists (length pre). split_and!.
    + rewrite drop_app_length. apply starts_with_app.
    + by rewrite take_app_length.
    + rewrite app_assoc, lookup_app_r by (rewrite length_app; lia).
      rewrite length_app, Nat.sub_diag. by destruct post.
  - destruct H as (i & Hs & Hb & Ha). pose proof (word_at_bound h n i Hn Hs) as Hlen.
    apply starts_with_spec in Hs as [post Hp]. exists (take i h), post. split_and!; [|done|].
    + by rewrite <- Hp, take_drop.
    + rewrite <- (take_drop i h), Hp, app_assoc, lookup_app_r in Ha by (rewrite length_app, length_take; lia).
      rewrite length_app, length_take in Ha. replace (_ - _) with 0 in Ha by lia. by destruct post.
Qed.

(** The characters the loop looks at. *)
Lemma word_before (h : str) idx :
  idx ≤ length h → (if Nat.eqb idx 0 then None else h !! (idx - 1)) = last (take idx h).
Proof.
  intros Hi. destruct idx as [|i]; [done|]. cbn [Nat.eqb]. rewrite last_lookup, length_take.
  rewrite lookup_take_lt by lia. f_equal. lia.
Qed.

Lemma word_after (h : str) k : (if Nat.eqb k (length h) then None else h !! k) = h !! k.
Proof. destruct (Nat.eqb_spec k (length h)) as [->|]; [|done]. by rewrite lookup_ge_None_2. Qed.

Lemma word_loop_spec fuel h n from :
  n ≠ [] → length h < fuel + from →
  word_loop fuel h n from = true ↔ ∃ i, from ≤ i ∧ word_at h n i.
Proof.
  intros Hn. revert from. induction fuel as [|fuel IH]; intros from Hf.
  - split; [done|]. intros (i & Hi & Hs & _). apply word_at_bound in Hs; [|done]. lia.
  - cbn [word_loop]. destruct (Nat.ltb_spec (length h) (from + length n)) as [Hlt|Hge].
    { split; [done|]. intros (i & Hi & Hs & _). apply word_at_bound in Hs; [|done]. lia. }
    destruct (index_from n h from) as [idx|] eqn:E.
    2:{ split; [done|]. intros (i & Hi & Hs & _). by rewrite (index_from_None n h from i) in Hs. }
    apply index_from_Some in E as (Hle & Hs & Hleast).
    pose proof (word_at_bound h n idx Hn Hs) as Hb. rewrite word_before, word_after by lia.
    destruct (isWordChar (last (take idx h))) eqn:Eb;
      [|destruct (isWordChar (h !! (idx + length n))) eqn:Ea]; cbn [negb andb].
    1,2: rewrite IH by lia; split; intros (i & Hi & Hw); exists i; (split; [|done]); [lia|];
         destruct (decide (i = idx)) as [->|Hne]; [destruct Hw as (_ & Hw1 & Hw2); congruence|];
         destruct (decide (i < idx)); [|lia]; destruct Hw as (Hw & _); by rewrite Hleast in Hw by lia.
    split; [|done]. intros _. exists idx. split; [done|]. by split_and!.
Qed.

(** [containsWord] terminates with the right answer: it finds exactly the
    occurrences that no word character touches. *)
Lemma containsWord_spec h n : containsWord h n = true ↔ occurs_word h n.
Proof.
  rewrite occurs_word_at. unfold containsWord. case_decide as Hn; [by split; [|intros []]|].
  rewrite word_loop_spec by (done || lia). split; [intros (i & _ & H); eauto|].
  intros (_ & i & H). exists i. split; [lia|done].
Qed.

(** * The view order *)

Section order.
Context (collate : str → str → comparison).

Lemma insert_view_perm v l : insert_view collate v l ≡ₚ v :: l.
Proof.
  induction l as [|w l IH]; [done|]. cbn [insert_view]. destruct (view_compare collate v w); [done|done|].
  rewrite IH. apply Permutation_swap.
Qed.

Lemma sort_views_perm l : sort_views collate l ≡ₚ l.
Proof.
  induction l as [|v l IH]; [done|]. unfold sort_views in *. cbn [foldr].
  by rewrite insert_view_perm, IH.
Qed.

(** No default view comes after one that is not. *)
Fixpoint defaults_first (l : list ViewIndexEntry) : bool :=
  match l with
  | [] => true
  | v :: l => if ventry_default v then defaults_first l
              else forallb (λ w, negb (ventry_default w)) l
  end.

Lemma insert_view_defaults v l :
  defaults_first l = true → defaults_first (insert_view collate v l) = true.
Proof.
  induction l as [|w l IH]; cbn [defaults_first insert_view]; [by destruct (ventry_default v)|].
  assert (∀ P : ViewIndexEntry → bool, forallb P l = true → P v = true →
            forallb P (insert_view collate v l) = true) as Hall.
  { intros P Hl Hv. rewrite forallb_forall in *. intros x Hx. apply list_elem_of_In in Hx.
    rewrite insert_view_perm in Hx. apply elem_of_cons in Hx as [->|Hx]; [done|].
    by apply Hl, list_elem_of_In. }
  unfold view_compare. destruct (ventry_default v) eqn:Ev, (ventry_default w) eqn:Ew;
    try destruct (collate _ _); cbn [defaults_first forallb]; rewrite ?Ev, ?Ew; cbn [negb andb]; intros H;
    try done; try by apply IH.
  all: by apply Hall; [done|rewrite Ev].
Qed.

Lemma sort_views_defaults l : defaults_first (sort_views collate l) = true.
Proof.
  induction l as [|v l IH]; [done|]. unfold sort_views in *. cbn [foldr]. by apply insert_view_defaults.
Qed.
End order.

(** ** The choice *)

Lemma find_chosen {A} (f : A → bool) l :
  match List.find f l with
  | Some x => x ∈ l ∧ f x = true
  | None => ∀ x, x ∈ l → f x = false
  end.
Proof.
  destruct (List.find f l) as [x|] eqn:E.
  - apply find_some in E as [Hin Hf]. by rewrite list_elem_of_In.
  - intros x Hx%list_elem_of_In. by apply (find_none _ _ E).
Qed.

(** What makes a view the one to show: the first criterion some view meets. *)
Definition preferred (f : ViewIndexEntry → bool) (views : list ViewIndexEntry) (s : ViewIndexEntry) : Prop :=
  ∀ v, v ∈ views → f v = true → f s = true.

Definition well_chosen (lower : str) (views : list ViewIndexEntry) (s : ViewIndexEntry) : Prop :=
  let named v := containsWord lower (to_lower (ventry_name v)) in
  s ∈ views ∧ preferred named views s ∧
  ((∀ v, v ∈ views → named v = false) → preferred ventry_default views s ∧
   ((∀ v, v ∈ views → ventry_default v = false) → preferred list_shaped views s ∧
    ((∀ v, v ∈ views → list_shaped v = false) → preferred (λ v, negb (detail_shaped v)) views s))).

Lemma suggestion_chosen lower views :
  match or_else (List.find (λ v, containsWord lower (to_lower (ventry_name v))) views)
          (or_else (List.find ventry_default views) (or_else (pickListyView views) (head views))) with
  | Some s => well_chosen lower views s
  | None => views = []
  end.
Proof.
  unfold well_chosen, preferred. cbv zeta.
  pose proof (find_chosen (λ v, containsWord lower (to_lower (ventry_name v))) views) as H1.
  destruct (List.find _ views) as [s|]; cbn [or_else].
  { destruct H1 as [Hin Hs]. split_and!; [done|done|]. intros Hnone. by rewrite (Hnone s Hin) in Hs. }
  pose proof (find_chosen ventry_default views) as H2.
  destruct (List.find _ views) as [s|]; cbn [or_else].
  { destruct H2 as [Hin Hs]. split_and!; [done| |intros _; split; [done|]].
    - intros v Hv Hn. by rewrite H1 in Hn.
    - intros Hnone. by rewrite (Hnone s Hin) in Hs. }
  unfold pickListyView. pose proof (find_chosen list_shaped views) as H3.
  destruct (List.find _ views) as [s|]; cbn [or_else].
  { destruct H3 as [Hin Hs]. split_and!; [done| |intros _; split; [|intros _; split; [done|]]].
    - intros v Hv Hn. by rewrite H1 in Hn.
    - intros v Hv Hn. by rewrite H2 in Hn.
    - intros Hnone. by rewrite (Hnone s Hin) in Hs. }
  pose proof (find_chosen (λ v, negb (detail_shaped v)) views) as H4.
  assert (∀ s, s ∈ views → (∀ v, v ∈ views → negb (detail_shaped v) = true → negb (detail_shaped s) = true) →
     well_chosen lower views s) as Hlast.
  { intros s Hin Hs. unfold well_chosen, preferred. cbv zeta.
    split_and!; [done| |intros _; split; [|intros _; split; [|intros _; exact Hs]]];
      intros v Hv Hn; [by rewrite H1 in Hn|by rewrite H2 in Hn|by rewrite H3 in Hn]. }
  destruct (List.find _ views) as [s|]; cbn [or_else].
  - destruct H4 as [Hin Hs]. by apply Hlast.
  - destruct views as [|s views]; [done|]. cbn [head]. apply Hlast; [by left|].
    intros v Hv Hn. by rewrite H4 in Hn.
Qed.

(** C13: The resolver finds the first domain one of whose aliases stands in the
    text as a word of its own, and answers with that domain's views, defaults
    first.  Whenever the domain has a view it suggests one of them: one the
    text names, if any; otherwise a default one; otherwise one with the name of
    a list; otherwise one that is not named like a detail form.  A text that
    mentions no domain resolves to nothing. *)
Theorem resolveText_exact collate domains views text :
  let lower := to_lower text in
  let mentioned d := ∃ a, a ∈ index_aliases d ∧ occurs_word lower (to_lower a) in
  let r := resolveText collate (Ready domains views) text in
  (r = no_result ∧ ∀ d, d ∈ domains → ¬ mentioned d) ∨
  ∃ before d after, domains = before ++ d :: after ∧ (∀ d', d' ∈ before → ¬ mentioned d') ∧ mentioned d ∧
    res_domain r = Some d ∧
    (∀ v, v ∈ res_views r ↔ v ∈ views ∧ ventry_domain v = index_name d) ∧
    defaults_first (res_views r) = true ∧
    match res_suggestion r with
    | Some s => well_chosen lower (res_views r) s
    | None => ∀ v, v ∈ views → ventry_domain v ≠ index_name d
    end.
Proof.
  cbv zeta. set (lower := to_lower text).
  assert (∀ d, mentions lower d = true ↔ ∃ a, a ∈ index_aliases d ∧ occurs_word lower (to_lower a)) as Hm.
  { intros d. unfold mentions. rewrite existsb_exists. setoid_rewrite <- list_elem_of_In.
    by setoid_rewrite containsWord_spec. }
  setoid_rewrite <- Hm. unfold resolveText. fold lower.
  destruct (List.find (mentions lower) domains) as [d|] eqn:E.
  2:{ left. split; [done|]. intros d Hd. apply list_elem_of_In in Hd.
      by rewrite (find_none _ _ E d Hd). }
  right. apply find_split in E as (before & after & -> & Hd & Hbefore). exists before, d, after.
  set (vs := sort_views collate (filter (λ v, ventry_domain v = index_name d) views)).
  assert (∀ v, v ∈ vs ↔ v ∈ views ∧ ventry_domain v = index_name d) as Hvs.
  { intros v. unfold vs. rewrite sort_views_perm, list_elem_of_filter. tauto. }
  split_and!; [done|done|done|done|exact Hvs|apply sort_views_defaults|].
  unfold shapeResult. cbn [res_suggestion res_views]. fold vs.
  pose proof (suggestion_chosen lower vs) as Hs.
  destruct (or_else _ _) as [s|]; [done|]. intros v Hv Hdom.
  assert (v ∈ vs) as Hin by (by apply Hvs). rewrite Hs in Hin. by apply elem_of_nil in Hin.
Qed.
