(* ===== verification/Stores.v ===== *)
(** What the chat application writes to its local database and reads back:
    [apps/oos/src/mainview/store/{chats,turns,pipeline-steps,ui-state,finetuning}.ts],
    and the transcript a turn hands on, [toAgentHistory] of [hooks/useChat.ts].

    The rows travel through [rpc] unchanged; what is modelled is the encoding
    the stores put into a row and the defensive decoding they apply to what
    comes back. *)

From S2P Require Export JsonWrite.

#[local] Set Warnings "-register-all".

(** * Reading fields of unknown values *)

(** [r.k] on a value known to be an object *)
Definition prop (k : str) (v : jsval) : jsval := match get_prop k v with Ok x => x | Throw _ => VUndef end.

(** [typeof v === "string" ? v : d] *)
Definition string_or (v : jsval) (d : str) : str := match v with VStr s => s | _ => d end.

Definition as_string (v : jsval) : option str := match v with VStr s => Some s | _ => None end.
Definition as_number (v : jsval) : option jsnum := match v with VNum n => Some n | _ => None end.

(** [typeof v === "string" && v ? v : null] *)
Definition nonempty_string (v : jsval) : option str :=
  match v with VStr [] => None | VStr s => Some s | _ => None end.

(** * [chats.ts] *)

Record Usage := MkUsage { promptTokens : jsnum; completionTokens : jsnum; totalTokens : jsnum }.

Inductive Role := RUser | RAssistant | RTool.

#[export] Instance role_eq_dec : EqDecision Role.
Proof. solve_decision. Defined.

Record ChatMessage := MkMessage {
  msg_id : str; msg_role : Role; msg_text : str; msg_ts : str;
  msg_turnId : option str; msg_model : option str; msg_durationMs : option jsnum;
  msg_usage : option Usage }.

Definition role_name (r : Role) : str :=
  match r with RUser => #"user" | RAssistant => #"assistant" | RTool => #"tool" end.

Definition role_of (v : jsval) : option Role :=
  match v with
  | VStr s => if decide (s = #"user") then Some RUser
              else if decide (s = #"assistant") then Some RAssistant
              else if decide (s = #"tool") then Some RTool
              else None
  | _ => None
  end.

Definition usage_value (u : Usage) : jsval :=
  VObj [ (#"promptTokens", VNum (promptTokens u)); (#"completionTokens", VNum (completionTokens u));
         (#"totalTokens", VNum (totalTokens u)) ].

(** A message as the object it is; absent optional fields are no properties. *)
Definition optional_field {A} (k : str) (f : A → jsval) (o : option A) : jsobj :=
  match o with Some x => [(k, f x)] | None => [] end.

Definition message_value (m : ChatMessage) : jsval :=
  VObj ([ (#"id", VStr (msg_id m)); (#"role", VStr (role_name (msg_role m)));
          (#"text", VStr (msg_text m)); (#"ts", VStr (msg_ts m)) ] ++
        optional_field #"turnId" VStr (msg_turnId m) ++
        optional_field #"model" VStr (msg_model m) ++
        optional_field #"durationMs" VNum (msg_durationMs m) ++
        optional_field #"usage" usage_value (msg_usage m)).

(** The usage block of [parseMessages]. *)
Definition parse_usage (v : jsval) : option Usage :=
  if is_object v then
    match as_number (prop #"promptTokens" v), as_number (prop #"completionTokens" v),
          as_number (prop #"totalTokens" v) with
    | Some p, Some c, Some t => Some (MkUsage p c t)
    | _, _, _ => None
    end
  else None.

(** The loop body of [parseMessages]: the messages kept so far, and an item. *)
Definition parse_message (out : list ChatMessage) (item : jsval) : list ChatMessage :=
  if negb (is_object item) then out
  else match role_of (prop #"role" item) with
       | None => out
       | Some role =>
         out ++ [MkMessage
           (string_or (prop #"id" item) (#"restored_" ++ show_nat (length out))) role
           (string_or (prop #"text" item) []) (string_or (prop #"ts" item) [])
           (as_string (prop #"turnId" item)) (as_string (prop #"model" item))
           (as_number (prop #"durationMs" item)) (parse_usage (prop #"usage" item))]
       end.

(** [parseMessages] *)
Definition parseMessages (raw : jsval) : list ChatMessage :=
  let arr := match raw with
             | VStr s => match json_parse s with Some v => v | None => VArr [] end
             | _ => raw
             end in
  match arr with VArr items => foldl parse_message [] items | _ => [] end.

Record PersistedChat := MkChat {
  chat_id : str; chat_title : str; chat_createdAt : str; chat_updatedAt : str;
  chat_messages : list ChatMessage }.

(** The row [saveChat] sends. *)
Record ChatRow := MkChatRow {
  row_id : str; row_title : str; row_createdAt : str; row_updatedAt : str; row_messages : str }.

Definition saveChat (c : PersistedChat) : ChatRow :=
  MkChatRow (chat_id c) (chat_title c) (chat_createdAt c) (chat_updatedAt c)
    (json_text (VArr (message_value <$> chat_messages c))).

Definition loadChat (row : ChatRow) : PersistedChat :=
  MkChat (row_id row) (row_title row) (row_createdAt row) (row_updatedAt row)
    (parseMessages (VStr (row_messages row))).

(** [deriveTitle] *)
Fixpoint deriveTitle (messages : list ChatMessage) : str :=
  match messages with
  | [] => #"Neue Unterhaltung"
  | m :: messages =>
    if decide (msg_role m ≠ RUser) then deriveTitle messages
    else let trimmed := trim (msg_text m) in
         if decide (trimmed = []) then deriveTitle messages
         else if 60 <? length trimmed then take 60 trimmed ++ #"…" else trimmed
  end.

(** [toAgentHistory]: the roles and texts of the transcript. *)
Fixpoint toAgentHistory (messages : list ChatMessage) : list (Role * str) :=
  match messages with
  | [] => []
  | m :: messages =>
    match msg_role m with
    | RUser => (RUser, msg_text m) :: toAgentHistory messages
    | RAssistant =>
      if bool_decide (msg_text m = []) || bool_decide (msg_text m = #"…") then toAgentHistory messages
      else (RAssistant, msg_text m) :: toAgentHistory messages
    | RTool => toAgentHistory messages
    end
  end.

(** * [turns.ts] and [pipeline-steps.ts]

    Tool calls and token usage are handed through [JSON] as they are, so they
    stay values here; the other fields of a row are copied. *)
Definition zero_usage : jsval := usage_value (MkUsage (num_of_Z 0) (num_of_Z 0) (num_of_Z 0)).

(** The fields the codec copies. *)
Record TurnFields := MkTurnFields {
  turn_id : str; turn_chatId : option str; turn_createdAt : str; turn_finishedAt : str;
  turn_durationMs : jsnum; turn_model : str; turn_llmBaseUrl : str; turn_userText : str;
  turn_viewHint : option str; turn_finalText : str; turn_status : str; turn_steps : jsnum;
  turn_errorMessage : option str }.

Record TurnRecord := MkTurn { turn_fields : TurnFields; turn_toolCalls : jsval; turn_usage : jsval }.
Record TurnRow := MkTurnRow { trow_fields : TurnFields; trow_toolCalls : str; trow_usage : str }.

(** [recordToRow] *)
Definition recordToRow (t : TurnRecord) : TurnRow :=
  MkTurnRow (turn_fields t) (json_text (turn_toolCalls t)) (json_text (turn_usage t)).

(** [try { x = JSON.parse(s) } catch {}] *)
Definition parse_or (d : jsval) (s : str) : jsval := match json_parse s with Some v => v | None => d end.

(** [rowToRecord] *)
Definition rowToRecord (r : TurnRow) : TurnRecord :=
  MkTurn (trow_fields r) (parse_or (VArr []) (trow_toolCalls r)) (parse_or zero_usage (trow_usage r)).

Record PipelineStepOutputRow := MkStepRow {
  srow_turnId : str; srow_stepIndex : jsnum; srow_stepName : str; srow_stepKind : str;
  srow_summary : str; srow_chunks : str; srow_durationMs : jsnum; srow_usage : str; srow_createdAt : str }.

Record PipelineStepRecord := MkStepRecord {
  step_turnId : str; step_stepIndex : jsnum; step_stepName : str; step_stepKind : str;
  step_summary : str; step_chunks : jsval; step_durationMs : jsnum; step_usage : jsval;
  step_createdAt : str }.

(** [rowToRecord] of [pipeline-steps.ts] *)
Definition stepRowToRecord (r : PipelineStepOutputRow) : PipelineStepRecord :=
  MkStepRecord (srow_turnId r) (srow_stepIndex r) (srow_stepName r) (srow_stepKind r) (srow_summary r)
    (parse_or (VArr []) (srow_chunks r)) (srow_durationMs r) (parse_or zero_usage (srow_usage r))
    (srow_createdAt r).

(** * [ui-state.ts] and [finetuning.ts] *)

Inductive ChatMode := MAsk | MForms | MEvents | MDocuments | MDev.

Record UiState := MkUiState {
  ui_mode : ChatMode; ui_mapping : option str; ui_streamId : option str; ui_askToTab : bool }.

Definition DEFAULT_UI_STATE : UiState := MkUiState MForms None None false.

Definition mode_name (m : ChatMode) : str :=
  match m with MAsk => #"ask" | MForms => #"forms" | MEvents => #"events"
             | MDocuments => #"documents" | MDev => #"dev" end.

Definition mode_of (v : jsval) : ChatMode :=
  match v with
  | VStr s => if decide (s = #"ask") then MAsk else if decide (s = #"events") then MEvents
              else if decide (s = #"documents") then MDocuments
              else if decide (s = #"dev") then MDev else MForms
  | _ => MForms
  end.

(** [parseUiState] *)
Definition parseUiState (raw : jsval) : UiState :=
  if negb (is_object raw) then DEFAULT_UI_STATE
  else MkUiState (mode_of (prop #"mode" raw)) (nonempty_string (prop #"mapping" raw))
         (nonempty_string (prop #"streamId" raw))
         (match prop #"askToTab" raw with VBool true => true | _ => false end).

Definition null_or (o : option str) : jsval := match o with Some s => VStr s | None => VNull end.

(** The value [saveUiState] stores. *)
Definition ui_value (s : UiState) : jsval :=
  VObj [ (#"mode", VStr (mode_name (ui_mode s))); (#"mapping", null_or (ui_mapping s));
         (#"streamId", null_or (ui_streamId s)); (#"askToTab", VBool (ui_askToTab s)) ].

Record FinetuningSettings := MkFinetuning {
  temperature : jsnum; timeoutMs : jsnum; maxTokens : jsnum; topHits : jsnum }.

Definition DEFAULT_FINETUNING : FinetuningSettings :=
  MkFinetuning (Dec 2 (-1)) (num_of_Z 300000) (num_of_Z 4096) (num_of_Z 10).

(** [numberOr] *)
Definition numberOr (v : jsval) (fallback : jsnum) : jsnum :=
  match v with VNum n => if is_finite n then n else fallback | _ => fallback end.

(** [parseFinetuning] *)
Definition parseFinetuning (raw : jsval) : FinetuningSettings :=
  if negb (is_object raw) then DEFAULT_FINETUNING
  else MkFinetuning
    (numberOr (prop #"temperature" raw) (temperature DEFAULT_FINETUNING))
    (numberOr (prop #"timeoutMs" raw) (timeoutMs DEFAULT_FINETUNING))
    (numberOr (prop #"maxTokens" raw) (maxTokens DEFAULT_FINETUNING))
    (numberOr (prop #"topHits" raw) (topHits DEFAULT_FINETUNING)).

Definition finetuning_value (f : FinetuningSettings) : jsval :=
  VObj [ (#"temperature", VNum (temperature f)); (#"timeoutMs", VNum (timeoutMs f));
         (#"maxTokens", VNum (maxTokens f)); (#"topHits", VNum (topHits f)) ].

Example parse_messages_1 :
  parseMessages (VStr (#"[3, {" ++ quoted #"role" ++ #":" ++ quoted #"user" ++ #"}, {}]")) =
  [MkMessage #"restored_0" RUser [] [] None None None None].
Proof. vm_compute. reflexivity. Qed.

(** * Round trips *)

(** The numbers of a record are ones a document can carry. *)
Definition usage_plain (u : Usage) : bool :=
  num_plain (promptTokens u) && num_plain (completionTokens u) && num_plain (totalTokens u).

Definition message_plain (m : ChatMessage) : bool :=
  match msg_durationMs m with Some n => num_plain n | None => true end &&
  match msg_usage m with Some u => usage_plain u | None => true end.

Lemma usage_value_plain u : usage_plain u = true → json_plain (usage_value u) = true.
Proof.
  unfold usage_plain. rewrite !andb_true_iff. intros [[H1 H2] H3]. unfold usage_value.
  cbn [json_plain forallb]. rewrite H1, H2, H3. reflexivity.
Qed.

Lemma message_value_plain m : message_plain m = true → json_plain (message_value m) = true.
Proof.
  unfold message_plain. rewrite andb_true_iff. intros [Hd Hu].
  destruct m as [i r t ts turn model [d|] [u|]]; cbn [msg_durationMs msg_usage] in *;
    try apply usage_value_plain in Hu; destruct turn, model; unfold message_value;
    cbn [optional_field app json_plain forallb msg_id msg_role msg_text msg_ts msg_turnId msg_model
         msg_durationMs msg_usage]; rewrite ?Hd, ?Hu; reflexivity.
Qed.

Lemma parse_message_value out m : parse_message out (message_value m) = out ++ [m].
Proof. destruct m as [i [] t ts [turn|] [model|] [d|] [[p c tt]|]]; reflexivity. Qed.

Lemma parse_messages_values out ms : foldl parse_message out (message_value <$> ms) = out ++ ms.
Proof.
  revert out. induction ms as [|m ms IH]; intros out; [by rewrite app_nil_r|].
  rewrite fmap_cons. cbn [foldl]. by rewrite parse_message_value, IH, <- app_assoc.
Qed.

Lemma messages_plain ms :
  Forall (λ m, message_plain m = true) ms → json_plain (VArr (message_value <$> ms)) = true.
Proof.
  intros H. cbn [json_plain]. apply forallb_forall. intros v (m & -> & Hm)%list_elem_of_In%list_elem_of_fmap.
  by apply message_value_plain, (Forall_elem H).
Qed.

Lemma loadChat_saveChat c :
  Forall (λ m, message_plain m = true) (chat_messages c) → loadChat (saveChat c) = c.
Proof.
  intros H%messages_plain. destruct c as [i t ca ua ms]. unfold loadChat, saveChat, parseMessages.
  cbn [row_messages row_id row_title row_createdAt row_updatedAt chat_id chat_title chat_createdAt
       chat_updatedAt chat_messages] in *.
  rewrite codec_round_trip by done. by rewrite parse_messages_values.
Qed.

Lemma parse_or_text d v : json_plain v = true → parse_or d (json_text v) = v.
Proof. intros H. unfold parse_or. by rewrite codec_round_trip. Qed.

(** A preference that can be stored: no empty name stands for a choice. *)
Definition ui_plain (s : UiState) : Prop := ui_mapping s ≠ Some [] ∧ ui_streamId s ≠ Some [].

Lemma parseUiState_value s : ui_plain s → parseUiState (ui_value s) = s.
Proof.
  destruct s as [m [[|a mp]|] [[|b st]|] at_]; intros [H1 H2]; try done; destruct m, at_; reflexivity.
Qed.

Definition finetuning_finite (f : FinetuningSettings) : bool :=
  is_finite (temperature f) && is_finite (timeoutMs f) && is_finite (maxTokens f) && is_finite (topHits f).

Lemma parseFinetuning_value f : finetuning_finite f = true → parseFinetuning (finetuning_value f) = f.
Proof.
  destruct f as [a b c d]. unfold finetuning_finite. cbn [temperature timeoutMs maxTokens topHits].
  rewrite !andb_true_iff. intros [[[Ha Hb] Hc] Hd].
  destruct a, b, c, d; try done; reflexivity.
Qed.

(** C14: What the application stores it reads back unchanged: a chat with its
    whole scrollback and telemetry, a turn with its tool calls and usage, the
    preferences and the tuning of a model.  And whatever a value may hold
    instead, decoding it yields tuning values that are finite and no empty
    choice among the preferences. *)
Theorem stores_read_back :
  (∀ c, Forall (λ m, message_plain m = true) (chat_messages c) → loadChat (saveChat c) = c) ∧
  (∀ t, json_plain (turn_toolCalls t) = true → json_plain (turn_usage t) = true →
     rowToRecord (recordToRow t) = t) ∧
  (∀ s, ui_plain s → parseUiState (ui_value s) = s) ∧
  (∀ f, finetuning_finite f = true → parseFinetuning (finetuning_value f) = f) ∧
  (∀ raw, ui_plain (parseUiState raw)) ∧
  (∀ raw, finetuning_finite (parseFinetuning raw) = true).
Proof.
  split_and!.
  - apply loadChat_saveChat.
  - intros [fs tc us] Htc Hus. unfold rowToRecord, recordToRow.
    cbn [trow_fields trow_toolCalls trow_usage turn_fields turn_toolCalls turn_usage] in *.
    by rewrite !parse_or_text.
  - apply parseUiState_value.
  - apply parseFinetuning_value.
  - intros raw. unfold parseUiState. destruct (is_object raw); [|done]. cbn [negb].
    split; cbn [ui_mapping ui_streamId]; unfold nonempty_string; by repeat case_match.
  - intros raw. unfold parseFinetuning. destruct (is_object raw); [|reflexivity]. cbn [negb].
    assert (∀ v d, is_finite d = true → is_finite (numberOr v d) = true) as Hn.
    { intros v d Hd. unfold numberOr. destruct v; try done. by destruct (is_finite n) eqn:E. }
    unfold finetuning_finite. cbn [temperature timeoutMs maxTokens topHits].
    by rewrite !Hn by reflexivity.
Qed.

Definition sample_chat : PersistedChat :=
  MkChat #"chat_1" #"Hallo" #"2026-01-01" #"2026-01-02"
    [ MkMessage #"u_1" RUser [34; 10; 55357]%N #"10:00" None None None None;
      MkMessage #"a_1" RAssistant #"Ja" #"10:01" (Some #"turn_1") (Some #"m") (Some (Dec 125 (-1)))
        (Some (MkUsage (num_of_Z 10) (num_of_Z 5) (num_of_Z 15))) ].

Lemma stores_read_back_witness : loadChat (saveChat sample_chat) = sample_chat.
Proof.
  apply (proj1 stores_read_back). repeat (apply Forall_cons_2; [vm_compute; reflexivity|]).
  apply Forall_nil_2.
Defined.

(** The transcript keeps the texts of the conversation in order. *)
Lemma toAgentHistory_app l1 l2 : toAgentHistory (l1 ++ l2) = toAgentHistory l1 ++ toAgentHistory l2.
Proof.
  induction l1 as [|m l1 IH]; [done|]. cbn [app toAgentHistory].
  destruct (msg_role m); [by rewrite IH| |done]. destruct (_ || _); by rewrite IH.
Qed.
