(* ===== verification/Tabs.v ===== *)
(** The tab workspace: [apps/oos/src/mainview/store/tabs.ts].

    The store is one snapshot that every mutator replaces through [setState];
    here each mutator is a function on snapshots, composed the way the source
    composes them.  The clock ([Date.now()]) is an argument of the mutators
    that mint ids, and the bundled documentation ([docsContent], a generated
    file) is the predicate [docs_has]. *)

From S2P Require Export JsValue.

#[local] Set Warnings "-register-all".

(** * Types *)

Inductive GroupKind := KWelcome | KDocs | KResults | KSettings | KHistory | KActivity | KDev.

#[export] Instance group_kind_eq_dec : EqDecision GroupKind.
Proof. solve_decision. Defined.

Record EventHit := MkHit {
  hit_mappingName : str; hit_sourceId : str; hit_streamId : str; hit_eventType : str;
  hit_textContent : str; hit_metadata : jsobj; hit_score : jsnum }.

Inductive RunStatus := RunIdle | RunRunning | RunDone | RunError.

(** The payload of a pipeline run. *)
Record PipelineRun := MkRun {
  run_pipelineName : str; run_status : RunStatus; run_output : str;
  run_error : option str; run_runId : option str }.

Inductive TabPayload :=
| PWelcome
| PDoc (topicId : str)
| PGraphqlResult (contextName query : str) (data : jsval) (viewName : option str)
| PAskResult (question answer model : str)
| PEventResult (mapping streamId question answer : str) (hits : list EventHit) (model : str)
| PDslDetail (contextName viewName : str) (data : jsobj) (id : jsval)
| PSettingsConnection
| PSettingsFinetuning
| PSettingsLogs
| PSettingsPermissions
| PChatHistory
| PActivityList
| PActivityDetail (turnId : str)
| PPersonList
| PPersonDetail
| PNoteList
| PStreamManager
| PNewEvent
| PTranslate
| PPipelineList
| PPipelineRun (run : PipelineRun)
| PStreamDetail (mapping sourceTable streamId : str)
| PDev.

Record TabRecord := MkTab {
  tab_id : str; tab_groupId : str; tab_title : str; tab_subtitle : option str;
  tab_payload : TabPayload }.

Record TabGroup := MkGroup {
  group_id : str; group_kind : GroupKind; group_title : str; group_tabs : list TabRecord;
  displaceOnNewActivity : bool; displaceOnDocsOpen : bool }.

Record TabsSnapshot := MkSnapshot { groups : list TabGroup; activeId : option str }.

(** The spread [{ ...g, tabs }]. *)
Definition with_tabs (g : TabGroup) (tabs : list TabRecord) : TabGroup :=
  MkGroup (group_id g) (group_kind g) (group_title g) tabs
    (displaceOnNewActivity g) (displaceOnDocsOpen g).

(** * Group factories *)

Definition welcomeGroup : TabGroup :=
  MkGroup #"welcome" KWelcome #"Welcome"
    [MkTab #"welcome" #"welcome" #"Welcome" (Some #"Start") PWelcome] true true.

Definition DOC_TOPICS : list (str * str) :=
  [ (#"index", #"Overview"); (#"architecture", #"Architecture");
    (#"agent-design", #"Agent design"); (#"settings", #"Settings");
    (#"finetuning", #"Finetuning"); (#"shortcuts", #"Keyboard shortcuts") ].

Definition docsGroup (docs_has : str → bool) : TabGroup :=
  let topics := filter (λ t, docs_has t.1 = true) DOC_TOPICS in
  MkGroup #"docs" KDocs #"Documentation"
    (map (λ t, MkTab (#"doc:" ++ t.1) #"docs" t.2 (Some #"Doc") (PDoc t.1)) topics) true false.

Definition settingsGroup : TabGroup :=
  MkGroup #"settings" KSettings #"Settings"
    [ MkTab #"settings:connection" #"settings" #"Connection" (Some #"LLM · Backend")
        PSettingsConnection;
      MkTab #"settings:finetuning" #"settings" #"Finetuning" (Some #"Per model") PSettingsFinetuning;
      MkTab #"settings:logs" #"settings" #"Logs" (Some #"Local log viewer") PSettingsLogs;
      MkTab #"settings:permissions" #"settings" #"Berechtigungen" (Some #"Rolle & Zugriffsrechte")
        PSettingsPermissions ] false false.

Definition activityGroup : TabGroup :=
  MkGroup #"activity" KActivity #"Activity"
    [MkTab #"activity:list" #"activity" #"Activity" (Some #"Telemetry") PActivityList] false false.

Definition historyGroup : TabGroup :=
  MkGroup #"history" KHistory #"Chat-Verlauf"
    [MkTab #"history:chats" #"history" #"Chat-Verlauf" (Some #"Gespeicherte Chats") PChatHistory]
    false false.

(** * Initial state and [setState] *)

Definition computeInitial : TabsSnapshot := MkSnapshot [welcomeGroup] (Some #"welcome").

(** [snap.groups.flatMap(g => g.tabs.map(t => t.id))] *)
Definition group_ids (gs : list TabGroup) : list str := flat_map (λ g, tab_id <$> group_tabs g) gs.

Definition tab_ids (s : TabsSnapshot) : list str := group_ids (groups s).

(** [groups.some(g => g.tabs.some(t => t.id === id))] *)
Definition has_tab (id : str) (gs : list TabGroup) : bool :=
  existsb (λ g, existsb (λ t, bool_decide (tab_id t = id)) (group_tabs g)) gs.

(** [groups[0]?.tabs[0]?.id ?? null] *)
Definition first_tab (gs : list TabGroup) : option str :=
  match gs with
  | g :: _ => match group_tabs g with t :: _ => Some (tab_id t) | [] => None end
  | [] => None
  end.

Definition nonempty_group (g : TabGroup) : bool := negb (bool_decide (length (group_tabs g) = 0)).

Definition ensureWelcome (snap : TabsSnapshot) : TabsSnapshot :=
  let nonEmpty := filter (λ g, nonempty_group g = true) (groups snap) in
  match nonEmpty with
  | [] => computeInitial
  | _ =>
    if Nat.eqb (length nonEmpty) (length (groups snap)) then snap
    else
      let stillActive := match activeId snap with Some a => has_tab a nonEmpty | None => false end in
      MkSnapshot nonEmpty (if stillActive then activeId snap else first_tab nonEmpty)
  end.

(** The state [setState] stores. *)
Definition setState (next : TabsSnapshot) : TabsSnapshot := ensureWelcome next.

(** [setState({ ...state, activeId: id })] *)
Definition activate (s : TabsSnapshot) (id : str) : TabsSnapshot :=
  setState (MkSnapshot (groups s) (Some id)).

Definition has_kind (k : GroupKind) (gs : list TabGroup) : bool :=
  existsb (λ g, bool_decide (group_kind g = k)) gs.

Definition without_welcome (gs : list TabGroup) : list TabGroup :=
  filter (λ g, group_kind g ≠ KWelcome) gs.

(** [groups.map(g => g.kind === k ? { ...g, tabs: [...g.tabs, tab] } : g)] *)
Definition append_tab (k : GroupKind) (tab : TabRecord) (gs : list TabGroup) : list TabGroup :=
  map (λ g, if decide (group_kind g = k) then with_tabs g (group_tabs g ++ [tab]) else g) gs.

(** * Public mutators *)

Definition showWelcome (s : TabsSnapshot) : TabsSnapshot :=
  setState (MkSnapshot [welcomeGroup] (Some #"welcome")).

Inductive SettingsTarget := OnConnection | OnFinetuning | OnLogs | OnPermissions.

Definition settings_tab_id (landOn : option SettingsTarget) : str :=
  match landOn with
  | Some OnFinetuning => #"settings:finetuning"
  | Some OnLogs => #"settings:logs"
  | Some OnPermissions => #"settings:permissions"
  | _ => #"settings:connection"
  end.

Definition openSettings (landOn : option SettingsTarget) (s : TabsSnapshot) : TabsSnapshot :=
  let targetTabId := settings_tab_id landOn in
  if has_kind KSettings (groups s) then activate s targetTabId
  else setState (MkSnapshot (without_welcome (groups s) ++ [settingsGroup]) (Some targetTabId)).

Definition openActivityList (s : TabsSnapshot) : TabsSnapshot :=
  let targetTabId := #"activity:list" in
  if has_kind KActivity (groups s) then activate s targetTabId
  else setState (MkSnapshot (without_welcome (groups s) ++ [activityGroup]) (Some targetTabId)).

(** [turnId.match(/turn_(\d+)/)]: the digits of the first match. *)
Fixpoint turn_digits (s : str) : option str :=
  if starts_with #"turn_" s && (0 <? digits_count (drop 5 s)) then Some (digit_prefix (drop 5 s))
  else match s with
       | [] => None
       | _ :: s => turn_digits s
       end.

(** [ts.slice(-n)] *)
Definition slice_last (n : nat) (s : str) : str := drop (length s - n) s.

Definition shortTurnLabel (turnId : str) : str :=
  match turn_digits turnId with
  | None => take 12 turnId
  | Some ts => #"…" ++ slice_last 6 ts
  end.

Definition openActivityDetail (turnId : str) (s : TabsSnapshot) : TabsSnapshot :=
  let detailTabId := #"activity:detail:" ++ turnId in
  if has_tab detailTabId (groups s) then activate s detailTabId
  else
    let detailTab := MkTab detailTabId #"activity" #"Turn-Inspector" (Some (shortTurnLabel turnId))
                       (PActivityDetail turnId) in
    if has_kind KActivity (groups s) then
      setState (MkSnapshot (append_tab KActivity detailTab (groups s)) (Some detailTabId))
    else
      let newGroup := with_tabs activityGroup (group_tabs activityGroup ++ [detailTab]) in
      setState (MkSnapshot (without_welcome (groups s) ++ [newGroup]) (Some detailTabId)).

(** The body [openStreamManager], [openNewEvent] and [openTranslate] share in
    shape: a tab of the settings group, or of a settings group of its own. *)
Definition open_in_settings (tab : TabRecord) (s : TabsSnapshot) : TabsSnapshot :=
  if has_tab (tab_id tab) (groups s) then activate s (tab_id tab)
  else if has_kind KSettings (groups s) then
    setState (MkSnapshot (append_tab KSettings tab (groups s)) (Some (tab_id tab)))
  else
    let group := with_tabs settingsGroup [tab] in
    setState (MkSnapshot (without_welcome (groups s) ++ [group]) (Some (tab_id tab))).

Definition openStreamManager : TabsSnapshot → TabsSnapshot :=
  open_in_settings (MkTab #"settings:streams" #"settings" #"Streams" (Some #"Event streams")
                      PStreamManager).

Definition openNewEvent : TabsSnapshot → TabsSnapshot :=
  open_in_settings (MkTab #"settings:new-event" #"settings" #"New Event" (Some #"Insert event")
                      PNewEvent).

Definition openTranslate : TabsSnapshot → TabsSnapshot :=
  open_in_settings (MkTab #"settings:translate" #"settings" #"Translate" (Some #"Markdown")
                      PTranslate).

Definition openChatHistory (s : TabsSnapshot) : TabsSnapshot :=
  let targetTabId := #"history:chats" in
  if has_kind KHistory (groups s) then activate s targetTabId
  else setState (MkSnapshot (without_welcome (groups s) ++ [historyGroup]) (Some targetTabId)).

Definition openDocs (docs_has : str → bool) (s : TabsSnapshot) : TabsSnapshot :=
  let docs := docsGroup docs_has in
  let kept := filter (λ g, group_kind g ≠ KWelcome ∧ group_kind g ≠ KDocs ∧
                           displaceOnDocsOpen g = false) (groups s) in
  setState (MkSnapshot (kept ++ [docs]) (first_tab [docs])).

Definition resultsGroup (tab : TabRecord) : TabGroup :=
  MkGroup #"results" KResults #"Results" [tab] false true.

(** The placement [addResult] and [openStreamDetail] share. *)
Definition place_result (tab : TabRecord) (gs : list TabGroup) : list TabGroup :=
  let kept := filter (λ g, displaceOnNewActivity g = false) gs in
  if has_kind KResults kept then append_tab KResults tab kept
  else kept ++ [resultsGroup tab].

Definition addResult (tab : TabRecord) (s : TabsSnapshot) : TabsSnapshot :=
  let placed := MkTab (tab_id tab) #"results" (tab_title tab) (tab_subtitle tab) (tab_payload tab) in
  setState (MkSnapshot (place_result placed (groups s)) (Some (tab_id placed))).

Definition openStreamDetail (mapping sourceTable streamId : str) (s : TabsSnapshot) : TabsSnapshot :=
  let tabId := #"stream:" ++ mapping ++ #":" ++ streamId in
  if has_tab tabId (groups s) then activate s tabId
  else
    let tab := MkTab tabId #"results" streamId (Some mapping)
                 (PStreamDetail mapping sourceTable streamId) in
    setState (MkSnapshot (place_result tab (groups s)) (Some tabId)).

(** [titleFor] *)
Definition titleFor (contextName : str) : str :=
  match contextName with
  | [] => #"Result"
  | c :: rest => to_upper1 c ++ rest
  end.

(** [subtitleFor] *)
Definition subtitleFor (data : jsval) : str :=
  if negb (is_object data) then #"Ergebnis" else
  match object_entries data with
  | [(_, VArr v)] =>
    show_nat (length v) ++ #" " ++
    (if Nat.eqb (length v) 1 then #"Eintrag" else #"Einträge")
  | _ => #"Ergebnis"
  end.

(** An argument no mutator uses is left to [addResult] to overwrite. *)
Definition unplaced (id title : str) (subtitle : option str) (payload : TabPayload) : TabRecord :=
  MkTab id [] title subtitle payload.

(** The id [addGraphqlResult] mints; the other minting mutators follow suit. *)
Definition graphql_tab_id (contextName : str) (now : N) : str :=
  #"result:" ++ contextName ++ #":" ++ show_N now.

Definition addGraphqlResult (contextName query : str) (data : jsval) (viewName : option str)
    (now : N) (s : TabsSnapshot) : TabsSnapshot :=
  addResult (unplaced (graphql_tab_id contextName now) (titleFor contextName) (Some (subtitleFor data))
               (PGraphqlResult contextName query data viewName)) s.

(** [s || other] on strings *)
Definition or_default (s other : str) : str := if decide (s = []) then other else s.

Definition event_tab_id (mapping streamId : str) (now : N) : str :=
  #"event:" ++ mapping ++ #":" ++ or_default streamId #"all" ++ #":" ++ show_N now.

Definition addEventResult (mapping streamId question answer : str) (hits : list EventHit)
    (model : str) (now : N) (s : TabsSnapshot) : TabsSnapshot :=
  addResult (unplaced (event_tab_id mapping streamId now) (titleFor mapping) (Some (or_default streamId #"alle Streams"))
               (PEventResult mapping streamId question answer hits model)) s.

(** [s.split(/\s+/)]; [inside] a run of white space. *)
Fixpoint split_spaces (inside : bool) (s : str) : list str :=
  match s with
  | [] => [[]]
  | c :: s =>
    if is_space c then (if inside then split_spaces true s else [] :: split_spaces true s)
    else match split_spaces false s with
         | p :: ps => (c :: p) :: ps
         | [] => [[c]]
         end
  end.

Definition ask_title (question : str) : str :=
  let slug := join #" " (take 6 (split_spaces false (trim question))) in
  if 40 <? length slug then take 40 slug ++ #"…" else or_default slug #"Ask".

Definition ask_tab_id (now : N) : str := #"ask:" ++ show_N now.

Definition addAskResult (question answer model : str) (now : N) (s : TabsSnapshot) : TabsSnapshot :=
  addResult (unplaced (ask_tab_id now) (ask_title question) (Some model) (PAskResult question answer model)) s.

(** [id === undefined || id === "" || id === 0], for a string or number. *)
Definition no_detail_id (id : jsval) : bool :=
  match id with
  | VUndef => true
  | VStr s => bool_decide (s = [])
  | VNum n => num_is_zero n
  | _ => false
  end.

Definition detail_tab_id (viewName : str) (id : jsval) (now : N) : str :=
  let idPart := if no_detail_id id then #"new-" ++ show_N now else to_string id in
  #"detail:" ++ viewName ++ #":" ++ idPart.

Definition addDslDetail (contextName viewName : str) (data : jsobj) (id : jsval) (now : N)
    (s : TabsSnapshot) : TabsSnapshot :=
  let tabId := detail_tab_id viewName id now in
  if has_tab tabId (groups s) then activate s tabId
  else
    let isNew := no_detail_id id in
    addResult (unplaced tabId
      (if isNew then titleFor contextName ++ #" (neu)"
       else titleFor contextName ++ #" #" ++ to_string id)
      (Some (if isNew then #"Neu" else #"Detail"))
      (PDslDetail contextName viewName data id)) s.

Definition openPipelineList (s : TabsSnapshot) : TabsSnapshot :=
  let targetTabId := #"pipeline:list" in
  if has_tab targetTabId (groups s) then activate s targetTabId
  else addResult (MkTab targetTabId #"results" #"Pipelines" (Some #"Ausführen") PPipelineList) s.

Definition run_tab_id (pipelineName : str) (now : N) : str :=
  #"pipeline:run:" ++ pipelineName ++ #":" ++ show_N now.

Definition openPipelineRun (pipelineName : str) (now : N) (s : TabsSnapshot) : TabsSnapshot :=
  addResult (unplaced (run_tab_id pipelineName now) pipelineName (Some #"Pipeline")
               (PPipelineRun (MkRun pipelineName RunIdle [] None None))) s.

(** The [update] argument of [updatePipelineRunTab]. *)
Record RunUpdate := MkRunUpdate {
  up_status : RunStatus; up_output : option str; up_error : option str; up_runId : option str }.

Definition update_run (u : RunUpdate) (p : PipelineRun) : PipelineRun :=
  MkRun (run_pipelineName p) (up_status u) (default (run_output p) (up_output u)) (up_error u)
    (match up_runId u with Some r => Some r | None => run_runId p end).

Definition update_tab (tabId : str) (u : RunUpdate) (t : TabRecord) : TabRecord :=
  if decide (tab_id t ≠ tabId) then t
  else match tab_payload t with
       | PPipelineRun p =>
         MkTab (tab_id t) (tab_groupId t) (tab_title t) (tab_subtitle t) (PPipelineRun (update_run u p))
       | _ => t
       end.

Definition updatePipelineRunTab (tabId : str) (u : RunUpdate) (s : TabsSnapshot) : TabsSnapshot :=
  setState (MkSnapshot (map (λ g, with_tabs g (map (update_tab tabId u) (group_tabs g))) (groups s))
              (activeId s)).

Definition devGroup : TabGroup :=
  MkGroup #"dev" KDev #"Dev" [MkTab #"dev:agent" #"dev" #"Dev" (Some #"Agent") PDev] false false.

Definition openDev (s : TabsSnapshot) : TabsSnapshot :=
  let targetTabId := #"dev:agent" in
  if has_tab targetTabId (groups s) then activate s targetTabId
  else setState (MkSnapshot (without_welcome (groups s) ++ [devGroup]) (Some targetTabId)).

Definition setActive (id : str) (s : TabsSnapshot) : TabsSnapshot :=
  if has_tab id (groups s) then activate s id else s.

(** [flat.indexOf(id)] *)
Fixpoint index_of_id (id : str) (l : list str) : option nat :=
  match l with
  | [] => None
  | x :: l => if decide (x = id) then Some 0 else S <$> index_of_id id l
  end.

Definition nearestSurvivor (snap : TabsSnapshot) (removedId : str) : option str :=
  let flat := tab_ids snap in
  let other tid := negb (bool_decide (tid = removedId)) in
  match index_of_id removedId flat with
  | None => None
  | Some idx =>
    match List.find other (drop (S idx) flat) with
    | Some after => if decide (after = []) then List.find other (reverse (take idx flat)) else Some after
    | None => List.find other (reverse (take idx flat))
    end
  end.

Definition closeTab (id : str) (s : TabsSnapshot) : TabsSnapshot :=
  let gs := filter (λ g, nonempty_group g = true)
    (map (λ g, with_tabs g (filter (λ t, tab_id t ≠ id) (group_tabs g))) (groups s)) in
  let nextActive :=
    if decide (activeId s = Some id) then
      match nearestSurvivor s id with Some a => Some a | None => first_tab gs end
    else activeId s in
  setState (MkSnapshot gs nextActive).
