(* ===== verification/TabsLaws.v ===== *)
(** What the tab workspace of Tabs.v guarantees: its well-formedness invariant
    over every sequence of user actions, when the active tab is one that is
    open, where a closed tab hands the focus, how a new result displaces
    groups, and that the open-or-focus actions are idempotent. *)

From S2P Require Export Tabs.

#[local] Set Warnings "-register-all".

(** * Actions

    One constructor per exported mutator, with the clock where the mutator
    reads it. *)
Inductive action :=
| AShowWelcome
| AOpenSettings (landOn : option SettingsTarget)
| AOpenActivityList
| AOpenActivityDetail (turnId : str)
| AOpenStreamManager
| AOpenNewEvent
| AOpenTranslate
| AOpenChatHistory
| AOpenDocs
| AOpenStreamDetail (mapping sourceTable streamId : str)
| AGraphqlResult (contextName query : str) (data : jsval) (viewName : option str) (now : N)
| AEventResult (mapping streamId question answer : str) (hits : list EventHit) (model : str) (now : N)
| AAskResult (question answer model : str) (now : N)
| ADslDetail (contextName viewName : str) (data : jsobj) (id : jsval) (now : N)
| AOpenPipelineList
| AOpenPipelineRun (pipelineName : str) (now : N)
| AUpdateRun (tabId : str) (u : RunUpdate)
| AOpenDev
| ASetActive (id : str)
| ACloseTab (id : str).

Definition run (docs_has : str → bool) (a : action) : TabsSnapshot → TabsSnapshot :=
  match a with
  | AShowWelcome => showWelcome
  | AOpenSettings l => openSettings l
  | AOpenActivityList => openActivityList
  | AOpenActivityDetail t => openActivityDetail t
  | AOpenStreamManager => openStreamManager
  | AOpenNewEvent => openNewEvent
  | AOpenTranslate => openTranslate
  | AOpenChatHistory => openChatHistory
  | AOpenDocs => openDocs docs_has
  | AOpenStreamDetail m t i => openStreamDetail m t i
  | AGraphqlResult c q d v now => addGraphqlResult c q d v now
  | AEventResult m i q a h mo now => addEventResult m i q a h mo now
  | AAskResult q a m now => addAskResult q a m now
  | ADslDetail c v d i now => addDslDetail c v d i now
  | AOpenPipelineList => openPipelineList
  | AOpenPipelineRun p now => openPipelineRun p now
  | AUpdateRun t u => updatePipelineRunTab t u
  | AOpenDev => openDev
  | ASetActive id => setActive id
  | ACloseTab id => closeTab id
  end.

(** The id an action mints from the clock without looking for it first. *)
Definition minted (a : action) : option str :=
  match a with
  | AGraphqlResult c _ _ _ now => Some (graphql_tab_id c now)
  | AEventResult m i _ _ _ _ now => Some (event_tab_id m i now)
  | AAskResult _ _ _ now => Some (ask_tab_id now)
  | AOpenPipelineRun p now => Some (run_tab_id p now)
  | _ => None
  end.

(** The clock has moved on since the id was last minted. *)
Definition fresh (a : action) (s : TabsSnapshot) : bool :=
  match minted a with Some id => negb (has_tab id (groups s)) | None => true end.

Inductive reachable (docs_has : str → bool) : TabsSnapshot → Prop :=
| reach_initial : reachable docs_has computeInitial
| reach_step a s : reachable docs_has s → fresh a s = true → reachable docs_has (run docs_has a s).

(** * The invariant *)

(** The id, and the two displacement flags, of the group of each kind. *)
Definition kind_id (k : GroupKind) : str :=
  match k with
  | KWelcome => #"welcome" | KDocs => #"docs" | KResults => #"results" | KSettings => #"settings"
  | KHistory => #"history" | KActivity => #"activity" | KDev => #"dev"
  end.

Definition kind_on_activity (k : GroupKind) : bool :=
  match k with KWelcome | KDocs => true | _ => false end.

Definition kind_on_docs (k : GroupKind) : bool :=
  match k with KWelcome | KResults => true | _ => false end.

(** The kind of group a tab id belongs to. *)
Definition owner (id : str) : GroupKind :=
  if decide (id = #"welcome") then KWelcome
  else if decide (id = #"dev:agent") then KDev
  else if decide (id = #"history:chats") then KHistory
  else if starts_with #"doc:" id then KDocs
  else if starts_with #"settings:" id then KSettings
  else if starts_with #"activity:" id then KActivity
  else KResults.

Definition tab_fits (k : GroupKind) (t : TabRecord) : Prop :=
  tab_groupId t = kind_id k ∧ owner (tab_id t) = k ∧ tab_id t ≠ [].

Record group_ok (g : TabGroup) : Prop := GroupOk {
  gok_id : group_id g = kind_id (group_kind g);
  gok_activity : displaceOnNewActivity g = kind_on_activity (group_kind g);
  gok_docs : displaceOnDocsOpen g = kind_on_docs (group_kind g);
  gok_some : group_tabs g ≠ [];
  gok_tabs : Forall (tab_fits (group_kind g)) (group_tabs g);
  gok_ids : NoDup (tab_id <$> group_tabs g) }.

Definition groups_ok (gs : list TabGroup) : Prop :=
  Forall group_ok gs ∧ NoDup (group_kind <$> gs).

(** Well-formed snapshots. *)
Definition TabsInv (s : TabsSnapshot) : Prop :=
  groups_ok (groups s) ∧ groups s ≠ [] ∧ is_Some (activeId s).

(** The active tab is open. *)
Definition active_ok (s : TabsSnapshot) : bool :=
  match activeId s with Some a => has_tab a (groups s) | None => false end.

(** The tab with a given id is the one in front. *)
Definition opened (s : TabsSnapshot) (id : str) : Prop :=
  groups_ok (groups s) ∧ activeId s = Some id ∧ id ∈ tab_ids s.

(** ** Membership *)

Lemma elem_of_group_ids id gs :
  id ∈ group_ids gs ↔ ∃ g t, g ∈ gs ∧ t ∈ group_tabs g ∧ tab_id t = id.
Proof.
  unfold group_ids. rewrite list_elem_of_In, in_flat_map. setoid_rewrite <- list_elem_of_In.
  setoid_rewrite list_elem_of_fmap. naive_solver.
Qed.

Lemma has_tab_spec id gs : has_tab id gs = true ↔ id ∈ group_ids gs.
Proof.
  unfold has_tab. rewrite existsb_exists, elem_of_group_ids. setoid_rewrite existsb_exists.
  setoid_rewrite bool_decide_eq_true. setoid_rewrite <- list_elem_of_In. naive_solver.
Qed.

Lemma has_tab_false id gs : has_tab id gs = false ↔ id ∉ group_ids gs.
Proof. rewrite <- has_tab_spec. by destruct (has_tab id gs). Qed.

Lemma has_kind_spec k gs : has_kind k gs = true ↔ k ∈ group_kind <$> gs.
Proof.
  unfold has_kind. rewrite existsb_exists, list_elem_of_fmap. setoid_rewrite bool_decide_eq_true.
  setoid_rewrite <- list_elem_of_In. naive_solver.
Qed.

Lemma has_kind_false k gs : has_kind k gs = false ↔ k ∉ group_kind <$> gs.
Proof. rewrite <- has_kind_spec. by destruct (has_kind k gs). Qed.

Lemma group_ids_app gs1 gs2 : group_ids (gs1 ++ gs2) = group_ids gs1 ++ group_ids gs2.
Proof. apply flat_map_app. Qed.

Lemma group_ids_cons g gs : group_ids (g :: gs) = (tab_id <$> group_tabs g) ++ group_ids gs.
Proof. reflexivity. Qed.

Lemma nonempty_group_spec g : nonempty_group g = true ↔ group_tabs g ≠ [].
Proof. unfold nonempty_group. rewrite negb_true_iff, bool_decide_eq_false, length_zero_iff_nil. done. Qed.

(** ** Invariants of group lists *)

Lemma group_ok_owner g t : group_ok g → t ∈ group_tabs g → owner (tab_id t) = group_kind g.
Proof. intros Hg Ht. by destruct (Forall_elem (gok_tabs g Hg) t Ht) as (_ & ? & _). Qed.

Lemma groups_ok_owner gs id : groups_ok gs → id ∈ group_ids gs → owner id ∈ group_kind <$> gs.
Proof.
  intros [Hgs _] (g & t & Hg & Ht & <-)%elem_of_group_ids.
  rewrite (group_ok_owner g); [by apply list_elem_of_fmap_2| |done].
  by eapply Forall_forall in Hgs.
Qed.

Lemma groups_ok_ids gs : groups_ok gs → NoDup (group_ids gs).
Proof.
  induction gs as [|g gs IH]; [by constructor|]. intros [[Hg Hgs]%Forall_cons Hk].
  rewrite fmap_cons, NoDup_cons in Hk. destruct Hk as [Hk Hks].
  rewrite group_ids_cons, NoDup_app. split_and!; [by apply gok_ids| |by apply IH].
  intros id (t & -> & Ht)%list_elem_of_fmap Hin. apply Hk.
  rewrite <- (group_ok_owner g t) by done. by apply groups_ok_owner.
Qed.

Lemma groups_ok_filter (P : TabGroup → Prop) `{!∀ g, Decision (P g)} gs :
  groups_ok gs → groups_ok (filter P gs).
Proof.
  intros [Hgs Hk]. split; [|by apply NoDup_fmap_filter].
  apply Forall_forall. intros g [_ Hg]%list_elem_of_filter. by eapply Forall_forall in Hgs.
Qed.

Lemma groups_ok_snoc gs g :
  groups_ok gs → group_ok g → group_kind g ∉ group_kind <$> gs → groups_ok (gs ++ [g]).
Proof.
  intros [Hgs Hk] Hg Hn. split; [by rewrite Forall_app, Forall_singleton|].
  rewrite fmap_app, NoDup_app. split_and!; [done| |apply NoDup_singleton].
  intros k Hin ->%list_elem_of_singleton. done.
Qed.

(** Replacing the tabs of the groups, kind by kind. *)
Lemma groups_ok_map (f : TabGroup → TabGroup) gs :
  groups_ok gs → (∀ g, g ∈ gs → group_kind (f g) = group_kind g ∧ group_ok (f g)) →
  groups_ok (map f gs).
Proof.
  intros [Hgs Hk] Hf. split.
  - apply Forall_forall. intros g (g' & -> & Hg)%list_elem_of_fmap. by apply Hf.
  - replace (group_kind <$> map f gs) with (group_kind <$> gs); [done|].
    change (map f gs) with (f <$> gs). rewrite <- (list_fmap_compose f group_kind gs). apply list_fmap_ext.
    intros i g Hg. symmetry. apply Hf. by apply list_elem_of_lookup_2 in Hg.
Qed.

Lemma with_tabs_ok g ts :
  group_ok g → ts ≠ [] → Forall (tab_fits (group_kind g)) ts → NoDup (tab_id <$> ts) →
  group_ok (with_tabs g ts).
Proof. intros []. by split. Qed.

Lemma append_tab_ok k tab gs :
  groups_ok gs → tab_fits k tab → tab_id tab ∉ group_ids gs → groups_ok (append_tab k tab gs).
Proof.
  intros Hok Hfit Hn. apply groups_ok_map; [done|]. intros g Hg.
  assert (group_ok g) as Hg' by (destruct Hok as [Hok _]; by eapply Forall_forall in Hok).
  case_decide as Hk; [|done]. split; [done|]. apply with_tabs_ok; [done| | |].
  - by destruct (group_tabs g).
  - rewrite Forall_app, Forall_singleton. split; [by apply gok_tabs|by rewrite Hk].
  - rewrite fmap_app, NoDup_app. split_and!; [by apply gok_ids| |apply NoDup_singleton].
    intros id (t & -> & Ht)%list_elem_of_fmap Hin%list_elem_of_singleton.
    apply Hn, elem_of_group_ids. eauto.
Qed.

Lemma append_tab_in k tab gs : k ∈ group_kind <$> gs → tab_id tab ∈ group_ids (append_tab k tab gs).
Proof.
  intros (g & -> & Hg)%list_elem_of_fmap. apply elem_of_group_ids.
  exists (with_tabs g (group_tabs g ++ [tab])), tab. split_and!; [| |done].
  - apply list_elem_of_fmap. exists g. split; [|done]. by rewrite decide_True.
  - apply elem_of_app. right. by apply list_elem_of_singleton.
Qed.

(** ** [setState] *)

Lemma ensureWelcome_nonempty s :
  Forall (λ g, group_tabs g ≠ []) (groups s) → groups s ≠ [] → ensureWelcome s = s.
Proof.
  intros Hgs Hne. unfold ensureWelcome. rewrite filter_all.
  - rewrite Nat.eqb_refl. by destruct (groups s).
  - eapply Forall_impl; [exact Hgs|]. intros g Hg. by apply nonempty_group_spec.
Qed.

Lemma groups_ok_nonempty gs : groups_ok gs → Forall (λ g, group_tabs g ≠ []) gs.
Proof. intros [Hgs _]. eapply Forall_impl; [exact Hgs|]. intros g. apply gok_some. Qed.

Lemma ensureWelcome_ok s : groups_ok (groups s) → groups s ≠ [] → ensureWelcome s = s.
Proof. intros Hok. by apply ensureWelcome_nonempty, groups_ok_nonempty. Qed.

Lemma setState_opened gs id :
  groups_ok gs → id ∈ group_ids gs → opened (setState (MkSnapshot gs (Some id))) id.
Proof.
  intros Hok Hin. unfold setState. rewrite ensureWelcome_ok; [by split| done |].
  cbn [groups]. intros ->. by apply not_elem_of_nil in Hin.
Qed.

Lemma opened_inv s id : opened s id → TabsInv s.
Proof.
  intros (Hok & Ha & Hin). split_and!; [done| |by rewrite Ha].
  unfold tab_ids in Hin. intros E. rewrite E in Hin. by apply not_elem_of_nil in Hin.
Qed.

Lemma opened_active s id : opened s id → active_ok s = true.
Proof. intros (_ & Ha & Hin). unfold active_ok. rewrite Ha. by apply has_tab_spec. Qed.

Lemma activate_eq s id :
  groups_ok (groups s) → groups s ≠ [] → activate s id = MkSnapshot (groups s) (Some id).
Proof. intros. unfold activate, setState. by rewrite ensureWelcome_ok. Qed.

Lemma activate_opened s id :
  groups_ok (groups s) → has_tab id (groups s) = true → opened (activate s id) id.
Proof. intros Hok Hin%has_tab_spec. by apply setState_opened. Qed.

(** Focusing the tab in front changes nothing. *)
Lemma activate_same s id : opened s id → activate s id = s.
Proof.
  intros H. destruct (opened_inv _ _ H) as (Hok & Hne & _). destruct H as (_ & Ha & _).
  rewrite activate_eq by done. destruct s as [gs a]. simpl in Ha. by rewrite Ha.
Qed.

(** ** The shapes of the mutators *)

Lemma own_group_opened s g id :
  groups_ok (groups s) → group_ok g → has_kind (group_kind g) (groups s) = false →
  id ∈ tab_id <$> group_tabs g →
  opened (setState (MkSnapshot (without_welcome (groups s) ++ [g]) (Some id))) id.
Proof.
  intros Hok Hg Hk%has_kind_false Hid. apply setState_opened.
  - apply groups_ok_snoc; [by apply groups_ok_filter|done|].
    intros (g' & E & [_ Hg']%list_elem_of_filter)%list_elem_of_fmap.
    apply Hk. rewrite E. by apply list_elem_of_fmap_2.
  - rewrite group_ids_app, elem_of_app. right. rewrite group_ids_cons, elem_of_app. by left.
Qed.

Lemma append_opened s k tab :
  groups_ok (groups s) → tab_fits k tab → has_tab (tab_id tab) (groups s) = false →
  has_kind k (groups s) = true →
  opened (setState (MkSnapshot (append_tab k tab (groups s)) (Some (tab_id tab)))) (tab_id tab).
Proof.
  intros Hok Hfit Hn%has_tab_false Hk%has_kind_spec.
  apply setState_opened; [by apply append_tab_ok|by apply append_tab_in].
Qed.

Lemma group_ids_filter (P : TabGroup → Prop) `{!∀ g, Decision (P g)} gs id :
  id ∈ group_ids (filter P gs) → id ∈ group_ids gs.
Proof.
  intros (g & t & [_ Hg]%list_elem_of_filter & Ht & <-)%elem_of_group_ids.
  apply elem_of_group_ids. eauto.
Qed.

Lemma place_result_opened s tab :
  groups_ok (groups s) → tab_fits KResults tab → has_tab (tab_id tab) (groups s) = false →
  opened (setState (MkSnapshot (place_result tab (groups s)) (Some (tab_id tab)))) (tab_id tab).
Proof.
  intros Hok Hfit Hn%has_tab_false. unfold place_result.
  assert (groups_ok (filter (λ g, displaceOnNewActivity g = false) (groups s))) as Hok'
    by by apply groups_ok_filter.
  assert (tab_id tab ∉ group_ids (filter (λ g, displaceOnNewActivity g = false) (groups s))) as Hn'
    by (intros H%group_ids_filter; done).
  destruct (has_kind KResults _) eqn:Hk.
  - apply has_kind_spec in Hk. apply setState_opened; [by apply append_tab_ok|by apply append_tab_in].
  - apply has_kind_false in Hk. apply setState_opened.
    + apply groups_ok_snoc; [done| |done]. split; try done.
      * by apply Forall_singleton.
      * apply NoDup_singleton.
    + rewrite group_ids_app, elem_of_app. right. apply list_elem_of_singleton. done.
Qed.

Lemma addResult_opened s tab :
  groups_ok (groups s) → owner (tab_id tab) = KResults → tab_id tab ≠ [] →
  has_tab (tab_id tab) (groups s) = false → opened (addResult tab s) (tab_id tab).
Proof. intros Hok Ho Hid Hn. by apply (place_result_opened s (MkTab (tab_id tab) _ _ _ _)). Qed.

(** ** The group factories *)

Ltac solve_group :=
  split; [reflexivity|reflexivity|reflexivity|discriminate
         |repeat (apply Forall_cons_2; [by split_and!|]); apply Forall_nil_2
         |decide_closed].

Lemma welcomeGroup_ok : group_ok welcomeGroup.
Proof. solve_group. Qed.

Lemma settingsGroup_ok : group_ok settingsGroup.
Proof. solve_group. Qed.

Lemma activityGroup_ok : group_ok activityGroup.
Proof. solve_group. Qed.

Lemma historyGroup_ok : group_ok historyGroup.
Proof. solve_group. Qed.

Lemma devGroup_ok : group_ok devGroup.
Proof. solve_group. Qed.

Lemma docsGroup_ok docs_has : group_tabs (docsGroup docs_has) ≠ [] → group_ok (docsGroup docs_has).
Proof.
  intros Hne. split; [reflexivity|reflexivity|reflexivity|done| |].
  - apply Forall_forall. intros t (x & -> & _)%list_elem_of_fmap. by split_and!.
  - unfold docsGroup. cbn [group_tabs].
    change (map ?f ?l) with (f <$> l). rewrite <- list_fmap_compose. unfold compose.
    apply (NoDup_fmap_filter (λ t : str * str, #"doc:" ++ t.1)).
    decide_closed.
Qed.

Lemma single_group_ok g t :
  group_ok g → tab_fits (group_kind g) t → group_ok (with_tabs g [t]).
Proof.
  intros Hg Ht. apply with_tabs_ok; [done|done|by apply Forall_singleton|apply NoDup_singleton].
Qed.

(** The facts that close the side conditions below. *)
Create HintDb tabs.
#[export] Hint Resolve welcomeGroup_ok settingsGroup_ok activityGroup_ok historyGroup_ok devGroup_ok
  groups_ok_filter groups_ok_nonempty groups_ok_ids single_group_ok
  gok_some gok_tabs gok_ids : tabs.

(** * Opening actions

    Each opening action puts a definite tab in front; the statements share the
    hypothesis that the groups are well formed. *)
Section opening.
Context (s : TabsSnapshot) (Hok : groups_ok (groups s)).

Lemma initial_opened : opened computeInitial #"welcome".
Proof.
  split_and!; [|reflexivity|by apply list_elem_of_singleton].
  split; [|apply NoDup_singleton]. apply Forall_singleton, welcomeGroup_ok.
Qed.

Lemma showWelcome_opened : opened (showWelcome s) #"welcome".
Proof. exact initial_opened. Qed.

Lemma openSettings_opened l :
  negb (has_kind KSettings (groups s)) || has_tab (settings_tab_id l) (groups s) = true →
  opened (openSettings l s) (settings_tab_id l).
Proof.
  unfold openSettings. destruct (has_kind _ _) eqn:Hk; cbn [negb orb].
  - by apply activate_opened.
  - intros _. apply own_group_opened; auto with tabs.
    destruct l as [[]|]; decide_closed.
Qed.

Lemma openActivityList_opened :
  negb (has_kind KActivity (groups s)) || has_tab #"activity:list" (groups s) = true →
  opened (openActivityList s) #"activity:list".
Proof.
  unfold openActivityList. destruct (has_kind _ _) eqn:Hk; cbn [negb orb].
  - by apply activate_opened.
  - intros _. apply own_group_opened; auto with tabs.
    by apply list_elem_of_singleton.
Qed.

Lemma activity_detail_neq (t : str) :
  #"activity:detail:" ++ t ∉ tab_id <$> group_tabs activityGroup.
Proof. intros H%list_elem_of_singleton. discriminate H. Qed.

Lemma openActivityDetail_opened t : opened (openActivityDetail t s) (#"activity:detail:" ++ t).
Proof.
  unfold openActivityDetail. destruct (has_tab _ _) eqn:Hn; [by apply activate_opened|].
  destruct (has_kind _ _) eqn:Hk.
  - by apply (append_opened s KActivity (MkTab (#"activity:detail:" ++ t) _ _ _ _)).
  - apply own_group_opened; [done| |done|].
    + apply with_tabs_ok; [apply activityGroup_ok|discriminate| |].
      * rewrite Forall_app, Forall_singleton. split; [apply (gok_tabs _ activityGroup_ok)|done].
      * rewrite fmap_app, NoDup_app. split_and!; [apply (gok_ids _ activityGroup_ok)| |apply NoDup_singleton].
        intros id Hid ->%list_elem_of_singleton. by apply activity_detail_neq in Hid.
    + cbn [with_tabs group_tabs]. rewrite fmap_app, elem_of_app. right.
      by apply list_elem_of_singleton.
Qed.

Lemma open_in_settings_opened tab :
  tab_fits KSettings tab → opened (open_in_settings tab s) (tab_id tab).
Proof.
  intros Hfit. unfold open_in_settings.
  destruct (has_tab _ _) eqn:Hn; [by apply activate_opened|].
  destruct (has_kind _ _) eqn:Hk; [by apply append_opened|].
  apply own_group_opened; auto with tabs. by apply list_elem_of_singleton.
Qed.

(** A group whose kind owns a single id holds the tab with that id. *)
Lemma sole_tab k id :
  (∀ i, owner i = k → i = id) → has_kind k (groups s) = true → has_tab id (groups s) = true.
Proof.
  intros Hsole (g & Hk & Hg)%has_kind_spec%list_elem_of_fmap. destruct Hok as [Hgs _].
  apply (Forall_elem Hgs) in Hg as Hgok.
  destruct (group_tabs g) as [|t ts] eqn:E; [by destruct (gok_some g Hgok)|].
  assert (t ∈ group_tabs g) as Ht by (rewrite E; by left).
  apply has_tab_spec, elem_of_group_ids. exists g, t. split_and!; [done|done|].
  by apply Hsole; rewrite (group_ok_owner g t).
Qed.

Lemma owner_history i : owner i = KHistory → i = #"history:chats".
Proof. unfold owner. by repeat case_decide || case_match. Qed.

Lemma owner_dev i : owner i = KDev → i = #"dev:agent".
Proof. unfold owner. by repeat case_decide || case_match. Qed.

Lemma openChatHistory_opened : opened (openChatHistory s) #"history:chats".
Proof.
  unfold openChatHistory. destruct (has_kind _ _) eqn:Hk.
  - apply activate_opened; [done|]. by apply (sole_tab KHistory); [apply owner_history|].
  - apply own_group_opened; auto with tabs. by apply list_elem_of_singleton.
Qed.

(** A tab id with an owner of its own shows that the group is up. *)
Lemma owner_has_kind id : has_tab id (groups s) = true → has_kind (owner id) (groups s) = true.
Proof. intros H%has_tab_spec. by apply has_kind_spec, groups_ok_owner. Qed.

Lemma openDev_opened : opened (openDev s) #"dev:agent".
Proof.
  unfold openDev. destruct (has_tab _ _) eqn:Hn; [by apply activate_opened|].
  apply own_group_opened; [done|apply devGroup_ok| |by apply list_elem_of_singleton].
  apply not_true_iff_false. intros Hk%(sole_tab KDev #"dev:agent" owner_dev). by rewrite Hk in Hn.
Qed.

(** Results. *)
Lemma openStreamDetail_opened m t i :
  opened (openStreamDetail m t i s) (#"stream:" ++ m ++ #":" ++ i).
Proof.
  unfold openStreamDetail. destruct (has_tab _ _) eqn:Hn; [by apply activate_opened|].
  by apply (place_result_opened s (MkTab (#"stream:" ++ m ++ #":" ++ i) _ _ _ _)).
Qed.

Lemma openPipelineList_opened : opened (openPipelineList s) #"pipeline:list".
Proof.
  unfold openPipelineList. destruct (has_tab _ _) eqn:Hn; [by apply activate_opened|].
  by apply addResult_opened.
Qed.

Lemma addDslDetail_opened c v d i now : opened (addDslDetail c v d i now s) (detail_tab_id v i now).
Proof.
  unfold addDslDetail. destruct (has_tab _ _) eqn:Hn; [by apply activate_opened|].
  by apply addResult_opened.
Qed.

Lemma minted_opened docs_has a id :
  minted a = Some id → fresh a s = true → opened (run docs_has a s) id.
Proof.
  unfold fresh. destruct a; try discriminate; intros <-%Some_inj Hf%negb_true_iff;
    by apply addResult_opened.
Qed.

(** The documentation group replaces what it displaces; without a bundled
    topic it is dropped again. *)
Lemma openDocs_opened docs_has : ∃ id, opened (openDocs docs_has s) id.
Proof.
  unfold openDocs. set (kept := filter _ _).
  assert (groups_ok kept) as Hkept by by apply groups_ok_filter.
  destruct (group_tabs (docsGroup docs_has)) as [|t ts] eqn:E.
  - unfold setState, ensureWelcome. cbn [groups activeId]. rewrite filter_app.
    rewrite (filter_all _ kept), filter_cons_False, filter_nil, app_nil_r;
      [|rewrite nonempty_group_spec, E; by intros []|].
    2:{ eapply Forall_impl; [apply Hkept|]. intros g Hg. by apply nonempty_group_spec, gok_some. }
    destruct kept as [|g kept']; [exists #"welcome"; apply initial_opened|].
    rewrite (proj2 (Nat.eqb_neq _ _)) by (rewrite length_app; simpl; lia).
    cbn [first_tab]. rewrite E. cbn [first_tab].
    destruct (group_tabs g) as [|t ts] eqn:Eg.
    { destruct Hkept as [[Hg _]%Forall_cons _]. by destruct (gok_some g Hg). }
    exists (tab_id t). split_and!; [done|done|].
    unfold tab_ids. cbn [groups]. rewrite group_ids_cons, Eg. by left.
  - exists (tab_id t). cbn [first_tab]. rewrite E. apply setState_opened.
    + apply groups_ok_snoc; [done|by apply docsGroup_ok; rewrite E|].
      intros (g & Hk & [(_ & Hnd & _) _]%list_elem_of_filter)%list_elem_of_fmap. by destruct Hnd.
    + rewrite group_ids_app, elem_of_app. right. rewrite group_ids_cons, E. by left.
Qed.
End opening.

(** * Closing a tab *)

(** All open tabs, in rail order. *)
Definition all_tabs (s : TabsSnapshot) : list TabRecord := flat_map group_tabs (groups s).

Lemma tab_ids_all s : tab_ids s = tab_id <$> all_tabs s.
Proof.
  unfold tab_ids, all_tabs, group_ids. induction (groups s) as [|g gs IH]; [done|].
  cbn [flat_map]. by rewrite fmap_app, IH.
Qed.

(** The groups [closeTab] keeps. *)
Definition closed_groups (id : str) (gs : list TabGroup) : list TabGroup :=
  filter (λ g, nonempty_group g = true)
    (map (λ g, with_tabs g (filter (λ t, tab_id t ≠ id) (group_tabs g))) gs).

Lemma closed_groups_tabs id gs :
  flat_map group_tabs (closed_groups id gs) = filter (λ t, tab_id t ≠ id) (flat_map group_tabs gs).
Proof.
  induction gs as [|g gs IH]; [done|]. unfold closed_groups in *. cbn [map flat_map].
  rewrite filter_app, <- IH, filter_cons. case_decide as Hd; [done|].
  rewrite nonempty_group_spec in Hd. cbn [with_tabs group_tabs] in Hd. apply dec_stable in Hd.
  by rewrite Hd.
Qed.

Lemma closed_groups_ok id gs : groups_ok gs → groups_ok (closed_groups id gs).
Proof.
  intros [Hgs Hk]. split.
  - apply Forall_forall. intros g [Hne Hg]%list_elem_of_filter.
    apply list_elem_of_fmap in Hg as (g' & -> & Hg').
    apply (Forall_elem Hgs) in Hg'. apply nonempty_group_spec in Hne.
    apply with_tabs_ok; [done|done| |by apply NoDup_fmap_filter, gok_ids].
    apply Forall_forall. intros t [_ Ht]%list_elem_of_filter.
    by apply (Forall_elem (gok_tabs g' Hg')).
  - apply (NoDup_fmap_filter group_kind). change (map ?f ?l) with (f <$> l).
    by rewrite <- list_fmap_compose.
Qed.

Lemma index_of_id_spec id pre post :
  id ∉ pre → index_of_id id (pre ++ id :: post) = Some (length pre).
Proof.
  induction pre as [|x pre IH]; intros Hn; cbn [app index_of_id length]; [by rewrite decide_True|].
  rewrite not_elem_of_cons in Hn. rewrite decide_False by naive_solver.
  by rewrite IH by naive_solver.
Qed.

Lemma index_of_id_None id l : id ∉ l → index_of_id id l = None.
Proof.
  induction l as [|x l IH]; [done|]. rewrite not_elem_of_cons. intros [Hx Hl].
  cbn [index_of_id]. by rewrite decide_False, IH by naive_solver.
Qed.

Lemma find_other id l :
  id ∉ l → List.find (λ x : str, negb (bool_decide (x = id))) l = head l.
Proof.
  destruct l as [|x l]; [done|]. rewrite not_elem_of_cons. intros [Hx _].
  cbn [List.find head]. by rewrite bool_decide_false by naive_solver.
Qed.

(** In a rail without repeated or empty ids, the focus moves on to the next
    tab, and to the previous one from the end. *)
Lemma nearestSurvivor_spec s id pre post :
  tab_ids s = pre ++ id :: post → NoDup (tab_ids s) → [] ∉ tab_ids s →
  nearestSurvivor s id = match post with n :: _ => Some n | [] => last pre end.
Proof.
  intros E Hnd Hne. rewrite E in *. unfold nearestSurvivor. rewrite E.
  apply NoDup_app in Hnd as (_ & Hpre & [Hpost _]%NoDup_cons).
  assert (id ∉ pre) as Hn by (intros H; by apply (Hpre id H); left).
  rewrite index_of_id_spec, take_app_length by done.
  replace (drop (S (length pre)) (pre ++ id :: post)) with post
    by (by rewrite (cons_middle id pre post), app_assoc, drop_app_length' by (rewrite length_app; simpl; lia)).
  rewrite !find_other by (try rewrite elem_of_reverse; done).
  destruct post as [|n post]; cbn [head]; [by rewrite list.head_reverse|].
  rewrite decide_False; [done|]. intros ->. apply Hne. apply elem_of_app. right. right. by left.
Qed.

Lemma groups_ok_no_empty gs : groups_ok gs → [] ∉ group_ids gs.
Proof.
  intros [Hgs _] (g & t & Hg & Ht & E)%elem_of_group_ids.
  apply (Forall_elem Hgs) in Hg.
  by destruct (Forall_elem (gok_tabs g Hg) t Ht) as (_ & _ & ?).
Qed.

Lemma closed_groups_nil id gs :
  groups_ok gs → closed_groups id gs = [] ↔ filter (λ t, tab_id t ≠ id) (flat_map group_tabs gs) = [].
Proof.
  intros Hok. rewrite <- closed_groups_tabs. split; [by intros ->|]. intros E.
  destruct (closed_groups_ok id gs Hok) as [Hg _].
  destruct (closed_groups id gs) as [|g l]; [done|].
  apply Forall_cons in Hg as [Hg _]. destruct (gok_some g Hg). simpl in E.
  by apply app_nil_iff in E as [-> _].
Qed.

(** The snapshot [closeTab] leaves, once the group lists are settled. *)
Lemma closeTab_eq s id :
  groups_ok (groups s) →
  closeTab id s =
  match closed_groups id (groups s) with
  | [] => computeInitial
  | gs => MkSnapshot gs
      (if decide (activeId s = Some id) then
         match nearestSurvivor s id with Some a => Some a | None => first_tab gs end
       else activeId s)
  end.
Proof.
  intros Hok. unfold closeTab. fold (closed_groups id (groups s)).
  pose proof (closed_groups_ok id _ Hok) as Hc.
  destruct (closed_groups id (groups s)) as [|g gs]; [reflexivity|].
  unfold setState. by rewrite ensureWelcome_ok.
Qed.

Lemma closeTab_tabs s id :
  groups_ok (groups s) →
  all_tabs (closeTab id s) =
  match filter (λ t, tab_id t ≠ id) (all_tabs s) with
  | [] => group_tabs welcomeGroup
  | ts => ts
  end.
Proof.
  intros Hok. rewrite closeTab_eq by done. unfold all_tabs.
  pose proof (closed_groups_nil id _ Hok) as Hnil. rewrite <- closed_groups_tabs in Hnil |- *.
  destruct (closed_groups id (groups s)) as [|g gs]; [reflexivity|].
  cbn [groups]. destruct (flat_map group_tabs (g :: gs)) eqn:E; [|done].
  discriminate (proj2 Hnil eq_refl).
Qed.

Lemma all_tabs_nil s : groups_ok (groups s) → groups s ≠ [] → all_tabs s ≠ [].
Proof.
  intros [Hgs _] Hne E. unfold all_tabs in E. destruct (groups s) as [|g gs]; [done|].
  apply Forall_cons in Hgs as [Hg _]. destruct (gok_some g Hg).
  simpl in E. by apply app_nil_iff in E as [-> _].
Qed.

Lemma closed_has_other id i gs :
  groups_ok gs → i ∈ group_ids gs → i ≠ id → i ∈ group_ids (closed_groups id gs).
Proof.
  intros Hok Hi Hne. pose proof (tab_ids_all (MkSnapshot (closed_groups id gs) None)) as E1.
  pose proof (tab_ids_all (MkSnapshot gs None)) as E2.
  unfold tab_ids, all_tabs in E1, E2. cbn [groups] in E1, E2. rewrite E1, closed_groups_tabs.
  rewrite E2 in Hi. apply list_elem_of_fmap in Hi as (t & -> & Ht).
  apply list_elem_of_fmap_2, list_elem_of_filter. done.
Qed.

Lemma first_tab_in gs id : first_tab gs = Some id → id ∈ group_ids gs.
Proof.
  destruct gs as [|g gs]; [done|]. cbn [first_tab]. destruct (group_tabs g) as [|t ts] eqn:E; [done|].
  intros [= <-]. rewrite group_ids_cons, E. by left.
Qed.

Lemma nearestSurvivor_in s id i :
  nearestSurvivor s id = Some i → i ∈ tab_ids s ∧ i ≠ id.
Proof.
  assert (∀ l x, List.find (λ x : str, negb (bool_decide (x = id))) l = Some x →
            x ∈ l ∧ x ≠ id) as Hfind.
  { intros l x [Hx Hd]%find_some. split; [by apply list_elem_of_In|].
    by apply negb_true_iff, bool_decide_eq_false in Hd. }
  unfold nearestSurvivor. destruct (index_of_id _ _) as [n|]; [|done].
  assert (∀ x, List.find (λ x : str, negb (bool_decide (x = id))) (reverse (take n (tab_ids s)))
               = Some x → x ∈ tab_ids s ∧ x ≠ id) as Hbefore.
  { intros x [Hx Hd]%Hfind. split; [|done]. rewrite elem_of_reverse in Hx.
    apply elem_of_take in Hx as (k & Hx & _). by apply list_elem_of_lookup_2 in Hx. }
  destruct (List.find _ (drop _ _)) as [x|] eqn:E; [|apply Hbefore].
  case_decide; [apply Hbefore|]. intros <-%Some_inj. apply Hfind in E as [Hx Hd].
  split; [|done]. apply list_elem_of_lookup in Hx as (k & Hk).
  rewrite lookup_drop in Hk. by apply list_elem_of_lookup_2 in Hk.
Qed.

Lemma first_tab_some gs : groups_ok gs → gs ≠ [] → ∃ i, first_tab gs = Some i.
Proof.
  intros [Hgs _] Hne. destruct gs as [|g gs]; [done|]. apply Forall_cons in Hgs as [Hg _].
  cbn [first_tab]. destruct (group_tabs g) as [|t ts] eqn:E; [by destruct (gok_some g Hg)|eauto].
Qed.

(** Closing hands the focus to an open tab, unless it was nowhere before. *)
Lemma closeTab_active s id a :
  groups_ok (groups s) → activeId s = Some a →
  (a ∈ tab_ids s ∨ a = id → ∃ i, opened (closeTab id s) i) ∧ TabsInv (closeTab id s).
Proof.
  intros Hok Ha. rewrite closeTab_eq by done. pose proof (closed_groups_ok id _ Hok) as Hc.
  assert (∀ i, i ∈ tab_ids s → i ≠ id → i ∈ group_ids (closed_groups id (groups s))) as Hin
    by (intros i; by apply closed_has_other).
  destruct (closed_groups id (groups s)) as [|g gs] eqn:E.
  { split; [intros _; exists #"welcome"; apply initial_opened|].
    apply (opened_inv _ #"welcome"), initial_opened. }
  cbv zeta. destruct (first_tab_some (g :: gs)) as [f Hf]; [done..|]. rewrite Hf.
  assert (∃ i, match nearestSurvivor s id with Some a => Some a | None => Some f end = Some i
             ∧ i ∈ group_ids (g :: gs)) as (i & -> & Hi).
  { destruct (nearestSurvivor s id) as [n|] eqn:En; eexists; (split; [done|]).
    - apply nearestSurvivor_in in En as [? ?]. by apply Hin.
    - by apply first_tab_in. }
  rewrite Ha. case_decide as Hd.
  - assert (opened (MkSnapshot (g :: gs) (Some i)) i) as Ho by done.
    split; [by exists i|by apply opened_inv in Ho].
  - split; [|by split_and!; [| |exists a]]. intros [Ht| ->]; [|done].
    exists a. split_and!; [done|done|]. apply Hin; [done|]. by intros ->.
Qed.

(** * Run updates *)

Lemma update_tab_id tabId u t : tab_id (update_tab tabId u t) = tab_id t.
Proof. unfold update_tab. case_decide; [done|]. by destruct (tab_payload t). Qed.

Lemma update_tab_fits k tabId u t : tab_fits k t → tab_fits k (update_tab tabId u t).
Proof.
  unfold tab_fits. rewrite update_tab_id. unfold update_tab. case_decide; [done|].
  by destruct (tab_payload t).
Qed.

Lemma update_groups_ok tabId u gs :
  groups_ok gs →
  groups_ok (map (λ g, with_tabs g (map (update_tab tabId u) (group_tabs g))) gs).
Proof.
  intros Hok. apply groups_ok_map; [done|]. intros g Hg. split; [done|].
  assert (group_ok g) as Hg' by (destruct Hok as [Hok _]; by eapply Forall_forall in Hok).
  apply with_tabs_ok; [done| | |].
  - intros E%(f_equal length). rewrite length_map in E. by destruct (gok_some g Hg'), (group_tabs g).
  - apply Forall_fmap. eapply Forall_impl; [by apply gok_tabs|]. intros t. apply update_tab_fits.
  - change (map ?f ?l) with (f <$> l). rewrite <- list_fmap_compose.
    rewrite (list_fmap_ext _ tab_id); [by apply gok_ids|]. intros i t _. apply update_tab_id.
Qed.

Lemma update_all_tabs tabId u s :
  groups_ok (groups s) → groups s ≠ [] →
  all_tabs (updatePipelineRunTab tabId u s) = map (update_tab tabId u) (all_tabs s) ∧
  activeId (updatePipelineRunTab tabId u s) = activeId s ∧
  groups_ok (groups (updatePipelineRunTab tabId u s)).
Proof.
  intros Hok Hne. unfold updatePipelineRunTab, setState.
  pose proof (update_groups_ok tabId u _ Hok) as Hu. rewrite ensureWelcome_ok; [|done|].
  - split_and!; [|done|done]. unfold all_tabs. cbn [groups]. clear.
    induction (groups s) as [|g gs IH]; [done|]. cbn [map flat_map]. by rewrite IH, map_app.
  - cbn [groups]. by destruct (groups s).
Qed.

Lemma update_tab_ids tabId u s :
  groups_ok (groups s) → groups s ≠ [] → tab_ids (updatePipelineRunTab tabId u s) = tab_ids s.
Proof.
  intros Hok Hne. rewrite !tab_ids_all, (proj1 (update_all_tabs tabId u s Hok Hne)).
  change (map ?f ?l) with (f <$> l). rewrite <- list_fmap_compose.
  apply list_fmap_ext. intros i t _. apply update_tab_id.
Qed.

(** * Properties *)

(** Where an action that focuses a tab by its group finds the tab. *)
Definition lands (a : action) (s : TabsSnapshot) : bool :=
  match a with
  | AOpenSettings l =>
    negb (has_kind KSettings (groups s)) || has_tab (settings_tab_id l) (groups s)
  | AOpenActivityList =>
    negb (has_kind KActivity (groups s)) || has_tab #"activity:list" (groups s)
  | _ => true
  end.

Section steps.
Context (docs_has : str → bool) (s : TabsSnapshot).

(** An opening action puts a tab in front. *)
Definition is_opening (a : action) : bool :=
  match a with ASetActive _ | ACloseTab _ | AUpdateRun _ _ => false | _ => true end.

Lemma opening_opened a :
  groups_ok (groups s) → fresh a s = true → is_opening a = true → lands a s = true →
  ∃ id, opened (run docs_has a s) id.
Proof.
  intros Hok Hf Ho Hl. destruct (minted a) as [id|] eqn:Em.
  { exists id. by apply minted_opened. }
  destruct a; try discriminate Ho; try discriminate Em; cbn [run].
  - eexists. apply showWelcome_opened.
  - eexists. by apply openSettings_opened.
  - eexists. by apply openActivityList_opened.
  - eexists. by apply openActivityDetail_opened.
  - eexists. by apply open_in_settings_opened.
  - eexists. by apply open_in_settings_opened.
  - eexists. by apply open_in_settings_opened.
  - eexists. by apply openChatHistory_opened.
  - by apply openDocs_opened.
  - eexists. by apply openStreamDetail_opened.
  - eexists. by apply addDslDetail_opened.
  - eexists. by apply openPipelineList_opened.
  - eexists. by apply openDev_opened.
Qed.

(** The two actions that may miss only move the focus when they do. *)
Lemma missed_focus a :
  groups_ok (groups s) → groups s ≠ [] → lands a s = false →
  ∃ id, run docs_has a s = MkSnapshot (groups s) (Some id) ∧ has_tab id (groups s) = false.
Proof.
  intros Hok Hne Hl. destruct a; try discriminate Hl; cbn [run lands] in *;
    apply orb_false_iff in Hl as [Hk%negb_false_iff Ht].
  - exists (settings_tab_id landOn). split; [|done]. unfold openSettings. rewrite Hk.
    by apply activate_eq.
  - exists #"activity:list". split; [|done]. unfold openActivityList. rewrite Hk.
    by apply activate_eq.
Qed.

Lemma setActive_opened id :
  groups_ok (groups s) → setActive id s = s ∨ opened (setActive id s) id.
Proof.
  intros Hok. unfold setActive. destruct (has_tab _ _) eqn:E; [right; by apply activate_opened|by left].
Qed.

Lemma run_inv a : TabsInv s → fresh a s = true → TabsInv (run docs_has a s).
Proof.
  intros Hinv Hf. pose proof Hinv as (Hok & Hne & [i Hi]).
  destruct (lands a s) eqn:Hl.
  2:{ destruct (missed_focus a Hok Hne Hl) as (id & -> & _). by split_and!. }
  destruct (is_opening a) eqn:Ho.
  { destruct (opening_opened a Hok Hf Ho Hl) as [id H]. by apply opened_inv in H. }
  destruct a; try discriminate Ho; cbn [run].
  - destruct (update_all_tabs tabId u s Hok Hne) as (E & Ha & Hu).
    split_and!; [done| |by rewrite Ha]. intros Hn. apply (all_tabs_nil s Hok Hne).
    unfold all_tabs in E at 1. rewrite Hn in E. by destruct (all_tabs s).
  - destruct (setActive_opened id Hok) as [->|H]; [done|]. by apply opened_inv in H.
  - by apply (closeTab_active s id i).
Qed.

Lemma run_active a :
  TabsInv s → active_ok s = true → fresh a s = true → active_ok (run docs_has a s) = lands a s.
Proof.
  intros Hinv Hact Hf. pose proof Hinv as (Hok & Hne & [i Hi]).
  destruct (lands a s) eqn:Hl.
  2:{ destruct (missed_focus a Hok Hne Hl) as (id & -> & ?). done. }
  destruct (is_opening a) eqn:Ho.
  { destruct (opening_opened a Hok Hf Ho Hl) as [id H]. by apply opened_active in H. }
  unfold active_ok in Hact. rewrite Hi in Hact. apply has_tab_spec in Hact as Hin.
  destruct a; try discriminate Ho; cbn [run].
  - unfold active_ok. destruct (update_all_tabs tabId u s Hok Hne) as (_ & -> & _).
    rewrite Hi. apply has_tab_spec. fold (tab_ids (updatePipelineRunTab tabId u s)).
    by rewrite update_tab_ids.
  - destruct (setActive_opened id Hok) as [->|H]; [unfold active_ok; by rewrite Hi|].
    by apply opened_active in H.
  - destruct (closeTab_active s id i Hok Hi) as [H _]. destruct H as [j H]; [by left|].
    by apply opened_active in H.
Qed.
End steps.

Lemma initial_inv : TabsInv computeInitial.
Proof. apply (opened_inv _ #"welcome"), initial_opened. Qed.

Lemma reachable_inv docs_has s : reachable docs_has s → TabsInv s.
Proof. induction 1; [apply initial_inv|by apply run_inv]. Qed.

(** A run of actions, stopped at an id minted twice. *)
Fixpoint run_all (docs_has : str → bool) (l : list action) (s : TabsSnapshot) : option TabsSnapshot :=
  match l with
  | [] => Some s
  | a :: l => if fresh a s then run_all docs_has l (run docs_has a s) else None
  end.

Lemma run_all_reachable docs_has l s s' :
  reachable docs_has s → run_all docs_has l s = Some s' → reachable docs_has s'.
Proof.
  revert s. induction l as [|a l IH]; intros s Hs; cbn [run_all]; [by intros <-%Some_inj|].
  destruct (fresh a s) eqn:Hf; [|done]. apply IH. by apply reach_step.
Qed.

(** The example session of the witnesses. *)
Definition session : list action :=
  [ AOpenSettings (Some OnLogs); AOpenDocs; AGraphqlResult #"person" #"{ person { id } }" VNull None 17;
    AOpenStreamManager; AOpenPipelineRun #"report" 18; ADslDetail #"person" #"person_detail" [] VUndef 19 ].

Definition with_docs (topic : str) : bool := bool_decide (topic ≠ #"finetuning").

Definition session_end : TabsSnapshot := default computeInitial (run_all with_docs session computeInitial).

Lemma session_reachable : reachable with_docs session_end.
Proof.
  apply (run_all_reachable with_docs session computeInitial); [apply reach_initial|].
  vm_compute. reflexivity.
Qed.

Example session_ids :
  tab_ids session_end =
  [ #"settings:connection"; #"settings:finetuning"; #"settings:logs"; #"settings:permissions";
    #"settings:streams"; #"result:person:17"; #"pipeline:run:report:18"; #"detail:person_detail:new-19" ].
Proof. vm_compute. reflexivity. Qed.

(** C11: Whatever the user does, the workspace stays well formed: it is never
    empty and always has an active id, no group is empty and no two groups have
    the same kind, every group has the id and the displacement flags of its
    kind, every tab names its own group, and no two tabs share an id. *)
Theorem workspace_invariant docs_has s :
  reachable docs_has s → TabsInv s ∧ NoDup (tab_ids s).
Proof. intros Hs%reachable_inv. split; [done|]. apply groups_ok_ids, Hs. Qed.

Lemma workspace_invariant_witness :
  reachable with_docs session_end ∧ NoDup (tab_ids session_end).
Proof. split; [apply session_reachable|]. apply (workspace_invariant with_docs), session_reachable. Defined.

(** From a state whose active tab is open, every action leaves an open tab
    active, with one exception: [openSettings] and [openActivityList] focus a
    fixed tab of a group that is up, and leave a dangling id exactly when that
    tab has been closed or was never created. *)
Theorem active_tab_open docs_has s a :
  reachable docs_has s → active_ok s = true → fresh a s = true →
  active_ok (run docs_has a s) = lands a s.
Proof. intros Hs%reachable_inv. by apply run_active. Qed.

Lemma active_tab_open_witness :
  active_ok (run with_docs (ACloseTab #"detail:person_detail:new-19") session_end) = true.
Proof.
  apply (active_tab_open with_docs session_end (ACloseTab #"detail:person_detail:new-19"));
    [apply session_reachable|vm_compute; reflexivity|reflexivity].
Defined.

(** The exception happens: with the settings group opened by the stream
    manager, [openSettings] leaves no open tab active, and closing the
    connection panel or the activity list before asking for it again does the
    same. *)
Theorem settings_focus_dangles docs_has :
  ∃ s1 s2 s3,
    run_all docs_has [AOpenStreamManager; AOpenSettings None] computeInitial = Some s1 ∧
    run_all docs_has [AOpenSettings None; ACloseTab #"settings:connection"; AOpenSettings None]
      computeInitial = Some s2 ∧
    run_all docs_has [AOpenActivityDetail #"turn_1"; ACloseTab #"activity:list"; AOpenActivityList]
      computeInitial = Some s3 ∧
    active_ok s1 = false ∧ active_ok s2 = false ∧ active_ok s3 = false.
Proof. do 3 eexists. repeat (split; [vm_compute; reflexivity|]). vm_compute. reflexivity. Qed.

(** Closing a tab while another is open. *)
Lemma closeTab_other s id i :
  groups_ok (groups s) → i ∈ tab_ids s → i ≠ id →
  all_tabs (closeTab id s) = filter (λ t, tab_id t ≠ id) (all_tabs s) ∧
  (activeId s ≠ Some id → activeId (closeTab id s) = activeId s) ∧
  (∀ x, activeId s = Some id → nearestSurvivor s id = Some x → activeId (closeTab id s) = Some x).
Proof.
  intros Hok Hi Hd. rewrite closeTab_tabs, closeTab_eq by done.
  assert (filter (λ t, tab_id t ≠ id) (all_tabs s) ≠ []) as Hf.
  { rewrite tab_ids_all in Hi. apply list_elem_of_fmap in Hi as (t & -> & Hi). intros E.
    apply (not_elem_of_nil t). rewrite <- E. by apply list_elem_of_filter. }
  assert (closed_groups id (groups s) ≠ []) as Hc by (by intros E%closed_groups_nil).
  destruct (closed_groups id (groups s)); [done|]. cbn [activeId]. split_and!.
  - by destruct (filter _ _).
  - intros Ha. by rewrite decide_False.
  - intros x Ha Hx. by rewrite decide_True, Hx.
Qed.

Lemma tab_ids_split s id pre post :
  groups_ok (groups s) → tab_ids s = pre ++ id :: post → (id ∉ pre) ∧ (id ∉ post).
Proof.
  intros Hnd%groups_ok_ids E. fold (tab_ids s) in Hnd. rewrite E in Hnd.
  apply NoDup_app in Hnd as (_ & Hd & [Hp _]%NoDup_cons). split; [|done].
  intros Hin. apply (Hd id Hin). by left.
Qed.

Lemma closeTab_focus s id i pre post :
  groups_ok (groups s) → tab_ids s = pre ++ id :: post → i ∈ pre ++ post → activeId s = Some id →
  activeId (closeTab id s) = match post with n :: _ => Some n | [] => last pre end.
Proof.
  intros Hok E Hi Ha. destruct (tab_ids_split s id pre post Hok E) as [Hpre Hpost].
  assert (i ∈ tab_ids s ∧ i ≠ id) as [Hi' Hd].
  { rewrite E. split; [rewrite elem_of_app, elem_of_cons; rewrite elem_of_app in Hi; tauto|].
    intros ->. apply elem_of_app in Hi. tauto. }
  destruct (closeTab_other s id i Hok Hi' Hd) as (_ & _ & Hx).
  assert (∃ x, match post with n :: _ => Some n | [] => last pre end = Some x) as [x Ex].
  { destruct post; [|eauto]. rewrite app_nil_r in Hi. apply last_is_Some. intros ->.
    by apply not_elem_of_nil in Hi. }
  rewrite Ex. apply Hx; [done|]. rewrite <- Ex.
  by apply nearestSurvivor_spec; [|apply groups_ok_ids|apply groups_ok_no_empty].
Qed.

(** Closing a tab removes that tab and no other.  The focus stays where it
    was, or, when the closed tab had it, goes to the next tab of the rail, from
    the last tab to the previous one; closing the last tab of all brings the
    welcome tab back. *)
Theorem closeTab_survivors docs_has s id :
  reachable docs_has s →
  (∀ pre n post, tab_ids s = pre ++ id :: n :: post → activeId s = Some id →
     activeId (closeTab id s) = Some n) ∧
  (∀ pre p, tab_ids s = pre ++ [p; id] → activeId s = Some id → activeId (closeTab id s) = Some p) ∧
  (tab_ids s = [id] → closeTab id s = computeInitial) ∧
  (∀ t, t ∈ all_tabs s → tab_id t ≠ id →
     all_tabs (closeTab id s) = filter (λ t, tab_id t ≠ id) (all_tabs s) ∧
     (activeId s ≠ Some id → activeId (closeTab id s) = activeId s)).
Proof.
  intros (Hok & _)%reachable_inv. split_and!.
  - intros pre n post E Ha.
    apply (closeTab_focus s id n pre (n :: post) Hok E); [|done].
    apply elem_of_app. right. by left.
  - intros pre p E Ha. rewrite (closeTab_focus s id p (pre ++ [p]) [] Hok).
    + by rewrite last_snoc.
    + by rewrite <- app_assoc.
    + rewrite app_nil_r. apply elem_of_app. right. by left.
    + done.
  - intros E. rewrite closeTab_eq by done.
    replace (closed_groups id (groups s)) with (@nil TabGroup); [done|]. symmetry.
    apply closed_groups_nil; [done|]. fold (all_tabs s).
    rewrite tab_ids_all in E. destruct (all_tabs s) as [|t [|]]; try done. simplify_eq/=.
    by rewrite filter_cons_False by naive_solver.
  - intros t Hin Hd. destruct (closeTab_other s id (tab_id t) Hok) as (Ht & Ha & _); [|done|done].
    rewrite tab_ids_all. by apply list_elem_of_fmap_2.
Qed.

Lemma closeTab_survivors_witness :
  activeId (closeTab #"detail:person_detail:new-19" session_end) = Some #"pipeline:run:report:18".
Proof.
  apply (closeTab_survivors with_docs session_end _ session_reachable)
    with (pre := take 6 (tab_ids session_end)); vm_compute; reflexivity.
Defined.

(** ** Displacement *)

(** The tabs of the groups of one kind, and the groups outside some kinds. *)
Definition tabs_of (k : GroupKind) (gs : list TabGroup) : list TabRecord :=
  flat_map group_tabs (filter (λ g, group_kind g = k) gs).

Definition groups_outside (ks : list GroupKind) (gs : list TabGroup) : list TabGroup :=
  filter (λ g, group_kind g ∉ ks) gs.

Lemma filter_map_kind k tab (P : TabGroup → Prop) `{!∀ g, Decision (P g)} gs :
  (∀ g ts, P (with_tabs g ts) ↔ P g) →
  filter P (append_tab k tab gs) = append_tab k tab (filter P gs).
Proof.
  intros HP. induction gs as [|g gs IH]; [done|]. unfold append_tab in *. cbn [map].
  assert (P (if decide (group_kind g = k) then with_tabs g (group_tabs g ++ [tab]) else g) ↔ P g) as Hg
    by (by case_decide; rewrite ?HP).
  destruct (decide (P g)) as [Hp|Hp].
  - rewrite !filter_cons_True by (by rewrite ?Hg). cbn [map]. by rewrite IH.
  - rewrite !filter_cons_False by (by rewrite ?Hg). exact IH.
Qed.

Lemma append_tab_skip k tab gs : k ∉ group_kind <$> gs → append_tab k tab gs = gs.
Proof.
  induction gs as [|g gs IH]; [done|]. rewrite fmap_cons, not_elem_of_cons. intros [Hk Hgs].
  unfold append_tab in *. cbn [map]. by rewrite decide_False, IH by naive_solver.
Qed.

(** With a single group of the kind, its tabs grow by the new one. *)
Lemma append_tab_tabs k tab gs :
  NoDup (group_kind <$> gs) → k ∈ group_kind <$> gs →
  tabs_of k (append_tab k tab gs) = tabs_of k gs ++ [tab].
Proof.
  intros Hnd Hin. unfold tabs_of. rewrite filter_map_kind by done.
  induction gs as [|g gs IH]; [by apply not_elem_of_nil in Hin|].
  rewrite fmap_cons in Hnd, Hin. apply NoDup_cons in Hnd as [Hg Hnd].
  rewrite filter_cons. case_decide as Hk.
  - assert (filter (λ g, group_kind g = k) gs = []) as ->.
    { apply elem_of_nil_inv. intros g' [Hk' Hg']%list_elem_of_filter. apply Hg.
      rewrite Hk, <- Hk'. by apply list_elem_of_fmap_2. }
    unfold append_tab. cbn [map flat_map]. by rewrite decide_True, !app_nil_r by done.
  - apply IH; [done|]. apply elem_of_cons in Hin as [E|]; [by destruct Hk|done].
Qed.

Lemma append_tab_outside k ks tab gs :
  k ∈ ks → groups_outside ks (append_tab k tab gs) = groups_outside ks gs.
Proof.
  intros Hk. unfold groups_outside. rewrite filter_map_kind by done. apply append_tab_skip.
  by intros (g & -> & [Hn _]%list_elem_of_filter)%list_elem_of_fmap.
Qed.

(** In a workspace the groups a new activity sweeps away are welcome and docs. *)
Lemma displaced_kinds gs :
  Forall group_ok gs →
  filter (λ g, displaceOnNewActivity g = false) gs = groups_outside [KWelcome; KDocs] gs.
Proof.
  unfold groups_outside. induction 1 as [|g gs Hg _ IH]; [done|].
  assert (displaceOnNewActivity g = false ↔ group_kind g ∉ [KWelcome; KDocs]) as Hiff.
  2:{ destruct (decide (displaceOnNewActivity g = false)) as [Hd|Hd].
      - rewrite !filter_cons_True by tauto. by rewrite IH.
      - rewrite !filter_cons_False by tauto. exact IH. }
  rewrite (gok_activity g Hg).
  destruct (group_kind g); decide_closed.
Qed.

Lemma place_result_nonempty tab gs :
  Forall (λ g, group_tabs g ≠ []) gs →
  Forall (λ g, group_tabs g ≠ []) (place_result tab gs) ∧ place_result tab gs ≠ [].
Proof.
  intros Hgs. unfold place_result. set (kept := filter _ gs).
  assert (Forall (λ g, group_tabs g ≠ []) kept) as Hkept
    by (apply Forall_forall; intros g [_ Hg]%list_elem_of_filter; by eapply Forall_forall in Hgs).
  destruct (has_kind KResults kept) eqn:Hk.
  - apply has_kind_spec in Hk. split.
    + apply Forall_fmap. eapply Forall_impl; [exact Hkept|]. intros g Hg. unfold compose.
      case_decide; [|done]. cbn [with_tabs group_tabs]. by destruct (group_tabs g).
    + destruct kept; [by apply not_elem_of_nil in Hk|done].
  - split; [|by destruct kept]. rewrite Forall_app, Forall_singleton. by split.
Qed.

Lemma groups_outside_filter ks1 ks2 gs :
  groups_outside ks1 (groups_outside ks2 gs) = groups_outside (ks1 ++ ks2) gs.
Proof.
  unfold groups_outside. rewrite list_filter_filter. apply list_filter_iff. intros g.
  rewrite not_elem_of_app. tauto.
Qed.

Lemma place_result_outside tab gs :
  Forall group_ok gs →
  groups_outside [KResults] (place_result tab gs) = groups_outside [KResults; KWelcome; KDocs] gs.
Proof.
  intros Hgs. unfold place_result. rewrite displaced_kinds by done.
  change [KResults; KWelcome; KDocs] with ([KResults] ++ [KWelcome; KDocs]).
  rewrite <- groups_outside_filter. destruct (has_kind _ _).
  - apply append_tab_outside. by left.
  - unfold groups_outside at 1. rewrite filter_app, filter_cons_False, filter_nil, app_nil_r; [done|].
    intros H. apply H. by left.
Qed.

Lemma tabs_of_outside k ks gs : k ∉ ks → tabs_of k (groups_outside ks gs) = tabs_of k gs.
Proof.
  intros Hk. unfold tabs_of, groups_outside. rewrite list_filter_filter.
  f_equal. apply list_filter_iff. intros g. split; [by intros []|]. intros <-. done.
Qed.

Lemma place_result_tabs tab gs :
  groups_ok gs → tabs_of KResults (place_result tab gs) = tabs_of KResults gs ++ [tab].
Proof.
  intros Hok. pose proof (groups_ok_filter (λ g, displaceOnNewActivity g = false) gs Hok) as [_ Hnd].
  unfold place_result. rewrite displaced_kinds in * by apply Hok.
  rewrite <- (tabs_of_outside KResults [KWelcome; KDocs] gs)
    by (decide_closed).
  destruct (has_kind KResults _) eqn:Hk.
  - apply has_kind_spec in Hk. by apply append_tab_tabs.
  - apply has_kind_false in Hk. unfold tabs_of. rewrite filter_app, flat_map_app. f_equal.
Qed.

(** A new result sweeps exactly the welcome and documentation groups away,
    joins the end of the results tabs, whatever group the caller named, and
    comes to the front; every other group keeps its tabs and its place, and
    results stay in parallel to settings, activity, history and dev. *)
Theorem addResult_displaces docs_has s tab :
  reachable docs_has s →
  let placed := MkTab (tab_id tab) #"results" (tab_title tab) (tab_subtitle tab) (tab_payload tab) in
  let s' := addResult tab s in
  groups_outside [KResults] (groups s') = groups_outside [KResults; KWelcome; KDocs] (groups s) ∧
  tabs_of KResults (groups s') = tabs_of KResults (groups s) ++ [placed] ∧
  activeId s' = Some (tab_id tab).
Proof.
  intros (Hok & _ & _)%reachable_inv. cbv zeta. unfold addResult, setState.
  set (placed := MkTab _ #"results" _ _ _).
  destruct (place_result_nonempty placed (groups s)) as [Hp Hp']; [by apply groups_ok_nonempty|].
  rewrite ensureWelcome_nonempty by done. cbn [groups activeId]. split_and!; [| |done].
  - apply place_result_outside, Hok.
  - by apply place_result_tabs.
Qed.

Lemma addResult_displaces_witness :
  tabs_of KResults (groups (addResult (unplaced #"x" #"X" None PPersonList) session_end)) =
  tabs_of KResults (groups session_end) ++ [MkTab #"x" #"results" #"X" None PPersonList].
Proof. exact (proj1 (proj2 (addResult_displaces with_docs session_end _ session_reachable))). Defined.

(** ** Focusing again *)

(** The actions that look for their tab before they open it. *)
Definition is_focusing (a : action) : bool :=
  match a with
  | ACloseTab _ | AUpdateRun _ _ => false
  | _ => match minted a with Some _ => false | None => true end
  end.

Lemma opened_has_tab s id : opened s id → has_tab id (groups s) = true.
Proof. intros (_ & _ & H). by apply has_tab_spec. Qed.

(** The body of the actions that search for a tab id. *)
Lemma refocus_tab s id (f : TabsSnapshot → TabsSnapshot) :
  (∀ s, has_tab id (groups s) = true → f s = activate s id) → opened (f s) id → f (f s) = f s.
Proof. intros Hf Ho. rewrite Hf by by apply opened_has_tab. by apply activate_same. Qed.

(** The body of the actions that search for a group. *)
Lemma refocus_kind s id k (f : TabsSnapshot → TabsSnapshot) :
  (∀ s, has_kind k (groups s) = true → f s = activate s id) →
  TabsInv s → owner id = k →
  (has_kind k (groups s) = false → opened (f s) id) → f (f s) = f s.
Proof.
  intros Hf (Hok & Hne & _) Hk Ho. destruct (has_kind k (groups s)) eqn:E.
  - rewrite (Hf s E), activate_eq by done. rewrite Hf by done.
    by rewrite activate_eq.
  - specialize (Ho eq_refl). rewrite Hf; [by apply activate_same|].
    rewrite <- Hk. apply owner_has_kind; [apply Ho|by apply opened_has_tab].
Qed.

(** What [openDocs] keeps, it keeps the second time. *)
Lemma openDocs_again docs_has s :
  groups_ok (groups s) → openDocs docs_has (openDocs docs_has s) = openDocs docs_has s.
Proof.
  intros Hok. unfold openDocs at 1. cbv zeta.
  match goal with |- setState (MkSnapshot (?k ++ _) _) = _ =>
    replace k with (filter (λ g, group_kind g ≠ KWelcome ∧ group_kind g ≠ KDocs ∧
                                 displaceOnDocsOpen g = false) (groups s)); [reflexivity|] end.
  unfold openDocs. set (kept := filter _ (groups s)).
  assert (Forall (λ g, group_kind g ≠ KWelcome ∧ group_kind g ≠ KDocs ∧
                                 displaceOnDocsOpen g = false) kept) as Hkept
    by (apply Forall_forall; by intros g [? _]%list_elem_of_filter).
  assert (Forall (λ g, nonempty_group g = true) kept) as Hne.
  { apply Forall_forall. intros g [_ Hg]%list_elem_of_filter. apply nonempty_group_spec.
    destruct Hok as [Hgs _]. apply (Forall_elem Hgs) in Hg. by apply gok_some. }
  cbv zeta. unfold setState, ensureWelcome. cbn [groups activeId].
  rewrite (filter_app (λ g, nonempty_group g = true)), (filter_all _ kept Hne), filter_cons.
  case_decide as Hd; rewrite filter_nil.
  - destruct (kept ++ _) eqn:E; [by destruct kept|]. rewrite <- E, Nat.eqb_refl.
    cbn [groups]. rewrite filter_app, filter_all by done.
    rewrite filter_cons_False by (by intros (_ & ? & _)). by rewrite filter_nil, app_nil_r.
  - rewrite app_nil_r. destruct kept as [|g kept'] eqn:E; [reflexivity|]. rewrite <- E in *.
    rewrite (proj2 (Nat.eqb_neq _ _)) by (rewrite length_app; simpl; lia).
    cbn [groups]. by rewrite filter_all.
Qed.

(** Asking a second time for what is already in front changes nothing: every
    action that focuses or opens a definite tab is idempotent. *)
Theorem focusing_idempotent docs_has s a :
  reachable docs_has s → is_focusing a = true →
  run docs_has a (run docs_has a s) = run docs_has a s.
Proof.
  intros Hinv%reachable_inv Hf. pose proof Hinv as (Hok & Hne & _).
  destruct a; try discriminate Hf; cbn [run].
  - reflexivity.
  - apply (refocus_kind s (settings_tab_id landOn) KSettings); [|done|by destruct landOn as [[]|]|].
    + intros s' E. unfold openSettings. by rewrite E.
    + intros E. apply openSettings_opened; [done|by rewrite E].
  - apply (refocus_kind s #"activity:list" KActivity); [|done|reflexivity|].
    + intros s' E. unfold openActivityList. by rewrite E.
    + intros E. apply openActivityList_opened; [done|by rewrite E].
  - apply (refocus_tab s (#"activity:detail:" ++ turnId)); [|by apply openActivityDetail_opened].
    intros s' E. unfold openActivityDetail. by rewrite E.
  - apply (refocus_tab s #"settings:streams"); [|by apply open_in_settings_opened].
    intros s' E. unfold openStreamManager, open_in_settings. cbn [tab_id]. by rewrite E.
  - apply (refocus_tab s #"settings:new-event"); [|by apply open_in_settings_opened].
    intros s' E. unfold openNewEvent, open_in_settings. cbn [tab_id]. by rewrite E.
  - apply (refocus_tab s #"settings:translate"); [|by apply open_in_settings_opened].
    intros s' E. unfold openTranslate, open_in_settings. cbn [tab_id]. by rewrite E.
  - apply (refocus_kind s #"history:chats" KHistory); [|done|reflexivity|].
    + intros s' E. unfold openChatHistory. by rewrite E.
    + intros _. by apply openChatHistory_opened.
  - by apply openDocs_again.
  - apply (refocus_tab s (#"stream:" ++ mapping ++ #":" ++ streamId)); [|by apply openStreamDetail_opened].
    intros s' E. unfold openStreamDetail. by rewrite E.
  - apply (refocus_tab s (detail_tab_id viewName id now)); [|by apply addDslDetail_opened].
    intros s' E. unfold addDslDetail. by rewrite E.
  - apply (refocus_tab s #"pipeline:list"); [|by apply openPipelineList_opened].
    intros s' E. unfold openPipelineList. by rewrite E.
  - apply (refocus_tab s #"dev:agent"); [|by apply openDev_opened].
    intros s' E. unfold openDev. by rewrite E.
  - unfold setActive. destruct (has_tab id (groups s)) eqn:E; [|by rewrite E].
    rewrite activate_eq by done. cbn [groups]. rewrite E. by rewrite activate_eq.
Qed.

Lemma focusing_idempotent_witness :
  run with_docs AOpenDocs (run with_docs AOpenDocs session_end) = run with_docs AOpenDocs session_end.
Proof. apply (focusing_idempotent with_docs session_end AOpenDocs); [apply session_reachable|reflexivity]. Defined.

(** ** Pipeline runs *)

Lemma update_tab_run t p u :
  tab_payload t = PPipelineRun p →
  update_tab (tab_id t) u t =
  MkTab (tab_id t) (tab_groupId t) (tab_title t) (tab_subtitle t) (PPipelineRun (update_run u p)).
Proof. intros Hp. unfold update_tab. by rewrite decide_False, Hp by (intros []; done). Qed.

(** A run update changes nothing but the payload of the run tab it names:
    rail, focus and every other tab stay as they are.  In that tab the output
    of the run survives an update without one, and the run id, once the server
    has sent it, survives every update that brings no other. *)
Theorem run_update_local docs_has s tabId u :
  reachable docs_has s →
  let s' := updatePipelineRunTab tabId u s in
  tab_ids s' = tab_ids s ∧ activeId s' = activeId s ∧
  (∀ i t, all_tabs s !! i = Some t →
     (tab_id t ≠ tabId ∨ (∀ p, tab_payload t ≠ PPipelineRun p)) → all_tabs s' !! i = Some t) ∧
  (∀ i t p, all_tabs s !! i = Some t → tab_id t = tabId → tab_payload t = PPipelineRun p →
     ∃ t' p', all_tabs s' !! i = Some t' ∧ tab_payload t' = PPipelineRun p' ∧
       tab_title t' = tab_title t ∧ tab_subtitle t' = tab_subtitle t ∧
       run_pipelineName p' = run_pipelineName p ∧ run_status p' = up_status u ∧
       run_error p' = up_error u ∧
       (up_output u = None → run_output p' = run_output p) ∧
       (∀ r, run_runId p = Some r → ∃ r', run_runId p' = Some r' ∧ (up_runId u = None → r' = r))).
Proof.
  intros (Hok & Hne & _)%reachable_inv. cbv zeta.
  destruct (update_all_tabs tabId u s Hok Hne) as (Hall & Ha & _).
  split_and!; [by apply update_tab_ids|done| |]; rewrite Hall;
    change (map ?f ?l) with (f <$> l); setoid_rewrite list_lookup_fmap.
  - intros i t Hi Hd. rewrite Hi. cbn [fmap option_fmap option_map]. f_equal. unfold update_tab.
    case_decide; [done|]. destruct Hd as [|Hd]; [done|]. destruct (tab_payload t); try done.
    by destruct (Hd run0).
  - intros i t p Hi Hid Hp. exists (update_tab tabId u t), (update_run u p). rewrite Hi.
    split; [done|]. rewrite <- Hid, (update_tab_run t p u Hp). split_and!; try done.
    + intros Hout. unfold update_run. cbn [run_output]. by rewrite Hout.
    + intros r Hr. unfold update_run. cbn [run_runId].
      destruct (up_runId u) as [r'|]; [by exists r'|]. by exists r.
Qed.

Lemma run_update_local_witness :
  activeId (updatePipelineRunTab #"pipeline:run:report:18"
              (MkRunUpdate RunRunning None None (Some #"r1")) session_end) = activeId session_end.
Proof. apply (run_update_local with_docs session_end), session_reachable. Defined.
