(* ===== verification/Spotlight.v ===== *)
(** The command palette, apps/oos/src/mainview/components/{spotlight-actions,OosSpotlight}.tsx:
    the static actions, the actions made of the lists of streams and mappings,
    the filter and the grouping; a click is an action of the tab workspace
    ([TabsLaws.run]) or opens the drawer of errors.

    The comment of [matchActions] keeps an action if any of its fields contains the
    query; the code looks for it in the fields joined by spaces, so it also keeps
    one whose fields contain the query only together ([match_across]). *)

From S2P Require Export TabsLaws.
From S2P Require Import Json.

#[local] Set Warnings "-register-all".

(** * Actions *)

Inductive Target := OnTabs (a : action) | OnErrorLog.
Record SpotlightAction := MkAction {
  action_id : str; action_group : str; label : str; description : str; keywords : list str; onClick : Target }.

Definition STATIC_ACTIONS : list SpotlightAction :=
  [ MkAction #"nav-welcome" #"Navigation" #"Welcome" #"Go back to the start screen" [ #"home"; #"start"] (OnTabs AShowWelcome);
    MkAction #"nav-docs" #"Navigation" #"Documentation" #"Browse the built-in documentation" [ #"docs"; #"help"; #"hilfe"]
      (OnTabs AOpenDocs);
    MkAction #"nav-history" #"Navigation" #"Chat history" #"Browse and reload saved conversations"
      [ #"history"; #"verlauf"; #"chats"] (OnTabs AOpenChatHistory);
    MkAction #"nav-activity" #"Navigation" #"Activity" #"Inspect every agent turn and tool call"
      [ #"activity"; #"telemetry"; #"turns"; #"log"] (OnTabs AOpenActivityList);
    MkAction #"nav-streams" #"Navigation" #"Stream manager" #"Create and manage event streams"
      [ #"streams"; #"events"; #"manager"] (OnTabs AOpenStreamManager);
    MkAction #"nav-new-event" #"Navigation" #"New event" #"Insert a new event into a stream"
      [ #"new"; #"event"; #"insert"; #"neu"] (OnTabs AOpenNewEvent);
    MkAction #"settings-connection" #"Settings" #"Connection" #"LLM endpoint, API key, model, NATS URL"
      [ #"connection"; #"llm"; #"nats"; #"backend"; #"api"; #"key"; #"endpoint"] (OnTabs (AOpenSettings (Some OnConnection)));
    MkAction #"settings-finetuning" #"Settings" #"Finetuning" #"Temperature, max tokens, top hits per model"
      [ #"finetuning"; #"temperature"; #"model"; #"tokens"; #"tuning"] (OnTabs (AOpenSettings (Some OnFinetuning)));
    MkAction #"settings-logs" #"Settings" #"Logs" #"Local log ring-buffer viewer" [ #"logs"; #"debug"; #"log viewer"]
      (OnTabs (AOpenSettings (Some OnLogs)));
    MkAction #"settings-permissions" #"Settings" #"Permissions" #"Current role and domain access rights"
      [ #"permissions"; #"berechtigungen"; #"role"; #"rechte"; #"acl"] (OnTabs (AOpenSettings (Some OnPermissions)));
    MkAction #"debug-errors" #"Debug" #"Error log" #"Show the recent backend error drawer"
      [ #"errors"; #"fehler"; #"debug"; #"log"] OnErrorLog ].

(** ** From the lists *)

(** What the seam answers: a text and an error, or a rejection. *)
Definition ListReply : Type := outcome (str * option str).

Definition or_throw {A} (o : option A) : outcome A := match o with Some a => Ok a | None => Throw [] end.
(** [v.toLowerCase()], where [v] is what the types promise; anything else throws. *)
Definition lowered (v : jsval) : outcome str := match v with VStr s => Ok (to_lower s) | _ => Throw [] end.
(** [v ?? ""] *)
Definition or_empty (v : jsval) : jsval := if is_nullish v then VStr [] else v.
Definition text_of (v : jsval) : str := match v with VStr s => s | _ => to_string v end.
Definition nonempty_texts (l : list str) : list str := filter (λ s, s ≠ []) l.

(** [res.error || !res.json], then [JSON.parse] and the list under the name. *)
Definition rows_of (name : str) (r : ListReply) : outcome (list jsval) :=
  '(json, error) ← r;
  if truthy (VStr (default [] error)) || bool_decide (json = []) then Ok []
  else
    parsed ← or_throw (json_parse json);
    v ← get_prop name parsed;
    Ok (match v with VArr l => l | _ => [] end).

Definition stream_action (row : jsval) : outcome SpotlightAction :=
  stream ← get_prop #"stream" row;
  description ← get_prop #"description" row;
  mapping ← get_prop #"mapping" row;
  source_table ← get_prop #"source_table" row;
  s ← lowered stream;
  m ← lowered (or_empty mapping);
  d ← lowered (or_empty description);
  Ok (MkAction (#"stream-" ++ text_of stream) #"Streams" (text_of stream)
        (if truthy description then text_of description else if truthy mapping then text_of mapping else [])
        (nonempty_texts [s; m; d])
        (OnTabs (AOpenStreamDetail (if is_nullish mapping then #"unknown" else text_of mapping)
                   (if is_nullish source_table then [] else text_of source_table) (text_of stream)))).
Definition mapping_action (row : jsval) : outcome SpotlightAction :=
  name ← get_prop #"name" row;
  title ← get_prop #"title" row;
  n ← lowered name;
  t ← lowered (or_empty title);
  Ok (MkAction (#"mapping-" ++ text_of name) #"Mappings" (if is_nullish title then text_of name else text_of title)
        (#"Mapping · " ++ text_of name) (nonempty_texts [n; t]) (OnTabs AOpenStreamManager)).

(** The loaders: any throw is no actions. *)
Definition no_throw {A} (o : outcome (list A)) : list A := match o with Ok l => l | Throw _ => [] end.
Fixpoint all_rows {A} (f : jsval → outcome A) (l : list jsval) : outcome (list A) :=
  match l with [] => Ok [] | r :: l => a ← f r; rest ← all_rows f l; Ok (a :: rest) end.
Definition buildStreamActions (r : ListReply) : list SpotlightAction :=
  no_throw (rows ← rows_of #"streams" r; all_rows stream_action rows).
Definition buildMappingActions (r : ListReply) : list SpotlightAction :=
  no_throw (rows ← rows_of #"mappings" r; all_rows mapping_action rows).
Definition loaded_actions (streams mappings : ListReply) : list SpotlightAction :=
  STATIC_ACTIONS ++ buildStreamActions streams ++ buildMappingActions mappings.

(** * The palette *)

Definition search_fields (a : SpotlightAction) : list str := [label a; description a; action_group a] ++ keywords a.
Definition haystack (a : SpotlightAction) : str := to_lower (join [32%N] (search_fields a)).
Definition matchActions (l : list SpotlightAction) (query : str) : list SpotlightAction :=
  let q := to_lower (trim query) in
  if decide (q = []) then l else filter (λ a, includes q (haystack a) = true) l.
Definition dynamic_group (g : str) : bool := bool_decide (g = #"Streams") || bool_decide (g = #"Mappings").
Definition baseActions (l : list SpotlightAction) (query : str) : list SpotlightAction :=
  if 2 <=? length query then l else filter (λ a, dynamic_group (action_group a) = false) l.
Definition visibleActions (l : list SpotlightAction) (query : str) : list SpotlightAction :=
  matchActions (baseActions l query) query.

(** [map.get(key).push(a)], the key having been set if it was missing. *)
Fixpoint push_group (a : SpotlightAction) (m : list (str * list SpotlightAction)) : list (str * list SpotlightAction) :=
  match m with
  | [] => [(action_group a, [a])]
  | (k, l) :: m => if decide (k = action_group a) then (k, l ++ [a]) :: m else (k, l) :: push_group a m
  end.
Definition groupBy (l : list SpotlightAction) : list (str * list SpotlightAction) := foldl (λ m a, push_group a m) [] l.

(** A click on an action. *)
Definition click (docs_has : str → bool) (a : SpotlightAction) (s : TabsSnapshot) : TabsSnapshot :=
  match onClick a with OnTabs act => run docs_has act s | OnErrorLog => s end.

(** * Lemmas *)

Lemma push_group_other a m : action_group a ∉ m.*1 → push_group a m = m ++ [(action_group a, [a])].
Proof.
  induction m as [|[k l] m IH]; [done|]. rewrite fmap_cons, elem_of_cons. intros H. cbn [push_group app].
  rewrite decide_False by (intros E; apply H; by left). f_equal. apply IH. tauto.
Qed.

Definition group_of_key (l : list SpotlightAction) (k : str) : str * list SpotlightAction := (k, filter (λ a, action_group a = k) l).

Lemma push_group_in a l ks :
  NoDup ks → action_group a ∈ ks → push_group a (group_of_key l <$> ks) = group_of_key (l ++ [a]) <$> ks.
Proof.
  assert (∀ ks : list str, action_group a ∉ ks → fmap (M:=list) (group_of_key (l ++ [a])) ks = fmap (M:=list) (group_of_key l) ks) as Hother.
  { clear ks. intros ks. induction ks as [|k ks IH]; [done|]. rewrite elem_of_cons. intros H. rewrite !fmap_cons, IH by tauto. f_equal.
    unfold group_of_key. rewrite filter_app, (filter_cons_False _ a []) by (intros E; apply H; by left). by rewrite filter_nil, app_nil_r. }
  induction ks as [|k ks IH]; [by intros _ ?%elem_of_nil|]. intros [Hk Hnd]%NoDup_cons Hin. rewrite !fmap_cons. cbn [push_group group_of_key].
  destruct (decide (k = action_group a)) as [E|E].
  - rewrite Hother by (by rewrite <- E). f_equal. unfold group_of_key. by rewrite filter_app, (filter_cons_True _ a []) by done.
  - apply elem_of_cons in Hin as [Hin|Hin]; [by rewrite Hin in E|]. rewrite IH by done. f_equal. unfold group_of_key.
    rewrite filter_app, (filter_cons_False _ a []) by (intros E'; by apply E). by rewrite filter_nil, app_nil_r.
Qed.

Lemma no_members (P : SpotlightAction → Prop) `{!∀ x, Decision (P x)} l : (∀ a, a ∈ l → ¬ P a) → filter P l = [].
Proof.
  induction l as [|a l IH]; intros Hl; [done|]. rewrite filter_cons_False by (apply Hl; by left). apply IH. intros b Hb. apply Hl. by right.
Qed.

Lemma groupBy_exact l : groupBy l = group_of_key l <$> firsts (action_group <$> l).
Proof.
  induction l as [|a l IH] using rev_ind; [done|]. unfold groupBy in *. rewrite foldl_app. cbn [foldl]. rewrite IH.
  rewrite fmap_app. cbn [fmap list_fmap]. rewrite firsts_snoc. destruct (decide (action_group a ∈ action_group <$> l)) as [Hin|Hin].
  - apply push_group_in; [apply firsts_NoDup|by apply elem_of_firsts].
  - assert ((group_of_key l <$> firsts (action_group <$> l)).*1 = firsts (action_group <$> l)) as Hk
      by (rewrite <- list_fmap_compose; apply list_fmap_id).
    rewrite push_group_other by (rewrite Hk; by rewrite elem_of_firsts). rewrite fmap_app. cbn [fmap list_fmap]. f_equal.
    + apply list_fmap_ext. intros i k Hi. unfold group_of_key. rewrite filter_app, (filter_cons_False _ a []); [by rewrite filter_nil, app_nil_r|].
      intros E. apply Hin, elem_of_firsts. rewrite E. by apply list_elem_of_lookup_2 in Hi.
    + unfold group_of_key. rewrite filter_app, (filter_cons_True _ a []) by done. rewrite no_members; [done|].
      intros a' Ha' E. apply Hin, list_elem_of_fmap. by exists a'.
Qed.

Lemma elem_of_visible l q a :
  a ∈ visibleActions l q ↔
  a ∈ l ∧ (2 ≤ length q ∨ dynamic_group (action_group a) = false) ∧ (to_lower (trim q) = [] ∨ includes (to_lower (trim q)) (haystack a) = true).
Proof.
  unfold visibleActions, matchActions, baseActions. destruct (Nat.leb_spec 2 (length q)); case_decide; rewrite ?list_elem_of_filter;
    split; try tauto; intros H'; destruct_and?; repeat split; try tauto; destruct_or?; try done; lia.
Qed.

(** *** The text that is searched *)

Lemma includes_spec n h : includes n h = true ↔ ∃ a b, h = a ++ n ++ b.
Proof.
  unfold includes. rewrite bool_decide_eq_true. induction h as [|c h IH]; cbn [index_of]; destruct (starts_with n _) eqn:E.
  1,3: apply starts_with_spec in E as [k E]; split; [intros _; by exists [], k|by eexists].
  all: split.
  - by intros [? ?].
  - intros (a & b & Hh). symmetry in Hh. apply app_nil in Hh as [_ [-> _]%app_nil]. done.
  - rewrite fmap_is_Some, IH. intros (a & b & ->). by exists (c :: a), b.
  - intros ([|c' a] & b & Hh); [exfalso; cbn [app] in Hh; rewrite Hh, starts_with_app in E; done|]. injection Hh as -> ->.
    rewrite fmap_is_Some, IH. by exists a, b.
Qed.

Lemma join_part sep f l : f ∈ l → ∃ a b, join sep l = a ++ f ++ b.
Proof.
  induction l as [|g l IH]; [by intros ?%elem_of_nil|]. intros [->|Hin]%elem_of_cons.
  - exists []. destruct l as [|g' l]; [by exists []; rewrite app_nil_r|]. rewrite join_cons by done. by exists (sep ++ join sep (g' :: l)).
  - destruct (IH Hin) as (a & b & E). rewrite join_cons by (by intros ->; apply elem_of_nil in Hin). rewrite E.
    exists (g ++ sep ++ a), b. by rewrite <- !app_assoc.
Qed.

Lemma field_in_haystack q a f : f ∈ search_fields a → includes q (to_lower f) = true → includes q (haystack a) = true.
Proof.
  intros (u & v & E)%(join_part [32%N]) (x & y & Hx)%includes_spec. apply includes_spec. unfold haystack. rewrite E.
  unfold to_lower in *. rewrite !fmap_app, Hx. exists ((to_lower1 <$> u) ++ x), (y ++ (to_lower1 <$> v)). by rewrite <- !app_assoc.
Qed.

(** *** The rows *)

Lemma all_rows_all {A} (f : jsval → outcome A) l out : all_rows f l = Ok out → Forall2 (λ r a, f r = Ok a) l out.
Proof.
  revert out. induction l as [|r l IH]; intros out; cbn [all_rows]; [intros [= <-]; apply Forall2_nil; exact I|].
  intros (b & Hb & H)%outcome_bind_Ok. apply outcome_bind_Ok in H as (rest & Hr & [= <-]). apply Forall2_cons. by auto.
Qed.

(** A row the loaders can read: a text, and texts or nothing in the other fields. *)
Definition readable (required : str) (optional : list str) (row : jsval) : Prop :=
  (∃ s, get_prop required row = Ok (VStr s)) ∧
  Forall (λ k, ∃ v, get_prop k row = Ok v ∧ (is_nullish v = true ∨ ∃ s, v = VStr s)) optional.
Definition stream_readable : jsval → Prop := readable #"stream" [ #"description"; #"mapping"].
Definition mapping_readable : jsval → Prop := readable #"name" [ #"title"].

Lemma lowered_or_empty v : (is_nullish v = true ∨ ∃ s, v = VStr s) → ∃ s, lowered (or_empty v) = Ok s.
Proof. unfold or_empty. intros [H|[s ->]]; [rewrite H|cbn [is_nullish]]; by eexists. Qed.
Lemma get_prop_any k k' row v : get_prop k row = Ok v → ∃ v', get_prop k' row = Ok v'.
Proof. destruct row; cbn [get_prop]; try discriminate; by eexists. Qed.
Lemma stream_row_read row : stream_readable row → ∃ a, stream_action row = Ok a.
Proof.
  intros ((s & Hs) & H). apply Forall_cons in H as ((d & Hd & (d' & Ld)%lowered_or_empty) & H).
  apply Forall_cons in H as ((m & Hm & (m' & Lm)%lowered_or_empty) & _). destruct (get_prop_any _ #"source_table" _ _ Hs) as [t Ht].
  unfold stream_action. rewrite Hs, Hd, Hm, Ht. cbn [mbind outcome_bind lowered]. rewrite Lm. cbn [mbind outcome_bind]. rewrite Ld. by eexists.
Qed.
Lemma mapping_row_read row : mapping_readable row → ∃ a, mapping_action row = Ok a.
Proof.
  intros ((s & Hs) & H). apply Forall_cons in H as ((t & Ht & (t' & Lt)%lowered_or_empty) & _).
  unfold mapping_action. rewrite Hs, Ht. cbn [mbind outcome_bind lowered]. rewrite Lt. by eexists.
Qed.

(** A loader shows all rows of the list, or nothing if there is one that it cannot read. *)
Lemma all_rows_read {A} (P : jsval → Prop) (f : jsval → outcome A) rows :
  (∀ row, P row → ∃ a, f row = Ok a) → Forall P rows → ∃ l, all_rows f rows = Ok l.
Proof.
  intros Hf. induction 1 as [|row rows Hrow _ (l & IH)]; cbn [all_rows]; [by eexists|]. destruct (Hf row Hrow) as [a ->].
  cbn [mbind outcome_bind]. rewrite IH. by eexists.
Qed.
Lemma loaded_rows (P : jsval → Prop) (f : jsval → outcome SpotlightAction) (name : str) (r : ListReply) :
  (∀ row, P row → ∃ a, f row = Ok a) →
  (no_throw (rows ← rows_of name r; all_rows f rows) = [] ∧ (∀ rows, rows_of name r = Ok rows → ¬ Forall P rows))
  ∨ ∃ rows, rows_of name r = Ok rows ∧ Forall2 (λ row a, f row = Ok a) rows (no_throw (rows ← rows_of name r; all_rows f rows)).
Proof.
  intros Hf. destruct (rows_of _ r) as [rows|m] eqn:Er; cbn [mbind outcome_bind]; [|by left].
  destruct (all_rows f rows) as [out|m] eqn:Ea; cbn [no_throw].
  - right. exists rows. split; [done|]. by apply all_rows_all.
  - left. split; [done|]. intros rows' [= <-] HP. destruct (all_rows_read P f rows Hf HP) as [l E]. by rewrite E in Ea.
Qed.

(** The fields of a row of the list of streams: its name, its mapping ([unknown] if it has none), its source table. *)
Definition stream_row (row : jsval) (i m t : str) : Prop :=
  get_prop #"stream" row = Ok (VStr i)
  ∧ (get_prop #"mapping" row = Ok (VStr m) ∨ ∃ v, get_prop #"mapping" row = Ok v ∧ is_nullish v = true ∧ m = #"unknown")
  ∧ (∃ v, get_prop #"source_table" row = Ok v ∧ t = if is_nullish v then [] else text_of v).

Lemma stream_action_opens row a :
  stream_action row = Ok a →
  ∃ i m t, stream_row row i m t ∧ label a = i ∧ action_group a = #"Streams" ∧ onClick a = OnTabs (AOpenStreamDetail m t i).
Proof.
  unfold stream_action. intros (s & Hs & H)%outcome_bind_Ok. apply outcome_bind_Ok in H as (d & Hd & H).
  apply outcome_bind_Ok in H as (m & Hm & H). apply outcome_bind_Ok in H as (t & Ht & H). apply outcome_bind_Ok in H as (s' & Hs' & H).
  apply outcome_bind_Ok in H as (m' & Hm' & H). apply outcome_bind_Ok in H as (d' & _ & H). injection H as <-.
  destruct s as [| | | | |s| |]; try discriminate Hs'. cbn [label action_id action_group onClick text_of].
  exists s, (if is_nullish m then #"unknown" else text_of m), (if is_nullish t then [] else text_of t). split; [|done].
  split; [done|]. rewrite Hm, Ht. split; [|by eexists]. unfold or_empty in Hm'. destruct (is_nullish m) eqn:En; [right; by eexists|left].
  by destruct m; try discriminate Hm'.
Qed.
Lemma mapping_action_opens row a :
  mapping_action row = Ok a →
  ∃ n, get_prop #"name" row = Ok (VStr n) ∧ action_id a = #"mapping-" ++ n ∧ action_group a = #"Mappings" ∧ onClick a = OnTabs AOpenStreamManager.
Proof.
  unfold mapping_action. intros (n & Hn & H)%outcome_bind_Ok. apply outcome_bind_Ok in H as (t & Ht & H).
  apply outcome_bind_Ok in H as (n' & Hn' & H). apply outcome_bind_Ok in H as (t' & _ & H). injection H as <-.
  destruct n as [| | | | |n| |]; try discriminate Hn'. by exists n.
Qed.

(** The tab of a stream that had none. *)
Lemma stream_tab m t i s :
  groups_ok (groups s) → has_tab (#"stream:" ++ m ++ #":" ++ i) (groups s) = false →
  tabs_of KResults (groups (openStreamDetail m t i s))
  = tabs_of KResults (groups s) ++ [MkTab (#"stream:" ++ m ++ #":" ++ i) #"results" i (Some m) (PStreamDetail m t i)].
Proof.
  intros Hok Hn. unfold openStreamDetail, setState. rewrite Hn.
  match goal with |- context [place_result ?tab _] => destruct (place_result_nonempty tab (groups s)) as [Hp Hp']; [by apply groups_ok_nonempty|] end.
  rewrite ensureWelcome_nonempty by done. cbn [groups]. by apply place_result_tabs.
Qed.

(** *** What a click does *)

(** A click on the action of a row of the streams: the tab of that stream and mapping is in front; if there was none, it is
    a new one behind the results, of the source table of the row. *)
Definition opens_stream (docs_has : str → bool) (s : TabsSnapshot) (row : jsval) (a : SpotlightAction) : Prop :=
  ∃ i m t, stream_row row i m t ∧ label a = i ∧ action_group a = #"Streams"
    ∧ opened (click docs_has a s) (#"stream:" ++ m ++ #":" ++ i)
    ∧ (has_tab (#"stream:" ++ m ++ #":" ++ i) (groups s) = false →
       tabs_of KResults (groups (click docs_has a s))
       = tabs_of KResults (groups s) ++ [MkTab (#"stream:" ++ m ++ #":" ++ i) #"results" i (Some m) (PStreamDetail m t i)]).
Definition opens_manager (docs_has : str → bool) (s : TabsSnapshot) (row : jsval) (a : SpotlightAction) : Prop :=
  ∃ n, get_prop #"name" row = Ok (VStr n) ∧ action_id a = #"mapping-" ++ n ∧ action_group a = #"Mappings"
    ∧ opened (click docs_has a s) #"settings:streams".
(** The rows of a list, each with its action, in order; or no action, if the list or one of its rows cannot be read. *)
Definition all_or_none (rel : jsval → SpotlightAction → Prop) (P : jsval → Prop) (name : str) (r : ListReply) (l : list SpotlightAction) : Prop :=
  (l = [] ∧ ∀ rows, rows_of name r = Ok rows → ¬ Forall P rows) ∨ ∃ rows, rows_of name r = Ok rows ∧ Forall2 rel rows l.

Lemma stream_click docs_has s row a : groups_ok (groups s) → stream_action row = Ok a → opens_stream docs_has s row a.
Proof.
  intros Hok (i & m & t & Hr & Hl & Hg & Hc)%stream_action_opens. exists i, m, t. unfold click. rewrite Hc. cbn [run].
  repeat (split; [done|]). split; [by apply openStreamDetail_opened|by apply stream_tab].
Qed.
Lemma mapping_click docs_has s row a : groups_ok (groups s) → mapping_action row = Ok a → opens_manager docs_has s row a.
Proof.
  intros Hok (n & Hn & Hi & Hg & Hc)%mapping_action_opens. exists n. unfold click. rewrite Hc. cbn [run]. repeat (split; [done|]).
  by apply open_in_settings_opened.
Qed.
Lemma static_click docs_has s a act :
  groups_ok (groups s) → groups s ≠ [] → a ∈ STATIC_ACTIONS → onClick a = OnTabs act →
  (∃ id, opened (click docs_has a s) id)
  ∨ (lands act s = false ∧ ∃ id, click docs_has a s = MkSnapshot (groups s) (Some id) ∧ has_tab id (groups s) = false).
Proof.
  intros Hok Hne Ha E. unfold click. rewrite E. destruct (lands act s) eqn:Hl; [left|right].
  - apply opening_opened; [done| | |done]; unfold STATIC_ACTIONS in Ha;
      repeat (apply elem_of_cons in Ha as [->|Ha]; [cbn [onClick] in E; first [discriminate E|injection E as <-; done]|]);
      by apply elem_of_nil in Ha.
  - split; [done|]. by apply missed_focus.
Qed.

(** C37: The palette shows exactly the actions whose label, description, group and keywords, joined by spaces, contain the trimmed query
    in either case, so those with a field that contains it, and those that contain it only across fields (the comment of
    [matchActions] names the first only); streams and mappings only behind two characters; each group once, in the order of its first
    action and with its actions in theirs.  In a reachable workspace a static action puts a tab in front, or only moves the focus where its
    group lacks the tab.  The lists of streams and mappings add an action for each row in their order, or none if the list or one of its rows cannot be read: that of a stream puts the tab of the
    row's stream and mapping in front, a new one with the row's source table if there was none; that of a mapping the stream manager. *)
Theorem palette_exact docs_has streams mappings query s :
  reachable docs_has s →
  groupBy (visibleActions (loaded_actions streams mappings) query)
  = group_of_key (visibleActions (loaded_actions streams mappings) query)
      <$> firsts (action_group <$> visibleActions (loaded_actions streams mappings) query)
  ∧ (∀ a, a ∈ visibleActions (loaded_actions streams mappings) query ↔
       a ∈ loaded_actions streams mappings ∧ (2 ≤ length query ∨ dynamic_group (action_group a) = false)
       ∧ (to_lower (trim query) = [] ∨ includes (to_lower (trim query)) (haystack a) = true))
  ∧ (∀ a f, f ∈ search_fields a → includes (to_lower (trim query)) (to_lower f) = true → includes (to_lower (trim query)) (haystack a) = true)
  ∧ (∀ a act, a ∈ STATIC_ACTIONS → onClick a = OnTabs act →
       (∃ id, opened (click docs_has a s) id)
       ∨ (lands act s = false ∧ ∃ id, click docs_has a s = MkSnapshot (groups s) (Some id) ∧ has_tab id (groups s) = false))
  ∧ all_or_none (opens_stream docs_has s) stream_readable #"streams" streams (buildStreamActions streams)
  ∧ all_or_none (opens_manager docs_has s) mapping_readable #"mappings" mappings (buildMappingActions mappings).
Proof.
  intros Hr. destruct (reachable_inv docs_has s Hr) as (Hok & Hne & _).
  split; [apply groupBy_exact|]. split; [intros a; apply elem_of_visible|]. split; [intros a f; apply field_in_haystack|].
  split; [intros a act; by apply static_click|]. split.
  - destruct (loaded_rows stream_readable stream_action #"streams" streams stream_row_read) as [H|(rows & Hrows & H)]; [by left|right]. exists rows. split; [done|].
    eapply Forall2_impl; [exact H|]. intros row a. by apply stream_click.
  - destruct (loaded_rows mapping_readable mapping_action #"mappings" mappings mapping_row_read) as [H|(rows & Hrows & H)]; [by left|right]. exists rows. split; [done|].
    eapply Forall2_impl; [exact H|]. intros row a. by apply mapping_click.
Qed.

(** * Cases *)

Definition seam (s : string) : ListReply := Ok (js s, None).
(** A row as oosai makes it. *)
Definition oosai_row : jsval :=
  VObj [(#"stream", VStr #"fall-1"); (#"description", VStr #"Ein Fall"); (#"mapping_name", VStr #"police"); (#"mapping", VStr #"police");
        (#"tag", VNull)].

Example palette_exact_witness : ∃ id, opened (click (λ _, true) (MkAction #"nav-welcome" #"Navigation" #"Welcome" #"Go back to the start screen"
  [ #"home"; #"start"] (OnTabs AShowWelcome)) computeInitial) id.
Proof.
  destruct (palette_exact (λ _, true) (Throw []) (Throw []) [] computeInitial (reach_initial (λ _, true))) as (_ & _ & _ & H & _).
  destruct (H (MkAction #"nav-welcome" #"Navigation" #"Welcome" #"Go back to the start screen" [ #"home"; #"start"] (OnTabs AShowWelcome))
              AShowWelcome) as [Ho|[Hl _]]; [by left|done|exact Ho|done].
Defined.

(** The list of streams has no source table: the tab of a stream that is opened from
    the palette has none, and keeps it when the stream is opened again with one. *)
Definition stream_payloads (s : TabsSnapshot) : list TabPayload :=
  filter (λ p, match p with PStreamDetail _ _ _ => true | _ => false end = true) (tab_payload <$> (groups s ≫= group_tabs)).
Example no_source_table :
  (onClick <$> match stream_action oosai_row with Ok a => [a] | Throw _ => [] end)
    = [OnTabs (AOpenStreamDetail #"police" [] #"fall-1")]
  ∧ stream_payloads (openStreamDetail #"police" #"police_events" #"fall-1" (openStreamDetail #"police" [] #"fall-1" computeInitial))
    = [PStreamDetail #"police" [] #"fall-1"].
Proof. split; by vm_compute. Qed.

(** One row without a text for its stream, and no stream has an action. *)
Definition all_streams : str :=
  #"{" ++ quoted #"streams" ++ #":[{" ++ quoted #"stream" ++ #":" ++ quoted #"a" ++ #"},{" ++ quoted #"stream" ++ #":7}]}".
Example one_row_spoils :
  buildStreamActions (Ok (all_streams, None)) = []
  ∧ length (buildStreamActions (Ok (#"{" ++ quoted #"streams" ++ #":[{" ++ quoted #"stream" ++ #":" ++ quoted #"a" ++ #"}]}", None))) = 1.
Proof. split; by vm_compute. Qed.

(** No field of the welcome action contains this query, but two together do. *)
Example match_across :
  (action_id <$> visibleActions STATIC_ACTIONS #"welcome go") = [ #"nav-welcome"]
  ∧ Forall (λ a, Forall (λ f, includes #"welcome go" (to_lower f) = false) (search_fields a)) STATIC_ACTIONS.
Proof. split; [by vm_compute|]. decide_closed. Qed.

(** Two spaces count as two characters, and show everything. *)
Example two_spaces :
  length (visibleActions (STATIC_ACTIONS ++ match stream_action oosai_row with Ok a => [a] | Throw _ => [] end) #"  ") = 12
  ∧ length (visibleActions (STATIC_ACTIONS ++ match stream_action oosai_row with Ok a => [a] | Throw _ => [] end) []) = 11.
Proof. split; by vm_compute. Qed.
Example static_ids : NoDup (action_id <$> STATIC_ACTIONS).
Proof. decide_closed. Qed.
