(* ===== verification/ChatTurn.v ===== *)
(** One chat turn, from the input to the stored record:
    [apps/oos/src/mainview/hooks/useChat.ts].

    The hook is a state machine.  Its state is what React holds (the
    scrollback, the busy flag, the active chat id), the four refs, the calls
    of [send] that have not returned yet, and the traces it leaves behind:
    requests sent, rows saved, chats saved, cancellations, the tab workspace.
    A step is one uninterrupted stretch of the program: a callback, an agent
    event, or the continuation of [send] after an [await].  React commits and
    runs the effects that are due between two steps.

    A callback is a closure over the render it was created in, so [Send]
    carries the [busy] flag, the scrollback and the settings it was created
    with; [current] says that they are the ones on screen. *)

From S2P Require Export Stores Tabs.

#[local] Set Warnings "-register-all".

(** * Types *)

(** What one step reads off the clock. *)
Record Now := MkNow { now_ms : N; now_iso : str; now_hours : N; now_minutes : N }.

Definition two_digits (n : N) : str := (if (n <? 10)%N then #"0" else []) ++ show_N n.

(** [formatNow] *)
Definition formatNow (now : Now) : str := two_digits (now_hours now) ++ #":" ++ two_digits (now_minutes now).

(** The settings a turn uses. *)
Record ChatSettings := MkChatSettings {
  llmBaseUrl : str; natsUrl : str; llmApiKey : str; llmModel : str }.

Record EventTurnContext := MkEventCtx { ctx_mapping : str; ctx_streamId : str }.

Record TurnTrace := MkTrace {
  trace_startedAt : str; trace_finishedAt : str; trace_durationMs : jsnum; trace_usage : Usage;
  trace_toolCalls : jsval; trace_status : str; trace_errorMessage : option str }.

(** The reply of [askTurn] and of [chatTurn]; an ask has no steps. *)
Record TurnResult := MkTurnResult {
  result_text : str; result_error : option str; result_steps : jsnum; result_trace : TurnTrace }.

(** The reply of [eventTurn]. *)
Record EventResult := MkEventResult {
  eresult_text : str; eresult_hits : list EventHit; eresult_model : str; eresult_error : option str }.

Inductive TurnKind :=
| AskTurn
| EventTurn (ctx : EventTurnContext)
| ChatTurn (viewName : option str).

(** Where a call of [send] is suspended. *)
Inductive Phase :=
| AwaitTuning
| AwaitCall
| AwaitUi (result : TurnResult).

(** The locals of a call of [send]. *)
Record Turn := MkTurnInFlight {
  t_kind : TurnKind; t_trimmed : str; t_placeholder : str; t_turnId : str; t_settings : ChatSettings;
  t_history : list (Role * str); t_phase : Phase }.

(** A request on the wire. *)
Record Request := MkRequest {
  q_kind : TurnKind; q_turnId : str; q_settings : ChatSettings; q_tuning : FinetuningSettings;
  q_history : list (Role * str); q_user : str }.

Record ChatState := MkChatState {
  messages : list ChatMessage; busy : bool; activeChatId : option str;
  pendingId : option str; activeTurnId : option str; chatIdRef : option str; createdAtRef : option str;
  turns : list Turn; tabs : TabsSnapshot;
  requests : list Request; records : list TurnRecord; saved : list PersistedChat; cancels : list str }.

Definition initial : ChatState :=
  MkChatState [] false None None None None None [] computeInitial [] [] [] [].

Inductive AgentEvent :=
| ToolCallStart
| ToolCallEnd
| TabOpen (contextName : str) (rows : jsval) (viewName : option str)
| AssistantMessage (text : str)
| AgentError (message : str)
| Cancelled.

(** The render a callback closes over. *)
Record Closure := MkClosure { c_busy : bool; c_messages : list ChatMessage; c_settings : ChatSettings }.

(** * Updates *)

Definition with_messages (ms : list ChatMessage) (s : ChatState) : ChatState :=
  MkChatState ms (busy s) (activeChatId s) (pendingId s) (activeTurnId s) (chatIdRef s) (createdAtRef s)
    (turns s) (tabs s) (requests s) (records s) (saved s) (cancels s).

Definition with_chat (id createdAt : option str) (s : ChatState) : ChatState :=
  MkChatState (messages s) (busy s) id (pendingId s) (activeTurnId s) id createdAt
    (turns s) (tabs s) (requests s) (records s) (saved s) (cancels s).

(** The busy flag and the two refs of the turn, with the calls in flight. *)
Definition with_turn (b : bool) (pending turnId : option str) (ts : list Turn) (s : ChatState) : ChatState :=
  MkChatState (messages s) b (activeChatId s) pending turnId (chatIdRef s) (createdAtRef s)
    ts (tabs s) (requests s) (records s) (saved s) (cancels s).

Definition on_tabs (f : TabsSnapshot → TabsSnapshot) (s : ChatState) : ChatState :=
  MkChatState (messages s) (busy s) (activeChatId s) (pendingId s) (activeTurnId s) (chatIdRef s)
    (createdAtRef s) (turns s) (f (tabs s)) (requests s) (records s) (saved s) (cancels s).

(** The traces only grow. *)
Definition log (qs : list Request) (rs : list TurnRecord) (cs : list PersistedChat) (xs : list str)
    (s : ChatState) : ChatState :=
  MkChatState (messages s) (busy s) (activeChatId s) (pendingId s) (activeTurnId s) (chatIdRef s)
    (createdAtRef s) (turns s) (tabs s) (requests s ++ qs) (records s ++ rs) (saved s ++ cs)
    (cancels s ++ xs).

(** [patchAssistant] *)
Definition fill (id text : str) (now : Now) (ms : list ChatMessage) : list ChatMessage :=
  map (λ m, if decide (msg_id m = id)
            then MkMessage (msg_id m) (msg_role m) text (formatNow now) (msg_turnId m) (msg_model m)
                   (msg_durationMs m) (msg_usage m)
            else m) ms.

Definition patchAssistant (id text : str) (now : Now) (s : ChatState) : ChatState :=
  with_messages (fill id text now (messages s)) s.

(** [patchAssistantTelemetry] *)
Definition footer (id turnId model : str) (durationMs : jsnum) (usage : Usage)
    (ms : list ChatMessage) : list ChatMessage :=
  map (λ m, if decide (msg_id m = id)
            then MkMessage (msg_id m) (msg_role m) (msg_text m) (msg_ts m) (Some turnId) (Some model)
                   (Some durationMs) (Some usage)
            else m) ms.

Definition patchAssistantTelemetry (t : Turn) (r : TurnResult) (s : ChatState) : ChatState :=
  with_messages (footer (t_placeholder t) (t_turnId t) (llmModel (t_settings t))
                   (trace_durationMs (result_trace r)) (trace_usage (result_trace r)) (messages s)) s.

(** * [send], up to its first [await] *)

(** [s.replace(/[:.]/g, "-").replace(/Z$/, "")] on a time stamp *)
Definition stamp_slug (iso : str) : str :=
  let dashed := map (λ c, if bool_decide (c ∈ [58; 46]%N) then 45%N else c) iso in
  if bool_decide (last dashed = Some 90%N) then take (length dashed - 1) dashed else dashed.

(** [createChatId]; [rand] is the slice of [Math.random]. *)
Definition createChatId (rand : str) (now : Now) : str :=
  #"chat_" ++ stamp_slug (now_iso now) ++ #"_" ++ rand.

(** The chat id the first send of a chat mints. *)
Definition mint (rand : str) (now : Now) (s : ChatState) : ChatState :=
  match chatIdRef s with
  | None => with_chat (Some (createChatId rand now)) (Some (now_iso now)) s
  | Some _ => s
  end.

Definition user_id (now : Now) : str := #"u_" ++ show_N (now_ms now).
Definition placeholder_id (now : Now) : str := #"a_" ++ show_N (now_ms now).
Definition turn_id_of (now : Now) : str := #"turn_" ++ show_N (now_ms now).

Definition plain_message (id : str) (role : Role) (text : str) (now : Now) : ChatMessage :=
  MkMessage id role text (formatNow now) None None None None.

Definition turn_kind (viewName : option str) (eventCtx : option EventTurnContext) (askMode : bool)
    : TurnKind :=
  if askMode then AskTurn
  else match eventCtx with Some ctx => EventTurn ctx | None => ChatTurn viewName end.

(** The history is read off the closure, except by an event turn, which
    sends none. *)
Definition turn_history (k : TurnKind) (ms : list ChatMessage) : list (Role * str) :=
  match k with EventTurn _ => [] | _ => toAgentHistory ms end.

(** The locals of the call: the history is read off the closure. *)
Definition new_turn (c : Closure) (trimmed : str) (k : TurnKind) (now : Now) : Turn :=
  MkTurnInFlight k trimmed (placeholder_id now) (turn_id_of now) (c_settings c)
    (turn_history k (c_messages c)) AwaitTuning.

Definition send (c : Closure) (text : str) (viewName : option str) (eventCtx : option EventTurnContext)
    (askMode : bool) (rand : str) (now : Now) (s : ChatState) : ChatState :=
  let trimmed := trim text in
  if bool_decide (trimmed = []) || c_busy c then s
  else
    let s := mint rand now s in
    let s := with_messages (messages s ++ [plain_message (user_id now) RUser trimmed now;
                                           plain_message (placeholder_id now) RAssistant #"…" now]) s in
    with_turn true (Some (placeholder_id now)) (Some (turn_id_of now))
      (turns s ++ [new_turn c trimmed (turn_kind viewName eventCtx askMode) now]) s.

(** * [send], after its [await]s *)

Definition set_phase (p : Phase) (t : Turn) : Turn :=
  MkTurnInFlight (t_kind t) (t_trimmed t) (t_placeholder t) (t_turnId t) (t_settings t) (t_history t) p.

Definition suspend (i : nat) (p : Phase) (t : Turn) (s : ChatState) : ChatState :=
  with_turn (busy s) (pendingId s) (activeTurnId s) (<[i := set_phase p t]> (turns s)) s.

(** The [finally] block. *)
Definition finish (i : nat) (s : ChatState) : ChatState :=
  with_turn false None None (delete i (turns s)) s.

(** A string is true when it is not empty. *)
Definition truthy_string (o : option str) : option str :=
  match o with Some [] => None | _ => o end.

Definition failure (msg : str) : str := #"Fehler: " ++ msg.

Definition view_hint (k : TurnKind) : option str := match k with ChatTurn v => v | _ => None end.

Definition turn_steps_of (t : Turn) (r : TurnResult) : jsnum :=
  match t_kind t with AskTurn => num_of_Z 0 | _ => result_steps r end.

(** [result.error ? `Fehler: ...` : (result.text || "")] *)
Definition final_text (r : TurnResult) : str :=
  match truthy_string (result_error r) with Some e => failure e | None => result_text r end.

(** The record of a turn that returned. *)
Definition turn_record (t : Turn) (r : TurnResult) (s : ChatState) : TurnRecord :=
  let tr := result_trace r in
  MkTurn (MkTurnFields (t_turnId t) (chatIdRef s) (trace_startedAt tr) (trace_finishedAt tr) (trace_durationMs tr)
            (llmModel (t_settings t)) (llmBaseUrl (t_settings t)) (t_trimmed t)
            (view_hint (t_kind t)) (final_text r) (trace_status tr) (turn_steps_of t r)
            (trace_errorMessage tr))
    (trace_toolCalls tr) (usage_value (trace_usage tr)).

(** The record of a chat turn whose call threw. *)
Definition error_record (t : Turn) (msg : str) (now : Now) (s : ChatState) : TurnRecord :=
  MkTurn (MkTurnFields (t_turnId t) (chatIdRef s) (now_iso now) (now_iso now) (num_of_Z 0)
            (llmModel (t_settings t)) (llmBaseUrl (t_settings t)) (t_trimmed t) (view_hint (t_kind t))
            (failure msg) #"error" (num_of_Z 0) (Some msg))
    (VArr []) zero_usage.

(** The request that follows [loadFinetuning]. *)
Definition request (t : Turn) (tuning : FinetuningSettings) : Request :=
  MkRequest (t_kind t) (t_turnId t) (t_settings t) tuning (t_history t) (t_trimmed t).

Definition save_turn (r : TurnRecord) : ChatState → ChatState := log [] [r] [] [].

(** The [catch] block, then [finally]: only a chat turn leaves a record. *)
Definition send_threw (i : nat) (t : Turn) (msg : str) (now : Now) (s : ChatState) : ChatState :=
  let s := patchAssistant (t_placeholder t) (failure msg) now s in
  let s := match t_kind t with ChatTurn _ => save_turn (error_record t msg now s) s | _ => s end in
  finish i s.

(** An ask turn whose reply carries an error. *)
Definition ask_failed (i : nat) (t : Turn) (r : TurnResult) (err : str) (now : Now) (s : ChatState)
    : ChatState :=
  let s := patchAssistant (t_placeholder t) (failure err) now s in
  finish i (save_turn (turn_record t r s) s).

(** An ask turn once [loadUiState] is there. *)
Definition ask_answered (i : nat) (t : Turn) (r : TurnResult) (ui : UiState) (now : Now) (s : ChatState)
    : ChatState :=
  let s := if ui_askToTab ui
           then patchAssistant (t_placeholder t) #"_Antwort in neuem Tab geöffnet._" now
                  (on_tabs (addAskResult (t_trimmed t) (result_text r) (llmModel (t_settings t)) (now_ms now)) s)
           else patchAssistant (t_placeholder t) (result_text r) now s in
  let s := patchAssistantTelemetry t r s in
  finish i (save_turn (turn_record t r s) s).

(** The bubble of an event turn: the answer and a pointer to the tab. *)
Definition event_bubble (r : EventResult) : str :=
  let tail := if bool_decide (length (eresult_hits r) = 1) then #"1 Treffer im neuen Tab."
              else show_nat (length (eresult_hits r)) ++ #" Treffer im neuen Tab." in
  if decide (eresult_text r = []) then #"_" ++ tail ++ #"_"
  else eresult_text r ++ [10; 10]%N ++ #"_" ++ tail ++ #"_".

Definition event_answered (i : nat) (t : Turn) (ctx : EventTurnContext) (r : EventResult) (now : Now)
    (s : ChatState) : ChatState :=
  finish i
    match truthy_string (eresult_error r) with
    | Some err => patchAssistant (t_placeholder t) (failure err) now s
    | None =>
      patchAssistant (t_placeholder t) (event_bubble r) now
        (on_tabs (addEventResult (ctx_mapping ctx) (ctx_streamId ctx) (t_trimmed t) (eresult_text r)
                    (eresult_hits r) (eresult_model r) (now_ms now)) s)
    end.

Definition chat_answered (i : nat) (t : Turn) (r : TurnResult) (now : Now) (s : ChatState) : ChatState :=
  let s := match truthy_string (result_error r) with
           | Some err => patchAssistant (t_placeholder t) (failure err) now s
           | None => if decide (result_text r = []) then s
                     else patchAssistant (t_placeholder t) (result_text r) now s
           end in
  let s := save_turn (turn_record t r s) s in
  finish i (patchAssistantTelemetry t r s).

(** * The other callbacks *)

(** [onAgentEvent] *)
Definition onAgentEvent (e : AgentEvent) (now : Now) (s : ChatState) : ChatState :=
  match e with
  | TabOpen ctx rows view =>
    on_tabs (addGraphqlResult ctx [] (VObj [(ctx, rows)]) view (now_ms now)) s
  | AssistantMessage text =>
    match pendingId s with
    | Some id => patchAssistant id (or_default text #"(leere Antwort)") now s
    | None => s
    end
  | AgentError message =>
    match pendingId s with
    | Some id => patchAssistant id (failure message) now s
    | None => s
    end
  | ToolCallStart | ToolCallEnd | Cancelled => s
  end.

Definition cancel (s : ChatState) : ChatState :=
  match activeTurnId s with Some t => log [] [] [] [t] s | None => s end.

Definition newChat (s : ChatState) : ChatState := with_messages [] (with_chat None None s).

(** [loadChatById] once the row is there. *)
Definition loadChatById (chat : option PersistedChat) (s : ChatState) : ChatState :=
  match chat with
  | None => s
  | Some c => with_messages (chat_messages c) (with_chat (Some (chat_id c)) (Some (chat_createdAt c)) s)
  end.

(** The chat the auto-save effect writes. *)
Definition autosave (now : Now) (s : ChatState) : ChatState :=
  match chatIdRef s with
  | None => s
  | Some id =>
    if decide (messages s = []) then s
    else log [] [] [MkChat id (deriveTitle (messages s)) (default (now_iso now) (createdAtRef s))
                      (now_iso now) (messages s)] [] s
  end.

(** * Steps *)

(** What the environment delivers next. *)
Inductive Event :=
| Send (c : Closure) (text : str) (viewName : option str) (eventCtx : option EventTurnContext)
    (askMode : bool) (rand : str)
| TuningLoaded (i : nat) (tuning : FinetuningSettings)
| AskReturned (i : nat) (r : TurnResult)
| EventReturned (i : nat) (r : EventResult)
| ChatReturned (i : nat) (r : TurnResult)
| UiLoaded (i : nat) (ui : UiState)
| Threw (i : nat) (msg : str)
| Agent (e : AgentEvent)
| Cancel
| NewChat
| ChatLoaded (chat : option PersistedChat).

(** The continuation of the [i]-th call of [send], where it waits for what
    happened. *)
Definition resume (e : Event) (now : Now) (s : ChatState) : option ChatState :=
  match e with
  | TuningLoaded i tuning =>
    t ← turns s !! i;
    match t_phase t with
    | AwaitTuning => Some (log [request t tuning] [] [] [] (suspend i AwaitCall t s))
    | _ => None
    end
  | AskReturned i r =>
    t ← turns s !! i;
    match t_phase t, t_kind t with
    | AwaitCall, AskTurn =>
      Some match truthy_string (result_error r) with
           | Some err => ask_failed i t r err now s
           | None => suspend i (AwaitUi r) t s
           end
    | _, _ => None
    end
  | EventReturned i r =>
    t ← turns s !! i;
    match t_phase t, t_kind t with
    | AwaitCall, EventTurn ctx => Some (event_answered i t ctx r now s)
    | _, _ => None
    end
  | ChatReturned i r =>
    t ← turns s !! i;
    match t_phase t, t_kind t with
    | AwaitCall, ChatTurn _ => Some (chat_answered i t r now s)
    | _, _ => None
    end
  | UiLoaded i ui =>
    t ← turns s !! i;
    match t_phase t with
    | AwaitUi r => Some (ask_answered i t r ui now s)
    | _ => None
    end
  | Threw i msg =>
    t ← turns s !! i; Some (send_threw i t msg now s)
  | _ => None
  end.

Definition handle (e : Event) (now : Now) (s : ChatState) : option ChatState :=
  match e with
  | Send c text viewName eventCtx askMode rand => Some (send c text viewName eventCtx askMode rand now s)
  | Agent a => Some (onAgentEvent a now s)
  | Cancel => Some (cancel s)
  | NewChat => Some (newChat s)
  | ChatLoaded chat => Some (loadChatById chat s)
  | e => resume e now s
  end.

(** The effect on [[busy]]: it runs when the commit changed the flag, and
    saves when the flag fell. *)
Definition commit (now : Now) (old new : ChatState) : ChatState :=
  if busy old && negb (busy new) then autosave now new else new.

Definition step (e : Event) (now : Now) (s : ChatState) : option ChatState :=
  commit now s <$> handle e now s.

(** A callback made in the render on screen. *)
Definition current (s : ChatState) (settings : ChatSettings) : Closure :=
  MkClosure (busy s) (messages s) settings.

Definition fresh (e : Event) (s : ChatState) : Prop :=
  match e with Send c _ _ _ _ _ => c = current s (c_settings c) | _ => True end.

(** Runs; [run] also gives the state they end in. *)
Fixpoint run (es : list (Event * Now)) (s : ChatState) : option ChatState :=
  match es with
  | [] => Some s
  | (e, now) :: es => step e now s ≫= run es
  end.

(** The states the hook can be in when every callback is current. *)
Inductive reachable : ChatState → Prop :=
| reachable_initial : reachable initial
| reachable_step e now s s' : reachable s → fresh e s → step e now s = Some s' → reachable s'.
