(* ===== verification/ChatTurnLaws.v ===== *)
(** What a chat turn guarantees: [ChatTurn.v] as a transition system.

    One turn at a time, every turn ends, what a turn leaves behind, and what
    becomes of a turn whose chat is replaced while it runs. *)

From S2P Require Export ChatTurn.

#[local] Set Warnings "-register-all".

(** * The turn in flight *)

(** Nothing runs and nothing is marked as running, or one turn runs and the
    busy flag and both refs are its own. *)
Definition ChatInv (s : ChatState) : Prop :=
  match turns s with
  | [] => busy s = false ∧ pendingId s = None ∧ activeTurnId s = None
  | [t] => busy s = true ∧ pendingId s = Some (t_placeholder t) ∧ activeTurnId s = Some (t_turnId t)
  | _ => False
  end.

(** The part of the state the invariant is about. *)
Definition turn_view (s : ChatState) : list Turn * bool * option str * option str :=
  (turns s, busy s, pendingId s, activeTurnId s).

Lemma ChatInv_view s s' : turn_view s = turn_view s' → ChatInv s → ChatInv s'.
Proof. unfold turn_view, ChatInv. intros [= -> -> -> ->]. done. Qed.

(** Saving and patching leave that part alone. *)
Lemma view_mint rand now s : turn_view (mint rand now s) = turn_view s.
Proof. unfold mint. by destruct (chatIdRef s). Qed.

Lemma view_autosave now s : turn_view (autosave now s) = turn_view s.
Proof. unfold autosave. destruct (chatIdRef s); [|done]. by destruct (decide _). Qed.

Lemma view_commit now s s' : turn_view (commit now s s') = turn_view s'.
Proof. unfold commit. destruct (_ && _); [apply view_autosave|done]. Qed.

Lemma view_finish i s s' : turns s = turns s' → turn_view (finish i s) = turn_view (finish i s').
Proof. unfold turn_view, finish, with_turn. cbn [turns busy pendingId activeTurnId]. by intros ->. Qed.

Lemma ChatInv_finish s i t s' : ChatInv s → turns s !! i = Some t → turns s' = turns s → ChatInv (finish i s').
Proof.
  intros HI Hi Ht. apply (ChatInv_view (finish i s)); [by apply view_finish|].
  unfold ChatInv in *. cbn [finish with_turn turns busy pendingId activeTurnId].
  destruct (turns s) as [|u [|]]; [done| |done]. by destruct i.
Qed.

Lemma ChatInv_suspend s i t p : ChatInv s → turns s !! i = Some t → ChatInv (suspend i p t s).
Proof.
  unfold ChatInv. cbn [suspend with_turn turns busy pendingId activeTurnId].
  destruct (turns s) as [|u [|]]; [done| |done]. by destruct i; [intros ? [= ->]|].
Qed.

Lemma resume_inv e now s s' : ChatInv s → resume e now s = Some s' → ChatInv s'.
Proof.
  intros HI. destruct e; cbn [resume]; try done;
    destruct (turns s !! i) as [t|] eqn:Hi; try done; cbn [mbind option_bind];
    repeat case_match; try done; intros [= <-];
    first [ by apply ChatInv_suspend
          | by apply (ChatInv_view (suspend i AwaitCall t s)), ChatInv_suspend
          | eapply ChatInv_finish; [done..|]; by repeat case_match ].
Qed.

Lemma busy_turn s : ChatInv s → busy s = true → ∃ t, turns s = [t].
Proof. unfold ChatInv. destruct (turns s) as [|t [|]]; [by intros (-> & _)|by exists t|done]. Qed.

Lemma idle_no_turn s : ChatInv s → busy s = false → turns s = [].
Proof. unfold ChatInv. destruct (turns s) as [|t [|]]; [done|by intros (-> & _)|done]. Qed.

Lemma handle_inv e now s s' : ChatInv s → fresh e s → handle e now s = Some s' → ChatInv s'.
Proof.
  intros HI Hf. destruct e; cbn [handle]; try (by apply resume_inv); intros [= <-].
  - unfold send. rewrite Hf. cbn [c_busy current].
    destruct (bool_decide _) eqn:Hb; [done|]. destruct (busy s) eqn:Hbusy; [done|]. cbn [orb].
    pose proof (idle_no_turn s HI Hbusy) as Ht.
    unfold ChatInv. cbn [with_turn with_messages turns busy pendingId activeTurnId].
    pose proof (view_mint rand now s) as [= -> _ _ _]. rewrite Ht. done.
  - apply (ChatInv_view s); [|done].
    destruct e; cbn [onAgentEvent]; try done; by destruct (pendingId s) eqn:E; rewrite ?E.
  - apply (ChatInv_view s); [|done]. unfold cancel. by destruct (activeTurnId s) eqn:E.
  - by apply (ChatInv_view s).
  - apply (ChatInv_view s); [|done]. by destruct chat.
Qed.

Lemma chat_reachable_inv s : reachable s → ChatInv s.
Proof.
  induction 1 as [|e now s s' _ IH Hf Hs]; [done|].
  unfold step in Hs. apply fmap_Some in Hs as (s1 & Hh & ->).
  apply (ChatInv_view s1); [symmetry; apply view_commit|by eapply handle_inv].
Qed.

(** C15: As long as every callback is the one of the render on screen, at most
    one turn is in flight; the busy flag says whether there is one; and the two
    refs name its bubble and its turn, so that streamed replies and the stop
    button reach the turn that runs, and nothing when none does. *)
Theorem one_turn_at_a_time s :
  reachable s →
  length (turns s) ≤ 1 ∧ (busy s = true ↔ turns s ≠ []) ∧
  (∀ t, t ∈ turns s → pendingId s = Some (t_placeholder t) ∧ activeTurnId s = Some (t_turnId t)) ∧
  (turns s = [] → pendingId s = None ∧ activeTurnId s = None).
Proof.
  intros HI%chat_reachable_inv. unfold ChatInv in HI. destruct (turns s) as [|t [|]]; [| |done].
  - destruct HI as (-> & -> & ->). split_and!; [cbn; lia|done| |done]. by intros t ?%elem_of_nil.
  - destruct HI as (-> & -> & ->). split_and!; [cbn; lia|done| |done]. by intros u ->%list_elem_of_singleton.
Qed.

(** * Every turn ends *)

(** What the turn in flight is waiting for. *)
Definition awaited (t : Turn) (e : Event) : bool :=
  match e, t_phase t, t_kind t with
  | TuningLoaded O _, AwaitTuning, _ => true
  | AskReturned O _, AwaitCall, AskTurn => true
  | EventReturned O _, AwaitCall, EventTurn _ => true
  | ChatReturned O _, AwaitCall, ChatTurn _ => true
  | UiLoaded O _, AwaitUi _, _ => true
  | Threw O _, _, _ => true
  | _, _, _ => false
  end.

(** An answer to an [await]. *)
Definition is_answer (e : Event) : bool :=
  match e with
  | TuningLoaded _ _ | AskReturned _ _ | EventReturned _ _ | ChatReturned _ _ | UiLoaded _ _
  | Threw _ _ => true
  | _ => false
  end.

Definition answers (es : list (Event * Now)) : nat := length (filter (λ p, is_answer p.1 = true) es).

(** How many answers a call of [send] still waits for at most. *)
Definition phase_rank (p : Phase) : nat :=
  match p with AwaitTuning => 3 | AwaitCall => 2 | AwaitUi _ => 1 end.

Definition pending_answers (s : ChatState) : nat :=
  match turns s with t :: _ => phase_rank (t_phase t) | [] => 0 end.

(** Every callback of the run is current when it is called. *)
Fixpoint fresh_run (es : list (Event * Now)) (s : ChatState) : Prop :=
  match es with
  | [] => True
  | (e, now) :: es => fresh e s ∧ match step e now s with Some s' => fresh_run es s' | None => True end
  end.

Lemma awaited_answer t e : awaited t e = true → is_answer e = true.
Proof. by destruct e. Qed.

(** The answer a turn waits for is taken, and no other. *)
Lemma resume_awaited s t e now :
  turns s = [t] → is_answer e = true → is_Some (handle e now s) ↔ awaited t e = true.
Proof.
  intros Ht Ha. destruct e; try done; cbn [handle resume awaited]; rewrite Ht;
    destruct i; cbn [lookup list_lookup mbind option_bind];
    try (destruct (t_phase t); try destruct (t_kind t)); (split; [intros [? [=]]; done|done || eauto]).
Qed.

Lemma handle_other s e now s' :
  is_answer e = false → fresh e s → busy s = true → handle e now s = Some s' → turn_view s' = turn_view s.
Proof.
  intros Ha Hf Hb. destruct e; try done; cbn [handle]; intros [= <-].
  - unfold send. rewrite Hf. cbn [c_busy current]. by rewrite Hb, orb_true_r.
  - destruct e; cbn [onAgentEvent]; try done; by destruct (pendingId s) eqn:E.
  - unfold cancel. by destruct (activeTurnId s) eqn:E.
  - done.
  - by destruct chat.
Qed.

(** An answer ends the turn or takes it one phase on. *)
Lemma resume_progress s t e now s' :
  turns s = [t] → is_answer e = true → handle e now s = Some s' →
  turns s' = [] ∨ ∃ p, turns s' = [set_phase p t] ∧ phase_rank p < phase_rank (t_phase t).
Proof.
  intros Ht Ha. destruct e; try done; cbn [handle resume]; rewrite Ht;
    destruct i; cbn [lookup list_lookup mbind option_bind]; try done;
    repeat case_match; try done; intros [= <-];
    first [ right; eexists; split; [cbn [log suspend with_turn turns]; by rewrite Ht|cbn [phase_rank]; lia]
          | left; unfold send_threw, ask_failed, ask_answered, event_answered, chat_answered;
            repeat case_match; cbn; by rewrite Ht ].
Qed.

Lemma step_handle e now s s' : step e now s = Some s' → ∃ s1, handle e now s = Some s1 ∧ turn_view s' = turn_view s1.
Proof.
  unfold step. intros (s1 & Hh & ->)%fmap_Some. exists s1. split; [done|apply view_commit].
Qed.

Lemma pending_view s s' : turn_view s = turn_view s' → pending_answers s = pending_answers s'.
Proof. unfold turn_view, pending_answers. by intros [= -> _ _ _]. Qed.

Lemma answers_cons e now es : answers ((e, now) :: es) = (if is_answer e then 1 else 0) + answers es.
Proof. unfold answers. rewrite filter_cons. cbn [fst]. by destruct (is_answer e). Qed.

(** One step of a busy state: it is over, or it waits for less. *)
Lemma busy_step e now s s' :
  reachable s → busy s = true → fresh e s → step e now s = Some s' →
  busy s' = false ∨ pending_answers s' + (if is_answer e then 1 else 0) ≤ pending_answers s.
Proof.
  intros Hr Hb Hf Hs. pose proof (chat_reachable_inv s Hr) as HI.
  assert (ChatInv s') as HI' by (apply chat_reachable_inv; by econstructor).
  apply step_handle in Hs as (s1 & Hh & Hv). destruct (is_answer e) eqn:Ha.
  - destruct (busy_turn s HI Hb) as [t Ht].
    apply (resume_progress s t) in Hh; [|done..].
    assert (turns s' = turns s1) as Ht' by by injection Hv.
    unfold pending_answers, ChatInv in *. rewrite Ht' in *. rewrite Ht.
    destruct Hh as [E|(p & E & Hp)]; rewrite E in *; [left; by destruct HI'|right].
    cbn [t_phase set_phase]. lia.
  - right. apply handle_other in Hh; [|done..]. rewrite <- Hv in Hh. apply pending_view in Hh. lia.
Qed.

Lemma turn_ends es : ∀ s s',
  reachable s → run es s = Some s' → fresh_run es s → pending_answers s ≤ answers es →
  ∃ es1 es2 s1, es = es1 ++ es2 ∧ run es1 s = Some s1 ∧ busy s1 = false.
Proof.
  induction es as [|[e now] es IH]; intros s s' Hr Hrun Hf Hn.
  all: destruct (busy s) eqn:Hb; [|eexists [], _, s; by split_and!].
  - destruct (busy_turn s (chat_reachable_inv s Hr) Hb) as [t Ht].
    unfold pending_answers in Hn. rewrite Ht in Hn. change (answers []) with 0 in Hn.
    destruct (t_phase t); cbn [phase_rank] in Hn; lia.
  - cbn [run] in Hrun. cbn [fresh_run] in Hf. destruct Hf as [Hf Hfs]. rewrite answers_cons in Hn.
    destruct (step e now s) as [s1|] eqn:Hs; [|done]. cbn [mbind option_bind] in Hrun.
    destruct (busy_step e now s s1 Hr Hb Hf Hs) as [Hb1|Hlt].
    + exists [(e, now)], es, s1. split_and!; [done| |done]. cbn [run]. by rewrite Hs.
    + destruct (IH s1 s') as (es1 & es2 & s2 & -> & Hr2 & Hb2); [by econstructor|done..|lia|].
      exists ((e, now) :: es1), es2, s2. split_and!; [done| |done]. cbn [run]. by rewrite Hs.
Qed.

(** C16: A turn never blocks and never runs on: while the chat is busy there
    is one turn, it takes exactly the answers its [await] stands for, whatever
    they hold and failures included, and any run with three answers in it
    passes through a state in which the chat is idle again. *)
Theorem every_turn_ends s :
  reachable s → busy s = true →
  (∃ t, turns s = [t] ∧ ∀ e now, is_answer e = true → is_Some (step e now s) ↔ awaited t e = true) ∧
  (∀ es s', run es s = Some s' → fresh_run es s → 3 ≤ answers es →
     ∃ es1 es2 s1, es = es1 ++ es2 ∧ run es1 s = Some s1 ∧ busy s1 = false).
Proof.
  intros Hr Hb. destruct (busy_turn s (chat_reachable_inv s Hr) Hb) as [t Ht]. split.
  - exists t. split; [done|]. intros e now Ha. unfold step. rewrite fmap_is_Some. by apply resume_awaited.
  - intros es s' Hrun Hf Hn. eapply turn_ends; [done..|]. unfold pending_answers. rewrite Ht.
    destruct (t_phase t); cbn [phase_rank]; lia.
Qed.

(** * What a turn leaves behind *)

(** Patching a bubble that is not there does nothing. *)
Lemma fill_absent id text now ms : id ∉ (msg_id <$> ms) → fill id text now ms = ms.
Proof.
  intros H. induction ms as [|m ms IH]; [done|]. rewrite fmap_cons, not_elem_of_cons in H. destruct H as [Hm H].
  cbn [fill map]. rewrite decide_False by congruence. f_equal. by apply IH.
Qed.

Lemma footer_absent id turnId model d u ms : id ∉ (msg_id <$> ms) → footer id turnId model d u ms = ms.
Proof.
  intros H. induction ms as [|m ms IH]; [done|]. rewrite fmap_cons, not_elem_of_cons in H. destruct H as [Hm H].
  cbn [footer map]. rewrite decide_False by congruence. f_equal. by apply IH.
Qed.

(** The scrollback of a turn: an old part that the turn does not name, and
    its bubble. *)
Definition bubble (id : str) (old : list ChatMessage) (text : str) (ms : list ChatMessage) : Prop :=
  ∃ b, ms = old ++ [b] ∧ msg_id b = id ∧ msg_role b = RAssistant ∧ msg_text b = text.

Lemma bubble_fill id old text text' now ms :
  id ∉ (msg_id <$> old) → bubble id old text ms → bubble id old text' (fill id text' now ms).
Proof.
  intros Hold (b & -> & Hid & Hr & Ht). unfold fill. rewrite map_app. fold (fill id text' now old).
  rewrite fill_absent by done. cbn [map]. rewrite decide_True by done. eexists. by split_and!.
Qed.

Lemma bubble_footer id old text turnId model d u ms :
  id ∉ (msg_id <$> old) → bubble id old text ms → bubble id old text (footer id turnId model d u ms).
Proof.
  intros Hold (b & -> & Hid & Hr & Ht). unfold footer. rewrite map_app. fold (footer id turnId model d u old).
  rewrite footer_absent by done. cbn [map]. rewrite decide_True by done. eexists. by split_and!.
Qed.

(** The state a turn ends in, field by field. *)
Ltac turn_end :=
  unfold ask_failed, ask_answered, event_answered, chat_answered, send_threw, patchAssistantTelemetry;
  cbn [finish with_turn turns busy pendingId activeTurnId messages requests records saved chatIdRef
       createdAtRef save_turn log patchAssistant with_messages on_tabs set_phase t_placeholder t_turnId
       t_settings t_trimmed t_kind];
  rewrite ?app_nil_r.

(** Nothing replaces the scrollback. *)
Definition undisturbed (e : Event) : bool := match e with NewChat | ChatLoaded _ => false | _ => true end.

(** What the bubble of a turn ends up saying; an empty chat reply leaves it
    as it is. *)
Definition reply_text (t : Turn) (e : Event) : option str :=
  match e, t_phase t with
  | AskReturned _ r, _ => failure <$> truthy_string (result_error r)
  | UiLoaded _ ui, AwaitUi r =>
    Some (if ui_askToTab ui then #"_Antwort in neuem Tab geöffnet._" else result_text r)
  | EventReturned _ r, _ =>
    Some (match truthy_string (eresult_error r) with Some err => failure err | None => event_bubble r end)
  | ChatReturned _ r, _ =>
    match truthy_string (result_error r) with Some err => Some (failure err) | None => truthy_string (Some (result_text r)) end
  | Threw _ msg, _ => Some (failure msg)
  | _, _ => None
  end.

Section in_turn.
(** A turn [t0] sent from a state with requests [qs0], records [rs0] and saved
    chats [cs0], in the chat [id], after the messages [old]. *)
Context (t0 : Turn) (old : list ChatMessage) (id : str) (created : option str)
  (qs0 : list Request) (rs0 : list TurnRecord) (cs0 : list PersistedChat).
Context (Hold : t_placeholder t0 ∉ (msg_id <$> old)).

Definition asked (p : Phase) (qs : list Request) : Prop :=
  match p with
  | AwaitTuning => qs = qs0
  | AwaitCall => ∃ tuning, qs = qs0 ++ [request t0 tuning]
  | AwaitUi _ => t_kind t0 = AskTurn ∧ ∃ tuning, qs = qs0 ++ [request t0 tuning]
  end.

Record InTurn (s : ChatState) : Prop := MkInTurn {
  in_turn : ∃ p, turns s = [set_phase p t0] ∧ asked p (requests s);
  in_messages : ∃ text, bubble (t_placeholder t0) old text (messages s);
  in_flags : busy s = true ∧ pendingId s = Some (t_placeholder t0);
  in_chat : chatIdRef s = Some id ∧ createdAtRef s = created;
  in_traces : records s = rs0 ∧ saved s = cs0 }.

(** The rows a turn leaves: one from a chat turn, none from an event turn, and
    what they say. *)
Definition left_rows (rs : list TurnRecord) : Prop :=
  ∃ new, rs = rs0 ++ new ∧
    (match t_kind t0 with ChatTurn _ => length new = 1 | EventTurn _ => new = [] | AskTurn => length new ≤ 1 end) ∧
    Forall (λ r, turn_id (turn_fields r) = t_turnId t0 ∧ turn_chatId (turn_fields r) = Some id ∧
                 turn_userText (turn_fields r) = t_trimmed t0) new.

Record TurnOver (text : str) (now : Now) (s : ChatState) : Prop := MkTurnOver {
  over_idle : turns s = [] ∧ busy s = false ∧ pendingId s = None ∧ activeTurnId s = None;
  over_bubble : bubble (t_placeholder t0) old text (messages s);
  over_request : ∃ p, asked p (requests s);
  over_rows : left_rows (records s);
  over_saved : saved s = cs0 ++ [MkChat id (deriveTitle (messages s)) (default (now_iso now) created)
                                   (now_iso now) (messages s)] }.

(** Events around the turn leave it as it is. *)
Lemma other_in_turn s e now s' :
  InTurn s → is_answer e = false → undisturbed e = true → fresh e s → handle e now s = Some s' → InTurn s'.
Proof.
  intros [(p & Ht & Hq) (text & Hm) [Hb Hp] Hc Htr] Ha Hu Hf. destruct e; try done; cbn [handle]; intros [= <-].
  - unfold send. rewrite Hf. cbn [c_busy current]. rewrite Hb, orb_true_r. by constructor; eauto.
  - destruct e; cbn [onAgentEvent]; rewrite ?Hp; (constructor; [by eauto| |done..]); cbn [patchAssistant with_messages messages on_tabs];
      eauto using bubble_fill.
  - unfold cancel. destruct (activeTurnId s); [|by constructor; eauto].
    constructor; [|by eauto|done|done|]; cbn [log turns requests records saved]; rewrite !app_nil_r; eauto.
Qed.

(** The chat is saved when the turn is over. *)
Lemma over_commit s s1 now text :
  busy s = true → turns s1 = [] → busy s1 = false → pendingId s1 = None → activeTurnId s1 = None →
  bubble (t_placeholder t0) old text (messages s1) →
  (∃ p, asked p (requests s1)) → left_rows (records s1) → saved s1 = cs0 →
  chatIdRef s1 = Some id → createdAtRef s1 = created →
  TurnOver text now (commit now s s1).
Proof.
  intros Hb Ht1 Hb1 Hp1 Ha1 Hm Hq Hr Hs Hid Hc. unfold commit. rewrite Hb, Hb1. cbn [negb andb].
  unfold autosave. rewrite Hid. rewrite decide_False.
  2: { destruct Hm as (b & -> & _). by destruct old. }
  constructor; cbn [log turns busy pendingId activeTurnId messages requests records saved];
    rewrite ?app_nil_r, ?Hs, ?Hc; by split_and?.
Qed.

Lemma left_one r s :
  (∀ ctx, t_kind t0 ≠ EventTurn ctx) → turn_id (turn_fields r) = t_turnId t0 →
  turn_chatId (turn_fields r) = Some id → turn_userText (turn_fields r) = t_trimmed t0 →
  records s = rs0 → left_rows (records s ++ [r]).
Proof.
  intros Hk H1 H2 H3 ->. exists [r]. split_and!; [done| |by repeat constructor].
  destruct (t_kind t0) eqn:E; [done|by destruct (Hk ctx)|done].
Qed.

Lemma left_none s : (∀ v, t_kind t0 ≠ ChatTurn v) → records s = rs0 → left_rows (records s).
Proof.
  intros Hk ->. exists []. rewrite app_nil_r. split_and!; [done| |done].
  destruct (t_kind t0) eqn:E; [cbn; lia|done|by destruct (Hk viewName)].
Qed.

Ltac bubble_end text :=
  cbn [option_fmap option_map default from_option fmap];
  repeat first [eassumption | eapply bubble_fill; [done|] | eapply bubble_footer; [done|]].

Ltac turn_over t0 text Ht Hk p :=
  apply over_commit; turn_end; try done;
  first [ by rewrite Ht | by exists p | by bubble_end text
        | by apply left_one; [by rewrite Hk|..] | by apply left_none; [by rewrite Hk|] | idtac ].

Lemma commit_busy now s s1 : busy s1 = true → commit now s s1 = s1.
Proof. intros H. unfold commit. by rewrite H, andb_false_r. Qed.

(** Each way a turn ends. *)
Lemma answer_in_turn s e now s' :
  InTurn s → is_answer e = true → step e now s = Some s' →
  (busy s' = true ∧ InTurn s') ∨
  ∃ p text, turns s = [set_phase p t0] ∧ bubble (t_placeholder t0) old text (messages s) ∧
    TurnOver (default text (reply_text (set_phase p t0) e)) now s'.
Proof.
  intros HI Ha Hs. pose proof HI as [(p & Ht & Hq) (text & Hm) [Hb Hp] [Hid Hc] [Hr Hsv]].
  unfold step in Hs. apply fmap_Some in Hs as (s1 & Hh & ->).
  destruct e; try done; cbn [handle resume] in Hh; rewrite Ht in Hh; destruct i; try done;
    cbn [lookup list_lookup mbind option_bind set_phase t_phase t_kind] in Hh.
  - left. destruct p; try done. injection Hh as <-. rewrite commit_busy by done. split; [done|].
    constructor; cbn [log suspend with_turn turns messages busy pendingId chatIdRef createdAtRef requests records saved];
      rewrite ?app_nil_r; [|by eauto|done|done|done].
    exists AwaitCall. rewrite Ht. split; [done|]. exists tuning. by rewrite Hq.
  - destruct p, (t_kind t0) eqn:Hk; try done. injection Hh as <-. destruct (truthy_string _) as [err|] eqn:Herr.
    + right. exists AwaitCall, text. split_and!; [done..|]. cbn [reply_text]. rewrite Herr. turn_over t0 text Ht Hk AwaitCall.
    + left. rewrite commit_busy by done. split; [done|].
      constructor; cbn [suspend with_turn turns messages busy pendingId chatIdRef createdAtRef requests records saved];
        [|by eauto|done|done|done].
      exists (AwaitUi r). rewrite Ht. split; [done|]. by split.
  - right. exists p, text. split_and!; [done..|]. destruct p, (t_kind t0) eqn:Hk; try done. injection Hh as <-. cbn [reply_text].
    unfold event_answered. destruct (truthy_string _) as [err|]; turn_over t0 text Ht Hk AwaitCall.
  - right. exists p, text. split_and!; [done..|]. destruct p, (t_kind t0) eqn:Hk; try done. injection Hh as <-. cbn [reply_text].
    unfold chat_answered. destruct (truthy_string (result_error r)) as [err|]; [turn_over t0 text Ht Hk AwaitCall|].
    destruct (result_text r) as [|c cs] eqn:Htext; cbn [truthy_string]; [rewrite decide_True by done|rewrite decide_False by done]; turn_over t0 text Ht Hk AwaitCall.
  - right. exists p, text. split_and!; [done..|]. destruct p; try done. injection Hh as <-. cbn [reply_text set_phase t_phase].
    unfold ask_answered. destruct Hq as [Hk Hq], (ui_askToTab ui); turn_over t0 text Ht Hk (AwaitUi result).
  - right. exists p, text. split_and!; [done..|]. injection Hh as <-. cbn [reply_text set_phase t_phase].
    unfold send_threw. cbn [set_phase t_kind]. destruct (t_kind t0) eqn:Hk; turn_over t0 text Ht Hk p.
Qed.
End in_turn.

(** The chat a turn sent now belongs to. *)
Definition chat_of (rand : str) (now : Now) (s : ChatState) : str := default (createChatId rand now) (chatIdRef s).
Definition created_of (now : Now) (s : ChatState) : option str :=
  match chatIdRef s with None => Some (now_iso now) | Some _ => createdAtRef s end.

Lemma user_id_placeholder now : placeholder_id now ≠ user_id now.
Proof. unfold placeholder_id, user_id. intros H. discriminate H. Qed.

(** Sending puts the turn in flight. *)
Lemma send_in_turn s settings text viewName eventCtx askMode rand now :
  ChatInv s → busy s = false → trim text ≠ [] →
  let t := new_turn (current s settings) (trim text) (turn_kind viewName eventCtx askMode) now in
  let question := plain_message (user_id now) RUser (trim text) now in
  ∃ s1, step (Send (current s settings) text viewName eventCtx askMode rand) now s = Some s1 ∧
    InTurn t (messages s ++ [question]) (chat_of rand now s) (created_of now s)
      (requests s) (records s) (saved s) s1.
Proof.
  intros HI Hb Hne t question. eexists. split; [reflexivity|].
  unfold send. cbn [c_busy current]. rewrite Hb, bool_decide_eq_false_2 by done. cbn [orb].
  rewrite commit_busy by done. pose proof (idle_no_turn s HI Hb) as Ht.
  assert (turns (mint rand now s) = []) as Htm.
  { pose proof (view_mint rand now s) as [= -> _ _ _]. done. }
  assert (messages (mint rand now s) = messages s ∧ requests (mint rand now s) = requests s ∧
          records (mint rand now s) = records s ∧ saved (mint rand now s) = saved s ∧
          chatIdRef (mint rand now s) = Some (chat_of rand now s) ∧
          createdAtRef (mint rand now s) = created_of now s) as (Hm & Hq & Hr & Hs & Hc & Hd).
  { unfold mint, chat_of, created_of. by destruct (chatIdRef s) eqn:E; cbn; rewrite ?E. }
  constructor; cbn [with_turn with_messages turns messages busy pendingId chatIdRef createdAtRef requests records saved].
  - exists AwaitTuning. by rewrite Htm, Hq.
  - exists #"…". rewrite Hm. exists (plain_message (placeholder_id now) RAssistant #"…" now).
    split_and!; [by rewrite <- app_assoc|done..].
  - done.
  - done.
  - done.
Qed.

(** The events while a turn runs, with nothing replacing the scrollback. *)
Fixpoint during (es : list (Event * Now)) (s : ChatState) : Prop :=
  match es with
  | [] => True
  | (e, now) :: es =>
    fresh e s ∧ undisturbed e = true ∧
    match step e now s with Some s' => busy s' = true ∧ during es s' | None => True end
  end.

Lemma run_in_turn t0 old id created qs0 rs0 cs0 es : ∀ s s',
  t_placeholder t0 ∉ (msg_id <$> old) → InTurn t0 old id created qs0 rs0 cs0 s → run es s = Some s' →
  during es s → InTurn t0 old id created qs0 rs0 cs0 s'.
Proof.
  induction es as [|[e now] es IH]; intros s s' Hold HI Hrun Hd; [by injection Hrun as <-|].
  cbn [run during] in *. destruct Hd as (Hf & Hu & Hd).
  destruct (step e now s) as [s1|] eqn:Hs; [|done]. cbn [mbind option_bind] in Hrun.
  destruct Hd as [Hb Hd]. eapply IH; [done| |done|done]. destruct (is_answer e) eqn:Ha.
  - destruct (answer_in_turn _ _ _ _ _ _ _ Hold _ _ _ _ HI Ha Hs) as [[_ H]|(p & text & _ & _ & H)]; [done|].
    destruct (over_idle _ _ _ _ _ _ _ _ _ _ H) as (_ & Hb' & _). congruence.
  - unfold step in Hs. apply fmap_Some in Hs as (s2 & Hh & ->).
    assert (InTurn t0 old id created qs0 rs0 cs0 s2) as H2 by by eapply other_in_turn.
    rewrite commit_busy; [done|]. apply H2.
Qed.

(** C17: What a turn leaves behind, whatever agent events, stop clicks and
    further sends come in while it runs: the scrollback is the old one, the
    question and one bubble with the reply of the call that ended the turn (or
    what it last showed, after an empty chat reply); at most one request went
    out, and it carried the transcript of the old scrollback; the turn's row is
    filed under this chat; and the chat, saved once, is exactly what is on
    screen. *)
Theorem turn_transcript s settings text viewName eventCtx askMode rand now es s1 s2 e now' s' :
  let t := new_turn (current s settings) (trim text) (turn_kind viewName eventCtx askMode) now in
  let question := plain_message (user_id now) RUser (trim text) now in
  reachable s → busy s = false → trim text ≠ [] → placeholder_id now ∉ (msg_id <$> messages s) →
  step (Send (current s settings) text viewName eventCtx askMode rand) now s = Some s1 →
  run es s1 = Some s2 → during es s1 →
  fresh e s2 → undisturbed e = true → step e now' s2 = Some s' → busy s' = false →
  ∃ p shown,
    turns s2 = [set_phase p t] ∧
    bubble (placeholder_id now) (messages s ++ [question]) shown (messages s2) ∧
    TurnOver t (messages s ++ [question]) (chat_of rand now s) (created_of now s)
      (requests s) (records s) (saved s) (default shown (reply_text (set_phase p t) e)) now' s'.
Proof.
  intros t question Hr Hb Hne Hfresh Hsend Hrun Hd Hf Hu Hs Hb'.
  destruct (send_in_turn s settings text viewName eventCtx askMode rand now) as (s1' & Hsend' & HI);
    [by apply chat_reachable_inv|done..|].
  rewrite Hsend' in Hsend. injection Hsend as ->. fold t question in HI.
  assert (t_placeholder t ∉ (msg_id <$> messages s ++ [question])) as Hold.
  { rewrite fmap_app, elem_of_app. intros [H|H]; [done|].
    apply list_elem_of_singleton in H. by apply (user_id_placeholder now). }
  apply (run_in_turn t _ _ _ _ _ _ es s1 s2 Hold HI Hrun) in Hd as HI2.
  destruct (is_answer e) eqn:Ha.
  - destruct (answer_in_turn _ _ _ _ _ _ _ Hold _ _ _ _ HI2 Ha Hs) as [[Hb2 _]|H]; [congruence|].
    destruct H as (p & shown & Ht & Hm & HO). by exists p, shown.
  - unfold step in Hs. apply fmap_Some in Hs as (s3 & Hh & ->).
    assert (InTurn t (messages s ++ [question]) (chat_of rand now s) (created_of now s)
      (requests s) (records s) (saved s) s3) as H3 by by eapply other_in_turn.
    rewrite commit_busy in Hb' by apply H3. destruct H3 as [_ _ [Hb3 _] _ _]. congruence.
Qed.

(** * A sample turn *)

Definition sample_settings : ChatSettings := MkChatSettings #"http://localhost:11434" #"nats" [] #"m".
Definition at_ms (n : N) : Now := MkNow n #"2026-01-02T10:05:00.000Z" 10 5.
Definition sample_trace : TurnTrace :=
  MkTrace #"2026" #"2026" (num_of_Z 7) (MkUsage (num_of_Z 1) (num_of_Z 2) (num_of_Z 3)) (VArr []) #"success" None.
Definition sample_result (text : str) : TurnResult := MkTurnResult text None (num_of_Z 1) sample_trace.
Definition sample_send (s : ChatState) (text : str) : Event :=
  Send (current s sample_settings) text None None false #"abcd".
Definition sample_sent : ChatState :=
  send (current initial sample_settings) #" Wer? " None None false #"abcd" (at_ms 1) initial.
Definition sample_called : ChatState :=
  default initial (run [(TuningLoaded 0 DEFAULT_FINETUNING, at_ms 2); (Agent (AssistantMessage #"Ich"), at_ms 3)] sample_sent).

(** The state after a run, when there is one. *)
Definition after (es : list (Event * Now)) (s : ChatState) : ChatState := default s (run es s).

Example sample_conversation :
  let s := after [(TuningLoaded 0 DEFAULT_FINETUNING, at_ms 2); (ChatReturned 0 (sample_result #"Ich."), at_ms 9)]
             sample_sent in
  let s2 := after [(sample_send s #"Wo?", at_ms 20); (TuningLoaded 0 DEFAULT_FINETUNING, at_ms 21);
                   (Threw 0 #"net", at_ms 25)] s in
  msg_text <$> messages s2 = [ #"Wer?"; #"Ich."; #"Wo?"; #"Fehler: net"] ∧
  q_history <$> requests s2 = [[]; [(RUser, #"Wer?"); (RAssistant, #"Ich.")]] ∧
  length (saved s2) = 2 ∧ length (records s2) = 2 ∧
  chatIdRef s2 = Some #"chat_2026-01-02T10-05-00-000_abcd".
Proof. vm_compute. by split_and!. Qed.

Lemma every_turn_ends_witness :
  ∃ t, turns sample_sent = [t] ∧
    ∀ e now, is_answer e = true → is_Some (step e now sample_sent) ↔ awaited t e = true.
Proof.
  apply (every_turn_ends sample_sent).
  - eapply (reachable_step (sample_send initial #" Wer? ") (at_ms 1) initial); [constructor|reflexivity|reflexivity].
  - reflexivity.
Defined.

Lemma one_turn_at_a_time_witness : length (turns sample_sent) ≤ 1.
Proof.
  apply (one_turn_at_a_time sample_sent).
  eapply (reachable_step (sample_send initial #" Wer? ") (at_ms 1) initial); [constructor|reflexivity|reflexivity].
Defined.

Definition sample_turn : Turn :=
  new_turn (current initial sample_settings) (trim #" Wer? ") (turn_kind None None false) (at_ms 1).
Definition sample_question : ChatMessage := plain_message (user_id (at_ms 1)) RUser (trim #" Wer? ") (at_ms 1).
Definition sample_answer : Event := ChatReturned 0 (sample_result #"Ich.").
Definition sample_over : ChatState := after [(sample_answer, at_ms 9)] sample_called.

Lemma turn_transcript_witness :
  ∃ p shown,
    turns sample_called = [set_phase p sample_turn] ∧
    bubble (placeholder_id (at_ms 1)) (messages initial ++ [sample_question]) shown (messages sample_called) ∧
    TurnOver sample_turn (messages initial ++ [sample_question])
      (chat_of #"abcd" (at_ms 1) initial) (created_of (at_ms 1) initial)
      (requests initial) (records initial) (saved initial)
      (default shown (reply_text (set_phase p sample_turn) sample_answer)) (at_ms 9) sample_over.
Proof.
  eapply (turn_transcript initial sample_settings #" Wer? " None None false #"abcd" (at_ms 1)
           [(TuningLoaded 0 DEFAULT_FINETUNING, at_ms 2); (Agent (AssistantMessage #"Ich"), at_ms 3)]
           sample_sent sample_called sample_answer (at_ms 9) sample_over).
  - constructor.
  - reflexivity.
  - vm_compute. discriminate.
  - apply not_elem_of_nil.
  - reflexivity.
  - vm_compute. reflexivity.
  - vm_compute. by repeat split.
  - exact I.
  - reflexivity.
  - vm_compute. reflexivity.
  - vm_compute. reflexivity.
Defined.

(** * Turns that finish elsewhere *)

Lemma busy_reload s t other now :
  reachable s → turns s = [t] →
  busy (loadChatById (Some other) s) = true ∧
  step (ChatLoaded (Some other)) now s = Some (loadChatById (Some other) s).
Proof.
  intros Hr Ht. pose proof (chat_reachable_inv s Hr) as HI. unfold ChatInv in HI. rewrite Ht in HI.
  destruct HI as (Hb & _). split; [done|]. unfold step. cbn [handle fmap option_fmap option_map].
  by rewrite commit_busy.
Qed.

(** A turn whose bubble is gone. *)
Lemma chat_answered_absent i t r now s :
  t_placeholder t ∉ (msg_id <$> messages s) →
  messages (chat_answered i t r now s) = messages s ∧
  chatIdRef (chat_answered i t r now s) = chatIdRef s ∧
  records (chat_answered i t r now s) = records s ++ [turn_record t r s] ∧
  saved (chat_answered i t r now s) = saved s ∧ busy (chat_answered i t r now s) = false.
Proof.
  intros Hold. unfold chat_answered.
  destruct (truthy_string _); [|destruct (decide _)]; turn_end; rewrite ?fill_absent by done;
    by rewrite footer_absent.
Qed.

(** Opening another chat while a turn runs makes the turn finish there:
    its row is filed under the chat that was opened, that chat is what is saved
    again, and neither the question nor the reply is saved anywhere. *)
Theorem reload_misattributes s t viewName other r now now' :
  reachable s → turns s = [t] → t_kind t = ChatTurn viewName → t_phase t = AwaitCall →
  t_placeholder t ∉ (msg_id <$> chat_messages other) →
  ∃ s' row new,
    run [(ChatLoaded (Some other), now); (ChatReturned 0 r, now')] s = Some s' ∧
    records s' = records s ++ [row] ∧
    turn_id (turn_fields row) = t_turnId t ∧ turn_chatId (turn_fields row) = Some (chat_id other) ∧
    messages s' = chat_messages other ∧ saved s' = saved s ++ new ∧
    Forall (λ c, chat_id c = chat_id other ∧ chat_messages c = chat_messages other) new.
Proof.
  intros Hr Ht Hk Hp Hold. destruct (busy_reload s t other now Hr Ht) as [Hb Hs1].
  set (s1 := loadChatById (Some other) s) in *.
  assert (step (ChatReturned 0 r) now' s1 = Some (commit now' s1 (chat_answered 0 t r now' s1))) as Hs2.
  { unfold step. cbn [handle resume loadChatById with_messages with_chat turns s1]. rewrite Ht.
    cbn [lookup list_lookup mbind option_bind]. by rewrite Hp, Hk. }
  destruct (chat_answered_absent 0 t r now' s1 Hold) as (Hm & Hid & Hrec & Hsv & Hb2).
  exists (commit now' s1 (chat_answered 0 t r now' s1)), (turn_record t r s1).
  unfold commit in *. rewrite Hb, Hb2 in *. cbn [negb andb] in *. unfold autosave in *. rewrite Hid, Hm in *.
  change (chatIdRef s1) with (Some (chat_id other)) in *. change (messages s1) with (chat_messages other) in *.
  change (records s1) with (records s) in *. change (saved s1) with (saved s) in *.
  cbv beta iota in *. cbn [run]. rewrite Hs1. cbn [mbind option_bind]. rewrite Hs2. cbn [mbind option_bind].
  destruct (decide (chat_messages other = [])) as [He|He]; [exists []; by rewrite app_nil_r|].
  eexists [_]. cbn [log messages records saved]. rewrite ?app_nil_r, Hm, Hrec, Hsv. split_and!; try done.
  by repeat constructor.
Qed.

Definition sample_other : PersistedChat := MkChat #"chat_old" #"Alt" #"2025" #"2025"
  [plain_message #"u_0" RUser #"Alt" (at_ms 0)].

Lemma reload_misattributes_witness :
  ∃ s' row new,
    run [(ChatLoaded (Some sample_other), at_ms 5); (ChatReturned 0 (sample_result #"Ich."), at_ms 9)] sample_called
      = Some s' ∧
    records s' = records sample_called ++ [row] ∧
    turn_id (turn_fields row) = #"turn_1" ∧ turn_chatId (turn_fields row) = Some #"chat_old" ∧
    messages s' = chat_messages sample_other ∧ saved s' = saved sample_called ++ new ∧
    Forall (λ c, chat_id c = #"chat_old" ∧ chat_messages c = chat_messages sample_other) new.
Proof.
  apply (reload_misattributes sample_called
           (set_phase AwaitCall (new_turn (current initial sample_settings) #"Wer?" (ChatTurn None) (at_ms 1)))
           None sample_other (sample_result #"Ich.") (at_ms 5) (at_ms 9)); [|reflexivity..|].
  - eapply (reachable_step (Agent (AssistantMessage #"Ich")) (at_ms 3)
             (after [(TuningLoaded 0 DEFAULT_FINETUNING, at_ms 2)] sample_sent)); [|exact I|reflexivity].
    eapply (reachable_step (TuningLoaded 0 DEFAULT_FINETUNING) (at_ms 2) sample_sent); [|exact I|reflexivity].
    eapply (reachable_step (sample_send initial #" Wer? ") (at_ms 1) initial); [constructor|reflexivity|reflexivity].
  - vm_compute. intros H. apply list_elem_of_singleton in H. discriminate H.
Defined.
