(* ===== verification/Grammar.v ===== *)
(** The grammars of the repository's languages as data, and what they mean.

    [generated/grammar.ts] of [oos-dsls-ts] and [oos-pipeline-ts] hand
    Langium a grammar as a JSON value.  The types here are those of that
    value; [derives] is the meaning of a grammar as a set of token sequences;
    [rests] recognises them by recursive descent, trying every alternative;
    and [well_founded_grammar] is the decidable check under which the descent
    ends on every input. *)

From S2P Require Export JsValue.

#[local] Set Warnings "-register-all".

(** * Grammar values *)

(** The operators of an assignment: [=], [+=] and [?=]. *)
Inductive AssignOp := AssignSet | AssignAdd | AssignFlag.

(** The cardinalities [?], [*] and [+]. *)
Inductive Cardinality := Optional | Many | AtLeastOne.

(** An element that has a [cardinality] is a [Repeat] of the one without;
    [#/rules@n] is the index [n]. *)
Inductive Element :=
| Keyword (value : str)
| RuleCall (rule : nat)
| Assignment (feature : str) (operator : AssignOp) (terminal : Element)
| CrossReference (type : nat) (terminal : Element)
| Action (inferredType : str)
| Group (elements : list Element)
| Alternatives (elements : list Element)
| Repeat (cardinality : Cardinality) (e : Element).

(** A rule with a [dataType] yields a value of that type, not a node. *)
Record ParserRule := MkParserRule {
  rule_name : str; rule_entry : bool; dataType : option str; definition : Element }.

Record TerminalRule := MkTerminalRule {
  terminal_name : str; terminal_hidden : bool; terminal_type : option str; terminal_regex : str }.

Inductive Rule := PRule (p : ParserRule) | TRule (t : TerminalRule).

Record Grammar := MkGrammar { grammar_name : str; rules : list Rule }.

(** A token: a keyword, or a text a terminal rule matched. *)
Inductive token := TKey (value : str) | TTerm (rule : nat) (text : str).

(** Induction that reaches through the lists of elements. *)
Section element_ind.
Context (P : Element → Prop).
Context (Hkeyword : ∀ v, P (Keyword v)) (Hcall : ∀ r, P (RuleCall r))
  (Hassign : ∀ f op e, P e → P (Assignment f op e)) (Hcross : ∀ ty e, P e → P (CrossReference ty e))
  (Haction : ∀ ty, P (Action ty)) (Hgroup : ∀ es, Forall P es → P (Group es))
  (Halternatives : ∀ es, Forall P es → P (Alternatives es)) (Hrepeat : ∀ c e, P e → P (Repeat c e)).

Fixpoint Element_deep_ind (e : Element) : P e :=
  let all := fix all (l : list Element) : Forall P l :=
    match l with
    | [] => Forall_nil_2 P
    | x :: l => Forall_cons_2 P x l (Element_deep_ind x) (all l)
    end in
  match e with
  | Keyword v => Hkeyword v
  | RuleCall r => Hcall r
  | Assignment f op e => Hassign f op e (Element_deep_ind e)
  | CrossReference ty e => Hcross ty e (Element_deep_ind e)
  | Action ty => Haction ty
  | Group es => Hgroup es (all es)
  | Alternatives es => Halternatives es (all es)
  | Repeat c e => Hrepeat c e (Element_deep_ind e)
  end.
End element_ind.

(** The keywords of a grammar, in the order of its rules. *)
Fixpoint keywords_of (e : Element) : list str :=
  match e with
  | Keyword v => [v]
  | RuleCall _ | Action _ => []
  | Assignment _ _ e | CrossReference _ e | Repeat _ e => keywords_of e
  | Group es | Alternatives es => flat_map keywords_of es
  end.
Definition keywords (g : Grammar) : list str :=
  flat_map (λ r, match r with PRule p => keywords_of (definition p) | TRule _ => [] end) (rules g).

(** * The language of a grammar *)

Section language.
Context (g : Grammar).

Inductive derives : Element → list token → Prop :=
| d_keyword v : derives (Keyword v) [TKey v]
| d_terminal r t text : rules g !! r = Some (TRule t) → derives (RuleCall r) [TTerm r text]
| d_rule r p w : rules g !! r = Some (PRule p) → derives (definition p) w → derives (RuleCall r) w
| d_assignment f op e w : derives e w → derives (Assignment f op e) w
| d_cross ty e w : derives e w → derives (CrossReference ty e) w
| d_action ty : derives (Action ty) []
| d_nil : derives (Group []) []
| d_cons e es w1 w2 : derives e w1 → derives (Group es) w2 → derives (Group (e :: es)) (w1 ++ w2)
| d_alternative e es w : e ∈ es → derives e w → derives (Alternatives es) w
| d_none e : derives (Repeat Optional e) []
| d_some e w : derives e w → derives (Repeat Optional e) w
| d_done e : derives (Repeat Many e) []
| d_more e w1 w2 : derives e w1 → derives (Repeat Many e) w2 → derives (Repeat Many e) (w1 ++ w2)
| d_plus e w1 w2 : derives e w1 → derives (Repeat Many e) w2 → derives (Repeat AtLeastOne e) (w1 ++ w2).

(** * Recursive descent *)

(** [f] on every item, the results together. *)
Definition collect {A B} (f : A → option (list B)) (l : list A) : option (list B) :=
  foldr (λ x acc, ys ← f x; zs ← acc; Some (ys ++ zs)) (Some []) l.

(** One level of the descent: what can remain of the input after an element,
    given that for smaller calls; [None] when those run out of fuel. *)
Definition descend (rec : Element → list token → option (list (list token))) (e : Element)
    (toks : list token) : option (list (list token)) :=
  match e with
  | Keyword v =>
    Some match toks with
         | TKey u :: rest => if decide (u = v) then [rest] else []
         | _ => []
         end
  | RuleCall r =>
    match rules g !! r with
    | Some (TRule _) =>
      Some match toks with
           | TTerm r' _ :: rest => if decide (r' = r) then [rest] else []
           | _ => []
           end
    | Some (PRule p) => rec (definition p) toks
    | None => Some []
    end
  | Assignment _ _ e | CrossReference _ e => rec e toks
  | Action _ => Some [toks]
  | Group [] => Some [toks]
  | Group (e :: es) => rs ← rec e toks; collect (rec (Group es)) rs
  | Alternatives [] => Some []
  | Alternatives (e :: es) =>
    rs ← rec e toks; rs' ← rec (Alternatives es) toks; Some (rs ++ rs')
  | Repeat Optional e => rs ← rec e toks; Some (toks :: rs)
  | Repeat Many e =>
    rs ← rec e toks; rs' ← collect (rec (Repeat Many e)) rs; Some (toks :: rs')
  | Repeat AtLeastOne e => rs ← rec e toks; collect (rec (Repeat Many e)) rs
  end.

Fixpoint rests (fuel : nat) (e : Element) (toks : list token) : option (list (list token)) :=
  match fuel with
  | O => None
  | S fuel => descend (rests fuel) e toks
  end.

(** The whole input is a sentence of the first rule. *)
Definition accepts (fuel : nat) (toks : list token) : option bool :=
  rs ← rests fuel (RuleCall 0) toks; Some (existsb (λ r, bool_decide (length r = 0)) rs).

(** * The check that the descent ends *)

(** [nulls] says which rules may match nothing, [ranks] orders the rules such
    that a rule starts only with rules of lower rank. *)
Context (nulls : list bool) (ranks : list nat).

Definition null_rule (r : nat) : bool :=
  match rules g !! r with
  | Some (PRule _) => default true (nulls !! r)
  | Some (TRule _) => false
  | None => false
  end.
Definition rank (r : nat) : nat := default 0 (ranks !! r).

Fixpoint nullable (e : Element) : bool :=
  match e with
  | Keyword _ => false
  | RuleCall r => null_rule r
  | Assignment _ _ e | CrossReference _ e | Repeat AtLeastOne e => nullable e
  | Action _ => true
  | Group es => forallb nullable es
  | Alternatives es => existsb nullable es
  | Repeat _ _ => true
  end.

(** No repeated element matches nothing. *)
Fixpoint loops_ok (e : Element) : bool :=
  match e with
  | Keyword _ | RuleCall _ | Action _ => true
  | Assignment _ _ e | CrossReference _ e | Repeat Optional e => loops_ok e
  | Group es | Alternatives es => forallb loops_ok es
  | Repeat _ e => loops_ok e && negb (nullable e)
  end.

(** Every parser rule the element may start with has a rank below [b]. *)
Fixpoint starts_below (b : nat) (e : Element) : bool :=
  match e with
  | Keyword _ | Action _ => true
  | RuleCall r => match rules g !! r with Some (PRule _) => rank r <? b | _ => true end
  | Assignment _ _ e | CrossReference _ e | Repeat _ e => starts_below b e
  | Group es =>
    (fix go (es : list Element) : bool :=
       match es with
       | [] => true
       | e :: es => starts_below b e && (negb (nullable e) || go es)
       end) es
  | Alternatives es => forallb (starts_below b) es
  end.

(** The rule's entry in the two tables is right. *)
Definition rule_ok (i : nat) (r : Rule) : bool :=
  match r with
  | TRule _ => true
  | PRule p => loops_ok (definition p) && starts_below (rank i) (definition p) &&
               (negb (nullable (definition p)) || null_rule i)
  end.

Definition well_founded_grammar : bool := forallb (λ x : nat * Rule, rule_ok x.1 x.2) (imap pair (rules g)).
End language.
