(* ===== verification/GrammarLaws.v ===== *)
(** The recogniser of [Grammar.v] decides the language of a grammar, and it
    ends on every input when the grammar passes the check. *)

From S2P Require Export Grammar.

#[local] Set Warnings "-register-all".

(** * Collecting results *)

Lemma collect_some {A B} (f : A → option (list B)) l ys :
  collect f l = Some ys → ∀ y, y ∈ ys ↔ ∃ x zs, x ∈ l ∧ f x = Some zs ∧ y ∈ zs.
Proof.
  revert ys. induction l as [|x l IH]; intros ys.
  - intros [= <-] y. split; [by intros ?%elem_of_nil|by intros (x & zs & ?%elem_of_nil & _)].
  - cbn [collect foldr]. destruct (f x) as [zs|] eqn:Hx; [|done]. fold (collect f l).
    destruct (collect f l) as [us|] eqn:Hl; [|done]. intros [= <-] y. rewrite elem_of_app, (IH us eq_refl).
    split.
    + intros [H|(z & vs & Hz & Hf & Hy)]; [exists x, zs|exists z, vs]; by rewrite elem_of_cons; auto.
    + intros (z & vs & [->|Hz]%elem_of_cons & Hf & Hy); [left; congruence|right; by exists z, vs].
Qed.

(** Every item was mapped, and its results are among the results. *)
Lemma collect_at {A B} (f : A → option (list B)) l ys x :
  collect f l = Some ys → x ∈ l → ∃ zs, f x = Some zs ∧ ∀ z, z ∈ zs → z ∈ ys.
Proof.
  intros Hl Hx. assert (∃ zs, f x = Some zs) as [zs Hzs].
  { clear -Hl Hx. revert ys Hl. induction l as [|u l IH]; intros ys; [by apply elem_of_nil in Hx|].
    cbn [collect foldr]. fold (collect f l). destruct (f u) as [us|] eqn:Hu; [|done].
    destruct (collect f l) as [vs|]; [|done]. apply elem_of_cons in Hx as [->|Hx]; [by eauto|]. by eauto. }
  exists zs. split; [done|]. intros z Hz. apply (collect_some _ _ _ Hl). by exists x, zs.
Qed.

Lemma collect_total {A B} (f : A → option (list B)) l :
  (∀ x, x ∈ l → is_Some (f x)) → is_Some (collect f l).
Proof.
  induction l as [|x l IH]; intros H; [by eexists|]. cbn [collect foldr]. fold (collect f l).
  destruct (H x) as [zs ->]; [by left|]. destruct IH as [us ->]; [intros z Hz; apply H; by right|]. by eexists.
Qed.

Lemma collect_mono {A B} (f f' : A → option (list B)) l ys :
  (∀ x zs, f x = Some zs → f' x = Some zs) → collect f l = Some ys → collect f' l = Some ys.
Proof.
  intros Hf. revert ys. induction l as [|x l IH]; intros ys; [done|]. cbn [collect foldr].
  fold (collect f l) (collect f' l). destruct (f x) as [zs|] eqn:Hx; [|done]. rewrite (Hf x zs Hx).
  destruct (collect f l) as [us|]; [|done]. by rewrite (IH us eq_refl).
Qed.

Section laws.
Context (g : Grammar).

#[local] Abbreviation rests := (rests g).
#[local] Abbreviation derives := (derives g).

(** * Inverting derivations *)

Lemma derives_call r p w : rules g !! r = Some (PRule p) → derives (RuleCall r) w ↔ derives (definition p) w.
Proof.
  intros Hr. split; [|by apply d_rule]. intros H.
  inversion H as [|? t ? Ht|? p' ? Hp' Hd| | | | | | | | | | |]; subst; congruence.
Qed.

Lemma derives_terminal r t w : rules g !! r = Some (TRule t) → derives (RuleCall r) w ↔ ∃ text, w = [TTerm r text].
Proof.
  intros Hr. split; [|intros [text ->]; by econstructor]. intros H.
  inversion H as [|? t' text Ht|? p' ? Hp' Hd| | | | | | | | | | |]; subst; [by exists text|congruence].
Qed.

Lemma derives_keyword v w : derives (Keyword v) w ↔ w = [TKey v].
Proof. split; [by inversion 1|intros ->; constructor]. Qed.

Lemma derives_alternatives es w : derives (Alternatives es) w ↔ ∃ e, e ∈ es ∧ derives e w.
Proof.
  split; [|intros (e & He & Hd); by apply d_alternative with e]. intros H.
  inversion H as [| | | | | | | |e es' ? Hin He| | | | |]; subst. by exists e.
Qed.

(** * Fuel *)

Lemma descend_mono (f f' : Element → list token → option (list (list token))) e toks rs :
  (∀ e toks rs, f e toks = Some rs → f' e toks = Some rs) →
  descend g f e toks = Some rs → descend g f' e toks = Some rs.
Proof.
  intros Hf. assert (∀ e l us, collect (f e) l = Some us → collect (f' e) l = Some us) as Hc.
  { intros e' l us. apply collect_mono, Hf. }
  destruct e as [v|r|ft op e|ty e|ty|[|e es]|[|e es]|[] e]; cbn [descend]; try done; try apply Hf.
  { destruct (rules g !! r) as [[p|t]|]; [apply Hf|done|done]. }
  all: destruct (f e toks) as [us|] eqn:He; [|done]; rewrite (Hf _ _ _ He); cbn [mbind option_bind]; try done;
    try apply Hc.
  - destruct (f (Alternatives es) toks) as [vs|] eqn:Hs; [|done]. by rewrite (Hf _ _ _ Hs).
  - destruct (collect (f (Repeat Many e)) us) as [vs|] eqn:Hs; [|done]. by rewrite (Hc _ _ _ Hs).
Qed.

Lemma rests_step n : ∀ e toks rs, rests n e toks = Some rs → rests (S n) e toks = Some rs.
Proof.
  induction n as [|n IH]; intros e toks rs; [done|].
  change (descend g (rests n) e toks = Some rs → descend g (rests (S n)) e toks = Some rs).
  by apply descend_mono.
Qed.

Lemma rests_mono n m e toks rs : n ≤ m → rests n e toks = Some rs → rests m e toks = Some rs.
Proof. induction 1; [done|]. intros. by apply rests_step, IHle. Qed.

(** * What the descent finds *)

Lemma rests_sound n : ∀ e toks rs rest,
  rests n e toks = Some rs → rest ∈ rs → ∃ w, toks = w ++ rest ∧ derives e w.
Proof.
  induction n as [|n IH]; intros e toks rs rest; [done|].
  assert (∀ e l us, collect (rests n e) l = Some us → rest ∈ us → ∃ x w, x ∈ l ∧ x = w ++ rest ∧ derives e w) as Hc.
  { intros e' l us Hl Hr. apply (collect_some _ _ _ Hl) in Hr as (x & zs & Hx & Hf & Hr).
    destruct (IH _ _ _ _ Hf Hr) as (w & -> & Hw). by eauto. }
  destruct e as [v|r|f op e|ty e|ty|es|es|c e]; cbn [Grammar.rests descend].
  - intros [= <-]. destruct toks as [|[u|r t] toks]; try by intros ?%elem_of_nil.
    destruct (decide (u = v)) as [->|]; [|by intros ?%elem_of_nil]. intros ->%list_elem_of_singleton.
    exists [TKey v]. split; [done|constructor].
  - destruct (rules g !! r) as [[p|t]|] eqn:Hr.
    + intros Hn Hin. destruct (IH _ _ _ _ Hn Hin) as (w & -> & Hw). exists w. split; [done|by econstructor].
    + intros [= <-]. destruct toks as [|[u|r' text] toks]; try by intros ?%elem_of_nil.
      destruct (decide (r' = r)) as [->|]; [|by intros ?%elem_of_nil]. intros ->%list_elem_of_singleton.
      exists [TTerm r text]. split; [done|by econstructor].
    + intros [= <-]. by intros ?%elem_of_nil.
  - intros Hn Hin. destruct (IH _ _ _ _ Hn Hin) as (w & -> & Hw). exists w. split; [done|by constructor].
  - intros Hn Hin. destruct (IH _ _ _ _ Hn Hin) as (w & -> & Hw). exists w. split; [done|by constructor].
  - intros [= <-] ->%list_elem_of_singleton. exists []. split; [done|constructor].
  - destruct es as [|e es].
    { intros [= <-] ->%list_elem_of_singleton. exists []. split; [done|constructor]. }
    destruct (rests n e toks) as [us|] eqn:He; [|done]. intros Hl Hin.
    destruct (Hc _ _ _ Hl Hin) as (x & w & Hx & -> & Hw). destruct (IH _ _ _ _ He Hx) as (w1 & -> & Hw1).
    exists (w1 ++ w). rewrite app_assoc. split; [done|by constructor].
  - destruct es as [|e es]; [by intros [= <-] ?%elem_of_nil|].
    destruct (rests n e toks) as [us|] eqn:He; [|done]. cbn [mbind option_bind].
    destruct (rests n (Alternatives es) toks) as [vs|] eqn:Hs; [|done]. intros [= <-] [Hin|Hin]%elem_of_app.
    + destruct (IH _ _ _ _ He Hin) as (w & -> & Hw). exists w. split; [done|]. apply d_alternative with e; [by left|done].
    + destruct (IH _ _ _ _ Hs Hin) as (w & -> & Hw). exists w. split; [done|].
      inversion Hw as [| | | | | | | |e' es' w' He' Hw'| | | | |]; subst.
      apply d_alternative with e'; [by right|done].
  - destruct c.
    + destruct (rests n e toks) as [us|] eqn:He; [|done]. intros [= <-] [->|Hin]%elem_of_cons.
      * exists []. split; [done|constructor].
      * destruct (IH _ _ _ _ He Hin) as (w & -> & Hw). exists w. split; [done|by constructor].
    + destruct (rests n e toks) as [us|] eqn:He; [|done]. cbn [mbind option_bind].
      destruct (collect (rests n (Repeat Many e)) us) as [vs|] eqn:Hs; [|done].
      intros [= <-] [->|Hin]%elem_of_cons; [exists []; split; [done|constructor]|].
      destruct (Hc _ _ _ Hs Hin) as (x & w & Hx & -> & Hw). destruct (IH _ _ _ _ He Hx) as (w1 & -> & Hw1).
      exists (w1 ++ w). rewrite app_assoc. split; [done|by constructor].
    + destruct (rests n e toks) as [us|] eqn:He; [|done]. intros Hl Hin.
      destruct (Hc _ _ _ Hl Hin) as (x & w & Hx & -> & Hw). destruct (IH _ _ _ _ He Hx) as (w1 & -> & Hw1).
      exists (w1 ++ w). rewrite app_assoc. split; [done|by constructor].
Qed.

Lemma alternatives_at es e toks : ∀ n rs,
  rests n (Alternatives es) toks = Some rs → e ∈ es →
  ∃ m us, rests m e toks = Some us ∧ ∀ z, z ∈ us → z ∈ rs.
Proof.
  induction es as [|e' es IH]; intros [|n] rs; try done; [by intros _ ?%elem_of_nil|].
  cbn [Grammar.rests descend]. destruct (rests n e' toks) as [us|] eqn:He'; [|done].
  cbn [mbind option_bind]. destruct (rests n (Alternatives es) toks) as [vs|] eqn:Hs; [|done].
  intros [= <-] [->|He]%elem_of_cons.
  - exists n, us. split; [done|]. intros z. rewrite elem_of_app. by left.
  - destruct (IH _ _ Hs He) as (m & zs & Hz & Hin). exists m, zs. split; [done|].
    intros z Hzz. rewrite elem_of_app. right. by apply Hin.
Qed.

Lemma rests_complete e w : derives e w → ∀ n rest rs, rests n e (w ++ rest) = Some rs → rest ∈ rs.
Proof.
  induction 1 as [v|r t text Hr|r p w Hr _ IH|f op e w _ IH|ty e w _ IH|ty| |e es w1 w2 _ IH1 _ IH2
    |e es w He _ IH|e|e w _ IH|e|e w1 w2 _ IH1 _ IH2|e w1 w2 _ IH1 _ IH2];
    intros [|n] rest rs; try done; cbn [Grammar.rests descend app].
  - rewrite decide_True by done. intros [= <-]. by left.
  - rewrite Hr, decide_True by done. intros [= <-]. by left.
  - rewrite Hr. apply IH.
  - apply IH.
  - apply IH.
  - intros [= <-]. by left.
  - intros [= <-]. by left.
  - rewrite <- app_assoc. destruct (rests n e _) as [us|] eqn:He; [|done]. apply IH1 in He.
    intros Hl. destruct (collect_at _ _ _ _ Hl He) as (zs & Hz & Hin). by eapply Hin, IH2.
  - intros Hs. destruct (alternatives_at es e (w ++ rest) (S n) rs Hs He) as (m & us & Hm & Hin).
    by eapply Hin, IH.
  - destruct (rests n e rest) as [us|]; [|done]. intros [= <-]. by left.
  - destruct (rests n e _) as [us|] eqn:He; [|done]. intros [= <-]. right. by eapply IH.
  - destruct (rests n e rest) as [us|]; [|done]. cbn [mbind option_bind].
    destruct (collect _ us); [|done]. intros [= <-]. by left.
  - rewrite <- app_assoc. destruct (rests n e _) as [us|] eqn:He; [|done]. apply IH1 in He.
    cbn [mbind option_bind]. destruct (collect _ us) as [vs|] eqn:Hl; [|done]. intros [= <-]. right.
    destruct (collect_at _ _ _ _ Hl He) as (zs & Hz & Hin). by eapply Hin, IH2.
  - rewrite <- app_assoc. destruct (rests n e _) as [us|] eqn:He; [|done]. apply IH1 in He.
    intros Hl. destruct (collect_at _ _ _ _ Hl He) as (zs & Hz & Hin). by eapply Hin, IH2.
Qed.

(** * The descent ends *)

Context (nulls : list bool) (ranks : list nat) (Hg : well_founded_grammar g nulls ranks = true).

#[local] Abbreviation nullable := (nullable g nulls).
#[local] Abbreviation loops_ok := (loops_ok g nulls).
#[local] Abbreviation starts_below := (starts_below g nulls ranks).
#[local] Abbreviation rank := (rank ranks).

Lemma rule_checked r p : rules g !! r = Some (PRule p) →
  loops_ok (definition p) = true ∧ starts_below (rank r) (definition p) = true ∧
  (nullable (definition p) = true → nullable (RuleCall r) = true).
Proof.
  intros Hr. unfold well_founded_grammar in Hg. rewrite forallb_forall in Hg.
  assert (rule_ok g nulls ranks r (PRule p) = true) as H.
  { apply (Hg (r, PRule p)), list_elem_of_In, elem_of_lookup_imap. by exists r, (PRule p). }
  cbn [rule_ok] in H. rewrite !andb_true_iff, orb_true_iff, negb_true_iff in H.
  destruct H as [[H1 H2] H3]. split_and!; [done..|]. intros Hn. cbn [Grammar.nullable]. destruct H3; congruence.
Qed.

Lemma nullable_sound e w : derives e w → w = [] → nullable e = true.
Proof.
  induction 1 as [v|r t text Hr|r p w Hr _ IH|f op e w _ IH|ty e w _ IH|ty| |e es w1 w2 _ IH1 _ IH2
    |e es w He _ IH|e|e w _ IH|e|e w1 w2 _ IH1 _ IH2|e w1 w2 _ IH1 _ IH2]; intros Hw; try done; cbn [Grammar.nullable].
  - destruct (rule_checked r p Hr) as (_ & _ & Hn). by apply Hn, IH.
  - by apply IH.
  - by apply IH.
  - apply app_nil in Hw as [-> ->]. apply andb_true_iff. split; [by apply IH1|by apply IH2].
  - apply existsb_exists. exists e. split; [by apply list_elem_of_In|by apply IH].
  - apply app_nil in Hw as [-> ->]. by apply IH1.
Qed.

(** What remains is no longer than the input, and shorter unless the element
    may match nothing. *)
Lemma rests_shorter n e toks rs rest :
  rests n e toks = Some rs → rest ∈ rs →
  length rest ≤ length toks ∧ (nullable e = false → length rest < length toks).
Proof.
  intros Hn Hin. destruct (rests_sound _ _ _ _ _ Hn Hin) as (w & -> & Hw). rewrite length_app. split; [lia|].
  intros Hnull. destruct w as [|x w]; [|cbn; lia]. apply nullable_sound in Hw; [congruence|done].
Qed.

(** Every rank is below this one. *)
Definition top : nat := S (list_max ranks).

Lemma rank_below_top r : rank r < top.
Proof.
  unfold Grammar.rank, top. destruct (ranks !! r) as [k|] eqn:E; cbn [default from_option]; [|lia].
  apply list_elem_of_lookup_2 in E.
  pose proof (proj1 (list_max_le ranks (list_max ranks)) (Nat.le_refl _)) as H.
  rewrite Forall_forall in H. apply H in E. unfold Datatypes.id. lia.
Qed.

Lemma starts_below_top e : starts_below top e = true.
Proof.
  induction e as [v|r|f op e IH|ty e IH|ty|es IH|es IH|c e IH] using Element_deep_ind; cbn [Grammar.starts_below]; try done.
  - destruct (rules g !! r) as [[p|t]|]; try done. apply Nat.ltb_lt, rank_below_top.
  - induction IH as [|e es He _ IHes]; [done|]. rewrite He, IHes. by destruct (nullable e).
  - apply forallb_forall. intros e He. rewrite Forall_forall in IH. by apply IH, list_elem_of_In.
Qed.

(** Fuel that serves many inputs. *)
Definition ends (e : Element) (toks : list token) : Prop := ∃ n, is_Some (rests n e toks).

Lemma ends_all e l : (∀ toks, toks ∈ l → ends e toks) → ∃ n, is_Some (collect (rests n e) l).
Proof.
  induction l as [|x l IH]; intros H; [exists 0; by eexists|].
  destruct (H x) as (n & zs & Hz); [by left|]. destruct IH as (m & us & Hu); [intros y Hy; apply H; by right|].
  exists (n `max` m), (zs ++ us). cbn [collect foldr]. fold (collect (rests (n `max` m) e) l).
  rewrite (rests_mono n (n `max` m) _ _ _ ltac:(lia) Hz).
  erewrite (collect_mono (rests m e)); [done| |done]. intros y ys. apply rests_mono. lia.
Qed.

(** Two calls in a row. *)
Lemma ends_then e e' toks :
  ends e toks → (∀ n rs rest, rests n e toks = Some rs → rest ∈ rs → ends e' rest) →
  ∃ n rs rs', rests n e toks = Some rs ∧ collect (rests n e') rs = Some rs'.
Proof.
  intros (n & rs & Hn) H. destruct (ends_all e' rs) as (m & rs' & Hm); [intros rest Hin; by eapply H|].
  exists (n `max` m), rs, rs'. split; [apply (rests_mono n); [lia|done]|].
  eapply collect_mono; [|done]. intros y ys. apply rests_mono. lia.
Qed.

Lemma ends_step e toks n rs : descend g (rests n) e toks = Some rs → ends e toks.
Proof. intros H. by exists (S n), rs. Qed.

(** A group ends if its first element does and the rest of it ends on what
    that one leaves. *)
Lemma ends_group e es toks :
  ends e toks → (∀ n rs rest, rests n e toks = Some rs → rest ∈ rs → ends (Group es) rest) →
  ends (Group (e :: es)) toks.
Proof.
  intros He H. destruct (ends_then e (Group es) toks He H) as (n & rs & rs' & Hn & Hc).
  apply (ends_step _ _ n rs'). cbn [descend]. by rewrite Hn.
Qed.

Lemma ends_many e toks :
  ends e toks → (∀ n rs rest, rests n e toks = Some rs → rest ∈ rs → ends (Repeat Many e) rest) →
  ends (Repeat Many e) toks ∧ ends (Repeat AtLeastOne e) toks.
Proof.
  intros He H. destruct (ends_then e (Repeat Many e) toks He H) as (n & rs & rs' & Hn & Hc). split.
  - apply (ends_step _ _ n (toks :: rs')). cbn [descend]. rewrite Hn. cbn [mbind option_bind]. by rewrite Hc.
  - apply (ends_step _ _ n rs'). cbn [descend]. by rewrite Hn.
Qed.

Lemma ends_alternatives es toks : Forall (λ e, ends e toks) es → ends (Alternatives es) toks.
Proof.
  induction 1 as [|e es (n & rs & Hn) _ (m & rs' & Hm)]; [by exists 1, []|].
  apply (ends_step _ _ (n `max` m) (rs ++ rs')). cbn [descend].
  rewrite (rests_mono n (n `max` m) _ _ _ ltac:(lia) Hn). cbn [mbind option_bind].
  by rewrite (rests_mono m (n `max` m) _ _ _ ltac:(lia) Hm).
Qed.

(** One element, given that every element ends on shorter inputs and that the
    rules it may start with end on this one. *)
Lemma element_ends toks b
  (Hshort : ∀ rest e, length rest < length toks → loops_ok e = true → ends e rest)
  (Hrule : ∀ r p, rules g !! r = Some (PRule p) → rank r < b → ends (definition p) toks) e :
  loops_ok e = true → starts_below b e = true → ends e toks.
Proof.
  induction e as [v|r|f op e IH|ty e IH|ty|es IH|es IH|c e IH] using Element_deep_ind;
    cbn [Grammar.loops_ok Grammar.starts_below]; intros Hl Hb.
  - eexists 1, _. reflexivity.
  - destruct (rules g !! r) as [[p|t]|] eqn:Hr.
    + apply Nat.ltb_lt in Hb. destruct (Hrule r p Hr Hb) as (n & rs & Hn).
      apply (ends_step _ _ n rs). cbn [descend]. by rewrite Hr.
    + eapply (ends_step _ _ 0). cbn [descend]. by rewrite Hr.
    + eapply (ends_step _ _ 0). cbn [descend]. by rewrite Hr.
  - destruct (IH Hl Hb) as (n & rs & Hn). by apply (ends_step _ _ n rs).
  - destruct (IH Hl Hb) as (n & rs & Hn). by apply (ends_step _ _ n rs).
  - eexists 1, _. reflexivity.
  - induction IH as [|e es He _ IHes]; [eexists 1, _; reflexivity|].
    cbn [forallb] in Hl. apply andb_true_iff in Hl as [Hl Hls]. apply andb_true_iff in Hb as [Hb Hbs].
    apply ends_group; [by apply He|]. intros n rs rest Hn Hin.
    destruct (rests_shorter _ _ _ _ _ Hn Hin) as [Hle Hlt]. destruct (nullable e) eqn:Hnull.
    + destruct (decide (length rest = length toks)) as [Heq|]; [|apply Hshort; [lia|done]].
      destruct (rests_sound _ _ _ _ _ Hn Hin) as (w & -> & _). rewrite length_app in Heq.
      destruct w; [|cbn in Heq; lia]. by apply IHes.
    + apply Hshort; [by apply Hlt|done].
  - apply ends_alternatives, Forall_forall. intros e He. rewrite Forall_forall in IH.
    rewrite forallb_forall in Hl, Hb. apply list_elem_of_In in He as He'. by apply IH; auto.
  - destruct c; cbn [Grammar.loops_ok] in Hl.
    + destruct (IH Hl Hb) as (n & rs & Hn). apply (ends_step _ _ n (toks :: rs)). cbn [descend]. by rewrite Hn.
    + apply andb_true_iff in Hl as [Hl Hnull]. apply negb_true_iff in Hnull. apply ends_many; [by apply IH|].
      intros n rs rest Hn Hin. destruct (rests_shorter _ _ _ _ _ Hn Hin) as [_ Hlt].
      apply Hshort; [by apply Hlt|]. cbn [Grammar.loops_ok]. by rewrite Hl, Hnull.
    + apply andb_true_iff in Hl as [Hl Hnull]. apply negb_true_iff in Hnull. apply ends_many; [by apply IH|].
      intros n rs rest Hn Hin. destruct (rests_shorter _ _ _ _ _ Hn Hin) as [_ Hlt].
      apply Hshort; [by apply Hlt|]. cbn [Grammar.loops_ok]. by rewrite Hl, Hnull.
Qed.

(** By recursion on the length of the input, then on the rank. *)
Lemma descent_ends e toks : loops_ok e = true → ends e toks.
Proof.
  revert e. induction toks as [toks IH] using (induction_ltof1 _ length). unfold ltof in IH. intros e Hl.
  assert (∀ b r p, rules g !! r = Some (PRule p) → rank r < b → ends (definition p) toks) as Hrule.
  { induction b as [|b IHb]; [lia|]. intros r p Hr Hrk. destruct (rule_checked r p Hr) as (Hlp & Hsp & _).
    apply (element_ends toks (rank r)); [intros; by apply IH| |done|done].
    intros r' p' Hr' Hrk'. apply (IHb r' p' Hr'). lia. }
  apply (element_ends toks top); [intros; by apply IH|apply Hrule|done|apply starts_below_top].
Qed.

(** The recogniser decides the language of the first rule. *)
Lemma accepts_decides toks :
  ∃ n, (∀ m, n ≤ m → accepts g m toks = accepts g n toks) ∧
    ∃ b, accepts g n toks = Some b ∧ (b = true ↔ derives (RuleCall 0) toks).
Proof.
  destruct (descent_ends (RuleCall 0) toks eq_refl) as (n & rs & Hn). exists n. unfold accepts. split.
  - intros m Hm. by rewrite (rests_mono n m _ _ _ Hm Hn), Hn.
  - rewrite Hn. cbn [mbind option_bind]. eexists. split; [done|]. rewrite existsb_exists. split.
    + intros (r & Hin%list_elem_of_In & Hr%bool_decide_eq_true).
      destruct (rests_sound _ _ _ _ _ Hn Hin) as (w & -> & Hw). destruct r; [|done]. by rewrite app_nil_r.
    + intros Hd. exists []. split; [|done]. apply list_elem_of_In.
      apply (rests_complete _ _ Hd n [] rs). by rewrite app_nil_r.
Qed.
End laws.
