(* ===== verification/DomainGrammar.v ===== *)
(** The grammar of [.domain] files: the rules of
    [packages/oos-dsls-ts/src/generated/grammar.ts], in their order, under the number
    that the references of the file use.  Fields that are the same in every
    rule of the file (no fragments, parameters or call arguments) are left
    out. *)

From S2P Require Export Grammar.

#[local] Set Warnings "-register-all".

(** 0 *)
Definition DomainModel_rule : Rule :=
  PRule (MkParserRule #"DomainModel" true None (Assignment #"domain" AssignSet (RuleCall 1))).

(** 1 *)
Definition DomainDecl_rule : Rule :=
  PRule (MkParserRule #"DomainDecl" false None
    (Group [ Keyword #"domain"; Assignment #"name" AssignSet (RuleCall 16); Keyword #"from";
             Assignment #"source" AssignSet (RuleCall 16); Keyword #"@";
             Assignment #"dsn" AssignSet (RuleCall 16); Keyword #"{";
             Repeat Many (Assignment #"members" AssignAdd (RuleCall 2)); Keyword #"}" ])).

(** 2 *)
Definition DomainMember_rule : Rule :=
  PRule (MkParserRule #"DomainMember" false None
    (Alternatives [ RuleCall 3; RuleCall 5; RuleCall 11; RuleCall 13; RuleCall 14; RuleCall 15 ])).

(** 3 *)
Definition Permission_rule : Rule :=
  PRule (MkParserRule #"Permission" false None
    (Group [ Keyword #"permission"; Assignment #"role" AssignSet (RuleCall 16);
             Assignment #"actions" AssignAdd (RuleCall 4);
             Repeat Many (Group [ Keyword #","; Assignment #"actions" AssignAdd (RuleCall 4) ]) ])).

(** 4 *)
Definition PermissionAction_rule : Rule :=
  PRule (MkParserRule #"PermissionAction" false (Some #"string")
    (Alternatives [ Keyword #"read"; Keyword #"write"; Keyword #"delete" ])).

(** 5 *)
Definition Field_rule : Rule :=
  PRule (MkParserRule #"Field" false None
    (Group [ Keyword #"field"; Assignment #"name" AssignSet (RuleCall 16); Keyword #":";
             Assignment #"type" AssignSet (RuleCall 6);
             Repeat Many (Assignment #"modifiers" AssignAdd (RuleCall 7));
             Repeat Optional (Group [ Keyword #"{";
                                      Repeat Many (Assignment #"examples" AssignAdd (RuleCall 8));
                                      Keyword #"}" ]) ])).

(** 6 *)
Definition FieldType_rule : Rule :=
  PRule (MkParserRule #"FieldType" false (Some #"string")
    (Alternatives [ Keyword #"int"; Keyword #"float"; Keyword #"string"; Keyword #"text"; Keyword #"bool";
                    Keyword #"date"; Keyword #"datetime" ])).

(** 7 *)
Definition FieldModifier_rule : Rule :=
  PRule (MkParserRule #"FieldModifier" false None
    (Alternatives [ Group [ Action #"ReadOnly"; Keyword #"readonly" ];
                    Group [ Action #"Filterable"; Keyword #"filterable" ];
                    Group [ Action #"OptionsRef"; Keyword #"options"; Keyword #"=";
                            Assignment #"meta" AssignSet (CrossReference 13 (RuleCall 16)) ] ])).

(** 8 *)
Definition Example_rule : Rule :=
  PRule (MkParserRule #"Example" false None
    (Group [ Keyword #"example"; Assignment #"op" AssignSet (RuleCall 9);
             Assignment #"value" AssignSet (RuleCall 10);
             Assignment #"description" AssignSet (RuleCall 18) ])).

(** 9 *)
Definition ExampleOp_rule : Rule :=
  PRule (MkParserRule #"ExampleOp" false (Some #"string")
    (Alternatives [ Keyword #"eq"; Keyword #"ne"; Keyword #"lt"; Keyword #"le"; Keyword #"gt";
                    Keyword #"ge"; Keyword #"like"; Keyword #"in" ])).

(** 10 *)
Definition ExampleValue_rule : Rule :=
  PRule (MkParserRule #"ExampleValue" false None
    (Alternatives [ Group [ Action #"StringValue"; Assignment #"value" AssignSet (RuleCall 18) ];
                    Group [ Action #"NumberValue"; Assignment #"value" AssignSet (RuleCall 17) ] ])).

(** 11 *)
Definition Relation_rule : Rule :=
  PRule (MkParserRule #"Relation" false None
    (Group [ Keyword #"relation"; Assignment #"name" AssignSet (RuleCall 16); Keyword #":";
             Assignment #"kind" AssignSet (RuleCall 12); Assignment #"target" AssignSet (RuleCall 16);
             Keyword #"bind"; Keyword #"="; Assignment #"localField" AssignSet (RuleCall 16);
             Keyword #"->"; Assignment #"foreignField" AssignSet (RuleCall 16) ])).

(** 12 *)
Definition RelationKind_rule : Rule :=
  PRule (MkParserRule #"RelationKind" false (Some #"string")
    (Alternatives [ Keyword #"has_many"; Keyword #"has_one"; Keyword #"belongs_to" ])).

(** 13 *)
Definition Meta_rule : Rule :=
  PRule (MkParserRule #"Meta" false None
    (Group [ Keyword #"meta"; Assignment #"name" AssignSet (RuleCall 16); Keyword #"from";
             Assignment #"table" AssignSet (RuleCall 16);
             Assignment #"valueField" AssignSet (RuleCall 16);
             Assignment #"labelField" AssignSet (RuleCall 16);
             Repeat Optional (Group [ Keyword #"order_by"; Assignment #"orderBy" AssignSet (RuleCall 16) ]);
             Repeat Optional (Group [ Keyword #"via"; Assignment #"dsn" AssignSet (RuleCall 16) ]) ])).

(** 14 *)
Definition AiHint_rule : Rule :=
  PRule (MkParserRule #"AiHint" false None
    (Group [ Keyword #"ai"; Assignment #"name" AssignSet (RuleCall 18);
             Assignment #"body" AssignSet (RuleCall 18) ])).

(** 15 *)
Definition AliasList_rule : Rule :=
  PRule (MkParserRule #"AliasList" false None
    (Group [ Keyword #"aliases"; Keyword #"["; Assignment #"values" AssignAdd (RuleCall 18);
             Repeat Many (Group [ Keyword #","; Assignment #"values" AssignAdd (RuleCall 18) ]);
             Keyword #"]" ])).

(** 16 *)
Definition ID_rule : Rule :=
  TRule (MkTerminalRule #"ID" false None #"/[_a-zA-Z][\w_]*/").

(** 17 *)
Definition NUMBER_rule : Rule :=
  TRule (MkTerminalRule #"NUMBER" false (Some #"number") #"/-?[0-9]+(\.[0-9]+)?/").

(** 18 *)
Definition STRING_rule : Rule :=
  TRule (MkTerminalRule #"STRING" false None (#"/" ++ [34]%N ++ #"(\\.|[^" ++ [34]%N ++ #"\\])*" ++ [34]%N ++ #"/")).

(** 19 *)
Definition WS_rule : Rule :=
  TRule (MkTerminalRule #"WS" true None #"/\s+/").

(** 20 *)
Definition ML_COMMENT_rule : Rule :=
  TRule (MkTerminalRule #"ML_COMMENT" true None #"/\/\*[\s\S]*?\*\//").

(** 21 *)
Definition SL_COMMENT_rule : Rule :=
  TRule (MkTerminalRule #"SL_COMMENT" true None #"/\/\/[^\n\r]*/").

Definition DomainGrammar : Grammar :=
  MkGrammar #"Domain"
    [ DomainModel_rule; DomainDecl_rule; DomainMember_rule; Permission_rule; PermissionAction_rule; Field_rule;
      FieldType_rule; FieldModifier_rule; Example_rule; ExampleOp_rule; ExampleValue_rule; Relation_rule;
      RelationKind_rule; Meta_rule; AiHint_rule; AliasList_rule; ID_rule; NUMBER_rule; STRING_rule; WS_rule;
      ML_COMMENT_rule; SL_COMMENT_rule ].
