(* ===== verification/EventSchemaGrammar.v ===== *)
(** The grammar of [.event-schema] files: the rules of
    [packages/oos-dsls-ts/src/generated/grammar.ts], in their order, under the number
    that the references of the file use.  Fields that are the same in every
    rule of the file (no fragments, parameters or call arguments) are left
    out. *)

From S2P Require Export Grammar.

#[local] Set Warnings "-register-all".

(** 0 *)
Definition EventSchemaModel_rule : Rule :=
  PRule (MkParserRule #"EventSchemaModel" true None (Assignment #"eventType" AssignSet (RuleCall 1))).

(** 1 *)
Definition EventTypeDecl_rule : Rule :=
  PRule (MkParserRule #"EventTypeDecl" false None
    (Group [ Keyword #"EventType"; Assignment #"name" AssignSet (RuleCall 6); Keyword #"{";
             Repeat Many (Assignment #"fields" AssignAdd (RuleCall 2)); Keyword #"}" ])).

(** 2 *)
Definition FieldDecl_rule : Rule :=
  PRule (MkParserRule #"FieldDecl" false None
    (Group [ Assignment #"required" AssignSet (RuleCall 3); Assignment #"name" AssignSet (RuleCall 5);
             Keyword #":"; Assignment #"type" AssignSet (RuleCall 4) ])).

(** 3 *)
Definition Required_rule : Rule :=
  PRule (MkParserRule #"Required" false (Some #"boolean")
    (Alternatives [ Keyword #"required"; Keyword #"optional" ])).

(** 4 *)
Definition FieldType_rule : Rule :=
  PRule (MkParserRule #"FieldType" false (Some #"string")
    (Alternatives [ Keyword #"string"; Keyword #"number"; Keyword #"boolean"; Keyword #"date";
                    Keyword #"datetime" ])).

(** 5 *)
Definition ID_rule : Rule :=
  TRule (MkTerminalRule #"ID" false None #"/[_a-zA-Z][a-zA-Z0-9_]*/").

(** 6 *)
Definition STRING_rule : Rule :=
  TRule (MkTerminalRule #"STRING" false None (#"/" ++ [34]%N ++ #"(\\.|[^" ++ [34]%N ++ #"\\])*" ++ [34]%N ++ #"/")).

(** 7 *)
Definition WS_rule : Rule :=
  TRule (MkTerminalRule #"WS" true None #"/\s+/").

(** 8 *)
Definition ML_COMMENT_rule : Rule :=
  TRule (MkTerminalRule #"ML_COMMENT" true None #"/\/\*[\s\S]*?\*\//").

(** 9 *)
Definition SL_COMMENT_rule : Rule :=
  TRule (MkTerminalRule #"SL_COMMENT" true None #"/\/\/[^\n\r]*/").

Definition EventSchemaGrammar : Grammar :=
  MkGrammar #"EventSchema"
    [ EventSchemaModel_rule; EventTypeDecl_rule; FieldDecl_rule; Required_rule; FieldType_rule; ID_rule;
      STRING_rule; WS_rule; ML_COMMENT_rule; SL_COMMENT_rule ].
