(* ===== verification/ViewGrammar.v ===== *)
(** The grammar of [.view] files: the rules of
    [packages/oos-dsls-ts/src/generated/grammar.ts], in their order, under the number
    that the references of the file use.  Fields that are the same in every
    rule of the file (no fragments, parameters or call arguments) are left
    out. *)

From S2P Require Export Grammar.

#[local] Set Warnings "-register-all".

(** 0 *)
Definition ViewModel_rule : Rule :=
  PRule (MkParserRule #"ViewModel" true None (Assignment #"view" AssignSet (RuleCall 1))).

(** 1 *)
Definition ViewDecl_rule : Rule :=
  PRule (MkParserRule #"ViewDecl" false None
    (Group [ Repeat Optional (Assignment #"default" AssignFlag (Keyword #"default")); Keyword #"view";
             Assignment #"name" AssignSet (RuleCall 45); Assignment #"title" AssignSet (RuleCall 47);
             Keyword #"over"; Assignment #"domains" AssignAdd (RuleCall 3);
             Repeat Many (Group [ Keyword #","; Assignment #"domains" AssignAdd (RuleCall 3) ]);
             Keyword #"{"; Repeat Optional (Assignment #"autoRefresh" AssignSet (RuleCall 2));
             Repeat Optional (Group [ Keyword #"toolbar"; Keyword #"{";
                                      Repeat Many (Assignment #"toolbar" AssignAdd (RuleCall 4));
                                      Keyword #"}" ]);
             Repeat Many (Assignment #"body" AssignAdd (RuleCall 5)); Keyword #"}" ])).

(** 2 *)
Definition AutoRefresh_rule : Rule :=
  PRule (MkParserRule #"AutoRefresh" false None
    (Group [ Keyword #"auto_refresh"; Keyword #"on"; Assignment #"domain" AssignSet (RuleCall 43);
             Keyword #"."; Assignment #"event" AssignSet (RuleCall 43) ])).

(** 3 *)
Definition DomainBinding_rule : Rule :=
  PRule (MkParserRule #"DomainBinding" false None
    (Group [ Assignment #"name" AssignSet (RuleCall 45);
             Repeat Optional (Group [ Keyword #"("; Assignment #"alias" AssignSet (RuleCall 43);
                                      Keyword #")" ]) ])).

(** 4 *)
Definition ToolbarItem_rule : Rule :=
  PRule (MkParserRule #"ToolbarItem" false None
    (Alternatives [ Group [ Action #"ToolbarSave"; Keyword #"save" ];
                    Group [ Action #"ToolbarDelete"; Keyword #"delete";
                            Repeat Optional (Group [ Keyword #"confirm"; Keyword #"=";
                                                     Assignment #"confirm" AssignSet (RuleCall 47) ]) ];
                    Group [ Action #"ToolbarExit"; Keyword #"exit" ];
                    Group [ Action #"ToolbarRefresh"; Keyword #"refresh";
                            Repeat Optional (Assignment #"caption" AssignSet (RuleCall 47)) ];
                    Group [ Action #"ToolbarNew"; Keyword #"new";
                            Assignment #"caption" AssignSet (RuleCall 47); Keyword #"->";
                            Assignment #"target" AssignSet (RuleCall 45);
                            Repeat Many (Assignment #"navMods" AssignAdd (RuleCall 30)) ] ])).

(** 5 *)
Definition BodyElement_rule : Rule :=
  PRule (MkParserRule #"BodyElement" false None
    (Alternatives [ RuleCall 6; RuleCall 7; RuleCall 8; RuleCall 9; RuleCall 10; RuleCall 12; RuleCall 14;
                    RuleCall 17; RuleCall 15; RuleCall 16; RuleCall 20; RuleCall 22; RuleCall 23;
                    RuleCall 25; RuleCall 24 ])).

(** 6 *)
Definition Section_rule : Rule :=
  PRule (MkParserRule #"Section" false None
    (Group [ Keyword #"section"; Repeat Optional (Assignment #"caption" AssignSet (RuleCall 47));
             Repeat Many (Assignment #"mods" AssignAdd (RuleCall 33)); Keyword #"{";
             Repeat Many (Assignment #"body" AssignAdd (RuleCall 5)); Keyword #"}" ])).

(** 7 *)
Definition Stack_rule : Rule :=
  PRule (MkParserRule #"Stack" false None
    (Group [ Keyword #"stack"; Repeat Many (Assignment #"mods" AssignAdd (RuleCall 33)); Keyword #"{";
             Repeat Many (Assignment #"body" AssignAdd (RuleCall 5)); Keyword #"}" ])).

(** 8 *)
Definition Row_rule : Rule :=
  PRule (MkParserRule #"Row" false None
    (Group [ Keyword #"row"; Repeat Many (Assignment #"mods" AssignAdd (RuleCall 33)); Keyword #"{";
             Repeat Many (Assignment #"body" AssignAdd (RuleCall 5)); Keyword #"}" ])).

(** 9 *)
Definition Grid_rule : Rule :=
  PRule (MkParserRule #"Grid" false None
    (Group [ Keyword #"grid"; Keyword #"cols"; Keyword #"="; Assignment #"cols" AssignSet (RuleCall 46);
             Repeat Many (Assignment #"mods" AssignAdd (RuleCall 33)); Keyword #"{";
             Repeat Many (Assignment #"body" AssignAdd (RuleCall 5)); Keyword #"}" ])).

(** 10 *)
Definition Tabs_rule : Rule :=
  PRule (MkParserRule #"Tabs" false None
    (Group [ Keyword #"tabs"; Repeat Many (Assignment #"mods" AssignAdd (RuleCall 33)); Keyword #"{";
             Repeat AtLeastOne (Assignment #"tabs" AssignAdd (RuleCall 11)); Keyword #"}" ])).

(** 11 *)
Definition Tab_rule : Rule :=
  PRule (MkParserRule #"Tab" false None
    (Group [ Keyword #"tab"; Assignment #"caption" AssignSet (RuleCall 47); Keyword #"{";
             Repeat Many (Assignment #"body" AssignAdd (RuleCall 5)); Keyword #"}" ])).

(** 12 *)
Definition Accordion_rule : Rule :=
  PRule (MkParserRule #"Accordion" false None
    (Group [ Keyword #"accordion"; Repeat Many (Assignment #"mods" AssignAdd (RuleCall 33)); Keyword #"{";
             Repeat AtLeastOne (Assignment #"items" AssignAdd (RuleCall 13)); Keyword #"}" ])).

(** 13 *)
Definition AccordionItem_rule : Rule :=
  PRule (MkParserRule #"AccordionItem" false None
    (Group [ Keyword #"item"; Assignment #"caption" AssignSet (RuleCall 47);
             Repeat Optional (Assignment #"open" AssignFlag (Keyword #"open")); Keyword #"{";
             Repeat Many (Assignment #"body" AssignAdd (RuleCall 5)); Keyword #"}" ])).

(** 14 *)
Definition Card_rule : Rule :=
  PRule (MkParserRule #"Card" false None
    (Group [ Keyword #"card"; Repeat Optional (Assignment #"caption" AssignSet (RuleCall 47));
             Repeat Many (Assignment #"mods" AssignAdd (RuleCall 33)); Keyword #"{";
             Repeat Many (Assignment #"body" AssignAdd (RuleCall 5)); Keyword #"}" ])).

(** 15 *)
Definition Divider_rule : Rule :=
  PRule (MkParserRule #"Divider" false None (Group [ Action #"Divider"; Keyword #"divider" ])).

(** 16 *)
Definition Separator_rule : Rule :=
  PRule (MkParserRule #"Separator" false None (Group [ Action #"Separator"; Keyword #"sep" ])).

(** 17 *)
Definition Table_rule : Rule :=
  PRule (MkParserRule #"Table" false None
    (Group [ Keyword #"table"; Keyword #"->"; Assignment #"rowSource" AssignSet (RuleCall 42);
             Keyword #"{"; Repeat Many (Assignment #"actions" AssignAdd (RuleCall 28));
             Repeat AtLeastOne (Assignment #"columns" AssignAdd (RuleCall 18)); Keyword #"}" ])).

(** 18 *)
Definition Column_rule : Rule :=
  PRule (MkParserRule #"Column" false None
    (Group [ Keyword #"column"; Assignment #"field" AssignSet (RuleCall 42);
             Assignment #"caption" AssignSet (RuleCall 47);
             Repeat Many (Assignment #"mods" AssignAdd (RuleCall 19)) ])).

(** 19 *)
Definition ColumnModifier_rule : Rule :=
  PRule (MkParserRule #"ColumnModifier" false None
    (Alternatives [ Group [ Action #"ColumnWidth"; Keyword #"width"; Keyword #"=";
                            Assignment #"value" AssignSet (RuleCall 46) ];
                    Group [ Action #"ColumnFormat"; Keyword #"format"; Keyword #"=";
                            Assignment #"fmt" AssignSet (RuleCall 39) ] ])).

(** 20 *)
Definition Widget_rule : Rule :=
  PRule (MkParserRule #"Widget" false None
    (Group [ Assignment #"kind" AssignSet (RuleCall 21);
             Repeat Optional (Assignment #"caption" AssignSet (RuleCall 47)); Keyword #"->";
             Assignment #"bind" AssignSet (RuleCall 42);
             Repeat Many (Assignment #"mods" AssignAdd (RuleCall 32)) ])).

(** 21 *)
Definition WidgetKind_rule : Rule :=
  PRule (MkParserRule #"WidgetKind" false (Some #"string")
    (Alternatives [ Keyword #"text"; Keyword #"textarea"; Keyword #"number"; Keyword #"password";
                    Keyword #"email"; Keyword #"date"; Keyword #"daterange"; Keyword #"time";
                    Keyword #"select"; Keyword #"multiselect"; Keyword #"combobox"; Keyword #"radio";
                    Keyword #"check"; Keyword #"switch"; Keyword #"slider"; Keyword #"rangeslider";
                    Keyword #"rating"; Keyword #"color"; Keyword #"file"; Keyword #"progress";
                    Keyword #"badge"; Keyword #"avatar" ])).

(** 22 *)
Definition Button_rule : Rule :=
  PRule (MkParserRule #"Button" false None
    (Group [ Keyword #"button"; Assignment #"caption" AssignSet (RuleCall 47);
             Repeat Optional (Group [ Keyword #":"; Assignment #"actionRef" AssignSet (RuleCall 45) ]);
             Repeat Many (Assignment #"mods" AssignAdd (RuleCall 33)) ])).

(** 23 *)
Definition LinkWidget_rule : Rule :=
  PRule (MkParserRule #"LinkWidget" false None
    (Group [ Keyword #"link"; Assignment #"caption" AssignSet (RuleCall 47); Keyword #"href";
             Keyword #"="; Assignment #"href" AssignSet (RuleCall 47);
             Repeat Many (Assignment #"mods" AssignAdd (RuleCall 33)) ])).

(** 24 *)
Definition IconWidget_rule : Rule :=
  PRule (MkParserRule #"IconWidget" false None
    (Group [ Keyword #"icon"; Assignment #"name" AssignSet (RuleCall 47);
             Repeat Many (Assignment #"mods" AssignAdd (RuleCall 36)) ])).

(** 25 *)
Definition RichText_rule : Rule :=
  PRule (MkParserRule #"RichText" false None
    (Group [ Keyword #"richtext"; Keyword #"{";
             Repeat AtLeastOne (Assignment #"spans" AssignAdd (RuleCall 26)); Keyword #"}" ])).

(** 26 *)
Definition RichTextSpan_rule : Rule :=
  PRule (MkParserRule #"RichTextSpan" false None
    (Group [ Assignment #"style" AssignSet (RuleCall 27); Assignment #"text" AssignSet (RuleCall 47) ])).

(** 27 *)
Definition RichTextStyle_rule : Rule :=
  PRule (MkParserRule #"RichTextStyle" false (Some #"string")
    (Alternatives [ Keyword #"plain"; Keyword #"bold"; Keyword #"italic"; Keyword #"heading";
                    Keyword #"subheading"; Keyword #"mono" ])).

(** 28 *)
Definition ViewAction_rule : Rule :=
  PRule (MkParserRule #"ViewAction" false None
    (Group [ Assignment #"event" AssignSet (RuleCall 29); Keyword #"->";
             Assignment #"target" AssignSet (RuleCall 45);
             Repeat Many (Assignment #"navMods" AssignAdd (RuleCall 30)) ])).

(** 29 *)
Definition ViewActionEvent_rule : Rule :=
  PRule (MkParserRule #"ViewActionEvent" false (Some #"string")
    (Alternatives [ Keyword #"on_select"; Keyword #"on_new"; Keyword #"on_edit" ])).

(** 30 *)
Definition NavModifier_rule : Rule :=
  PRule (MkParserRule #"NavModifier" false None
    (Alternatives [ Group [ Action #"Bind"; Keyword #"bind"; Keyword #"=";
                            Assignment #"source" AssignSet (RuleCall 42) ];
                    Group [ Action #"As"; Keyword #"as"; Assignment #"target" AssignSet (RuleCall 31) ];
                    Group [ Action #"Confirm"; Keyword #"confirm"; Keyword #"=";
                            Assignment #"message" AssignSet (RuleCall 47) ] ])).

(** 31 *)
Definition PresentationTarget_rule : Rule :=
  PRule (MkParserRule #"PresentationTarget" false (Some #"string")
    (Alternatives [ Keyword #"tab"; Keyword #"modal"; Keyword #"window"; Keyword #"replace" ])).

(** 32 *)
Definition WidgetModifier_rule : Rule :=
  PRule (MkParserRule #"WidgetModifier" false None
    (Alternatives [ Group [ Action #"WidgetReadOnly"; Keyword #"readonly" ];
                    Group [ Action #"WidgetFocus"; Keyword #"focus" ];
                    Group [ Action #"WidgetExpand"; Keyword #"expand" ];
                    Group [ Action #"WidgetPlaceholder"; Keyword #"placeholder"; Keyword #"=";
                            Assignment #"value" AssignSet (RuleCall 47) ];
                    Group [ Action #"WidgetFormat"; Keyword #"format"; Keyword #"=";
                            Assignment #"fmt" AssignSet (RuleCall 39) ];
                    Group [ Action #"WidgetMin"; Keyword #"min"; Keyword #"=";
                            Assignment #"value" AssignSet (RuleCall 46) ];
                    Group [ Action #"WidgetMax"; Keyword #"max"; Keyword #"=";
                            Assignment #"value" AssignSet (RuleCall 46) ];
                    Group [ Action #"WidgetStep"; Keyword #"step"; Keyword #"=";
                            Assignment #"value" AssignSet (RuleCall 46) ];
                    RuleCall 33 ])).

(** 33 *)
Definition LayoutMod_rule : Rule :=
  PRule (MkParserRule #"LayoutMod" false None
    (Alternatives [ Group [ Action #"Padding"; Assignment #"prop" AssignSet (RuleCall 34); Keyword #"=";
                            Assignment #"value" AssignSet (RuleCall 37) ];
                    Group [ Action #"Margin"; Assignment #"prop" AssignSet (RuleCall 35); Keyword #"=";
                            Assignment #"value" AssignSet (RuleCall 37) ];
                    Group [ Action #"Gap"; Keyword #"gap"; Keyword #"=";
                            Assignment #"value" AssignSet (RuleCall 37) ];
                    Group [ Action #"Cols"; Keyword #"cols"; Keyword #"=";
                            Assignment #"value" AssignSet (RuleCall 46) ];
                    Group [ Action #"Expand"; Keyword #"expand" ];
                    Group [ Action #"ScrollFlag"; Keyword #"scroll"; Keyword #"=";
                            Assignment #"scroll" AssignSet (RuleCall 44) ] ])).

(** 34 *)
Definition PaddingProp_rule : Rule :=
  PRule (MkParserRule #"PaddingProp" false (Some #"string")
    (Alternatives [ Keyword #"p"; Keyword #"pt"; Keyword #"pb"; Keyword #"pl"; Keyword #"pr";
                    Keyword #"px"; Keyword #"py" ])).

(** 35 *)
Definition MarginProp_rule : Rule :=
  PRule (MkParserRule #"MarginProp" false (Some #"string")
    (Alternatives [ Keyword #"m"; Keyword #"mt"; Keyword #"mb"; Keyword #"ml"; Keyword #"mr";
                    Keyword #"mx"; Keyword #"my" ])).

(** 36 *)
Definition IconModifier_rule : Rule :=
  PRule (MkParserRule #"IconModifier" false None
    (Alternatives [ Group [ Action #"IconSize"; Keyword #"size"; Keyword #"=";
                            Assignment #"value" AssignSet (RuleCall 46) ];
                    RuleCall 33 ])).

(** 37 *)
Definition SpacingValue_rule : Rule :=
  PRule (MkParserRule #"SpacingValue" false None
    (Alternatives [ Group [ Action #"SpacingToken"; Assignment #"token" AssignSet (RuleCall 38) ];
                    Group [ Action #"SpacingScale"; Assignment #"value" AssignSet (RuleCall 46) ] ])).

(** 38 *)
Definition SpacingTokenName_rule : Rule :=
  PRule (MkParserRule #"SpacingTokenName" false (Some #"string")
    (Alternatives [ Keyword #"xs"; Keyword #"sm"; Keyword #"md"; Keyword #"lg"; Keyword #"xl" ])).

(** 39 *)
Definition FormatToken_rule : Rule :=
  PRule (MkParserRule #"FormatToken" false None
    (Group [ Assignment #"kind" AssignSet (RuleCall 40);
             Repeat Optional (Group [ Keyword #":"; Assignment #"detail" AssignSet (RuleCall 41) ]) ])).

(** 40 *)
Definition FormatKind_rule : Rule :=
  PRule (MkParserRule #"FormatKind" false (Some #"string")
    (Alternatives [ Keyword #"currency"; Keyword #"number"; Keyword #"percent"; Keyword #"datetime";
                    Keyword #"date"; Keyword #"time" ])).

(** 41 *)
Definition FormatDetail_rule : Rule :=
  PRule (MkParserRule #"FormatDetail" false (Some #"string")
    (Alternatives [ RuleCall 46; Keyword #"short"; Keyword #"medium"; Keyword #"long"; Keyword #"full" ])).

(** 42 *)
Definition FieldRef_rule : Rule :=
  PRule (MkParserRule #"FieldRef" false None
    (Group [ Assignment #"domain" AssignSet (RuleCall 43); Keyword #".";
             Assignment #"field" AssignSet (RuleCall 43) ])).

(** 43 *)
Definition IdentName_rule : Rule :=
  PRule (MkParserRule #"IdentName" false (Some #"string")
    (Alternatives [ RuleCall 45; Keyword #"p"; Keyword #"pt"; Keyword #"pb"; Keyword #"pl"; Keyword #"pr";
                    Keyword #"px"; Keyword #"py"; Keyword #"m"; Keyword #"mt"; Keyword #"mb";
                    Keyword #"ml"; Keyword #"mr"; Keyword #"mx"; Keyword #"my"; Keyword #"text";
                    Keyword #"textarea"; Keyword #"number"; Keyword #"password"; Keyword #"email";
                    Keyword #"date"; Keyword #"daterange"; Keyword #"time"; Keyword #"select";
                    Keyword #"multiselect"; Keyword #"combobox"; Keyword #"radio"; Keyword #"check";
                    Keyword #"switch"; Keyword #"slider"; Keyword #"rangeslider"; Keyword #"rating";
                    Keyword #"color"; Keyword #"file"; Keyword #"progress"; Keyword #"badge";
                    Keyword #"avatar"; Keyword #"tags"; Keyword #"json"; Keyword #"currency";
                    Keyword #"percent"; Keyword #"datetime"; Keyword #"save"; Keyword #"delete";
                    Keyword #"exit"; Keyword #"new"; Keyword #"open"; Keyword #"expand"; Keyword #"link";
                    Keyword #"icon"; Keyword #"button"; Keyword #"label"; Keyword #"href";
                    Keyword #"short"; Keyword #"medium"; Keyword #"long"; Keyword #"full";
                    Keyword #"on_select"; Keyword #"on_new"; Keyword #"on_edit" ])).

(** 44 *)
Definition BoolLit_rule : Rule :=
  PRule (MkParserRule #"BoolLit" false (Some #"string")
    (Alternatives [ Keyword #"true"; Keyword #"false" ])).

(** 45 *)
Definition ID_rule : Rule :=
  TRule (MkTerminalRule #"ID" false None #"/[_a-zA-Z][\w_]*/").

(** 46 *)
Definition NUMBER_rule : Rule :=
  TRule (MkTerminalRule #"NUMBER" false (Some #"number") #"/-?[0-9]+(\.[0-9]+)?/").

(** 47 *)
Definition STRING_rule : Rule :=
  TRule (MkTerminalRule #"STRING" false None (#"/" ++ [34]%N ++ #"(\\.|[^" ++ [34]%N ++ #"\\])*" ++ [34]%N ++ #"/")).

(** 48 *)
Definition WS_rule : Rule :=
  TRule (MkTerminalRule #"WS" true None #"/\s+/").

(** 49 *)
Definition ML_COMMENT_rule : Rule :=
  TRule (MkTerminalRule #"ML_COMMENT" true None #"/\/\*[\s\S]*?\*\//").

(** 50 *)
Definition SL_COMMENT_rule : Rule :=
  TRule (MkTerminalRule #"SL_COMMENT" true None #"/\/\/[^\n\r]*/").

Definition ViewGrammar : Grammar :=
  MkGrammar #"View"
    [ ViewModel_rule; ViewDecl_rule; AutoRefresh_rule; DomainBinding_rule; ToolbarItem_rule; BodyElement_rule;
      Section_rule; Stack_rule; Row_rule; Grid_rule; Tabs_rule; Tab_rule; Accordion_rule; AccordionItem_rule;
      Card_rule; Divider_rule; Separator_rule; Table_rule; Column_rule; ColumnModifier_rule; Widget_rule;
      WidgetKind_rule; Button_rule; LinkWidget_rule; IconWidget_rule; RichText_rule; RichTextSpan_rule;
      RichTextStyle_rule; ViewAction_rule; ViewActionEvent_rule; NavModifier_rule; PresentationTarget_rule;
      WidgetModifier_rule; LayoutMod_rule; PaddingProp_rule; MarginProp_rule; IconModifier_rule;
      SpacingValue_rule; SpacingTokenName_rule; FormatToken_rule; FormatKind_rule; FormatDetail_rule;
      FieldRef_rule; IdentName_rule; BoolLit_rule; ID_rule; NUMBER_rule; STRING_rule; WS_rule; ML_COMMENT_rule;
      SL_COMMENT_rule ].
