(* ===== verification/PipelineGrammar.v ===== *)
(** The grammar of pipelines: the rules of
    [packages/oos-pipeline-ts/src/generated/grammar.ts], in their order, under the number
    that the references of the file use.  Fields that are the same in every
    rule of the file (no fragments, parameters or call arguments) are left
    out. *)

From S2P Require Export Grammar.

#[local] Set Warnings "-register-all".

(** 0 *)
Definition PipelineDef_rule : Rule :=
  PRule (MkParserRule #"PipelineDef" true None
    (Group [ Keyword #"pipeline"; Assignment #"name" AssignSet (RuleCall 29); Keyword #"{";
             Repeat AtLeastOne (Assignment #"sources" AssignAdd (RuleCall 1));
             Assignment #"mode" AssignSet (RuleCall 4); Assignment #"llm" AssignSet (RuleCall 6);
             Repeat Optional (Assignment #"embedding" AssignSet (RuleCall 7));
             Repeat AtLeastOne (Assignment #"steps" AssignAdd (RuleCall 8));
             Assignment #"out" AssignSet (RuleCall 24); Keyword #"}" ])).

(** 1 *)
Definition Source_rule : Rule :=
  PRule (MkParserRule #"Source" false None (Alternatives [ RuleCall 2; RuleCall 3 ])).

(** 2 *)
Definition SourceDb_rule : Rule :=
  PRule (MkParserRule #"SourceDb" false None
    (Group [ Keyword #"source"; Keyword #"db"; Assignment #"name" AssignSet (RuleCall 26);
             Keyword #"from"; Assignment #"table" AssignSet (RuleCall 26);
             Repeat Optional (Group [ Keyword #"dsn="; Assignment #"dsn" AssignSet (RuleCall 29) ]) ])).

(** 3 *)
Definition SourceDocs_rule : Rule :=
  PRule (MkParserRule #"SourceDocs" false None
    (Group [ Keyword #"source"; Keyword #"docs"; Assignment #"name" AssignSet (RuleCall 26);
             Keyword #"uri="; Assignment #"uri" AssignSet (RuleCall 29) ])).

(** 4 *)
Definition ModeDecl_rule : Rule :=
  PRule (MkParserRule #"ModeDecl" false None
    (Group [ Keyword #"mode"; Assignment #"value" AssignSet (RuleCall 5) ])).

(** 5 *)
Definition PipelineMode_rule : Rule :=
  PRule (MkParserRule #"PipelineMode" false (Some #"string")
    (Alternatives [ Keyword #"context"; Keyword #"mass" ])).

(** 6 *)
Definition LlmDecl_rule : Rule :=
  PRule (MkParserRule #"LlmDecl" false None
    (Group [ Keyword #"llm"; Assignment #"model" AssignSet (RuleCall 29) ])).

(** 7 *)
Definition EmbeddingDecl_rule : Rule :=
  PRule (MkParserRule #"EmbeddingDecl" false None
    (Group [ Keyword #"embedding"; Assignment #"model" AssignSet (RuleCall 29) ])).

(** 8 *)
Definition Step_rule : Rule :=
  PRule (MkParserRule #"Step" false None (Alternatives [ RuleCall 9; RuleCall 10; RuleCall 22 ])).

(** 9 *)
Definition StepWhere_rule : Rule :=
  PRule (MkParserRule #"StepWhere" false None
    (Group [ Keyword #"step"; Keyword #"where"; Assignment #"name" AssignSet (RuleCall 26); Keyword #"{";
             Keyword #"from"; Assignment #"source" AssignSet (CrossReference 2 (RuleCall 26));
             Repeat Many (Alternatives [ Group [ Keyword #"limit";
                                                 Assignment #"limit" AssignSet (RuleCall 27) ];
                                         Group [ Keyword #"where"; Keyword #"{";
                                                 Assignment #"where" AssignSet (RuleCall 12);
                                                 Keyword #"}" ] ]);
             Keyword #"}" ])).

(** 10 *)
Definition StepSemantic_rule : Rule :=
  PRule (MkParserRule #"StepSemantic" false None
    (Group [ Keyword #"step"; Keyword #"semantic"; Assignment #"name" AssignSet (RuleCall 26);
             Keyword #"{"; Keyword #"from"; Assignment #"source" AssignSet (RuleCall 26);
             Repeat Optional (Group [ Keyword #"where"; Keyword #"{";
                                      Assignment #"where" AssignSet (RuleCall 12); Keyword #"}" ]);
             Repeat AtLeastOne (Assignment #"queries" AssignAdd (RuleCall 11));
             Repeat Optional (Group [ Keyword #"limit"; Assignment #"limit" AssignSet (RuleCall 27) ]);
             Keyword #"}" ])).

(** 11 *)
Definition SemanticQuery_rule : Rule :=
  PRule (MkParserRule #"SemanticQuery" false None
    (Group [ Keyword #"query"; Assignment #"value" AssignSet (RuleCall 29) ])).

(** 12 *)
Definition WhereExpr_rule : Rule :=
  PRule (MkParserRule #"WhereExpr" false None
    (Alternatives [ RuleCall 13; RuleCall 14; RuleCall 15; RuleCall 16 ])).

(** 13 *)
Definition AndExpr_rule : Rule :=
  PRule (MkParserRule #"AndExpr" false None
    (Group [ Keyword #"_and"; Keyword #":"; Keyword #"{";
             Repeat AtLeastOne (Assignment #"exprs" AssignAdd (RuleCall 12)); Keyword #"}" ])).

(** 14 *)
Definition OrExpr_rule : Rule :=
  PRule (MkParserRule #"OrExpr" false None
    (Group [ Keyword #"_or"; Keyword #":"; Keyword #"{";
             Repeat AtLeastOne (Assignment #"exprs" AssignAdd (RuleCall 12)); Keyword #"}" ])).

(** 15 *)
Definition NotExpr_rule : Rule :=
  PRule (MkParserRule #"NotExpr" false None
    (Group [ Keyword #"_not"; Keyword #":"; Keyword #"{"; Assignment #"expr" AssignSet (RuleCall 12);
             Keyword #"}" ])).

(** 16 *)
Definition FieldFilter_rule : Rule :=
  PRule (MkParserRule #"FieldFilter" false None
    (Group [ Keyword #"{"; Assignment #"field" AssignSet (RuleCall 26); Keyword #":"; Keyword #"{";
             Assignment #"op" AssignSet (RuleCall 17); Keyword #":";
             Assignment #"value" AssignSet (RuleCall 18); Keyword #"}"; Keyword #"}" ])).

(** 17 *)
Definition FilterOp_rule : Rule :=
  PRule (MkParserRule #"FilterOp" false (Some #"string")
    (Alternatives [ Keyword #"_eq"; Keyword #"_neq"; Keyword #"_gt"; Keyword #"_gte"; Keyword #"_lt";
                    Keyword #"_lte"; Keyword #"_like"; Keyword #"_ilike"; Keyword #"_in" ])).

(** 18 *)
Definition FilterValue_rule : Rule :=
  PRule (MkParserRule #"FilterValue" false None (Alternatives [ RuleCall 19; RuleCall 20; RuleCall 21 ])).

(** 19 *)
Definition StringValue_rule : Rule :=
  PRule (MkParserRule #"StringValue" false None (Assignment #"value" AssignSet (RuleCall 29))).

(** 20 *)
Definition NumberValue_rule : Rule :=
  PRule (MkParserRule #"NumberValue" false None (Assignment #"value" AssignSet (RuleCall 28))).

(** 21 *)
Definition ParamRef_rule : Rule :=
  PRule (MkParserRule #"ParamRef" false None
    (Group [ Keyword #":"; Assignment #"param" AssignSet (RuleCall 26) ])).

(** 22 *)
Definition StepLlm_rule : Rule :=
  PRule (MkParserRule #"StepLlm" false None
    (Group [ Keyword #"step"; Keyword #"llm"; Assignment #"name" AssignSet (RuleCall 26); Keyword #"{";
             Keyword #"from"; Assignment #"source" AssignSet (RuleCall 26);
             Repeat Optional (Group [ Keyword #"input";
                                      Assignment #"input" AssignSet (CrossReference 8 (RuleCall 26)) ]);
             Keyword #"mode"; Assignment #"mode" AssignSet (RuleCall 23);
             Repeat Optional (Group [ Keyword #"system"; Assignment #"system" AssignSet (RuleCall 29) ]);
             Keyword #"prompt"; Assignment #"prompt" AssignSet (RuleCall 29); Keyword #"}" ])).

(** 23 *)
Definition StepMode_rule : Rule :=
  PRule (MkParserRule #"StepMode" false (Some #"string")
    (Alternatives [ Keyword #"per-row"; Keyword #"aggregate" ])).

(** 24 *)
Definition OutDecl_rule : Rule :=
  PRule (MkParserRule #"OutDecl" false None
    (Group [ Keyword #"out"; Assignment #"target" AssignSet (RuleCall 25);
             Repeat Optional (Group [ Keyword #"subject"; Assignment #"subject" AssignSet (RuleCall 29) ]) ])).

(** 25 *)
Definition OutTarget_rule : Rule :=
  PRule (MkParserRule #"OutTarget" false (Some #"string")
    (Alternatives [ Keyword #"editor"; Keyword #"nats"; Keyword #"file" ])).

(** 26 *)
Definition ID_rule : Rule :=
  TRule (MkTerminalRule #"ID" false None #"/[_a-zA-Z][\w-]*/").

(** 27 *)
Definition INT_rule : Rule :=
  TRule (MkTerminalRule #"INT" false (Some #"number") #"/[0-9]+/").

(** 28 *)
Definition NUMBER_rule : Rule :=
  TRule (MkTerminalRule #"NUMBER" false (Some #"number") #"/-?[0-9]+(\.[0-9]+)?/").

(** 29 *)
Definition STRING_rule : Rule :=
  TRule (MkTerminalRule #"STRING" false None (#"/" ++ [34]%N ++ #"[^" ++ [34]%N ++ #"]*" ++ [34]%N ++ #"|'[^']*'/")).

(** 30 *)
Definition WS_rule : Rule :=
  TRule (MkTerminalRule #"WS" true None #"/\s+/").

(** 31 *)
Definition SL_COMMENT_rule : Rule :=
  TRule (MkTerminalRule #"SL_COMMENT" true None #"/\/\/[^\n\r]*/").

(** 32 *)
Definition ML_COMMENT_rule : Rule :=
  TRule (MkTerminalRule #"ML_COMMENT" true None #"/\/\*[\s\S]*?\*\//").

Definition PipelineGrammar : Grammar :=
  MkGrammar #"Pipeline"
    [ PipelineDef_rule; Source_rule; SourceDb_rule; SourceDocs_rule; ModeDecl_rule; PipelineMode_rule;
      LlmDecl_rule; EmbeddingDecl_rule; Step_rule; StepWhere_rule; StepSemantic_rule; SemanticQuery_rule;
      WhereExpr_rule; AndExpr_rule; OrExpr_rule; NotExpr_rule; FieldFilter_rule; FilterOp_rule;
      FilterValue_rule; StringValue_rule; NumberValue_rule; ParamRef_rule; StepLlm_rule; StepMode_rule;
      OutDecl_rule; OutTarget_rule; ID_rule; INT_rule; NUMBER_rule; STRING_rule; WS_rule; SL_COMMENT_rule;
      ML_COMMENT_rule ].
