(* ===== verification/Languages.v ===== *)
(** The four languages of the repository: parsing ends, and which names one
    language accepts where another one uses them. *)

From S2P Require Export GrammarLaws DslTypes Pipeline.
From S2P Require DomainGrammar EventSchemaGrammar ViewGrammar PipelineGrammar.
Import DomainGrammar(DomainGrammar).
Import EventSchemaGrammar(EventSchemaGrammar).
Import ViewGrammar(ViewGrammar).
Import PipelineGrammar(PipelineGrammar).

#[local] Set Warnings "-register-all".

Definition languages : list Grammar := [DomainGrammar; EventSchemaGrammar; ViewGrammar; PipelineGrammar].

(** * Parsing ends *)

(** No rule of the four matches nothing; these orders show that no rule
    starts with itself. *)
Definition no_nulls (g : Grammar) : list bool := replicate (length (rules g)) false.

Definition start_ranks (high : list (nat * nat)) (g : Grammar) : list nat :=
  foldr (λ p l, <[p.1 := p.2]> l) (replicate (length (rules g)) 0) high.

Definition domain_ranks : list nat := start_ranks [(0, 1); (2, 1)] DomainGrammar.
Definition event_ranks : list nat := start_ranks [(0, 1); (2, 1)] EventSchemaGrammar.
Definition view_ranks : list nat :=
  start_ranks [(0, 1); (5, 2); (20, 1); (26, 1); (28, 1); (32, 2); (33, 1); (36, 2); (37, 1); (39, 1); (42, 1)]
    ViewGrammar.
Definition pipeline_ranks : list nat := start_ranks [(1, 1); (8, 1); (12, 1); (18, 1)] PipelineGrammar.

Lemma languages_well_founded :
  well_founded_grammar DomainGrammar (no_nulls DomainGrammar) domain_ranks = true ∧
  well_founded_grammar EventSchemaGrammar (no_nulls EventSchemaGrammar) event_ranks = true ∧
  well_founded_grammar ViewGrammar (no_nulls ViewGrammar) view_ranks = true ∧
  well_founded_grammar PipelineGrammar (no_nulls PipelineGrammar) pipeline_ranks = true.
Proof. vm_compute. by split_and!. Qed.

(** C19: Recursive descent over each of the four grammars ends on every token
    sequence, well formed or not, and decides whether the sequence is a
    sentence of the language: no rule is left recursive and no repetition
    loops on nothing. *)
Theorem parsing_ends g toks :
  g ∈ languages →
  ∃ n b, (∀ m, n ≤ m → accepts g m toks = Some b) ∧ (b = true ↔ derives g (RuleCall 0) toks).
Proof.
  intros Hg. destruct languages_well_founded as (Hd & He & Hv & Hp).
  assert (∃ nulls ranks, well_founded_grammar g nulls ranks = true) as (nulls & ranks & Hwf).
  { repeat (apply elem_of_cons in Hg as [->|Hg]; [by eauto|]). by apply elem_of_nil in Hg. }
  destruct (accepts_decides g nulls ranks Hwf toks) as (n & Hm & b & Hb & Hiff).
  exists n, b. split; [|done]. intros m Hle. by rewrite Hm.
Qed.

(** * Sample sentences *)

Definition key (s : str) : token := TKey s.
Definition domain_id (s : str) : token := TTerm 16 s.

(** [domain person from person @ demo { permission admin read, write
    field id: int readonly aliases [STRING] }] *)
Definition sample_domain : list token :=
  [ key #"domain"; domain_id #"person"; key #"from"; domain_id #"person"; key #"@"; domain_id #"demo"; key #"{";
    key #"permission"; domain_id #"admin"; key #"read"; key #","; key #"write";
    key #"field"; domain_id #"id"; key #":"; key #"int"; key #"readonly";
    key #"aliases"; key #"["; TTerm 18 #"Leute"; key #"]"; key #"}" ].

Example sample_domain_accepted :
  accepts DomainGrammar 40 sample_domain = Some true ∧ accepts DomainGrammar 40 (take 20 sample_domain) = Some false.
Proof. vm_compute. by split. Qed.

Lemma parsing_ends_witness :
  ∃ n b, (∀ m, n ≤ m → accepts DomainGrammar m sample_domain = Some b) ∧
         (b = true ↔ derives DomainGrammar (RuleCall 0) sample_domain).
Proof. apply parsing_ends. by left. Defined.

(** * Enumerations *)

(** A rule that lists keywords. *)
Lemma rule_words g r p ks w :
  rules g !! r = Some (PRule p) → definition p = Alternatives (Keyword <$> ks) →
  derives g (RuleCall r) w ↔ ∃ k, k ∈ ks ∧ w = [TKey k].
Proof.
  intros Hr Hp. rewrite (derives_call g r p) by done. rewrite Hp, derives_alternatives. split.
  - intros (e & (k & -> & Hk)%list_elem_of_fmap & ->%derives_keyword). by exists k.
  - intros (k & Hk & ->). exists (Keyword k). split; [by apply list_elem_of_fmap_2|constructor].
Qed.

(** A rule offers exactly the names of an enumeration. *)
Definition offers {A} (g : Grammar) (r : nat) (name : A → str) (P : A → Prop) : Prop :=
  ∀ w, derives g (RuleCall r) w ↔ ∃ x, P x ∧ w = [TKey (name x)].

Lemma offers_words {A} g r (name : A → str) (P : A → Prop) p (xs : list A) :
  rules g !! r = Some (PRule p) → definition p = Alternatives (Keyword <$> (name <$> xs)) →
  (∀ x, P x ↔ x ∈ xs) → offers g r name P.
Proof.
  intros Hr Hp HP w. rewrite (rule_words g r p (name <$> xs)) by done. split.
  - intros (k & (x & -> & Hx)%list_elem_of_fmap & ->). exists x. by rewrite HP.
  - intros (x & Hx%HP & ->). exists (name x). split; [by apply list_elem_of_fmap_2|done].
Qed.

(** The literals of the unions in [types.ts]. *)
Definition example_op_name (o : ExampleOpDef) : str :=
  match o with OpEq => #"eq" | OpNe => #"ne" | OpLt => #"lt" | OpLe => #"le" | OpGt => #"gt" | OpGe => #"ge"
             | OpLike => #"like" | OpIn => #"in" end.
Definition padding_name (p : PaddingProp) : str :=
  match p with Pp => #"p" | Ppt => #"pt" | Ppb => #"pb" | Ppl => #"pl" | Ppr => #"pr" | Ppx => #"px"
             | Ppy => #"py" end.
Definition margin_name (p : MarginProp) : str :=
  match p with Mm => #"m" | Mmt => #"mt" | Mmb => #"mb" | Mml => #"ml" | Mmr => #"mr" | Mmx => #"mx"
             | Mmy => #"my" end.
Definition spacing_token_name (t : SpacingTokenName) : str :=
  match t with Xs => #"xs" | Sm => #"sm" | Md => #"md" | Lg => #"lg" | Xl => #"xl" end.
Definition target_name (t : PresentationTargetDef) : str :=
  match t with TargetTab => #"tab" | TargetModal => #"modal" | TargetWindow => #"window"
             | TargetReplace => #"replace" end.
Definition event_name (e : ViewActionEventDef) : str :=
  match e with OnSelect => #"on_select" | OnNew => #"on_new" | OnEdit => #"on_edit" end.
Definition format_kind_name (k : FormatKind) : str :=
  match k with FmtCurrency => #"currency" | FmtNumber => #"number" | FmtPercent => #"percent"
             | FmtDatetime => #"datetime" | FmtDate => #"date" | FmtTime => #"time" end.
Definition rich_style_name (s : RichTextStyle) : str :=
  match s with Plain => #"plain" | Bold => #"bold" | Italic => #"italic" | Heading => #"heading"
             | Subheading => #"subheading" | Mono => #"mono" end.
Definition widget_kind_name (k : WidgetKindDef) : str :=
  match k with
  | WText => #"text" | WTextarea => #"textarea" | WNumber => #"number" | WPassword => #"password"
  | WEmail => #"email" | WDate => #"date" | WDaterange => #"daterange" | WTime => #"time"
  | WSelect => #"select" | WMultiselect => #"multiselect" | WCombobox => #"combobox" | WRadio => #"radio"
  | WCheck => #"check" | WSwitch => #"switch" | WSlider => #"slider" | WRangeslider => #"rangeslider"
  | WRating => #"rating" | WColor => #"color" | WFile => #"file" | WProgress => #"progress"
  | WBadge => #"badge" | WAvatar => #"avatar" | WTags => #"tags" | WJson => #"json"
  end.
Definition pipeline_mode_name (m : PipelineMode) : str :=
  match m with ModeContext => #"context" | ModeMass => #"mass" end.
Definition step_mode_name (m : StepMode) : str :=
  match m with PerRow => #"per-row" | Aggregate => #"aggregate" end.
Definition filter_op_name (o : FilterOp) : str :=
  match o with FEq => #"_eq" | FNeq => #"_neq" | FGt => #"_gt" | FGte => #"_gte" | FLt => #"_lt"
             | FLte => #"_lte" | FLike => #"_like" | FIlike => #"_ilike" | FIn => #"_in" end.
Definition out_target_name (t : OutTarget) : str :=
  match t with OutEditor => #"editor" | OutNats => #"nats" | OutFile => #"file" end.

Ltac offers_list xs :=
  eapply (offers_words _ _ _ _ _ xs); [reflexivity|reflexivity|];
  intros x; split;
  [ destruct x; intros H; try (by destruct H as [? ?]); repeat first [by left|right]
  | intros H; repeat (apply elem_of_cons in H as [->|H]; [by repeat split|]); by apply elem_of_nil in H ].

(** The enumerations the mappers produce are the ones the grammars offer:
    each rule that names a kind derives exactly the literals of its union,
    with one exception, the widget kinds [tags] and [json], which [types.ts]
    lists and no view can contain. *)
Theorem enumerations_agree :
  offers DomainGrammar 4 action_name (λ _, True) ∧ offers DomainGrammar 6 field_type_name (λ _, True) ∧
  offers DomainGrammar 9 example_op_name (λ _, True) ∧ offers DomainGrammar 12 relation_kind_name (λ _, True) ∧
  offers ViewGrammar 21 widget_kind_name (λ k, k ≠ WTags ∧ k ≠ WJson) ∧
  offers ViewGrammar 27 rich_style_name (λ _, True) ∧ offers ViewGrammar 29 event_name (λ _, True) ∧
  offers ViewGrammar 31 target_name (λ _, True) ∧ offers ViewGrammar 34 padding_name (λ _, True) ∧
  offers ViewGrammar 35 margin_name (λ _, True) ∧ offers ViewGrammar 38 spacing_token_name (λ _, True) ∧
  offers ViewGrammar 40 format_kind_name (λ _, True) ∧
  offers PipelineGrammar 5 pipeline_mode_name (λ _, True) ∧ offers PipelineGrammar 17 filter_op_name (λ _, True) ∧
  offers PipelineGrammar 23 step_mode_name (λ _, True) ∧ offers PipelineGrammar 25 out_target_name (λ _, True).
Proof.
  split_and!.
  - offers_list [Read; Write; DslTypes.Delete].
  - offers_list [TInt; TFloat; TString; TText; TBool; TDate; TDatetime].
  - offers_list [OpEq; OpNe; OpLt; OpLe; OpGt; OpGe; OpLike; OpIn].
  - offers_list [HasMany; HasOne; BelongsTo].
  - offers_list [WText; WTextarea; WNumber; WPassword; WEmail; WDate; WDaterange; WTime; WSelect; WMultiselect;
                 WCombobox; WRadio; WCheck; WSwitch; WSlider; WRangeslider; WRating; WColor; WFile; WProgress;
                 WBadge; WAvatar].
  - offers_list [Plain; Bold; Italic; Heading; Subheading; Mono].
  - offers_list [OnSelect; OnNew; OnEdit].
  - offers_list [TargetTab; TargetModal; TargetWindow; TargetReplace].
  - offers_list [Pp; Ppt; Ppb; Ppl; Ppr; Ppx; Ppy].
  - offers_list [Mm; Mmt; Mmb; Mml; Mmr; Mmx; Mmy].
  - offers_list [Xs; Sm; Md; Lg; Xl].
  - offers_list [FmtCurrency; FmtNumber; FmtPercent; FmtDatetime; FmtDate; FmtTime].
  - offers_list [ModeContext; ModeMass].
  - offers_list [FEq; FNeq; FGt; FGte; FLt; FLte; FLike; FIlike; FIn].
  - offers_list [PerRow; Aggregate].
  - offers_list [OutEditor; OutNats; OutFile].
Qed.

(** * Names across languages *)

(** The keywords of a grammar. *)
Fixpoint element_keywords (e : Element) : list str :=
  match e with
  | Keyword v => [v]
  | RuleCall _ | Action _ => []
  | Assignment _ _ e | CrossReference _ e | Repeat _ e => element_keywords e
  | Group es | Alternatives es => flat_map element_keywords es
  end.

Definition grammar_keywords (g : Grammar) : list str :=
  flat_map (λ r, match r with PRule p => element_keywords (definition p) | TRule _ => [] end) (rules g).

(** The token of a word: a keyword of the language, or else a text of the
    identifier rule [id]. *)
Definition word_token (g : Grammar) (id : nat) (w : str) : token :=
  if decide (w ∈ grammar_keywords g) then TKey w else TTerm id w.

(** The words that a domain file takes as the name of a field and a view file
    does not take in a reference to one. *)
Definition unreferable : list str :=
  [ #"default"; #"view"; #"over"; #"toolbar"; #"auto_refresh"; #"on"; #"confirm"; #"refresh"; #"section";
    #"stack"; #"row"; #"grid"; #"cols"; #"tabs"; #"tab"; #"accordion"; #"item"; #"card"; #"divider"; #"sep";
    #"table"; #"column"; #"width"; #"format"; #"richtext"; #"plain"; #"bold"; #"italic"; #"heading";
    #"subheading"; #"mono"; #"as"; #"modal"; #"window"; #"replace"; #"focus"; #"placeholder"; #"min"; #"max";
    #"step"; #"gap"; #"scroll"; #"size"; #"xs"; #"sm"; #"md"; #"lg"; #"xl"; #"true"; #"false" ].

(** The words [IdentName] lists beside the identifiers. *)
Definition ident_words : list str :=
  match rules ViewGrammar !! 43 with
  | Some (PRule p) => match definition p with Alternatives es => flat_map element_keywords es | _ => [] end
  | _ => []
  end.

Lemma ident_name_words t :
  derives ViewGrammar (RuleCall 43) [t] ↔ (∃ text, t = TTerm 45 text) ∨ ∃ k, k ∈ ident_words ∧ t = TKey k.
Proof.
  assert (∃ p, rules ViewGrammar !! 43 = Some (PRule p) ∧
               definition p = Alternatives (RuleCall 45 :: (Keyword <$> ident_words))) as (p & Hr & Hp).
  { eexists. split; [reflexivity|]. vm_compute. reflexivity. }
  assert (∃ tr, rules ViewGrammar !! 45 = Some (TRule tr)) as [tr Htr] by (eexists; reflexivity).
  rewrite (derives_call _ 43 p) by done. rewrite Hp, derives_alternatives. split.
  - intros (e & [->|(k & -> & Hk)%list_elem_of_fmap]%elem_of_cons & Hd); [left|right].
    + apply (derives_terminal _ _ _ _ Htr) in Hd as [text [= ->]]. by exists text.
    + apply derives_keyword in Hd as [= ->]. by exists k.
  - intros [[text ->]|(k & Hk & ->)].
    + exists (RuleCall 45). split; [by left|by econstructor].
    + exists (Keyword k). split; [right; by apply list_elem_of_fmap_2|constructor].
Qed.

(** The finite part of the comparison. *)
Lemma keywords_compared :
  Forall (λ k, is_id k = true → k ∉ grammar_keywords DomainGrammar → (k ∈ ident_words ↔ k ∉ unreferable))
    (grammar_keywords ViewGrammar) ∧
  Forall (λ k, k ∈ grammar_keywords ViewGrammar) unreferable.
Proof.
  assert (forallb (λ k, negb (is_id k) || bool_decide (k ∈ grammar_keywords DomainGrammar) ||
            eqb (bool_decide (k ∈ ident_words)) (negb (bool_decide (k ∈ unreferable))))
            (grammar_keywords ViewGrammar) = true) as H1 by (vm_compute; reflexivity).
  assert (forallb (λ k, bool_decide (k ∈ grammar_keywords ViewGrammar)) unreferable = true) as H2
    by (vm_compute; reflexivity).
  rewrite forallb_forall in H1, H2. split; apply Forall_forall; intros k Hk%list_elem_of_In.
  - intros Hid Hkw. specialize (H1 k Hk). rewrite Hid, bool_decide_eq_false_2 in H1 by done.
    cbn [negb orb] in H1. apply eqb_prop in H1.
    rewrite <- (bool_decide_eq_true (k ∈ ident_words)), H1, negb_true_iff. by rewrite bool_decide_eq_false.
  - apply (bool_decide_eq_true_1 _ (H2 k Hk)).
Qed.

(** A word that a domain file takes as the name of a field is taken by a
    view file in a reference to that field exactly when it is not one of fifty
    words, [size], [width], [table] or [default] among them: these are
    keywords of the view language that its list of tolerated names omits. *)
Theorem field_references w :
  is_id w = true → derives DomainGrammar (RuleCall 16) [word_token DomainGrammar 16 w] →
  derives ViewGrammar (RuleCall 43) [word_token ViewGrammar 45 w] ↔ w ∉ unreferable.
Proof.
  intros Hid Hd. destruct keywords_compared as [Hcmp Hsub]. rewrite Forall_forall in Hcmp, Hsub.
  assert (w ∉ grammar_keywords DomainGrammar) as Hw.
  { intros Hin. unfold word_token in Hd. rewrite decide_True in Hd by done. 
    assert (∃ tr, rules DomainGrammar !! 16 = Some (TRule tr)) as [tr Htr] by (eexists; reflexivity).
    apply (derives_terminal _ _ _ _ Htr) in Hd as [text Hd]. discriminate Hd. }
  rewrite ident_name_words. unfold word_token. destruct (decide (w ∈ grammar_keywords ViewGrammar)) as [Hk|Hk].
  - rewrite <- (Hcmp w Hk Hid Hw). split; [|by eauto]. intros [[text H]|(k & Hin & [= <-])]; [discriminate H|done].
  - split; [intros _ Hin; by apply Hk, Hsub|]. intros _. left. by eexists.
Qed.

Lemma field_references_witness :
  ¬ derives ViewGrammar (RuleCall 43) [word_token ViewGrammar 45 #"size"].
Proof.
  rewrite (field_references #"size").
  - intros H. apply H. apply (bool_decide_unpack (#"size" ∈ unreferable)). vm_compute. exact I.
  - reflexivity.
  - replace (word_token DomainGrammar 16 #"size") with (TTerm 16 #"size") by (vm_compute; reflexivity).
    econstructor. reflexivity.
Defined.
