(* ===== verification/Lexing.v ===== *)
(** From text to tokens: what the terminal rules and the keywords of a grammar
    make of a source text, and with [Grammar.accepts] which texts are
    sentences of the four languages.

    The terminals of [generated/grammar.ts] are patterns; [tokens] reads them
    with [Regex].  A keyword is taken before a terminal, the longest one
    first, unless a terminal matches more at the same place; among terminals
    the first that matches wins; hidden terminals leave no token. *)

From S2P Require Export Regex Languages.
From S2P Require DomainGrammar EventSchemaGrammar ViewGrammar PipelineGrammar.
Import DomainGrammar(DomainGrammar).
Import EventSchemaGrammar(EventSchemaGrammar).
Import ViewGrammar(ViewGrammar).
Import PipelineGrammar(PipelineGrammar).

#[local] Set Warnings "-register-all".

(** * The terminals of a grammar *)

Record Terminal := MkTerminal { tm_rule : nat; tm_hidden : bool; tm_pattern : Regex }.

(** The terminal rules, in order, those whose pattern is read. *)
Definition terminals (g : Grammar) : list Terminal :=
  omap (λ x, match x.2 with
             | TRule t => MkTerminal x.1 (terminal_hidden t) <$> parse_literal (terminal_regex t)
             | PRule _ => None
             end) (imap pair (rules g)).

(** * One token *)

Section lexer.
Context (kws : list str) (tms : list Terminal).

(** The longest keyword the text starts with. *)
Definition keyword_at (s : str) : option str :=
  foldr (λ v best, if starts_with v s
                   then match best with
                        | Some b => if length b <? length v then Some v else best
                        | None => if length v =? 0 then None else Some v
                        end
                   else best) None kws.

(** The first terminal that matches more than [n] characters, and what
    remains. *)
Definition terminal_at (n : nat) (s : str) : option (Terminal * str) :=
  foldr (λ t other, match match_at (tm_pattern t) s with
                    | Some rest => if length rest + n <? length s then Some (t, rest) else other
                    | None => other
                    end) None tms.

(** The first token, none when it is hidden, and what remains. *)
Definition next_token (s : str) : option (option token * str) :=
  let terminal n := p ← terminal_at n s;
    Some (if tm_hidden p.1 then None else Some (TTerm (tm_rule p.1) (take (length s - length p.2) s)), p.2) in
  match keyword_at s with
  | Some v =>
    match terminal (length v) with
    | Some r => Some r
    | None => Some (Some (TKey v), drop (length v) s)
    end
  | None => terminal 0
  end.

Fixpoint tokens_from (fuel : nat) (s : str) : option (list token) :=
  match s, fuel with
  | [], _ => Some []
  | _, O => None
  | _, S fuel =>
    p ← next_token s;
    rest ← tokens_from fuel p.2;
    Some (match p.1 with Some t => t :: rest | None => rest end)
  end.

(** [None] at a character no token starts with. *)
Definition tokens_of (s : str) : option (list token) := tokens_from (length s) s.

(** Every token takes something, so the length of the text is fuel enough. *)
Lemma foldr_some {A B} (f : A → option B → option B) (P : B → Prop) (l : list A) b :
  (∀ x o b, x ∈ l → f x o = Some b → P b ∨ o = Some b) → foldr f None l = Some b → P b.
Proof.
  induction l as [|x l IH]; intros Hf; cbn [foldr]; [done|]. intros H.
  destruct (Hf x _ b ltac:(left) H) as [|Ho]; [done|]. apply IH; [|done].
  intros y o c Hy. apply Hf. by right.
Qed.

Lemma starts_with_length v s : starts_with v s = true → length v ≤ length s.
Proof.
  intros (k & ->)%starts_with_spec. rewrite length_app. lia.
Qed.

Lemma keyword_at_spec s v : keyword_at s = Some v → v ∈ kws ∧ 0 < length v ∧ starts_with v s = true.
Proof.
  apply (foldr_some _ (λ v, v ∈ kws ∧ 0 < length v ∧ starts_with v s = true)). intros x o b Hx. destruct (starts_with x s) eqn:E; [|by right].
  destruct o as [u|].
  - destruct (Nat.ltb_spec (length u) (length x)); [|by right]. intros [= <-]. left. split_and!; [done|lia|done].
  - destruct (Nat.eqb_spec (length x) 0); [done|]. intros [= <-]. left. split_and!; [done|lia|done].
Qed.

Lemma terminal_at_spec n s t rest :
  terminal_at n s = Some (t, rest) → length rest + n < length s ∧ match_at (tm_pattern t) s = Some rest.
Proof.
  intros H. apply (foldr_some _ (λ p, length p.2 + n < length s ∧ match_at (tm_pattern p.1) s = Some p.2)) in H; [done|].
  intros x o b _. destruct (match_at _ s) as [r|] eqn:E; [|by right].
  destruct (Nat.ltb_spec (length r + n) (length s)); [|by right]. intros [= <-]. by left.
Qed.

Lemma next_token_shorter s o rest : next_token s = Some (o, rest) → length rest < length s.
Proof.
  unfold next_token. destruct (keyword_at s) as [v|] eqn:Ek.
  - destruct (terminal_at (length v) s) as [[t r]|] eqn:Et; cbn [mbind option_bind fst snd].
    + intros [= _ <-]. apply terminal_at_spec in Et as [? _]. lia.
    + intros [= _ <-]. apply keyword_at_spec in Ek as (_ & ? & Hs). rewrite length_drop.
      apply starts_with_length in Hs. lia.
  - destruct (terminal_at 0 s) as [[t r]|] eqn:Et; cbn [mbind option_bind fst snd]; [|done].
    intros [= _ <-]. apply terminal_at_spec in Et as [? _]. lia.
Qed.

Lemma tokens_fuel s m : length s ≤ m → tokens_from m s = tokens_of s.
Proof.
  unfold tokens_of. revert m. induction s as [s IH] using (induction_ltof1 _ (@length N)). unfold ltof in IH.
  intros m Hm.
  destruct s as [|c s]; [by destruct m|]. destruct m as [|m]; [cbn in Hm; lia|]. cbn [length] in *.
  cbn [tokens_from]. destruct (next_token (c :: s)) as [[o rest]|] eqn:E; [|done]. cbn [mbind option_bind fst snd].
  apply next_token_shorter in E. cbn [length] in E.
  rewrite (IH rest ltac:(cbn [length]; lia) m ltac:(lia)).
  by rewrite (IH rest ltac:(cbn [length]; lia) (length s) ltac:(lia)).
Qed.

(** The unfolding of a text at its first token. *)
Lemma tokens_step c s :
  tokens_of (c :: s) =
  (p ← next_token (c :: s); rest ← tokens_of p.2;
   Some (match p.1 with Some t => t :: rest | None => rest end)).
Proof.
  change (tokens_of (c :: s)) with (tokens_from (S (length s)) (c :: s)). cbn [tokens_from].
  destruct (next_token (c :: s)) as [[o rest]|] eqn:E; [|done]. cbn [mbind option_bind fst snd].
  apply next_token_shorter in E. cbn [length] in E. by rewrite (tokens_fuel rest (length s)) by lia.
Qed.

(** ** Steps of the lexer *)

(** The terminal does not take more than [n] characters. *)
Definition too_short (n : nat) (s : str) (t : Terminal) : Prop :=
  match match_at (tm_pattern t) s with Some rest => length s ≤ length rest + n | None => True end.

Lemma terminal_at_none n s : Forall (too_short n s) tms → terminal_at n s = None.
Proof.
  unfold terminal_at. induction 1 as [|t l Ht _ IH]; [done|]. cbn [foldr]. rewrite IH. unfold too_short in Ht.
  destruct (match_at (tm_pattern t) s) as [r|]; [|done]. by destruct (Nat.ltb_spec (length r + n) (length s)); [lia|].
Qed.

Lemma terminal_at_some n s pre t post rest :
  tms = pre ++ t :: post → Forall (too_short n s) pre →
  match_at (tm_pattern t) s = Some rest → length rest + n < length s → terminal_at n s = Some (t, rest).
Proof.
  intros E Hpre Ht Hl. unfold terminal_at. rewrite E, foldr_app. cbn [foldr]. rewrite Ht.
  apply Nat.ltb_lt in Hl. rewrite Hl. clear E.
  induction Hpre as [|x l Hx _ IH]; [done|]. cbn [foldr]. rewrite IH. unfold too_short in Hx.
  destruct (match_at (tm_pattern x) s) as [r|]; [|done].
  by destruct (Nat.ltb_spec (length r + n) (length s)); [lia|].
Qed.

Lemma next_keyword s v :
  keyword_at s = Some v → Forall (too_short (length v) s) tms →
  next_token s = Some (Some (TKey v), drop (length v) s).
Proof. intros Hk Ht. unfold next_token. by rewrite Hk, terminal_at_none. Qed.

Lemma next_hidden s pre t post rest :
  keyword_at s = None → tms = pre ++ t :: post → Forall (too_short 0 s) pre →
  match_at (tm_pattern t) s = Some rest → length rest < length s → tm_hidden t = true →
  next_token s = Some (None, rest).
Proof.
  intros Hk E Hpre Ht Hl Hh. unfold next_token.
  rewrite Hk, (terminal_at_some 0 s pre t post rest E Hpre Ht) by lia. cbn [mbind option_bind fst snd]. by rewrite Hh.
Qed.

Lemma next_text w rest pre t post :
  keyword_at (w ++ rest) = None → tms = pre ++ t :: post → Forall (too_short 0 (w ++ rest)) pre →
  match_at (tm_pattern t) (w ++ rest) = Some rest → w ≠ [] → tm_hidden t = false →
  next_token (w ++ rest) = Some (Some (TTerm (tm_rule t) w), rest).
Proof.
  intros Hk E Hpre Ht Hw Hh. unfold next_token.
  assert (length rest + 0 < length (w ++ rest)) as Hl by (rewrite length_app; destruct w; [done|cbn; lia]).
  rewrite Hk, (terminal_at_some 0 _ pre t post rest E Hpre Ht Hl). cbn [mbind option_bind fst snd].
  rewrite Hh. f_equal. f_equal. f_equal. f_equal. rewrite length_app.
  replace (length w + length rest - length rest) with (length w) by lia. by rewrite take_app_length.
Qed.

(** A word that is no keyword, up to a character no word contains. *)
Lemma next_word t post neg1 items1 neg items c w d rest :
  tms = t :: post → tm_hidden t = false →
  tm_pattern t = RSeq (RSet neg1 items1) (RStar false (RSet neg items)) →
  set_has neg1 items1 c = true → Forall (λ c, set_has neg items c = true) w → set_has neg items d = false →
  c :: w ∉ kws → Forall (λ v, d ∈ v → length v ≤ 1) kws →
  next_token ((c :: w) ++ d :: rest) = Some (Some (TTerm (tm_rule t) (c :: w)), d :: rest).
Proof.
  intros E Hh Hp Hc Hw Hd Hk Hkd.
  assert (match_at (tm_pattern t) ((c :: w) ++ d :: rest) = Some (d :: rest)) as Hm.
  { rewrite Hp. by apply match_word. }
  unfold next_token. destruct (keyword_at ((c :: w) ++ d :: rest)) as [v|] eqn:Ek.
  - apply keyword_at_spec in Ek as (Hv & _ & (k & Hs)%starts_with_spec).
    assert (length v < length (c :: w)) as Hlv.
    { destruct (decide (length v < length (c :: w))) as [|Hge]; [done|exfalso].
      assert (take (length (c :: w)) v = c :: w) as Htake.
      { rewrite <- (take_app_le v k) by lia. rewrite <- Hs. by rewrite take_app_length. }
      destruct (decide (length v = length (c :: w))) as [He|Hne].
      - rewrite take_ge in Htake by lia. by subst v.
      - assert (d ∈ v) as Hdv.
        { apply list_elem_of_lookup. exists (length (c :: w)). rewrite <- (lookup_app_l v k) by lia.
          rewrite <- Hs. by rewrite list_lookup_middle. }
        rewrite Forall_forall in Hkd. specialize (Hkd v Hv Hdv). cbn [length] in *. lia. }
    rewrite (terminal_at_some (length v) _ [] t post (d :: rest) E (Forall_nil_2 _) Hm).
    2:{ rewrite length_app. lia. }
    cbn [mbind option_bind fst snd]. rewrite Hh. f_equal. f_equal. f_equal. f_equal. rewrite length_app.
    replace (length (c :: w) + length (d :: rest) - length (d :: rest)) with (length (c :: w)) by lia.
    by rewrite take_app_length.
  - pose proof (next_text (c :: w) (d :: rest) [] t post Ek E (Forall_nil_2 _) Hm ltac:(done) Hh) as H.
    unfold next_token in H. by rewrite Ek in H.
Qed.

Lemma tokens_cons s o rest :
  next_token s = Some (o, rest) →
  tokens_of s = (r ← tokens_of rest; Some (match o with Some t => t :: r | None => r end)).
Proof.
  intros H. destruct s as [|c s].
  - apply next_token_shorter in H. cbn [length] in H. lia.
  - by rewrite tokens_step, H.
Qed.

(** The three ways in which reading goes on. *)
Lemma tokens_shown s t rest r :
  next_token s = Some (Some t, rest) → tokens_of rest = Some r → tokens_of s = Some (t :: r).
Proof. intros H Hr. by rewrite (tokens_cons s _ _ H), Hr. Qed.

Lemma tokens_skipped s rest R : next_token s = Some (None, rest) → tokens_of rest = R → tokens_of s = R.
Proof. intros H <-. rewrite (tokens_cons s _ _ H). by destruct (tokens_of rest). Qed.

Lemma tokens_stuck s o rest : next_token s = Some (o, rest) → tokens_of rest = None → tokens_of s = None.
Proof. intros H Hr. by rewrite (tokens_cons s _ _ H), Hr. Qed.
End lexer.

Definition tokens (g : Grammar) : str → option (list token) := tokens_of (keywords g) (terminals g).

(** The text is a phrase of a rule; rule 0 is the entry rule of each of the
    four grammars. *)
Definition phrase (g : Grammar) (r : nat) (s : str) : Prop :=
  ∃ toks, tokens g s = Some toks ∧ derives g (RuleCall r) toks.
Definition parses (g : Grammar) (s : str) : Prop := phrase g 0 s.

(** [None] when the fuel does not suffice. *)
Definition is_phrase (g : Grammar) (fuel r : nat) (s : str) : option bool :=
  match tokens g s with
  | Some toks => rs ← rests g fuel (RuleCall r) toks; Some (existsb (λ r, bool_decide (length r = 0)) rs)
  | None => Some false
  end.

Lemma is_phrase_spec g fuel r s b : is_phrase g fuel r s = Some b → (b = true ↔ phrase g r s).
Proof.
  unfold is_phrase, phrase. destruct (tokens g s) as [toks|].
  - destruct (rests g fuel (RuleCall r) toks) as [rs|] eqn:E; [|done]. intros [= <-]. rewrite existsb_exists. split.
    + intros (rest & Hin & Hl). apply bool_decide_eq_true in Hl. destruct rest; [|done].
      apply list_elem_of_In in Hin. destruct (rests_sound g fuel _ _ _ _ E Hin) as (w & -> & Hw).
      exists (w ++ []). split; [done|]. by rewrite app_nil_r.
    + intros (? & [= <-] & Hd). exists []. split; [|done]. apply list_elem_of_In.
      apply (rests_complete g _ _ Hd fuel [] rs). by rewrite app_nil_r.
  - intros [= <-]. split; [done|]. by intros (? & ? & _).
Qed.
