(* ===== verification/NewItem.v ===== *)
(** New domains and views in the designer: the stubs of
    [apps/oosd/src/mainview/components/templates.ts], the identifiers that
    [components/NewItemDialog.tsx] accepts, and what the grammars make of the
    stubs. *)

From Stdlib Require Import ZifyBool.
From S2P Require Export Lexing.
From S2P Require DomainGrammar ViewGrammar.
Import DomainGrammar(DomainGrammar).
Import ViewGrammar(ViewGrammar).

#[local] Set Warnings "-register-all".

(** * Definitions *)

(** [Kind] of [types.ts] *)
Inductive Kind :=
| KDomain | KView | KEvents | KEventTypes | KMappingTypes | KGrammar | KKvStore | KIam | KSettings | KDemo.

#[global] Instance Kind_eq_dec : EqDecision Kind.
Proof. solve_decision. Defined.

(** ** [templates.ts] *)

(** [humanise] *)
Definition humanise (id : str) : str :=
  let spaced := (λ c : N, if (c =? 95)%N then 32%N else c) <$> id in
  match spaced with c :: rest => to_upper1 c ++ rest | [] => [] end.

Definition domainStub (id : str) : str :=
  #"// " ++ id ++ #".domain — auto-generated stub." ++ [nl; nl] ++
  #"domain " ++ id ++ #" from " ++ id ++
  join [nl] [ #"@demo {"; []; #"  permission admin read, write, delete"; []; #"  field id : int readonly"; #"}"; [] ].

Definition viewStub (id : str) : str :=
  #"// " ++ id ++ #".view — auto-generated stub." ++ [nl; nl] ++
  #"view " ++ id ++ #" " ++ quoted (humanise id) ++
  join [nl] [ #" over <domain> {"; []; #"  toolbar {"; #"    save"; #"    exit"; #"  }"; [];
              #"  section " ++ quoted #"Details" ++ #" p=md {";
              #"    // text " ++ quoted #"Field" ++ #" -> <domain>.<field>"; #"  }"; #"}"; [] ].

Definition stubSource (kind : Kind) (id : str) : str :=
  match kind with KDomain => domainStub id | _ => viewStub id end.

(** ** [NewItemDialog.tsx] *)

Definition ID_RE : Regex := default REmpty (parse_pattern #"[a-z][a-z0-9_]*").

(** [validate]: [Some []] leaves the button disabled without a message. *)
Definition validate (id : str) (existingIds : list str) : option str :=
  if length id =? 0 then Some []
  else if starts_with #"global." id then Some #"ids starting with 'global.' are reserved"
  else if negb (test_whole ID_RE id) then Some #"lowercase letters, digits, underscore — must start with a letter"
  else if bool_decide (id ∈ existingIds) then Some (#"'" ++ id ++ #"' already exists")
  else None.

(** * What the dialog accepts *)

Definition id_tail (c : N) : bool := set_has false [Range 97 122; Range 48 57; Range 95 95] c.

(** What [ID_RE] accepts, without the pattern. *)
Lemma id_re_spec id :
  test_whole ID_RE id = true ↔ ∃ c w, id = c :: w ∧ is_lower c = true ∧ Forall (λ c, id_tail c = true) w.
Proof.
  rewrite test_whole_lang.
  change ID_RE with (RSeq (RSet false [Range 97 122])
                       (RStar false (RSet false [Range 97 122; Range 48 57; Range 95 95]))).
  split.
  - intros H. inversion H as [| |? ? w1 w2 H1 H2| | | |]; subst. inversion H1 as [? ? c Hc| | | | | |]; subst.
    exists c, w2. apply in_lang_run in H2. split_and!; [done| |done].
    rewrite set_has_pos in Hc. cbn [existsb item_has] in Hc. rewrite orb_false_r in Hc. exact Hc.
  - intros (c & w & -> & Hc & Hw). apply (in_cat _ _ [c] w); [|by apply in_lang_run].
    constructor. rewrite set_has_pos. cbn [existsb item_has]. rewrite orb_false_r. exact Hc.
Qed.

(** The identifiers the dialog lets through. *)
Lemma validate_accepts id existingIds :
  validate id existingIds = None ↔
  (∃ c w, id = c :: w ∧ is_lower c = true ∧ Forall (λ c, id_tail c = true) w) ∧ id ∉ existingIds.
Proof.
  rewrite <- id_re_spec. unfold validate. destruct (Nat.eqb_spec (length id) 0) as [E|E].
  { destruct id; [|done]. split; [done|]. intros [H _]. vm_compute in H. discriminate H. }
  destruct (starts_with #"global." id) eqn:Eg.
  { split; [done|]. intros [H _]. apply id_re_spec in H as (c & w & -> & _ & Hw).
    apply starts_with_spec in Eg as (k & Hk). injection Hk as -> ->.
    do 5 (apply Forall_cons in Hw as [_ Hw]). apply Forall_cons in Hw as [Hw _]. vm_compute in Hw. discriminate Hw. }
  destruct (test_whole ID_RE id); cbn [negb].
  - case_bool_decide; [split; [done|]; by intros [_ ?]|by split].
  - split; [done|]. by intros [? _].
Qed.

(** * How the stubs are read *)

(** The terminals of the domain and of the view grammar: the same patterns,
    numbered from different rules. *)
Definition id_pattern : Regex :=
  RSeq (RSet false [Range 95 95; Range 97 122; Range 65 90]) (RStar false (RSet false [Word; Range 95 95])).
Definition digits_pattern : Regex := RPlus false (RSet false [Range 48 57]).
Definition number_pattern : Regex := RSeq (ROpt (one 45)) (RSeq digits_pattern (ROpt (RSeq (one 46) digits_pattern))).
Definition string_char : Regex :=
  RAlt (RSeq (one 92) (RSet true [Range 10 10; Range 13 13; Range 8232 8233])) (RSet true [Range 34 34; Range 92 92]).
Definition string_pattern : Regex := RSeq (one 34) (RSeq (RStar false string_char) (one 34)).
Definition space_pattern : Regex := RPlus false (RSet false [Space]).
Definition block_pattern : Regex :=
  RSeq (one 47) (RSeq (one 42) (RSeq (RStar true (RSet false [Space; NotSpace])) (RSeq (one 42) (one 47)))).
Definition line_pattern : Regex := RSeq (one 47) (RSeq (one 47) (RStar false (RSet true [Range 10 10; Range 13 13]))).

Definition stub_terminals (base : nat) : list Terminal :=
  [ MkTerminal base false id_pattern; MkTerminal (1 + base) false number_pattern;
    MkTerminal (2 + base) false string_pattern; MkTerminal (3 + base) true space_pattern;
    MkTerminal (4 + base) true block_pattern; MkTerminal (5 + base) true line_pattern ].

Lemma domain_terminals : terminals DomainGrammar = stub_terminals 16.
Proof. vm_compute. reflexivity. Qed.
Lemma view_terminals : terminals ViewGrammar = stub_terminals 45.
Proof. vm_compute. reflexivity. Qed.

(** No keyword starts a comment or with white space, none spans a blank or an
    [@]. *)
Definition plain_keywords (kws : list str) : Prop :=
  Forall (λ v, (head v ∉ [Some 47%N; Some 32%N; Some nl; Some dq]) ∧ (32%N ∈ v → length v ≤ 1) ∧ (64%N ∈ v → length v ≤ 1)) kws.

Lemma languages_plain : plain_keywords (keywords DomainGrammar) ∧ plain_keywords (keywords ViewGrammar).
Proof. split; apply (bool_decide_unpack _); vm_compute; exact I. Qed.

(** Terminals that cannot start with the first characters of the text. *)
Ltac short_terminals := repeat (apply Forall_cons_2; [exact I|]); apply Forall_nil_2.

Section stub.
Context (kws : list str) (base : nat) (Hkws : plain_keywords kws).
Let tms : list Terminal := stub_terminals base.

Lemma no_keyword c s : c ∈ [47; 32; nl; dq]%N → keyword_at kws (c :: s) = None.
Proof.
  intros Hc. destruct (keyword_at kws (c :: s)) as [v|] eqn:E; [exfalso|done].
  apply keyword_at_spec in E as (Hv & Hl & (k & Hs)%starts_with_spec).
  unfold plain_keywords in Hkws. rewrite Forall_forall in Hkws. destruct (Hkws v Hv) as [Hh _].
  destruct v as [|d v]; [cbn in Hl; lia|]. injection Hs as <- _. apply Hh. cbn [head].
  change [Some 47%N; Some 32%N; Some nl; Some dq] with (Some <$> [47; 32; nl; dq]%N). by apply list_elem_of_fmap_2.
Qed.

(** A line comment runs to the end of its line. *)
Lemma step_comment w rest :
  Forall (λ c, set_has true [Range 10 10; Range 13 13] c = true) w →
  next_token kws tms (#"//" ++ w ++ nl :: rest) = Some (None, nl :: rest).
Proof.
  intros Hw. apply (next_hidden kws tms _ (take 5 tms) (MkTerminal (5 + base) true line_pattern) []).
  - apply no_keyword. left.
  - reflexivity.
  - short_terminals.
  - eapply match_seq; [by apply match_one|]. eapply match_seq; [by apply match_one|]. by apply match_run.
  - rewrite !length_app. change (length (#"//")) with 2. cbn [length]. lia.
  - reflexivity.
Qed.

Lemma step_spaces c w d rest :
  c ∈ [32; nl]%N → Forall (λ c, is_space c = true) w → is_space d = false →
  next_token kws tms (c :: w ++ d :: rest) = Some (None, d :: rest).
Proof.
  intros Hc Hw Hd. apply (next_hidden kws tms _ (take 3 tms) (MkTerminal (3 + base) true space_pattern) (drop 4 tms)).
  - apply no_keyword. set_solver.
  - reflexivity.
  - repeat (apply elem_of_cons in Hc as [->|Hc]; [short_terminals|]). by apply elem_of_nil in Hc.
  - apply match_word.
    + repeat (apply elem_of_cons in Hc as [->|Hc]; [done|]). by apply elem_of_nil in Hc.
    + eapply Forall_impl; [exact Hw|]. intros x Hx. rewrite set_has_pos. cbn [existsb item_has]. by rewrite Hx.
    + rewrite set_has_pos. cbn [existsb item_has]. by rewrite Hd.
  - cbn [length]. rewrite length_app. cbn [length]. lia.
  - reflexivity.
Qed.

Lemma step_space d rest : is_space d = false → next_token kws tms (32%N :: d :: rest) = Some (None, d :: rest).
Proof. apply (step_spaces _ []); [left|constructor]. Qed.

(** A word of the dialog. *)
Lemma step_id c w d rest :
  is_lower c = true → Forall (λ c, id_tail c = true) w → d ∈ [32; 64]%N → c :: w ∉ kws →
  next_token kws tms ((c :: w) ++ d :: rest) = Some (Some (TTerm base (c :: w)), d :: rest).
Proof.
  intros Hc Hw Hd Hk.
  apply (next_word kws tms (MkTerminal base false id_pattern) (drop 1 tms) _ _ _ _ c w d rest eq_refl eq_refl eq_refl).
  - rewrite set_has_pos. cbn [existsb item_has]. unfold is_lower in Hc. rewrite Hc. by rewrite orb_true_r.
  - eapply Forall_impl; [exact Hw|]. intros x Hx. unfold id_tail in Hx. rewrite set_has_pos in *.
    cbn [existsb item_has] in *. unfold is_word, is_lower, is_upper, is_digit. lia.
  - repeat (apply elem_of_cons in Hd as [->|Hd]; [done|]). by apply elem_of_nil in Hd.
  - done.
  - unfold plain_keywords in Hkws. eapply Forall_impl; [exact Hkws|]. intros v (_ & H1 & H2).
    repeat (apply elem_of_cons in Hd as [->|Hd]; [done|]). by apply elem_of_nil in Hd.
Qed.

(** A keyword of lower case letters before a blank. *)
Lemma step_keyword c w rest :
  let s := (c :: w) ++ 32%N :: rest in
  keyword_at kws s = Some (c :: w) → Forall (λ c, is_lower c = true) (c :: w) →
  Forall (too_short (length (c :: w)) s) (drop 1 tms) →
  next_token kws tms s = Some (Some (TKey (c :: w)), 32%N :: rest).
Proof.
  cbv zeta. intros Hk [Hc Hw]%Forall_cons Ht. rewrite (next_keyword kws tms _ _ Hk).
  - by rewrite drop_app_length.
  - apply Forall_cons_2; [|exact Ht]. unfold too_short. cbn [tm_pattern]. unfold id_pattern.
    rewrite (match_word false _ false _ c w (32%N :: rest)).
    + rewrite length_app. lia.
    + rewrite set_has_pos. cbn [existsb item_has]. unfold is_lower in Hc. rewrite Hc. by rewrite orb_true_r.
    + eapply Forall_impl; [exact Hw|]. intros x Hx. rewrite set_has_pos. cbn [existsb item_has]. unfold is_word. by rewrite Hx.
    + done.
Qed.

(** A string without quotes and backslashes. *)
Lemma step_string w rest :
  Forall (λ c, set_has true [Range 34 34; Range 92 92] c = true) w →
  next_token kws tms (quoted w ++ rest) = Some (Some (TTerm (2 + base) (quoted w)), rest).
Proof.
  intros Hw. apply (next_text kws tms _ _ (take 2 tms) (MkTerminal (2 + base) false string_pattern) (drop 3 tms)).
  - apply no_keyword. set_solver.
  - reflexivity.
  - short_terminals.
  - unfold quoted. rewrite <- !app_assoc. cbn [app tm_pattern].
    eapply match_seq; [by apply match_one|]. apply (match_seq _ _ _ (dq :: rest)); [|by apply match_one].
    apply (match_each _ (λ c, set_has true [Range 34 34; Range 92 92] c = true)); [|done|done].
    intros c s Hc. unfold string_char, one. cbn [remainders]. rewrite Hc.
    assert (set_has false [Range 92 92] c = false) as ->; [|done].
    rewrite set_has_pos. unfold set_has in Hc. cbn [existsb item_has] in *.
    destruct ((92 <=? c)%N && (c <=? 92)%N) eqn:E; [|done]. by rewrite orb_true_r in Hc.
  - done.
  - reflexivity.
Qed.
End stub.

(** * The stubs *)

Lemma lower_not_space c : is_lower c = true → is_space c = false.
Proof.
  intros H. unfold is_space, is_lower in *. rewrite bool_decide_false; [lia|].
  intros Hin. repeat (apply elem_of_cons in Hin as [->|Hin]; [done|]). by apply elem_of_nil in Hin.
Qed.

(** Comment, blank lines, keyword, blank, identifier. *)
Lemma header_tokens kws base ext k kw c w rest R :
  plain_keywords kws → Forall (λ c, set_has true [Range 10 10; Range 13 13] c = true) ext →
  (∀ rest, next_token kws (stub_terminals base) ((k :: kw) ++ 32%N :: rest) = Some (Some (TKey (k :: kw)), 32%N :: rest)) →
  is_lower k = true → is_lower c = true → Forall (λ c, id_tail c = true) w → c :: w ∉ kws →
  tokens_of kws (stub_terminals base) (32%N :: rest) = R →
  tokens_of kws (stub_terminals base)
    (#"// " ++ (c :: w) ++ ext ++ [nl; nl] ++ (k :: kw) ++ #" " ++ (c :: w) ++ 32%N :: rest) =
  (r ← R; Some (TKey (k :: kw) :: TTerm base (c :: w) :: r)).
Proof.
  intros Hkws Hext Hkw Hk Hc Hw Hid <-.
  transitivity (tokens_of kws (stub_terminals base)
    (#"//" ++ (32%N :: c :: w ++ ext) ++ nl :: [nl] ++ (k :: kw) ++ 32%N :: c :: w ++ 32%N :: rest)).
  { f_equal. change (#"// ") with (#"//" ++ [32%N]). change (#" ") with [32%N]. cbn [app]. by rewrite <- !app_assoc. }
  erewrite tokens_cons; [|apply (step_comment _ _ Hkws)].
  2:{ assert (∀ x, is_lower x = true ∨ id_tail x = true → set_has true [Range 10 10; Range 13 13] x = true) as Hx.
      { intros x Hx. unfold id_tail, is_lower in Hx. rewrite set_has_pos in Hx. rewrite set_has_neg.
      cbn [existsb item_has] in *. lia. }
      apply Forall_cons_2; [done|]. apply Forall_cons_2; [apply Hx; by left|]. apply Forall_app_2; [|done].
      eapply Forall_impl; [exact Hw|]. intros x ?. apply Hx. by right. }
  cbn [app]. erewrite tokens_cons.
  2:{ apply (step_spaces _ _ Hkws nl [nl]); [set_solver|by apply Forall_cons_2|by apply lower_not_space]. }
  change (k :: kw ++ ?s) with ((k :: kw) ++ s). erewrite tokens_cons; [|apply Hkw].
  erewrite tokens_cons; [|apply (step_space _ _ Hkws); by apply lower_not_space].
  change (c :: w ++ ?s) with ((c :: w) ++ s).
  erewrite tokens_cons; [|apply (step_id _ _ Hkws); [done|done|left|done]].
  by destruct (tokens_of _ _ (32%N :: rest)).
Qed.

(** Texts of the dialog in a title. *)
Lemma humanise_plain c w :
  is_lower c = true → Forall (λ c, id_tail c = true) w →
  Forall (λ c, set_has true [Range 34 34; Range 92 92] c = true) (humanise (c :: w)).
Proof.
  intros Hc Hw. unfold humanise. cbn [fmap list_fmap].
  assert ((c =? 95)%N = false) as -> by (unfold is_lower in Hc; lia).
  unfold to_upper1. rewrite Hc. cbn [app]. apply Forall_cons_2.
  - rewrite set_has_neg. unfold is_lower in Hc. cbn [existsb item_has]. lia.
  - induction Hw as [|x w Hx _ IH]; [constructor|]. cbn [fmap list_fmap]. apply Forall_cons_2; [|exact IH].
    unfold id_tail in Hx. rewrite set_has_pos in Hx. rewrite set_has_neg. cbn [existsb item_has] in *.
    destruct (x =? 95)%N; [done|lia].
Qed.

(** Identifiers the dialog accepts although they are words of the language. *)
Lemma reserved_stubs :
  Forall (λ v, test_whole ID_RE v = true → is_phrase DomainGrammar 300 0 (domainStub v) = Some false)
    (keywords DomainGrammar) ∧
  Forall (λ v, test_whole ID_RE v = true → tokens ViewGrammar (viewStub v) = None) (keywords ViewGrammar).
Proof. split; apply (bool_decide_unpack _); vm_compute; exact I. Qed.

(** What follows the header of a domain stub. *)
Definition domain_tail : str :=
  join [nl] [ #"@demo {"; []; #"  permission admin read, write, delete"; []; #"  field id : int readonly"; #"}"; [] ].
Definition domain_tail_tokens : list token := default [] (tokens DomainGrammar domain_tail).

Lemma domain_stub_tokens c w :
  is_lower c = true → Forall (λ c, id_tail c = true) w → c :: w ∉ keywords DomainGrammar →
  tokens DomainGrammar (domainStub (c :: w)) =
  Some ([TKey #"domain"; TTerm 16 (c :: w); TKey #"from"; TTerm 16 (c :: w)] ++ domain_tail_tokens).
Proof.
  intros Hc Hw Hk. destruct languages_plain as [Hd _]. unfold tokens. rewrite domain_terminals.
  refine (header_tokens _ 16 #".domain — auto-generated stub." 100 #"omain" c w
    ((102%N :: #"rom") ++ 32%N :: (c :: w) ++ domain_tail)
    (Some (TKey #"from" :: TTerm 16 (c :: w) :: domain_tail_tokens)) Hd ltac:(js_decide) _ eq_refl Hc Hw Hk _).
  { intros rest. apply (step_keyword (keywords DomainGrammar) 16); [reflexivity|js_decide|short_terminals]. }
  eapply tokens_skipped; [by apply (step_space _ 16 Hd)|].
  eapply tokens_shown.
  { apply (step_keyword (keywords DomainGrammar) 16); [reflexivity|js_decide|short_terminals]. }
  eapply tokens_skipped; [by apply (step_space _ 16 Hd), lower_not_space|].
  eapply tokens_shown; [apply (step_id _ 16 Hd c w 64 (drop 1 domain_tail)); [done|done|set_solver|done]|].
  rewrite <- domain_terminals. vm_compute. reflexivity.
Qed.

Definition view_tail : str :=
  join [nl] [ #" over <domain> {"; []; #"  toolbar {"; #"    save"; #"    exit"; #"  }"; [];
              #"  section " ++ quoted #"Details" ++ #" p=md {";
              #"    // text " ++ quoted #"Field" ++ #" -> <domain>.<field>"; #"  }"; #"}"; [] ].

(** The first character of a view stub that no token starts with. *)
Lemma view_stub_tokens c w :
  is_lower c = true → Forall (λ c, id_tail c = true) w → c :: w ∉ keywords ViewGrammar →
  tokens ViewGrammar (viewStub (c :: w)) = None.
Proof.
  intros Hc Hw Hk. destruct languages_plain as [_ Hv]. unfold tokens. rewrite view_terminals.
  refine (header_tokens _ 45 #".view — auto-generated stub." 118 #"iew" c w (quoted (humanise (c :: w)) ++ view_tail)
    None Hv ltac:(js_decide) _ eq_refl Hc Hw Hk _).
  { intros rest. apply (step_keyword (keywords ViewGrammar) 45); [reflexivity|js_decide|short_terminals]. }
  eapply tokens_skipped; [by apply (step_space _ 45 Hv)|].
  eapply tokens_stuck; [by apply (step_string _ 45 Hv), humanise_plain|].
  vm_compute. reflexivity.
Qed.

(** The stub of a new domain is a sentence of the domain language for
    every identifier the dialog accepts, except those that are keywords of the
    language; for these it is none.  The stub of a new view is no sentence of
    the view language for any identifier: no token starts with the bracket of
    its placeholder. *)
Theorem stubs_parse id existingIds :
  validate id existingIds = None →
  (parses DomainGrammar (stubSource KDomain id) ↔ id ∉ keywords DomainGrammar) ∧
  ¬ parses ViewGrammar (stubSource KView id).
Proof.
  intros [(c & w & -> & Hc & Hw) _]%validate_accepts.
  assert (test_whole ID_RE (c :: w) = true) as Hid by (apply id_re_spec; by exists c, w).
  destruct languages_plain as [Hd Hv]. destruct reserved_stubs as [Hrd Hrv].
  split.
  - cbn [stubSource]. destruct (decide (c :: w ∈ keywords DomainGrammar)) as [Hk|Hk].
    + rewrite Forall_forall in Hrd. specialize (Hrd _ Hk Hid). apply is_phrase_spec in Hrd.
      split; [|done]. by intros H%Hrd.
    + split; [done|]. intros _. eexists. split; [by apply domain_stub_tokens|].
      set (toks := _ ++ _).
      assert (rests DomainGrammar 300 (RuleCall 0) toks = Some [[]]) as Hr by (vm_compute; reflexivity).
      destruct (rests_sound _ _ _ _ _ [] Hr ltac:(left)) as (u & Hu & Hder). rewrite app_nil_r in Hu. by rewrite Hu.
  - intros (toks & Ht & _). cbn [stubSource] in Ht.
    destruct (decide (c :: w ∈ keywords ViewGrammar)) as [Hk|Hk].
    + rewrite Forall_forall in Hrv. by rewrite (Hrv _ Hk Hid) in Ht.
    + by rewrite view_stub_tokens in Ht.
Qed.

Lemma stubs_parse_witness :
  validate #"customer_detail" [ #"customer" ] = None ∧
  parses DomainGrammar (stubSource KDomain #"customer_detail") ∧
  ¬ parses ViewGrammar (stubSource KView #"customer_detail").
Proof.
  assert (validate #"customer_detail" [ #"customer" ] = None) as H by (vm_compute; reflexivity).
  split_and!; [exact H| |].
  - apply (stubs_parse _ _ H). apply (bool_decide_unpack _). vm_compute. exact I.
  - apply (stubs_parse _ _ H).
Defined.

(** A view over an existing domain is a sentence, and an identifier that is a
    keyword passes the dialog. *)
Example stub_samples :
  is_phrase ViewGrammar 300 0
    (#"view a " ++ quoted #"A" ++ #" over b { toolbar { save exit } section " ++ quoted #"Details" ++ #" p=md { } }") = Some true ∧
  validate #"date" [] = None ∧ is_phrase DomainGrammar 300 0 (stubSource KDomain #"date") = Some false ∧
  humanise #"customer_detail" = #"Customer detail" ∧
  validate #"Customer" [] ≠ None ∧ validate #"customer" [ #"customer" ] = Some #"'customer' already exists".
Proof. vm_compute. by split_and!. Qed.
