(* ===== verification/Completion.v ===== *)
(** Completion in the editors: the snippets and keywords that
    [apps/oosd/src/lang/monaco/completion.ts] offers for domains and views, and
    the values from the key-value store that
    [apps/oos/src/lang/monaco/kv-completion.ts] offers in pipelines.

    What a snippet inserts is read with [Lexing] and the grammars. *)

From Stdlib Require Import ZifyBool.
From S2P Require Export Lexing.
From S2P Require DomainGrammar EventSchemaGrammar ViewGrammar PipelineGrammar.
Import DomainGrammar(DomainGrammar).
Import EventSchemaGrammar(EventSchemaGrammar).
Import ViewGrammar(ViewGrammar).
Import PipelineGrammar(PipelineGrammar).

#[local] Set Warnings "-register-all".

(** * The highlighters' words

    [keywords] of the generated Monarch definitions. *)

Definition domainMonarch_keywords : list str :=
  [ #"ai"; #"aliases"; #"belongs_to"; #"bind"; #"bool"; #"date"; #"datetime"; #"delete"; #"domain"; #"eq";
    #"example"; #"field"; #"filterable"; #"float"; #"from"; #"ge"; #"gt"; #"has_many"; #"has_one"; #"in"; #"int";
    #"le"; #"like"; #"lt"; #"meta"; #"ne"; #"options"; #"order_by"; #"permission"; #"read"; #"readonly"; #"relation";
    #"string"; #"text"; #"via"; #"write" ].
Definition eventSchemaMonarch_keywords : list str :=
  [ #"EventType"; #"boolean"; #"date"; #"datetime"; #"number"; #"optional"; #"required"; #"string" ].
Definition viewMonarch_keywords : list str :=
  [ #"accordion"; #"as"; #"auto_refresh"; #"avatar"; #"badge"; #"bind"; #"bold"; #"button"; #"card"; #"check";
    #"color"; #"cols"; #"column"; #"combobox"; #"confirm"; #"currency"; #"date"; #"daterange"; #"datetime";
    #"default"; #"delete"; #"divider"; #"email"; #"exit"; #"expand"; #"false"; #"file"; #"focus"; #"format"; #"full";
    #"gap"; #"grid"; #"heading"; #"href"; #"icon"; #"italic"; #"item"; #"json"; #"label"; #"lg"; #"link"; #"long";
    #"m"; #"max"; #"mb"; #"md"; #"medium"; #"min"; #"ml"; #"modal"; #"mono"; #"mr"; #"mt"; #"multiselect"; #"mx";
    #"my"; #"new"; #"number"; #"on"; #"on_edit"; #"on_new"; #"on_select"; #"open"; #"over"; #"p"; #"password"; #"pb";
    #"percent"; #"pl"; #"placeholder"; #"plain"; #"pr"; #"progress"; #"pt"; #"px"; #"py"; #"radio"; #"rangeslider";
    #"rating"; #"readonly"; #"refresh"; #"replace"; #"richtext"; #"row"; #"save"; #"scroll"; #"section"; #"select";
    #"sep"; #"short"; #"size"; #"slider"; #"sm"; #"stack"; #"step"; #"subheading"; #"switch"; #"tab"; #"table";
    #"tabs"; #"tags"; #"text"; #"textarea"; #"time"; #"toolbar"; #"true"; #"view"; #"width"; #"window"; #"xl"; #"xs" ].
Definition pipelineMonarch_keywords : list str :=
  [ #"_and"; #"_eq"; #"_gt"; #"_gte"; #"_ilike"; #"_in"; #"_like"; #"_lt"; #"_lte"; #"_neq"; #"_not"; #"_or";
    #"aggregate"; #"context"; #"db"; #"docs"; #"dsn="; #"editor"; #"embedding"; #"file"; #"from"; #"input"; #"limit";
    #"llm"; #"mass"; #"mode"; #"nats"; #"out"; #"per-row"; #"pipeline"; #"prompt"; #"query"; #"semantic"; #"source";
    #"step"; #"subject"; #"system"; #"uri="; #"where" ].

(** * [completion.ts] *)

Record Snippet := MkSnippet { sn_label : str; sn_detail : str; sn_body : str }.

Definition DOMAIN_SNIPPETS : list Snippet :=
  [ MkSnippet #"domain" #"domain block" (join [nl] [ #"domain ${1:name} from ${2:source}@demo {"; tab :: #"$0";
        #"}" ]);
    MkSnippet #"permission" #"permission line" (#"permission ${1:role} ${2:read}");
    MkSnippet #"field" #"field declaration" (#"field ${1:name} : ${2:string}");
    MkSnippet #"field-block" #"field with body (filterable + examples)" (join [nl] [ #"field ${1:name} : ${2:string} filterable {"; tab :: #"example ${3:eq} ${4:" ++ quoted #"value" ++ #"} " ++ quoted #"${5:description}"; #"}" ]);
    MkSnippet #"example" #"filterable example" (#"example ${1:eq} ${2:" ++ quoted #"value" ++ #"} " ++
        quoted #"${3:description}");
    MkSnippet #"relation-has-many" #"1:n relation" (#"relation ${1:name} : has_many ${2:target} bind=id -> ${3:fk}");
    MkSnippet #"relation-has-one" #"1:1 relation" (#"relation ${1:name} : has_one ${2:target} bind=${3:fk} -> id");
    MkSnippet #"relation-belongs-to" #"n:1 relation" (#"relation ${1:name} : belongs_to ${2:target} bind=${3:fk} -> id");
    MkSnippet #"meta" #"dropdown source" (#"meta ${1:name} from ${2:table} ${3:key} ${4:label} order_by ${5:label}");
    MkSnippet #"ai" #"AI hint block" (join [nl] [ #"ai " ++ quoted #"${1:topic}";
        #"   " ++ quoted #"${2:guidance}" ]) ].

Definition VIEW_SNIPPETS : list Snippet :=
  [ MkSnippet #"view" #"view block" (join [nl] [ #"view ${1:name} " ++ quoted #"${2:Title}" ++
        #" over ${3:domain} {"; tab :: #"$0"; #"}" ]);
    MkSnippet #"view-detail" #"detail view skeleton" (join [nl] [ #"view ${1:name}_detail " ++
        quoted #"${2:Title}" ++ #" over ${3:domain} {"; []; tab :: #"toolbar {"; tab :: tab :: #"save";
        tab :: tab :: #"exit"; tab :: #"}"; []; tab :: #"section " ++ quoted #"${4:Daten}" ++ #" p=md {";
        tab :: tab :: #"$0"; tab :: #"}"; #"}" ]);
    MkSnippet #"view-list" #"list view skeleton" (join [nl] [ #"view ${1:name}_list " ++ quoted #"${2:Title}" ++
        #" over ${3:domain} {"; []; tab :: #"toolbar {";
        tab :: tab :: #"new " ++ quoted #"Neu" ++ #" -> ${1:name}_detail as tab"; tab :: #"}"; [];
        tab :: #"table -> ${3:domain}.rows {";
        tab :: tab :: #"on_select -> ${1:name}_detail bind=${3:domain}.id as tab"; [];
        tab :: tab :: #"column ${3:domain}.${4:id} " ++ quoted #"${5:ID}" ++ #" width=${6:60}"; tab :: tab :: #"$0";
        tab :: #"}"; #"}" ]);
    MkSnippet #"toolbar" #"toolbar block" (join [nl] [ #"toolbar {"; tab :: #"$0"; #"}" ]);
    MkSnippet #"section" #"section block" (join [nl] [ #"section " ++ quoted #"${1:label}" ++ #" p=md {";
        tab :: #"$0"; #"}" ]);
    MkSnippet #"tabs" #"tabs container" (join [nl] [ #"tabs p=sm {"; tab :: #"$0"; #"}" ]);
    MkSnippet #"tab" #"single tab" (join [nl] [ #"tab " ++ quoted #"${1:label}" ++ #" {"; tab :: #"$0"; #"}" ]);
    MkSnippet #"grid" #"grid container" (join [nl] [ #"grid cols=${1:2} gap=md {"; tab :: #"$0"; #"}" ]);
    MkSnippet #"row" #"row container" (join [nl] [ #"row p=md {"; tab :: #"$0"; #"}" ]);
    MkSnippet #"stack" #"stack container" (join [nl] [ #"stack {"; tab :: #"$0"; #"}" ]);
    MkSnippet #"card" #"card container" (join [nl] [ #"card p=md {"; tab :: #"$0"; #"}" ]);
    MkSnippet #"accordion" #"accordion container" (join [nl] [ #"accordion p=md {"; tab :: #"$0"; #"}" ]);
    MkSnippet #"item" #"accordion item" (join [nl] [ #"item " ++ quoted #"${1:label}" ++ #" {"; tab :: #"$0"; #"}" ]);
    MkSnippet #"richtext" #"richtext block" (join [nl] [ #"richtext {"; tab :: #"heading " ++ quoted #"${1:Title}";
        tab :: #"bold    " ++ quoted #"${2:Subtitle}"; #"}" ]);
    MkSnippet #"text" #"text field" (#"text " ++ quoted #"${1:label}" ++ #" -> ${2:domain.field}");
    MkSnippet #"textarea" #"textarea field" (#"textarea " ++ quoted #"${1:label}" ++
        #" -> ${2:domain.field} placeholder=" ++ quoted #"$3");
    MkSnippet #"number" #"number field" (#"number " ++ quoted #"${1:label}" ++ #" -> ${2:domain.field}");
    MkSnippet #"email" #"email field" (#"email " ++ quoted #"${1:label}" ++ #" -> ${2:domain.field}");
    MkSnippet #"password" #"password field" (#"password " ++ quoted #"${1:label}" ++ #" -> ${2:domain.field}");
    MkSnippet #"date" #"date field" (#"date " ++ quoted #"${1:label}" ++ #" -> ${2:domain.field}");
    MkSnippet #"datetime" #"datetime field" (#"datetime " ++ quoted #"${1:label}" ++ #" -> ${2:domain.field}");
    MkSnippet #"time" #"time field" (#"time " ++ quoted #"${1:label}" ++ #" -> ${2:domain.field}");
    MkSnippet #"select" #"dropdown field" (#"select " ++ quoted #"${1:label}" ++ #" -> ${2:domain.field}");
    MkSnippet #"combobox" #"combobox field" (#"combobox " ++ quoted #"${1:label}" ++ #" -> ${2:domain.field}");
    MkSnippet #"multiselect" #"multi-select" (#"multiselect " ++ quoted #"${1:label}" ++ #" -> ${2:domain.field}");
    MkSnippet #"radio" #"radio group" (#"radio " ++ quoted #"${1:label}" ++ #" -> ${2:domain.field}");
    MkSnippet #"check" #"checkbox" (#"check " ++ quoted #"${1:label}" ++ #" -> ${2:domain.field}");
    MkSnippet #"switch" #"switch" (#"switch " ++ quoted #"${1:label}" ++ #" -> ${2:domain.field}");
    MkSnippet #"slider" #"slider" (#"slider " ++ quoted #"${1:label}" ++
        #" -> ${2:domain.field} min=${3:0} max=${4:100} step=${5:1}");
    MkSnippet #"rangeslider" #"range slider" (#"rangeslider " ++ quoted #"${1:label}" ++
        #" -> ${2:domain.field} min=${3:0} max=${4:100}");
    MkSnippet #"rating" #"rating field" (#"rating " ++ quoted #"${1:label}" ++ #" -> ${2:domain.field}");
    MkSnippet #"progress" #"progress bar" (#"progress " ++ quoted #"${1:label}" ++ #" -> ${2:domain.field}");
    MkSnippet #"color" #"color picker" (#"color " ++ quoted #"${1:label}" ++ #" -> ${2:domain.field}");
    MkSnippet #"file" #"file picker" (#"file " ++ quoted #"${1:label}" ++ #" -> ${2:domain.field}");
    MkSnippet #"table" #"table block" (join [nl] [ #"table -> ${1:domain}.rows {";
        tab :: #"on_select -> ${2:detail_view} bind=${1:domain}.id as tab"; [];
        tab :: #"column ${1:domain}.${3:id} " ++ quoted #"${4:ID}" ++ #" width=${5:60}"; tab :: #"$0"; #"}" ]);
    MkSnippet #"column" #"table column" (#"column ${1:domain.field} " ++ quoted #"${2:label}" ++ #" width=${3:120}");
    MkSnippet #"save" #"toolbar save" (#"save");
    MkSnippet #"exit" #"toolbar exit" (#"exit");
    MkSnippet #"delete" #"toolbar delete" (#"delete confirm=" ++ quoted #"${1:Wirklich löschen?}");
    MkSnippet #"new" #"toolbar new" (#"new " ++ quoted #"${1:Neu}" ++ #" -> ${2:detail_view} as tab");
    MkSnippet #"icon" #"icon" (#"icon " ++ quoted #"${1:account}" ++ #" size=${2:24}");
    MkSnippet #"divider" #"divider" (#"divider");
    MkSnippet #"sep" #"separator" (#"sep");
    MkSnippet #"on_select" #"row click handler" (#"on_select -> ${1:detail_view} bind=${2:domain.id} as tab") ].

(** A completion item, without the range of the word it replaces. *)
Inductive ItemKind := KindSnippet | KindKeyword | KindValue.
Record CompletionItem := MkItem {
  it_label : str; it_kind : ItemKind; insertText : str; it_detail : option str; sortText : str }.

(** [provideCompletionItems] of [buildProvider] *)
Definition buildProvider (keywords : list str) (snippets : list Snippet) : list CompletionItem :=
  ((λ s, MkItem (sn_label s) KindSnippet (sn_body s) (Some (sn_detail s)) (#"0" ++ sn_label s)) <$> snippets) ++
  ((λ kw, MkItem kw KindKeyword kw None (#"1" ++ kw)) <$>
     filter (λ kw, kw ∉ (sn_label <$> snippets)) keywords).

(** The languages that have a provider, each provider Monaco was given. *)
Record Registry := MkRegistry { installed : list str; providers : list (str * list CompletionItem) }.

Definition register_one (lang : str) (items : list CompletionItem) (r : Registry) : Registry :=
  if decide (lang ∈ installed r) then r
  else MkRegistry (installed r ++ [lang]) (providers r ++ [(lang, items)]).

Definition registerOnisinCompletion (r : Registry) : Registry :=
  register_one #"onisin-view" (buildProvider viewMonarch_keywords VIEW_SNIPPETS)
    (register_one #"onisin-domain" (buildProvider domainMonarch_keywords DOMAIN_SNIPPETS) r).

(** ** What a snippet inserts

    Tab stops are [$1] and [${1:placeholder}]; an accepted snippet leaves the
    placeholders, and the caret at [$0]. *)

Inductive SnippetMode := Plain | Dollar | Number | Label.
Fixpoint expand_from (caret : str) (m : SnippetMode) (s : str) : str :=
  match s with
  | [] => []
  | c :: s =>
    match m with
    | Plain => if (c =? 36)%N then expand_from caret Dollar s else c :: expand_from caret Plain s
    | Dollar =>
      if (c =? 123)%N then expand_from caret Number s
      else if (c =? 48)%N then caret ++ expand_from caret Plain s
      else if is_digit c then expand_from caret Plain s
      else 36%N :: c :: expand_from caret Plain s
    | Number => if (c =? 58)%N then expand_from caret Label s else expand_from caret Number s
    | Label => if (c =? 125)%N then expand_from caret Plain s else c :: expand_from caret Label s
    end
  end.
Definition expand_with (caret : str) (s : Snippet) : str := expand_from caret Plain (sn_body s).
Definition expand (s : Snippet) : str := expand_with [] s.

(** * [kv-completion.ts] *)

Definition BUCKET : str := #"oos-pipeline".

(** [Suggestion]; what an alias object holds is not checked. *)
Record Suggestion := MkSuggestion { insert_ : jsval; display : jsval; info : jsval; doc : option str }.

Definition nullish_or (v d : jsval) : jsval := if is_nullish v then d else v.

(** [e.capabilities?.length] and [.join(", ")] *)
Definition capabilities_line (v : jsval) : outcome (list str) :=
  match v with
  | VArr [] => Ok []
  | VArr l =>
    Ok [ #"**capabilities:** " ++ join #", " (map (λ v, if is_nullish v then [] else to_string v) l)]
  | VUndef | VNull => Ok []
  | _ => n ← get_prop #"length" v;
         if truthy n then Throw #"e.capabilities.join is not a function" else Ok []
  end.

(** [normaliseEntry] *)
Definition normaliseEntry (raw : jsval) : outcome (option Suggestion) :=
  match raw with
  | VStr s => Ok (Some (MkSuggestion raw raw VUndef None))
  | VObj e =>
    if negb (obj_has #"alias" e) then Ok None
    else if (match obj_get #"enabled" e with VBool false => true | _ => false end) then Ok None
    else
      let get k := obj_get k e in
      let line (k before after : str) : list str :=
        if truthy (get k) then [before ++ to_string (get k) ++ after] else [] in
      capabilities ← capabilities_line (get #"capabilities");
      let lines : list str :=
        line #"model" #"**model:** `" #"`" ++ line #"placement" #"**placement:** " [] ++ capabilities ++
        line #"contextWindow" #"**context:** " #" tokens" ++ line #"fallback" #"**fallback:** " [] ++
        (if truthy (get #"description") then [[]; to_string (get #"description")] else []) in
      Ok (Some (MkSuggestion (get #"alias") (nullish_or (get #"label") (get #"alias"))
                  (nullish_or (get #"model") (get #"alias"))
                  (match lines with [] => None | _ => Some (join (#"  " ++ [nl]) lines) end)))
  | _ => Ok None
  end.

(** [fetchValues]: what the store answered, read as suggestions. *)
Definition normalise_all (value : jsval) : outcome (list Suggestion) :=
  match outcome_map normaliseEntry (match value with VArr l => l | _ => [] end) with
  | Ok l => Ok (omap id l)
  | Throw e => Throw e
  end.

Record CacheEntry := MkCacheEntry { values : list Suggestion; expiresAt : Z }.
Abbreviation KvCache := (list (str * CacheEntry)).

Definition cache_hit (now : Z) (key : str) (cache : KvCache) : option (list Suggestion) :=
  match assoc_get key cache with
  | Some hit => if (now <? expiresAt hit)%Z then Some (values hit) else None
  | None => None
  end.

(** Behind the await: [now] is the time of the answer. *)
Definition cache_answer (now : Z) (key : str) (reply : outcome jsval) (cache : KvCache) : list Suggestion * KvCache :=
  match (match reply with Ok value => normalise_all value | Throw e => Throw e end) with
  | Ok vs => (vs, map_set key (MkCacheEntry vs (now + 60000)) cache)
  | Throw _ => ([], cache)
  end.

(** [natsKvGet] of [rpc.ts]: it does not throw. *)
Definition natsKvGet (stored : outcome jsval) : outcome jsval :=
  Ok (match stored with Ok v => v | Throw _ => VNull end).

(** [getContextKeyword] *)
Fixpoint last_quote (n : nat) (line : str) : option nat :=
  match n with
  | O => None
  | S i => if bool_decide (line !! i = Some dq) then Some i else last_quote i line
  end.

(** The longest end of [s] that satisfies [p]. *)
Fixpoint take_while (p : N → bool) (s : str) : str :=
  match s with c :: s => if p c then c :: take_while p s else [] | [] => [] end.
Definition end_run (p : N → bool) (s : str) : str := reverse (take_while p (reverse s)).

Definition word_or_dash (c : N) : bool := is_word c || (c =? 45)%N.

(** [column] counts from 1. *)
Definition getContextKeyword (line : str) (column : nat) : option str :=
  match last_quote (column - 1) line with
  | Some quoteIdx =>
    match end_run word_or_dash (trim_end (take quoteIdx line)) with [] => None | w => Some w end
  | None => None
  end.

Record CompletionContext := MkContext { cc_keyword : str; cc_detail : option str }.

(** [registerPipelineLanguage] of [pipeline-lang.ts] *)
Definition pipeline_contexts : list CompletionContext :=
  [ MkContext #"llm" (Some #"LLM model"); MkContext #"embedding" (Some #"Embedding model");
    MkContext #"fallback" (Some #"Fallback model"); MkContext #"pipeline" (Some #"Pipeline name");
    MkContext #"system" (Some #"System prompt"); MkContext #"prompt" (Some #"User prompt") ].

Definition kv_key (contexts : list CompletionContext) (line : str) (column : nat) : option str :=
  match getContextKeyword line column with
  | Some keyword => if bool_decide (keyword ∈ (cc_keyword <$> contexts)) then Some keyword else None
  | None => None
  end.

Definition detail_of (contexts : list CompletionContext) (keyword : str) : jsval :=
  match List.find (λ c, bool_decide (cc_keyword c = keyword)) (reverse contexts) with
  | Some c => VStr (default (cc_keyword c) (cc_detail c))
  | None => VUndef
  end.

(** [provideCompletionItems]: label, text, detail and documentation. *)
Definition kv_items (contexts : list CompletionContext) (keyword : str) (vs : list Suggestion) :
    list (jsval * jsval * jsval * option str) :=
  (λ v, (display v, insert_ v, nullish_or (info v) (detail_of contexts keyword),
         match doc v with Some ((_ :: _) as d) => Some d | _ => None end)) <$> vs.

(** * What the snippets insert *)

(** Snippets inside one another, each at the caret of the one before. *)
Definition nest (path : list Snippet) : str := foldr (λ s inner, expand_with inner s) [] path.

Definition snippet_named (snippets : list Snippet) (label : str) : list Snippet :=
  filter (λ s, sn_label s = label) snippets.

(** Where a snippet of the view language belongs. *)
Definition host_labels (label : str) : list str :=
  if decide (label ∈ [ #"view"; #"view-detail"; #"view-list"]) then []
  else if decide (label ∈ [ #"save"; #"exit"; #"delete"; #"new"]) then [ #"view"; #"toolbar"]
  else if decide (label = #"tab") then [ #"view"; #"tabs"]
  else if decide (label = #"item") then [ #"view"; #"accordion"]
  else if decide (label = #"column") then [ #"view"; #"table"]
  else [ #"view"].
(** What must stand in it before the view is complete. *)
Definition filling_labels (label : str) : list str :=
  if decide (label = #"tabs") then [ #"tab"] else if decide (label = #"accordion") then [ #"item"] else [].

Definition view_path (s : Snippet) : list Snippet :=
  (host_labels (sn_label s) ≫= snippet_named VIEW_SNIPPETS) ++ [s] ++
  (filling_labels (sn_label s) ≫= snippet_named VIEW_SNIPPETS).

Definition domain_path (s : Snippet) : list Snippet :=
  (if decide (sn_label s = #"domain") then [] else snippet_named DOMAIN_SNIPPETS #"domain") ++ [s].

Lemma view_paths :
  Forall (λ s, sn_label s ∉ [ #"datetime"; #"on_select"] → is_phrase ViewGrammar 400 0 (nest (view_path s)) = Some true)
    VIEW_SNIPPETS.
Proof. apply (bool_decide_unpack _). vm_compute. exact I. Qed.

Lemma domain_paths :
  Forall (λ s, sn_label s ≠ #"example" → is_phrase DomainGrammar 400 0 (nest (domain_path s)) = Some true)
    DOMAIN_SNIPPETS.
Proof. apply (bool_decide_unpack _). vm_compute. exact I. Qed.

(** The rules of a language, for a text that belongs to none. *)
Lemma no_phrase g fuel s :
  Forall (λ r, is_phrase g fuel r s = Some false) (seq 0 (length (rules g))) → ∀ r, ¬ phrase g r s.
Proof.
  intros H r (toks & Ht & Hd). destruct (decide (r < length (rules g))) as [Hr|Hr].
  - rewrite Forall_forall in H. specialize (H r ltac:(apply elem_of_seq; lia)).
    apply is_phrase_spec in H. enough (false = true) by done. apply H. by exists toks.
  - assert (rules g !! r = None) as Hn by (apply lookup_ge_None_2; lia). inversion Hd; congruence.
Qed.

Lemma datetime_snippet :
  Forall (λ r, is_phrase ViewGrammar 400 r (#"datetime " ++ quoted #"label" ++ #" -> domain.field") = Some false)
    (seq 0 (length (rules ViewGrammar))).
Proof. apply (bool_decide_unpack _). vm_compute. exact I. Qed.

Lemma table_snippets :
  is_phrase ViewGrammar 400 28 (#"on_select -> detail_view bind=domain.id as tab") = Some true ∧
  is_phrase DomainGrammar 400 8 (#"example eq " ++ quoted #"value" ++ #" " ++ quoted #"description") = Some true.
Proof. split; vm_compute; reflexivity. Qed.

Lemma expansions :
  Forall (λ s, (sn_label s = #"on_select" → expand s = #"on_select -> detail_view bind=domain.id as tab") ∧
               (sn_label s = #"datetime" → expand s = #"datetime " ++ quoted #"label" ++ #" -> domain.field"))
    VIEW_SNIPPETS ∧
  Forall (λ s, sn_label s = #"example" → expand s = #"example eq " ++ quoted #"value" ++ #" " ++ quoted #"description")
    DOMAIN_SNIPPETS.
Proof. apply (bool_decide_unpack _). vm_compute. exact I. Qed.

(** C27: What a snippet inserts is in its language: put at the caret of the
    snippet it belongs in, and completed, the snippet yields a whole view or
    domain that parses, or it is a row action or an example, a phrase of a rule
    of its own.  The exception is the [datetime] field: no rule of the view
    language has such a phrase. *)
Theorem snippets_parse s :
  (s ∈ VIEW_SNIPPETS →
   (sn_label s ∉ [ #"datetime"; #"on_select"] → s ∈ view_path s ∧ parses ViewGrammar (nest (view_path s))) ∧
   (sn_label s = #"on_select" → phrase ViewGrammar 28 (expand s)) ∧
   (sn_label s = #"datetime" → ∀ r, ¬ phrase ViewGrammar r (expand s))) ∧
  (s ∈ DOMAIN_SNIPPETS →
   (sn_label s ≠ #"example" → s ∈ domain_path s ∧ parses DomainGrammar (nest (domain_path s))) ∧
   (sn_label s = #"example" → phrase DomainGrammar 8 (expand s))).
Proof.
  pose proof view_paths as Hv. pose proof domain_paths as Hd. destruct table_snippets as [Ht He].
  destruct expansions as [Hev Hed]. rewrite Forall_forall in Hv, Hd, Hev, Hed. split.
  - intros Hs. destruct (Hev s Hs) as [Hon Hdt]. split_and!; intros Hl.
    + split; [by apply elem_of_app; right; left|]. exact (proj1 (is_phrase_spec _ _ _ _ _ (Hv s Hs Hl)) eq_refl).
    + rewrite (Hon Hl). exact (proj1 (is_phrase_spec _ _ _ _ _ Ht) eq_refl).
    + rewrite (Hdt Hl). exact (no_phrase _ _ _ datetime_snippet).
  - intros Hs. split; intros Hl.
    + split; [by apply elem_of_app; right; left|]. exact (proj1 (is_phrase_spec _ _ _ _ _ (Hd s Hs Hl)) eq_refl).
    + rewrite (Hed s Hs Hl). exact (proj1 (is_phrase_spec _ _ _ _ _ He) eq_refl).
Qed.

(** The completed list view. *)
Lemma snippets_parse_witness :
  Forall (λ s, s ∈ VIEW_SNIPPETS ∧ parses ViewGrammar (nest (view_path s))) (snippet_named VIEW_SNIPPETS #"view-list").
Proof.
  apply Forall_forall. intros s Hs. assert (s ∈ VIEW_SNIPPETS) as Hv by (apply list_elem_of_filter in Hs; apply Hs).
  split; [exact Hv|]. destruct (snippets_parse s) as [H _]. apply (H Hv).
  apply list_elem_of_filter in Hs as [-> _]. apply (bool_decide_unpack _). vm_compute. exact I.
Defined.

(** * What is offered *)

Lemma buildProvider_labels keywords snippets :
  it_label <$> buildProvider keywords snippets =
  (sn_label <$> snippets) ++ filter (λ kw, kw ∉ (sn_label <$> snippets)) keywords.
Proof. unfold buildProvider. rewrite fmap_app, <- !list_fmap_compose. f_equal. by apply list_fmap_id. Qed.

(** Every keyword and every snippet once, a keyword that names a snippet as
    the snippet. *)
Lemma provider_offers keywords snippets :
  NoDup keywords → NoDup (sn_label <$> snippets) →
  NoDup (it_label <$> buildProvider keywords snippets) ∧
  (∀ l, l ∈ it_label <$> buildProvider keywords snippets ↔ l ∈ sn_label <$> snippets ∨ l ∈ keywords).
Proof.
  intros Hk Hs. rewrite buildProvider_labels. split.
  - apply NoDup_app. split_and!; [done| |by apply NoDup_filter].
    intros x Hx Hf. by apply list_elem_of_filter in Hf as [? _].
  - intros l. rewrite elem_of_app, list_elem_of_filter. destruct (decide (l ∈ sn_label <$> snippets)); tauto.
Qed.

(** The words of a grammar, without its punctuation. *)
Definition grammar_words (g : Grammar) : list str := filter (Exists (λ c, is_lower c = true)) (keywords g).

Definition same_words (ws : list str) (g : Grammar) : Prop :=
  NoDup ws ∧ Forall (λ w, w ∈ grammar_words g) ws ∧ Forall (λ w, w ∈ ws) (grammar_words g).

Lemma highlighter_words :
  same_words domainMonarch_keywords DomainGrammar ∧ same_words eventSchemaMonarch_keywords EventSchemaGrammar ∧
  same_words viewMonarch_keywords ViewGrammar ∧ same_words pipelineMonarch_keywords PipelineGrammar.
Proof. split_and!; apply (bool_decide_unpack _); vm_compute; exact I. Qed.

Lemma snippet_labels : NoDup (sn_label <$> DOMAIN_SNIPPETS) ∧ NoDup (sn_label <$> VIEW_SNIPPETS).
Proof. split; apply (bool_decide_unpack _); vm_compute; exact I. Qed.

Lemma provider_words ws snippets g :
  same_words ws g → NoDup (sn_label <$> snippets) →
  NoDup (it_label <$> buildProvider ws snippets) ∧
  ∀ w, w ∈ it_label <$> buildProvider ws snippets ↔ w ∈ sn_label <$> snippets ∨ w ∈ grammar_words g.
Proof.
  intros (Hn & H1 & H2) Hs. destruct (provider_offers ws snippets Hn Hs) as [Hd Hi]. split; [exact Hd|].
  rewrite Forall_forall in H1, H2. intros w. rewrite Hi. split; (intros [H|H]; [by left|right]); [by apply H1|by apply H2].
Qed.

(** The words the highlighters know are the words of the grammars; the two
    providers offer each of them and each snippet once. *)
Theorem offered_words :
  (NoDup (it_label <$> buildProvider domainMonarch_keywords DOMAIN_SNIPPETS) ∧
   ∀ w, w ∈ it_label <$> buildProvider domainMonarch_keywords DOMAIN_SNIPPETS ↔
        w ∈ sn_label <$> DOMAIN_SNIPPETS ∨ w ∈ grammar_words DomainGrammar) ∧
  (NoDup (it_label <$> buildProvider viewMonarch_keywords VIEW_SNIPPETS) ∧
   ∀ w, w ∈ it_label <$> buildProvider viewMonarch_keywords VIEW_SNIPPETS ↔
        w ∈ sn_label <$> VIEW_SNIPPETS ∨ w ∈ grammar_words ViewGrammar).
Proof.
  destruct highlighter_words as (Hd & _ & Hv & _). destruct snippet_labels as [Hsd Hsv].
  exact (conj (provider_words _ _ _ Hd Hsd) (provider_words _ _ _ Hv Hsv)).
Qed.

(** However often the languages are registered, a provider is installed once. *)
Lemma register_known l items r : l ∈ installed r → register_one l items r = r.
Proof. intros H. unfold register_one. by rewrite decide_True. Qed.
Lemma register_installs l l' items r : l' = l ∨ l' ∈ installed r → l' ∈ installed (register_one l items r).
Proof.
  intros H. unfold register_one. destruct (decide (l ∈ installed r)); [by destruct H as [->|]|].
  cbn [installed]. apply elem_of_app. destruct H as [->|H]; [right; by left|by left].
Qed.

Lemma register_twice r : registerOnisinCompletion (registerOnisinCompletion r) = registerOnisinCompletion r.
Proof.
  assert (∀ l i l' i' r, register_one l' i' (register_one l i (register_one l' i' (register_one l i r))) =
            register_one l' i' (register_one l i r)) as H.
  { intros l i l' i' r'. rewrite (register_known l), (register_known l'); [done|..]; apply register_installs; [by left|].
    right. apply register_installs. by left. }
  apply H.
Qed.

(** * Values from the store *)

Lemma last_quote_at line n i :
  i < n → line !! i = Some dq → (∀ j, i < j < n → line !! j ≠ Some dq) → last_quote n line = Some i.
Proof.
  induction n as [|n IH]; intros Hi Hq Hlater; [lia|]. cbn [last_quote].
  destruct (decide (i = n)) as [->|Hne]; [by rewrite bool_decide_true|].
  rewrite bool_decide_false by (apply Hlater; lia). apply IH; [lia|done|]. intros j Hj. apply Hlater. lia.
Qed.

Lemma take_while_app p w rest :
  Forall (λ c, p c = true) w → match rest with c :: _ => p c = false | [] => True end → take_while p (w ++ rest) = w.
Proof.
  induction 1 as [|c w Hc _ IH]; intros Hr; cbn [app take_while].
  - destruct rest; [done|]. cbn [take_while]. by rewrite Hr.
  - by rewrite Hc, IH.
Qed.

Lemma end_run_app p pre w :
  Forall (λ c, p c = true) w → match last pre with Some c => p c = false | None => True end →
  end_run p (pre ++ w) = w.
Proof.
  intros Hw Hp. unfold end_run. rewrite reverse_app, take_while_app; [by rewrite reverse_involutive|by apply Forall_reverse|].
  rewrite <- (reverse_involutive pre) in Hp. rewrite last_reverse in Hp. by destruct (reverse pre).
Qed.

Lemma word_not_space c : word_or_dash c = true → is_space c = false.
Proof.
  intros Hc. destruct (is_space c) eqn:E; [exfalso|done]. unfold is_space in E. apply orb_true_iff in E as [E|E].
  - apply bool_decide_eq_true in E.
    repeat (apply elem_of_cons in E as [E|E]; [subst c; vm_compute in Hc; discriminate Hc|]).
    by apply elem_of_nil in E.
  - unfold word_or_dash, is_word, is_lower, is_upper, is_digit in Hc. lia.
Qed.

(** Inside a string, the word before its quote. *)
Lemma context_keyword pre kw blanks typed rest :
  kw ≠ [] → Forall (λ c, word_or_dash c = true) kw →
  match last pre with Some c => word_or_dash c = false | None => True end →
  Forall (λ c, is_space c = true) blanks → dq ∉ typed →
  getContextKeyword (pre ++ kw ++ blanks ++ [dq] ++ typed ++ rest)
    (S (length (pre ++ kw ++ blanks ++ [dq] ++ typed))) = Some kw.
Proof.
  intros Hne Hkw Hpre Hb Hq. unfold getContextKeyword. rewrite Nat.sub_succ, Nat.sub_0_r.
  set (front := pre ++ kw ++ blanks).
  assert (∀ l, pre ++ kw ++ blanks ++ l = front ++ l) as Hfront by (intros l; unfold front; by rewrite <- !app_assoc).
  rewrite !Hfront, (last_quote_at _ _ (length front)).
  - rewrite take_app_length. unfold front. rewrite app_assoc.
    assert (trim_end ((pre ++ kw) ++ blanks) = pre ++ kw) as ->.
    { unfold trim_end. rewrite reverse_app. apply Forall_reverse in Hb.
      induction Hb as [|c l Hc _ IH]; [|cbn [app trim_start]; by rewrite Hc].
      cbn [app]. rewrite reverse_app. destruct (exists_last Hne) as (kw' & c & ->).
      apply Forall_app in Hkw as [_ Hc]. apply Forall_cons in Hc as [Hc _]. rewrite reverse_snoc. cbn [app trim_start].
      rewrite (word_not_space c Hc).
      change (c :: reverse kw' ++ reverse pre) with ((c :: reverse kw') ++ reverse pre).
      rewrite <- reverse_snoc, <- reverse_app. by rewrite reverse_involutive. }
    rewrite end_run_app by done. by destruct kw.
  - rewrite length_app. cbn. lia.
  - by rewrite lookup_app_r, Nat.sub_diag by lia.
  - intros j [Hj1 Hj2]. rewrite lookup_app_r by lia. intros Hd. cbn [app] in *.
    rewrite length_app in Hj2. cbn [length] in Hj2.
    destruct (j - length front) as [|k] eqn:Ek; [lia|]. change ((typed ++ rest) !! k = Some dq) in Hd. rewrite lookup_app_l in Hd by lia.
    apply Hq. apply list_elem_of_lookup. by exists k.
Qed.

(** A cursor behind a closed string is taken to be inside one. *)
Example closed_string :
  let line := #"system " ++ quoted #"llm" ++ #" " in
  getContextKeyword line (S (length line)) = Some #"llm" ∧ kv_key pipeline_contexts line (S (length line)) = Some #"llm".
Proof. vm_compute. by split. Qed.

(** The words that take a string in a pipeline: [fallback] is none of them. *)
Example context_words :
  filter (λ c, cc_keyword c ∉ grammar_words PipelineGrammar) pipeline_contexts =
  [MkContext #"fallback" (Some #"Fallback model")].
Proof. vm_compute. reflexivity. Qed.

(** ** The cache *)

(** Answers of the store: when, for which key, what. *)
Definition cache_run (answers : list (Z * str * outcome jsval)) : KvCache :=
  foldl (λ c a, (cache_answer a.1.1 a.1.2 a.2 c).2) [] answers.

Definition suggestions_of (reply : outcome jsval) : outcome (list Suggestion) :=
  match reply with Ok value => normalise_all value | Throw e => Throw e end.

Lemma cache_answer_get now key reply cache k :
  assoc_get k (cache_answer now key reply cache).2 =
  match suggestions_of reply with
  | Ok vs => if decide (k = key) then Some (MkCacheEntry vs (now + 60000)) else assoc_get k cache
  | Throw _ => assoc_get k cache
  end.
Proof.
  unfold cache_answer, suggestions_of. destruct (match reply with Ok _ => _ | Throw _ => _ end) as [vs|e]; [|done].
  apply map_set_get.
Qed.

(** An answer that leaves the cache as it was for the key. *)
Definition no_answer (key : str) (a : Z * str * outcome jsval) : Prop :=
  a.1.2 = key → ∃ e, suggestions_of a.2 = Throw e.

Definition last_answer (key : str) (answers : list (Z * str * outcome jsval)) (entry : CacheEntry) : Prop :=
  ∃ before time reply after,
    answers = before ++ (time, key, reply) :: after ∧ suggestions_of reply = Ok (values entry) ∧
    expiresAt entry = (time + 60000)%Z ∧ Forall (no_answer key) after.

Lemma last_answer_snoc key answers a entry :
  last_answer key (answers ++ [a]) entry ↔
  match suggestions_of a.2 with
  | Ok vs => if decide (key = a.1.2) then entry = MkCacheEntry vs (a.1.1 + 60000) else last_answer key answers entry
  | Throw _ => last_answer key answers entry
  end.
Proof.
  destruct a as [[t k] r]. cbn [fst snd].
  assert (no_answer key (t, k, r) → last_answer key (answers ++ [(t, k, r)]) entry ↔ last_answer key answers entry) as Hskip.
  { intros Hno. split.
    - intros (before & time & reply & after & Ha & Hr & He & Hf). destruct after as [|a after _] using rev_ind.
      + apply app_inj_tail in Ha as [-> [= -> -> ->]]. destruct (Hno eq_refl) as [e He']. cbn [snd] in He'. congruence.
      + rewrite app_comm_cons, app_assoc in Ha. apply app_inj_tail in Ha as [-> <-].
        apply Forall_app in Hf as [Hf _]. by exists before, time, reply, after.
    - intros (before & time & reply & after & -> & Hr & He & Hf).
      exists before, time, reply, (after ++ [(t, k, r)]). split_and!; [by rewrite <- app_assoc|done|done|].
      apply Forall_app_2; [done|]. by apply Forall_cons_2. }
  destruct (suggestions_of r) as [us|e] eqn:Hus; [|apply Hskip; intros _; by exists e].
  destruct (decide (key = k)) as [<-|Hne]; [|apply Hskip; by intros <-]. split.
  - intros (before & time & reply & after & Ha & Hr & He & Hf). destruct after as [|a after _] using rev_ind.
    + apply app_inj_tail in Ha as [-> [= -> ->]]. destruct entry as [vs' ex]. cbn [values expiresAt] in *.
      rewrite Hus in Hr. by injection Hr as ->; subst ex.
    + rewrite app_comm_cons, app_assoc in Ha. apply app_inj_tail in Ha as [-> <-].
      apply Forall_app in Hf as [_ Hf]. apply Forall_cons in Hf as [Hf _]. destruct (Hf eq_refl) as [e He'].
      cbn [snd] in He'. congruence.
  - intros ->. by exists answers, t, r, [].
Qed.

Lemma cache_run_get key answers entry :
  assoc_get key (cache_run answers) = Some entry ↔ last_answer key answers entry.
Proof.
  induction answers as [|[[t k] r] answers IH] using rev_ind.
  - split; [done|]. intros (before & time & reply & after & H & _). by destruct before.
  - rewrite last_answer_snoc. cbn [fst snd]. unfold cache_run. rewrite foldl_app. cbn [foldl fst snd].
    fold (cache_run answers). rewrite cache_answer_get. destruct (suggestions_of r) as [us|]; [|done].
    destruct (decide (key = k)) as [->|]; [|done]. split; [by intros [= <-]|by intros ->].
Qed.

(** The cache serves exactly the last answer for the key that could be read,
    for less than sixty seconds. *)
Theorem cache_exact answers now key vs :
  cache_hit now key (cache_run answers) = Some vs ↔
  ∃ time, last_answer key answers (MkCacheEntry vs (time + 60000)) ∧ (now < time + 60000)%Z.
Proof.
  unfold cache_hit. split.
  - destruct (assoc_get key (cache_run answers)) as [[us ex]|] eqn:E; [|done]. cbn [values expiresAt].
    destruct (Z.ltb_spec now ex); [|done]. intros [= ->]. apply cache_run_get in E. exists (ex - 60000)%Z.
    split; [by rewrite Z.sub_add|lia].
  - intros (time & Ha & Hn). apply cache_run_get in Ha. rewrite Ha. cbn [expiresAt values].
    by destruct (Z.ltb_spec now (time + 60000)); [|lia].
Qed.

(** An answer of the store that failed is kept like an empty one. *)
Lemma outage_cached now later key e cache :
  (later < now + 60000)%Z →
  cache_hit later key (cache_answer now key (natsKvGet (Throw e)) cache).2 = Some [].
Proof.
  intros H. unfold cache_hit. rewrite cache_answer_get.
  change (suggestions_of (natsKvGet (Throw e))) with (Ok (@nil Suggestion)). cbv beta iota. rewrite decide_True by done. cbn [expiresAt values].
  by destruct (Z.ltb_spec later (now + 60000)); [|lia].
Qed.
