(* ===== verification/Designer.v ===== *)
(** The designer window, [apps/oosd/src/mainview/App.tsx], with the document
    calls of its [rpc.ts] and the buttons of [SourceEditor.tsx], [IdList.tsx]
    and [NewItemDialog.tsx]: two panes, one for domains and one for views, each
    a list of identifiers and an editor, over the store of the documents.

    The store is whatever implements [DocumentStore].  A call that waits for
    its answer is part of the state; between the request and the answer the
    service acts on it, or it fails. *)

From S2P Require Export NewItem.

#[local] Set Warnings "-register-all".

(** * The documents *)

Class DocumentStore (S : Type) := {
  ds_load : S → str → option str;
  ds_save : S → str → str → S;
  ds_delete : S → str → S;
  ds_list : S → list str;
  ds_load_save s id source id' :
    ds_load (ds_save s id source) id' = if decide (id' = id) then Some source else ds_load s id';
  ds_load_delete s id id' : ds_load (ds_delete s id) id' = if decide (id' = id) then None else ds_load s id';
  ds_list_spec s id : id ∈ ds_list s ↔ is_Some (ds_load s id) }.

#[global] Program Instance gmap_store : DocumentStore (gmap str str) := {|
  ds_load s id := s !! id;
  ds_save s id source := <[id := source]> s;
  ds_delete s id := delete id s;
  ds_list s := (map_to_list s).*1 |}.
Next Obligation.
  intros s id source id'. cbn. destruct (decide (id' = id)) as [->|]; [by rewrite lookup_insert_eq|by rewrite lookup_insert_ne].
Qed.
Next Obligation.
  intros s id id'. cbn. destruct (decide (id' = id)) as [->|]; [by rewrite lookup_delete_eq|by rewrite lookup_delete_ne].
Qed.
Next Obligation.
  intros s id. cbn. rewrite list_elem_of_fmap. split.
  - intros ([k v] & -> & H). apply elem_of_map_to_list in H. by exists v.
  - intros [v H]. exists (id, v). split; [done|]. by apply elem_of_map_to_list.
Qed.

(** * A pane *)

Record KindState := MkKindState { ids : list str; selected : option str; source : str; dirty : bool }.
Definition emptyKindState : KindState := MkKindState [] None [] false.

Definition set_ids (l : list str) (s : KindState) : KindState := MkKindState l (selected s) (source s) (dirty s).
Definition show_document (id : option str) (text : str) (d : bool) (s : KindState) : KindState :=
  MkKindState (ids s) id text d.
Definition set_dirty (d : bool) (s : KindState) : KindState := MkKindState (ids s) (selected s) (source s) d.

(** What waits behind the refresh of [onSubmitNew] and of [onDelete]. *)
Inductive Finish := Inserted (id text : str) | Deleted (id : str).
Inductive Call :=
| LoadCall (id : str) | SaveCall (id text : str) | InsertCall (id text : str) | DeleteCall (id : str)
| RefreshCall (after : Finish).

(** What the service answers, or why there is no answer. *)
Inductive Reply := IdsReply (l : list str) | SourceReply (text : option str) | OkReply (ok : bool) | FailedReply (e : str).
Record Pending := MkPending { call : Call; reply : option Reply }.

(** [rpc.ts]: [listDomain] and [listView], [loadDomain] and [loadView], and the
    calls that change a document. *)
Definition ids_result (r : Reply) : list str * option str :=
  match r with IdsReply l => (l, None) | FailedReply e => ([], Some e) | _ => ([], None) end.
Definition source_result (r : Reply) : option str * option str :=
  match r with SourceReply t => (t, None) | FailedReply e => (None, Some e) | _ => (None, None) end.
Definition ok_result (r : Reply) : bool := match r with OkReply ok => ok | _ => false end.

Definition error_text (e : str) : str := #"<!-- error: " ++ e ++ #" -->".

(** The update of [refreshDomain] and [refreshView]. *)
Definition refreshed (r : Reply) (s : KindState) : KindState :=
  match ids_result r with (_, Some (_ :: _)) => s | (l, _) => set_ids l s end.

(** The second update of [selectId]. *)
Definition loaded (id : str) (r : Reply) (s : KindState) : KindState :=
  show_document (Some id)
    (match source_result r with
     | (Some text, _) => text
     | (None, Some (c :: e)) => error_text (c :: e)
     | (None, _) => []
     end) false s.

Definition finished (f : Finish) (s : KindState) : KindState :=
  match f with
  | Inserted id text => show_document (Some id) text false s
  | Deleted id => if decide (selected s = Some id) then show_document None [] false s else s
  end.

Inductive Template := EmptyTemplate | CopyTemplate.

Section pane.
Context {S : Type} `{!DocumentStore S}.

(** [disturbed]: something of the pane was used while a call of it was on its
    way, or an answer was lost behind a change. *)
Record Pane := MkPane {
  st : KindState; docs : S; calls : list Pending; refreshes : list (option Reply); disturbed : bool }.

Definition set_st (s : KindState) (p : Pane) : Pane := MkPane s (docs p) (calls p) (refreshes p) (disturbed p).

(** A handler runs: a state update and perhaps a call. *)
Definition act (f : KindState → KindState) (c : option Call) (p : Pane) : Pane :=
  MkPane (f (st p)) (docs p) (calls p ++ match c with Some c => [MkPending c None] | None => [] end) (refreshes p)
    (disturbed p || negb (bool_decide (length (calls p) = 0))).

Inductive PaneEvent :=
| Select (id : str)                       (** a click in the list *)
| Edit (text : str)                       (** in the editor, unless read only *)
| SaveClick
| Submit (id : str) (template : Template) (** of the dialog *)
| ConfirmDelete (id : str)
| RefreshClick
| OpenDsl (id text : str)                 (** [openDslInEditor], from the assistant *)
| Serve (i : nat) | Refuse (i : nat) | Break (i : nat) (c : N) (e : str) | Lose (i : nat) (c : N) (e : str)
| Return (i : nat)
| ServeRefresh (i : nat) | BreakRefresh (i : nat) (c : N) (e : str) | ReturnRefresh (i : nat).

(** The handlers of [App.tsx]: what they do before their first answer. *)
Definition selectId (id : str) : Pane → Pane := act (show_document (Some id) [] false) (Some (LoadCall id)).
Definition onSourceChange (text : str) : Pane → Pane :=
  act (λ s, MkKindState (ids s) (selected s) text true) None.
Definition onSave (p : Pane) : Pane :=
  match selected (st p) with
  | Some ((_ :: _) as id) => act (λ s, s) (Some (SaveCall id (source (st p)))) p
  | _ => p
  end.
Definition onSubmitNew (kind : Kind) (id : str) (template : Template) (p : Pane) : Pane :=
  let text := match template, source (st p) with
              | CopyTemplate, ((_ :: _) as text) => text
              | _, _ => stubSource kind id
              end in
  act (λ s, s) (Some (InsertCall id text)) p.
Definition onDelete (id : str) : Pane → Pane := act (λ s, s) (Some (DeleteCall id)).
Definition refresh (p : Pane) : Pane := MkPane (st p) (docs p) (calls p) (refreshes p ++ [None]) (disturbed p).
Definition openDsl (id text : str) : Pane → Pane := act (show_document (Some id) text true) None.

(** The handlers behind their answers. *)
Definition answered (c : Call) (r : Reply) (p : Pane) : Pane :=
  let again f := MkPane (st p) (docs p) (calls p ++ [MkPending (RefreshCall f) None]) (refreshes p) (disturbed p) in
  match c with
  | LoadCall id => set_st (loaded id r (st p)) p
  | SaveCall _ _ => if ok_result r then set_st (set_dirty false (st p)) p else p
  | InsertCall id text => if ok_result r then again (Inserted id text) else p
  | DeleteCall id => if ok_result r then again (Deleted id) else p
  | RefreshCall f => set_st (finished f (refreshed r (st p))) p
  end.

(** What the service makes of a call. *)
Definition served (c : Call) (s : S) : Reply * S :=
  match c with
  | LoadCall id => (SourceReply (ds_load s id), s)
  | SaveCall id text | InsertCall id text => (OkReply true, ds_save s id text)
  | DeleteCall id => (OkReply true, ds_delete s id)
  | RefreshCall _ => (IdsReply (ds_list s), s)
  end.

Definition set_calls (cs : list Pending) (p : Pane) : Pane := MkPane (st p) (docs p) cs (refreshes p) (disturbed p).

Definition on_call (i : nat) (f : Call → Pane → Pane) (p : Pane) : Pane :=
  match calls p !! i with Some (MkPending c None) => f c p | _ => p end.

Definition pane_event (kind : Kind) (e : PaneEvent) (p : Pane) : Pane :=
  match e with
  | Select id => if decide (id ∈ ids (st p)) then selectId id p else p
  | Edit text => match selected (st p) with Some (_ :: _) => onSourceChange text p | _ => p end
  | SaveClick => if dirty (st p) then onSave p else p
  | Submit id template => match validate id (ids (st p)) with None => onSubmitNew kind id template p | Some _ => p end
  | ConfirmDelete id => match id with _ :: _ => if decide (id ∈ ids (st p)) then onDelete id p else p | [] => p end
  | RefreshClick => refresh p
  | OpenDsl id text => openDsl id text p
  | Serve i =>
    on_call i (λ c p, MkPane (st p) (served c (docs p)).2 (<[i := MkPending c (Some (served c (docs p)).1)]> (calls p))
                        (refreshes p) (disturbed p)) p
  | Refuse i =>
    on_call i (λ c p, match c with
                      | SaveCall _ _ | InsertCall _ _ | DeleteCall _ =>
                        set_calls (<[i := MkPending c (Some (OkReply false))]> (calls p)) p
                      | _ => p
                      end) p
  | Break i c e =>
    on_call i (λ call p, set_calls (<[i := MkPending call (Some (FailedReply (c :: e)))]> (calls p)) p) p
  | Lose i c e =>
    match calls p !! i with
    | Some (MkPending call (Some _)) =>
      MkPane (st p) (docs p) (<[i := MkPending call (Some (FailedReply (c :: e)))]> (calls p)) (refreshes p) true
    | _ => p
    end
  | Return i =>
    match calls p !! i with
    | Some (MkPending c (Some r)) => answered c r (set_calls (delete i (calls p)) p)
    | _ => p
    end
  | ServeRefresh i =>
    match refreshes p !! i with
    | Some None =>
      MkPane (st p) (docs p) (calls p) (<[i := Some (IdsReply (ds_list (docs p)))]> (refreshes p)) (disturbed p)
    | _ => p
    end
  | BreakRefresh i c e =>
    match refreshes p !! i with
    | Some None => MkPane (st p) (docs p) (calls p) (<[i := Some (FailedReply (c :: e))]> (refreshes p)) (disturbed p)
    | _ => p
    end
  | ReturnRefresh i =>
    match refreshes p !! i with
    | Some (Some r) => MkPane (refreshed r (st p)) (docs p) (calls p) (delete i (refreshes p)) (disturbed p)
    | _ => p
    end
  end.

(** [useEffect] on mount lists the documents. *)
Definition open_pane (s : S) : Pane := MkPane emptyKindState s [] [None] false.

(** * The window *)

Record App := MkApp {
  kind : Kind; domains : Pane; views : Pane; saving : bool; previewOpen : bool;
  pushTimer : option (str * option str); lastPreviewSource : str * option str }.

Definition active_pane (k : Kind) (a : App) : Pane := match k with KDomain => domains a | _ => views a end.
Definition set_pane (k : Kind) (p : Pane) (a : App) : App :=
  match k with
  | KDomain => MkApp (kind a) p (views a) (saving a) (previewOpen a) (pushTimer a) (lastPreviewSource a)
  | _ => MkApp (kind a) (domains a) p (saving a) (previewOpen a) (pushTimer a) (lastPreviewSource a)
  end.
Definition set_kind (k : Kind) (a : App) : App :=
  MkApp k (domains a) (views a) (saving a) (previewOpen a) (pushTimer a) (lastPreviewSource a).
Definition set_saving (b : bool) (a : App) : App :=
  MkApp (kind a) (domains a) (views a) b (previewOpen a) (pushTimer a) (lastPreviewSource a).

(** The effect that pushes the source of the view after a pause; it runs when
    the kind, the source or the selection on display has changed. *)
Definition displayed (a : App) : Kind * str * option str :=
  (kind a, source (st (active_pane (kind a) a)), selected (st (active_pane (kind a) a))).
Definition push_effect (before after : App) : App :=
  if decide (displayed before = displayed after) then after
  else MkApp (kind after) (domains after) (views after) (saving after) (previewOpen after)
         (match kind after with KView => Some ((displayed after).1.2, (displayed after).2) | _ => None end)
         (lastPreviewSource after).

Inductive AppEvent :=
| Navigate (k : Kind)                        (** in the sidebar *)
| User (e : PaneEvent)                       (** in the pane on display *)
| Service (k : Kind) (e : PaneEvent)         (** calls of either pane *)
| OpenInEditor (view : bool) (id text : str)
| Pause                                      (** the timer of the preview *)
| TogglePreview.

Definition is_save (i : nat) (p : Pane) : bool :=
  match calls p !! i with Some (MkPending (SaveCall _ _) (Some _)) => true | _ => false end.

Definition handle (e : AppEvent) (a : App) : App :=
  match e with
  | Navigate k => set_kind k a
  | User e =>
    match kind a with
    | KDomain | KView =>
      let p := active_pane (kind a) a in
      match e with
      | SaveClick =>
        if saving a then a
        else let p' := pane_event (kind a) SaveClick p in
             set_saving (negb (bool_decide (length (calls p') = length (calls p)))) (set_pane (kind a) p' a)
      | Select _ | Edit _ | Submit _ _ | ConfirmDelete _ | RefreshClick => set_pane (kind a) (pane_event (kind a) e p) a
      | _ => a
      end
    | _ => a
    end
  | Service k e =>
    let p := active_pane k a in
    match e with
    | Return i => set_saving (saving a && negb (is_save i p)) (set_pane k (pane_event k e p) a)
    | Serve _ | Refuse _ | Break _ _ _ | Lose _ _ _ | ServeRefresh _ | BreakRefresh _ _ _ | ReturnRefresh _ =>
      set_pane k (pane_event k e p) a
    | _ => a
    end
  | OpenInEditor view id text =>
    let k := if view then KView else KDomain in
    set_pane k (pane_event k (OpenDsl id text) (active_pane k a)) (set_kind k a)
  | Pause =>
    match pushTimer a with
    | Some pushed => MkApp (kind a) (domains a) (views a) (saving a) (previewOpen a) None pushed
    | None => a
    end
  | TogglePreview => MkApp (kind a) (domains a) (views a) (saving a) (negb (previewOpen a)) (pushTimer a) (lastPreviewSource a)
  end.

Definition app_event (e : AppEvent) (a : App) : App := push_effect a (handle e a).
Definition app_events (es : list AppEvent) (a : App) : App := foldl (λ a e, app_event e a) a es.

Definition open_app (d v : S) : App := MkApp KDomain (open_pane d) (open_pane v) false false None ([], None).
End pane.

Arguments Pane : clear implicits.
Arguments App : clear implicits.

(** * What the editor shows *)

Section honest.
Context {S : Type} `{!DocumentStore S}.
Implicit Types p : Pane S.
Implicit Types a : App S.

(** The text of a document, or the comment of a load that failed. *)
Definition text_of (s : S) (id text : str) : Prop := text = default [] (ds_load s id) ∨ ∃ e, text = error_text e.

(** Nothing to save means nothing differs, apart from the document [but]. *)
Definition honest_but (but : option str) (p : Pane S) : Prop :=
  dirty (st p) = false → ∀ id, selected (st p) = Some id → Some id = but ∨ text_of (docs p) id (source (st p)).
Definition honest : Pane S → Prop := honest_but None.

(** What holds while a call is on its way. *)
Definition call_ok (c : Call) (r : option Reply) (p : Pane S) : Prop :=
  match c with
  | LoadCall id =>
    match r with
    | None => True
    | Some (SourceReply t) => t = ds_load (docs p) id
    | Some (FailedReply (_ :: _)) => True
    | Some _ => False
    end
  | SaveCall id text =>
    selected (st p) = Some id ∧ source (st p) = text ∧ dirty (st p) = true ∧
    (r = Some (OkReply true) → ds_load (docs p) id = Some text)
  | InsertCall id text =>
    match r with Some (OkReply true) => ds_load (docs p) id = Some text | _ => honest p end
  | DeleteCall id => match r with Some (OkReply true) => honest_but (Some id) p | _ => honest p end
  | RefreshCall (Inserted id text) => ds_load (docs p) id = Some text
  | RefreshCall (Deleted id) => honest_but (Some id) p
  end.

Definition pane_ok (p : Pane S) : Prop :=
  disturbed p = false →
  match calls p with [] => honest p | [MkPending c r] => call_ok c r p | _ => False end.

Lemma act_ok f c p :
  (calls p = [] → disturbed p = false → honest p →
   match c with None => honest (act f None p) | Some c => call_ok c None (act f (Some c) p) end) →
  pane_ok p → pane_ok (act f c p).
Proof.
  intros H Hp Hd. unfold act in Hd. cbn [disturbed] in Hd. apply orb_false_iff in Hd as [Hd Hc].
  apply negb_false_iff, bool_decide_eq_true, nil_length_inv in Hc. specialize (Hp Hd). rewrite Hc in Hp.
  specialize (H Hc Hd Hp). unfold act at 1. cbn [calls]. rewrite Hc. by destruct c.
Qed.

(** Calls are the only thing that changes, or the identifiers. *)
Lemma honest_same but p p' :
  docs p' = docs p → selected (st p') = selected (st p) → source (st p') = source (st p) → dirty (st p') = dirty (st p) →
  honest_but but p → honest_but but p'.
Proof. unfold honest_but. by intros -> -> -> ->. Qed.

Lemma call_ok_same c r p p' :
  docs p' = docs p → selected (st p') = selected (st p) → source (st p') = source (st p) → dirty (st p') = dirty (st p) →
  call_ok c r p → call_ok c r p'.
Proof.
  intros Hd H1 H2 H3. unfold call_ok. rewrite Hd, H1, H2, H3.
  destruct c as [id|id text|id text|id|[id text|id]]; try done; try (by apply honest_same).
  - destruct r as [[| |[]|]|]; try done; by apply honest_same.
  - destruct r as [[| |[]|]|]; by apply honest_same.
Qed.

Lemma pane_ok_same p p' :
  calls p' = calls p → disturbed p' = disturbed p → docs p' = docs p → selected (st p') = selected (st p) →
  source (st p') = source (st p) → dirty (st p') = dirty (st p) → pane_ok p → pane_ok p'.
Proof.
  intros Hc Hb Hd H1 H2 H3 Hp. unfold pane_ok. rewrite Hb, Hc. intros Hf. specialize (Hp Hf).
  destruct (calls p) as [|[c r] [|]]; try done; [by eapply honest_same|by eapply call_ok_same].
Qed.

(** The one call on its way. *)
Lemma single_call i c r p :
  pane_ok p → disturbed p = false → calls p !! i = Some (MkPending c r) → i = 0 ∧ calls p = [MkPending c r] ∧ call_ok c r p.
Proof.
  intros Hp Hd Hi. specialize (Hp Hd). destruct (calls p) as [|[c' r'] [|]]; [done| |done].
  destruct i; [|done]. by injection Hi as -> ->.
Qed.

(** A new reply for a call. *)
Lemma reply_ok i c r s p :
  pane_ok p → calls p !! i = Some (MkPending c None) →
  (call_ok c None p → call_ok c (Some r) (MkPane (st p) s (calls p) (refreshes p) (disturbed p))) →
  pane_ok (MkPane (st p) s (<[i := MkPending c (Some r)]> (calls p)) (refreshes p) (disturbed p)).
Proof.
  intros Hp Hi H Hd. cbn [disturbed] in Hd. destruct (single_call i c None p Hp Hd Hi) as (-> & Hc & Hok).
  cbn [calls]. rewrite Hc. cbn [list_insert insert]. specialize (H Hok).
  eapply call_ok_same; [..|exact H]; done.
Qed.

Lemma refreshed_same r s :
  selected (refreshed r s) = selected s ∧ source (refreshed r s) = source s ∧ dirty (refreshed r s) = dirty s.
Proof. unfold refreshed. by destruct (ids_result r) as [l [[|c e]|]]. Qed.

Lemma served_ok c p :
  call_ok c None p → call_ok c (Some (served c (docs p)).1) (MkPane (st p) (served c (docs p)).2 (calls p) (refreshes p) (disturbed p)).
Proof.
  destruct c as [id|id text|id text|id|f]; cbn [served fst snd call_ok st docs].
  - done.
  - intros (? & ? & ? & _). split_and!; [done..|]. intros _. by rewrite ds_load_save, decide_True.
  - intros _. by rewrite ds_load_save, decide_True.
  - intros H Hd id' Hs. cbn [st docs] in *. destruct (decide (id' = id)) as [->|Hne]; [by left|right].
    destruct (H Hd id' Hs) as [?|[Ht|He]]; [done|left|by right]. by rewrite ds_load_delete, decide_False.
  - destruct f; [done|by apply honest_same].
Qed.

Lemma refused_ok c p :
  match c with SaveCall _ _ | InsertCall _ _ | DeleteCall _ => True | _ => False end →
  call_ok c None p → call_ok c (Some (OkReply false)) p.
Proof. destruct c; try done. by intros _ (? & ? & ? & _). Qed.

Lemma broken_ok c x e p : call_ok c None p → call_ok c (Some (FailedReply (x :: e))) p.
Proof. destruct c as [| | | |[]]; try done. by intros (? & ? & ? & _). Qed.

(** The handler behind an answer, when nothing else is on its way. *)
Lemma answered_ok c r p :
  calls p = [] → (disturbed p = false → call_ok c (Some r) p) → pane_ok (answered c r p).
Proof.
  intros Hc Hok Hd. assert (disturbed p = false) as Hp.
  { destruct c; cbn [answered] in Hd; try destruct (ok_result r); done. }
  specialize (Hok Hp). clear Hd. destruct c as [id|id text|id text|id|f]; cbn [answered call_ok] in *.
  - cbn [set_st calls]. rewrite Hc. intros _ id' [= <-]. right. cbn [set_st st docs loaded show_document source].
    destruct r as [|t|b|[|x e]]; try done; cbn [source_result].
    + left. rewrite <- Hok. by destruct t.
    + right. by exists (x :: e).
  - destruct Hok as (Hs & Ht & Hdirty & Hr). destruct (ok_result r) eqn:E; cbn [set_st calls]; rewrite Hc.
    + intros _ id' Hid. right. left. cbn [set_st st docs set_dirty source selected] in *.
      destruct r as [| |[]|]; try done. rewrite Hs in Hid. injection Hid as <-. by rewrite Hr, Ht.
    + intros H. congruence.
  - destruct (ok_result r) eqn:E.
    + cbn [calls]. rewrite Hc. cbn [app call_ok docs]. by destruct r as [| |[]|].
    + rewrite Hc. by destruct r as [| |[]|].
  - destruct (ok_result r) eqn:E.
    + cbn [calls]. rewrite Hc. cbn [app call_ok]. by destruct r as [| |[]|].
    + rewrite Hc. by destruct r as [| |[]|].
  - cbn [set_st calls]. rewrite Hc. destruct (refreshed_same r (st p)) as (Hs & Ht & Hdy).
    destruct f as [id text|id]; cbn [finished].
    + intros _ id' [= <-]. right. left. cbn [set_st docs st show_document source]. by rewrite Hok.
    + destruct (decide _) as [Hsel|Hne]; [done|]. intros H id' Hid'. right. cbn [set_st docs st] in *.
      rewrite Ht. rewrite Hs in Hid', Hne. rewrite Hdy in H. destruct (Hok H id' Hid') as [[= ->]|?]; done.
Qed.

Lemma pane_event_ok k e p : pane_ok p → pane_ok (pane_event k e p).
Proof.
  intros Hp. destruct e as [id|text| |id tpl|id| |id text|i|i|i c e|i c e|i|i|i c e|i]; cbn [pane_event].
  - destruct (decide _); [|done]. apply act_ok; [|done]. by intros _ _ _.
  - destruct (selected (st p)) as [[|x id]|]; try done. apply act_ok; [|done]. by intros _ _ _.
  - destruct (dirty (st p)) eqn:E; [|done]. unfold onSave. destruct (selected (st p)) as [[|x id]|] eqn:Es; try done.
    apply act_ok; [|done]. intros _ _ _. unfold act. cbn [call_ok st]. split_and!; done.
  - destruct (validate id (ids (st p))); [done|]. apply act_ok; [|done]. intros _ _. by apply honest_same.
  - destruct id as [|x id]; [done|]. destruct (decide _); [|done]. apply act_ok; [|done]. intros _ _. by apply honest_same.
  - by apply (pane_ok_same p).
  - apply act_ok; [|done]. by intros _ _ _.
  - unfold on_call. destruct (calls p !! i) as [[c [r|]]|] eqn:Ei; try done. by apply reply_ok, served_ok.
  - unfold on_call. destruct (calls p !! i) as [[c [r|]]|] eqn:Ei; try done.
    destruct c as [id|id text|id text|id|f]; try done; (apply (reply_ok i); [done|done|]; intros H;
      apply (call_ok_same _ _ p); try done; by apply refused_ok).
  - unfold on_call. destruct (calls p !! i) as [[call [r|]]|] eqn:Ei; try done.
    apply (reply_ok i); [done|done|]. intros H. apply (call_ok_same _ _ p); try done. by apply broken_ok.
  - destruct (calls p !! i) as [[call [r|]]|]; done.
  - destruct (calls p !! i) as [[call [r|]]|] eqn:Ei; try done.
    destruct (disturbed p) eqn:Hd.
    { intros H. exfalso. destruct call; cbn [answered] in H; try destruct (ok_result r); cbn in H; congruence. }
    destruct (single_call i call (Some r) p Hp Hd Ei) as (-> & Hc & Hok).
    apply answered_ok; [cbn [set_calls calls]; by rewrite Hc|]. intros _. revert Hok. by apply call_ok_same.
  - by destruct (refreshes p !! i) as [[r|]|].
  - by destruct (refreshes p !! i) as [[r|]|].
  - destruct (refreshes p !! i) as [[r|]|]; try done. destruct (refreshed_same r (st p)) as (? & ? & ?).
    by apply (pane_ok_same p).
Qed.

(** ** One save at a time *)

Definition is_save_call (c : Call) : bool := match c with SaveCall _ _ => true | _ => false end.
Definition saves (p : Pane S) : nat := length (filter (λ c, is_save_call c = true) (call <$> calls p)).

Lemma same_calls i c r r' (cs : list Pending) :
  cs !! i = Some (MkPending c r) → call <$> <[i := MkPending c r']> cs = call <$> cs.
Proof.
  intros Hi. rewrite list_fmap_insert. cbn [call]. apply list_insert_id. by rewrite list_lookup_fmap, Hi.
Qed.

Lemma saves_calls p p' : call <$> calls p' = call <$> calls p → saves p' = saves p.
Proof. unfold saves. by intros ->. Qed.

Lemma act_saves f c p : saves (act f c p) = saves p + match c with Some (SaveCall _ _) => 1 | _ => 0 end.
Proof.
  unfold saves, act. cbn [calls]. rewrite fmap_app, filter_app, length_app. f_equal. by destruct c as [[]|].
Qed.

Lemma save_click_saves k p :
  saves (pane_event k SaveClick p) = saves p + (length (calls (pane_event k SaveClick p)) - length (calls p)) ∧
  length (calls (pane_event k SaveClick p)) - length (calls p) ≤ 1 ∧
  length (calls p) ≤ length (calls (pane_event k SaveClick p)).
Proof.
  cbn [pane_event]. destruct (dirty (st p)); [|lia]. unfold onSave. destruct (selected (st p)) as [[|x id]|]; try lia.
  rewrite act_saves. unfold act. cbn [calls]. rewrite length_app. cbn [length]. lia.
Qed.

Lemma again_saves s d cs f rs b :
  saves (MkPane s d (cs ++ [MkPending (RefreshCall f) None]) rs b) = saves (MkPane s d cs rs b).
Proof. unfold saves. cbn [calls]. rewrite fmap_app, filter_app, length_app. apply Nat.add_0_r. Qed.

Lemma return_saves k i p : saves p = saves (pane_event k (Return i) p) + if is_save i p then 1 else 0.
Proof.
  unfold is_save. cbn [pane_event]. destruct (calls p !! i) as [[c [r|]]|] eqn:Ei; [|by destruct c; lia|lia].
  assert (saves p = saves (set_calls (delete i (calls p)) p) + if is_save_call c then 1 else 0) as ->.
  { unfold saves, set_calls. cbn [calls]. rewrite <- (take_drop_middle _ _ _ Ei) at 1.
    rewrite delete_take_drop, !fmap_app, !filter_app, !length_app. cbn [fmap list_fmap call].
    rewrite filter_cons. destruct (decide (is_save_call c = true)) as [->|Hn]; cbn [length]; [lia|].
    apply not_true_is_false in Hn. rewrite Hn. lia. }
  destruct c as [id|id text|id text|id|f]; cbn [answered is_save_call]; try destruct (ok_result r); try done;
    by rewrite again_saves.
Qed.

Lemma other_saves k e p :
  match e with SaveClick | Return _ => False | _ => True end → saves (pane_event k e p) = saves p.
Proof.
  destruct e as [id|text| |id tpl|id| |id text|i|i|i c e|i c e|i|i|i c e|i]; cbn [pane_event]; intros He; try done.
  - destruct (decide _); [|done]. unfold selectId. rewrite act_saves. lia.
  - destruct (selected (st p)) as [[|x id]|]; try done. unfold onSourceChange. rewrite act_saves. lia.
  - destruct (validate id (ids (st p))); [done|]. unfold onSubmitNew. rewrite act_saves. lia.
  - destruct id as [|x id]; [done|]. destruct (decide _); [|done]. unfold onDelete. rewrite act_saves. lia.
  - unfold openDsl. rewrite act_saves. lia.
  - unfold on_call. destruct (calls p !! i) as [[c [r|]]|] eqn:Ei; try done. apply saves_calls. by eapply same_calls.
  - unfold on_call. destruct (calls p !! i) as [[c [r|]]|] eqn:Ei; try done.
    destruct c; try done; apply saves_calls; by eapply same_calls.
  - unfold on_call. destruct (calls p !! i) as [[call [r|]]|] eqn:Ei; try done. apply saves_calls. by eapply same_calls.
  - destruct (calls p !! i) as [[call [r|]]|] eqn:Ei; try done. apply saves_calls. by eapply same_calls.
  - by destruct (refreshes p !! i) as [[r|]|].
  - by destruct (refreshes p !! i) as [[r|]|].
  - by destruct (refreshes p !! i) as [[r|]|].
Qed.

(** * The window *)

Definition preview_ok (a : App S) : Prop :=
  kind a = KView →
  let shown := (source (st (views a)), selected (st (views a))) in
  pushTimer a = Some shown ∨ (pushTimer a = None ∧ lastPreviewSource a = shown).

Record app_ok (a : App S) : Prop := {
  ao_domains : pane_ok (domains a); ao_views : pane_ok (views a); ao_preview : preview_ok a;
  ao_saves : saves (domains a) + saves (views a) = if saving a then 1 else 0 }.

Lemma active_pane_ok k a : pane_ok (domains a) → pane_ok (views a) → pane_ok (active_pane k a).
Proof. by destruct k. Qed.

(** A change of one pane, the preview aside. *)
Lemma set_pane_ok k (p : Pane S) (b : bool) a :
  pane_ok (domains a) → pane_ok (views a) → pane_ok p →
  saves p + (saves (domains a) + saves (views a) - saves (active_pane k a)) = (if b then 1 else 0) →
  let a' := set_saving b (set_pane k p a) in
  pane_ok (domains a') ∧ pane_ok (views a') ∧ saves (domains a') + saves (views a') = if saving a' then 1 else 0.
Proof.
  intros Hd Hv Hp Hs. cbv zeta.
  destruct k; cbn [set_pane set_saving domains views saving active_pane] in *; (split_and!; [done..|lia]).
Qed.

Lemma active_saves k a : saves (active_pane k a) ≤ saves (domains a) + saves (views a).
Proof. destruct k; cbn [active_pane]; lia. Qed.

(** What the handlers keep, before the effect runs. *)
Lemma handle_keeps e a :
  app_ok a →
  let a' := handle e a in
  pane_ok (domains a') ∧ pane_ok (views a') ∧ saves (domains a') + saves (views a') = if saving a' then 1 else 0.
Proof.
  intros [Hd Hv _ Hs]. cbv zeta.
  assert (∀ k e, match e with SaveClick | Return _ => False | _ => True end →
    let a' := set_pane k (pane_event k e (active_pane k a)) a in
    pane_ok (domains a') ∧ pane_ok (views a') ∧ saves (domains a') + saves (views a') = if saving a' then 1 else 0) as Hother.
  { intros k pe Hpe.
    assert (saves (pane_event k pe (active_pane k a)) + (saves (domains a) + saves (views a) - saves (active_pane k a)) =
            if saving a then 1 else 0) as Hn by (rewrite other_saves by done; pose proof (active_saves k a); lia).
    pose proof (set_pane_ok k _ (saving a) a Hd Hv (pane_event_ok k pe _ (active_pane_ok k a Hd Hv)) Hn) as H.
    by destruct k. }
  destruct e as [k|e|k e|view id text| |]; cbn [handle].
  - done.
  - destruct (kind a) eqn:Ek; try done; destruct e; try done; try (by apply Hother).
    all: destruct (saving a) eqn:Esv; [by rewrite Esv|].
    all: destruct (save_click_saves (kind a) (active_pane (kind a) a)) as (H1 & H2 & H3); rewrite Ek in H1, H2, H3;
      cbn [active_pane] in *.
    all: match goal with |- context [set_pane ?k ?p _] => apply (set_pane_ok k p) end; [done|done| |].
    all: try (by apply pane_event_ok).
    all: cbn [active_pane]; case_bool_decide; cbn [negb]; lia.
  - destruct e as [| | | | | | |i|i|i c e|i c e|i|i|i c e|i]; try done; try (by apply Hother).
    apply (set_pane_ok k _ (saving a && negb (is_save i (active_pane k a)))); [done|done|by apply pane_event_ok, active_pane_ok|].
    pose proof (return_saves k i (active_pane k a)) as Hr. pose proof (active_saves k a).
    destruct (saving a), (is_save i (active_pane k a)); cbn [negb andb]; lia.
  - destruct view; [exact (Hother KView (OpenDsl id text) I)|exact (Hother KDomain (OpenDsl id text) I)].
  - by destruct (pushTimer a).
  - done.
Qed.

Lemma app_event_ok e a : app_ok a → app_ok (app_event e a).
Proof.
  intros Ha. destruct (handle_keeps e a Ha) as (Hd & Hv & Hs). unfold app_event, push_effect.
  destruct (decide (displayed a = displayed (handle e a))) as [Hsame|Hne].
  - split; [done|done| |done]. intros Hk. cbv zeta. destruct Ha as [_ _ Hp _]. unfold preview_ok in Hp. cbv zeta in Hp.
    unfold displayed in Hsame. rewrite Hk in Hsame. cbn [active_pane] in Hsame.
    injection Hsame as Hka Hsrc Hsel. rewrite Hka in Hsrc, Hsel. cbn [active_pane] in Hsrc, Hsel.
    rewrite Hka in Hp. specialize (Hp eq_refl). rewrite Hsrc, Hsel in Hp.
    assert (pushTimer (handle e a) = pushTimer a ∧ lastPreviewSource (handle e a) = lastPreviewSource a ∨
            ∃ pushed, pushTimer a = Some pushed ∧ pushTimer (handle e a) = None ∧ lastPreviewSource (handle e a) = pushed) as Ht.
    { destruct e as [k|pe|k pe|view id text| |]; cbn [handle]; try by left.
      - left. destruct (kind a); try done; destruct pe; try done; by destruct (saving a).
      - left. destruct pe, k; done.
      - left. by destruct view.
      - destruct (pushTimer a) as [pushed|] eqn:E; [right; by exists pushed|left; by rewrite E]. }
    destruct Ht as [[-> ->]|(pushed & E & -> & ->)]; [done|]. right. split; [done|].
    destruct Hp as [Hp|[Hp _]]; congruence.
  - split; [done|done| |done]. intros Hk. cbn [kind] in Hk. left. cbn [pushTimer views]. rewrite Hk.
    unfold displayed. by rewrite Hk.
Qed.

Lemma app_events_ok es a : app_ok a → app_ok (app_events es a).
Proof.
  revert a. induction es as [|e es IH]; intros a Ha; [done|].
  change (app_events (e :: es) a) with (app_events es (app_event e a)). by apply IH, app_event_ok.
Qed.

Lemma open_app_ok (d v : S) : app_ok (open_app d v).
Proof. by split. Qed.
End honest.

(** C28: What the designer shows.  Whatever the user and the assistant do and
    however the answers of the two panes interleave: an editor with nothing to
    save, none of whose calls is on its way, shows the stored text of its
    document, or the comment of a load that failed, provided its pane was left
    alone whenever one of its calls was under way and no answer was lost behind
    a change.  At most one save is on its way, and the button knows.  After the
    pause, the preview has what the view editor shows. *)
Theorem designer_shows {S} `{!DocumentStore S} es (d v : S) k id :
  let a := app_events es (open_app d v) in
  let p := active_pane k a in
  (disturbed p = false → calls p = [] → dirty (st p) = false → selected (st p) = Some id →
   source (st p) = default [] (ds_load (docs p) id) ∨ ∃ e, source (st p) = error_text e) ∧
  saves (domains a) + saves (views a) = (if saving a then 1 else 0) ∧
  (kind a = KView → pushTimer a = None → lastPreviewSource a = (source (st (views a)), selected (st (views a)))).
Proof.
  cbv zeta. destruct (app_events_ok es _ (open_app_ok d v)) as [Hd Hv Hp Hs].
  set (a := app_events es (open_app d v)) in *. split_and!; [|done|].
  - intros H1 H2 H3 H4. pose proof (active_pane_ok k a Hd Hv H1) as H. rewrite H2 in H.
    destruct (H H3 id H4) as [?|?]; [done|exact H0].
  - intros Hk Ht. destruct (Hp Hk) as [H|[_ H]]; [congruence|exact H].
Qed.

(** ** Sample sessions *)

Definition two_views : gmap str str := {[ #"a" := #"view a"; #"b" := #"view b" ]}.
(** The lists of both panes have arrived and the views are on display. *)
Definition view_session : list AppEvent :=
  [Service KDomain (ServeRefresh 0); Service KDomain (ReturnRefresh 0); Service KView (ServeRefresh 0);
   Service KView (ReturnRefresh 0); Navigate KView].
Definition load_view (id : str) : list AppEvent := [User (Select id); Service KView (Serve 0); Service KView (Return 0)].
Definition run_views (es : list AppEvent) : App (gmap str str) := app_events (view_session ++ es) (open_app ∅ two_views).

(** Load, edit, save, and wait for the preview. *)
Definition save_session : list AppEvent :=
  view_session ++ load_view #"a" ++
  [User (Edit #"view a2"); User SaveClick; Service KView (Serve 0); Service KView (Return 0); Pause].

Lemma designer_shows_witness :
  let a := app_events save_session (open_app ∅ two_views) in
  let p := active_pane KView a in
  (source (st p) = default [] (ds_load (docs p) #"a") ∨ ∃ e, source (st p) = error_text e) ∧
  lastPreviewSource a = (source (st (views a)), selected (st (views a))).
Proof.
  destruct (designer_shows save_session ∅ two_views KView #"a") as (Hshown & _ & Hpreview). split.
  - exact (Hshown ltac:(vm_compute; reflexivity) ltac:(vm_compute; reflexivity) ltac:(vm_compute; reflexivity)
             ltac:(vm_compute; reflexivity)).
  - exact (Hpreview ltac:(vm_compute; reflexivity) ltac:(vm_compute; reflexivity)).
Defined.

(** What the editor shows, whether it can be saved, what is stored. *)
Definition editor (id : str) (a : App (gmap str str)) : option str * str * bool * option str :=
  (selected (st (views a)), source (st (views a)), dirty (st (views a)), docs (views a) !! id).

(** An edit while a save is on its way counts as saved: the button is off and
    the edit is nowhere. *)
Example edit_during_save :
  editor #"a" (run_views (load_view #"a" ++
    [User (Edit #"one"); User SaveClick; Service KView (Serve 0); User (Edit #"two"); Service KView (Return 0)])) =
  (Some #"a", #"two", false, Some #"one").
Proof. vm_compute. reflexivity. Qed.

(** The answer of an earlier load replaces the later selection. *)
Example late_load :
  editor #"b" (run_views
    [User (Select #"a"); User (Select #"b"); Service KView (Serve 0); Service KView (Serve 1);
     Service KView (Return 1); Service KView (Return 0)]) =
  (Some #"a", #"view a", false, Some #"view b").
Proof. vm_compute. reflexivity. Qed.

(** An edit before the text has arrived is overwritten. *)
Example edit_before_load :
  editor #"a" (run_views [User (Select #"a"); User (Edit #"typed"); Service KView (Serve 0); Service KView (Return 0)]) =
  (Some #"a", #"view a", false, Some #"view a").
Proof. vm_compute. reflexivity. Qed.

(** The pill of the assistant opens a view with an empty text that counts as
    an edit: a click on the button empties the document. *)
Example pill_empties :
  editor #"a" (run_views
    [OpenInEditor true #"a" []; User SaveClick; Service KView (Serve 0); Service KView (Return 0)]) =
  (Some #"a", [], false, Some []).
Proof. vm_compute. reflexivity. Qed.

(** The comment of a failed load can be saved over the document after any edit. *)
Example failed_load_saved :
  editor #"a" (run_views
    [User (Select #"a"); Service KView (Break 0 116 #"imeout"); Service KView (Return 0)]) =
  (Some #"a", #"<!-- error: timeout -->", false, Some #"view a").
Proof. vm_compute. reflexivity. Qed.

(** A new document whose identifier the list does not show yet replaces the
    stored one: a new document is saved like an old one. *)
Example new_overwrites :
  editor #"a" (app_events
    [Navigate KView; User (Submit #"a" EmptyTemplate); Service KView (Serve 0)] (open_app ∅ two_views)) =
  (None, [], false, Some (stubSource KView #"a")).
Proof. vm_compute. reflexivity. Qed.
