(* ===== verification/Console.v ===== *)
(** The operator console: the table of processes of
    [apps/ooso/src/mainview/state.ts], the rows that
    [components/ServiceTable.tsx] expands and counts, and the shared connection
    of [nats.ts] with its address that can be changed.

    The instant a timestamp denotes ([new Date(ts).getTime()], [None] for
    [NaN]) and [localeCompare] are parameters. *)

From Stdlib Require Import Sorted.
From S2P Require Export JsValue.

#[local] Set Warnings "-register-all".

(** * The table *)

Record HeartbeatPayload := MkHeartbeat {
  nodeId : str; service : str; version : str; pid : Z; host : str; startedAt : str; ts : str }.

Inductive ServiceStatus := Live | Stale | Gone.
#[global] Instance ServiceStatus_eq_dec : EqDecision ServiceStatus.
Proof. solve_decision. Defined.

Record ServiceRow := MkRow { row_key : str; row_last : HeartbeatPayload; row_status : ServiceStatus; ticks : nat; firstSeen : str }.

Definition STALE_MS : Z := 15000.
Definition GONE_MS : Z := 60000.

Definition keyFor (hb : HeartbeatPayload) : str :=
  match nodeId hb with
  | [] => service hb ++ #":" ++ host hb ++ #":" ++ show_Z (pid hb)
  | id => id
  end.

(** The [Map] of rows. *)
Definition ingest (hb : HeartbeatPayload) (rows : list (str * ServiceRow)) : list (str * ServiceRow) :=
  let key := keyFor hb in
  let prev := assoc_get key rows in
  map_set key (MkRow key hb Live (S (default 0 (ticks <$> prev))) (default (ts hb) (firstSeen <$> prev))) rows.

Definition ingest_all (hbs : list HeartbeatPayload) : list (str * ServiceRow) := foldl (λ rows hb, ingest hb rows) [] hbs.

(** [l.sort(compare)]: stable *)
Section sort.
Context {A : Type} (compare : A → A → Z).
Fixpoint sort_insert (x : A) (l : list A) : list A :=
  match l with [] => [x] | y :: l' => if (compare x y <=? 0)%Z then x :: l else y :: sort_insert x l' end.
Definition js_sort (l : list A) : list A := foldr sort_insert [] l.
End sort.

Section snapshot.
Context (getTime : str → option Z) (localeCompare : str → str → Z).

Definition status_at (now : Z) (hb : HeartbeatPayload) : ServiceStatus :=
  match getTime (ts hb) with
  | Some t => if (now - t <=? STALE_MS)%Z then Live else if (now - t <=? GONE_MS)%Z then Stale else Gone
  | None => Gone
  end.

Definition rank (s : ServiceStatus) : Z := match s with Live => 0 | Stale => 1 | Gone => 2 end.

Definition row_compare (a b : ServiceRow) : Z :=
  if decide (row_status a = row_status b) then
    if decide (service (row_last a) = service (row_last b)) then localeCompare (host (row_last a)) (host (row_last b))
    else localeCompare (service (row_last a)) (service (row_last b))
  else (rank (row_status a) - rank (row_status b))%Z.

Definition aged (now : Z) (r : ServiceRow) : ServiceRow :=
  MkRow (row_key r) (row_last r) (status_at now (row_last r)) (ticks r) (firstSeen r).

Definition snapshot (now : Z) (rows : list (str * ServiceRow)) : list ServiceRow :=
  js_sort row_compare (aged now <$> rows.*2).

(** [StatusSummary] *)
Definition status_count (s : ServiceStatus) (rows : list ServiceRow) : nat :=
  length (filter (λ r, row_status r = s) rows).

(** ** [ServiceTable] *)

Definition INTROSPECTABLE_SERVICES : list str := [ #"oosai"; #"oosgql"].
Definition introspectable (r : ServiceRow) : bool := bool_decide (service (row_last r) ∈ INTROSPECTABLE_SERVICES).

(** A click on a row. *)
Definition toggle (r : ServiceRow) (expanded : option str) : option str :=
  if introspectable r then if decide (expanded = Some (row_key r)) then None else Some (row_key r) else expanded.

(** The details the table shows: the service each panel asks. *)
Definition env_panels (expanded : option str) (rows : list ServiceRow) : list str :=
  (λ r, service (row_last r)) <$> filter (λ r, expanded = Some (row_key r)) rows.

Definition shortNodeId (id : str) : str := match id with [] => [8212%N] | _ => take 8 id end.

(** [ageLabel] of a timestamp that is one. *)
Definition ageLabel (thn : str) (now : Z) : str :=
  match getTime thn with
  | Some t =>
    let ms := (now - t)%Z in
    if (ms <? 1000)%Z then #"just now"
    else if (ms <? 60000)%Z then show_Z (ms / 1000) ++ #"s ago"
    else if (ms <? 3600000)%Z then show_Z (ms / 60000) ++ #"m ago"
    else show_Z (ms / 3600000) ++ #"h ago"
  | None => #"NaNh ago"
  end.

Definition sourceBadgeColor (source : str) : str :=
  if decide (source = #"default") then #"gray" else if decide (source = #"runtime") then #"violet"
  else if starts_with #"env:" source then #"teal" else #"gray".
End snapshot.

(** * What the table shows *)

(** The heartbeats of one process. *)
Definition beats (key : str) (hbs : list HeartbeatPayload) : list HeartbeatPayload :=
  filter (λ hb, keyFor hb = key) hbs.

Definition row_of (key : str) (hbs : list HeartbeatPayload) : option ServiceRow :=
  match beats key hbs, last (beats key hbs) with
  | first :: _, Some hb => Some (MkRow key hb Live (length (beats key hbs)) (ts first))
  | _, _ => None
  end.

Lemma beats_snoc key hbs hb : beats key (hbs ++ [hb]) = beats key hbs ++ if decide (keyFor hb = key) then [hb] else [].
Proof. unfold beats. rewrite filter_app, filter_cons. by destruct (decide (keyFor hb = key)). Qed.

(** One row per key, with the last heartbeat, their number and the first time. *)
Lemma ingest_all_get key hbs : assoc_get key (ingest_all hbs) = row_of key hbs.
Proof.
  induction hbs as [|hb hbs IH] using rev_ind; [done|].
  unfold ingest_all. rewrite foldl_app. cbn [foldl]. fold (ingest_all hbs). unfold ingest. rewrite map_set_get.
  unfold row_of. rewrite beats_snoc. destruct (decide (key = keyFor hb)) as [->|Hne].
  - rewrite decide_True by done. rewrite IH. unfold row_of. rewrite last_snoc, length_app.
    destruct (beats (keyFor hb) hbs) as [|first l]; [done|]. destruct (last (first :: l)) as [x|] eqn:E.
    + cbn [app fmap option_fmap option_map default ticks firstSeen length]. by rewrite Nat.add_1_r.
    + by apply last_None in E.
  - rewrite decide_False by done. rewrite app_nil_r. exact IH.
Qed.

Lemma row_of_some key hbs r :
  row_of key hbs = Some r →
  ∃ first hb, head (beats key hbs) = Some first ∧ last (beats key hbs) = Some hb ∧
    r = MkRow key hb Live (length (beats key hbs)) (ts first).
Proof.
  unfold row_of. destruct (beats key hbs) as [|first l]; [done|]. destruct (last (first :: l)) as [hb|]; [|done].
  intros [= <-]. by exists first, hb.
Qed.

Lemma ingest_all_keys hbs :
  NoDup (ingest_all hbs).*1 ∧ Forall (λ p, p.1 = row_key p.2) (ingest_all hbs).
Proof.
  induction hbs as [|hb hbs [IH1 IH2]] using rev_ind; [by split; constructor|].
  unfold ingest_all. rewrite foldl_app. cbn [foldl]. fold (ingest_all hbs). unfold ingest. split.
  - by apply map_set_keys_NoDup.
  - unfold map_set. destruct (assoc_get _ (ingest_all hbs)) eqn:E.
    + clear IH1 E. induction IH2 as [|[k r] l Hk Hl IH]; cbn [assoc_update]; [constructor|].
      destruct (decide _) as [<-|]; by apply Forall_cons_2.
    + apply Forall_app_2; [done|]. by apply Forall_cons_2.
Qed.

Section sorting.
Context {A : Type} (compare : A → A → Z).
Lemma sort_insert_perm x l : sort_insert compare x l ≡ₚ x :: l.
Proof.
  induction l as [|y l IH]; cbn [sort_insert]; [done|]. destruct (compare x y <=? 0)%Z; [done|].
  rewrite IH. apply Permutation_swap.
Qed.
Lemma js_sort_perm l : js_sort compare l ≡ₚ l.
Proof. induction l as [|x l IH]; cbn [js_sort foldr]; [done|]. by rewrite sort_insert_perm, IH. Qed.

(** The comparison orders the elements of a list. *)
Definition orders (l : list A) : Prop :=
  (∀ x y, x ∈ l → y ∈ l → (compare x y <= 0)%Z ∨ (compare y x <= 0)%Z) ∧
  (∀ x y z, x ∈ l → y ∈ l → z ∈ l → (compare x y <= 0)%Z → (compare y z <= 0)%Z → (compare x z <= 0)%Z).

Lemma js_sort_sorted l : orders l → StronglySorted (λ x y, (compare x y <= 0)%Z) (js_sort compare l).
Proof.
  intros [Htot Htr]. assert (∀ l', l' ⊆ l → StronglySorted (λ x y, (compare x y <= 0)%Z) (js_sort compare l')) as H;
    [|by apply H].
  induction l' as [|x l' IH]; intros Hsub; [constructor|]. cbn [js_sort foldr].
  assert (x ∈ l ∧ l' ⊆ l) as [Hx Hl'] by set_solver. specialize (IH Hl'). fold (js_sort compare l').
  assert (js_sort compare l' ⊆ l) as Hs by (intros z; rewrite js_sort_perm; apply Hl').
  induction IH as [|y s Hsorted IHs Hall]; cbn [sort_insert]; [repeat constructor|].
  assert (y ∈ l ∧ s ⊆ l) as [Hy Hss] by set_solver.
  destruct (Z.leb_spec (compare x y) 0) as [Hle|Hgt].
  - constructor; [by constructor|]. apply Forall_cons_2; [done|]. rewrite Forall_forall in *.
    intros z Hz. apply (Htr x y z); auto.
  - constructor; [by apply IHs|]. rewrite Forall_forall in *. intros z. rewrite sort_insert_perm, elem_of_cons.
    intros [->|Hz]; [|auto]. destruct (Htot x y Hx Hy); [lia|done].
Qed.
End sorting.

Section console.
Context (getTime : str → option Z) (localeCompare : str → str → Z).

(** [localeCompare] on the names in a table: a total order, in which different
    services differ. *)
Record collates (names services : list str) : Prop := {
  cl_total a b : a ∈ names → b ∈ names → (localeCompare a b <= 0)%Z ∨ (localeCompare b a <= 0)%Z;
  cl_trans a b c : a ∈ names → b ∈ names → c ∈ names →
    (localeCompare a b <= 0)%Z → (localeCompare b c <= 0)%Z → (localeCompare a c <= 0)%Z;
  cl_differ a b : a ∈ services → b ∈ services → (localeCompare a b <= 0)%Z → (localeCompare b a <= 0)%Z → a = b }.

Definition names_of (l : list ServiceRow) : list str :=
  ((λ r, service (row_last r)) <$> l) ++ ((λ r, host (row_last r)) <$> l).

Lemma row_compare_orders l :
  collates (names_of l) ((λ r, service (row_last r)) <$> l) → orders (row_compare localeCompare) l.
Proof.
  intros [Htot Htr Hd].
  assert (∀ x, x ∈ l → service (row_last x) ∈ names_of l ∧ host (row_last x) ∈ names_of l ∧
            service (row_last x) ∈ (λ r, service (row_last r)) <$> l) as Hin.
  { intros x Hx. unfold names_of. rewrite !elem_of_app, !list_elem_of_fmap.
    split_and!; [left; by exists x|right; by exists x|by exists x]. }
  assert (∀ s t, s ≠ t → rank s ≠ rank t) as Hrank by (by intros [] []).
  split.
  - intros x y Hx Hy. destruct (Hin x Hx) as (Hx1 & Hx2 & _), (Hin y Hy) as (Hy1 & Hy2 & _). unfold row_compare.
    destruct (decide (row_status x = row_status y)) as [Hs|Hs].
    + rewrite (decide_True (P := row_status y = row_status x)) by done.
      destruct (decide (service (row_last x) = service (row_last y))) as [He|He].
      * rewrite (decide_True (P := service (row_last y) = service (row_last x))) by done. by apply Htot.
      * rewrite (decide_False (P := service (row_last y) = service (row_last x))) by done. by apply Htot.
    + rewrite (decide_False (P := row_status y = row_status x)) by done. lia.
  - intros x y z Hx Hy Hz.
    destruct (Hin x Hx) as (Hx1 & Hx2 & Hx3), (Hin y Hy) as (Hy1 & Hy2 & Hy3), (Hin z Hz) as (Hz1 & Hz2 & Hz3).
    unfold row_compare. intros H1 H2. pose proof (Hrank (row_status x) (row_status z)) as Hr.
    pose proof (Hrank (row_status x) (row_status y)) as Hr1. pose proof (Hrank (row_status y) (row_status z)) as Hr2.
    destruct (decide (row_status x = row_status y)) as [Exy|Nxy], (decide (row_status y = row_status z)) as [Eyz|Nyz].
    + rewrite (decide_True (P := row_status x = row_status z)) by congruence.
      destruct (decide (service (row_last x) = service (row_last y))) as [Sxy|Sxy],
        (decide (service (row_last y) = service (row_last z))) as [Syz|Syz].
      * rewrite (decide_True (P := service (row_last x) = service (row_last z))) by congruence. by apply (Htr _ (host (row_last y))).
      * rewrite (decide_False (P := service (row_last x) = service (row_last z))) by congruence. by rewrite Sxy.
      * rewrite (decide_False (P := service (row_last x) = service (row_last z))) by congruence. by rewrite <- Syz.
      * destruct (decide (service (row_last x) = service (row_last z))) as [Sxz|Sxz].
        -- exfalso. apply Sxy. apply Hd; [done|done|done|]. by rewrite Sxz.
        -- by apply (Htr _ (service (row_last y))).
    + rewrite decide_False by congruence. rewrite Exy in *. lia.
    + rewrite decide_False by congruence. rewrite Eyz in *. lia.
    + specialize (Hr1 Nxy). specialize (Hr2 Nyz). destruct (decide (row_status x = row_status z)) as [E|]; [|lia].
      rewrite E in *. lia.
Qed.

Lemma collates_perm l l' :
  l ≡ₚ l' → collates (names_of l') ((λ r, service (row_last r)) <$> l') →
  collates (names_of l) ((λ r, service (row_last r)) <$> l).
Proof.
  intros Hp [H1 H2 H3].
  assert (∀ a, a ∈ names_of l ↔ a ∈ names_of l') as Hn by (intros a; unfold names_of; by rewrite Hp).
  assert (∀ a, a ∈ (λ r, service (row_last r)) <$> l ↔ a ∈ (λ r, service (row_last r)) <$> l') as Hs by (intros a; by rewrite Hp).
  split.
  - intros a b. rewrite !Hn. apply H1.
  - intros a b c. rewrite !Hn. apply H2.
  - intros a b. rewrite !Hs. apply H3.
Qed.

Lemma snapshot_perm now rows : snapshot getTime localeCompare now rows ≡ₚ aged getTime now <$> rows.*2.
Proof. apply js_sort_perm. Qed.

Lemma status_count_cons s r l :
  status_count s (r :: l) = (if decide (row_status r = s) then 1 else 0) + status_count s l.
Proof. unfold status_count. rewrite filter_cons. by destruct (decide (row_status r = s)). Qed.

Lemma counts_add l : status_count Live l + status_count Stale l + status_count Gone l = length l.
Proof.
  induction l as [|r l IH]; [done|]. rewrite !status_count_cons. cbn [length].
  destruct (row_status r); repeat (destruct (decide _); try done); lia.
Qed.

Lemma status_ages now later hb : (now <= later)%Z → (rank (status_at getTime now hb) <= rank (status_at getTime later hb))%Z.
Proof.
  intros H. unfold status_at. destruct (getTime (ts hb)) as [t|]; [|done]. unfold STALE_MS, GONE_MS.
  destruct (Z.leb_spec (now - t) 15000), (Z.leb_spec (now - t) 60000), (Z.leb_spec (later - t) 15000),
    (Z.leb_spec (later - t) 60000); cbn [rank]; lia.
Qed.
End console.

(** ** Whose heartbeats share a row *)

Lemma sep_inj (c : N) (a b x y : str) : c ∉ a → c ∉ b → a ++ c :: x = b ++ c :: y → a = b ∧ x = y.
Proof.
  revert b. induction a as [|u a IH]; intros [|v b] Ha Hb; cbn [app]; intros [=]; subst; try set_solver; try done.
  destruct (IH b) as [-> ->]; [set_solver|set_solver|done|done].
Qed.
Lemma show_Z_inj a b : show_Z a = show_Z b → a = b.
Proof.
  assert (∀ p s, show_N (Npos p) ≠ 45%N :: s) as Hm.
  { intros p s H. apply (show_N_not_in 45 (Npos p)); [done|]. rewrite H. by left. }
  assert (∀ n m, show_N n = show_N m → n = m) as Hi by apply show_N_inj.
  destruct a as [|p|p], b as [|q|q]; cbn [show_Z]; try done.
  - intros H. by apply (Hi 0%N) in H.
  - intros H. by apply (Hi (Npos p) 0%N) in H.
  - intros H. apply Hi in H. congruence.
  - intros H. by apply Hm in H.
  - intros H. symmetry in H. by apply Hm in H.
  - intros [= H%Hi]. congruence.
Qed.
Lemma keyFor_unnamed a b :
  nodeId a = [] → nodeId b = [] → 58%N ∉ service a ++ host a → 58%N ∉ service b ++ host b → keyFor a = keyFor b →
  service a = service b ∧ host a = host b ∧ pid a = pid b.
Proof.
  unfold keyFor. intros -> ->. rewrite !not_elem_of_app. intros [H1 H2] [H3 H4] H.
  apply sep_inj in H as [? H]; [|done..]. apply sep_inj in H as [? H]; [|done..]. by apply show_Z_inj in H.
Qed.

(** C29: The console shows one row per key that has published, for good:
    its last heartbeat, how many there were and the time of the first, with the
    status its age has at the moment.  The key is the node id: all services of a
    node share a row, and different nodes do not; a publisher without a node id
    has a row for its service, host and process id, which contain no colon.  The rows are sorted by status, service
    and host whenever [localeCompare] orders their names; the badges count
    them; and without a new heartbeat a status only gets worse. *)
Theorem console_exact getTime localeCompare hbs now key r :
  let shown := snapshot getTime localeCompare now (ingest_all hbs) in
  (r ∈ shown ∧ row_key r = key ↔
   ∃ first hb, head (beats key hbs) = Some first ∧ last (beats key hbs) = Some hb ∧
     r = MkRow key hb (status_at getTime now hb) (length (beats key hbs)) (ts first)) ∧
  NoDup (row_key <$> shown) ∧
  (collates localeCompare (names_of shown) ((λ r, service (row_last r)) <$> shown) →
   StronglySorted (λ a b, (row_compare localeCompare a b <= 0)%Z) shown) ∧
  status_count Live shown + status_count Stale shown + status_count Gone shown = length shown ∧
  (∀ hb later, (now <= later)%Z → (rank (status_at getTime now hb) <= rank (status_at getTime later hb))%Z) ∧
  (∀ a b, nodeId a ≠ [] → nodeId b ≠ [] → keyFor a = keyFor b ↔ nodeId a = nodeId b) ∧
  (∀ a b, nodeId a = [] → nodeId b = [] → 58%N ∉ service a ++ host a → 58%N ∉ service b ++ host b →
     keyFor a = keyFor b ↔ service a = service b ∧ host a = host b ∧ pid a = pid b).
Proof.
  cbv zeta. destruct (ingest_all_keys hbs) as [Hnd Hkeys]. set (rows := ingest_all hbs) in *.
  assert (row_key <$> (aged getTime now <$> rows.*2) = rows.*1) as Hk.
  { clear Hnd. induction Hkeys as [|[k x] l Hx _ IH]; [done|]. cbn in *. by rewrite IH, Hx. }
  split_and!.
  - rewrite snapshot_perm, list_elem_of_fmap. split.
    + intros [(x & -> & Hx) <-]. apply list_elem_of_fmap in Hx as ([k x'] & -> & Hin). cbn [snd aged row_key] in *.
      change (row_key (aged getTime now x')) with (row_key x').
      rewrite Forall_forall in Hkeys. specialize (Hkeys _ Hin). cbn [fst snd] in Hkeys. subst k.
      apply elem_assoc_get in Hin; [|exact Hnd]. unfold rows in Hin. rewrite ingest_all_get in Hin.
      apply row_of_some in Hin as (first & hb & Hf & Hl & ->). cbn [row_key]. by exists first, hb.
    + intros (first & hb & Hf & Hl & ->). split; [|done].
      exists (MkRow key hb Live (length (beats key hbs)) (ts first)). split; [done|].
      apply list_elem_of_fmap. exists (key, MkRow key hb Live (length (beats key hbs)) (ts first)). split; [done|].
      apply assoc_get_elem. unfold rows. rewrite ingest_all_get. unfold row_of. rewrite Hl.
      destruct (beats key hbs); [done|]. by injection Hf as ->.
  - by rewrite snapshot_perm, Hk.
  - intros Hc. apply js_sort_sorted, row_compare_orders. eapply collates_perm; [|exact Hc].
    by rewrite snapshot_perm.
  - apply counts_add.
  - intros hb later. apply status_ages.
  - intros a b Ha Hb. unfold keyFor. by destruct (nodeId a), (nodeId b).
  - intros a b Ha Hb Hac Hbc. split; [by apply keyFor_unnamed|]. intros (E1 & E2 & E3). unfold keyFor. by rewrite Ha, Hb, E1, E2, E3.
Qed.

(** ** Sample *)

Definition seconds (s : str) : option Z := if all_digits s then Some (1000 * Z.of_N (digits_value s))%Z else None.
(** A comparison of code units. *)
Fixpoint unit_compare (a b : str) : Z :=
  (match a, b with
  | [], [] => 0
  | [], _ => -1
  | _, [] => 1
  | x :: a, y :: b => if (x <? y)%N then -1 else if (y <? x)%N then 1 else unit_compare a b
  end)%Z.
Lemma unit_collates names services : collates unit_compare names services.
Proof.
  split.
  - intros a b _ _. revert b. induction a as [|x a IH]; intros [|y b]; cbn [unit_compare]; try lia.
    destruct (N.ltb_spec x y), (N.ltb_spec y x); try lia. apply IH.
  - intros a b c _ _ _. revert b c. induction a as [|x a IH]; intros [|y b] [|z c]; cbn [unit_compare]; try lia.
    destruct (N.ltb_spec x y), (N.ltb_spec y x), (N.ltb_spec y z), (N.ltb_spec z y), (N.ltb_spec x z), (N.ltb_spec z x);
      try lia. apply IH.
  - intros a b _ _. revert b. induction a as [|x a IH]; intros [|y b]; cbn [unit_compare]; try lia; [done|].
    destruct (N.ltb_spec x y), (N.ltb_spec y x); try lia. intros H1 H2. f_equal; [lia|by apply IH].
Qed.

Definition beat (node svc at_ : str) : HeartbeatPayload := MkHeartbeat node svc #"1" 7 #"h" at_ at_.
Definition sample_beats : list HeartbeatPayload :=
  [beat #"n1" #"oosgql" #"10"; beat [] #"oosai" #"40"; beat #"n1" #"oosgql" #"95"; beat #"n3" #"ooso" #"broken"].

Lemma console_exact_witness :
  let shown := snapshot seconds unit_compare 100000 (ingest_all sample_beats) in
  StronglySorted (λ a b, (row_compare unit_compare a b <= 0)%Z) shown ∧
  ((λ r, (row_key r, row_status r, ticks r)) <$> shown) =
  [(#"n1", Live, 2); (#"oosai:h:7", Stale, 1); (#"n3", Gone, 1)].
Proof.
  split; [|vm_compute; reflexivity].
  apply (console_exact seconds unit_compare sample_beats 100000 [] (MkRow [] (beat [] [] []) Live 0 [])).
  apply unit_collates.
Defined.

(** Two services of one node share a row: the last one to publish is shown. *)
Example one_row_per_node :
  (λ r, service (row_last r)) <$> snapshot seconds unit_compare 0 (ingest_all [beat #"n1" #"oosai" #"1"; beat #"n1" #"oosgql" #"2"]) =
  [ #"oosgql"].
Proof. vm_compute. reflexivity. Qed.
