(* ===== verification/BusLink.v ===== *)
(** The shared connection to the message bus: [getNats] of
    [apps/oos/src/mainview/nats.ts] and [apps/oosd/src/mainview/nats.ts], the
    same with an address that can be changed in
    [apps/ooso/src/mainview/nats.ts], and the subscriptions [wireBusPush] of
    [apps/oos/src/mainview/rpc.ts] makes at start-up.

    A dial is numbered; the number is also the name of the socket it opens.
    Callers are numbered; caller 0 is the one at start-up. *)

From S2P Require Export JsValue.

#[local] Set Warnings "-register-all".

(** * The module's state *)

Record Dial := MkDial { d_id : nat; d_url : str }.

#[global] Instance Dial_eq_dec : EqDecision Dial.
Proof. solve_decision. Defined.

Record Link := MkLink {
  wsUrl : str;
  conn : option nat;
  connecting : option nat;
  dials : list Dial;                      (** under way *)
  sockets : list nat;                     (** open *)
  waiting : list (nat * nat);             (** a caller and the dial it awaits *)
  results : list (nat * option nat);      (** what [getNats] gave each caller: a socket, or it threw *)
  next_dial : nat }.

Definition initial_link (url : str) : Link := MkLink url None None [] [] [] [] 0.

(** ** [getNats] *)
Definition getNats (caller : nat) (l : Link) : Link :=
  match conn l with
  | Some c =>
    MkLink (wsUrl l) (conn l) (connecting l) (dials l) (sockets l) (waiting l) (results l ++ [(caller, Some c)]) (next_dial l)
  | None =>
    match connecting l with
    | Some d =>
      MkLink (wsUrl l) None (Some d) (dials l) (sockets l) (waiting l ++ [(caller, d)]) (results l) (next_dial l)
    | None =>
      let d := next_dial l in
      MkLink (wsUrl l) None (Some d) (dials l ++ [MkDial d (wsUrl l)]) (sockets l) (waiting l ++ [(caller, d)]) (results l) (S d)
    end
  end.

(** The promise of dial [d] settles: everyone who awaits it goes on. *)
Definition settle (d : nat) (r : option nat) (l : Link) : Link :=
  MkLink (wsUrl l) (conn l) (connecting l) (filter (λ x, d_id x ≠ d) (dials l)) (sockets l)
    (filter (λ w, w.2 ≠ d) (waiting l))
    (results l ++ ((λ w, (w.1, r)) <$> filter (λ w, w.2 = d) (waiting l))) (next_dial l).

Definition set_link (c cg : option nat) (ss : list nat) (l : Link) : Link :=
  MkLink (wsUrl l) c cg (dials l) ss (waiting l) (results l) (next_dial l).

(** [then]: a socket to another address than the present one is discarded. *)
Definition dial_opens (d : Dial) (l : Link) : Link :=
  if decide (d_url d = wsUrl l) then settle (d_id d) (Some (d_id d)) (set_link (Some (d_id d)) None (sockets l ++ [d_id d]) l)
  else settle (d_id d) None (set_link (conn l) None (sockets l) l).

(** [catch] *)
Definition dial_fails (d : Dial) (l : Link) : Link := settle (d_id d) None (set_link (conn l) None (sockets l) l).

(** [nc.closed()] *)
Definition socket_closes (s : nat) (l : Link) : Link :=
  set_link (if decide (conn l = Some s) then None else conn l) (connecting l) (filter (λ x, x ≠ s) (sockets l)) l.

(** [setWsUrl] of the operator console. *)
Definition setWsUrl (url : str) (l : Link) : Link :=
  if decide (url = wsUrl l) then l
  else MkLink url None None (dials l)
         (match conn l with Some s => filter (λ x, x ≠ s) (sockets l) | None => sockets l end)
         (waiting l) (results l) (next_dial l).

Inductive LinkEvent :=
| Call (caller : nat) | DialOpens (d : Dial) | DialFails (d : Dial) | SocketCloses (s : nat) | UrlChanges (url : str).

Definition link_event (e : LinkEvent) (l : Link) : Link :=
  match e with
  | Call caller => getNats caller l
  | DialOpens d => if decide (d ∈ dials l) then dial_opens d l else l
  | DialFails d => if decide (d ∈ dials l) then dial_fails d l else l
  | SocketCloses s => if decide (s ∈ sockets l) then socket_closes s l else l
  | UrlChanges url => setWsUrl url l
  end.
Definition link_events (es : list LinkEvent) (l : Link) : Link := foldl (λ l e, link_event e l) l es.

(** [wireBusPush]: the streams are subscribed to on the socket of the call at
    start-up, if it got one. *)
Definition bus_push (l : Link) : option nat :=
  match List.find (λ r, r.1 =? 0) (results l) with Some (_, Some s) => Some s | _ => None end.

(** * One connection *)

Record link_ok (l : Link) : Prop := {
  lk_dials : dials l = match connecting l with Some d => [MkDial d (wsUrl l)] | None => [] end;
  lk_sockets : sockets l = match conn l with Some s => [s] | None => [] end;
  lk_either : conn l = None ∨ connecting l = None;
  lk_waiting : Forall (λ w, connecting l = Some w.2) (waiting l) }.

Definition keeps_url (e : LinkEvent) : Prop := match e with UrlChanges _ => False | _ => True end.

(** Everyone waits for the one dial. *)
Lemma all_wait l d :
  Forall (λ w, Some d = Some w.2) (waiting l) →
  filter (λ w, w.2 ≠ d) (waiting l) = [] ∧ filter (λ w, w.2 = d) (waiting l) = waiting l.
Proof.
  induction 1 as [|[c d'] w [= <-] _ [IH1 IH2]]; [done|]. cbn [snd] in *. rewrite !filter_cons. cbn [snd].
  rewrite decide_False by (by intros []). rewrite decide_True by done. by rewrite IH2.
Qed.

Lemma link_event_ok e l : keeps_url e → link_ok l → link_ok (link_event e l).
Proof.
  intros He [Hd Hs Hor Hw]. destruct e as [caller|d|d|s|url]; cbn [link_event]; [..|done].
  - unfold getNats. destruct (conn l) as [c|] eqn:Ec; [split; cbn; rewrite ?Ec; done|].
    destruct (connecting l) as [d|] eqn:Ed; split; cbn; try done; try (by left).
    + apply Forall_app_2; [done|]. by apply Forall_cons_2.
    + by rewrite Hd.
    + destruct (waiting l) as [|w ws]; [by apply Forall_cons_2|]. by apply Forall_cons in Hw as [Hw _].
  - destruct (decide (d ∈ dials l)) as [Hin|]; [|done]. destruct (connecting l) as [d'|] eqn:Ed; rewrite Hd in Hin;
      [|by apply elem_of_nil in Hin].
    apply list_elem_of_singleton in Hin as ->. destruct Hor as [Hc|]; [|done]. rewrite Hc in Hs.
    destruct (all_wait l d' Hw) as [Hw1 _]. unfold dial_opens. cbn [d_url d_id]. rewrite decide_True by done.
    split; cbn; [|by rewrite Hs|by right|by rewrite Hw1].
    rewrite Hd, filter_cons. cbn [d_id]. rewrite decide_False by (by intros []). done.
  - destruct (decide (d ∈ dials l)) as [Hin|]; [|done]. destruct (connecting l) as [d'|] eqn:Ed; rewrite Hd in Hin;
      [|by apply elem_of_nil in Hin].
    apply list_elem_of_singleton in Hin as ->. destruct Hor as [Hc|]; [|done]. rewrite Hc in Hs.
    destruct (all_wait l d' Hw) as [Hw1 _]. unfold dial_fails. cbn [d_id].
    split; cbn; [|by rewrite Hc|by right|by rewrite Hw1].
    rewrite Hd, filter_cons. cbn [d_id]. rewrite decide_False by (by intros []). done.
  - destruct (decide (s ∈ sockets l)) as [Hin|]; [|done]. destruct (conn l) as [c|] eqn:Ec; rewrite Hs in Hin;
      [|by apply elem_of_nil in Hin].
    apply list_elem_of_singleton in Hin as ->. destruct Hor as [|Hcg]; [done|].
    split; cbn; rewrite ?Ec; try done.
    + rewrite decide_True by done. by rewrite Hs, filter_cons, decide_False by (by intros []).
    + by right.
Qed.

Lemma link_events_ok es l : Forall keeps_url es → link_ok l → link_ok (link_events es l).
Proof.
  intros Hes. revert l. induction Hes as [|e es He _ IH]; intros l Hl; [done|].
  change (link_events (e :: es) l) with (link_events es (link_event e l)). by apply IH, link_event_ok.
Qed.

(** C30: While the address stays, at most one dial or socket of the module is
    alive under any interleaving of callers, dials and losses; every caller
    that waits is answered by the end of that dial, with its socket or with its
    failure; and a caller without a connection always finds a dial under way,
    so that a lost connection or a failed dial is dialled anew. *)
Theorem one_connection url es caller :
  Forall keeps_url es →
  let l := link_events es (initial_link url) in
  length (dials l) + length (sockets l) ≤ 1 ∧
  (∀ d, d ∈ dials l →
     let up := link_event (DialOpens d) l in
     let down := link_event (DialFails d) l in
     (conn up = Some (d_id d) ∧ waiting up = [] ∧
      results up = results l ++ ((λ w, (w.1, Some (d_id d))) <$> waiting l)) ∧
     (conn down = None ∧ waiting down = [] ∧ results down = results l ++ ((λ w, (w.1, None)) <$> waiting l))) ∧
  match conn l with
  | Some c => results (getNats caller l) = results l ++ [(caller, Some c)] ∧ sockets l = [c]
  | None => ∃ d, dials (getNats caller l) = [MkDial d (wsUrl l)] ∧ (caller, d) ∈ waiting (getNats caller l)
  end.
Proof.
  intros Hes. cbv zeta. assert (link_ok (initial_link url)) as H0 by (split; [done|done|by left|constructor]).
  pose proof (link_events_ok es _ Hes H0) as Hok. set (l := link_events es _) in *. destruct Hok as [Hd Hs Hor Hw].
  split_and!.
  - rewrite Hd, Hs. destruct Hor as [-> | ->]; [destruct (connecting l)|destruct (conn l)]; cbn; lia.
  - intros d Hin. cbn [link_event]. rewrite !decide_True by done. rewrite Hd in Hin.
    destruct (connecting l) as [d'|] eqn:Ed; [|by apply elem_of_nil in Hin].
    apply list_elem_of_singleton in Hin as ->. destruct (all_wait l d' Hw) as [Hw1 Hw2].
    destruct Hor as [Hc|]; [|done]. unfold dial_opens, dial_fails. cbn [d_url d_id]. rewrite decide_True by done.
    cbn. by rewrite Hw1, Hw2.
  - unfold getNats. destruct (conn l) as [c|]; [done|]. destruct (connecting l) as [d|] eqn:Ed.
    + exists d. cbn. split; [done|]. apply elem_of_app. right. by left.
    + exists (next_dial l). cbn. rewrite Hd. split; [done|]. apply elem_of_app. right. by left.
Qed.

Definition link_session : list LinkEvent :=
  [Call 1; Call 2; DialFails (MkDial 0 #"ws://a"); Call 3; DialOpens (MkDial 1 #"ws://a"); SocketCloses 1; Call 4].

Lemma one_connection_witness :
  let l := link_events link_session (initial_link #"ws://a") in
  length (dials l) + length (sockets l) ≤ 1 ∧ results l = [(1, None); (2, None); (3, Some 1)] ∧ waiting l = [(4, 2)].
Proof.
  destruct (one_connection #"ws://a" link_session 5) as [H _].
  - unfold link_session. repeat (apply Forall_cons_2; [exact I|]). apply Forall_nil_2.
  - split; [exact H|]. vm_compute. by split.
Defined.

(** ** With a changing address *)

(** The end of a dial to the old address forgets the dial to the new one: the
    next caller dials once more, and of the two sockets one is never used and
    never closed. *)
Example two_sockets :
  let a := #"ws://a" in let b := #"ws://b" in
  let l := link_events
    [Call 1; UrlChanges b; Call 2; DialOpens (MkDial 0 a); Call 3; DialOpens (MkDial 1 b); DialOpens (MkDial 2 b)]
    (initial_link a) in
  sockets l = [1; 2] ∧ conn l = Some 2 ∧ results l = [(1, None); (2, Some 1); (3, Some 2)].
Proof. vm_compute. by split_and!. Qed.

(** So does an address that is changed and changed back. *)
Example there_and_back :
  let a := #"ws://a" in
  let l := link_events
    [Call 1; UrlChanges #"ws://b"; UrlChanges a; Call 2; DialOpens (MkDial 0 a); DialOpens (MkDial 1 a)] (initial_link a) in
  sockets l = [0; 1] ∧ conn l = Some 1.
Proof. vm_compute. by split. Qed.

(** A bus that is not up at start-up is never subscribed to, whatever comes
    later. *)
Lemma no_push_without_bus es l :
  (∃ rest, results l = (0, None) :: rest) → bus_push (link_events es l) = None.
Proof.
  assert (∀ e l, ∃ more, results (link_event e l) = results l ++ more) as Hgrow.
  { intros e k. destruct e as [c|d|d|s|u]; cbn [link_event].
    - unfold getNats. destruct (conn k); [by eexists|]. destruct (connecting k); exists []; by rewrite app_nil_r.
    - destruct (decide _); [|exists []; by rewrite app_nil_r]. unfold dial_opens. destruct (decide _); by eexists.
    - destruct (decide _); [by eexists|exists []; by rewrite app_nil_r].
    - destruct (decide _); exists []; by rewrite app_nil_r.
    - unfold setWsUrl. destruct (decide _); exists []; by rewrite app_nil_r. }
  revert l. induction es as [|e es IH]; intros l (rest & Hr).
  - unfold bus_push. change (link_events [] l) with l. by rewrite Hr.
  - change (link_events (e :: es) l) with (link_events es (link_event e l)). apply IH.
    destruct (Hgrow e l) as [more ->]. rewrite Hr. by eexists.
Qed.
