(* ===== verification/AstModel.v ===== *)
(** The syntax-tree types of a Langium language as data.

    [generated/ast.ts] declares for every node type an interface, a table of
    property names, a type guard and an entry of the reflection class; for
    every rule with a data type a union of literals and its guard.  The
    records here hold these declarations, with what the assignments of a
    grammar put into a node and what the declarations of a module say of each
    other. *)

From S2P Require Export Grammar.

#[local] Set Warnings "-register-all".

(** * Declarations *)

Inductive TsType :=
| TsString | TsNumber | TsBoolean
| TsName (name : str)
| TsArray (t : TsType)
| TsReference (name : str).

Record TsField := MkTsField { tf_name : str; tf_optional : bool; tf_type : TsType }.

(** [interface X extends AstNode]: its [$container] union ([[]] for a root),
    its [$type] literal and its fields. *)
Record Interface := MkInterface {
  i_name : str; i_container : list str; i_type : str; i_fields : list TsField }.

(** [type X = A | B] over node types. *)
Record NodeUnion := MkNodeUnion { nu_name : str; nu_members : list str }.

(** [type X = 'a' | 'b'], with the primitive type that may end the union. *)
Record LiteralUnion := MkLiteralUnion {
  lu_name : str; lu_literals : list str; lu_primitive : option TsType }.

(** [const X = { $type: 'X', p: 'p' }] *)
Definition NameTable : Type := list (str * str).

(** [X.p] *)
Definition table_name (t : NameTable) (k : str) : str :=
  match List.find (λ p, bool_decide (p.1 = k)) t with Some p => p.2 | None => [] end.

Inductive DefaultValue := DefaultArray | DefaultFalse.

Record PropertyMeta := MkProperty {
  pm_name : str; pm_default : option DefaultValue; pm_reference : option str }.

Record TypeMeta := MkTypeMeta {
  tm_name : str; tm_properties : list (str * PropertyMeta); tm_superTypes : list str }.

(** [item === 'a' || item === 'b'] *)
Definition is_literal (ls : list str) (item : jsval) : bool :=
  match item with VStr s => existsb (λ l, bool_decide (s = l)) ls | _ => false end.

#[export] Instance ts_type_eq_dec : EqDecision TsType.
Proof. solve_decision. Defined.

(** * Order *)

(** The order of [sort()] on strings: by code units. *)
Fixpoint str_leb (a b : str) : bool :=
  match a, b with
  | [], _ => true
  | _ :: _, [] => false
  | x :: a, y :: b => if (x <? y)%N then true else if (y <? x)%N then false else str_leb a b
  end.

Fixpoint insert_by {A} (key : A → str) (x : A) (l : list A) : list A :=
  match l with
  | [] => [x]
  | y :: l' => if str_leb (key x) (key y) then x :: l else y :: insert_by key x l'
  end.

Definition sort_by {A} (key : A → str) (l : list A) : list A := foldr (insert_by key) [] l.

(** The first of several with the same name. *)
Definition dedup_by {A} (key : A → str) (l : list A) : list A :=
  foldr (λ x acc, x :: List.filter (λ y, negb (bool_decide (key y = key x))) acc) [] l.

(** * What a grammar assigns *)

Section assigned.
Context (g : Grammar).

Definition rule_name_of (r : nat) : str :=
  match rules g !! r with Some (PRule p) => rule_name p | Some (TRule t) => terminal_name t | None => [] end.

(** The type of what an assignment assigns. *)
Definition value_type (e : Element) : TsType :=
  match e with
  | RuleCall r =>
    match rules g !! r with
    | Some (TRule t) =>
      match terminal_type t with
      | Some ty => if decide (ty = #"number") then TsNumber else TsString
      | None => TsString
      end
    | _ => TsName (rule_name_of r)
    end
  | CrossReference ty _ => TsReference (rule_name_of ty)
  | _ => TsString
  end.

(** A feature a node may get: its operator, its type, and whether the
    assignment can be passed by. *)
Record Feature := MkFeature { ft_name : str; ft_op : AssignOp; ft_type : TsType; ft_optional : bool }.

Fixpoint features (opt : bool) (e : Element) : list Feature :=
  match e with
  | Assignment f op t => [MkFeature f op (value_type t) opt]
  | Group es => flat_map (features opt) es
  | Alternatives es => flat_map (features true) es
  | Repeat AtLeastOne e => features opt e
  | Repeat _ e => features true e
  | _ => []
  end.

(** What one alternative of a rule yields: a node with features, or the node
    of another rule. *)
Inductive Branch := NodeBranch (type : str) (fs : list Feature) | SubBranch (rule : nat).

Definition branch (name : str) (e : Element) : Branch :=
  match e with
  | Group (Action ty :: es) => NodeBranch ty (features false (Group es))
  | Action ty => NodeBranch ty []
  | RuleCall r => SubBranch r
  | e => NodeBranch name (features false e)
  end.

(** The rules with a data type, and the literals they list. *)
Definition literal_of (e : Element) : list str := match e with Keyword v => [v] | _ => [] end.
Definition rule_literals (p : ParserRule) : list str :=
  match definition p with Alternatives es => flat_map literal_of es | _ => [] end.

Definition data_rules : list ParserRule :=
  flat_map (λ r, match r with PRule p => match dataType p with Some _ => [p] | None => [] end | TRule _ => [] end)
    (rules g).
End assigned.

(** * The reflection entry of a declaration *)

Definition property_meta (f : TsField) : str * PropertyMeta :=
  (tf_name f, MkProperty (tf_name f)
    (match tf_type f with TsArray _ => Some DefaultArray | TsBoolean => Some DefaultFalse | _ => None end)
    (match tf_type f with TsReference n => Some n | _ => None end)).

Definition super_types (unions : list NodeUnion) (ty : str) : list str :=
  sort_by (λ x, x) (nu_name <$> List.filter (λ u, existsb (λ m, bool_decide (m = ty)) (nu_members u)) unions).

Definition metas_of (decls : list Interface) (us : list NodeUnion) : list TypeMeta :=
  sort_by tm_name
    (((λ i, MkTypeMeta (i_name i) (property_meta <$> i_fields i) (super_types us (i_name i))) <$> decls) ++
     ((λ u, MkTypeMeta (nu_name u) [] (super_types us (nu_name u))) <$> us)).

Definition table_of (name : str) (fields : list str) : NameTable :=
  (#"$type", name) :: ((λ f, (f, f)) <$> fields).
