(* ===== verification/AstTyping.v ===== *)
(** The trees a Langium parser builds, and when declared types hold of them.

    [value_of] and [runs] say which value a token sequence yields for a rule
    of a grammar: an assignment stores the value of what it parses, an action
    names the type of the node, a call that is not assigned hands over the
    node of the called rule.  [has_type] is membership in the types that
    [generated/ast.ts] declares.  [typed_grammar] is the decidable check that
    makes every value well typed ([value_of_ok]). *)

From S2P Require Export AstModel GrammarLaws.

#[local] Set Warnings "-register-all".

(** * Values *)

(** Texts and numbers of terminals, booleans, cross-references, and nodes with
    the assignments made to them in order. *)
Inductive PValue :=
| PText (s : str)
| PNumber (s : str)
| PBool (b : bool)
| PRef (to : str) (text : str)
| PNode (type : str) (fields : list (str * AssignOp * PValue)).

(** The node under construction: its [$type] and its assignments. *)
Definition NodeState : Type := str * list (str * AssignOp * PValue).

Definition token_text (t : token) : str := match t with TKey v => v | TTerm _ s => s end.
Definition tokens_text (ts : list token) : str := concat (token_text <$> ts).

Definition is_node_rule (g : Grammar) (r : nat) : bool :=
  match rules g !! r with Some (PRule p) => bool_decide (dataType p = None) | _ => false end.

Section parsing.
(** [convert] is the value converter of the framework. *)
Context (g : Grammar) (convert : Rule → str → PValue).

Inductive value_of : Element → list token → PValue → Prop :=
| vo_keyword v : value_of (Keyword v) [TKey v] (PText v)
| vo_terminal r t text :
    rules g !! r = Some (TRule t) → value_of (RuleCall r) [TTerm r text] (convert (TRule t) text)
| vo_data r p ty w :
    rules g !! r = Some (PRule p) → dataType p = Some ty → derives g (definition p) w →
    value_of (RuleCall r) w (convert (PRule p) (tokens_text w))
| vo_node r p w ty fs :
    rules g !! r = Some (PRule p) → dataType p = None → runs (definition p) (rule_name p, []) w (ty, fs) →
    value_of (RuleCall r) w (PNode ty fs)
| vo_cross ty e w : derives g e w → value_of (CrossReference ty e) w (PRef (rule_name_of g ty) (tokens_text w))
| vo_alternatives e es w v : e ∈ es → value_of e w v → value_of (Alternatives es) w v
with runs : Element → NodeState → list token → NodeState → Prop :=
| r_keyword v st : runs (Keyword v) st [TKey v] st
| r_assignment f op e st w v : value_of e w v → runs (Assignment f op e) st w (st.1, st.2 ++ [(f, op, v)])
| r_plain_call r st w : is_node_rule g r = false → derives g (RuleCall r) w → runs (RuleCall r) st w st
| r_call r st w ty fs :
    is_node_rule g r = true → value_of (RuleCall r) w (PNode ty fs) → runs (RuleCall r) st w (ty, st.2 ++ fs)
| r_action ty st : runs (Action ty) st [] (ty, st.2)
| r_nil st : runs (Group []) st [] st
| r_cons e es st st' st'' w w' : runs e st w st' → runs (Group es) st' w' st'' → runs (Group (e :: es)) st (w ++ w') st''
| r_alternative e es st st' w : e ∈ es → runs e st w st' → runs (Alternatives es) st w st'
| r_none e st : runs (Repeat Optional e) st [] st
| r_some e st st' w : runs e st w st' → runs (Repeat Optional e) st w st'
| r_done e st : runs (Repeat Many e) st [] st
| r_more e st st' st'' w w' :
    runs e st w st' → runs (Repeat Many e) st' w' st'' → runs (Repeat Many e) st (w ++ w') st''
| r_plus e st st' st'' w w' :
    runs e st w st' → runs (Repeat Many e) st' w' st'' → runs (Repeat AtLeastOne e) st (w ++ w') st''.
End parsing.

Scheme value_of_mut := Induction for value_of Sort Prop
  with runs_mut := Induction for runs Sort Prop.

(** * Declared types *)

(** The type of the field an assignment of a [t] fills. *)
Definition op_type (op : AssignOp) (t : TsType) : TsType :=
  match op with AssignSet => t | AssignAdd => TsArray t | AssignFlag => TsBoolean end.

Section typing.
Context (decls : list Interface) (unions : list NodeUnion) (lits : list LiteralUnion).

Inductive has_type : PValue → TsType → Prop :=
| t_string s : has_type (PText s) TsString
| t_number s : has_type (PNumber s) TsNumber
| t_boolean b : has_type (PBool b) TsBoolean
| t_reference n s : has_type (PRef n s) (TsReference n)
| t_literal u s :
    u ∈ lits → s ∈ lu_literals u ∨ lu_primitive u = Some TsString → has_type (PText s) (TsName (lu_name u))
| t_flag u b : u ∈ lits → lu_primitive u = Some TsBoolean → has_type (PBool b) (TsName (lu_name u))
| t_node i fs :
    i ∈ decls →
    (∀ f op v, (f, op, v) ∈ fs → ∃ d t, d ∈ i_fields i ∧ tf_name d = f ∧ tf_type d = op_type op t ∧
       (op = AssignFlag ∨ has_type v t)) →
    (∀ d, d ∈ i_fields i → tf_optional d = false →
       match tf_type d with
       | TsArray _ | TsBoolean => True
       | _ => ∃ v, (tf_name d, AssignSet, v) ∈ fs
       end) →
    has_type (PNode (i_type i) fs) (TsName (i_name i))
| t_union u m v : u ∈ unions → m ∈ nu_members u → has_type v (TsName m) → has_type v (TsName (nu_name u)).

(** * The check *)

Context (g : Grammar).

(** What may be assigned. *)
Fixpoint assignable (e : Element) : bool :=
  match e with
  | Keyword _ | CrossReference _ _ => true
  | RuleCall r => match rules g !! r with Some _ => true | None => false end
  | Alternatives es => forallb (λ e, assignable e && bool_decide (value_type g e = TsString)) es
  | _ => false
  end.

(** No call and no action that changes which node is being built. *)
Fixpoint plain (e : Element) : bool :=
  match e with
  | Keyword _ => true
  | RuleCall r => negb (is_node_rule g r)
  | Assignment _ _ e => assignable e
  | CrossReference _ _ | Action _ => false
  | Group es | Alternatives es => forallb plain es
  | Repeat _ e => plain e
  end.

Definition branch_plain (e : Element) : bool :=
  match e with
  | Group (Action _ :: es) => forallb plain es
  | Action _ => true
  | RuleCall r => is_node_rule g r
  | e => plain e
  end.

Definition feature_declared (i : Interface) (ft : Feature) : bool :=
  existsb (λ d, bool_decide (tf_name d = ft_name ft) && bool_decide (tf_type d = op_type (ft_op ft) (ft_type ft)))
    (i_fields i).

Definition is_set (op : AssignOp) : bool := match op with AssignSet => true | _ => false end.

Definition field_given (fs : list Feature) (d : TsField) : bool :=
  tf_optional d || match tf_type d with TsArray _ | TsBoolean => true | _ => false end ||
  existsb (λ ft, bool_decide (ft_name ft = tf_name d) && is_set (ft_op ft) && negb (ft_optional ft)) fs.

Definition node_declared (ty : str) (fs : list Feature) : bool :=
  existsb (λ i, bool_decide (i_name i = ty) && bool_decide (i_type i = ty) &&
    forallb (feature_declared i) fs && forallb (field_given fs) (i_fields i)) decls.

Definition subtype (a b : str) : bool :=
  bool_decide (a = b) || existsb (λ u, bool_decide (nu_name u = b) && bool_decide (a ∈ nu_members u)) unions.

Definition branch_typed (name : str) (b : Branch) : bool :=
  match b with
  | NodeBranch ty fs => node_declared ty fs && subtype ty name
  | SubBranch r => subtype (rule_name_of g r) name
  end.

Definition alternatives_of (e : Element) : list Element := match e with Alternatives es => es | e => [e] end.

Definition data_typed (p : ParserRule) (ty : str) : bool :=
  existsb (λ u, bool_decide (lu_name u = rule_name p) &&
    if decide (ty = #"boolean") then bool_decide (lu_primitive u = Some TsBoolean)
    else bool_decide (ty = #"string") &&
         (bool_decide (lu_primitive u = Some TsString) ||
          forallb (λ e, match e with Keyword k => bool_decide (k ∈ lu_literals u) | _ => false end)
            (alternatives_of (definition p)))) lits.

Definition typed_rule (p : ParserRule) : bool :=
  match dataType p with
  | Some ty => data_typed p ty
  | None => forallb (λ e, branch_plain e && branch_typed (rule_name p) (branch g (rule_name p) e))
              (alternatives_of (definition p))
  end.

Definition typed_grammar : bool := forallb (λ r, match r with PRule p => typed_rule p | TRule _ => true end) (rules g).
End typing.

(** What the framework's documentation says of the converter: the type a rule
    declares is the type of its values, and a rule of type [string] yields the
    text itself. *)
Record ConverterLaws (convert : Rule → str → PValue) : Prop := {
  convert_terminal t s :
    match terminal_type t with
    | Some ty => if decide (ty = #"number") then ∃ n, convert (TRule t) s = PNumber n
                 else ∃ x, convert (TRule t) s = PText x
    | None => ∃ x, convert (TRule t) s = PText x
    end;
  convert_string p s : dataType p = Some #"string" → convert (PRule p) s = PText s;
  convert_boolean p s : dataType p = Some #"boolean" → ∃ b, convert (PRule p) s = PBool b
}.

(** * Soundness of the check *)

Section soundness.
Context (decls : list Interface) (unions : list NodeUnion) (lits : list LiteralUnion).
Context (g : Grammar) (convert : Rule → str → PValue) (Hconvert : ConverterLaws convert).

#[local] Abbreviation typed := (has_type decls unions lits).

Definition item : Type := str * AssignOp * PValue.

(** Every assignment made is one of the features, with a value of its type. *)
Definition covers (fs : list Feature) (new : list item) : Prop :=
  ∀ f op v, (f, op, v) ∈ new →
    ∃ ft, ft ∈ fs ∧ ft_name ft = f ∧ ft_op ft = op ∧ (op = AssignFlag ∨ typed v (ft_type ft)).

(** Every feature that cannot be passed by is assigned. *)
Definition complete (fs : list Feature) (new : list item) : Prop :=
  ∀ ft, ft ∈ fs → ft_optional ft = false → ∃ v, (ft_name ft, ft_op ft, v) ∈ new.

Lemma covers_nil fs : covers fs [].
Proof. intros f op v H. by apply elem_of_nil in H. Qed.

Lemma covers_app fs new1 new2 : covers fs new1 → covers fs new2 → covers fs (new1 ++ new2).
Proof. intros H1 H2 f op v [H|H]%elem_of_app; eauto. Qed.

Lemma covers_mono fs fs' new : (∀ ft, ft ∈ fs → ft ∈ fs') → covers fs new → covers fs' new.
Proof. intros Hsub H f op v (ft & Hft & Hrest)%H. eauto. Qed.

(** [opt] changes nothing but the flag. *)
Lemma features_weaken e ft :
  ft ∈ features g true e → ∀ opt, ∃ ft', ft' ∈ features g opt e ∧
    ft_name ft' = ft_name ft ∧ ft_op ft' = ft_op ft ∧ ft_type ft' = ft_type ft.
Proof.
  induction e using Element_deep_ind; cbn [features]; intros Hin opt; try (by apply elem_of_nil in Hin).
  - apply list_elem_of_singleton in Hin as ->. eexists. split; [by left|done].
  - apply list_elem_of_In, in_flat_map in Hin as (x & Hx & Hin). apply list_elem_of_In in Hx, Hin.
    rewrite Forall_forall in H. destruct (H x Hx Hin opt) as (ft' & Hft' & Heq).
    exists ft'. split; [|done]. apply list_elem_of_In, in_flat_map. exists x. by rewrite <- !list_elem_of_In.
  - apply list_elem_of_In, in_flat_map in Hin as (x & Hx & Hin). exists ft. split; [|done].
    apply list_elem_of_In, in_flat_map. by exists x.
  - destruct c; [by exists ft|by exists ft|by apply IHe].
Qed.

Lemma covers_weaken e opt new : covers (features g true e) new → covers (features g opt e) new.
Proof.
  intros H f op v (ft & Hft & <- & <- & Hv)%H.
  destruct (features_weaken e ft Hft opt) as (ft' & Hft' & Hn & Ho & Ht).
  exists ft'. split_and!; [done..|]. by rewrite Ht.
Qed.

Lemma features_true_optional e ft : ft ∈ features g true e → ft_optional ft = true.
Proof.
  induction e using Element_deep_ind; cbn [features]; intros Hin; try (by apply elem_of_nil in Hin).
  - by apply list_elem_of_singleton in Hin as ->.
  - apply list_elem_of_In, in_flat_map in Hin as (x & Hx & Hin). apply list_elem_of_In in Hx, Hin.
    rewrite Forall_forall in H. by apply (H x).
  - apply list_elem_of_In, in_flat_map in Hin as (x & Hx & Hin). apply list_elem_of_In in Hx, Hin.
    rewrite Forall_forall in H. by apply (H x).
  - destruct c; by apply IHe.
Qed.

Lemma complete_true e new : complete (features g true e) new.
Proof. intros ft Hft H. by rewrite (features_true_optional e ft Hft) in H. Qed.

Lemma complete_app fs1 fs2 new1 new2 :
  complete fs1 new1 → complete fs2 new2 → complete (fs1 ++ fs2) (new1 ++ new2).
Proof.
  intros H1 H2 ft [H|H]%elem_of_app Ho; [destruct (H1 ft H Ho) as [v Hv]|destruct (H2 ft H Ho) as [v Hv]];
    exists v; apply elem_of_app; auto.
Qed.

Lemma complete_app_l fs new1 new2 : complete fs new1 → complete fs (new1 ++ new2).
Proof. intros H1 ft H Ho. destruct (H1 ft H Ho) as [v Hv]. exists v. apply elem_of_app. auto. Qed.

(** What running a plain element does. *)
Definition adds (fs : list Feature) (st st' : NodeState) : Prop :=
  ∃ new, st' = (st.1, st.2 ++ new) ∧ covers fs new ∧ complete fs new.

(** What running a branch of a rule does. *)
Definition fits (b : Branch) (st st' : NodeState) : Prop :=
  match b with
  | NodeBranch ty fs => st'.1 = ty ∧ ∃ new, st'.2 = st.2 ++ new ∧ covers fs new ∧ complete fs new
  | SubBranch r => ∃ new, st'.2 = st.2 ++ new ∧ typed (PNode st'.1 new) (TsName (rule_name_of g r))
  end.

Definition ran (e : Element) (st st' : NodeState) : Prop :=
  (plain g e = true → ∀ opt, adds (features g opt e) st st') ∧
  ∃ e', e' ∈ alternatives_of e ∧ (branch_plain g e' = true → fits (branch g st.1 e') st st').

Context (Htyped : typed_grammar decls unions lits g = true).

Lemma rule_typed r p : rules g !! r = Some (PRule p) → typed_rule decls unions lits g p = true.
Proof.
  intros Hr. unfold typed_grammar in Htyped. rewrite forallb_forall in Htyped.
  apply (Htyped (PRule p)), list_elem_of_In. by eapply list_elem_of_lookup_2.
Qed.

Lemma rule_type r p : rules g !! r = Some (PRule p) → value_type g (RuleCall r) = TsName (rule_name p).
Proof. intros Hr. cbn [value_type]. unfold rule_name_of. by rewrite Hr. Qed.

Lemma subtype_typed a b v : subtype unions a b = true → typed v (TsName a) → typed v (TsName b).
Proof.
  intros [->%bool_decide_eq_true_1|Hu]%orb_prop Hv; [done|].
  apply existsb_exists in Hu as (u & Hu%list_elem_of_In & [Hn Hm]%andb_prop).
  apply bool_decide_eq_true_1 in Hn as <-. apply bool_decide_eq_true_1 in Hm. by eapply t_union.
Qed.

Lemma terminal_typed r t s :
  rules g !! r = Some (TRule t) → typed (convert (TRule t) s) (value_type g (RuleCall r)).
Proof.
  intros Hr. cbn [value_type]. rewrite Hr. pose proof (convert_terminal _ Hconvert t s) as Hc.
  destruct (terminal_type t) as [ty|]; [|by destruct Hc as [x ->]; constructor].
  destruct (decide _); destruct Hc as [x ->]; constructor.
Qed.

(** The words a list of keywords derives. *)
Lemma keywords_text es w (ls : list str) :
  forallb (λ e, match e with Keyword k => bool_decide (k ∈ ls) | _ => false end) es = true →
  derives g (Alternatives es) w → tokens_text w ∈ ls.
Proof.
  rewrite forallb_forall. intros Hall (e & He%list_elem_of_In & Hd)%derives_alternatives.
  specialize (Hall e He). destruct e; try discriminate Hall.
  apply derives_keyword in Hd as ->. apply bool_decide_eq_true_1 in Hall.
  unfold tokens_text. cbn [fmap list_fmap token_text concat]. by rewrite app_nil_r.
Qed.

Lemma derives_as_alternatives e w : derives g e w → derives g (Alternatives (alternatives_of e)) w.
Proof. intros Hd. destruct e; try exact Hd; (eapply d_alternative; [by left|exact Hd]). Qed.

Lemma data_rule_typed r p ty w :
  rules g !! r = Some (PRule p) → dataType p = Some ty → derives g (definition p) w →
  typed (convert (PRule p) (tokens_text w)) (value_type g (RuleCall r)).
Proof.
  intros Hr Hty Hd. rewrite (rule_type r p Hr). pose proof (rule_typed r p Hr) as Ht.
  unfold typed_rule in Ht. rewrite Hty in Ht.
  apply existsb_exists in Ht as (u & Hu%list_elem_of_In & [Hn Ht]%andb_prop).
  apply bool_decide_eq_true_1 in Hn as <-. destruct (decide _) as [->|_].
  - destruct (convert_boolean _ Hconvert p (tokens_text w) Hty) as [b ->].
    apply t_flag; [done|]. exact (bool_decide_eq_true_1 _ Ht).
  - apply andb_prop in Ht as [Hs Ht]. apply bool_decide_eq_true_1 in Hs. subst ty.
    rewrite (convert_string _ Hconvert p _ Hty). apply t_literal; [done|].
    apply orb_prop in Ht as [Ht|Ht]; [right; exact (bool_decide_eq_true_1 _ Ht)|left].
    by apply (keywords_text _ _ _ Ht), derives_as_alternatives.
Qed.

(** A node with covered and complete features is of its declared type. *)
Lemma node_typed ty fs new :
  node_declared decls ty fs = true → covers fs new → complete fs new → typed (PNode ty new) (TsName ty).
Proof.
  intros (i & Hi%list_elem_of_In & Hb)%existsb_exists Hcov Hcom.
  apply andb_prop in Hb as [[[Hn Hty]%andb_prop Hfs]%andb_prop Hgiven].
  apply bool_decide_eq_true_1 in Hn, Hty. rewrite forallb_forall in Hfs, Hgiven.
  rewrite <- Hn at 2. rewrite <- Hty. apply t_node; [done|..].
  - intros f op v (ft & Hft & <- & <- & Hv)%Hcov. apply list_elem_of_In, Hfs, existsb_exists in Hft as (d & Hd & Hb).
    apply andb_prop in Hb as [Hdn%bool_decide_eq_true_1 Hdt%bool_decide_eq_true_1].
    exists d, (ft_type ft). by rewrite list_elem_of_In.
  - intros d Hd%list_elem_of_In Hopt. specialize (Hgiven d Hd). unfold field_given in Hgiven. rewrite Hopt in Hgiven.
    destruct (tf_type d); cbn [orb] in Hgiven; try exact I;
      (apply existsb_exists in Hgiven as (ft & Hft%list_elem_of_In & Hb);
       apply andb_prop in Hb as [[Hdn%bool_decide_eq_true_1 Hset]%andb_prop Hno%negb_true_iff];
       destruct (Hcom ft Hft Hno) as [v Hv]; exists v; rewrite <- Hdn;
       destruct (ft_op ft); [exact Hv|discriminate Hset|discriminate Hset]).
Qed.

Lemma node_rule_typed r p ty fs :
  rules g !! r = Some (PRule p) → dataType p = None → ran (definition p) (rule_name p, []) (ty, fs) →
  typed (PNode ty fs) (value_type g (RuleCall r)).
Proof.
  intros Hr Hd [_ (e & He & Hfit)]. rewrite (rule_type r p Hr). pose proof (rule_typed r p Hr) as Ht.
  unfold typed_rule in Ht. rewrite Hd, forallb_forall in Ht.
  apply list_elem_of_In, Ht, andb_prop in He as [Hplain Hb]. specialize (Hfit Hplain).
  cbn [fst] in Hfit. destruct (branch g (rule_name p) e) as [ty' fs'|r'].
  - apply andb_prop in Hb as [Hnode Hsub]. apply (subtype_typed ty'); [done|].
    destruct Hfit as (Hty & new & Hnew & Hcov & Hcom). cbn [fst snd app] in Hty, Hnew. subst ty fs.
    by eapply node_typed.
  - destruct Hfit as (new & Hnew & Hv). cbn [fst snd app] in Hnew, Hv. subst fs. by eapply subtype_typed.
Qed.

(** ** Running elements *)

Lemma ran_plain e st st' :
  (∀ ty, e ≠ Action ty) → (∀ r, e ≠ RuleCall r) → (∀ es, e ≠ Alternatives es) →
  (∀ ty es, e ≠ Group (Action ty :: es)) →
  (plain g e = true → ∀ opt, adds (features g opt e) st st') → ran e st st'.
Proof.
  intros Ha Hr Halt Hga Hadds. split; [done|]. exists e.
  assert (alternatives_of e = [e]) as -> by (destruct e; [done..|by edestruct Halt|done]).
  split; [by left|].
  assert (branch g st.1 e = NodeBranch st.1 (features g false e) ∧ branch_plain g e = plain g e) as [-> ->].
  { destruct e as [| | | | |[|[]]| |]; try done; [by edestruct Hr|by edestruct Ha|by edestruct Hga]. }
  intros Hp. destruct (Hadds Hp false) as (new & -> & Hcov & Hcom). split; [done|]. by exists new.
Qed.

Lemma adds_nothing fs st : complete fs [] → adds fs st st.
Proof. intros H. exists []. rewrite app_nil_r. destruct st. by split_and!; [|apply covers_nil|]. Qed.

Lemma adds_compose fs1 fs2 fs st st' st'' :
  adds fs1 st st' → adds fs2 st' st'' →
  (∀ new1 new2, covers fs1 new1 → covers fs2 new2 → covers fs (new1 ++ new2)) →
  (∀ new1 new2, complete fs1 new1 → complete fs2 new2 → complete fs (new1 ++ new2)) → adds fs st st''.
Proof.
  intros (new1 & -> & Hc1 & Hm1) (new2 & -> & Hc2 & Hm2) Hc Hm. exists (new1 ++ new2).
  cbn [fst snd]. rewrite <- app_assoc. split_and!; [done|by apply Hc|by apply Hm].
Qed.


(** Repetition: every round adds optional features. *)
Lemma ran_rounds c e st st' st'' :
  c ≠ Optional → ran e st st' → ran (Repeat Many e) st' st'' → ran (Repeat c e) st st''.
Proof.
  intros Hc [He _] [Hr _]. apply ran_plain; try (by intros). intros Hp opt.
  destruct (He Hp opt) as (new1 & -> & Hcov1 & Hcom1). destruct (He Hp true) as (new1' & Heq & Hcov1' & _).
  assert (new1' = new1) as -> by (injection Heq as Heq; by apply app_inv_head in Heq).
  destruct (Hr Hp opt) as (new2 & -> & Hcov2 & _). exists (new1 ++ new2). cbn [fst snd]. rewrite <- app_assoc.
  split; [done|]. destruct c; [by destruct Hc|..]; cbn [features] in *.
  - split; [by apply covers_app|apply complete_true].
  - split; [apply covers_app; [done|by apply covers_weaken]|by apply complete_app_l].
Qed.

Lemma ran_group e es st st' st'' :
  ran e st st' → ran (Group es) st' st'' → (∀ ty, e = Action ty → st' = (ty, st.2)) →
  ran (Group (e :: es)) st st''.
Proof.
  intros [He _] [Hes _] Hact. assert ((∃ ty, e = Action ty) ∨ ∀ ty, e ≠ Action ty) as [[ty ->]|Hna] by (destruct e; eauto).
  - split; [discriminate 1|]. exists (Group (Action ty :: es)). split; [by left|]. cbn [branch_plain branch].
    intros Hp. rewrite (Hact ty eq_refl) in Hes. destruct (Hes Hp false) as (new & -> & Hcov & Hcom).
    split; [done|]. by exists new.
  - apply ran_plain; try (by intros). { intros ty es' [= -> ->]. by eapply Hna. }
    cbn [plain forallb features flat_map]. intros [Hp1 Hp2]%andb_prop opt.
    eapply adds_compose; [exact (He Hp1 opt)|exact (Hes Hp2 opt)|..].
    + intros new1 new2 H1 H2. apply covers_app; (eapply covers_mono; [|eassumption]); intros ft Hft; apply elem_of_app; [by left|by right].
    + intros new1 new2. apply complete_app.
Qed.

Lemma ran_branch e st st' : ran e st st' → branch_plain g e = true → fits (branch g st.1 e) st st'.
Proof.
  intros [Hadds (e' & He' & Hfits)]. destruct e; try (apply list_elem_of_singleton in He' as ->; exact Hfits).
  intros Hp. destruct (Hadds Hp false) as (new & -> & Hcov & Hcom). split; [done|]. by exists new.
Qed.

Lemma ran_alternatives e es st st' : e ∈ es → ran e st st' → ran (Alternatives es) st st'.
Proof.
  intros Hin Hran. split.
  - cbn [plain features]. rewrite forallb_forall. intros Hp%(λ H, H e (proj1 (list_elem_of_In _ _) Hin)) opt.
    destruct Hran as [Hadds _]. destruct (Hadds Hp true) as (new & -> & Hcov & _). exists new.
    split_and!; [done| |apply (complete_true (Alternatives es))].
    eapply covers_mono; [|exact Hcov]. intros ft Hft. apply list_elem_of_In, in_flat_map.
    exists e. by rewrite <- !list_elem_of_In.
  - exists e. split; [done|]. by apply ran_branch.
Qed.

Lemma ran_optional e st st' : st' = st ∨ ran e st st' → ran (Repeat Optional e) st st'.
Proof.
  intros H. apply ran_plain; try (by intros). intros Hp opt. destruct H as [->|[He _]].
  - apply adds_nothing, complete_true.
  - exact (He Hp true).
Qed.

Lemma ran_call r st ty fs :
  is_node_rule g r = true → typed (PNode ty fs) (TsName (rule_name_of g r)) → ran (RuleCall r) st (ty, st.2 ++ fs).
Proof.
  intros Hn Ht. split; [cbn [plain]; by rewrite Hn|]. exists (RuleCall r). split; [by left|].
  intros _. by exists fs.
Qed.

Lemma value_of_ok e w v :
  value_of g convert e w v → assignable g e = true → typed v (value_type g e).
Proof.
  intros H. induction H as
    [s|r t s Hr|r p ty w Hr Hd Hw|r p w ty fs Hr Hd _ IH|ty e w _|e es w v Hin _ IH
    |s st|f op e st w v _ IH|r st w Hr _|r st w ty fs Hr Hv IH|ty st|st|e es st st' st'' w w' He IHe _ IHes
    |e es st st' w Hin _ IH|e st|e st st' w _ IH|e st|e st st' st'' w w' _ IHe _ IHes|e st st' st'' w w' _ IHe _ IHes]
    using value_of_mut with (P0 := λ e st w st' _, ran e st st').
  - intros _. constructor.
  - intros _. by apply terminal_typed.
  - intros _. by eapply data_rule_typed.
  - intros _. by eapply node_rule_typed.
  - intros _. constructor.
  - cbn [assignable]. rewrite forallb_forall. intros H. apply list_elem_of_In, H, andb_prop in Hin as [Ha Ht].
    apply bool_decide_eq_true_1 in Ht. cbn [value_type]. rewrite <- Ht. by apply IH.
  - apply ran_plain; try (by intros). intros _ opt. apply adds_nothing. intros ft Hft. by apply elem_of_nil in Hft.
  - apply ran_plain; try (by intros). cbn [plain]. intros Ha opt. exists [(f, op, v)]. split_and!; [done| |].
    + intros f' op' v' [= -> -> ->]%list_elem_of_singleton. eexists. split; [by left|].
      split_and!; [done..|]. right. by apply IH.
    + intros ft ->%list_elem_of_singleton _. exists v. by left.
  - split.
    + intros _ opt. apply adds_nothing. intros ft Hft. by apply elem_of_nil in Hft.
    + exists (RuleCall r). split; [by left|]. cbn [branch_plain]. by rewrite Hr.
  - apply ran_call; [done|]. assert (∃ p, rules g !! r = Some (PRule p)) as [p Hp].
    { unfold is_node_rule in Hr. destruct (rules g !! r) as [[p|t]|]; by eauto. }
    assert (value_type g (RuleCall r) = TsName (rule_name_of g r)) as <-.
    { cbn [value_type]. by rewrite Hp. }
    apply IH. cbn [assignable]. by rewrite Hp.
  - split; [discriminate 1|]. exists (Action ty). split; [by left|]. intros _. split; [done|]. exists [].
    rewrite app_nil_r. split_and!; [done|apply covers_nil|]. intros ft Hft. by apply elem_of_nil in Hft.
  - apply ran_plain; try (by intros). intros _ opt. apply adds_nothing. intros ft Hft. by apply elem_of_nil in Hft.
  - eapply ran_group; [exact IHe|exact IHes|]. intros ty ->. by inversion He.
  - by eapply ran_alternatives.
  - apply ran_optional. by left.
  - apply ran_optional. by right.
  - apply ran_plain; try (by intros). intros _ opt. apply adds_nothing, complete_true.
  - by eapply ran_rounds.
  - by eapply ran_rounds.
Qed.
End soundness.
