(* ===== verification/DslAstTypes.v ===== *)
(** The declarations of [packages/oos-dsls-ts/src/generated/ast.ts]: the
    syntax-tree types of domain, event-schema and view files, their name
    tables, guards and reflection entries, and the token names. *)

From S2P Require Export AstModel.

#[local] Set Warnings "-register-all".

Definition Accordion_names : NameTable :=
  [ (#"$type", #"Accordion"); (#"items", #"items"); (#"mods", #"mods") ].

Definition AccordionItem_names : NameTable :=
  [ (#"$type", #"AccordionItem"); (#"body", #"body"); (#"caption", #"caption"); (#"open", #"open") ].

Definition AiHint_names : NameTable :=
  [ (#"$type", #"AiHint"); (#"body", #"body"); (#"name", #"name") ].

Definition AliasList_names : NameTable :=
  [ (#"$type", #"AliasList"); (#"values", #"values") ].

Definition As_names : NameTable :=
  [ (#"$type", #"As"); (#"target", #"target") ].

Definition AutoRefresh_names : NameTable :=
  [ (#"$type", #"AutoRefresh"); (#"domain", #"domain"); (#"event", #"event") ].

Definition Bind_names : NameTable :=
  [ (#"$type", #"Bind"); (#"source", #"source") ].

Definition BodyElement_names : NameTable :=
  [ (#"$type", #"BodyElement") ].

Definition Button_names : NameTable :=
  [ (#"$type", #"Button"); (#"actionRef", #"actionRef"); (#"caption", #"caption"); (#"mods", #"mods") ].

Definition Card_names : NameTable :=
  [ (#"$type", #"Card"); (#"body", #"body"); (#"caption", #"caption"); (#"mods", #"mods") ].

Definition Cols_names : NameTable :=
  [ (#"$type", #"Cols"); (#"value", #"value") ].

Definition Column_names : NameTable :=
  [ (#"$type", #"Column"); (#"caption", #"caption"); (#"field", #"field"); (#"mods", #"mods") ].

Definition ColumnFormat_names : NameTable :=
  [ (#"$type", #"ColumnFormat"); (#"fmt", #"fmt") ].

Definition ColumnModifier_names : NameTable :=
  [ (#"$type", #"ColumnModifier") ].

Definition ColumnWidth_names : NameTable :=
  [ (#"$type", #"ColumnWidth"); (#"value", #"value") ].

Definition Confirm_names : NameTable :=
  [ (#"$type", #"Confirm"); (#"message", #"message") ].

Definition Divider_names : NameTable :=
  [ (#"$type", #"Divider") ].

Definition DomainBinding_names : NameTable :=
  [ (#"$type", #"DomainBinding"); (#"alias", #"alias"); (#"name", #"name") ].

Definition DomainDecl_names : NameTable :=
  [ (#"$type", #"DomainDecl"); (#"dsn", #"dsn"); (#"members", #"members"); (#"name", #"name");
    (#"source", #"source") ].

Definition DomainMember_names : NameTable :=
  [ (#"$type", #"DomainMember") ].

Definition DomainModel_names : NameTable :=
  [ (#"$type", #"DomainModel"); (#"domain", #"domain") ].

Definition EventSchemaModel_names : NameTable :=
  [ (#"$type", #"EventSchemaModel"); (#"eventType", #"eventType") ].

Definition EventTypeDecl_names : NameTable :=
  [ (#"$type", #"EventTypeDecl"); (#"fields", #"fields"); (#"name", #"name") ].

Definition Example_names : NameTable :=
  [ (#"$type", #"Example"); (#"description", #"description"); (#"op", #"op"); (#"value", #"value") ].

Definition ExampleValue_names : NameTable :=
  [ (#"$type", #"ExampleValue") ].

Definition Expand_names : NameTable :=
  [ (#"$type", #"Expand") ].

Definition Field_names : NameTable :=
  [ (#"$type", #"Field"); (#"examples", #"examples"); (#"modifiers", #"modifiers"); (#"name", #"name");
    (#"type", #"type") ].

Definition FieldDecl_names : NameTable :=
  [ (#"$type", #"FieldDecl"); (#"name", #"name"); (#"required", #"required"); (#"type", #"type") ].

Definition FieldModifier_names : NameTable :=
  [ (#"$type", #"FieldModifier") ].

Definition FieldRef_names : NameTable :=
  [ (#"$type", #"FieldRef"); (#"domain", #"domain"); (#"field", #"field") ].

Definition Filterable_names : NameTable :=
  [ (#"$type", #"Filterable") ].

Definition FormatToken_names : NameTable :=
  [ (#"$type", #"FormatToken"); (#"detail", #"detail"); (#"kind", #"kind") ].

Definition Gap_names : NameTable :=
  [ (#"$type", #"Gap"); (#"value", #"value") ].

Definition Grid_names : NameTable :=
  [ (#"$type", #"Grid"); (#"body", #"body"); (#"cols", #"cols"); (#"mods", #"mods") ].

Definition IconModifier_names : NameTable :=
  [ (#"$type", #"IconModifier") ].

Definition IconSize_names : NameTable :=
  [ (#"$type", #"IconSize"); (#"value", #"value") ].

Definition IconWidget_names : NameTable :=
  [ (#"$type", #"IconWidget"); (#"mods", #"mods"); (#"name", #"name") ].

Definition LayoutMod_names : NameTable :=
  [ (#"$type", #"LayoutMod") ].

Definition LinkWidget_names : NameTable :=
  [ (#"$type", #"LinkWidget"); (#"caption", #"caption"); (#"href", #"href"); (#"mods", #"mods") ].

Definition Margin_names : NameTable :=
  [ (#"$type", #"Margin"); (#"prop", #"prop"); (#"value", #"value") ].

Definition Meta_names : NameTable :=
  [ (#"$type", #"Meta"); (#"dsn", #"dsn"); (#"labelField", #"labelField"); (#"name", #"name");
    (#"orderBy", #"orderBy"); (#"table", #"table"); (#"valueField", #"valueField") ].

Definition NavModifier_names : NameTable :=
  [ (#"$type", #"NavModifier") ].

Definition NumberValue_names : NameTable :=
  [ (#"$type", #"NumberValue"); (#"value", #"value") ].

Definition OptionsRef_names : NameTable :=
  [ (#"$type", #"OptionsRef"); (#"meta", #"meta") ].

Definition Padding_names : NameTable :=
  [ (#"$type", #"Padding"); (#"prop", #"prop"); (#"value", #"value") ].

Definition Permission_names : NameTable :=
  [ (#"$type", #"Permission"); (#"actions", #"actions"); (#"role", #"role") ].

Definition ReadOnly_names : NameTable :=
  [ (#"$type", #"ReadOnly") ].

Definition Relation_names : NameTable :=
  [ (#"$type", #"Relation"); (#"foreignField", #"foreignField"); (#"kind", #"kind");
    (#"localField", #"localField"); (#"name", #"name"); (#"target", #"target") ].

Definition RichText_names : NameTable :=
  [ (#"$type", #"RichText"); (#"spans", #"spans") ].

Definition RichTextSpan_names : NameTable :=
  [ (#"$type", #"RichTextSpan"); (#"style", #"style"); (#"text", #"text") ].

Definition Row_names : NameTable :=
  [ (#"$type", #"Row"); (#"body", #"body"); (#"mods", #"mods") ].

Definition ScrollFlag_names : NameTable :=
  [ (#"$type", #"ScrollFlag"); (#"scroll", #"scroll") ].

Definition Section_names : NameTable :=
  [ (#"$type", #"Section"); (#"body", #"body"); (#"caption", #"caption"); (#"mods", #"mods") ].

Definition Separator_names : NameTable :=
  [ (#"$type", #"Separator") ].

Definition SpacingScale_names : NameTable :=
  [ (#"$type", #"SpacingScale"); (#"value", #"value") ].

Definition SpacingToken_names : NameTable :=
  [ (#"$type", #"SpacingToken"); (#"token", #"token") ].

Definition SpacingValue_names : NameTable :=
  [ (#"$type", #"SpacingValue") ].

Definition Stack_names : NameTable :=
  [ (#"$type", #"Stack"); (#"body", #"body"); (#"mods", #"mods") ].

Definition StringValue_names : NameTable :=
  [ (#"$type", #"StringValue"); (#"value", #"value") ].

Definition Tab_names : NameTable :=
  [ (#"$type", #"Tab"); (#"body", #"body"); (#"caption", #"caption") ].

Definition Table_names : NameTable :=
  [ (#"$type", #"Table"); (#"actions", #"actions"); (#"columns", #"columns"); (#"rowSource", #"rowSource") ].

Definition Tabs_names : NameTable :=
  [ (#"$type", #"Tabs"); (#"mods", #"mods"); (#"tabs", #"tabs") ].

Definition ToolbarDelete_names : NameTable :=
  [ (#"$type", #"ToolbarDelete"); (#"confirm", #"confirm") ].

Definition ToolbarExit_names : NameTable :=
  [ (#"$type", #"ToolbarExit") ].

Definition ToolbarItem_names : NameTable :=
  [ (#"$type", #"ToolbarItem") ].

Definition ToolbarNew_names : NameTable :=
  [ (#"$type", #"ToolbarNew"); (#"caption", #"caption"); (#"navMods", #"navMods"); (#"target", #"target") ].

Definition ToolbarRefresh_names : NameTable :=
  [ (#"$type", #"ToolbarRefresh"); (#"caption", #"caption") ].

Definition ToolbarSave_names : NameTable :=
  [ (#"$type", #"ToolbarSave") ].

Definition ViewAction_names : NameTable :=
  [ (#"$type", #"ViewAction"); (#"event", #"event"); (#"navMods", #"navMods"); (#"target", #"target") ].

Definition ViewDecl_names : NameTable :=
  [ (#"$type", #"ViewDecl"); (#"autoRefresh", #"autoRefresh"); (#"body", #"body"); (#"default", #"default");
    (#"domains", #"domains"); (#"name", #"name"); (#"title", #"title"); (#"toolbar", #"toolbar") ].

Definition ViewModel_names : NameTable :=
  [ (#"$type", #"ViewModel"); (#"view", #"view") ].

Definition Widget_names : NameTable :=
  [ (#"$type", #"Widget"); (#"bind", #"bind"); (#"caption", #"caption"); (#"kind", #"kind");
    (#"mods", #"mods") ].

Definition WidgetExpand_names : NameTable :=
  [ (#"$type", #"WidgetExpand") ].

Definition WidgetFocus_names : NameTable :=
  [ (#"$type", #"WidgetFocus") ].

Definition WidgetFormat_names : NameTable :=
  [ (#"$type", #"WidgetFormat"); (#"fmt", #"fmt") ].

Definition WidgetMax_names : NameTable :=
  [ (#"$type", #"WidgetMax"); (#"value", #"value") ].

Definition WidgetMin_names : NameTable :=
  [ (#"$type", #"WidgetMin"); (#"value", #"value") ].

Definition WidgetModifier_names : NameTable :=
  [ (#"$type", #"WidgetModifier") ].

Definition WidgetPlaceholder_names : NameTable :=
  [ (#"$type", #"WidgetPlaceholder"); (#"value", #"value") ].

Definition WidgetReadOnly_names : NameTable :=
  [ (#"$type", #"WidgetReadOnly") ].

Definition WidgetStep_names : NameTable :=
  [ (#"$type", #"WidgetStep"); (#"value", #"value") ].

Definition Domain_Terminals : list (str * str) :=
  [ (#"ID", #"/[_a-zA-Z][\w_]*/"); (#"NUMBER", #"/-?[0-9]+(\.[0-9]+)?/");
    (#"STRING", (#"/" ++ [34]%N ++ #"(\\.|[^" ++ [34]%N ++ #"\\])*" ++ [34]%N ++ #"/")); (#"WS", #"/\s+/");
    (#"ML_COMMENT", #"/\/\*[\s\S]*?\*\//"); (#"SL_COMMENT", #"/\/\/[^\n\r]*/") ].

Definition Domain_KeywordNames : list str :=
  [ #","; #"->"; #":"; #"="; #"@"; #"["; #"]"; #"ai"; #"aliases"; #"belongs_to"; #"bind"; #"bool"; #"date";
    #"datetime"; #"delete"; #"domain"; #"eq"; #"example"; #"field"; #"filterable"; #"float"; #"from"; #"ge";
    #"gt"; #"has_many"; #"has_one"; #"in"; #"int"; #"le"; #"like"; #"lt"; #"meta"; #"ne"; #"options";
    #"order_by"; #"permission"; #"read"; #"readonly"; #"relation"; #"string"; #"text"; #"via"; #"write";
    #"{"; #"}" ].

Definition Domain_AstType : list str :=
  [ #"AiHint"; #"AliasList"; #"DomainDecl"; #"DomainMember"; #"DomainModel"; #"Example"; #"ExampleValue";
    #"Field"; #"FieldModifier"; #"Filterable"; #"Meta"; #"NumberValue"; #"OptionsRef"; #"Permission";
    #"ReadOnly"; #"Relation"; #"StringValue" ].

Definition EventSchema_Terminals : list (str * str) :=
  [ (#"ID", #"/[_a-zA-Z][a-zA-Z0-9_]*/");
    (#"STRING", (#"/" ++ [34]%N ++ #"(\\.|[^" ++ [34]%N ++ #"\\])*" ++ [34]%N ++ #"/")); (#"WS", #"/\s+/");
    (#"ML_COMMENT", #"/\/\*[\s\S]*?\*\//"); (#"SL_COMMENT", #"/\/\/[^\n\r]*/") ].

Definition EventSchema_KeywordNames : list str :=
  [ #":"; #"EventType"; #"boolean"; #"date"; #"datetime"; #"number"; #"optional"; #"required"; #"string";
    #"{"; #"}" ].

Definition EventSchema_AstType : list str :=
  [ #"EventSchemaModel"; #"EventTypeDecl"; #"FieldDecl" ].

Definition View_Terminals : list (str * str) :=
  [ (#"ID", #"/[_a-zA-Z][\w_]*/"); (#"NUMBER", #"/-?[0-9]+(\.[0-9]+)?/");
    (#"STRING", (#"/" ++ [34]%N ++ #"(\\.|[^" ++ [34]%N ++ #"\\])*" ++ [34]%N ++ #"/")); (#"WS", #"/\s+/");
    (#"ML_COMMENT", #"/\/\*[\s\S]*?\*\//"); (#"SL_COMMENT", #"/\/\/[^\n\r]*/") ].

Definition View_KeywordNames : list str :=
  [ #"("; #")"; #","; #"->"; #"."; #":"; #"="; #"accordion"; #"as"; #"auto_refresh"; #"avatar"; #"badge";
    #"bind"; #"bold"; #"button"; #"card"; #"check"; #"color"; #"cols"; #"column"; #"combobox"; #"confirm";
    #"currency"; #"date"; #"daterange"; #"datetime"; #"default"; #"delete"; #"divider"; #"email"; #"exit";
    #"expand"; #"false"; #"file"; #"focus"; #"format"; #"full"; #"gap"; #"grid"; #"heading"; #"href";
    #"icon"; #"italic"; #"item"; #"json"; #"label"; #"lg"; #"link"; #"long"; #"m"; #"max"; #"mb"; #"md";
    #"medium"; #"min"; #"ml"; #"modal"; #"mono"; #"mr"; #"mt"; #"multiselect"; #"mx"; #"my"; #"new";
    #"number"; #"on"; #"on_edit"; #"on_new"; #"on_select"; #"open"; #"over"; #"p"; #"password"; #"pb";
    #"percent"; #"pl"; #"placeholder"; #"plain"; #"pr"; #"progress"; #"pt"; #"px"; #"py"; #"radio";
    #"rangeslider"; #"rating"; #"readonly"; #"refresh"; #"replace"; #"richtext"; #"row"; #"save"; #"scroll";
    #"section"; #"select"; #"sep"; #"short"; #"size"; #"slider"; #"sm"; #"stack"; #"step"; #"subheading";
    #"switch"; #"tab"; #"table"; #"tabs"; #"tags"; #"text"; #"textarea"; #"time"; #"toolbar"; #"true";
    #"view"; #"width"; #"window"; #"xl"; #"xs"; #"{"; #"}" ].

Definition View_AstType : list str :=
  [ #"Accordion"; #"AccordionItem"; #"As"; #"AutoRefresh"; #"Bind"; #"BodyElement"; #"Button"; #"Card";
    #"Cols"; #"Column"; #"ColumnFormat"; #"ColumnModifier"; #"ColumnWidth"; #"Confirm"; #"Divider";
    #"DomainBinding"; #"Expand"; #"FieldRef"; #"FormatToken"; #"Gap"; #"Grid"; #"IconModifier"; #"IconSize";
    #"IconWidget"; #"LayoutMod"; #"LinkWidget"; #"Margin"; #"NavModifier"; #"Padding"; #"RichText";
    #"RichTextSpan"; #"Row"; #"ScrollFlag"; #"Section"; #"Separator"; #"SpacingScale"; #"SpacingToken";
    #"SpacingValue"; #"Stack"; #"Tab"; #"Table"; #"Tabs"; #"ToolbarDelete"; #"ToolbarExit"; #"ToolbarItem";
    #"ToolbarNew"; #"ToolbarRefresh"; #"ToolbarSave"; #"ViewAction"; #"ViewDecl"; #"ViewModel"; #"Widget";
    #"WidgetExpand"; #"WidgetFocus"; #"WidgetFormat"; #"WidgetMax"; #"WidgetMin"; #"WidgetModifier";
    #"WidgetPlaceholder"; #"WidgetReadOnly"; #"WidgetStep" ].

Definition Accordion_interface : Interface :=
  MkInterface #"Accordion"
    [ #"AccordionItem"; #"Card"; #"Grid"; #"Row"; #"Section"; #"Stack"; #"Tab"; #"ViewDecl" ] #"Accordion"
    [ MkTsField #"items" false (TsArray (TsName #"AccordionItem"));
      MkTsField #"mods" false (TsArray (TsName #"LayoutMod")) ].

Definition isAccordion (isInstance : jsval → str → bool) (item : jsval) : bool :=
  isInstance item (table_name Accordion_names #"$type").

Definition AccordionItem_interface : Interface :=
  MkInterface #"AccordionItem" [ #"Accordion" ] #"AccordionItem"
    [ MkTsField #"body" false (TsArray (TsName #"BodyElement")); MkTsField #"caption" false TsString;
      MkTsField #"open" false TsBoolean ].

Definition isAccordionItem (isInstance : jsval → str → bool) (item : jsval) : bool :=
  isInstance item (table_name AccordionItem_names #"$type").

Definition AiHint_interface : Interface :=
  MkInterface #"AiHint" [ #"DomainDecl" ] #"AiHint"
    [ MkTsField #"body" false TsString; MkTsField #"name" false TsString ].

Definition isAiHint (isInstance : jsval → str → bool) (item : jsval) : bool :=
  isInstance item (table_name AiHint_names #"$type").

Definition AliasList_interface : Interface :=
  MkInterface #"AliasList" [ #"DomainDecl" ] #"AliasList"
    [ MkTsField #"values" false (TsArray TsString) ].

Definition isAliasList (isInstance : jsval → str → bool) (item : jsval) : bool :=
  isInstance item (table_name AliasList_names #"$type").

Definition As_interface : Interface :=
  MkInterface #"As" [ #"ToolbarNew"; #"ViewAction" ] #"As"
    [ MkTsField #"target" false (TsName #"PresentationTarget") ].

Definition isAs (isInstance : jsval → str → bool) (item : jsval) : bool :=
  isInstance item (table_name As_names #"$type").

Definition AutoRefresh_interface : Interface :=
  MkInterface #"AutoRefresh" [ #"ViewDecl" ] #"AutoRefresh"
    [ MkTsField #"domain" false (TsName #"IdentName"); MkTsField #"event" false (TsName #"IdentName") ].

Definition isAutoRefresh (isInstance : jsval → str → bool) (item : jsval) : bool :=
  isInstance item (table_name AutoRefresh_names #"$type").

Definition Bind_interface : Interface :=
  MkInterface #"Bind" [ #"ToolbarNew"; #"ViewAction" ] #"Bind"
    [ MkTsField #"source" false (TsName #"FieldRef") ].

Definition isBind (isInstance : jsval → str → bool) (item : jsval) : bool :=
  isInstance item (table_name Bind_names #"$type").

Definition BodyElement_union : NodeUnion :=
  MkNodeUnion #"BodyElement"
    [ #"Accordion"; #"Button"; #"Card"; #"Divider"; #"Grid"; #"IconWidget"; #"LinkWidget"; #"RichText";
      #"Row"; #"Section"; #"Separator"; #"Stack"; #"Table"; #"Tabs"; #"Widget" ].

Definition isBodyElement (isInstance : jsval → str → bool) (item : jsval) : bool :=
  isInstance item (table_name BodyElement_names #"$type").

Definition BoolLit_literals : LiteralUnion :=
  MkLiteralUnion #"BoolLit"
    [ #"false"; #"true" ] None.

Definition isBoolLit (item : jsval) : bool :=
  is_literal [ #"true"; #"false" ] item.

Definition Button_interface : Interface :=
  MkInterface #"Button"
    [ #"AccordionItem"; #"Card"; #"Grid"; #"Row"; #"Section"; #"Stack"; #"Tab"; #"ViewDecl" ] #"Button"
    [ MkTsField #"actionRef" true TsString; MkTsField #"caption" false TsString;
      MkTsField #"mods" false (TsArray (TsName #"LayoutMod")) ].

Definition isButton (isInstance : jsval → str → bool) (item : jsval) : bool :=
  isInstance item (table_name Button_names #"$type").

Definition Card_interface : Interface :=
  MkInterface #"Card"
    [ #"AccordionItem"; #"Card"; #"Grid"; #"Row"; #"Section"; #"Stack"; #"Tab"; #"ViewDecl" ] #"Card"
    [ MkTsField #"body" false (TsArray (TsName #"BodyElement")); MkTsField #"caption" true TsString;
      MkTsField #"mods" false (TsArray (TsName #"LayoutMod")) ].

Definition isCard (isInstance : jsval → str → bool) (item : jsval) : bool :=
  isInstance item (table_name Card_names #"$type").

Definition Cols_interface : Interface :=
  MkInterface #"Cols"
    [ #"Accordion"; #"Button"; #"Card"; #"Grid"; #"IconWidget"; #"LinkWidget"; #"Row"; #"Section"; #"Stack";
      #"Tabs"; #"Widget" ] #"Cols"
    [ MkTsField #"value" false TsNumber ].

Definition isCols (isInstance : jsval → str → bool) (item : jsval) : bool :=
  isInstance item (table_name Cols_names #"$type").

Definition Column_interface : Interface :=
  MkInterface #"Column" [ #"Table" ] #"Column"
    [ MkTsField #"caption" false TsString; MkTsField #"field" false (TsName #"FieldRef");
      MkTsField #"mods" false (TsArray (TsName #"ColumnModifier")) ].

Definition isColumn (isInstance : jsval → str → bool) (item : jsval) : bool :=
  isInstance item (table_name Column_names #"$type").

Definition ColumnFormat_interface : Interface :=
  MkInterface #"ColumnFormat" [ #"Column" ] #"ColumnFormat"
    [ MkTsField #"fmt" false (TsName #"FormatToken") ].

Definition isColumnFormat (isInstance : jsval → str → bool) (item : jsval) : bool :=
  isInstance item (table_name ColumnFormat_names #"$type").

Definition ColumnModifier_union : NodeUnion :=
  MkNodeUnion #"ColumnModifier"
    [ #"ColumnFormat"; #"ColumnWidth" ].

Definition isColumnModifier (isInstance : jsval → str → bool) (item : jsval) : bool :=
  isInstance item (table_name ColumnModifier_names #"$type").

Definition ColumnWidth_interface : Interface :=
  MkInterface #"ColumnWidth" [ #"Column" ] #"ColumnWidth"
    [ MkTsField #"value" false TsNumber ].

Definition isColumnWidth (isInstance : jsval → str → bool) (item : jsval) : bool :=
  isInstance item (table_name ColumnWidth_names #"$type").

Definition Confirm_interface : Interface :=
  MkInterface #"Confirm" [ #"ToolbarNew"; #"ViewAction" ] #"Confirm"
    [ MkTsField #"message" false TsString ].

Definition isConfirm (isInstance : jsval → str → bool) (item : jsval) : bool :=
  isInstance item (table_name Confirm_names #"$type").

Definition Divider_interface : Interface :=
  MkInterface #"Divider"
    [ #"AccordionItem"; #"Card"; #"Grid"; #"Row"; #"Section"; #"Stack"; #"Tab"; #"ViewDecl" ] #"Divider"
    [].

Definition isDivider (isInstance : jsval → str → bool) (item : jsval) : bool :=
  isInstance item (table_name Divider_names #"$type").

Definition DomainBinding_interface : Interface :=
  MkInterface #"DomainBinding" [ #"ViewDecl" ] #"DomainBinding"
    [ MkTsField #"alias" true (TsName #"IdentName"); MkTsField #"name" false TsString ].

Definition isDomainBinding (isInstance : jsval → str → bool) (item : jsval) : bool :=
  isInstance item (table_name DomainBinding_names #"$type").

Definition DomainDecl_interface : Interface :=
  MkInterface #"DomainDecl" [ #"DomainModel" ] #"DomainDecl"
    [ MkTsField #"dsn" false TsString; MkTsField #"members" false (TsArray (TsName #"DomainMember"));
      MkTsField #"name" false TsString; MkTsField #"source" false TsString ].

Definition isDomainDecl (isInstance : jsval → str → bool) (item : jsval) : bool :=
  isInstance item (table_name DomainDecl_names #"$type").

Definition DomainMember_union : NodeUnion :=
  MkNodeUnion #"DomainMember"
    [ #"AiHint"; #"AliasList"; #"Field"; #"Meta"; #"Permission"; #"Relation" ].

Definition isDomainMember (isInstance : jsval → str → bool) (item : jsval) : bool :=
  isInstance item (table_name DomainMember_names #"$type").

Definition DomainModel_interface : Interface :=
  MkInterface #"DomainModel" [] #"DomainModel"
    [ MkTsField #"domain" false (TsName #"DomainDecl") ].

Definition isDomainModel (isInstance : jsval → str → bool) (item : jsval) : bool :=
  isInstance item (table_name DomainModel_names #"$type").

Definition EventSchemaModel_interface : Interface :=
  MkInterface #"EventSchemaModel" [] #"EventSchemaModel"
    [ MkTsField #"eventType" false (TsName #"EventTypeDecl") ].

Definition isEventSchemaModel (isInstance : jsval → str → bool) (item : jsval) : bool :=
  isInstance item (table_name EventSchemaModel_names #"$type").

Definition EventTypeDecl_interface : Interface :=
  MkInterface #"EventTypeDecl" [ #"EventSchemaModel" ] #"EventTypeDecl"
    [ MkTsField #"fields" false (TsArray (TsName #"FieldDecl")); MkTsField #"name" false TsString ].

Definition isEventTypeDecl (isInstance : jsval → str → bool) (item : jsval) : bool :=
  isInstance item (table_name EventTypeDecl_names #"$type").

Definition Example_interface : Interface :=
  MkInterface #"Example" [ #"Field" ] #"Example"
    [ MkTsField #"description" false TsString; MkTsField #"op" false (TsName #"ExampleOp");
      MkTsField #"value" false (TsName #"ExampleValue") ].

Definition isExample (isInstance : jsval → str → bool) (item : jsval) : bool :=
  isInstance item (table_name Example_names #"$type").

Definition ExampleOp_literals : LiteralUnion :=
  MkLiteralUnion #"ExampleOp"
    [ #"eq"; #"ge"; #"gt"; #"in"; #"le"; #"like"; #"lt"; #"ne" ] None.

Definition isExampleOp (item : jsval) : bool :=
  is_literal [ #"eq"; #"ne"; #"lt"; #"le"; #"gt"; #"ge"; #"like"; #"in" ] item.

Definition ExampleValue_union : NodeUnion :=
  MkNodeUnion #"ExampleValue"
    [ #"NumberValue"; #"StringValue" ].

Definition isExampleValue (isInstance : jsval → str → bool) (item : jsval) : bool :=
  isInstance item (table_name ExampleValue_names #"$type").

Definition Expand_interface : Interface :=
  MkInterface #"Expand"
    [ #"Accordion"; #"Button"; #"Card"; #"Grid"; #"IconWidget"; #"LinkWidget"; #"Row"; #"Section"; #"Stack";
      #"Tabs"; #"Widget" ] #"Expand"
    [].

Definition isExpand (isInstance : jsval → str → bool) (item : jsval) : bool :=
  isInstance item (table_name Expand_names #"$type").

Definition Field_interface : Interface :=
  MkInterface #"Field" [ #"DomainDecl" ] #"Field"
    [ MkTsField #"examples" false (TsArray (TsName #"Example"));
      MkTsField #"modifiers" false (TsArray (TsName #"FieldModifier")); MkTsField #"name" false TsString;
      MkTsField #"type" false (TsName #"FieldType") ].

Definition isField (isInstance : jsval → str → bool) (item : jsval) : bool :=
  isInstance item (table_name Field_names #"$type").

Definition FieldDecl_interface : Interface :=
  MkInterface #"FieldDecl" [ #"EventTypeDecl" ] #"FieldDecl"
    [ MkTsField #"name" false TsString; MkTsField #"required" false (TsName #"Required");
      MkTsField #"type" false (TsName #"FieldType") ].

Definition isFieldDecl (isInstance : jsval → str → bool) (item : jsval) : bool :=
  isInstance item (table_name FieldDecl_names #"$type").

Definition FieldModifier_union : NodeUnion :=
  MkNodeUnion #"FieldModifier"
    [ #"Filterable"; #"OptionsRef"; #"ReadOnly" ].

Definition isFieldModifier (isInstance : jsval → str → bool) (item : jsval) : bool :=
  isInstance item (table_name FieldModifier_names #"$type").

Definition FieldRef_interface : Interface :=
  MkInterface #"FieldRef" [ #"Bind"; #"Column"; #"Table"; #"Widget" ] #"FieldRef"
    [ MkTsField #"domain" false (TsName #"IdentName"); MkTsField #"field" false (TsName #"IdentName") ].

Definition isFieldRef (isInstance : jsval → str → bool) (item : jsval) : bool :=
  isInstance item (table_name FieldRef_names #"$type").

Definition FieldType_literals : LiteralUnion :=
  MkLiteralUnion #"FieldType"
    [ #"boolean"; #"date"; #"datetime"; #"number"; #"string" ] None.

Definition isFieldType (item : jsval) : bool :=
  is_literal [ #"string"; #"number"; #"boolean"; #"date"; #"datetime" ] item.

Definition Filterable_interface : Interface :=
  MkInterface #"Filterable" [ #"Field" ] #"Filterable"
    [].

Definition isFilterable (isInstance : jsval → str → bool) (item : jsval) : bool :=
  isInstance item (table_name Filterable_names #"$type").

Definition FormatDetail_literals : LiteralUnion :=
  MkLiteralUnion #"FormatDetail"
    [ #"full"; #"long"; #"medium"; #"short" ] (Some TsNumber).

Definition FormatKind_literals : LiteralUnion :=
  MkLiteralUnion #"FormatKind"
    [ #"currency"; #"date"; #"datetime"; #"number"; #"percent"; #"time" ] None.

Definition isFormatKind (item : jsval) : bool :=
  is_literal [ #"currency"; #"number"; #"percent"; #"datetime"; #"date"; #"time" ] item.

Definition FormatToken_interface : Interface :=
  MkInterface #"FormatToken" [ #"ColumnFormat"; #"WidgetFormat" ] #"FormatToken"
    [ MkTsField #"detail" true (TsName #"FormatDetail"); MkTsField #"kind" false (TsName #"FormatKind") ].

Definition isFormatToken (isInstance : jsval → str → bool) (item : jsval) : bool :=
  isInstance item (table_name FormatToken_names #"$type").

Definition Gap_interface : Interface :=
  MkInterface #"Gap"
    [ #"Accordion"; #"Button"; #"Card"; #"Grid"; #"IconWidget"; #"LinkWidget"; #"Row"; #"Section"; #"Stack";
      #"Tabs"; #"Widget" ] #"Gap"
    [ MkTsField #"value" false (TsName #"SpacingValue") ].

Definition isGap (isInstance : jsval → str → bool) (item : jsval) : bool :=
  isInstance item (table_name Gap_names #"$type").

Definition Grid_interface : Interface :=
  MkInterface #"Grid"
    [ #"AccordionItem"; #"Card"; #"Grid"; #"Row"; #"Section"; #"Stack"; #"Tab"; #"ViewDecl" ] #"Grid"
    [ MkTsField #"body" false (TsArray (TsName #"BodyElement")); MkTsField #"cols" false TsNumber;
      MkTsField #"mods" false (TsArray (TsName #"LayoutMod")) ].

Definition isGrid (isInstance : jsval → str → bool) (item : jsval) : bool :=
  isInstance item (table_name Grid_names #"$type").

Definition IconModifier_union : NodeUnion :=
  MkNodeUnion #"IconModifier"
    [ #"IconSize"; #"LayoutMod" ].

Definition isIconModifier (isInstance : jsval → str → bool) (item : jsval) : bool :=
  isInstance item (table_name IconModifier_names #"$type").

Definition IconSize_interface : Interface :=
  MkInterface #"IconSize" [ #"IconWidget" ] #"IconSize"
    [ MkTsField #"value" false TsNumber ].

Definition isIconSize (isInstance : jsval → str → bool) (item : jsval) : bool :=
  isInstance item (table_name IconSize_names #"$type").

Definition IconWidget_interface : Interface :=
  MkInterface #"IconWidget"
    [ #"AccordionItem"; #"Card"; #"Grid"; #"Row"; #"Section"; #"Stack"; #"Tab"; #"ViewDecl" ] #"IconWidget"
    [ MkTsField #"mods" false (TsArray (TsName #"IconModifier")); MkTsField #"name" false TsString ].

Definition isIconWidget (isInstance : jsval → str → bool) (item : jsval) : bool :=
  isInstance item (table_name IconWidget_names #"$type").

Definition IdentName_literals : LiteralUnion :=
  MkLiteralUnion #"IdentName"
    [ #"avatar"; #"badge"; #"button"; #"check"; #"color"; #"combobox"; #"currency"; #"date"; #"daterange";
      #"datetime"; #"delete"; #"email"; #"exit"; #"expand"; #"file"; #"full"; #"href"; #"icon"; #"json";
      #"label"; #"link"; #"long"; #"m"; #"mb"; #"medium"; #"ml"; #"mr"; #"mt"; #"multiselect"; #"mx"; #"my";
      #"new"; #"number"; #"on_edit"; #"on_new"; #"on_select"; #"open"; #"p"; #"password"; #"pb"; #"percent";
      #"pl"; #"pr"; #"progress"; #"pt"; #"px"; #"py"; #"radio"; #"rangeslider"; #"rating"; #"save";
      #"select"; #"short"; #"slider"; #"switch"; #"tags"; #"text"; #"textarea"; #"time" ] (Some TsString).

Definition isIdentName (item : jsval) : bool :=
  is_literal [ #"p"; #"pt"; #"pb"; #"pl"; #"pr"; #"px"; #"py"; #"m"; #"mt"; #"mb"; #"ml"; #"mr"; #"mx";
               #"my"; #"text"; #"textarea"; #"number"; #"password"; #"email"; #"date"; #"daterange";
               #"time"; #"select"; #"multiselect"; #"combobox"; #"radio"; #"check"; #"switch"; #"slider";
               #"rangeslider"; #"rating"; #"color"; #"file"; #"progress"; #"badge"; #"avatar"; #"tags";
               #"json"; #"currency"; #"percent"; #"datetime"; #"save"; #"delete"; #"exit"; #"new"; #"open";
               #"expand"; #"link"; #"icon"; #"button"; #"label"; #"href"; #"short"; #"medium"; #"long";
               #"full"; #"on_select"; #"on_new"; #"on_edit"; #"string" ] item ||
  match item with VStr s => existsb (λ c, is_lower c || is_upper c || (c =? 95)%N) s | _ => false end.

Definition LayoutMod_union : NodeUnion :=
  MkNodeUnion #"LayoutMod"
    [ #"Cols"; #"Expand"; #"Gap"; #"Margin"; #"Padding"; #"ScrollFlag" ].

Definition isLayoutMod (isInstance : jsval → str → bool) (item : jsval) : bool :=
  isInstance item (table_name LayoutMod_names #"$type").

Definition LinkWidget_interface : Interface :=
  MkInterface #"LinkWidget"
    [ #"AccordionItem"; #"Card"; #"Grid"; #"Row"; #"Section"; #"Stack"; #"Tab"; #"ViewDecl" ] #"LinkWidget"
    [ MkTsField #"caption" false TsString; MkTsField #"href" false TsString;
      MkTsField #"mods" false (TsArray (TsName #"LayoutMod")) ].

Definition isLinkWidget (isInstance : jsval → str → bool) (item : jsval) : bool :=
  isInstance item (table_name LinkWidget_names #"$type").

Definition Margin_interface : Interface :=
  MkInterface #"Margin"
    [ #"Accordion"; #"Button"; #"Card"; #"Grid"; #"IconWidget"; #"LinkWidget"; #"Row"; #"Section"; #"Stack";
      #"Tabs"; #"Widget" ] #"Margin"
    [ MkTsField #"prop" false (TsName #"MarginProp"); MkTsField #"value" false (TsName #"SpacingValue") ].

Definition isMargin (isInstance : jsval → str → bool) (item : jsval) : bool :=
  isInstance item (table_name Margin_names #"$type").

Definition MarginProp_literals : LiteralUnion :=
  MkLiteralUnion #"MarginProp"
    [ #"m"; #"mb"; #"ml"; #"mr"; #"mt"; #"mx"; #"my" ] None.

Definition isMarginProp (item : jsval) : bool :=
  is_literal [ #"m"; #"mt"; #"mb"; #"ml"; #"mr"; #"mx"; #"my" ] item.

Definition Meta_interface : Interface :=
  MkInterface #"Meta" [ #"DomainDecl" ] #"Meta"
    [ MkTsField #"dsn" true TsString; MkTsField #"labelField" false TsString;
      MkTsField #"name" false TsString; MkTsField #"orderBy" true TsString;
      MkTsField #"table" false TsString; MkTsField #"valueField" false TsString ].

Definition isMeta (isInstance : jsval → str → bool) (item : jsval) : bool :=
  isInstance item (table_name Meta_names #"$type").

Definition NavModifier_union : NodeUnion :=
  MkNodeUnion #"NavModifier"
    [ #"As"; #"Bind"; #"Confirm" ].

Definition isNavModifier (isInstance : jsval → str → bool) (item : jsval) : bool :=
  isInstance item (table_name NavModifier_names #"$type").

Definition NumberValue_interface : Interface :=
  MkInterface #"NumberValue" [ #"Example" ] #"NumberValue"
    [ MkTsField #"value" false TsNumber ].

Definition isNumberValue (isInstance : jsval → str → bool) (item : jsval) : bool :=
  isInstance item (table_name NumberValue_names #"$type").

Definition OptionsRef_interface : Interface :=
  MkInterface #"OptionsRef" [ #"Field" ] #"OptionsRef"
    [ MkTsField #"meta" false (TsReference #"Meta") ].

Definition isOptionsRef (isInstance : jsval → str → bool) (item : jsval) : bool :=
  isInstance item (table_name OptionsRef_names #"$type").

Definition Padding_interface : Interface :=
  MkInterface #"Padding"
    [ #"Accordion"; #"Button"; #"Card"; #"Grid"; #"IconWidget"; #"LinkWidget"; #"Row"; #"Section"; #"Stack";
      #"Tabs"; #"Widget" ] #"Padding"
    [ MkTsField #"prop" false (TsName #"PaddingProp"); MkTsField #"value" false (TsName #"SpacingValue") ].

Definition isPadding (isInstance : jsval → str → bool) (item : jsval) : bool :=
  isInstance item (table_name Padding_names #"$type").

Definition PaddingProp_literals : LiteralUnion :=
  MkLiteralUnion #"PaddingProp"
    [ #"p"; #"pb"; #"pl"; #"pr"; #"pt"; #"px"; #"py" ] None.

Definition isPaddingProp (item : jsval) : bool :=
  is_literal [ #"p"; #"pt"; #"pb"; #"pl"; #"pr"; #"px"; #"py" ] item.

Definition Permission_interface : Interface :=
  MkInterface #"Permission" [ #"DomainDecl" ] #"Permission"
    [ MkTsField #"actions" false (TsArray (TsName #"PermissionAction")); MkTsField #"role" false TsString ].

Definition isPermission (isInstance : jsval → str → bool) (item : jsval) : bool :=
  isInstance item (table_name Permission_names #"$type").

Definition PermissionAction_literals : LiteralUnion :=
  MkLiteralUnion #"PermissionAction"
    [ #"delete"; #"read"; #"write" ] None.

Definition isPermissionAction (item : jsval) : bool :=
  is_literal [ #"read"; #"write"; #"delete" ] item.

Definition PresentationTarget_literals : LiteralUnion :=
  MkLiteralUnion #"PresentationTarget"
    [ #"modal"; #"replace"; #"tab"; #"window" ] None.

Definition isPresentationTarget (item : jsval) : bool :=
  is_literal [ #"tab"; #"modal"; #"window"; #"replace" ] item.

Definition ReadOnly_interface : Interface :=
  MkInterface #"ReadOnly" [ #"Field" ] #"ReadOnly"
    [].

Definition isReadOnly (isInstance : jsval → str → bool) (item : jsval) : bool :=
  isInstance item (table_name ReadOnly_names #"$type").

Definition Relation_interface : Interface :=
  MkInterface #"Relation" [ #"DomainDecl" ] #"Relation"
    [ MkTsField #"foreignField" false TsString; MkTsField #"kind" false (TsName #"RelationKind");
      MkTsField #"localField" false TsString; MkTsField #"name" false TsString;
      MkTsField #"target" false TsString ].

Definition isRelation (isInstance : jsval → str → bool) (item : jsval) : bool :=
  isInstance item (table_name Relation_names #"$type").

Definition RelationKind_literals : LiteralUnion :=
  MkLiteralUnion #"RelationKind"
    [ #"belongs_to"; #"has_many"; #"has_one" ] None.

Definition isRelationKind (item : jsval) : bool :=
  is_literal [ #"has_many"; #"has_one"; #"belongs_to" ] item.

Definition Required_literals : LiteralUnion :=
  MkLiteralUnion #"Required"
    [] (Some TsBoolean).

Definition isRequired (item : jsval) : bool := match item with VBool _ => true | _ => false end.

Definition RichText_interface : Interface :=
  MkInterface #"RichText"
    [ #"AccordionItem"; #"Card"; #"Grid"; #"Row"; #"Section"; #"Stack"; #"Tab"; #"ViewDecl" ] #"RichText"
    [ MkTsField #"spans" false (TsArray (TsName #"RichTextSpan")) ].

Definition isRichText (isInstance : jsval → str → bool) (item : jsval) : bool :=
  isInstance item (table_name RichText_names #"$type").

Definition RichTextSpan_interface : Interface :=
  MkInterface #"RichTextSpan" [ #"RichText" ] #"RichTextSpan"
    [ MkTsField #"style" false (TsName #"RichTextStyle"); MkTsField #"text" false TsString ].

Definition isRichTextSpan (isInstance : jsval → str → bool) (item : jsval) : bool :=
  isInstance item (table_name RichTextSpan_names #"$type").

Definition RichTextStyle_literals : LiteralUnion :=
  MkLiteralUnion #"RichTextStyle"
    [ #"bold"; #"heading"; #"italic"; #"mono"; #"plain"; #"subheading" ] None.

Definition isRichTextStyle (item : jsval) : bool :=
  is_literal [ #"plain"; #"bold"; #"italic"; #"heading"; #"subheading"; #"mono" ] item.

Definition Row_interface : Interface :=
  MkInterface #"Row"
    [ #"AccordionItem"; #"Card"; #"Grid"; #"Row"; #"Section"; #"Stack"; #"Tab"; #"ViewDecl" ] #"Row"
    [ MkTsField #"body" false (TsArray (TsName #"BodyElement"));
      MkTsField #"mods" false (TsArray (TsName #"LayoutMod")) ].

Definition isRow (isInstance : jsval → str → bool) (item : jsval) : bool :=
  isInstance item (table_name Row_names #"$type").

Definition ScrollFlag_interface : Interface :=
  MkInterface #"ScrollFlag"
    [ #"Accordion"; #"Button"; #"Card"; #"Grid"; #"IconWidget"; #"LinkWidget"; #"Row"; #"Section"; #"Stack";
      #"Tabs"; #"Widget" ] #"ScrollFlag"
    [ MkTsField #"scroll" false (TsName #"BoolLit") ].

Definition isScrollFlag (isInstance : jsval → str → bool) (item : jsval) : bool :=
  isInstance item (table_name ScrollFlag_names #"$type").

Definition Section_interface : Interface :=
  MkInterface #"Section"
    [ #"AccordionItem"; #"Card"; #"Grid"; #"Row"; #"Section"; #"Stack"; #"Tab"; #"ViewDecl" ] #"Section"
    [ MkTsField #"body" false (TsArray (TsName #"BodyElement")); MkTsField #"caption" true TsString;
      MkTsField #"mods" false (TsArray (TsName #"LayoutMod")) ].

Definition isSection (isInstance : jsval → str → bool) (item : jsval) : bool :=
  isInstance item (table_name Section_names #"$type").

Definition Separator_interface : Interface :=
  MkInterface #"Separator"
    [ #"AccordionItem"; #"Card"; #"Grid"; #"Row"; #"Section"; #"Stack"; #"Tab"; #"ViewDecl" ] #"Separator"
    [].

Definition isSeparator (isInstance : jsval → str → bool) (item : jsval) : bool :=
  isInstance item (table_name Separator_names #"$type").

Definition SpacingScale_interface : Interface :=
  MkInterface #"SpacingScale" [ #"Gap"; #"Margin"; #"Padding" ] #"SpacingScale"
    [ MkTsField #"value" false TsNumber ].

Definition isSpacingScale (isInstance : jsval → str → bool) (item : jsval) : bool :=
  isInstance item (table_name SpacingScale_names #"$type").

Definition SpacingToken_interface : Interface :=
  MkInterface #"SpacingToken" [ #"Gap"; #"Margin"; #"Padding" ] #"SpacingToken"
    [ MkTsField #"token" false (TsName #"SpacingTokenName") ].

Definition isSpacingToken (isInstance : jsval → str → bool) (item : jsval) : bool :=
  isInstance item (table_name SpacingToken_names #"$type").

Definition SpacingTokenName_literals : LiteralUnion :=
  MkLiteralUnion #"SpacingTokenName"
    [ #"lg"; #"md"; #"sm"; #"xl"; #"xs" ] None.

Definition isSpacingTokenName (item : jsval) : bool :=
  is_literal [ #"xs"; #"sm"; #"md"; #"lg"; #"xl" ] item.

Definition SpacingValue_union : NodeUnion :=
  MkNodeUnion #"SpacingValue"
    [ #"SpacingScale"; #"SpacingToken" ].

Definition isSpacingValue (isInstance : jsval → str → bool) (item : jsval) : bool :=
  isInstance item (table_name SpacingValue_names #"$type").

Definition Stack_interface : Interface :=
  MkInterface #"Stack"
    [ #"AccordionItem"; #"Card"; #"Grid"; #"Row"; #"Section"; #"Stack"; #"Tab"; #"ViewDecl" ] #"Stack"
    [ MkTsField #"body" false (TsArray (TsName #"BodyElement"));
      MkTsField #"mods" false (TsArray (TsName #"LayoutMod")) ].

Definition isStack (isInstance : jsval → str → bool) (item : jsval) : bool :=
  isInstance item (table_name Stack_names #"$type").

Definition StringValue_interface : Interface :=
  MkInterface #"StringValue" [ #"Example" ] #"StringValue"
    [ MkTsField #"value" false TsString ].

Definition isStringValue (isInstance : jsval → str → bool) (item : jsval) : bool :=
  isInstance item (table_name StringValue_names #"$type").

Definition Tab_interface : Interface :=
  MkInterface #"Tab" [ #"Tabs" ] #"Tab"
    [ MkTsField #"body" false (TsArray (TsName #"BodyElement")); MkTsField #"caption" false TsString ].

Definition isTab (isInstance : jsval → str → bool) (item : jsval) : bool :=
  isInstance item (table_name Tab_names #"$type").

Definition Table_interface : Interface :=
  MkInterface #"Table"
    [ #"AccordionItem"; #"Card"; #"Grid"; #"Row"; #"Section"; #"Stack"; #"Tab"; #"ViewDecl" ] #"Table"
    [ MkTsField #"actions" false (TsArray (TsName #"ViewAction"));
      MkTsField #"columns" false (TsArray (TsName #"Column"));
      MkTsField #"rowSource" false (TsName #"FieldRef") ].

Definition isTable (isInstance : jsval → str → bool) (item : jsval) : bool :=
  isInstance item (table_name Table_names #"$type").

Definition Tabs_interface : Interface :=
  MkInterface #"Tabs"
    [ #"AccordionItem"; #"Card"; #"Grid"; #"Row"; #"Section"; #"Stack"; #"Tab"; #"ViewDecl" ] #"Tabs"
    [ MkTsField #"mods" false (TsArray (TsName #"LayoutMod"));
      MkTsField #"tabs" false (TsArray (TsName #"Tab")) ].

Definition isTabs (isInstance : jsval → str → bool) (item : jsval) : bool :=
  isInstance item (table_name Tabs_names #"$type").

Definition ToolbarDelete_interface : Interface :=
  MkInterface #"ToolbarDelete" [ #"ViewDecl" ] #"ToolbarDelete"
    [ MkTsField #"confirm" true TsString ].

Definition isToolbarDelete (isInstance : jsval → str → bool) (item : jsval) : bool :=
  isInstance item (table_name ToolbarDelete_names #"$type").

Definition ToolbarExit_interface : Interface :=
  MkInterface #"ToolbarExit" [ #"ViewDecl" ] #"ToolbarExit"
    [].

Definition isToolbarExit (isInstance : jsval → str → bool) (item : jsval) : bool :=
  isInstance item (table_name ToolbarExit_names #"$type").

Definition ToolbarItem_union : NodeUnion :=
  MkNodeUnion #"ToolbarItem"
    [ #"ToolbarDelete"; #"ToolbarExit"; #"ToolbarNew"; #"ToolbarRefresh"; #"ToolbarSave" ].

Definition isToolbarItem (isInstance : jsval → str → bool) (item : jsval) : bool :=
  isInstance item (table_name ToolbarItem_names #"$type").

Definition ToolbarNew_interface : Interface :=
  MkInterface #"ToolbarNew" [ #"ViewDecl" ] #"ToolbarNew"
    [ MkTsField #"caption" false TsString; MkTsField #"navMods" false (TsArray (TsName #"NavModifier"));
      MkTsField #"target" false TsString ].

Definition isToolbarNew (isInstance : jsval → str → bool) (item : jsval) : bool :=
  isInstance item (table_name ToolbarNew_names #"$type").

Definition ToolbarRefresh_interface : Interface :=
  MkInterface #"ToolbarRefresh" [ #"ViewDecl" ] #"ToolbarRefresh"
    [ MkTsField #"caption" true TsString ].

Definition isToolbarRefresh (isInstance : jsval → str → bool) (item : jsval) : bool :=
  isInstance item (table_name ToolbarRefresh_names #"$type").

Definition ToolbarSave_interface : Interface :=
  MkInterface #"ToolbarSave" [ #"ViewDecl" ] #"ToolbarSave"
    [].

Definition isToolbarSave (isInstance : jsval → str → bool) (item : jsval) : bool :=
  isInstance item (table_name ToolbarSave_names #"$type").

Definition ViewAction_interface : Interface :=
  MkInterface #"ViewAction" [ #"Table" ] #"ViewAction"
    [ MkTsField #"event" false (TsName #"ViewActionEvent");
      MkTsField #"navMods" false (TsArray (TsName #"NavModifier")); MkTsField #"target" false TsString ].

Definition isViewAction (isInstance : jsval → str → bool) (item : jsval) : bool :=
  isInstance item (table_name ViewAction_names #"$type").

Definition ViewActionEvent_literals : LiteralUnion :=
  MkLiteralUnion #"ViewActionEvent"
    [ #"on_edit"; #"on_new"; #"on_select" ] None.

Definition isViewActionEvent (item : jsval) : bool :=
  is_literal [ #"on_select"; #"on_new"; #"on_edit" ] item.

Definition ViewDecl_interface : Interface :=
  MkInterface #"ViewDecl" [ #"ViewModel" ] #"ViewDecl"
    [ MkTsField #"autoRefresh" true (TsName #"AutoRefresh");
      MkTsField #"body" false (TsArray (TsName #"BodyElement")); MkTsField #"default" false TsBoolean;
      MkTsField #"domains" false (TsArray (TsName #"DomainBinding")); MkTsField #"name" false TsString;
      MkTsField #"title" false TsString; MkTsField #"toolbar" false (TsArray (TsName #"ToolbarItem")) ].

Definition isViewDecl (isInstance : jsval → str → bool) (item : jsval) : bool :=
  isInstance item (table_name ViewDecl_names #"$type").

Definition ViewModel_interface : Interface :=
  MkInterface #"ViewModel" [] #"ViewModel"
    [ MkTsField #"view" false (TsName #"ViewDecl") ].

Definition isViewModel (isInstance : jsval → str → bool) (item : jsval) : bool :=
  isInstance item (table_name ViewModel_names #"$type").

Definition Widget_interface : Interface :=
  MkInterface #"Widget"
    [ #"AccordionItem"; #"Card"; #"Grid"; #"Row"; #"Section"; #"Stack"; #"Tab"; #"ViewDecl" ] #"Widget"
    [ MkTsField #"bind" false (TsName #"FieldRef"); MkTsField #"caption" true TsString;
      MkTsField #"kind" false (TsName #"WidgetKind");
      MkTsField #"mods" false (TsArray (TsName #"WidgetModifier")) ].

Definition isWidget (isInstance : jsval → str → bool) (item : jsval) : bool :=
  isInstance item (table_name Widget_names #"$type").

Definition WidgetExpand_interface : Interface :=
  MkInterface #"WidgetExpand" [ #"Widget" ] #"WidgetExpand"
    [].

Definition isWidgetExpand (isInstance : jsval → str → bool) (item : jsval) : bool :=
  isInstance item (table_name WidgetExpand_names #"$type").

Definition WidgetFocus_interface : Interface :=
  MkInterface #"WidgetFocus" [ #"Widget" ] #"WidgetFocus"
    [].

Definition isWidgetFocus (isInstance : jsval → str → bool) (item : jsval) : bool :=
  isInstance item (table_name WidgetFocus_names #"$type").

Definition WidgetFormat_interface : Interface :=
  MkInterface #"WidgetFormat" [ #"Widget" ] #"WidgetFormat"
    [ MkTsField #"fmt" false (TsName #"FormatToken") ].

Definition isWidgetFormat (isInstance : jsval → str → bool) (item : jsval) : bool :=
  isInstance item (table_name WidgetFormat_names #"$type").

Definition WidgetKind_literals : LiteralUnion :=
  MkLiteralUnion #"WidgetKind"
    [ #"avatar"; #"badge"; #"check"; #"color"; #"combobox"; #"date"; #"daterange"; #"email"; #"file";
      #"multiselect"; #"number"; #"password"; #"progress"; #"radio"; #"rangeslider"; #"rating"; #"select";
      #"slider"; #"switch"; #"text"; #"textarea"; #"time" ] None.

Definition isWidgetKind (item : jsval) : bool :=
  is_literal [ #"text"; #"textarea"; #"number"; #"password"; #"email"; #"date"; #"daterange"; #"time";
               #"select"; #"multiselect"; #"combobox"; #"radio"; #"check"; #"switch"; #"slider";
               #"rangeslider"; #"rating"; #"color"; #"file"; #"progress"; #"badge"; #"avatar" ] item.

Definition WidgetMax_interface : Interface :=
  MkInterface #"WidgetMax" [ #"Widget" ] #"WidgetMax"
    [ MkTsField #"value" false TsNumber ].

Definition isWidgetMax (isInstance : jsval → str → bool) (item : jsval) : bool :=
  isInstance item (table_name WidgetMax_names #"$type").

Definition WidgetMin_interface : Interface :=
  MkInterface #"WidgetMin" [ #"Widget" ] #"WidgetMin"
    [ MkTsField #"value" false TsNumber ].

Definition isWidgetMin (isInstance : jsval → str → bool) (item : jsval) : bool :=
  isInstance item (table_name WidgetMin_names #"$type").

Definition WidgetModifier_union : NodeUnion :=
  MkNodeUnion #"WidgetModifier"
    [ #"LayoutMod"; #"WidgetExpand"; #"WidgetFocus"; #"WidgetFormat"; #"WidgetMax"; #"WidgetMin";
      #"WidgetPlaceholder"; #"WidgetReadOnly"; #"WidgetStep" ].

Definition isWidgetModifier (isInstance : jsval → str → bool) (item : jsval) : bool :=
  isInstance item (table_name WidgetModifier_names #"$type").

Definition WidgetPlaceholder_interface : Interface :=
  MkInterface #"WidgetPlaceholder" [ #"Widget" ] #"WidgetPlaceholder"
    [ MkTsField #"value" false TsString ].

Definition isWidgetPlaceholder (isInstance : jsval → str → bool) (item : jsval) : bool :=
  isInstance item (table_name WidgetPlaceholder_names #"$type").

Definition WidgetReadOnly_interface : Interface :=
  MkInterface #"WidgetReadOnly" [ #"Widget" ] #"WidgetReadOnly"
    [].

Definition isWidgetReadOnly (isInstance : jsval → str → bool) (item : jsval) : bool :=
  isInstance item (table_name WidgetReadOnly_names #"$type").

Definition WidgetStep_interface : Interface :=
  MkInterface #"WidgetStep" [ #"Widget" ] #"WidgetStep"
    [ MkTsField #"value" false TsNumber ].

Definition isWidgetStep (isInstance : jsval → str → bool) (item : jsval) : bool :=
  isInstance item (table_name WidgetStep_names #"$type").

Definition Accordion_meta : TypeMeta :=
  MkTypeMeta (table_name Accordion_names #"$type")
    [ (#"items", MkProperty (table_name Accordion_names #"items") (Some DefaultArray) None);
      (#"mods", MkProperty (table_name Accordion_names #"mods") (Some DefaultArray) None) ]
    [ table_name BodyElement_names #"$type" ].

Definition AccordionItem_meta : TypeMeta :=
  MkTypeMeta (table_name AccordionItem_names #"$type")
    [ (#"body", MkProperty (table_name AccordionItem_names #"body") (Some DefaultArray) None);
      (#"caption", MkProperty (table_name AccordionItem_names #"caption") None None);
      (#"open", MkProperty (table_name AccordionItem_names #"open") (Some DefaultFalse) None) ]
    [].

Definition AiHint_meta : TypeMeta :=
  MkTypeMeta (table_name AiHint_names #"$type")
    [ (#"body", MkProperty (table_name AiHint_names #"body") None None);
      (#"name", MkProperty (table_name AiHint_names #"name") None None) ]
    [ table_name DomainMember_names #"$type" ].

Definition AliasList_meta : TypeMeta :=
  MkTypeMeta (table_name AliasList_names #"$type")
    [ (#"values", MkProperty (table_name AliasList_names #"values") (Some DefaultArray) None) ]
    [ table_name DomainMember_names #"$type" ].

Definition As_meta : TypeMeta :=
  MkTypeMeta (table_name As_names #"$type")
    [ (#"target", MkProperty (table_name As_names #"target") None None) ]
    [ table_name NavModifier_names #"$type" ].

Definition AutoRefresh_meta : TypeMeta :=
  MkTypeMeta (table_name AutoRefresh_names #"$type")
    [ (#"domain", MkProperty (table_name AutoRefresh_names #"domain") None None);
      (#"event", MkProperty (table_name AutoRefresh_names #"event") None None) ]
    [].

Definition Bind_meta : TypeMeta :=
  MkTypeMeta (table_name Bind_names #"$type")
    [ (#"source", MkProperty (table_name Bind_names #"source") None None) ]
    [ table_name NavModifier_names #"$type" ].

Definition BodyElement_meta : TypeMeta :=
  MkTypeMeta (table_name BodyElement_names #"$type")
    []
    [].

Definition Button_meta : TypeMeta :=
  MkTypeMeta (table_name Button_names #"$type")
    [ (#"actionRef", MkProperty (table_name Button_names #"actionRef") None None);
      (#"caption", MkProperty (table_name Button_names #"caption") None None);
      (#"mods", MkProperty (table_name Button_names #"mods") (Some DefaultArray) None) ]
    [ table_name BodyElement_names #"$type" ].

Definition Card_meta : TypeMeta :=
  MkTypeMeta (table_name Card_names #"$type")
    [ (#"body", MkProperty (table_name Card_names #"body") (Some DefaultArray) None);
      (#"caption", MkProperty (table_name Card_names #"caption") None None);
      (#"mods", MkProperty (table_name Card_names #"mods") (Some DefaultArray) None) ]
    [ table_name BodyElement_names #"$type" ].

Definition Cols_meta : TypeMeta :=
  MkTypeMeta (table_name Cols_names #"$type")
    [ (#"value", MkProperty (table_name Cols_names #"value") None None) ]
    [ table_name LayoutMod_names #"$type" ].

Definition Column_meta : TypeMeta :=
  MkTypeMeta (table_name Column_names #"$type")
    [ (#"caption", MkProperty (table_name Column_names #"caption") None None);
      (#"field", MkProperty (table_name Column_names #"field") None None);
      (#"mods", MkProperty (table_name Column_names #"mods") (Some DefaultArray) None) ]
    [].

Definition ColumnFormat_meta : TypeMeta :=
  MkTypeMeta (table_name ColumnFormat_names #"$type")
    [ (#"fmt", MkProperty (table_name ColumnFormat_names #"fmt") None None) ]
    [ table_name ColumnModifier_names #"$type" ].

Definition ColumnModifier_meta : TypeMeta :=
  MkTypeMeta (table_name ColumnModifier_names #"$type")
    []
    [].

Definition ColumnWidth_meta : TypeMeta :=
  MkTypeMeta (table_name ColumnWidth_names #"$type")
    [ (#"value", MkProperty (table_name ColumnWidth_names #"value") None None) ]
    [ table_name ColumnModifier_names #"$type" ].

Definition Confirm_meta : TypeMeta :=
  MkTypeMeta (table_name Confirm_names #"$type")
    [ (#"message", MkProperty (table_name Confirm_names #"message") None None) ]
    [ table_name NavModifier_names #"$type" ].

Definition Divider_meta : TypeMeta :=
  MkTypeMeta (table_name Divider_names #"$type")
    []
    [ table_name BodyElement_names #"$type" ].

Definition DomainBinding_meta : TypeMeta :=
  MkTypeMeta (table_name DomainBinding_names #"$type")
    [ (#"alias", MkProperty (table_name DomainBinding_names #"alias") None None);
      (#"name", MkProperty (table_name DomainBinding_names #"name") None None) ]
    [].

Definition DomainDecl_meta : TypeMeta :=
  MkTypeMeta (table_name DomainDecl_names #"$type")
    [ (#"dsn", MkProperty (table_name DomainDecl_names #"dsn") None None);
      (#"members", MkProperty (table_name DomainDecl_names #"members") (Some DefaultArray) None);
      (#"name", MkProperty (table_name DomainDecl_names #"name") None None);
      (#"source", MkProperty (table_name DomainDecl_names #"source") None None) ]
    [].

Definition DomainMember_meta : TypeMeta :=
  MkTypeMeta (table_name DomainMember_names #"$type")
    []
    [].

Definition DomainModel_meta : TypeMeta :=
  MkTypeMeta (table_name DomainModel_names #"$type")
    [ (#"domain", MkProperty (table_name DomainModel_names #"domain") None None) ]
    [].

Definition EventSchemaModel_meta : TypeMeta :=
  MkTypeMeta (table_name EventSchemaModel_names #"$type")
    [ (#"eventType", MkProperty (table_name EventSchemaModel_names #"eventType") None None) ]
    [].

Definition EventTypeDecl_meta : TypeMeta :=
  MkTypeMeta (table_name EventTypeDecl_names #"$type")
    [ (#"fields", MkProperty (table_name EventTypeDecl_names #"fields") (Some DefaultArray) None);
      (#"name", MkProperty (table_name EventTypeDecl_names #"name") None None) ]
    [].

Definition Example_meta : TypeMeta :=
  MkTypeMeta (table_name Example_names #"$type")
    [ (#"description", MkProperty (table_name Example_names #"description") None None);
      (#"op", MkProperty (table_name Example_names #"op") None None);
      (#"value", MkProperty (table_name Example_names #"value") None None) ]
    [].

Definition ExampleValue_meta : TypeMeta :=
  MkTypeMeta (table_name ExampleValue_names #"$type")
    []
    [].

Definition Expand_meta : TypeMeta :=
  MkTypeMeta (table_name Expand_names #"$type")
    []
    [ table_name LayoutMod_names #"$type" ].

Definition Field_meta : TypeMeta :=
  MkTypeMeta (table_name Field_names #"$type")
    [ (#"examples", MkProperty (table_name Field_names #"examples") (Some DefaultArray) None);
      (#"modifiers", MkProperty (table_name Field_names #"modifiers") (Some DefaultArray) None);
      (#"name", MkProperty (table_name Field_names #"name") None None);
      (#"type", MkProperty (table_name Field_names #"type") None None) ]
    [ table_name DomainMember_names #"$type" ].

Definition FieldDecl_meta : TypeMeta :=
  MkTypeMeta (table_name FieldDecl_names #"$type")
    [ (#"name", MkProperty (table_name FieldDecl_names #"name") None None);
      (#"required", MkProperty (table_name FieldDecl_names #"required") None None);
      (#"type", MkProperty (table_name FieldDecl_names #"type") None None) ]
    [].

Definition FieldModifier_meta : TypeMeta :=
  MkTypeMeta (table_name FieldModifier_names #"$type")
    []
    [].

Definition FieldRef_meta : TypeMeta :=
  MkTypeMeta (table_name FieldRef_names #"$type")
    [ (#"domain", MkProperty (table_name FieldRef_names #"domain") None None);
      (#"field", MkProperty (table_name FieldRef_names #"field") None None) ]
    [].

Definition Filterable_meta : TypeMeta :=
  MkTypeMeta (table_name Filterable_names #"$type")
    []
    [ table_name FieldModifier_names #"$type" ].

Definition FormatToken_meta : TypeMeta :=
  MkTypeMeta (table_name FormatToken_names #"$type")
    [ (#"detail", MkProperty (table_name FormatToken_names #"detail") None None);
      (#"kind", MkProperty (table_name FormatToken_names #"kind") None None) ]
    [].

Definition Gap_meta : TypeMeta :=
  MkTypeMeta (table_name Gap_names #"$type")
    [ (#"value", MkProperty (table_name Gap_names #"value") None None) ]
    [ table_name LayoutMod_names #"$type" ].

Definition Grid_meta : TypeMeta :=
  MkTypeMeta (table_name Grid_names #"$type")
    [ (#"body", MkProperty (table_name Grid_names #"body") (Some DefaultArray) None);
      (#"cols", MkProperty (table_name Grid_names #"cols") None None);
      (#"mods", MkProperty (table_name Grid_names #"mods") (Some DefaultArray) None) ]
    [ table_name BodyElement_names #"$type" ].

Definition IconModifier_meta : TypeMeta :=
  MkTypeMeta (table_name IconModifier_names #"$type")
    []
    [].

Definition IconSize_meta : TypeMeta :=
  MkTypeMeta (table_name IconSize_names #"$type")
    [ (#"value", MkProperty (table_name IconSize_names #"value") None None) ]
    [ table_name IconModifier_names #"$type" ].

Definition IconWidget_meta : TypeMeta :=
  MkTypeMeta (table_name IconWidget_names #"$type")
    [ (#"mods", MkProperty (table_name IconWidget_names #"mods") (Some DefaultArray) None);
      (#"name", MkProperty (table_name IconWidget_names #"name") None None) ]
    [ table_name BodyElement_names #"$type" ].

Definition LayoutMod_meta : TypeMeta :=
  MkTypeMeta (table_name LayoutMod_names #"$type")
    []
    [ table_name IconModifier_names #"$type"; table_name WidgetModifier_names #"$type" ].

Definition LinkWidget_meta : TypeMeta :=
  MkTypeMeta (table_name LinkWidget_names #"$type")
    [ (#"caption", MkProperty (table_name LinkWidget_names #"caption") None None);
      (#"href", MkProperty (table_name LinkWidget_names #"href") None None);
      (#"mods", MkProperty (table_name LinkWidget_names #"mods") (Some DefaultArray) None) ]
    [ table_name BodyElement_names #"$type" ].

Definition Margin_meta : TypeMeta :=
  MkTypeMeta (table_name Margin_names #"$type")
    [ (#"prop", MkProperty (table_name Margin_names #"prop") None None);
      (#"value", MkProperty (table_name Margin_names #"value") None None) ]
    [ table_name LayoutMod_names #"$type" ].

Definition Meta_meta : TypeMeta :=
  MkTypeMeta (table_name Meta_names #"$type")
    [ (#"dsn", MkProperty (table_name Meta_names #"dsn") None None);
      (#"labelField", MkProperty (table_name Meta_names #"labelField") None None);
      (#"name", MkProperty (table_name Meta_names #"name") None None);
      (#"orderBy", MkProperty (table_name Meta_names #"orderBy") None None);
      (#"table", MkProperty (table_name Meta_names #"table") None None);
      (#"valueField", MkProperty (table_name Meta_names #"valueField") None None) ]
    [ table_name DomainMember_names #"$type" ].

Definition NavModifier_meta : TypeMeta :=
  MkTypeMeta (table_name NavModifier_names #"$type")
    []
    [].

Definition NumberValue_meta : TypeMeta :=
  MkTypeMeta (table_name NumberValue_names #"$type")
    [ (#"value", MkProperty (table_name NumberValue_names #"value") None None) ]
    [ table_name ExampleValue_names #"$type" ].

Definition OptionsRef_meta : TypeMeta :=
  MkTypeMeta (table_name OptionsRef_names #"$type")
    [ (#"meta", MkProperty (table_name OptionsRef_names #"meta") None (Some (table_name Meta_names #"$type"))) ]
    [ table_name FieldModifier_names #"$type" ].

Definition Padding_meta : TypeMeta :=
  MkTypeMeta (table_name Padding_names #"$type")
    [ (#"prop", MkProperty (table_name Padding_names #"prop") None None);
      (#"value", MkProperty (table_name Padding_names #"value") None None) ]
    [ table_name LayoutMod_names #"$type" ].

Definition Permission_meta : TypeMeta :=
  MkTypeMeta (table_name Permission_names #"$type")
    [ (#"actions", MkProperty (table_name Permission_names #"actions") (Some DefaultArray) None);
      (#"role", MkProperty (table_name Permission_names #"role") None None) ]
    [ table_name DomainMember_names #"$type" ].

Definition ReadOnly_meta : TypeMeta :=
  MkTypeMeta (table_name ReadOnly_names #"$type")
    []
    [ table_name FieldModifier_names #"$type" ].

Definition Relation_meta : TypeMeta :=
  MkTypeMeta (table_name Relation_names #"$type")
    [ (#"foreignField", MkProperty (table_name Relation_names #"foreignField") None None);
      (#"kind", MkProperty (table_name Relation_names #"kind") None None);
      (#"localField", MkProperty (table_name Relation_names #"localField") None None);
      (#"name", MkProperty (table_name Relation_names #"name") None None);
      (#"target", MkProperty (table_name Relation_names #"target") None None) ]
    [ table_name DomainMember_names #"$type" ].

Definition RichText_meta : TypeMeta :=
  MkTypeMeta (table_name RichText_names #"$type")
    [ (#"spans", MkProperty (table_name RichText_names #"spans") (Some DefaultArray) None) ]
    [ table_name BodyElement_names #"$type" ].

Definition RichTextSpan_meta : TypeMeta :=
  MkTypeMeta (table_name RichTextSpan_names #"$type")
    [ (#"style", MkProperty (table_name RichTextSpan_names #"style") None None);
      (#"text", MkProperty (table_name RichTextSpan_names #"text") None None) ]
    [].

Definition Row_meta : TypeMeta :=
  MkTypeMeta (table_name Row_names #"$type")
    [ (#"body", MkProperty (table_name Row_names #"body") (Some DefaultArray) None);
      (#"mods", MkProperty (table_name Row_names #"mods") (Some DefaultArray) None) ]
    [ table_name BodyElement_names #"$type" ].

Definition ScrollFlag_meta : TypeMeta :=
  MkTypeMeta (table_name ScrollFlag_names #"$type")
    [ (#"scroll", MkProperty (table_name ScrollFlag_names #"scroll") None None) ]
    [ table_name LayoutMod_names #"$type" ].

Definition Section_meta : TypeMeta :=
  MkTypeMeta (table_name Section_names #"$type")
    [ (#"body", MkProperty (table_name Section_names #"body") (Some DefaultArray) None);
      (#"caption", MkProperty (table_name Section_names #"caption") None None);
      (#"mods", MkProperty (table_name Section_names #"mods") (Some DefaultArray) None) ]
    [ table_name BodyElement_names #"$type" ].

Definition Separator_meta : TypeMeta :=
  MkTypeMeta (table_name Separator_names #"$type")
    []
    [ table_name BodyElement_names #"$type" ].

Definition SpacingScale_meta : TypeMeta :=
  MkTypeMeta (table_name SpacingScale_names #"$type")
    [ (#"value", MkProperty (table_name SpacingScale_names #"value") None None) ]
    [ table_name SpacingValue_names #"$type" ].

Definition SpacingToken_meta : TypeMeta :=
  MkTypeMeta (table_name SpacingToken_names #"$type")
    [ (#"token", MkProperty (table_name SpacingToken_names #"token") None None) ]
    [ table_name SpacingValue_names #"$type" ].

Definition SpacingValue_meta : TypeMeta :=
  MkTypeMeta (table_name SpacingValue_names #"$type")
    []
    [].

Definition Stack_meta : TypeMeta :=
  MkTypeMeta (table_name Stack_names #"$type")
    [ (#"body", MkProperty (table_name Stack_names #"body") (Some DefaultArray) None);
      (#"mods", MkProperty (table_name Stack_names #"mods") (Some DefaultArray) None) ]
    [ table_name BodyElement_names #"$type" ].

Definition StringValue_meta : TypeMeta :=
  MkTypeMeta (table_name StringValue_names #"$type")
    [ (#"value", MkProperty (table_name StringValue_names #"value") None None) ]
    [ table_name ExampleValue_names #"$type" ].

Definition Tab_meta : TypeMeta :=
  MkTypeMeta (table_name Tab_names #"$type")
    [ (#"body", MkProperty (table_name Tab_names #"body") (Some DefaultArray) None);
      (#"caption", MkProperty (table_name Tab_names #"caption") None None) ]
    [].

Definition Table_meta : TypeMeta :=
  MkTypeMeta (table_name Table_names #"$type")
    [ (#"actions", MkProperty (table_name Table_names #"actions") (Some DefaultArray) None);
      (#"columns", MkProperty (table_name Table_names #"columns") (Some DefaultArray) None);
      (#"rowSource", MkProperty (table_name Table_names #"rowSource") None None) ]
    [ table_name BodyElement_names #"$type" ].

Definition Tabs_meta : TypeMeta :=
  MkTypeMeta (table_name Tabs_names #"$type")
    [ (#"mods", MkProperty (table_name Tabs_names #"mods") (Some DefaultArray) None);
      (#"tabs", MkProperty (table_name Tabs_names #"tabs") (Some DefaultArray) None) ]
    [ table_name BodyElement_names #"$type" ].

Definition ToolbarDelete_meta : TypeMeta :=
  MkTypeMeta (table_name ToolbarDelete_names #"$type")
    [ (#"confirm", MkProperty (table_name ToolbarDelete_names #"confirm") None None) ]
    [ table_name ToolbarItem_names #"$type" ].

Definition ToolbarExit_meta : TypeMeta :=
  MkTypeMeta (table_name ToolbarExit_names #"$type")
    []
    [ table_name ToolbarItem_names #"$type" ].

Definition ToolbarItem_meta : TypeMeta :=
  MkTypeMeta (table_name ToolbarItem_names #"$type")
    []
    [].

Definition ToolbarNew_meta : TypeMeta :=
  MkTypeMeta (table_name ToolbarNew_names #"$type")
    [ (#"caption", MkProperty (table_name ToolbarNew_names #"caption") None None);
      (#"navMods", MkProperty (table_name ToolbarNew_names #"navMods") (Some DefaultArray) None);
      (#"target", MkProperty (table_name ToolbarNew_names #"target") None None) ]
    [ table_name ToolbarItem_names #"$type" ].

Definition ToolbarRefresh_meta : TypeMeta :=
  MkTypeMeta (table_name ToolbarRefresh_names #"$type")
    [ (#"caption", MkProperty (table_name ToolbarRefresh_names #"caption") None None) ]
    [ table_name ToolbarItem_names #"$type" ].

Definition ToolbarSave_meta : TypeMeta :=
  MkTypeMeta (table_name ToolbarSave_names #"$type")
    []
    [ table_name ToolbarItem_names #"$type" ].

Definition ViewAction_meta : TypeMeta :=
  MkTypeMeta (table_name ViewAction_names #"$type")
    [ (#"event", MkProperty (table_name ViewAction_names #"event") None None);
      (#"navMods", MkProperty (table_name ViewAction_names #"navMods") (Some DefaultArray) None);
      (#"target", MkProperty (table_name ViewAction_names #"target") None None) ]
    [].

Definition ViewDecl_meta : TypeMeta :=
  MkTypeMeta (table_name ViewDecl_names #"$type")
    [ (#"autoRefresh", MkProperty (table_name ViewDecl_names #"autoRefresh") None None);
      (#"body", MkProperty (table_name ViewDecl_names #"body") (Some DefaultArray) None);
      (#"default", MkProperty (table_name ViewDecl_names #"default") (Some DefaultFalse) None);
      (#"domains", MkProperty (table_name ViewDecl_names #"domains") (Some DefaultArray) None);
      (#"name", MkProperty (table_name ViewDecl_names #"name") None None);
      (#"title", MkProperty (table_name ViewDecl_names #"title") None None);
      (#"toolbar", MkProperty (table_name ViewDecl_names #"toolbar") (Some DefaultArray) None) ]
    [].

Definition ViewModel_meta : TypeMeta :=
  MkTypeMeta (table_name ViewModel_names #"$type")
    [ (#"view", MkProperty (table_name ViewModel_names #"view") None None) ]
    [].

Definition Widget_meta : TypeMeta :=
  MkTypeMeta (table_name Widget_names #"$type")
    [ (#"bind", MkProperty (table_name Widget_names #"bind") None None);
      (#"caption", MkProperty (table_name Widget_names #"caption") None None);
      (#"kind", MkProperty (table_name Widget_names #"kind") None None);
      (#"mods", MkProperty (table_name Widget_names #"mods") (Some DefaultArray) None) ]
    [ table_name BodyElement_names #"$type" ].

Definition WidgetExpand_meta : TypeMeta :=
  MkTypeMeta (table_name WidgetExpand_names #"$type")
    []
    [ table_name WidgetModifier_names #"$type" ].

Definition WidgetFocus_meta : TypeMeta :=
  MkTypeMeta (table_name WidgetFocus_names #"$type")
    []
    [ table_name WidgetModifier_names #"$type" ].

Definition WidgetFormat_meta : TypeMeta :=
  MkTypeMeta (table_name WidgetFormat_names #"$type")
    [ (#"fmt", MkProperty (table_name WidgetFormat_names #"fmt") None None) ]
    [ table_name WidgetModifier_names #"$type" ].

Definition WidgetMax_meta : TypeMeta :=
  MkTypeMeta (table_name WidgetMax_names #"$type")
    [ (#"value", MkProperty (table_name WidgetMax_names #"value") None None) ]
    [ table_name WidgetModifier_names #"$type" ].

Definition WidgetMin_meta : TypeMeta :=
  MkTypeMeta (table_name WidgetMin_names #"$type")
    [ (#"value", MkProperty (table_name WidgetMin_names #"value") None None) ]
    [ table_name WidgetModifier_names #"$type" ].

Definition WidgetModifier_meta : TypeMeta :=
  MkTypeMeta (table_name WidgetModifier_names #"$type")
    []
    [].

Definition WidgetPlaceholder_meta : TypeMeta :=
  MkTypeMeta (table_name WidgetPlaceholder_names #"$type")
    [ (#"value", MkProperty (table_name WidgetPlaceholder_names #"value") None None) ]
    [ table_name WidgetModifier_names #"$type" ].

Definition WidgetReadOnly_meta : TypeMeta :=
  MkTypeMeta (table_name WidgetReadOnly_names #"$type")
    []
    [ table_name WidgetModifier_names #"$type" ].

Definition WidgetStep_meta : TypeMeta :=
  MkTypeMeta (table_name WidgetStep_names #"$type")
    [ (#"value", MkProperty (table_name WidgetStep_names #"value") None None) ]
    [ table_name WidgetModifier_names #"$type" ].

(** * The declarations together *)

Definition interfaces : list Interface :=
  [ Accordion_interface; AccordionItem_interface; AiHint_interface; AliasList_interface; As_interface;
    AutoRefresh_interface; Bind_interface; Button_interface; Card_interface; Cols_interface;
    Column_interface; ColumnFormat_interface; ColumnWidth_interface; Confirm_interface; Divider_interface;
    DomainBinding_interface; DomainDecl_interface; DomainModel_interface; EventSchemaModel_interface;
    EventTypeDecl_interface; Example_interface; Expand_interface; Field_interface; FieldDecl_interface;
    FieldRef_interface; Filterable_interface; FormatToken_interface; Gap_interface; Grid_interface;
    IconSize_interface; IconWidget_interface; LinkWidget_interface; Margin_interface; Meta_interface;
    NumberValue_interface; OptionsRef_interface; Padding_interface; Permission_interface;
    ReadOnly_interface; Relation_interface; RichText_interface; RichTextSpan_interface; Row_interface;
    ScrollFlag_interface; Section_interface; Separator_interface; SpacingScale_interface;
    SpacingToken_interface; Stack_interface; StringValue_interface; Tab_interface; Table_interface;
    Tabs_interface; ToolbarDelete_interface; ToolbarExit_interface; ToolbarNew_interface;
    ToolbarRefresh_interface; ToolbarSave_interface; ViewAction_interface; ViewDecl_interface;
    ViewModel_interface; Widget_interface; WidgetExpand_interface; WidgetFocus_interface;
    WidgetFormat_interface; WidgetMax_interface; WidgetMin_interface; WidgetPlaceholder_interface;
    WidgetReadOnly_interface; WidgetStep_interface ].

Definition node_unions : list NodeUnion :=
  [ BodyElement_union; ColumnModifier_union; DomainMember_union; ExampleValue_union; FieldModifier_union;
    IconModifier_union; LayoutMod_union; NavModifier_union; SpacingValue_union; ToolbarItem_union;
    WidgetModifier_union ].

Definition literal_unions : list LiteralUnion :=
  [ BoolLit_literals; ExampleOp_literals; FieldType_literals; FormatDetail_literals; FormatKind_literals;
    IdentName_literals; MarginProp_literals; PaddingProp_literals; PermissionAction_literals;
    PresentationTarget_literals; RelationKind_literals; Required_literals; RichTextStyle_literals;
    SpacingTokenName_literals; ViewActionEvent_literals; WidgetKind_literals ].

Definition reflection_types : list TypeMeta :=
  [ Accordion_meta; AccordionItem_meta; AiHint_meta; AliasList_meta; As_meta; AutoRefresh_meta; Bind_meta;
    BodyElement_meta; Button_meta; Card_meta; Cols_meta; Column_meta; ColumnFormat_meta;
    ColumnModifier_meta; ColumnWidth_meta; Confirm_meta; Divider_meta; DomainBinding_meta; DomainDecl_meta;
    DomainMember_meta; DomainModel_meta; EventSchemaModel_meta; EventTypeDecl_meta; Example_meta;
    ExampleValue_meta; Expand_meta; Field_meta; FieldDecl_meta; FieldModifier_meta; FieldRef_meta;
    Filterable_meta; FormatToken_meta; Gap_meta; Grid_meta; IconModifier_meta; IconSize_meta;
    IconWidget_meta; LayoutMod_meta; LinkWidget_meta; Margin_meta; Meta_meta; NavModifier_meta;
    NumberValue_meta; OptionsRef_meta; Padding_meta; Permission_meta; ReadOnly_meta; Relation_meta;
    RichText_meta; RichTextSpan_meta; Row_meta; ScrollFlag_meta; Section_meta; Separator_meta;
    SpacingScale_meta; SpacingToken_meta; SpacingValue_meta; Stack_meta; StringValue_meta; Tab_meta;
    Table_meta; Tabs_meta; ToolbarDelete_meta; ToolbarExit_meta; ToolbarItem_meta; ToolbarNew_meta;
    ToolbarRefresh_meta; ToolbarSave_meta; ViewAction_meta; ViewDecl_meta; ViewModel_meta; Widget_meta;
    WidgetExpand_meta; WidgetFocus_meta; WidgetFormat_meta; WidgetMax_meta; WidgetMin_meta;
    WidgetModifier_meta; WidgetPlaceholder_meta; WidgetReadOnly_meta; WidgetStep_meta ].

Definition name_tables : list (str * NameTable) :=
  [ (#"Accordion", Accordion_names); (#"AccordionItem", AccordionItem_names); (#"AiHint", AiHint_names);
    (#"AliasList", AliasList_names); (#"As", As_names); (#"AutoRefresh", AutoRefresh_names);
    (#"Bind", Bind_names); (#"BodyElement", BodyElement_names); (#"Button", Button_names);
    (#"Card", Card_names); (#"Cols", Cols_names); (#"Column", Column_names);
    (#"ColumnFormat", ColumnFormat_names); (#"ColumnModifier", ColumnModifier_names);
    (#"ColumnWidth", ColumnWidth_names); (#"Confirm", Confirm_names); (#"Divider", Divider_names);
    (#"DomainBinding", DomainBinding_names); (#"DomainDecl", DomainDecl_names);
    (#"DomainMember", DomainMember_names); (#"DomainModel", DomainModel_names);
    (#"EventSchemaModel", EventSchemaModel_names); (#"EventTypeDecl", EventTypeDecl_names);
    (#"Example", Example_names); (#"ExampleValue", ExampleValue_names); (#"Expand", Expand_names);
    (#"Field", Field_names); (#"FieldDecl", FieldDecl_names); (#"FieldModifier", FieldModifier_names);
    (#"FieldRef", FieldRef_names); (#"Filterable", Filterable_names); (#"FormatToken", FormatToken_names);
    (#"Gap", Gap_names); (#"Grid", Grid_names); (#"IconModifier", IconModifier_names);
    (#"IconSize", IconSize_names); (#"IconWidget", IconWidget_names); (#"LayoutMod", LayoutMod_names);
    (#"LinkWidget", LinkWidget_names); (#"Margin", Margin_names); (#"Meta", Meta_names);
    (#"NavModifier", NavModifier_names); (#"NumberValue", NumberValue_names);
    (#"OptionsRef", OptionsRef_names); (#"Padding", Padding_names); (#"Permission", Permission_names);
    (#"ReadOnly", ReadOnly_names); (#"Relation", Relation_names); (#"RichText", RichText_names);
    (#"RichTextSpan", RichTextSpan_names); (#"Row", Row_names); (#"ScrollFlag", ScrollFlag_names);
    (#"Section", Section_names); (#"Separator", Separator_names); (#"SpacingScale", SpacingScale_names);
    (#"SpacingToken", SpacingToken_names); (#"SpacingValue", SpacingValue_names); (#"Stack", Stack_names);
    (#"StringValue", StringValue_names); (#"Tab", Tab_names); (#"Table", Table_names);
    (#"Tabs", Tabs_names); (#"ToolbarDelete", ToolbarDelete_names); (#"ToolbarExit", ToolbarExit_names);
    (#"ToolbarItem", ToolbarItem_names); (#"ToolbarNew", ToolbarNew_names);
    (#"ToolbarRefresh", ToolbarRefresh_names); (#"ToolbarSave", ToolbarSave_names);
    (#"ViewAction", ViewAction_names); (#"ViewDecl", ViewDecl_names); (#"ViewModel", ViewModel_names);
    (#"Widget", Widget_names); (#"WidgetExpand", WidgetExpand_names); (#"WidgetFocus", WidgetFocus_names);
    (#"WidgetFormat", WidgetFormat_names); (#"WidgetMax", WidgetMax_names); (#"WidgetMin", WidgetMin_names);
    (#"WidgetModifier", WidgetModifier_names); (#"WidgetPlaceholder", WidgetPlaceholder_names);
    (#"WidgetReadOnly", WidgetReadOnly_names); (#"WidgetStep", WidgetStep_names) ].

Definition literal_guards : list (str * (jsval → bool)) :=
  [ (#"BoolLit", isBoolLit); (#"ExampleOp", isExampleOp); (#"FieldType", isFieldType);
    (#"FormatKind", isFormatKind); (#"MarginProp", isMarginProp); (#"PaddingProp", isPaddingProp);
    (#"PermissionAction", isPermissionAction); (#"PresentationTarget", isPresentationTarget);
    (#"RelationKind", isRelationKind); (#"RichTextStyle", isRichTextStyle);
    (#"SpacingTokenName", isSpacingTokenName); (#"ViewActionEvent", isViewActionEvent);
    (#"WidgetKind", isWidgetKind) ].

Definition instance_guards : list (str * ((jsval → str → bool) → jsval → bool)) :=
  [ (#"Accordion", isAccordion); (#"AccordionItem", isAccordionItem); (#"AiHint", isAiHint);
    (#"AliasList", isAliasList); (#"As", isAs); (#"AutoRefresh", isAutoRefresh); (#"Bind", isBind);
    (#"BodyElement", isBodyElement); (#"Button", isButton); (#"Card", isCard); (#"Cols", isCols);
    (#"Column", isColumn); (#"ColumnFormat", isColumnFormat); (#"ColumnModifier", isColumnModifier);
    (#"ColumnWidth", isColumnWidth); (#"Confirm", isConfirm); (#"Divider", isDivider);
    (#"DomainBinding", isDomainBinding); (#"DomainDecl", isDomainDecl); (#"DomainMember", isDomainMember);
    (#"DomainModel", isDomainModel); (#"EventSchemaModel", isEventSchemaModel);
    (#"EventTypeDecl", isEventTypeDecl); (#"Example", isExample); (#"ExampleValue", isExampleValue);
    (#"Expand", isExpand); (#"Field", isField); (#"FieldDecl", isFieldDecl);
    (#"FieldModifier", isFieldModifier); (#"FieldRef", isFieldRef); (#"Filterable", isFilterable);
    (#"FormatToken", isFormatToken); (#"Gap", isGap); (#"Grid", isGrid); (#"IconModifier", isIconModifier);
    (#"IconSize", isIconSize); (#"IconWidget", isIconWidget); (#"LayoutMod", isLayoutMod);
    (#"LinkWidget", isLinkWidget); (#"Margin", isMargin); (#"Meta", isMeta);
    (#"NavModifier", isNavModifier); (#"NumberValue", isNumberValue); (#"OptionsRef", isOptionsRef);
    (#"Padding", isPadding); (#"Permission", isPermission); (#"ReadOnly", isReadOnly);
    (#"Relation", isRelation); (#"RichText", isRichText); (#"RichTextSpan", isRichTextSpan);
    (#"Row", isRow); (#"ScrollFlag", isScrollFlag); (#"Section", isSection); (#"Separator", isSeparator);
    (#"SpacingScale", isSpacingScale); (#"SpacingToken", isSpacingToken); (#"SpacingValue", isSpacingValue);
    (#"Stack", isStack); (#"StringValue", isStringValue); (#"Tab", isTab); (#"Table", isTable);
    (#"Tabs", isTabs); (#"ToolbarDelete", isToolbarDelete); (#"ToolbarExit", isToolbarExit);
    (#"ToolbarItem", isToolbarItem); (#"ToolbarNew", isToolbarNew); (#"ToolbarRefresh", isToolbarRefresh);
    (#"ToolbarSave", isToolbarSave); (#"ViewAction", isViewAction); (#"ViewDecl", isViewDecl);
    (#"ViewModel", isViewModel); (#"Widget", isWidget); (#"WidgetExpand", isWidgetExpand);
    (#"WidgetFocus", isWidgetFocus); (#"WidgetFormat", isWidgetFormat); (#"WidgetMax", isWidgetMax);
    (#"WidgetMin", isWidgetMin); (#"WidgetModifier", isWidgetModifier);
    (#"WidgetPlaceholder", isWidgetPlaceholder); (#"WidgetReadOnly", isWidgetReadOnly);
    (#"WidgetStep", isWidgetStep) ].
