(* ===== verification/PipelineAstTypes.v ===== *)
(** The declarations of [packages/oos-pipeline-ts/src/generated/ast.ts]: the
    syntax-tree types of pipelines, as in [DslAstTypes.v]. *)

From S2P Require Export AstModel.

#[local] Set Warnings "-register-all".

Definition AndExpr_names : NameTable :=
  [ (#"$type", #"AndExpr"); (#"exprs", #"exprs") ].

Definition EmbeddingDecl_names : NameTable :=
  [ (#"$type", #"EmbeddingDecl"); (#"model", #"model") ].

Definition FieldFilter_names : NameTable :=
  [ (#"$type", #"FieldFilter"); (#"field", #"field"); (#"op", #"op"); (#"value", #"value") ].

Definition FilterValue_names : NameTable :=
  [ (#"$type", #"FilterValue") ].

Definition LlmDecl_names : NameTable :=
  [ (#"$type", #"LlmDecl"); (#"model", #"model") ].

Definition ModeDecl_names : NameTable :=
  [ (#"$type", #"ModeDecl"); (#"value", #"value") ].

Definition NotExpr_names : NameTable :=
  [ (#"$type", #"NotExpr"); (#"expr", #"expr") ].

Definition NumberValue_names : NameTable :=
  [ (#"$type", #"NumberValue"); (#"value", #"value") ].

Definition OrExpr_names : NameTable :=
  [ (#"$type", #"OrExpr"); (#"exprs", #"exprs") ].

Definition OutDecl_names : NameTable :=
  [ (#"$type", #"OutDecl"); (#"subject", #"subject"); (#"target", #"target") ].

Definition ParamRef_names : NameTable :=
  [ (#"$type", #"ParamRef"); (#"param", #"param") ].

Definition PipelineDef_names : NameTable :=
  [ (#"$type", #"PipelineDef"); (#"embedding", #"embedding"); (#"llm", #"llm"); (#"mode", #"mode");
    (#"name", #"name"); (#"out", #"out"); (#"sources", #"sources"); (#"steps", #"steps") ].

Definition SemanticQuery_names : NameTable :=
  [ (#"$type", #"SemanticQuery"); (#"value", #"value") ].

Definition Source_names : NameTable :=
  [ (#"$type", #"Source") ].

Definition SourceDb_names : NameTable :=
  [ (#"$type", #"SourceDb"); (#"dsn", #"dsn"); (#"name", #"name"); (#"table", #"table") ].

Definition SourceDocs_names : NameTable :=
  [ (#"$type", #"SourceDocs"); (#"name", #"name"); (#"uri", #"uri") ].

Definition Step_names : NameTable :=
  [ (#"$type", #"Step") ].

Definition StepLlm_names : NameTable :=
  [ (#"$type", #"StepLlm"); (#"input", #"input"); (#"mode", #"mode"); (#"name", #"name");
    (#"prompt", #"prompt"); (#"source", #"source"); (#"system", #"system") ].

Definition StepSemantic_names : NameTable :=
  [ (#"$type", #"StepSemantic"); (#"limit", #"limit"); (#"name", #"name"); (#"queries", #"queries");
    (#"source", #"source"); (#"where", #"where") ].

Definition StepWhere_names : NameTable :=
  [ (#"$type", #"StepWhere"); (#"limit", #"limit"); (#"name", #"name"); (#"source", #"source");
    (#"where", #"where") ].

Definition StringValue_names : NameTable :=
  [ (#"$type", #"StringValue"); (#"value", #"value") ].

Definition WhereExpr_names : NameTable :=
  [ (#"$type", #"WhereExpr") ].

Definition OnisinPipelineTerminals : list (str * str) :=
  [ (#"ID", #"/[_a-zA-Z][\w-]*/"); (#"INT", #"/[0-9]+/"); (#"NUMBER", #"/-?[0-9]+(\.[0-9]+)?/");
    (#"STRING", (#"/" ++ [34]%N ++ #"[^" ++ [34]%N ++ #"]*" ++ [34]%N ++ #"|'[^']*'/")); (#"WS", #"/\s+/");
    (#"SL_COMMENT", #"/\/\/[^\n\r]*/"); (#"ML_COMMENT", #"/\/\*[\s\S]*?\*\//") ].

Definition OnisinPipelineKeywordNames : list str :=
  [ #":"; #"_and"; #"_eq"; #"_gt"; #"_gte"; #"_ilike"; #"_in"; #"_like"; #"_lt"; #"_lte"; #"_neq"; #"_not";
    #"_or"; #"aggregate"; #"context"; #"db"; #"docs"; #"dsn="; #"editor"; #"embedding"; #"file"; #"from";
    #"input"; #"limit"; #"llm"; #"mass"; #"mode"; #"nats"; #"out"; #"per-row"; #"pipeline"; #"prompt";
    #"query"; #"semantic"; #"source"; #"step"; #"subject"; #"system"; #"uri="; #"where"; #"{"; #"}" ].

Definition AndExpr_interface : Interface :=
  MkInterface #"AndExpr" [ #"AndExpr"; #"NotExpr"; #"OrExpr"; #"StepSemantic"; #"StepWhere" ] #"AndExpr"
    [ MkTsField #"exprs" false (TsArray (TsName #"WhereExpr")) ].

Definition isAndExpr (isInstance : jsval → str → bool) (item : jsval) : bool :=
  isInstance item (table_name AndExpr_names #"$type").

Definition EmbeddingDecl_interface : Interface :=
  MkInterface #"EmbeddingDecl" [ #"PipelineDef" ] #"EmbeddingDecl"
    [ MkTsField #"model" false TsString ].

Definition isEmbeddingDecl (isInstance : jsval → str → bool) (item : jsval) : bool :=
  isInstance item (table_name EmbeddingDecl_names #"$type").

Definition FieldFilter_interface : Interface :=
  MkInterface #"FieldFilter"
    [ #"AndExpr"; #"NotExpr"; #"OrExpr"; #"StepSemantic"; #"StepWhere" ] #"FieldFilter"
    [ MkTsField #"field" false TsString; MkTsField #"op" false (TsName #"FilterOp");
      MkTsField #"value" false (TsName #"FilterValue") ].

Definition isFieldFilter (isInstance : jsval → str → bool) (item : jsval) : bool :=
  isInstance item (table_name FieldFilter_names #"$type").

Definition FilterOp_literals : LiteralUnion :=
  MkLiteralUnion #"FilterOp"
    [ #"_eq"; #"_gt"; #"_gte"; #"_ilike"; #"_in"; #"_like"; #"_lt"; #"_lte"; #"_neq" ] None.

Definition isFilterOp (item : jsval) : bool :=
  is_literal [ #"_eq"; #"_neq"; #"_gt"; #"_gte"; #"_lt"; #"_lte"; #"_like"; #"_ilike"; #"_in" ] item.

Definition FilterValue_union : NodeUnion :=
  MkNodeUnion #"FilterValue"
    [ #"NumberValue"; #"ParamRef"; #"StringValue" ].

Definition isFilterValue (isInstance : jsval → str → bool) (item : jsval) : bool :=
  isInstance item (table_name FilterValue_names #"$type").

Definition LlmDecl_interface : Interface :=
  MkInterface #"LlmDecl" [ #"PipelineDef" ] #"LlmDecl"
    [ MkTsField #"model" false TsString ].

Definition isLlmDecl (isInstance : jsval → str → bool) (item : jsval) : bool :=
  isInstance item (table_name LlmDecl_names #"$type").

Definition ModeDecl_interface : Interface :=
  MkInterface #"ModeDecl" [ #"PipelineDef" ] #"ModeDecl"
    [ MkTsField #"value" false (TsName #"PipelineMode") ].

Definition isModeDecl (isInstance : jsval → str → bool) (item : jsval) : bool :=
  isInstance item (table_name ModeDecl_names #"$type").

Definition NotExpr_interface : Interface :=
  MkInterface #"NotExpr" [ #"AndExpr"; #"NotExpr"; #"OrExpr"; #"StepSemantic"; #"StepWhere" ] #"NotExpr"
    [ MkTsField #"expr" false (TsName #"WhereExpr") ].

Definition isNotExpr (isInstance : jsval → str → bool) (item : jsval) : bool :=
  isInstance item (table_name NotExpr_names #"$type").

Definition NumberValue_interface : Interface :=
  MkInterface #"NumberValue" [ #"FieldFilter" ] #"NumberValue"
    [ MkTsField #"value" false TsNumber ].

Definition isNumberValue (isInstance : jsval → str → bool) (item : jsval) : bool :=
  isInstance item (table_name NumberValue_names #"$type").

Definition OrExpr_interface : Interface :=
  MkInterface #"OrExpr" [ #"AndExpr"; #"NotExpr"; #"OrExpr"; #"StepSemantic"; #"StepWhere" ] #"OrExpr"
    [ MkTsField #"exprs" false (TsArray (TsName #"WhereExpr")) ].

Definition isOrExpr (isInstance : jsval → str → bool) (item : jsval) : bool :=
  isInstance item (table_name OrExpr_names #"$type").

Definition OutDecl_interface : Interface :=
  MkInterface #"OutDecl" [ #"PipelineDef" ] #"OutDecl"
    [ MkTsField #"subject" true TsString; MkTsField #"target" false (TsName #"OutTarget") ].

Definition isOutDecl (isInstance : jsval → str → bool) (item : jsval) : bool :=
  isInstance item (table_name OutDecl_names #"$type").

Definition OutTarget_literals : LiteralUnion :=
  MkLiteralUnion #"OutTarget"
    [ #"editor"; #"file"; #"nats" ] None.

Definition isOutTarget (item : jsval) : bool :=
  is_literal [ #"editor"; #"nats"; #"file" ] item.

Definition ParamRef_interface : Interface :=
  MkInterface #"ParamRef" [ #"FieldFilter" ] #"ParamRef"
    [ MkTsField #"param" false TsString ].

Definition isParamRef (isInstance : jsval → str → bool) (item : jsval) : bool :=
  isInstance item (table_name ParamRef_names #"$type").

Definition PipelineDef_interface : Interface :=
  MkInterface #"PipelineDef" [] #"PipelineDef"
    [ MkTsField #"embedding" true (TsName #"EmbeddingDecl"); MkTsField #"llm" false (TsName #"LlmDecl");
      MkTsField #"mode" false (TsName #"ModeDecl"); MkTsField #"name" false TsString;
      MkTsField #"out" false (TsName #"OutDecl"); MkTsField #"sources" false (TsArray (TsName #"Source"));
      MkTsField #"steps" false (TsArray (TsName #"Step")) ].

Definition isPipelineDef (isInstance : jsval → str → bool) (item : jsval) : bool :=
  isInstance item (table_name PipelineDef_names #"$type").

Definition PipelineMode_literals : LiteralUnion :=
  MkLiteralUnion #"PipelineMode"
    [ #"context"; #"mass" ] None.

Definition isPipelineMode (item : jsval) : bool :=
  is_literal [ #"context"; #"mass" ] item.

Definition SemanticQuery_interface : Interface :=
  MkInterface #"SemanticQuery" [ #"StepSemantic" ] #"SemanticQuery"
    [ MkTsField #"value" false TsString ].

Definition isSemanticQuery (isInstance : jsval → str → bool) (item : jsval) : bool :=
  isInstance item (table_name SemanticQuery_names #"$type").

Definition Source_union : NodeUnion :=
  MkNodeUnion #"Source"
    [ #"SourceDb"; #"SourceDocs" ].

Definition isSource (isInstance : jsval → str → bool) (item : jsval) : bool :=
  isInstance item (table_name Source_names #"$type").

Definition SourceDb_interface : Interface :=
  MkInterface #"SourceDb" [ #"PipelineDef" ] #"SourceDb"
    [ MkTsField #"dsn" true TsString; MkTsField #"name" false TsString; MkTsField #"table" false TsString ].

Definition isSourceDb (isInstance : jsval → str → bool) (item : jsval) : bool :=
  isInstance item (table_name SourceDb_names #"$type").

Definition SourceDocs_interface : Interface :=
  MkInterface #"SourceDocs" [ #"PipelineDef" ] #"SourceDocs"
    [ MkTsField #"name" false TsString; MkTsField #"uri" false TsString ].

Definition isSourceDocs (isInstance : jsval → str → bool) (item : jsval) : bool :=
  isInstance item (table_name SourceDocs_names #"$type").

Definition Step_union : NodeUnion :=
  MkNodeUnion #"Step"
    [ #"StepLlm"; #"StepSemantic"; #"StepWhere" ].

Definition isStep (isInstance : jsval → str → bool) (item : jsval) : bool :=
  isInstance item (table_name Step_names #"$type").

Definition StepLlm_interface : Interface :=
  MkInterface #"StepLlm" [ #"PipelineDef" ] #"StepLlm"
    [ MkTsField #"input" true (TsReference #"Step"); MkTsField #"mode" false (TsName #"StepMode");
      MkTsField #"name" false TsString; MkTsField #"prompt" false TsString;
      MkTsField #"source" false TsString; MkTsField #"system" true TsString ].

Definition isStepLlm (isInstance : jsval → str → bool) (item : jsval) : bool :=
  isInstance item (table_name StepLlm_names #"$type").

Definition StepMode_literals : LiteralUnion :=
  MkLiteralUnion #"StepMode"
    [ #"aggregate"; #"per-row" ] None.

Definition isStepMode (item : jsval) : bool :=
  is_literal [ #"per-row"; #"aggregate" ] item.

Definition StepSemantic_interface : Interface :=
  MkInterface #"StepSemantic" [ #"PipelineDef" ] #"StepSemantic"
    [ MkTsField #"limit" true TsNumber; MkTsField #"name" false TsString;
      MkTsField #"queries" false (TsArray (TsName #"SemanticQuery")); MkTsField #"source" false TsString;
      MkTsField #"where" true (TsName #"WhereExpr") ].

Definition isStepSemantic (isInstance : jsval → str → bool) (item : jsval) : bool :=
  isInstance item (table_name StepSemantic_names #"$type").

Definition StepWhere_interface : Interface :=
  MkInterface #"StepWhere" [ #"PipelineDef" ] #"StepWhere"
    [ MkTsField #"limit" true TsNumber; MkTsField #"name" false TsString;
      MkTsField #"source" false (TsReference #"SourceDb"); MkTsField #"where" true (TsName #"WhereExpr") ].

Definition isStepWhere (isInstance : jsval → str → bool) (item : jsval) : bool :=
  isInstance item (table_name StepWhere_names #"$type").

Definition StringValue_interface : Interface :=
  MkInterface #"StringValue" [ #"FieldFilter" ] #"StringValue"
    [ MkTsField #"value" false TsString ].

Definition isStringValue (isInstance : jsval → str → bool) (item : jsval) : bool :=
  isInstance item (table_name StringValue_names #"$type").

Definition WhereExpr_union : NodeUnion :=
  MkNodeUnion #"WhereExpr"
    [ #"AndExpr"; #"FieldFilter"; #"NotExpr"; #"OrExpr" ].

Definition isWhereExpr (isInstance : jsval → str → bool) (item : jsval) : bool :=
  isInstance item (table_name WhereExpr_names #"$type").

Definition OnisinPipelineAstType : list str :=
  [ #"AndExpr"; #"EmbeddingDecl"; #"FieldFilter"; #"FilterValue"; #"LlmDecl"; #"ModeDecl"; #"NotExpr";
    #"NumberValue"; #"OrExpr"; #"OutDecl"; #"ParamRef"; #"PipelineDef"; #"SemanticQuery"; #"Source";
    #"SourceDb"; #"SourceDocs"; #"Step"; #"StepLlm"; #"StepSemantic"; #"StepWhere"; #"StringValue";
    #"WhereExpr" ].

Definition AndExpr_meta : TypeMeta :=
  MkTypeMeta (table_name AndExpr_names #"$type")
    [ (#"exprs", MkProperty (table_name AndExpr_names #"exprs") (Some DefaultArray) None) ]
    [ table_name WhereExpr_names #"$type" ].

Definition EmbeddingDecl_meta : TypeMeta :=
  MkTypeMeta (table_name EmbeddingDecl_names #"$type")
    [ (#"model", MkProperty (table_name EmbeddingDecl_names #"model") None None) ]
    [].

Definition FieldFilter_meta : TypeMeta :=
  MkTypeMeta (table_name FieldFilter_names #"$type")
    [ (#"field", MkProperty (table_name FieldFilter_names #"field") None None);
      (#"op", MkProperty (table_name FieldFilter_names #"op") None None);
      (#"value", MkProperty (table_name FieldFilter_names #"value") None None) ]
    [ table_name WhereExpr_names #"$type" ].

Definition FilterValue_meta : TypeMeta :=
  MkTypeMeta (table_name FilterValue_names #"$type")
    []
    [].

Definition LlmDecl_meta : TypeMeta :=
  MkTypeMeta (table_name LlmDecl_names #"$type")
    [ (#"model", MkProperty (table_name LlmDecl_names #"model") None None) ]
    [].

Definition ModeDecl_meta : TypeMeta :=
  MkTypeMeta (table_name ModeDecl_names #"$type")
    [ (#"value", MkProperty (table_name ModeDecl_names #"value") None None) ]
    [].

Definition NotExpr_meta : TypeMeta :=
  MkTypeMeta (table_name NotExpr_names #"$type")
    [ (#"expr", MkProperty (table_name NotExpr_names #"expr") None None) ]
    [ table_name WhereExpr_names #"$type" ].

Definition NumberValue_meta : TypeMeta :=
  MkTypeMeta (table_name NumberValue_names #"$type")
    [ (#"value", MkProperty (table_name NumberValue_names #"value") None None) ]
    [ table_name FilterValue_names #"$type" ].

Definition OrExpr_meta : TypeMeta :=
  MkTypeMeta (table_name OrExpr_names #"$type")
    [ (#"exprs", MkProperty (table_name OrExpr_names #"exprs") (Some DefaultArray) None) ]
    [ table_name WhereExpr_names #"$type" ].

Definition OutDecl_meta : TypeMeta :=
  MkTypeMeta (table_name OutDecl_names #"$type")
    [ (#"subject", MkProperty (table_name OutDecl_names #"subject") None None);
      (#"target", MkProperty (table_name OutDecl_names #"target") None None) ]
    [].

Definition ParamRef_meta : TypeMeta :=
  MkTypeMeta (table_name ParamRef_names #"$type")
    [ (#"param", MkProperty (table_name ParamRef_names #"param") None None) ]
    [ table_name FilterValue_names #"$type" ].

Definition PipelineDef_meta : TypeMeta :=
  MkTypeMeta (table_name PipelineDef_names #"$type")
    [ (#"embedding", MkProperty (table_name PipelineDef_names #"embedding") None None);
      (#"llm", MkProperty (table_name PipelineDef_names #"llm") None None);
      (#"mode", MkProperty (table_name PipelineDef_names #"mode") None None);
      (#"name", MkProperty (table_name PipelineDef_names #"name") None None);
      (#"out", MkProperty (table_name PipelineDef_names #"out") None None);
      (#"sources", MkProperty (table_name PipelineDef_names #"sources") (Some DefaultArray) None);
      (#"steps", MkProperty (table_name PipelineDef_names #"steps") (Some DefaultArray) None) ]
    [].

Definition SemanticQuery_meta : TypeMeta :=
  MkTypeMeta (table_name SemanticQuery_names #"$type")
    [ (#"value", MkProperty (table_name SemanticQuery_names #"value") None None) ]
    [].

Definition Source_meta : TypeMeta :=
  MkTypeMeta (table_name Source_names #"$type")
    []
    [].

Definition SourceDb_meta : TypeMeta :=
  MkTypeMeta (table_name SourceDb_names #"$type")
    [ (#"dsn", MkProperty (table_name SourceDb_names #"dsn") None None);
      (#"name", MkProperty (table_name SourceDb_names #"name") None None);
      (#"table", MkProperty (table_name SourceDb_names #"table") None None) ]
    [ table_name Source_names #"$type" ].

Definition SourceDocs_meta : TypeMeta :=
  MkTypeMeta (table_name SourceDocs_names #"$type")
    [ (#"name", MkProperty (table_name SourceDocs_names #"name") None None);
      (#"uri", MkProperty (table_name SourceDocs_names #"uri") None None) ]
    [ table_name Source_names #"$type" ].

Definition Step_meta : TypeMeta :=
  MkTypeMeta (table_name Step_names #"$type")
    []
    [].

Definition StepLlm_meta : TypeMeta :=
  MkTypeMeta (table_name StepLlm_names #"$type")
    [ (#"input", MkProperty (table_name StepLlm_names #"input") None (Some (table_name Step_names #"$type")));
      (#"mode", MkProperty (table_name StepLlm_names #"mode") None None);
      (#"name", MkProperty (table_name StepLlm_names #"name") None None);
      (#"prompt", MkProperty (table_name StepLlm_names #"prompt") None None);
      (#"source", MkProperty (table_name StepLlm_names #"source") None None);
      (#"system", MkProperty (table_name StepLlm_names #"system") None None) ]
    [ table_name Step_names #"$type" ].

Definition StepSemantic_meta : TypeMeta :=
  MkTypeMeta (table_name StepSemantic_names #"$type")
    [ (#"limit", MkProperty (table_name StepSemantic_names #"limit") None None);
      (#"name", MkProperty (table_name StepSemantic_names #"name") None None);
      (#"queries", MkProperty (table_name StepSemantic_names #"queries") (Some DefaultArray) None);
      (#"source", MkProperty (table_name StepSemantic_names #"source") None None);
      (#"where", MkProperty (table_name StepSemantic_names #"where") None None) ]
    [ table_name Step_names #"$type" ].

Definition StepWhere_meta : TypeMeta :=
  MkTypeMeta (table_name StepWhere_names #"$type")
    [ (#"limit", MkProperty (table_name StepWhere_names #"limit") None None);
      (#"name", MkProperty (table_name StepWhere_names #"name") None None);
      (#"source", MkProperty (table_name StepWhere_names #"source") None (Some (table_name SourceDb_names #"$type")));
      (#"where", MkProperty (table_name StepWhere_names #"where") None None) ]
    [ table_name Step_names #"$type" ].

Definition StringValue_meta : TypeMeta :=
  MkTypeMeta (table_name StringValue_names #"$type")
    [ (#"value", MkProperty (table_name StringValue_names #"value") None None) ]
    [ table_name FilterValue_names #"$type" ].

Definition WhereExpr_meta : TypeMeta :=
  MkTypeMeta (table_name WhereExpr_names #"$type")
    []
    [].

(** * The declarations together *)

Definition interfaces : list Interface :=
  [ AndExpr_interface; EmbeddingDecl_interface; FieldFilter_interface; LlmDecl_interface;
    ModeDecl_interface; NotExpr_interface; NumberValue_interface; OrExpr_interface; OutDecl_interface;
    ParamRef_interface; PipelineDef_interface; SemanticQuery_interface; SourceDb_interface;
    SourceDocs_interface; StepLlm_interface; StepSemantic_interface; StepWhere_interface;
    StringValue_interface ].

Definition node_unions : list NodeUnion :=
  [ FilterValue_union; Source_union; Step_union; WhereExpr_union ].

Definition literal_unions : list LiteralUnion :=
  [ FilterOp_literals; OutTarget_literals; PipelineMode_literals; StepMode_literals ].

Definition reflection_types : list TypeMeta :=
  [ AndExpr_meta; EmbeddingDecl_meta; FieldFilter_meta; FilterValue_meta; LlmDecl_meta; ModeDecl_meta;
    NotExpr_meta; NumberValue_meta; OrExpr_meta; OutDecl_meta; ParamRef_meta; PipelineDef_meta;
    SemanticQuery_meta; Source_meta; SourceDb_meta; SourceDocs_meta; Step_meta; StepLlm_meta;
    StepSemantic_meta; StepWhere_meta; StringValue_meta; WhereExpr_meta ].

Definition name_tables : list (str * NameTable) :=
  [ (#"AndExpr", AndExpr_names); (#"EmbeddingDecl", EmbeddingDecl_names);
    (#"FieldFilter", FieldFilter_names); (#"FilterValue", FilterValue_names); (#"LlmDecl", LlmDecl_names);
    (#"ModeDecl", ModeDecl_names); (#"NotExpr", NotExpr_names); (#"NumberValue", NumberValue_names);
    (#"OrExpr", OrExpr_names); (#"OutDecl", OutDecl_names); (#"ParamRef", ParamRef_names);
    (#"PipelineDef", PipelineDef_names); (#"SemanticQuery", SemanticQuery_names); (#"Source", Source_names);
    (#"SourceDb", SourceDb_names); (#"SourceDocs", SourceDocs_names); (#"Step", Step_names);
    (#"StepLlm", StepLlm_names); (#"StepSemantic", StepSemantic_names); (#"StepWhere", StepWhere_names);
    (#"StringValue", StringValue_names); (#"WhereExpr", WhereExpr_names) ].

Definition literal_guards : list (str * (jsval → bool)) :=
  [ (#"FilterOp", isFilterOp); (#"OutTarget", isOutTarget); (#"PipelineMode", isPipelineMode);
    (#"StepMode", isStepMode) ].

Definition instance_guards : list (str * ((jsval → str → bool) → jsval → bool)) :=
  [ (#"AndExpr", isAndExpr); (#"EmbeddingDecl", isEmbeddingDecl); (#"FieldFilter", isFieldFilter);
    (#"FilterValue", isFilterValue); (#"LlmDecl", isLlmDecl); (#"ModeDecl", isModeDecl);
    (#"NotExpr", isNotExpr); (#"NumberValue", isNumberValue); (#"OrExpr", isOrExpr);
    (#"OutDecl", isOutDecl); (#"ParamRef", isParamRef); (#"PipelineDef", isPipelineDef);
    (#"SemanticQuery", isSemanticQuery); (#"Source", isSource); (#"SourceDb", isSourceDb);
    (#"SourceDocs", isSourceDocs); (#"Step", isStep); (#"StepLlm", isStepLlm);
    (#"StepSemantic", isStepSemantic); (#"StepWhere", isStepWhere); (#"StringValue", isStringValue);
    (#"WhereExpr", isWhereExpr) ].
