(* ===== verification/AstLaws.v ===== *)
(** The declared syntax trees of both packages: parsing builds trees of the
    declared types, with the exception of the one type name two of the
    grammars share. *)

From S2P Require Export AstTyping.
From S2P Require DomainGrammar EventSchemaGrammar ViewGrammar PipelineGrammar DslAstTypes PipelineAstTypes.
Import DomainGrammar(DomainGrammar).
Import EventSchemaGrammar(EventSchemaGrammar).
Import ViewGrammar(ViewGrammar).
Import PipelineGrammar(PipelineGrammar).

#[local] Set Warnings "-register-all".

(** * The modules *)

Definition identity (s : str) : str := s.
(** The literal unions: a boolean rule has no literals; a rule that calls a
    terminal takes the type of the terminal beside its words. *)
Definition called_type (g : Grammar) (e : Element) : list TsType :=
  match e with RuleCall _ => [value_type g e] | _ => [] end.

Definition inferred_literal (g : Grammar) (p : ParserRule) : LiteralUnion :=
  if decide (dataType p = Some #"boolean") then MkLiteralUnion (rule_name p) [] (Some TsBoolean)
  else MkLiteralUnion (rule_name p) (sort_by identity (rule_literals p))
         (head (flat_map (called_type g) (alternatives_of (definition p)))).

Definition inferred_literals (gs : list Grammar) : list LiteralUnion :=
  sort_by lu_name (dedup_by lu_name (flat_map (λ g, inferred_literal g <$> data_rules g) gs)).

(** What [ast.ts] of a package declares. *)
Record AstPackage := MkAstPackage {
  p_interfaces : list Interface; p_unions : list NodeUnion; p_literals : list LiteralUnion;
  p_reflection : list TypeMeta; p_tables : list (str * NameTable);
  p_guards : list (str * ((jsval → str → bool) → jsval → bool));
  p_languages : list (list (str * str) * list str * list str) }.

Definition dsl_package : AstPackage :=
  MkAstPackage DslAstTypes.interfaces DslAstTypes.node_unions DslAstTypes.literal_unions
    DslAstTypes.reflection_types DslAstTypes.name_tables DslAstTypes.instance_guards
    [ (DslAstTypes.Domain_Terminals, DslAstTypes.Domain_KeywordNames, DslAstTypes.Domain_AstType);
      (DslAstTypes.EventSchema_Terminals, DslAstTypes.EventSchema_KeywordNames, DslAstTypes.EventSchema_AstType);
      (DslAstTypes.View_Terminals, DslAstTypes.View_KeywordNames, DslAstTypes.View_AstType) ].

Definition pipeline_package : AstPackage :=
  MkAstPackage PipelineAstTypes.interfaces PipelineAstTypes.node_unions PipelineAstTypes.literal_unions
    PipelineAstTypes.reflection_types PipelineAstTypes.name_tables PipelineAstTypes.instance_guards
    [ (PipelineAstTypes.OnisinPipelineTerminals, PipelineAstTypes.OnisinPipelineKeywordNames,
       PipelineAstTypes.OnisinPipelineAstType) ].

(** Within a module the reflection class, the property tables and the guards follow the declared interfaces and unions, and the
    keywords are those of the grammars. *)
Record consistent (p : AstPackage) : Prop := {
  reflection_follows : p_reflection p = metas_of (p_interfaces p) (p_unions p);
  tables_follow :
    p_tables p = sort_by fst (((λ i, (i_name i, table_of (i_name i) (tf_name <$> i_fields i))) <$> p_interfaces p) ++
                              ((λ u, (nu_name u, table_of (nu_name u) [])) <$> p_unions p));
  guards_named : map fst (p_guards p) = map fst (p_tables p);
  guards_ask : Forall (λ h, ∀ isInstance item, h.2 isInstance item = isInstance item h.1) (p_guards p) }.
Lemma modules_consistent : consistent dsl_package ∧ consistent pipeline_package.
Proof.
  split; split; try (vm_compute; reflexivity);
    (repeat (apply List.Forall_cons; [intros isInstance item; reflexivity|]); apply List.Forall_nil).
Qed.
Lemma keywords_declared :
  (λ l, l.1.2) <$> (p_languages dsl_package ++ p_languages pipeline_package) =
  (λ g, sort_by identity (dedup_by identity (keywords g))) <$> [DomainGrammar; EventSchemaGrammar; ViewGrammar; PipelineGrammar].
Proof. vm_compute. reflexivity. Qed.

(** * Trees of the declared types *)

(** Where two grammars of a package give a literal union the same name, the
    declaration of the event schema is the one that is left. *)
Lemma declared_literals :
  DslAstTypes.literal_unions = inferred_literals [EventSchemaGrammar; DomainGrammar; ViewGrammar] ∧
  PipelineAstTypes.literal_unions = inferred_literals [PipelineGrammar].
Proof. vm_compute. by split. Qed.

(** [FormatDetail] is declared a number or one of four words; its rule is a
    [string] rule, which yields digits as text. *)
Definition view_literals : list LiteralUnion :=
  MkLiteralUnion #"FormatDetail" [] (Some TsString) :: DslAstTypes.literal_unions.

Definition domain_literals : list LiteralUnion := inferred_literals [DomainGrammar].

Definition package_type (p : AstPackage) (lits : list LiteralUnion) : PValue → TsType → Prop :=
  has_type (p_interfaces p) (p_unions p) lits.

Lemma grammars_typed :
  typed_grammar DslAstTypes.interfaces DslAstTypes.node_unions domain_literals DomainGrammar = true ∧
  typed_grammar DslAstTypes.interfaces DslAstTypes.node_unions DslAstTypes.literal_unions EventSchemaGrammar = true ∧
  typed_grammar DslAstTypes.interfaces DslAstTypes.node_unions view_literals ViewGrammar = true ∧
  typed_grammar PipelineAstTypes.interfaces PipelineAstTypes.node_unions PipelineAstTypes.literal_unions
    PipelineGrammar = true.
Proof. vm_compute. by split_and!. Qed.

Lemma rule_values_typed decls unions lits g convert r toks v :
  ConverterLaws convert → typed_grammar decls unions lits g = true →
  value_of g convert (RuleCall r) toks v → has_type decls unions lits v (value_type g (RuleCall r)).
Proof.
  intros Hc Ht Hv. eapply value_of_ok; [done..|]. inversion Hv; subst; cbn [assignable];
    match goal with H : rules g !! r = _ |- _ => by rewrite H end.
Qed.

(** C18: Type soundness of parsing: whatever tokens a rule of one of the four
    languages takes, the value it yields is of the type declared for the rule:
    the node's mandatory fields are assigned, every assigned field is declared
    with that type, and the children and literals are of their declared types
    in turn.  Domain files need the literal union of their own [FieldType],
    view files a [FormatDetail] that admits text. *)
Theorem parsed_trees_typed convert r toks v :
  ConverterLaws convert →
  (value_of EventSchemaGrammar convert (RuleCall r) toks v →
   package_type dsl_package (p_literals dsl_package) v (value_type EventSchemaGrammar (RuleCall r))) ∧
  (value_of ViewGrammar convert (RuleCall r) toks v →
   package_type dsl_package view_literals v (value_type ViewGrammar (RuleCall r))) ∧
  (value_of DomainGrammar convert (RuleCall r) toks v →
   package_type dsl_package domain_literals v (value_type DomainGrammar (RuleCall r))) ∧
  (value_of PipelineGrammar convert (RuleCall r) toks v →
   package_type pipeline_package (p_literals pipeline_package) v (value_type PipelineGrammar (RuleCall r))).
Proof.
  intros Hc. destruct grammars_typed as (Hd & He & Hv & Hp).
  split_and!; apply rule_values_typed; done.
Qed.

(** A converter as documented. *)
Definition plain_convert (r : Rule) (s : str) : PValue :=
  match r with
  | TRule t => if decide (terminal_type t = Some #"number") then PNumber s else PText s
  | PRule p => if decide (dataType p = Some #"boolean") then PBool (bool_decide (s = #"true")) else PText s
  end.

Lemma plain_convert_laws : ConverterLaws plain_convert.
Proof.
  split.
  - intros t s. unfold plain_convert. destruct (terminal_type t) as [ty|].
    + destruct (decide (ty = _)) as [->|Hne].
      * rewrite decide_True by done. by eexists.
      * rewrite decide_False by (intros H; apply Hne, (Some_inj _ _ H)). by eexists.
    + rewrite decide_False by discriminate. by eexists.
  - intros p s H. unfold plain_convert. rewrite decide_False; [done|]. rewrite H. intros H2.
    discriminate (Some_inj _ _ H2).
  - intros p s H. unfold plain_convert. rewrite decide_True by done. by eexists.
Qed.

(** [currency : 2] *)
Definition sample_format : list token := [TKey #"currency"] ++ ([TKey #":"] ++ ([TTerm 46 #"2"] ++ [])) ++ [].
Definition sample_format_tree : PValue :=
  PNode #"FormatToken" [(#"kind", AssignSet, PText #"currency"); (#"detail", AssignSet, PText #"2")].

Lemma parsed_trees_typed_witness :
  value_of ViewGrammar plain_convert (RuleCall 39) sample_format sample_format_tree ∧
  package_type dsl_package view_literals sample_format_tree (value_type ViewGrammar (RuleCall 39)).
Proof.
  assert (value_of ViewGrammar plain_convert (RuleCall 39) sample_format sample_format_tree) as Hv.
  { assert (value_of ViewGrammar plain_convert (RuleCall 40) [TKey #"currency"] (PText #"currency")) as Hk.
    { refine (vo_data ViewGrammar plain_convert 40 _ _ [TKey #"currency"] eq_refl eq_refl _).
      eapply d_alternative; [by left|apply d_keyword]. }
    assert (value_of ViewGrammar plain_convert (RuleCall 41) ([TTerm 46 #"2"]) (PText #"2")) as Hd.
    { refine (vo_data ViewGrammar plain_convert 41 _ _ [TTerm 46 #"2"] eq_refl eq_refl _).
      eapply d_alternative; [by left|]. eapply d_terminal. reflexivity. }
    eapply vo_node; [reflexivity|reflexivity|].
    refine (r_cons _ _ _ _ _ _ _ _ _ (r_assignment _ _ #"kind" AssignSet _ (#"FormatToken", []) _ _ Hk) _).
    refine (r_cons _ _ _ _ _ _ _ _ _ (r_some _ _ _ _ _ _ (r_cons _ _ _ _ _ _ _ _ _ (r_keyword _ _ _ _) _)) (r_nil _ _ _)).
    refine (r_cons _ _ _ _ _ _ _ _ _ (r_assignment _ _ #"detail" AssignSet _ _ _ _ Hd) (r_nil _ _ _)). }
  split; [exact Hv|]. apply (parsed_trees_typed plain_convert 39 sample_format sample_format_tree); [apply plain_convert_laws|exact Hv].
Defined.

(** * The type name two grammars share *)

Lemma field_type_union u :
  u ∈ DslAstTypes.literal_unions → lu_name u = #"FieldType" → u = DslAstTypes.FieldType_literals.
Proof.
  intros Hu. assert (Forall (λ u, lu_name u = #"FieldType" → u = DslAstTypes.FieldType_literals)
    DslAstTypes.literal_unions) as Hall.
  { repeat (apply List.Forall_cons; [intros H; first [reflexivity|discriminate H]|]). apply List.Forall_nil. }
  rewrite Forall_forall in Hall. by apply Hall.
Qed.

Lemma field_type_no_union u : u ∈ DslAstTypes.node_unions → nu_name u ≠ #"FieldType".
Proof.
  intros Hu. assert (Forall (λ u, nu_name u ≠ #"FieldType") DslAstTypes.node_unions) as Hall.
  { repeat (apply List.Forall_cons; [intros H; discriminate H|]). apply List.Forall_nil. }
  rewrite Forall_forall in Hall. by apply Hall.
Qed.

(** The field type of a domain file is declared by the union of the event
    schema: of the seven words the domain grammar offers, exactly [string],
    [date] and [datetime] are values of the declared type, and only these
    pass the exported guard. *)
Theorem domain_field_type w :
  derives DomainGrammar (RuleCall 6) [TKey w] →
  (package_type dsl_package (p_literals dsl_package) (PText w) (TsName #"FieldType") ↔
   w ∈ [ #"string"; #"date"; #"datetime" ]) ∧
  DslAstTypes.isFieldType (VStr w) = bool_decide (w ∈ [ #"string"; #"date"; #"datetime" ]).
Proof.
  intros Hd. assert (package_type dsl_package (p_literals dsl_package) (PText w) (TsName #"FieldType") ↔
    w ∈ lu_literals DslAstTypes.FieldType_literals) as ->.
  { split.
    - intros Ht. unfold package_type in Ht. inversion Ht as [| | | |u s Hu Hs|u|u|u m v Hu]; subst.
      + rewrite (field_type_union u Hu) in Hs by done. destruct Hs as [Hs|Hs]; [done|discriminate Hs].
      + by edestruct field_type_no_union.
    - intros Hw. apply (t_literal _ _ _ DslAstTypes.FieldType_literals); [|by left].
      apply (list_elem_of_lookup_2 _ 2). reflexivity. }
  apply (proj1 (derives_call DomainGrammar 6 _ _ eq_refl)), derives_alternatives in Hd as (e & He & Hd).
  repeat (apply elem_of_cons in He as [->|He];
    [apply derives_keyword in Hd; injection Hd as ->; split;
       [split; intros H; apply (bool_decide_unpack _); apply (bool_decide_pack _) in H; revert H; vm_compute; done
       |vm_compute; reflexivity]|]).
  by apply elem_of_nil in He.
Qed.

Lemma domain_field_type_witness :
  ¬ package_type dsl_package (p_literals dsl_package) (PText #"int") (TsName #"FieldType").
Proof.
  destruct (domain_field_type #"int") as [H _].
  - eapply d_rule; [reflexivity|]. eapply d_alternative; [by left|apply d_keyword].
  - rewrite H. apply (bool_decide_unpack (¬ _)). vm_compute. exact I.
Defined.
