(* ===== verification/Embedder.v ===== *)
(** The sentence embedder of the two applications:
    [apps/oos/src/mainview/embedder/embedder.ts], of which
    [apps/oosd/src/mainview/embedder/embedder.ts] is a copy.

    The model itself is a library; here are the loader around it, as a
    transition system over the module's variables, and the similarity helpers,
    on IEEE double precision numbers.  A listener of the state does not throw. *)

From S2P Require Export JsValue.
From Stdlib Require Export Floats.SpecFloat.

#[local] Set Warnings "-register-all".

(** * Numbers

    JavaScript numbers are the 53-bit floats of [SpecFloat]; the elements of a
    [Float32Array] are some of them. *)
Definition number : Type := spec_float.
Definition num_add : number → number → number := SFadd 53 1024.
Definition num_mul : number → number → number := SFmul 53 1024.

(** [a < b] and [a <= b]; false when a side is [NaN]. *)
Definition num_lt (a b : number) : bool := SFltb a b.
Definition num_le (a b : number) : bool := SFleb a b.
Definition zero : number := S754_zero false.
Definition minus_infinity : number := S754_infinity true.

Definition vector : Type := list number.

(** * Similarity *)

Definition dot_step (dot : number) (p : number * number) : number := num_add dot (num_mul p.1 p.2).

Definition cosine (a b : vector) : outcome number :=
  if negb (length a =? length b) then
    Throw (#"cosine: vector length mismatch (" ++ show_nat (length a) ++ #" vs " ++ show_nat (length b) ++ #")")
  else Ok (foldl dot_step zero (zip a b)).

(** The loop of [maxCosine] at candidate [i]; [None] is the index -1. *)
Fixpoint max_loop (query : vector) (i : nat) (candidates : list vector) (best : option nat * number)
    : outcome (option nat * number) :=
  match candidates with
  | [] => Ok best
  | c :: candidates =>
    s ← cosine query c;
    max_loop query (S i) candidates (if num_lt best.2 s then (Some i, s) else best)
  end.

Definition maxCosine (query : vector) (candidates : list vector) : outcome (option nat * number) :=
  max_loop query 0 candidates (None, minus_infinity).

(** * The loader *)

Definition MODEL_NAME : str := #"Xenova/paraphrase-multilingual-MiniLM-L12-v2".

Inductive EmbedderState :=
| Idle
| LoadingModel (startedAt : N)
| ModelReady (model : str) (loadMs : N)
| ModelError (message : str).

(** The module's variables, the subscribed listeners, and the calls of
    [pipeline] so far: the [n]-th is pending, or has settled. *)
Record Embedder := MkEmbedder {
  e_state : EmbedderState;
  pipelinePromise : option nat;
  listeners : list nat;
  loads : list (option (outcome unit));
  load_start : list N }.

Definition initial_embedder : Embedder := MkEmbedder Idle None [] [] [].

(** What a listener is called with. *)
Definition Notice : Type := nat * EmbedderState.

Definition setState (next : EmbedderState) (e : Embedder) : Embedder * list Notice :=
  (MkEmbedder next (pipelinePromise e) (listeners e) (loads e) (load_start e),
   (λ fn, (fn, next)) <$> listeners e).

(** The promise a call of [loadEmbedder] returns: resolved; that of a load
    under way; or that of the load it starts, with the handler that records a
    failure. *)
Inductive LoadAnswer := Resolved | Chained (load : nat) | Handled (load : nat).

Definition is_ready_state (s : EmbedderState) : bool := match s with ModelReady _ _ => true | _ => false end.

Definition loadEmbedder (now : N) (e : Embedder) : Embedder * list Notice * LoadAnswer :=
  if is_ready_state (e_state e) then (e, [], Resolved)
  else match pipelinePromise e with
       | Some p => (e, [], Chained p)
       | None =>
         let '(e, notices) := setState (LoadingModel now) e in
         let id := length (loads e) in
         (MkEmbedder (e_state e) (Some id) (listeners e) (loads e ++ [None]) (load_start e ++ [now]),
          notices, Handled id)
       end.

(** The load [id] settles: the body of the load and the handler of its first
    caller run before anything else of the program. *)
Definition settle (id : nat) (now : N) (result : outcome unit) (e : Embedder) : Embedder * list Notice :=
  let e1 := MkEmbedder (e_state e) (pipelinePromise e) (listeners e) (<[id := Some result]> (loads e)) (load_start e) in
  match result with
  | Ok _ => setState (ModelReady MODEL_NAME (now - default 0%N (load_start e !! id))) e1
  | Throw message =>
    let '(e2, notices) := setState (ModelError message) e1 in
    (MkEmbedder (e_state e2) None (listeners e2) (loads e2) (load_start e2), notices)
  end.

(** How the promise of a call settles when its load has settled. *)
Definition answer_settles (a : LoadAnswer) (e : Embedder) : option (outcome unit) :=
  match a with
  | Resolved => Some (Ok ())
  | Chained id => r ← loads e !! id; r
  | Handled id => r ← loads e !! id; match r with Some _ => Some (Ok ()) | None => None end
  end.

(** [embedText] up to its first [await]: the load it waits for. *)
Definition embedText (now : N) (e : Embedder) : Embedder * list Notice * outcome nat :=
  let '(e, notices) :=
    match pipelinePromise e with
    | None => let '(e, notices, _) := loadEmbedder now e in (e, notices)
    | Some _ => (e, [])
    end in
  (e, notices, match pipelinePromise e with
               | None => Throw #"embedder: load failed and is not retrying"
               | Some p => Ok p
               end).

Definition isReady (e : Embedder) : bool := is_ready_state (e_state e).
Definition getEmbedderState (e : Embedder) : EmbedderState := e_state e.

(** [Set.add] and [Set.delete] of the listeners. *)
Definition subscribe (fn : nat) (e : Embedder) : Embedder * list Notice :=
  let fns := if decide (fn ∈ listeners e) then listeners e else listeners e ++ [fn] in
  (MkEmbedder (e_state e) (pipelinePromise e) fns (loads e) (load_start e), [(fn, e_state e)]).
Definition unsubscribe (fn : nat) (e : Embedder) : Embedder :=
  MkEmbedder (e_state e) (pipelinePromise e) (filter (λ f, f ≠ fn) (listeners e)) (loads e) (load_start e).

(** What can happen: calls by the program, and a pending load settling. *)
Inductive embedder_step : Embedder → Embedder → Prop :=
| es_load now e : embedder_step e (loadEmbedder now e).1.1
| es_embed now e : embedder_step e (embedText now e).1.1
| es_settle id now result e : loads e !! id = Some None → embedder_step e (settle id now result e).1
| es_subscribe fn e : embedder_step e (subscribe fn e).1
| es_unsubscribe fn e : embedder_step e (unsubscribe fn e).

Definition reachable_embedder : Embedder → Prop := rtc embedder_step initial_embedder.

(** * Ordering of numbers *)

(** The order of floats as a lexicographic order of integers. *)
Definition num_key (a : number) : option (Z * Z * Z) :=
  match a with
  | S754_nan => None
  | S754_infinity s => Some (if s then -2 else 2, 0, 0)%Z
  | S754_zero _ => Some (0, 0, 0)%Z
  | S754_finite s m e => Some (if s then (-1, -e, Z.neg m) else (1, e, Z.pos m))%Z
  end.

Definition key_lt (a b : Z * Z * Z) : Prop :=
  (a.1.1 < b.1.1 ∨ (a.1.1 = b.1.1 ∧ (a.1.2 < b.1.2 ∨ (a.1.2 = b.1.2 ∧ a.2 < b.2))))%Z.

Lemma num_lt_key a b :
  num_lt a b = true ↔ ∃ ka kb, num_key a = Some ka ∧ num_key b = Some kb ∧ key_lt ka kb.
Proof.
  assert (∀ P : Prop, (false = true ↔ P) ↔ ¬ P) as Hf by (intros P; intuition discriminate).
  assert (∀ P : Prop, (true = true ↔ P) ↔ P) as Ht by tauto.
  assert (∀ ka kb : Z * Z * Z, (∃ a b, Some ka = Some a ∧ Some kb = Some b ∧ key_lt a b) ↔ key_lt ka kb) as Hk.
  { intros ka kb. split; [intros (? & ? & [= <-] & [= <-] & H); exact H|]. intros H. by exists ka, kb. }
  unfold num_lt, SFltb, key_lt in *.
  destruct a as [sa|sa| |sa ma ea], b as [sb|sb| |sb mb eb]; cbn [SFcompare num_key];
    try (rewrite Hf; intros (? & ? & H1 & H2 & _); discriminate);
    rewrite Hk; try destruct sa; try destruct sb; cbn [fst snd]; rewrite ?Hf, ?Ht; try lia.
  all: destruct (Z.compare_spec ea eb); cbn [CompOpp]; rewrite ?Hf, ?Ht; try lia.
  all: change (Pos.compare_cont Eq ma mb) with (Pos.compare ma mb);
    destruct (Pos.compare_spec ma mb); cbn [CompOpp]; rewrite ?Hf, ?Ht; try lia.
Qed.

Definition is_nan (a : number) : bool := match a with S754_nan => true | _ => false end.

Lemma num_lt_trans a b c : num_lt a b = true → num_lt b c = true → num_lt a c = true.
Proof.
  rewrite !num_lt_key. intros (ka & kb & Ha & Hb & H1) (kb' & kc & Hb' & Hc & H2).
  rewrite Hb in Hb'. injection Hb' as <-. exists ka, kc. split_and!; [done..|]. unfold key_lt in *. lia.
Qed.

Lemma num_lt_irrefl a : num_lt a a = false.
Proof.
  destruct (num_lt a a) eqn:E; [|done]. apply num_lt_key in E as (ka & kb & Ha & Hb & H).
  rewrite Ha in Hb. injection Hb as <-. unfold key_lt in H. lia.
Qed.

Lemma num_le_lt_trans a b c :
  is_nan a = false → num_lt b a = false → num_lt b c = true → num_lt a c = true.
Proof.
  intros Hn Hba Hbc. apply num_lt_key in Hbc as (kb & kc & Hb & Hc & Hlt).
  assert (∃ ka, num_key a = Some ka) as [ka Ha] by (destruct a; eauto; discriminate Hn).
  apply num_lt_key. exists ka, kc. split_and!; [done..|].
  assert (¬ key_lt kb ka) as Hno.
  { intros H. assert (num_lt b a = true) as E by (apply num_lt_key; by exists kb, ka). by rewrite E in Hba. }
  unfold key_lt in *. lia.
Qed.

Lemma minus_infinity_least a : num_lt a minus_infinity = false.
Proof. by destruct a as [[]|[]| |[] m e]. Qed.

Lemma above_not_nan a b : num_lt a b = true → is_nan b = false.
Proof. intros H. destruct b; try done. by destruct a as [[]|[]| |[] m e]. Qed.

Lemma num_le_spec x y : num_le x y = true ↔ is_nan x = false ∧ is_nan y = false ∧ num_lt y x = false.
Proof.
  unfold num_le, num_lt, SFleb, SFltb. split.
  - intros H. destruct x as [sx|sx| |sx mx ex], y as [sy|sy| |sy my ey]; try done;
      try destruct sx; try destruct sy; try done; cbn [SFcompare] in *;
      rewrite (Z.compare_antisym ey ex) in *; destruct (Z.compare_spec ey ex); try done; cbn [CompOpp] in *;
      change (Pos.compare_cont Eq ?a ?b) with (Pos.compare a b) in *;
      rewrite (Pos.compare_antisym my mx) in *; by destruct (Pos.compare_spec my mx).
  - intros (H1 & H2 & H). destruct x as [sx|sx| |sx mx ex], y as [sy|sy| |sy my ey]; try done;
      try destruct sx; try destruct sy; try done; cbn [SFcompare] in *;
      rewrite (Z.compare_antisym ey ex) in *; destruct (Z.compare_spec ey ex); try done; cbn [CompOpp] in *;
      change (Pos.compare_cont Eq ?a ?b) with (Pos.compare a b) in *;
      rewrite (Pos.compare_antisym my mx) in *; by destruct (Pos.compare_spec my mx).
Qed.

(** At least [t], and not below another that is. *)
Lemma num_le_max t a b : num_le t a = true → is_nan b = false → num_lt b a = false → num_le t b = true.
Proof.
  rewrite !num_le_spec. intros (Ht & Ha & Hta) Hb Hba. split_and!; [done..|].
  destruct (num_lt b t) eqn:E; [|done].
  by rewrite (num_le_lt_trans a b t Ha Hba E) in Hta.
Qed.

Lemma num_le_lower t t' a : num_lt t t' = true → num_le t' a = true → num_le t a = true.
Proof.
  rewrite !num_le_spec. intros Htt' (Ht' & Ha & Hlt). split_and!; [|done|].
  - destruct t; [done|done| |done]. by destruct t'.
  - destruct (num_lt a t) eqn:E; [|done]. by rewrite (num_lt_trans a t t' E Htt') in Hlt.
Qed.

(** * The closest candidate *)

Definition score (query c : vector) : number := foldl dot_step zero (zip query c).

Lemma cosine_score query c : length query = length c → cosine query c = Ok (score query c).
Proof. intros H. unfold cosine. by rewrite H, Nat.eqb_refl. Qed.

(** [best] is the outcome of scoring the candidates [cs], indexed from 0. *)
Definition closest (query : vector) (cs : list vector) (best : option nat * number) : Prop :=
  (∀ i c, cs !! i = Some c → num_lt best.2 (score query c) = false) ∧
  match best.1 with
  | None => best.2 = minus_infinity
  | Some k => num_lt minus_infinity best.2 = true ∧ (∃ c, cs !! k = Some c ∧ best.2 = score query c) ∧
              ∀ i c, i < k → cs !! i = Some c →
                is_nan (score query c) = true ∨ num_lt (score query c) best.2 = true
  end.

Lemma closest_snoc query cs best c :
  closest query cs best →
  closest query (cs ++ [c]) (if num_lt best.2 (score query c) then (Some (length cs), score query c) else best).
Proof.
  intros [Hmax Hbest]. destruct (num_lt best.2 (score query c)) eqn:E.
  - split; cbn [fst snd].
    + intros i c' [Hi|[? ?]]%lookup_app_Some.
      * specialize (Hmax i c' Hi). destruct (num_lt (score query c) _) eqn:E2; [|done].
        by rewrite (num_lt_trans _ _ _ E E2) in Hmax.
      * assert (i - length cs = 0) as Hz by (apply lookup_lt_Some in H0; cbn [length] in H0; lia).
        rewrite Hz in H0. injection H0 as <-. apply num_lt_irrefl.
    + split; [destruct best as [[k|] b]; cbn [fst snd] in *; [destruct Hbest as (Hb & _); by eapply num_lt_trans|by subst b]|].
      split; [exists c; split; [|done]; by rewrite lookup_app_r, Nat.sub_diag by lia|].
      intros i c' Hi Hc'. rewrite lookup_app_l in Hc' by lia.
      destruct (is_nan (score query c')) eqn:En; [by left|right].
      by apply (num_le_lt_trans _ best.2); [|eapply Hmax|].
  - split.
    + intros i c' [Hi|[? Hi]]%lookup_app_Some; [by eapply Hmax|].
      assert (i - length cs = 0) as Hz by (apply lookup_lt_Some in Hi; cbn [length] in Hi; lia).
      rewrite Hz in Hi. by injection Hi as <-.
    + destruct best as [[k|] b]; [|done]. destruct Hbest as (Hinf & (c0 & Hk & Hb) & Hlt).
      split; [done|]. split; [exists c0; split; [by apply lookup_app_l_Some|done]|]. intros i c' Hi Hc'.
      apply lookup_lt_Some in Hk. rewrite lookup_app_l in Hc' by (cbn [fst] in *; lia). by eapply Hlt.
Qed.

Lemma max_loop_exact query cs pre best :
  closest query pre best → Forall (λ c, length query = length c) cs →
  ∃ r, max_loop query (length pre) cs best = Ok r ∧ closest query (pre ++ cs) r.
Proof.
  revert pre best. induction cs as [|c cs IH]; intros pre best Hc Hl.
  - exists best. by rewrite app_nil_r.
  - apply Forall_cons in Hl as [Hlen Hl]. cbn [max_loop]. rewrite cosine_score by done. cbn [mbind outcome_bind].
    replace (S (length pre)) with (length (pre ++ [c])) by (rewrite length_app; cbn [length]; lia).
    replace (pre ++ c :: cs) with ((pre ++ [c]) ++ cs) by (by rewrite <- app_assoc).
    apply IH; [|done]. by apply closest_snoc.
Qed.

Lemma maxCosine_closest query cs :
  Forall (λ c, length query = length c) cs → ∃ r, maxCosine query cs = Ok r ∧ closest query cs r.
Proof.
  intros Hl. apply (max_loop_exact query cs []); [|done]. split; [|done]. intros i c Hi. by rewrite lookup_nil in Hi.
Qed.

Lemma max_loop_throws query cs i best pre c post :
  cs = pre ++ c :: post → Forall (λ c, length query = length c) pre → length query ≠ length c →
  max_loop query i cs best = Throw (#"cosine: vector length mismatch (" ++ show_nat (length query) ++ #" vs " ++
    show_nat (length c) ++ #")").
Proof.
  intros ->. revert i best. induction pre as [|c' pre IH]; intros i best Hl Hne; cbn [app max_loop].
  - unfold cosine. destruct (Nat.eqb_spec (length query) (length c)); [done|]. reflexivity.
  - apply Forall_cons in Hl as [Hlen Hl]. rewrite cosine_score by done. cbn [mbind outcome_bind]. by apply IH.
Qed.

Lemma first_mismatch n (cs : list vector) :
  Forall (λ c, n = length c) cs ∨
  ∃ pre c post, cs = pre ++ c :: post ∧ Forall (λ c, n = length c) pre ∧ n ≠ length c.
Proof.
  induction cs as [|c cs IH]; [by left|]. destruct (decide (n = length c)) as [He|Hne].
  - destruct IH as [IH|(pre & c' & post & -> & Hpre & Hne)]; [left; by constructor|right].
    exists (c :: pre), c', post. split_and!; [done|by constructor|done].
  - right. exists [], c, cs. by split_and!.
Qed.

(** The best candidate: when every candidate is as long as the query,
    [maxCosine] returns an index into the candidates, the first of those whose
    score no other exceeds, together with that score; it returns -1 and
    minus infinity exactly when no candidate scores more than that, as when
    there is none.  [NaN] scores never win.  A candidate of another length
    makes it throw, with the lengths of the first such. *)
Theorem maxCosine_exact query candidates :
  match maxCosine query candidates with
  | Ok (index, best) =>
    Forall (λ c, length query = length c) candidates ∧
    (∀ c, c ∈ candidates → num_lt best (score query c) = false) ∧
    match index with
    | None => best = minus_infinity
    | Some k =>
      k < length candidates ∧ num_lt minus_infinity best = true ∧
      ∃ pre c post, candidates = pre ++ c :: post ∧ length pre = k ∧ best = score query c ∧
        Forall (λ c, is_nan (score query c) = true ∨ num_lt (score query c) best = true) pre
    end
  | Throw message =>
    ∃ pre c post, candidates = pre ++ c :: post ∧ Forall (λ c, length query = length c) pre ∧
      length query ≠ length c ∧
      message = #"cosine: vector length mismatch (" ++ show_nat (length query) ++ #" vs " ++
                show_nat (length c) ++ #")"
  end.
Proof.
  destruct (first_mismatch (length query) candidates) as [Hl|(pre & c & post & Heq & Hpre & Hne)].
  - destruct (maxCosine_closest query candidates Hl) as ([index best] & -> & Hmax & Hbest). cbn [fst snd] in *.
    split_and!; [done|intros c [i Hi]%list_elem_of_lookup; by eapply Hmax|].
    destruct index as [k|]; [|done]. destruct Hbest as (Hinf & (c & Hk & Hb) & Hlt).
    split_and!; [by eapply lookup_lt_Some|done|]. apply list_elem_of_split_length in Hk as (pre & post & -> & Hlen).
    exists pre, c, post. split_and!; [done|done|done|]. apply Forall_lookup. intros i c' Hi. apply (Hlt i).
    + apply lookup_lt_Some in Hi. lia.
    + by apply lookup_app_l_Some.
  - unfold maxCosine. rewrite (max_loop_throws query candidates 0 _ pre c post Heq Hpre Hne).
    exists pre, c, post. by split_and!.
Qed.

(** Two float32 vectors and the query [(1, 0)]: the second candidate is the
    closest. *)
Definition one : number := S754_finite false 4503599627370496 (-52).
Definition half : number := S754_finite false 4503599627370496 (-53).
Example max_cosine_1 :
  maxCosine [one; zero] [[zero; one]; [half; half]; [half; zero]] = Ok (Some 1, half) ∧
  maxCosine [one] [] = Ok (None, minus_infinity) ∧ maxCosine [one] [[S754_nan]] = Ok (None, minus_infinity) ∧
  maxCosine [one] [[one]; [one; one]] = Throw #"cosine: vector length mismatch (1 vs 2)".
Proof. vm_compute. by split_and!. Qed.

(** * The life of the loader *)

Definition failed_load (e : Embedder) (id : nat) : Prop := ∃ m, loads e !! id = Some (Some (Throw m)).

(** What the variables say of the loads made so far. *)
Definition loader_ok (e : Embedder) : Prop :=
  length (load_start e) = length (loads e) ∧
  match e_state e, pipelinePromise e with
  | (Idle | ModelError _), None => ∀ id, id < length (loads e) → failed_load e id
  | LoadingModel t, Some p =>
    S p = length (loads e) ∧ loads e !! p = Some None ∧ load_start e !! p = Some t ∧ ∀ id, id < p → failed_load e id
  | ModelReady _ _, Some p =>
    S p = length (loads e) ∧ loads e !! p = Some (Some (Ok ())) ∧ ∀ id, id < p → failed_load e id
  | _, _ => False
  end.

Lemma failed_not_pending e id : failed_load e id → loads e !! id ≠ Some None.
Proof. intros [m Hm] H. rewrite Hm in H. discriminate H. Qed.

Lemma pending_is_last e id :
  loader_ok e → loads e !! id = Some None →
  ∃ t, e_state e = LoadingModel t ∧ pipelinePromise e = Some id ∧ S id = length (loads e).
Proof.
  intros [_ Hok] Hp. pose proof (lookup_lt_Some _ _ _ Hp) as Hlt.
  destruct (e_state e) as [|t|m ms|m], (pipelinePromise e) as [p|]; try done.
  - by destruct (failed_not_pending e id (Hok id Hlt)).
  - destruct Hok as (Hlen & _ & _ & Hfail). exists t. destruct (decide (id = p)) as [->|Hne]; [done|].
    destruct (failed_not_pending e id); [apply Hfail; lia|done].
  - destruct Hok as (Hlen & Hr & Hfail). destruct (decide (id = p)) as [->|Hne].
    + rewrite Hr in Hp. discriminate Hp.
    + destruct (failed_not_pending e id); [apply Hfail; lia|done].
  - by destruct (failed_not_pending e id (Hok id Hlt)).
Qed.

(** [loadEmbedder] by the state it finds. *)
Lemma loadEmbedder_cases now e :
  loader_ok e →
  match e_state e with
  | ModelReady _ _ => loadEmbedder now e = (e, [], Resolved)
  | LoadingModel _ => ∃ p, pipelinePromise e = Some p ∧ loadEmbedder now e = (e, [], Chained p)
  | _ => let id := length (loads e) in
         loadEmbedder now e =
           (MkEmbedder (LoadingModel now) (Some id) (listeners e) (loads e ++ [None]) (load_start e ++ [now]),
            (λ fn, (fn, LoadingModel now)) <$> listeners e, Handled id) ∧
         ∀ i, i < id → failed_load e i
  end.
Proof.
  intros [_ Hok]. unfold loadEmbedder.
  destruct (e_state e) as [|t|m ms|m] eqn:Es, (pipelinePromise e) as [p|] eqn:Ep; cbn [is_ready_state]; try done.
  by exists p.
Qed.

Lemma loadEmbedder_ok now e : loader_ok e → loader_ok (loadEmbedder now e).1.1.
Proof.
  intros Hok. pose proof (loadEmbedder_cases now e Hok) as Hc. pose proof Hok as [Hlen Hst].
  assert (∀ e', e' = MkEmbedder (LoadingModel now) (Some (length (loads e))) (listeners e) (loads e ++ [None])
            (load_start e ++ [now]) → (∀ i, i < length (loads e) → failed_load e i) → loader_ok e') as Hnew.
  { intros e' -> Hf. split; cbn [loads load_start e_state pipelinePromise].
    - rewrite !length_app. by rewrite Hlen.
    - rewrite length_app. split_and!; [cbn [length]; lia|by rewrite lookup_app_r, Nat.sub_diag by lia
        |by rewrite <- Hlen, lookup_app_r, Nat.sub_diag by lia|].
      intros id Hid. destruct (Hf id Hid) as [m Hm]. exists m. cbn [loads]. by apply lookup_app_l_Some. }
  destruct (e_state e) as [|t|m ms|m].
  - destruct Hc as [-> Hf]. by apply Hnew.
  - by destruct Hc as (p & _ & ->).
  - by rewrite Hc.
  - destruct Hc as [-> Hf]. by apply Hnew.
Qed.

Lemma settle_ok id now result e : loader_ok e → loads e !! id = Some None → loader_ok (settle id now result e).1.
Proof.
  intros Hok Hp. destruct (pending_is_last e id Hok Hp) as (t & Hs & Hpr & Hlen).
  destruct Hok as [Hl Hok]. rewrite Hs, Hpr in Hok. destruct Hok as (_ & _ & _ & Hf).
  assert (∀ i, i < id → ∃ m, <[id := Some result]> (loads e) !! i = Some (Some (Throw m))) as Hf'.
  { intros i Hi. destruct (Hf i Hi) as [m Hm]. exists m. by rewrite list_lookup_insert_ne by lia. }
  assert (<[id := Some result]> (loads e) !! id = Some (Some result)) as Hid
    by (apply list_lookup_insert_eq; by eapply lookup_lt_Some).
  unfold settle, loader_ok. destruct result as [[]|m]; cbn [setState fst loads load_start e_state pipelinePromise];
    rewrite length_insert; (split; [done|]).
  - rewrite Hpr. split_and!; [done|done|]. intros i Hi. unfold failed_load. cbn [loads]. by apply Hf'.
  - intros i Hi. unfold failed_load. cbn [loads]. destruct (decide (i = id)) as [->|Hne]; [by exists m|].
    apply Hf'. lia.
Qed.

Lemma embedText_load now e :
  (embedText now e).1 = match pipelinePromise e with Some _ => (e, []) | None => (loadEmbedder now e).1 end.
Proof.
  unfold embedText. destruct (pipelinePromise e) as [p|] eqn:E; [by rewrite E|].
  by destruct (loadEmbedder now e) as [[e' ns] a].
Qed.

Lemma embedder_step_ok e e' : embedder_step e e' → loader_ok e → loader_ok e'.
Proof.
  intros Hstep Hok. destruct Hstep as [now e|now e|id now r e Hp|fn e|fn e].
  - by apply loadEmbedder_ok.
  - rewrite embedText_load. destruct (pipelinePromise e); [done|by apply loadEmbedder_ok].
  - by apply settle_ok.
  - exact Hok.
  - exact Hok.
Qed.

Lemma reachable_loader_ok e : reachable_embedder e → loader_ok e.
Proof.
  revert e. apply rtc_ind_r.
  - split; [done|]. intros id Hid. inversion Hid.
  - intros e1 e2 _ Hstep. by apply embedder_step_ok.
Qed.

(** The life of the model.  In every reachable state at most one load is
    under way, the last one begun, and the state names it; every load before
    the last has failed.  Once the model is ready it stays so and nothing
    loads it again.  [embedText] always finds a load to wait for, so its own
    error is never raised. *)
Theorem embedder_one_load e :
  reachable_embedder e →
  (∀ id, loads e !! id = Some None →
     S id = length (loads e) ∧ pipelinePromise e = Some id ∧ ∃ t, e_state e = LoadingModel t) ∧
  (∀ id, S id < length (loads e) → failed_load e id) ∧
  (∀ e', isReady e = true → embedder_step e e' → e_state e' = e_state e ∧ loads e' = loads e) ∧
  (∀ now, ∃ p, (embedText now e).2 = Ok p ∧ pipelinePromise (embedText now e).1.1 = Some p).
Proof.
  intros Hr. pose proof (reachable_loader_ok e Hr) as Hok. pose proof Hok as [Hlen Hst]. split_and!.
  - intros id Hp. destruct (pending_is_last e id Hok Hp) as (t & ? & ? & ?). eauto.
  - intros id Hid. destruct (e_state e), (pipelinePromise e); try done.
    + apply Hst. lia.
    + destruct Hst as (Hl & _ & _ & Hf). apply Hf. lia.
    + destruct Hst as (Hl & _ & Hf). apply Hf. lia.
    + apply Hst. lia.
  - unfold isReady. intros e' Hready Hstep. destruct (e_state e) as [| |model ms|] eqn:Es; try done.
    assert (∃ p, pipelinePromise e = Some p) as [p Hp] by (destruct (pipelinePromise e); [by eexists|done]).
    destruct Hstep as [now e|now e|id now r e Hpend|fn e|fn e]; try done.
    + unfold loadEmbedder. by rewrite Es.
    + rewrite embedText_load. by rewrite Hp.
    + destruct (pending_is_last e id Hok Hpend) as (t & Ht & _). rewrite Ht in Es. discriminate Es.
  - intros now. pose proof (loadEmbedder_cases now e Hok) as Hc. unfold embedText.
    destruct (e_state e), (pipelinePromise e) as [p|] eqn:Ep; try done;
      try (exists p; cbn [fst snd]; rewrite Ep; done); destruct Hc as [-> _]; cbn [fst snd pipelinePromise]; eauto.
Qed.

(** A failed load, a second one that succeeds. *)
Definition sample_embedder : Embedder :=
  (settle 1 7%N (Ok ()) (loadEmbedder 5%N (settle 0 4%N (Throw #"offline") (loadEmbedder 1%N initial_embedder).1.1).1).1.1).1.

Lemma sample_embedder_reachable : reachable_embedder sample_embedder.
Proof.
  unfold reachable_embedder, sample_embedder.
  eapply rtc_l; [apply (es_load 1%N)|]. eapply rtc_l; [apply (es_settle 0 4%N (Throw #"offline")); reflexivity|].
  eapply rtc_l; [apply (es_load 5%N)|]. eapply rtc_l; [apply (es_settle 1 7%N (Ok ())); reflexivity|]. apply rtc_refl.
Qed.

Lemma embedder_one_load_witness :
  e_state sample_embedder = ModelReady MODEL_NAME 2 ∧ failed_load sample_embedder 0.
Proof.
  split; [vm_compute; reflexivity|]. apply (embedder_one_load sample_embedder sample_embedder_reachable). vm_compute. lia.
Defined.

(** A load that fails.  Of the calls of [loadEmbedder], the one that began
    the load never rejects, but each one made while it was under way rejects
    with its error.  Afterwards the state holds the message, and the next call
    begins a new load. *)
Theorem failed_load_answers e id now now' message :
  reachable_embedder e → loads e !! id = Some None →
  let e' := (settle id now (Throw message) e).1 in
  (loadEmbedder now e).2 = Chained id ∧
  answer_settles (Handled id) e' = Some (Ok ()) ∧ answer_settles (Chained id) e' = Some (Throw message) ∧
  e_state e' = ModelError message ∧ (loadEmbedder now' e').2 = Handled (S id) ∧
  (settle id now (Throw message) e).2 = (λ fn, (fn, ModelError message)) <$> listeners e.
Proof.
  intros Hr Hp. pose proof (reachable_loader_ok e Hr) as Hok.
  destruct (pending_is_last e id Hok Hp) as (t & Hs & Hpr & Hlen).
  pose proof (lookup_lt_Some _ _ _ Hp) as Hlt. cbv zeta.
  unfold settle, loadEmbedder, answer_settles, setState. rewrite Hs, Hpr.
  cbn [fst snd e_state pipelinePromise listeners loads load_start is_ready_state].
  rewrite list_lookup_insert_eq by done. rewrite length_insert, <- Hlen. by split_and!.
Qed.

Lemma failed_load_answers_witness :
  let e := (loadEmbedder 1%N initial_embedder).1.1 in
  (loadEmbedder 2%N e).2 = Chained 0 ∧
  answer_settles (Chained 0) (settle 0 2%N (Throw #"offline") e).1 = Some (Throw #"offline").
Proof.
  cbv zeta. destruct (failed_load_answers (loadEmbedder 1%N initial_embedder).1.1 0 2%N 3%N #"offline") as (H1 & _ & H3 & _).
  - eapply rtc_l; [apply (es_load 1%N)|apply rtc_refl].
  - reflexivity.
  - split; [exact H1|exact H3].
Defined.
