(* ===== verification/EmbeddingResolver.v ===== *)
(** The embedding path of the resolver:
    [apps/oos/src/mainview/store/resolver.ts], as a transition system over its
    module variables (index, alias vectors, build in flight) and the calls of
    [resolveTextWithEmbedding] that wait for them. *)

From S2P Require Export TextResolver Embedder.

#[local] Set Warnings "-register-all".

(** * Tunables *)

Definition EMBED_THRESHOLD_HIGH : number := S754_finite false 6305039478318694 (-53).   (** 0.70 *)
Definition EMBED_THRESHOLD_LOW : number := S754_finite false 4953959590107546 (-53).    (** 0.55 *)

(** * Scoring *)

Record DomainVectors := MkDomainVectors { dv_aliases : list str; dv_vectors : list vector }.
Definition AliasVectors : Type := list (str * DomainVectors).

Definition usable_aliases (d : DomainIndexEntry) : list str :=
  List.filter (λ a, 0 <? length (trim a)) (index_aliases d).

(** The body of a build; [embed] is what [embedText] answers during it. *)
Fixpoint build_vectors (embed : str → outcome vector) (domains : list DomainIndexEntry) (map : AliasVectors)
    : outcome AliasVectors :=
  match domains with
  | [] => Ok map
  | d :: domains =>
    let aliases := usable_aliases d in
    if length aliases =? 0 then build_vectors embed domains map
    else vectors ← outcome_map embed aliases;
         build_vectors embed domains (map_set (index_name d) (MkDomainVectors aliases vectors) map)
  end.

Record Best := MkBest { b_domain : option DomainIndexEntry; b_alias : str; b_score : number }.
Definition no_best : Best := MkBest None [] minus_infinity.

(** [dv.aliases[index] ?? ""] *)
Definition alias_at (aliases : list str) (index : option nat) : str :=
  match index with Some k => default [] (aliases !! k) | None => [] end.

Fixpoint best_domain (q : vector) (vectors : AliasVectors) (domains : list DomainIndexEntry) (best : Best)
    : outcome Best :=
  match domains with
  | [] => Ok best
  | d :: domains =>
    match assoc_get (index_name d) vectors with
    | None => best_domain q vectors domains best
    | Some dv =>
      if length (dv_vectors dv) =? 0 then best_domain q vectors domains best
      else '(index, score) ← maxCosine q (dv_vectors dv);
           best_domain q vectors domains
             (if num_lt (b_score best) score then MkBest (Some d) (alias_at (dv_aliases dv) index) score else best)
    end
  end.

(** [ResolveResult] with its two optional fields of the embedding path. *)
Record RichResult := MkRich { rich_result : ResolveResult; matchedAlias : option str; rich_score : option number }.

Section resolver.
Context (collate : str → str → comparison).

Definition keyword_result (state : ResolverState) (text : str) : RichResult :=
  MkRich (resolveText collate state text) None None.

(** From the query's vector on; an exception on the way, that of reading
    [domains] of a state that is no longer ready included, ends in the keyword
    path. *)
Definition embedding_result (state : ResolverState) (vectors : AliasVectors) (q : vector) (text : str) : RichResult :=
  match state with
  | Ready domains views =>
    match best_domain q vectors domains no_best with
    | Ok (MkBest (Some d) alias score) =>
      if num_le EMBED_THRESHOLD_HIGH score
      then MkRich (shapeResult collate views d (to_lower text)) (Some alias) (Some score)
      else keyword_result state text
    | _ => keyword_result state text
    end
  | _ => keyword_result state text
  end.

(** * The index *)

(** The answer of [rpc.getDomains] or [rpc.getViews]. *)
Record IndexAnswer := MkIndexAnswer { ia_error : str; ia_json : str }.

(** The [try] block of [loadResolverIndex], given what the calls answer and
    how their bodies parse ([None] when the member is not an array). *)
Definition index_of_answers
    (parse_domains : str → outcome (option (list DomainIndexEntry)))
    (parse_views : str → outcome (option (list ViewIndexEntry)))
    (answers : outcome (IndexAnswer * IndexAnswer)) : outcome (list DomainIndexEntry * list ViewIndexEntry) :=
  '(d, v) ← answers;
  _ ← (if 0 <? length (ia_error d) then Throw (#"/domains: " ++ ia_error d) else Ok ());
  _ ← (if 0 <? length (ia_error v) then Throw (#"/views: " ++ ia_error v) else Ok ());
  ds ← parse_domains (ia_json d);
  vs ← parse_views (ia_json v);
  Ok (default [] ds, default [] vs).

(** * The module's variables and the calls in progress *)

Record Build := MkBuild { build_domains : list DomainIndexEntry; build_done : bool }.

(** Where a call of [resolveTextWithEmbedding] is: waiting for a build, or for
    the vector of its text, or answered. *)
Inductive Phase :=
| AwaitBuild (build : nat)
| AwaitQuery (vectors : AliasVectors)
| Answered (r : RichResult).

Record Resolver := MkResolver {
  r_state : ResolverState;
  aliasVectors : option AliasVectors;
  aliasVectorsBuilding : option nat;
  builds : list Build;
  calls : list (str * Phase);
  index_loads : nat }.

Definition initial_resolver : Resolver := MkResolver Loading None None [] [] 0.

(** [loadResolverIndex] up to its first [await]. *)
Definition loadResolverIndex (s : Resolver) : Resolver :=
  match r_state s with
  | Ready _ _ => s
  | _ => MkResolver (r_state s) (aliasVectors s) (aliasVectorsBuilding s) (builds s) (calls s) (S (index_loads s))
  end.

(** The rest of it. *)
Definition index_loaded (result : outcome (list DomainIndexEntry * list ViewIndexEntry)) (s : Resolver) : Resolver :=
  match result with
  | Ok (domains, views) => MkResolver (Ready domains views) None None (builds s) (calls s) (index_loads s - 1)
  | Throw m => MkResolver (Failed m) (aliasVectors s) (aliasVectorsBuilding s) (builds s) (calls s) (index_loads s - 1)
  end.

Definition add_call (text : str) (p : Phase) (s : Resolver) : Resolver :=
  MkResolver (r_state s) (aliasVectors s) (aliasVectorsBuilding s) (builds s) (calls s ++ [(text, p)]) (index_loads s).

(** [resolveTextWithEmbedding] and the part of [ensureAliasVectors] it runs at
    once; [ready] is [isReady()]. *)
Definition resolveTextWithEmbedding (text : str) (ready : bool) (s : Resolver) : Resolver :=
  match r_state s with
  | Ready domains _ =>
    if negb ready then add_call text (Answered (keyword_result (r_state s) text)) s
    else match aliasVectors s, aliasVectorsBuilding s with
         | Some m, _ => add_call text (AwaitQuery m) s
         | None, Some b => add_call text (AwaitBuild b) s
         | None, None =>
           let b := length (builds s) in
           add_call text (AwaitBuild b)
             (MkResolver (r_state s) None (Some b) (builds s ++ [MkBuild domains false]) (calls s) (index_loads s))
         end
  | _ => add_call text (Answered (MkRich no_result None None)) s
  end.

(** The build [b] ends: its cache is set, its starter resets the build in
    flight, and every call that waited for it goes on or, when it failed,
    falls back. *)
Definition resume_build (b : nat) (next : str → Phase) (c : str * Phase) : str * Phase :=
  match c.2 with
  | AwaitBuild b' => if b' =? b then (c.1, next c.1) else c
  | _ => c
  end.

Definition build_settled (b : nat) (result : outcome AliasVectors) (s : Resolver) : Resolver :=
  let builds' := alter (λ x, MkBuild (build_domains x) true) b (builds s) in
  match result with
  | Ok m =>
    MkResolver (r_state s) (Some m) None builds' (resume_build b (λ _, AwaitQuery m) <$> calls s) (index_loads s)
  | Throw _ =>
    MkResolver (r_state s) (aliasVectors s) None builds'
      (resume_build b (λ text, Answered (keyword_result (r_state s) text)) <$> calls s) (index_loads s)
  end.

(** The vector of a call's text arrives, or fails to. *)
Definition query_settled (i : nat) (result : outcome vector) (s : Resolver) : Resolver :=
  match calls s !! i with
  | Some (text, AwaitQuery m) =>
    let r := match result with
             | Ok q => embedding_result (r_state s) m q text
             | Throw _ => keyword_result (r_state s) text
             end in
    MkResolver (r_state s) (aliasVectors s) (aliasVectorsBuilding s) (builds s) (<[i := (text, Answered r)]> (calls s))
      (index_loads s)
  | _ => s
  end.
End resolver.

(** * Runs

    [vec] is the vector of a text: when the model answers, it answers with
    that.  One load of the index is under way at a time, and the backend names
    no two domains alike. *)

Section runs.
Context (collate : str → str → comparison) (vec : str → vector).

Definition embeds (embed : str → outcome vector) : Prop := ∀ a v, embed a = Ok v → v = vec a.

Inductive resolver_step : Resolver → Resolver → Prop :=
| rs_load s : index_loads s = 0 → resolver_step s (loadResolverIndex s)
| rs_loaded result s :
    0 < index_loads s → (∀ ds vs, result = Ok (ds, vs) → NoDup (index_name <$> ds)) →
    resolver_step s (index_loaded result s)
| rs_call text ready s : resolver_step s (resolveTextWithEmbedding collate text ready s)
| rs_build b x embed s :
    builds s !! b = Some x → build_done x = false → embeds embed →
    resolver_step s (build_settled collate b (build_vectors embed (build_domains x) []) s)
| rs_query i text m result s :
    calls s !! i = Some (text, AwaitQuery m) → (∀ v, result = Ok v → v = vec text) →
    resolver_step s (query_settled collate i result s).

Definition reachable_resolver : Resolver → Prop := rtc resolver_step initial_resolver.

(** ** The cache *)

(** The vectors of every domain are those of its usable aliases. *)
Definition exact_vectors (domains : list DomainIndexEntry) (m : AliasVectors) : Prop :=
  ∀ d, d ∈ domains → assoc_get (index_name d) m =
    if length (usable_aliases d) =? 0 then None
    else Some (MkDomainVectors (usable_aliases d) (vec <$> usable_aliases d)).

Lemma outcome_map_embeds embed l vs : embeds embed → outcome_map embed l = Ok vs → vs = vec <$> l.
Proof.
  intros He. revert vs. induction l as [|a l IH]; intros vs; cbn [outcome_map].
  - by intros [= <-].
  - intros (v & Hv & H)%outcome_bind_Ok. apply outcome_bind_Ok in H as (vs' & Hvs & [= <-]).
    cbn [fmap list_fmap]. by rewrite (He a v Hv), (IH vs' Hvs).
Qed.

Lemma build_vectors_other embed ds m m' n :
  build_vectors embed ds m = Ok m' → n ∉ index_name <$> ds → assoc_get n m' = assoc_get n m.
Proof.
  revert m. induction ds as [|d ds IH]; intros m; cbn [build_vectors].
  - by intros [= <-].
  - intros H Hn. apply not_elem_of_cons in Hn as [Hne Hn]. destruct (_ =? 0).
    + by apply IH.
    + apply outcome_bind_Ok in H as (vs & _ & H). rewrite (IH _ H Hn), map_set_get. by rewrite decide_False.
Qed.

Lemma build_vectors_exact embed ds m m' :
  embeds embed → NoDup (index_name <$> ds) → (∀ d, d ∈ ds → assoc_get (index_name d) m = None) →
  build_vectors embed ds m = Ok m' → exact_vectors ds m'.
Proof.
  intros He. revert m. induction ds as [|d ds IH]; intros m Hnd Hm H d0 Hd0; [by apply elem_of_nil in Hd0|].
  apply NoDup_cons in Hnd as [Hn Hnd]. cbn [build_vectors] in H.
  apply elem_of_cons in Hd0 as [->|Hd0].
  - destruct (_ =? 0).
    + rewrite (build_vectors_other _ _ _ _ _ H Hn). apply Hm. by left.
    + apply outcome_bind_Ok in H as (vs & Hvs & H). rewrite (build_vectors_other _ _ _ _ _ H Hn), map_set_get.
      rewrite decide_True by done. by rewrite (outcome_map_embeds embed _ _ He Hvs).
  - destruct (_ =? 0).
    + apply (IH m); [done| |done|done]. intros d' Hd'. apply Hm. by right.
    + apply outcome_bind_Ok in H as (vs & Hvs & H). eapply (IH _ Hnd); [|exact H|done].
      intros d' Hd'. rewrite map_set_get. rewrite decide_False; [apply Hm; by right|].
      intros Heq. apply Hn. apply list_elem_of_fmap. by exists d'.
Qed.

(** ** The best domain *)

Context (dim : nat) (Hdim : ∀ a, length (vec a) = dim).

Lemma best_domain_exact q m ds best :
  length q = dim → exact_vectors ds m →
  ∃ best', best_domain q m ds best = Ok best' ∧
    (∀ d a, d ∈ ds → a ∈ usable_aliases d → num_lt (b_score best') (score q (vec a)) = false) ∧
    (∀ x, num_lt (b_score best) x = false → num_lt (b_score best') x = false) ∧
    (best' = best ∨ ∃ d a, d ∈ ds ∧ a ∈ usable_aliases d ∧ is_nan (score q (vec a)) = false ∧
       best' = MkBest (Some d) a (score q (vec a))).
Proof.
  intros Hq. revert best. induction ds as [|d ds IH]; intros best Hm.
  { exists best. split_and!; [done| |done|by left]. intros d a Hd. by apply elem_of_nil in Hd. }
  assert (exact_vectors ds m) as Hds by (intros d' Hd'; apply Hm; by right).
  pose proof (Hm d (list_elem_of_here _ _)) as Hd. cbn [best_domain]. rewrite Hd.
  assert (∀ best1, (∀ a, a ∈ usable_aliases d → num_lt (b_score best1) (score q (vec a)) = false) →
    (∀ x, num_lt (b_score best) x = false → num_lt (b_score best1) x = false) →
    (best1 = best ∨ ∃ a, a ∈ usable_aliases d ∧ is_nan (score q (vec a)) = false ∧
       best1 = MkBest (Some d) a (score q (vec a))) →
    ∃ best', best_domain q m ds best1 = Ok best' ∧
      (∀ d' a, d' ∈ d :: ds → a ∈ usable_aliases d' → num_lt (b_score best') (score q (vec a)) = false) ∧
      (∀ x, num_lt (b_score best) x = false → num_lt (b_score best') x = false) ∧
      (best' = best ∨ ∃ d' a, d' ∈ d :: ds ∧ a ∈ usable_aliases d' ∧ is_nan (score q (vec a)) = false ∧
         best' = MkBest (Some d') a (score q (vec a))))
    as Hgo.
  { intros best1 H1 H2 H3. destruct (IH best1 Hds) as (best' & -> & Hall & Hmono & Hwhich). exists best'.
    split_and!; [done| |auto|].
    - intros d' a [->|Hd']%elem_of_cons Ha; [by apply Hmono, H1|by eapply Hall].
    - destruct Hwhich as [->|(d' & a & Hd' & Ha)].
      + destruct H3 as [->|(a & Ha & Hnan & ->)]; [by left|right]. exists d, a. split_and!; [by left|done..].
      + right. exists d', a. destruct Ha as (Ha & Hnan & ->). split_and!; [by right|done..]. }
  destruct (length (usable_aliases d) =? 0) eqn:E.
  { apply Hgo; [|done|by left]. intros a Ha. apply Nat.eqb_eq, length_zero_iff_nil in E. rewrite E in Ha.
    by apply elem_of_nil in Ha. }
  cbn [dv_vectors dv_aliases]. rewrite length_fmap, E.
  destruct (maxCosine_closest q (vec <$> usable_aliases d)) as ([index s] & -> & Hmax & Hbest).
  { apply Forall_forall. intros v (a & -> & _)%list_elem_of_fmap. by rewrite Hdim. }
  cbn [mbind outcome_bind fst snd] in *.
  assert (∀ a, a ∈ usable_aliases d → num_lt s (score q (vec a)) = false) as Hs.
  { intros a [i Hi]%list_elem_of_lookup. apply (Hmax i). by rewrite list_lookup_fmap, Hi. }
  destruct (num_lt (b_score best) s) eqn:Elt.
  - destruct index as [k|]; [|subst s; by rewrite minus_infinity_least in Elt].
    destruct Hbest as (_ & (c & Hk & ->) & _). rewrite list_lookup_fmap in Hk.
    destruct (usable_aliases d !! k) as [a|] eqn:Ea; [|discriminate Hk]. injection Hk as <-.
    unfold alias_at. rewrite Ea. cbn [default]. apply Hgo; cbn [b_score].
    + exact Hs.
    + intros x Hx. destruct (num_lt (score q (vec a)) x) eqn:Ex; [|done].
      by rewrite (num_lt_trans _ _ _ Elt Ex) in Hx.
    + right. exists a. split_and!; [by eapply list_elem_of_lookup_2|by eapply above_not_nan|done].
  - apply Hgo; [|done|by left]. intros a Ha. destruct (num_lt (b_score best) (score q (vec a))) eqn:Ex; [|done].
    assert (is_nan s = false) as Hn.
    { destruct index as [k|]; [destruct Hbest as (Hinf & _); by eapply above_not_nan|by subst s]. }
    pose proof (num_le_lt_trans s (b_score best) _ Hn Elt Ex) as Hlt. by rewrite (Hs a Ha) in Hlt.
Qed.

(** ** The invariant *)

Definition pending (s : Resolver) (b : nat) : Prop := ∃ x, builds s !! b = Some x ∧ build_done x = false.

Record ready_ok (domains : list DomainIndexEntry) (s : Resolver) : Prop := {
  ro_loads : index_loads s = 0;
  ro_names : NoDup (index_name <$> domains);
  ro_builds b x : builds s !! b = Some x → build_domains x = domains;
  ro_pending b : pending s b ↔ aliasVectorsBuilding s = Some b;
  ro_one : is_Some (aliasVectors s) → aliasVectorsBuilding s = None;
  ro_cache m : aliasVectors s = Some m → exact_vectors domains m;
  ro_query i text m : calls s !! i = Some (text, AwaitQuery m) → exact_vectors domains m;
  ro_wait i text b : calls s !! i = Some (text, AwaitBuild b) → aliasVectorsBuilding s = Some b }.

Definition resolver_ok (s : Resolver) : Prop :=
  match r_state s with
  | Ready domains _ => ready_ok domains s
  | _ => index_loads s ≤ 1 ∧ builds s = [] ∧ aliasVectors s = None ∧ aliasVectorsBuilding s = None ∧
         ∀ i text p, calls s !! i = Some (text, p) → ∃ r, p = Answered r
  end.

Lemma snoc_lookup {A} (l : list A) x i y : (l ++ [x]) !! i = Some y → l !! i = Some y ∨ y = x.
Proof.
  intros [H|[_ H]]%lookup_app_Some; [by left|right]. by apply list_lookup_singleton_Some in H as [_ ->].
Qed.

Lemma call_ok text ready s : resolver_ok s → resolver_ok (resolveTextWithEmbedding collate text ready s).
Proof.
  intros Hok. unfold resolver_ok, resolveTextWithEmbedding in *.
  destruct (r_state s) as [|D V|m] eqn:Es;
    [cbn [add_call r_state]; rewrite Es; destruct Hok as (Hl & Hb & Ha & Hab & Hc); split_and!; [done..|];
     intros i t p [H|[= -> ->]]%snoc_lookup; [by eapply Hc|by eexists] | |
     cbn [add_call r_state]; rewrite Es; destruct Hok as (Hl & Hb & Ha & Hab & Hc); split_and!; [done..|];
     intros i t p [H|[= -> ->]]%snoc_lookup; [by eapply Hc|by eexists]].
  destruct Hok as [Hl Hn Hb Hp H1 Hca Hq Hw].
  destruct ready; cbn [negb].
  2:{ cbn [add_call r_state]. rewrite Es. split; try done; cbn [add_call calls].
      - intros i t m [H|H]%snoc_lookup; [by eapply Hq|discriminate H].
      - intros i t m [H|H]%snoc_lookup; [by eapply Hw|discriminate H]. }
  destruct (aliasVectors s) as [m|] eqn:Ea; [|destruct (aliasVectorsBuilding s) as [b|] eqn:Eb];
    cbn [add_call r_state]; rewrite ?Es.
  - split; cbn [add_call calls index_loads builds aliasVectors aliasVectorsBuilding]; rewrite ?Ea; try done.
    + intros i t m' [H|H]%snoc_lookup; [by eapply Hq|]. injection H as <- <-. by apply Hca.
    + intros i t b [H|H]%snoc_lookup; [by eapply Hw|discriminate H].
  - split; cbn [add_call calls index_loads builds aliasVectors aliasVectorsBuilding]; rewrite ?Ea, ?Eb; try done.
    + intros i t m' [H|H]%snoc_lookup; [by eapply Hq|discriminate H].
    + intros i t b' [H|H]%snoc_lookup; [by eapply Hw|]. by injection H as <- <-.
  - split; cbn [add_call calls index_loads builds aliasVectors aliasVectorsBuilding]; try done.
    + intros b x [H|H]%snoc_lookup; [by eapply Hb|by subst x].
    + intros b. unfold pending. cbn [add_call builds]. split.
      * intros (x & [H|[Hge H]]%lookup_app_Some & Hd).
        -- assert (pending s b) as Hpb by (by exists x). apply Hp in Hpb. discriminate Hpb.
        -- apply list_lookup_singleton_Some in H as [H0 <-]. f_equal. lia.
      * intros [= <-]. exists (MkBuild D false). by rewrite lookup_app_r, Nat.sub_diag by lia.
    + intros i t m' [H|H]%snoc_lookup; [by eapply Hq|discriminate H].
    + intros i t b' [H|H]%snoc_lookup.
      * apply Hw in H. discriminate H.
      * by injection H as <- <-.
Qed.

Lemma resume_lookup next b (cs : list (str * Phase)) i text p :
  (resume_build b next <$> cs) !! i = Some (text, p) →
  (cs !! i = Some (text, p) ∧ p ≠ AwaitBuild b) ∨ (cs !! i = Some (text, AwaitBuild b) ∧ p = next text).
Proof.
  rewrite list_lookup_fmap. destruct (cs !! i) as [[t ph]|]; [|discriminate 1]. cbn [fmap option_fmap option_map].
  intros H%Some_inj. unfold resume_build in H. cbn [fst snd] in H. destruct ph as [b'|m|r].
  - destruct (Nat.eqb_spec b' b) as [Heq|Hne]; injection H as Ht Hph; subst t p.
    + right. by rewrite Heq.
    + left. split; [done|]. intros [= Heq]. by apply Hne.
  - injection H as -> <-. by left.
  - injection H as -> <-. by left.
Qed.

Lemma build_ok b x embed s :
  builds s !! b = Some x → build_done x = false → embeds embed → resolver_ok s →
  resolver_ok (build_settled collate b (build_vectors embed (build_domains x) []) s).
Proof.
  intros Hb0 Hd0 He Hok. unfold resolver_ok in *.
  destruct (r_state s) as [|D V|m] eqn:Es;
    [destruct Hok as (_ & Hb & _); rewrite Hb in Hb0; by rewrite lookup_nil in Hb0| |
     destruct Hok as (_ & Hb & _); rewrite Hb in Hb0; by rewrite lookup_nil in Hb0].
  destruct Hok as [Hl Hn Hb Hp H1 Hca Hq Hw].
  assert (∀ b', ¬ ∃ y, alter (λ x, MkBuild (build_domains x) true) b (builds s) !! b' = Some y ∧ build_done y = false)
    as Hnone.
  { intros b' (y & Hy & Hdy). destruct (decide (b' = b)) as [->|Hne].
    - rewrite list_lookup_alter_eq, Hb0 in Hy. injection Hy as <-. discriminate Hdy.
    - rewrite list_lookup_alter_ne in Hy by done. assert (pending s b') as H by (by exists y).
      apply Hp in H. assert (pending s b) as H' by (by exists x). apply Hp in H'.
      rewrite H in H'. injection H' as ->. done. }
  assert (∀ b' y, alter (λ x, MkBuild (build_domains x) true) b (builds s) !! b' = Some y → build_domains y = D) as Hdom.
  { intros b' y Hy. destruct (decide (b' = b)) as [->|Hne].
    - rewrite list_lookup_alter_eq, Hb0 in Hy. injection Hy as <-. cbn [build_domains]. by eapply Hb.
    - rewrite list_lookup_alter_ne in Hy by done. by eapply Hb. }
  assert (∀ i t b', calls s !! i = Some (t, AwaitBuild b') → b' = b) as Hall.
  { intros i t b' Hi. apply Hw in Hi. assert (pending s b) as H' by (by exists x). apply Hp in H'.
    rewrite H' in Hi. by injection Hi as ->. }
  rewrite (Hb b x Hb0). unfold build_settled. destruct (build_vectors embed D []) as [m|err] eqn:Em;
    cbn [r_state]; rewrite Es; split; cbn [index_loads builds aliasVectors aliasVectorsBuilding calls]; try done.
  - intros b'. split; [intros H; by destruct (Hnone b')|discriminate 1].
  - intros m' [= <-]. apply (build_vectors_exact embed D [] m He Hn); [|done]. done.
  - intros i t m' [[H _]|[_ [= ->]]]%resume_lookup; [by eapply Hq|].
    apply (build_vectors_exact embed D [] m He Hn); [|done]. done.
  - intros i t b' [[H Hne]|[_ H]]%resume_lookup; [|discriminate H]. apply Hall in H as ->. done.
  - intros b'. split; [intros H; by destruct (Hnone b')|discriminate 1].
  - intros i t m' [[H _]|[_ H]]%resume_lookup; [by eapply Hq|discriminate H].
  - intros i t b' [[H Hne]|[_ H]]%resume_lookup; [|discriminate H]. apply Hall in H as ->. done.
Qed.

Lemma query_ok i text m result s :
  calls s !! i = Some (text, AwaitQuery m) → resolver_ok s → resolver_ok (query_settled collate i result s).
Proof.
  intros Hi Hok. unfold query_settled. rewrite Hi. unfold resolver_ok in *. cbn [r_state].
  assert (∀ r j t p, <[i := (text, Answered r)]> (calls s) !! j = Some (t, p) →
            calls s !! j = Some (t, p) ∨ ∃ r', p = Answered r') as Hins.
  { intros r j t p H. apply list_lookup_insert_Some in H as [(_ & H & _)|[_ H]]; [right|by left].
    injection H as _ <-. by eexists. }
  destruct (r_state s) as [|D V|e].
  - destruct Hok as (Hl & Hb & Ha & Hab & Hc). split_and!; [done..|]. intros j t p [H|H]%Hins; [by eapply Hc|done].
  - destruct Hok as [Hl Hn Hb Hp H1 Hca Hq Hw]. split; try done; cbn [calls aliasVectorsBuilding].
    + intros j t m' [H|[r' H]]%Hins; [by eapply Hq|discriminate H].
    + intros j t b [H|[r' H]]%Hins; [by eapply Hw|discriminate H].
  - destruct Hok as (Hl & Hb & Ha & Hab & Hc). split_and!; [done..|]. intros j t p [H|H]%Hins; [by eapply Hc|done].
Qed.

Lemma load_ok s : index_loads s = 0 → resolver_ok s → resolver_ok (loadResolverIndex s).
Proof.
  intros Hl Hok. unfold loadResolverIndex, resolver_ok in *. destruct (r_state s) as [|D V|e] eqn:Es.
  - cbn [r_state index_loads]. destruct Hok as (_ & Hok). split; [lia|done].
  - by rewrite Es.
  - cbn [r_state index_loads]. destruct Hok as (_ & Hok). split; [lia|done].
Qed.

Lemma loaded_ok result s :
  0 < index_loads s → (∀ ds vs, result = Ok (ds, vs) → NoDup (index_name <$> ds)) →
  resolver_ok s → resolver_ok (index_loaded result s).
Proof.
  intros Hl Hn Hok. unfold resolver_ok in *.
  destruct (r_state s) as [|D V|e]; [|destruct Hok as [H _ _ _ _ _ _ _]; lia|];
    destruct Hok as (Hl' & Hb & Ha & Hab & Hc);
    (destruct result as [[ds vs]|err]; cbn [index_loaded r_state index_loads builds aliasVectors aliasVectorsBuilding calls];
     [|split_and!; [lia|done..]]);
    (split; cbn [index_loaded index_loads builds aliasVectors aliasVectorsBuilding calls];
     [lia|by eapply Hn|intros b x; rewrite Hb; by rewrite lookup_nil| |done|done| |]).
  1,4: (intros b; unfold pending; cbn [builds]; rewrite Hb; split; [intros (x & H & _); by rewrite lookup_nil in H|discriminate 1]).
  1,3: (intros i t m H; destruct (Hc i t _ H) as [r Hr]; discriminate Hr).
  all: (intros i t b H; destruct (Hc i t _ H) as [r Hr]; discriminate Hr).
Qed.

Lemma reachable_ok s : reachable_resolver s → resolver_ok s.
Proof.
  revert s. apply rtc_ind_r.
  - unfold resolver_ok. cbn. split_and!; [lia|done|done|done|]. intros i t p H. by rewrite lookup_nil in H.
  - intros s s' _ Hstep Hok. destruct Hstep.
    + by apply load_ok.
    + by apply loaded_ok.
    + by apply call_ok.
    + by eapply build_ok.
    + by eapply query_ok.
Qed.

(** ** What a call answers *)

(** The score of a text against an alias. *)
Definition alias_score (text a : str) : number := score (vec text) (vec a).

(** The answer the similarity of the aliases calls for. *)
Definition right_answer (domains : list DomainIndexEntry) (views : list ViewIndexEntry) (text : str) (r : RichResult)
    : Prop :=
  (∃ d a, d ∈ domains ∧ a ∈ usable_aliases d ∧
     num_le EMBED_THRESHOLD_HIGH (alias_score text a) = true ∧
     (∀ d' a', d' ∈ domains → a' ∈ usable_aliases d' → num_lt (alias_score text a) (alias_score text a') = false) ∧
     r = MkRich (shapeResult collate views d (to_lower text)) (Some a) (Some (alias_score text a))) ∨
  (r = keyword_result collate (Ready domains views) text ∧
   ∀ d' a', d' ∈ domains → a' ∈ usable_aliases d' → num_le EMBED_THRESHOLD_HIGH (alias_score text a') = false).

Lemma embedding_result_right D V m text :
  exact_vectors D m → right_answer D V text (embedding_result collate (Ready D V) m (vec text) text).
Proof.
  intros Hm. unfold embedding_result, right_answer, alias_score.
  destruct (best_domain_exact (vec text) m D no_best (Hdim text) Hm) as (best & -> & Hmax & _ & Hwhich).
  assert (∀ best, (best = no_best ∨ is_nan (b_score best) = false) →
    (∀ d a, d ∈ D → a ∈ usable_aliases d → num_lt (b_score best) (score (vec text) (vec a)) = false) →
    num_le EMBED_THRESHOLD_HIGH (b_score best) = false →
    ∀ d' a', d' ∈ D → a' ∈ usable_aliases d' → num_le EMBED_THRESHOLD_HIGH (score (vec text) (vec a')) = false) as Hlow.
  { intros b Hb Hall Hno d' a' Hd' Ha'. destruct (num_le EMBED_THRESHOLD_HIGH (score (vec text) (vec a'))) eqn:E; [|done].
    rewrite (num_le_max _ _ (b_score b) E) in Hno; [done| |by eapply Hall]. by destruct Hb as [->|]. }
  destruct Hwhich as [->|(d & a & Hd & Ha & Hnan & ->)].
  - right. split; [done|]. by apply (Hlow no_best); [left| |].
  - cbn [b_score] in *. destruct (num_le EMBED_THRESHOLD_HIGH (score (vec text) (vec a))) eqn:E.
    + left. exists d, a. by split_and!.
    + right. split; [done|]. apply (Hlow (MkBest (Some d) a (score (vec text) (vec a)))); [right; exact Hnan|exact Hmax|exact E].
Qed.

(** C20: The embedding path answers right.  However calls, builds of the alias
    vectors and failures interleave, a call whose text has been embedded is
    answered from the vectors of the index that is loaded: with the domain of
    the alias closest to the text, naming that alias and its score, exactly
    when some alias scores at least the threshold, and otherwise with the
    answer of the keyword path, as it is when the embedder fails. *)
Theorem embedding_answers s i text m :
  reachable_resolver s → calls s !! i = Some (text, AwaitQuery m) →
  ∃ domains views, r_state s = Ready domains views ∧
    (∃ r, calls (query_settled collate i (Ok (vec text)) s) !! i = Some (text, Answered r) ∧
          right_answer domains views text r) ∧
    ∀ err, calls (query_settled collate i (Throw err) s) !! i =
      Some (text, Answered (keyword_result collate (Ready domains views) text)).
Proof.
  intros Hr Hi. pose proof (reachable_ok s Hr) as Hok. unfold resolver_ok in Hok.
  assert (∃ D V, r_state s = Ready D V ∧ exact_vectors D m) as (D & V & Hs & Hm).
  { destruct (r_state s) as [|D V|e].
    - destruct Hok as (_ & _ & _ & _ & Hc). destruct (Hc i text _ Hi) as [r Hr']. discriminate Hr'.
    - exists D, V. split; [done|]. by eapply ro_query.
    - destruct Hok as (_ & _ & _ & _ & Hc). destruct (Hc i text _ Hi) as [r Hr']. discriminate Hr'. }
  exists D, V. split; [done|]. unfold query_settled. rewrite Hi, Hs. cbn [calls].
  assert (∀ c, <[i := c]> (calls s) !! i = Some c) as Hins by (intros c; apply list_lookup_insert_eq; by eapply lookup_lt_Some).
  split; [|intros err; apply Hins]. eexists. split; [apply Hins|]. by apply embedding_result_right.
Qed.

(** The alias vectors are built once.  At most one build is under way,
    none when the vectors are there, and every call that waits waits for it;
    when the build ends the call goes on with its vectors, or has its keyword
    answer if the build failed. *)
Theorem one_build_at_a_time s :
  reachable_resolver s →
  (∀ b b', pending s b → pending s b' → b = b') ∧ (is_Some (aliasVectors s) → ∀ b, ¬ pending s b) ∧
  ∀ i text b, calls s !! i = Some (text, AwaitBuild b) → pending s b ∧
    ∀ result, calls (build_settled collate b result s) !! i =
      Some (text, match result with Ok m => AwaitQuery m | Throw _ => Answered (keyword_result collate (r_state s) text) end).
Proof.
  intros Hr. pose proof (reachable_ok s Hr) as Hok. unfold resolver_ok in Hok.
  destruct (r_state s) as [|D V|e] eqn:Es;
    [destruct Hok as (_ & Hb & Ha & _ & Hc)| |destruct Hok as (_ & Hb & Ha & _ & Hc)].
  1,3: (unfold pending; rewrite Hb, Ha; split_and!;
        [intros b b' (x & H & _); by rewrite lookup_nil in H|intros [m H]; discriminate H|];
        intros i text b Hi; destruct (Hc i text _ Hi) as [r Hr']; discriminate Hr').
  destruct Hok as [Hl Hn Hb Hp H1 Hca Hq Hw]. split_and!.
  - intros b b' H%Hp H'%Hp. rewrite H in H'. by injection H'.
  - intros Hsome b H%Hp. rewrite (H1 Hsome) in H. discriminate H.
  - intros i text b Hi. split; [apply Hp; by eapply Hw|]. intros result.
    destruct result as [m|err]; unfold build_settled; cbn [calls]; rewrite list_lookup_fmap, Hi;
      cbn [fmap option_fmap option_map]; unfold resume_build; cbn [fst snd]; by rewrite Nat.eqb_refl, ?Es.
Qed.
End runs.

(** * A run *)

Definition sample_collate (a b : str) : comparison := Eq.
(** A model that puts [person] and [Personen] together. *)
Definition sample_vec (a : str) : vector :=
  if includes #"erson" a then [one; zero] else [zero; one].
Definition sample_domains : list DomainIndexEntry :=
  [ MkDomainEntry #"vertrag" #"vertrag" None [ #"vertrag" ]; MkDomainEntry #"person" #"person" None [ #"person"; #"  " ] ].
Definition sample_views : list ViewIndexEntry :=
  [ MkViewEntry #"person_list" #"Personen" #"person" true [] ].

Definition waiting_for_build : Resolver :=
  resolveTextWithEmbedding sample_collate #"alle Personen" true
    (index_loaded (Ok (sample_domains, sample_views)) (loadResolverIndex initial_resolver)).
Definition waiting_for_query : Resolver :=
  build_settled sample_collate 0 (build_vectors (λ a, Ok (sample_vec a)) sample_domains []) waiting_for_build.

Lemma sample_names : NoDup (index_name <$> sample_domains).
Proof. apply (bool_decide_unpack _). vm_compute. exact I. Qed.

Lemma waiting_for_build_reachable : reachable_resolver sample_collate sample_vec waiting_for_build.
Proof.
  unfold reachable_resolver, waiting_for_build. eapply rtc_l; [apply rs_load; reflexivity|].
  eapply rtc_l; [apply (rs_loaded _ _ (Ok (sample_domains, sample_views)))|].
  - cbn. lia.
  - intros ds vs [= <- <-]. apply sample_names.
  - eapply rtc_l; [apply (rs_call _ _ #"alle Personen" true)|apply rtc_refl].
Qed.

Lemma waiting_for_query_reachable : reachable_resolver sample_collate sample_vec waiting_for_query.
Proof.
  eapply rtc_r; [apply waiting_for_build_reachable|]. unfold waiting_for_query.
  apply (rs_build _ _ 0 (MkBuild sample_domains false)); [vm_compute; reflexivity|reflexivity|].
  intros a v H. by injection H as <-.
Qed.

Lemma sample_dim a : length (sample_vec a) = 2.
Proof. unfold sample_vec. by destruct (includes _ _). Qed.

Lemma embedding_answers_witness :
  (calls (query_settled sample_collate 0 (Ok (sample_vec #"alle Personen")) waiting_for_query) !! 0 =
   Some (#"alle Personen", Answered (MkRich (MkResult (Some (MkDomainEntry #"person" #"person" None [ #"person"; #"  " ]))
     sample_views (head sample_views)) (Some #"person") (Some one)))) ∧
  ∃ r, calls (query_settled sample_collate 0 (Ok (sample_vec #"alle Personen")) waiting_for_query) !! 0 =
    Some (#"alle Personen", Answered r).
Proof.
  split; [vm_compute; reflexivity|].
  destruct (embedding_answers sample_collate sample_vec 2 sample_dim waiting_for_query 0 #"alle Personen"
    [(#"vertrag", MkDomainVectors [ #"vertrag" ] [[zero; one]]); (#"person", MkDomainVectors [ #"person" ] [[one; zero]])]
    waiting_for_query_reachable) as (D & V & _ & (r & Hr & _) & _); [vm_compute; reflexivity|].
  exists r. exact Hr.
Defined.

Lemma one_build_at_a_time_witness : pending waiting_for_build 0.
Proof.
  destruct (one_build_at_a_time sample_collate sample_vec waiting_for_build waiting_for_build_reachable) as (_ & _ & H).
  apply (H 0 #"alle Personen" 0). vm_compute. reflexivity.
Defined.

(** * Overlapping loads

    [loadResolverIndex] does not look for a load under way: of two loads that
    overlap, the failure of one undoes the success of the other. *)
Example overlapping_loads :
  index_loads (loadResolverIndex (loadResolverIndex initial_resolver)) = 2 ∧
  r_state (index_loaded (Throw #"offline")
    (index_loaded (Ok (sample_domains, sample_views)) (loadResolverIndex (loadResolverIndex initial_resolver)))) =
  Failed #"offline".
Proof. vm_compute. by split. Qed.
