(* ===== verification/IntentResolver.v ===== *)
(** The intent resolver of the editor's assistant:
    [apps/oosd/src/mainview/embedder/dsl-resolver.ts], and the calls of
    [rpc.ts] that feed its index.  The words are those of the resolver of the
    other application, whose [containsWord] and [isWordChar] it copies. *)

From S2P Require Export TextResolver Embedder.

#[local] Set Warnings "-register-all".

Inductive DslKind := DomainEntry | ViewEntry.
Record DslEntry := MkDslEntry { de_id : str; de_kind : DslKind; de_aliases : list str }.

Record ResolveIntent := MkIntent { domainIds : list str; viewId : option str; intent_score : option number }.
Definition no_intent : ResolveIntent := MkIntent [] None None.

Definition EMBED_HIGH : number := S754_finite false 6124895493223875 (-53).   (** 0.68 *)
Definition EMBED_LOW : number := S754_finite false 4683743612465316 (-53).    (** 0.52 *)

(** * The index *)

Definition underscore : N := 95.

(** [arr.filter((a, i) => arr.indexOf(a) === i)]: the first of equal ones. *)
Fixpoint first_of_each (seen l : list str) : list str :=
  match l with
  | [] => []
  | a :: l => if decide (a ∈ seen) then first_of_each seen l else a :: first_of_each (a :: seen) l
  end.

Definition buildAliases (id : str) : list str :=
  let parts := List.filter (λ p, 0 <? length p) (split_on underscore id) in
  first_of_each [] [id; join #" " parts; join [] parts].

Definition index_entries (domains views : list str) : list DslEntry :=
  ((λ id, MkDslEntry id DomainEntry (buildAliases id)) <$> domains) ++
  ((λ id, MkDslEntry id ViewEntry (buildAliases id)) <$> views).

(** [rpc.listDomainIds] and [rpc.listViewIds]: a request that fails, or an
    answer without ids, gives none. *)
Definition list_ids (answer : outcome (option (list str))) : list str :=
  match answer with Ok ids => default [] ids | Throw _ => [] end.

(** * The module's variables *)

Record EntryVectors := MkEntryVectors { ev_entry : DslEntry; ev_vectors : list vector }.

(** [inits] are the calls that began a load; [building] is the promise of the
    latest. *)
Record DslResolver := MkDslResolver {
  entries : option (list DslEntry);
  building : option nat;
  inits : list (option (outcome unit));
  vecCache : option (list EntryVectors);
  vecBuilding : option nat;
  vec_builds : nat }.

Definition initial_dsl : DslResolver := MkDslResolver None None [] None None 0.

(** What a call of [initDslResolver] returns: resolved, or the promise of a
    load. *)
Definition initDslResolver (s : DslResolver) : DslResolver * option nat :=
  match entries s with
  | Some _ => (s, None)
  | None =>
    match building s with
    | Some b => (s, Some b)
    | None =>
      let b := length (inits s) in
      (MkDslResolver None (Some b) (inits s ++ [None]) (vecCache s) (vecBuilding s) (vec_builds s), Some b)
    end
  end.

(** The two lists have arrived, or one of them failed to. *)
Definition init_settled (b : nat) (result : outcome (list str * list str)) (s : DslResolver) : DslResolver :=
  match result with
  | Ok (domains, views) =>
    MkDslResolver (Some (index_entries domains views)) None (<[b := Some (Ok ())]> (inits s)) None None (vec_builds s)
  | Throw m =>
    MkDslResolver (entries s) (building s) (<[b := Some (Throw m)]> (inits s)) (vecCache s) (vecBuilding s)
      (vec_builds s)
  end.

(** [ensureVectors]: the cache, a build to wait for, or one to begin. *)
Inductive VectorsAnswer := CachedVectors (v : list EntryVectors) | WaitVectors (b : nat) | BuildVectors (b : nat).

Definition ensureVectors (s : DslResolver) : DslResolver * VectorsAnswer :=
  match vecCache s, vecBuilding s with
  | Some v, _ => (s, CachedVectors v)
  | None, Some b => (s, WaitVectors b)
  | None, None =>
    (MkDslResolver (entries s) (building s) (inits s) None (Some (vec_builds s)) (S (vec_builds s)),
     BuildVectors (vec_builds s))
  end.

(** The body of a build, over the entries it finds. *)
Definition build_entry_vectors (embed : str → outcome vector) (all : list DslEntry) : outcome (list EntryVectors) :=
  outcome_map (λ e, vs ← outcome_map embed (de_aliases e); Ok (MkEntryVectors e vs)) all.

Definition vectors_settled (result : outcome (list EntryVectors)) (s : DslResolver) : DslResolver :=
  MkDslResolver (entries s) (building s) (inits s)
    (match result with Ok v => Some v | Throw _ => vecCache s end) None (vec_builds s).

(** * Keywords *)

Definition matches_entry (lower : str) (e : DslEntry) : bool := existsb (containsWord lower) (de_aliases e).

Definition keyword_step (lower : str) (acc : list str * option str) (e : DslEntry) : list str * option str :=
  if negb (matches_entry lower e) then acc
  else match de_kind e with
       | DomainEntry => (acc.1 ++ [de_id e], acc.2)
       | ViewEntry => match acc.2 with
                      | Some v => if decide (v = []) then (acc.1, Some (de_id e)) else acc
                      | None => (acc.1, Some (de_id e))
                      end
       end.

Definition resolveKeyword (es : list DslEntry) (text : str) : ResolveIntent :=
  let r := foldl (keyword_step (to_lower text)) ([], None) es in
  MkIntent r.1 r.2 None.

(** * Embeddings *)

Record BestEntry := MkBestEntry { be_entry : option EntryVectors; be_score : number }.
Definition no_best_entry : BestEntry := MkBestEntry None minus_infinity.

Definition is_domain (k : DslKind) : bool := match k with DomainEntry => true | ViewEntry => false end.

Fixpoint best_entries (q : vector) (vecs : list EntryVectors) (d v : BestEntry) : outcome (BestEntry * BestEntry) :=
  match vecs with
  | [] => Ok (d, v)
  | ev :: vecs =>
    '(_, score) ← maxCosine q (ev_vectors ev);
    if is_domain (de_kind (ev_entry ev))
    then best_entries q vecs (if num_lt (be_score d) score then MkBestEntry (Some ev) score else d) v
    else best_entries q vecs d (if num_lt (be_score v) score then MkBestEntry (Some ev) score else v)
  end.

Definition at_least (t : number) (b : BestEntry) : option EntryVectors :=
  if num_le t (be_score b) then be_entry b else None.

(** [!best || bestScore < EMBED_LOW] *)
Definition low (b : BestEntry) : bool :=
  match be_entry b with None => true | Some _ => num_lt (be_score b) EMBED_LOW end.

Definition entry_id (ev : EntryVectors) : str := de_id (ev_entry ev).

(** The decision from the two best entries. *)
Definition decide_intent (es : list DslEntry) (text : str) (d v : BestEntry) : ResolveIntent :=
  if low d && low v then resolveKeyword es text
  else
    let kw := resolveKeyword es text in
    let with_view (domains : list str) (score : option number) : ResolveIntent :=
      match at_least EMBED_HIGH v, at_least EMBED_LOW v with
      | Some ev, _ => MkIntent domains (Some (entry_id ev)) score
      | None, Some ev => if truthy (match viewId kw with Some i => VStr i | None => VUndef end) then kw
                         else MkIntent domains (Some (entry_id ev)) score
      | None, None => MkIntent domains None score
      end in
    match at_least EMBED_HIGH d, at_least EMBED_LOW d with
    | Some ev, _ => with_view [entry_id ev] (Some (be_score d))
    | None, Some ev => if 0 <? length (domainIds kw) then kw else with_view [entry_id ev] (Some (be_score d))
    | None, None => with_view [] None
    end.

Definition resolveWithEmbedding (es : list DslEntry) (vectors : outcome (list EntryVectors)) (query : outcome vector)
    (text : str) : outcome ResolveIntent :=
  vecs ← vectors; q ← query; '(d, v) ← best_entries q vecs no_best_entry no_best_entry;
  Ok (decide_intent es text d v).

(** [resolveIntent], given what its awaits answer. *)
Definition resolveIntent (entries : option (list DslEntry)) (ready : bool) (vectors : outcome (list EntryVectors))
    (query : outcome vector) (text : str) : ResolveIntent :=
  match entries with
  | None => no_intent
  | Some es =>
    if ready then match resolveWithEmbedding es vectors query text with Ok i => i | Throw _ => resolveKeyword es text end
    else resolveKeyword es text
  end.

(** * What can happen *)

Inductive dsl_step : DslResolver → DslResolver → Prop :=
| ds_init s : dsl_step s (initDslResolver s).1
| ds_settled b result s : inits s !! b = Some None → dsl_step s (init_settled b result s)
| ds_vectors s : dsl_step s (ensureVectors s).1
| ds_built result s : is_Some (vecBuilding s) → dsl_step s (vectors_settled result s).

Definition reachable_dsl : DslResolver → Prop := rtc dsl_step initial_dsl.

(** * Words *)

Definition mentioned (text : str) (e : DslEntry) : Prop := ∃ a, a ∈ de_aliases e ∧ occurs_word (to_lower text) a.

Lemma matches_mentioned text e : matches_entry (to_lower text) e = true ↔ mentioned text e.
Proof.
  unfold matches_entry, mentioned. rewrite existsb_exists. setoid_rewrite <- list_elem_of_In.
  by setoid_rewrite containsWord_spec.
Qed.

Definition is_match (k : DslKind → bool) (lower : str) (e : DslEntry) : bool :=
  matches_entry lower e && k (de_kind e).
Definition is_view (k : DslKind) : bool := negb (is_domain k).

Lemma keyword_fold lower es acc :
  Forall (λ e, de_id e ≠ []) es → acc.2 ≠ Some [] →
  foldl (keyword_step lower) acc es =
    (acc.1 ++ (de_id <$> List.filter (is_match is_domain lower) es),
     match acc.2 with Some v => Some v | None => de_id <$> List.find (is_match is_view lower) es end).
Proof.
  revert acc. induction es as [|e es IH]; intros [ds v] Hne Hv; cbn [fst snd] in *.
  - cbn. rewrite app_nil_r. by destruct v.
  - apply Forall_cons in Hne as [He Hne]. cbn [foldl List.filter List.find].
    assert (∀ k, is_match k lower e = matches_entry lower e && k (de_kind e)) as Hm by done. rewrite !Hm.
    assert (keyword_step lower (ds, v) e =
      if negb (matches_entry lower e) then (ds, v) else
      match de_kind e with
      | DomainEntry => (ds ++ [de_id e], v)
      | ViewEntry => match v with Some _ => (ds, v) | None => (ds, Some (de_id e)) end
      end) as ->.
    { unfold keyword_step. cbn [fst snd]. destruct (negb _), (de_kind e), v as [v|]; try done.
      rewrite decide_False by (intros ->; done). done. }
    destruct (matches_entry lower e); cbn [negb andb]; [|by apply IH].
    destruct (de_kind e) eqn:Ek; unfold is_view; cbn [is_domain negb].
    + rewrite IH by done. cbn [fst snd fmap list_fmap]. by rewrite <- app_assoc.
    + destruct v as [v|]; rewrite IH; try done. cbn [fst snd]. f_equal. intros H. by injection H.
Qed.

Lemma first_of_each_elem a seen l : a ∈ first_of_each seen l ↔ a ∈ l ∧ a ∉ seen.
Proof.
  revert seen. induction l as [|b l IH]; intros seen; cbn [first_of_each].
  - split; [intros H; by apply elem_of_nil in H|intros [H _]; by apply elem_of_nil in H].
  - destruct (decide (b ∈ seen)) as [Hb|Hb].
    + rewrite IH, elem_of_cons. split; [tauto|]. intros [[->|H] Ha]; [done|tauto].
    + rewrite !elem_of_cons, IH, not_elem_of_cons. destruct (decide (a = b)) as [->|Hne]; tauto.
Qed.

Lemma buildAliases_elem id a :
  a ∈ buildAliases id ↔
    let parts := List.filter (λ p, 0 <? length p) (split_on underscore id) in
    a = id ∨ a = join #" " parts ∨ a = join [] parts.
Proof.
  unfold buildAliases. rewrite first_of_each_elem, !elem_of_cons, elem_of_nil.
  assert (a ∉ ([] : list str)) by apply not_elem_of_nil. tauto.
Qed.

(** ** Capitals *)

Definition capital (c : N) : bool := is_upper c || ((192 <=? c) && (c <=? 222) && negb (c =? 215))%N.

Lemma to_lower_no_capital text c : c ∈ to_lower text → capital c = false.
Proof.
  intros (x & -> & _)%list_elem_of_fmap.
  assert (∀ y, capital y = true ↔ (65 ≤ y ≤ 90 ∨ (192 ≤ y ≤ 222 ∧ y ≠ 215))%N) as Hcap.
  { intros y. unfold capital, is_upper. rewrite orb_true_iff, !andb_true_iff, !N.leb_le, negb_true_iff, N.eqb_neq. lia. }
  assert (to_lower1 x = if capital x then (x + 32)%N else x) as ->.
  { unfold to_lower1, capital. by destruct (is_upper x). }
  destruct (capital (if capital x then x + 32 else x)%N) eqn:E; [|done]. exfalso.
  destruct (capital x) eqn:Ex; [|by rewrite Ex in E]. apply Hcap in E, Ex. lia.
Qed.

Lemma occurs_word_elem text w c : occurs_word text w → c ∈ w → c ∈ text.
Proof. intros (_ & pre & post & -> & _) Hc. rewrite !elem_of_app. tauto. Qed.

(** A capital survives in every surface form. *)
Lemma elem_of_parts id c : c ∈ id → c ≠ underscore → ∃ p, p ∈ List.filter (λ p, 0 <? length p) (split_on underscore id) ∧ c ∈ p.
Proof.
  intros Hc Hne. rewrite <- (join_split_on underscore id) in Hc. apply elem_of_join in Hc as [Hc|(p & Hp & Hc)].
  - apply list_elem_of_singleton in Hc as ->. done.
  - exists p. split; [|done]. apply list_elem_of_In, filter_In. split; [by apply list_elem_of_In|].
    destruct p; [by apply elem_of_nil in Hc|done].
Qed.

Lemma elem_of_join_parts c sep p (l : list str) : p ∈ l → c ∈ p → c ∈ join sep l.
Proof.
  intros Hp Hc. induction l as [|q l IH]; [by apply elem_of_nil in Hp|].
  apply elem_of_cons in Hp as [->|Hp].
  - destruct l as [|q' l]; [done|]. rewrite join_cons by done. apply elem_of_app. by left.
  - destruct l as [|q' l]; [by apply elem_of_nil in Hp|]. rewrite join_cons by done. rewrite !elem_of_app.
    right. right. by apply IH.
Qed.

Definition mentions_id (text id : str) : bool := existsb (containsWord (to_lower text)) (buildAliases id).

Lemma filter_index_entries text D V :
  List.filter (is_match is_domain (to_lower text)) (index_entries D V) =
    (λ id, MkDslEntry id DomainEntry (buildAliases id)) <$> List.filter (mentions_id text) D.
Proof.
  unfold index_entries. rewrite List.filter_app.
  assert (List.filter (is_match is_domain (to_lower text))
    ((λ id, MkDslEntry id ViewEntry (buildAliases id)) <$> V) = []) as ->.
  { induction V as [|v V IH]; [done|]. cbn [fmap list_fmap List.filter]. unfold is_match at 1.
    cbn [de_kind is_domain]. by rewrite andb_false_r. }
  rewrite app_nil_r. induction D as [|d D IH]; [done|]. cbn [fmap list_fmap List.filter]. unfold is_match at 1.
  cbn [de_kind is_domain]. rewrite andb_true_r.
  change (matches_entry (to_lower text) (MkDslEntry d DomainEntry (buildAliases d))) with (mentions_id text d).
  rewrite IH. by destruct (mentions_id text d).
Qed.

Lemma find_index_entries text D V :
  de_id <$> List.find (is_match is_view (to_lower text)) (index_entries D V) = List.find (mentions_id text) V.
Proof.
  unfold index_entries. induction D as [|d D IH]; cbn [fmap list_fmap app List.find].
  - induction V as [|v V IH]; [done|]. cbn [fmap list_fmap List.find]. unfold is_match at 1, is_view at 1.
    cbn [de_kind is_domain negb]. rewrite andb_true_r.
    change (matches_entry (to_lower text) (MkDslEntry v ViewEntry (buildAliases v))) with (mentions_id text v).
    destruct (mentions_id text v); [done|exact IH].
  - unfold is_match at 1, is_view at 1. cbn [de_kind is_domain negb]. rewrite andb_false_r. exact IH.
Qed.

(** The keyword path names every domain that the text mentions, in the
    order of the index, and the first view it mentions: an id is mentioned when
    the id itself, its words between underscores, or these written together
    stand in the lower-cased text as a word.  An id with a capital letter is
    never mentioned, whatever the text, since only the text is lower-cased. *)
Theorem intent_keywords domains views text :
  Forall (λ id, id ≠ []) domains → Forall (λ id, id ≠ []) views →
  let r := resolveKeyword (index_entries domains views) text in
  domainIds r = List.filter (mentions_id text) domains ∧ viewId r = List.find (mentions_id text) views ∧
  (∀ id, mentions_id text id = true ↔
     let parts := List.filter (λ p, 0 <? length p) (split_on underscore id) in
     ∃ a, (a = id ∨ a = join #" " parts ∨ a = join [] parts) ∧ occurs_word (to_lower text) a) ∧
  ∀ id c, c ∈ id → capital c = true → mentions_id text id = false.
Proof.
  intros HD HV. cbv zeta.
  assert (∀ id, mentions_id text id = true ↔ ∃ a, a ∈ buildAliases id ∧ occurs_word (to_lower text) a) as Hm.
  { intros id. apply (matches_mentioned text (MkDslEntry id DomainEntry (buildAliases id))). }
  unfold resolveKeyword. cbn [domainIds viewId]. rewrite keyword_fold; [|..|discriminate].
  - cbn [fst snd app]. rewrite filter_index_entries, find_index_entries. split_and!; [|done| |].
    + rewrite <- list_fmap_compose. by rewrite list_fmap_id.
    + intros id. rewrite Hm. by setoid_rewrite buildAliases_elem.
    + intros id c Hc Hcap. destruct (mentions_id text id) eqn:E; [|done]. exfalso.
      apply Hm in E as (a & Ha & Hocc). apply buildAliases_elem in Ha. cbv zeta in Ha.
      assert (c ≠ underscore) as Hne by (by intros ->).
      destruct (elem_of_parts id c Hc Hne) as (p & Hp & Hcp).
      assert (c ∈ a) as Hca.
      { destruct Ha as [->|[->| ->]]; [done|by eapply elem_of_join_parts|by eapply elem_of_join_parts]. }
      pose proof (to_lower_no_capital text c (occurs_word_elem _ _ _ Hocc Hca)) as Hn. by rewrite Hcap in Hn.
  - unfold index_entries. apply Forall_app. split; apply Forall_fmap; done.
Qed.

Lemma intent_keywords_witness :
  domainIds (resolveKeyword (index_entries [ #"Unfall"; #"auto_schaden" ] []) #"Ein Unfall mit Auto Schaden") =
    [ #"auto_schaden" ] ∧ mentions_id #"Ein Unfall mit Auto Schaden" #"Unfall" = false.
Proof.
  split; [vm_compute; reflexivity|].
  apply (intent_keywords [ #"Unfall"; #"auto_schaden" ] [] #"Ein Unfall mit Auto Schaden") with (c := 85%N).
  - apply Forall_cons_2; [discriminate|]. apply Forall_cons_2; [discriminate|]. apply Forall_nil_2.
  - apply Forall_nil_2.
  - apply (bool_decide_unpack (85%N ∈ #"Unfall")). vm_compute. exact I.
  - reflexivity.
Defined.

(** * Similarity *)

Section similarity.
Context (vec : str → vector) (dim : nat) (Hdim : ∀ a, length (vec a) = dim).

Definition exact_entry (e : DslEntry) : EntryVectors := MkEntryVectors e (vec <$> de_aliases e).

(** [b] is the best of the aliases of the entries of one kind. *)
Definition best_of (k : DslKind → bool) (q : vector) (es : list DslEntry) (b : BestEntry) : Prop :=
  (∀ e a, e ∈ es → k (de_kind e) = true → a ∈ de_aliases e → num_lt (be_score b) (score q (vec a)) = false) ∧
  (b = no_best_entry ∨
   ∃ e a, e ∈ es ∧ k (de_kind e) = true ∧ a ∈ de_aliases e ∧ is_nan (score q (vec a)) = false ∧
     b = MkBestEntry (Some (exact_entry e)) (score q (vec a))).

Lemma best_of_snoc k q es e b s index :
  best_of k q es b → closest q (vec <$> de_aliases e) (index, s) →
  best_of k q (es ++ [e])
    (if k (de_kind e) then if num_lt (be_score b) s then MkBestEntry (Some (exact_entry e)) s else b else b).
Proof.
  intros [Hmax Hwhich] [Hall Hbest]. cbn [fst snd] in *.
  assert (∀ a, a ∈ de_aliases e → num_lt s (score q (vec a)) = false) as Hs.
  { intros a [i Hi]%list_elem_of_lookup. apply (Hall i). by rewrite list_lookup_fmap, Hi. }
  assert (∀ b', (b' = no_best_entry ∨ ∃ e a, e ∈ es ∧ k (de_kind e) = true ∧ a ∈ de_aliases e ∧
      is_nan (score q (vec a)) = false ∧ b' = MkBestEntry (Some (exact_entry e)) (score q (vec a))) →
    b' = no_best_entry ∨ ∃ e' a, e' ∈ es ++ [e] ∧ k (de_kind e') = true ∧ a ∈ de_aliases e' ∧
      is_nan (score q (vec a)) = false ∧ b' = MkBestEntry (Some (exact_entry e')) (score q (vec a))) as Hold.
  { intros b' [->|(e' & a & He' & Hrest)]; [by left|right]. exists e', a. split; [apply elem_of_app; by left|done]. }
  destruct (k (de_kind e)) eqn:Ek; [destruct (num_lt (be_score b) s) eqn:Elt|].
  - destruct index as [j|]; [|subst s; by rewrite minus_infinity_least in Elt].
    destruct Hbest as (_ & (c & Hj & ->) & _). rewrite list_lookup_fmap in Hj.
    destruct (de_aliases e !! j) as [a|] eqn:Ea; [|discriminate Hj]. injection Hj as <-.
    split; cbn [be_score].
    + intros e' a' [He'| ->%list_elem_of_singleton]%elem_of_app Hk Ha'; [|by apply Hs].
      destruct (num_lt (score q (vec a)) (score q (vec a'))) eqn:E; [|done].
      specialize (Hmax e' a' He' Hk Ha'). by rewrite (num_lt_trans _ _ _ Elt E) in Hmax.
    + right. exists e, a. split_and!; [apply elem_of_app; right; by left|done|by eapply list_elem_of_lookup_2
        |by eapply above_not_nan|done].
  - split; [|by apply Hold].
    intros e' a' [He'| ->%list_elem_of_singleton]%elem_of_app Hk Ha'; [by eapply Hmax|].
    destruct (num_lt (be_score b) (score q (vec a'))) eqn:E; [|done].
    assert (is_nan s = false) as Hn.
    { destruct index as [j|]; [destruct Hbest as (Hinf & _); by eapply above_not_nan|by subst s]. }
    pose proof (num_le_lt_trans s _ _ Hn Elt E) as Hlt. by rewrite (Hs a' Ha') in Hlt.
  - split; [|by apply Hold].
    intros e' a' [He'| ->%list_elem_of_singleton]%elem_of_app Hk Ha'; [by eapply Hmax|].
    rewrite Ek in Hk. discriminate Hk.
Qed.

Lemma best_entries_exact q es pre d v :
  length q = dim → best_of is_domain q pre d → best_of is_view q pre v →
  ∃ d' v', best_entries q (exact_entry <$> es) d v = Ok (d', v') ∧
    best_of is_domain q (pre ++ es) d' ∧ best_of is_view q (pre ++ es) v'.
Proof.
  intros Hq. revert pre d v. induction es as [|e es IH]; intros pre d v Hd Hv.
  - exists d, v. by rewrite app_nil_r.
  - change (exact_entry <$> e :: es) with (exact_entry e :: (exact_entry <$> es)). cbn [best_entries].
    change (ev_vectors (exact_entry e)) with (vec <$> de_aliases e). change (ev_entry (exact_entry e)) with e.
    destruct (maxCosine_closest q (vec <$> de_aliases e)) as ([index s] & -> & Hc).
    { apply Forall_forall. intros x (a & -> & _)%list_elem_of_fmap. by rewrite Hdim. }
    cbn [mbind outcome_bind]. replace (pre ++ e :: es) with ((pre ++ [e]) ++ es) by (by rewrite <- app_assoc).
    pose proof (best_of_snoc is_domain q pre e d s index Hd Hc) as Hd'.
    pose proof (best_of_snoc is_view q pre e v s index Hv Hc) as Hv'.
    unfold is_view in Hv' at 2. destruct (is_domain (de_kind e)); cbn [negb] in Hv'; by apply IH.
Qed.

Lemma build_entry_vectors_exact es :
  build_entry_vectors (λ a, Ok (vec a)) es = Ok (exact_entry <$> es).
Proof.
  assert (∀ l : list str, outcome_map (λ a, Ok (vec a)) l = Ok (vec <$> l)) as Hmap.
  { induction l as [|a l IH]; [done|]. cbn [outcome_map mbind outcome_bind]. by rewrite IH. }
  unfold build_entry_vectors. induction es as [|e es IH]; [done|]. cbn [outcome_map].
  rewrite Hmap. cbn [mbind outcome_bind]. by rewrite IH.
Qed.

(** The answer with the model ready, in the run [entries], [text]. *)
Definition ready_intent (es : list DslEntry) (text : str) : ResolveIntent :=
  resolveIntent (Some es) true (build_entry_vectors (λ a, Ok (vec a)) es) (Ok (vec text)) text.

Lemma ready_intent_decides es text :
  ∃ d v, ready_intent es text = decide_intent es text d v ∧
    best_of is_domain (vec text) es d ∧ best_of is_view (vec text) es v.
Proof.
  unfold ready_intent, resolveIntent, resolveWithEmbedding. rewrite build_entry_vectors_exact.
  cbn [mbind outcome_bind].
  assert (∀ k, best_of k (vec text) [] no_best_entry) as Hnil.
  { intros k. split; [|by left]. intros e a He. by apply elem_of_nil in He. }
  destruct (best_entries_exact (vec text) es [] no_best_entry no_best_entry (Hdim text) (Hnil _) (Hnil _))
    as (d & v & -> & Hd & Hv). by exists d, v.
Qed.

(** Some alias of an entry of the kind scores at least [t]. *)
Definition reaches (k : DslKind → bool) (es : list DslEntry) (text : str) (t : number) : Prop :=
  ∃ e a, e ∈ es ∧ k (de_kind e) = true ∧ a ∈ de_aliases e ∧ num_le t (score (vec text) (vec a)) = true.

(** [e] has an alias no entry of the kind has a better one than; its score. *)
Definition closest_entry (k : DslKind → bool) (es : list DslEntry) (text : str) (e : DslEntry) (s : number) : Prop :=
  e ∈ es ∧ k (de_kind e) = true ∧ (∃ a, a ∈ de_aliases e ∧ s = score (vec text) (vec a)) ∧
  ∀ e' a', e' ∈ es → k (de_kind e') = true → a' ∈ de_aliases e' → num_lt s (score (vec text) (vec a')) = false.

Lemma at_least_spec k es text b t :
  best_of k (vec text) es b →
  match at_least t b with
  | Some ev => ∃ e, ev = exact_entry e ∧ closest_entry k es text e (be_score b) ∧ reaches k es text t
  | None => num_le t minus_infinity = false → ¬ reaches k es text t
  end.
Proof.
  intros [Hmax Hwhich]. unfold at_least.
  assert (num_le t minus_infinity = false → num_le t (be_score b) = false → ¬ reaches k es text t) as Hno.
  { intros Ht Hb (e & a & He & Hk & Ha & Hle). destruct Hwhich as [->|(e' & a' & _ & _ & _ & Hn & ->)].
    - rewrite (num_le_max t _ minus_infinity Hle) in Ht; [done|done|by apply (Hmax e a)].
    - cbn [be_score] in Hb. pose proof (num_le_max t _ _ Hle Hn (Hmax e a He Hk Ha)) as Hc. by rewrite Hc in Hb. }
  destruct (num_le t (be_score b)) eqn:E; [|by auto].
  destruct Hwhich as [->|(e & a & He & Hk & Ha & Hn & ->)]; cbn [be_entry be_score] in *.
  - intros Ht. change (num_le t minus_infinity = true) in E. by rewrite Ht in E.
  - exists e. split_and!; [done| |by exists e, a]. split_and!; [done|done|by exists a|done].
Qed.

Lemma low_spec k es text b : best_of k (vec text) es b → low b = match at_least EMBED_LOW b with Some _ => false | None => true end.
Proof.
  intros [_ [->|(e & a & _ & _ & _ & Hn & ->)]]; [reflexivity|]. unfold low, at_least. cbn [be_entry be_score].
  destruct (num_le EMBED_LOW _) eqn:E.
  - by apply num_le_spec in E as (_ & _ & ->).
  - destruct (num_lt _ EMBED_LOW) eqn:E2; [done|]. rewrite (proj2 (num_le_spec _ _)) in E; done.
Qed.

(** The similarity path.  When no alias of any entry comes up to the lower
    threshold, the keyword path answers.  A domain that comes up to the higher
    one is taken, the closest of them, alone when no view comes up to the
    lower threshold, and with the closest view when one comes up to the higher.
    But when the best view lies between the two and the text names a view, the
    keyword answer replaces everything, the confident domain included. *)
Theorem intent_by_similarity es text :
  (¬ reaches is_domain es text EMBED_LOW → ¬ reaches is_view es text EMBED_LOW →
   ready_intent es text = resolveKeyword es text) ∧
  (reaches is_domain es text EMBED_HIGH → ¬ reaches is_view es text EMBED_LOW →
   ∃ d s, closest_entry is_domain es text d s ∧ ready_intent es text = MkIntent [de_id d] None (Some s)) ∧
  (reaches is_domain es text EMBED_HIGH → reaches is_view es text EMBED_HIGH →
   ∃ d s v s', closest_entry is_domain es text d s ∧ closest_entry is_view es text v s' ∧
     ready_intent es text = MkIntent [de_id d] (Some (de_id v)) (Some s)) ∧
  (reaches is_domain es text EMBED_HIGH → reaches is_view es text EMBED_LOW → ¬ reaches is_view es text EMBED_HIGH →
   ∀ i, viewId (resolveKeyword es text) = Some i → i ≠ [] → ready_intent es text = resolveKeyword es text).
Proof.
  destruct (ready_intent_decides es text) as (d & v & -> & Hd & Hv).
  pose proof (at_least_spec _ es text d EMBED_LOW Hd) as Hdl. pose proof (at_least_spec _ es text d EMBED_HIGH Hd) as Hdh.
  pose proof (at_least_spec _ es text v EMBED_LOW Hv) as Hvl. pose proof (at_least_spec _ es text v EMBED_HIGH Hv) as Hvh.
  assert (∀ k, reaches k es text EMBED_HIGH → reaches k es text EMBED_LOW) as Hweak.
  { intros k (e & a & He & Hk & Ha & Hle). exists e, a. split_and!; [done..|].
    by apply (num_le_lower _ EMBED_HIGH). }
  unfold decide_intent. rewrite (low_spec _ _ _ _ Hd), (low_spec _ _ _ _ Hv).
  split_and!.
  - intros Hnd Hnv. destruct (at_least EMBED_LOW d) as [ed|]; [destruct Hdl as (_ & _ & _ & H); done|].
    destruct (at_least EMBED_LOW v) as [ev|]; [destruct Hvl as (_ & _ & _ & H); done|]. done.
  - intros Hrd Hnv. destruct (at_least EMBED_LOW d) as [ed|]; [|by destruct (Hdl eq_refl); auto].
    destruct (at_least EMBED_LOW v) as [ev|]; [destruct Hvl as (_ & _ & _ & H); done|].
    destruct (at_least EMBED_HIGH v) as [ev|]; [destruct Hvh as (_ & _ & _ & H); by apply Hweak in H|].
    destruct (at_least EMBED_HIGH d) as [ed'|]; [|by destruct (Hdh eq_refl)].
    destruct Hdh as (e & -> & Hc & _). by exists e, (be_score d).
  - intros Hrd Hrv. destruct (at_least EMBED_LOW d) as [ed|]; [|by destruct (Hdl eq_refl); auto].
    destruct (at_least EMBED_HIGH v) as [ev|]; [|by destruct (Hvh eq_refl)].
    destruct (at_least EMBED_HIGH d) as [ed'|]; [|by destruct (Hdh eq_refl)].
    destruct Hdh as (e & -> & Hc & _). destruct Hvh as (e' & -> & Hc' & _).
    by exists e, (be_score d), e', (be_score v).
  - intros Hrd Hrv Hnv i Hi Hne. destruct (at_least EMBED_LOW d) as [ed|]; [|by destruct (Hdl eq_refl); auto].
    destruct (at_least EMBED_HIGH v) as [ev|]; [destruct Hvh as (_ & _ & _ & H); done|].
    destruct (at_least EMBED_LOW v) as [ev|]; [|by destruct (Hvl eq_refl)].
    destruct (at_least EMBED_HIGH d) as [ed'|]; [|by destruct (Hdh eq_refl)].
    rewrite Hi. cbn [andb]. destruct i as [|c i]; [done|]. reflexivity.
Qed.
End similarity.

(** A question about accidents that names a list. *)
Definition six_tenths : number := S754_finite false 5404319552844595 (-53).
Definition sample_question : str := #"Zeig die liste der Unfaelle".
Definition sample_question_vec (a : str) : vector :=
  if decide (a = #"unfall") then [one; zero] else if decide (a = #"liste") then [zero; one] else [one; six_tenths].
Definition sample_entries : list DslEntry := index_entries [ #"unfall" ] [ #"liste" ].

Lemma sample_question_dim a : length (sample_question_vec a) = 2.
Proof. unfold sample_question_vec. by repeat case_decide. Qed.

Lemma intent_by_similarity_witness :
  ready_intent sample_question_vec sample_entries sample_question = MkIntent [] (Some #"liste") None ∧
  reaches sample_question_vec is_domain sample_entries sample_question EMBED_HIGH.
Proof.
  assert (reaches sample_question_vec is_domain sample_entries sample_question EMBED_HIGH) as Hd.
  { exists (MkDslEntry #"unfall" DomainEntry (buildAliases #"unfall")), #"unfall".
    split_and!; [by left|reflexivity|by left|vm_compute; reflexivity]. }
  split; [|exact Hd].
  destruct (intent_by_similarity sample_question_vec 2 sample_question_dim sample_entries sample_question) as (_ & _ & _ & H).
  rewrite (H Hd) with (i := #"liste").
  - vm_compute. reflexivity.
  - exists (MkDslEntry #"liste" ViewEntry (buildAliases #"liste")), #"liste".
    split_and!; [right; by left|reflexivity|by left|vm_compute; reflexivity].
  - intros (e & a & He & Hk & Ha & Hle). apply elem_of_cons in He as [->|He]; [discriminate Hk|].
    apply list_elem_of_singleton in He as ->.
    assert (buildAliases #"liste" = [ #"liste" ]) as Hb by (vm_compute; reflexivity).
    cbn [de_aliases] in Ha. rewrite Hb in Ha. apply list_elem_of_singleton in Ha as ->.
    revert Hle. vm_compute. discriminate.
  - vm_compute. reflexivity.
  - discriminate.
Defined.

(** * The index of a session *)

(** At most one load is ever begun. *)
Definition index_ok (s : DslResolver) : Prop :=
  match inits s with
  | [] => entries s = None ∧ building s = None
  | [None] | [Some (Throw _)] => entries s = None ∧ building s = Some 0
  | [Some (Ok _)] => is_Some (entries s) ∧ building s = None
  | _ => False
  end.

Lemma dsl_step_ok s s' : dsl_step s s' → index_ok s → index_ok s'.
Proof.
  intros Hstep Hok. destruct Hstep as [s|b result s Hb|s|result s Hv].
  - unfold initDslResolver, index_ok in *. destruct (inits s) as [|[[u|m]|] [|? ?]] eqn:Ei; try done.
    + destruct Hok as [-> ->]. by split.
    + destruct Hok as [[es He] Hbu]. rewrite He. cbn [fst]. rewrite Ei, He. split; [by eexists|done].
    + destruct Hok as [He Hbu]. rewrite He, Hbu. cbn [fst]. by rewrite Ei.
    + destruct Hok as [He Hbu]. rewrite He, Hbu. cbn [fst]. by rewrite Ei.
  - unfold index_ok in *. destruct (inits s) as [|[[u|m]|] [|? ?]] eqn:Ei; try done.
    + by destruct b as [|[|b]].
    + by destruct b as [|[|b]].
    + destruct b as [|b]; [|by destruct b]. destruct Hok as [He Hbu].
      destruct result as [[D V]|m]; unfold init_settled; cbn [inits entries building]; rewrite Ei.
      * split; [by eexists|done].
      * exact (conj He Hbu).
  - unfold ensureVectors. by destruct (vecCache s), (vecBuilding s).
  - exact Hok.
Qed.

Lemma reachable_index_ok s : reachable_dsl s → index_ok s.
Proof. revert s. apply rtc_ind_r; [done|]. intros s s' _. by apply dsl_step_ok. Qed.

(** The load has settled for good. *)
Lemma settled_stays s s' result :
  reachable_dsl s → inits s = [Some result] → rtc dsl_step s s' →
  inits s' = [Some result] ∧ entries s' = entries s ∧ building s' = building s.
Proof.
  intros Hr Hi H. revert s' H. apply rtc_ind_r; [done|]. intros s1 s2 Hreach Hstep (Hi1 & He1 & Hb1).
  assert (index_ok s1) as Hok by (apply reachable_index_ok; unfold reachable_dsl in *; by transitivity s).
  unfold index_ok in Hok. rewrite Hi1 in Hok. rewrite <- He1, <- Hb1, <- Hi1.
  destruct Hstep as [s1|b r s1 Hb|s1|r s1 Hv]; [| |unfold ensureVectors; by destruct (vecCache s1), (vecBuilding s1)|done].
  - unfold initDslResolver. destruct result as [u|m].
    + destruct Hok as [[es He] _]. by rewrite He.
    + destruct Hok as [He Hbu]. by rewrite He, Hbu.
  - rewrite Hi1 in Hb. by destruct b as [|[|b]].
Qed.

Lemma empty_index ready query text :
  resolveIntent (Some (index_entries (list_ids (Throw [])) (list_ids (Throw [])))) ready (Ok []) query text = no_intent.
Proof. destruct ready, query; reflexivity. Qed.

(** The index is loaded once for a session, whatever comes of it.  When
    the load fails, every later call of [initDslResolver] returns the rejected
    promise of that load, nothing is loaded again, and every text resolves to
    nothing.  A backend that cannot be reached does not even fail the load,
    since the two calls answer no ids then; the index is empty for good and
    every text resolves to nothing as well. *)
Theorem index_is_final s s' result :
  reachable_dsl s → inits s = [Some result] → rtc dsl_step s s' →
  entries s' = entries s ∧ inits s' = [Some result] ∧
  match result with
  | Throw _ => (initDslResolver s').2 = Some 0 ∧
      ∀ ready vectors query text, resolveIntent (entries s') ready vectors query text = no_intent
  | Ok _ => (initDslResolver s').2 = None
  end ∧
  (entries s = Some (index_entries (list_ids (Throw #"no servers")) (list_ids (Throw #"no servers"))) →
   ∀ ready query text, resolveIntent (entries s') ready (build_entry_vectors (λ _, query) (default [] (entries s'))) query text =
     no_intent).
Proof.
  intros Hr Hi Hs. destruct (settled_stays s s' result Hr Hi Hs) as (Hi' & He' & Hb').
  split_and!; [done|done| |].
  - pose proof (reachable_index_ok s Hr) as Hok. unfold index_ok in Hok. rewrite Hi in Hok. unfold initDslResolver.
    rewrite He', Hb'. destruct result as [u|m].
    + destruct Hok as [[es ->] _]. done.
    + destruct Hok as [-> ->]. split; [done|]. by intros.
  - intros He ready query text. rewrite He', He. destruct ready, query; reflexivity.
Qed.

Definition unreachable_backend : DslResolver :=
  init_settled 0 (Ok (list_ids (Throw #"no servers"), list_ids (Throw #"no servers"))) (initDslResolver initial_dsl).1.

Lemma index_is_final_witness :
  resolveIntent (entries (initDslResolver unreachable_backend).1) false (Ok []) (Ok []) #"unfall" = no_intent.
Proof.
  destruct (index_is_final unreachable_backend (initDslResolver unreachable_backend).1 (Ok ())) as (_ & _ & _ & H).
  - eapply rtc_l; [apply ds_init|]. eapply rtc_l; [|apply rtc_refl]. apply ds_settled. reflexivity.
  - reflexivity.
  - eapply rtc_l; [apply ds_init|apply rtc_refl].
  - apply (H eq_refl false (Ok [])).
Defined.
