(* ===== verification/Composer.v ===== *)
(** The chat input: [apps/oos/src/mainview/components/Chat.tsx] as a transition
    system, with the keyboard handler of [ComposerRichText.tsx].

    A handler's state updates are committed together and the effect on the
    draft runs after them.  Asynchronous work in progress is part of the state:
    the debounce timer, the lookups it dispatched, the lookups of drops, and
    the sends that wait for one.  [resolveText] is the keyword resolver over the
    index that is loaded; what a lookup answers comes with its event. *)

From S2P Require Export TextResolver Stores.
From S2P Require ChatTurn.
Import ChatTurn(EventTurnContext, MkEventCtx, ctx_mapping, ctx_streamId).

#[local] Set Warnings "-register-all".

(** * State *)

(** [undefined], [null], or the view picked. *)
Inductive ManualView := Untouched | ClearedView | PickedView (v : ViewIndexEntry).

(** What a [send] closes over: the render it was called from. *)
Record SendClosure := MkSendClosure {
  sc_trimmed : str; sc_manual : ManualView; sc_effective : option ViewIndexEntry; sc_ui : UiState }.

(** A call of [onSend]. *)
Record Outgoing := MkOutgoing {
  out_text : str; out_view : option str; out_event : option EventTurnContext; out_ask : bool }.

(** An embedding lookup: of the effect, with its stamp and the domain the
    keywords found, or of a drop, with the view they suggest; a drop whose
    lookup has settled is [None]. *)
Record Lookup := MkLookup { lk_stamp : nat; lk_text : str; lk_domain : option str }.
Record Drop := MkDrop { dp_text : str; dp_keyword : option str }.

Record Composer := MkComposer {
  draft : str; manualView : ManualView; autoView : option ViewIndexEntry; pickerOpen : bool;
  resolvedViews : list ViewIndexEntry; resolveStamp : nat; dropResolve : option nat; ui : UiState;
  timer : option Lookup; lookups : list Lookup; drops : list (option Drop);
  waiting : list (nat * SendClosure); sent : list Outgoing }.

Definition initial_composer (u : UiState) : Composer :=
  MkComposer [] Untouched None false [] 0 None u None [] [] [] [].

(** * Derived values *)

Definition askMode (u : UiState) : bool := match ui_mode u with MAsk | MDev => true | _ => false end.
Definition eventsMode (u : UiState) : bool := match ui_mode u with MEvents => true | _ => false end.
Definition documentsMode (u : UiState) : bool := match ui_mode u with MDocuments => true | _ => false end.

(** [!!uiState.mapping] *)
Definition set_string (o : option str) : bool := match o with Some (_ :: _) => true | _ => false end.

Definition composerLocked (u : UiState) : bool :=
  (eventsMode u && (negb (set_string (ui_mapping u)) || negb (set_string (ui_streamId u)))) || documentsMode u.

Definition effectiveView (s : Composer) : option ViewIndexEntry :=
  match manualView s with Untouched => autoView s | ClearedView => None | PickedView v => Some v end.

(** * Updates *)

Definition set_pin (v : option ViewIndexEntry) (vs : list ViewIndexEntry) (s : Composer) : Composer :=
  MkComposer (draft s) (manualView s) v (pickerOpen s) vs (resolveStamp s) (dropResolve s) (ui s) (timer s)
    (lookups s) (drops s) (waiting s) (sent s).

Definition set_timer (t : option Lookup) (s : Composer) : Composer :=
  MkComposer (draft s) (manualView s) (autoView s) (pickerOpen s) (resolvedViews s) (resolveStamp s) (dropResolve s)
    (ui s) t (lookups s) (drops s) (waiting s) (sent s).

Definition set_draft (d : str) (s : Composer) : Composer :=
  MkComposer d (manualView s) (autoView s) (pickerOpen s) (resolvedViews s) (resolveStamp s) (dropResolve s) (ui s)
    (timer s) (lookups s) (drops s) (waiting s) (sent s).

Definition set_manual (m : ManualView) (open : bool) (s : Composer) : Composer :=
  MkComposer (draft s) m (autoView s) open (resolvedViews s) (resolveStamp s) (dropResolve s) (ui s) (timer s)
    (lookups s) (drops s) (waiting s) (sent s).

Definition set_ui (u : UiState) (s : Composer) : Composer :=
  MkComposer (draft s) (manualView s) (autoView s) (pickerOpen s) (resolvedViews s) (resolveStamp s) (dropResolve s) u
    (timer s) (lookups s) (drops s) (waiting s) (sent s).

Section composer.
Context (resolveText : str → ResolveResult).

(** A suggestion replaces the pin, its absence leaves it. *)
Definition pin (r : ResolveResult) (s : Composer) : Composer :=
  match res_suggestion r with Some v => set_pin (Some v) (res_views r) s | None => s end.

Definition domain_name (r : ResolveResult) : option str := index_name <$> res_domain r.

(** The body of the effect. *)
Definition resolve_effect (s : Composer) : Composer :=
  let s := set_timer None s in
  if askMode (ui s) || bool_decide (trim (draft s) = []) then set_pin None [] s
  else
    let sync := resolveText (draft s) in
    let s := pin sync s in
    let stamp := S (resolveStamp s) in
    MkComposer (draft s) (manualView s) (autoView s) (pickerOpen s) (resolvedViews s) stamp (dropResolve s) (ui s)
      (Some (MkLookup stamp (draft s) (domain_name sync))) (lookups s) (drops s) (waiting s) (sent s).

(** The effect runs when the draft or [askMode] is another one than at the
    last commit. *)
Definition commit (old new : Composer) : Composer :=
  if bool_decide (draft old = draft new) && eqb (askMode (ui old)) (askMode (ui new)) then new
  else resolve_effect new.

(** [onChange={setDraft}], a mode or stream picked elsewhere. *)
Definition change (d : str) (s : Composer) : Composer := commit s (set_draft d s).
Definition change_ui (u : UiState) (s : Composer) : Composer := commit s (set_ui u s).

(** The debounce ends. *)
Definition timer_fires (s : Composer) : Composer :=
  match timer s with
  | None => s
  | Some l =>
    MkComposer (draft s) (manualView s) (autoView s) (pickerOpen s) (resolvedViews s) (resolveStamp s) (dropResolve s)
      (ui s) None (lookups s ++ [l]) (drops s) (waiting s) (sent s)
  end.

(** The [i]-th lookup answers. *)
Definition other_domain (sync async : option str) : bool :=
  match async with Some (c :: a) => negb (bool_decide (sync = Some (c :: a))) | _ => false end.

Definition lookup_answers (i : nat) (r : ResolveResult) (s : Composer) : Composer :=
  match lookups s !! i with
  | None => s
  | Some l =>
    let s := MkComposer (draft s) (manualView s) (autoView s) (pickerOpen s) (resolvedViews s) (resolveStamp s)
               (dropResolve s) (ui s) (timer s) (delete i (lookups s)) (drops s) (waiting s) (sent s) in
    if negb (lk_stamp l =? resolveStamp s) then s
    else if other_domain (lk_domain l) (domain_name r) then pin r s else s
  end.

(** [onDrop] of the text [text]. *)
Definition onDrop (text : str) (s : Composer) : Composer :=
  if bool_decide (text = []) then s
  else
    let sync := resolveText text in
    let s' := pin sync (set_draft text s) in
    let s' := MkComposer (draft s') (manualView s') (autoView s') (pickerOpen s') (resolvedViews s') (resolveStamp s')
                (Some (length (drops s'))) (ui s') (timer s') (lookups s')
                (drops s' ++ [Some (MkDrop text (ventry_name <$> res_suggestion sync))]) (waiting s') (sent s') in
    commit s s'.

(** The key and click handlers. *)
Definition togglePicker (s : Composer) : Composer :=
  if 0 <? length (resolvedViews s) then set_manual (manualView s) (negb (pickerOpen s)) s else s.
Definition togglePill (s : Composer) : Composer := set_manual (manualView s) (negb (pickerOpen s)) s.
Definition selectView (v : ViewIndexEntry) (s : Composer) : Composer := set_manual (PickedView v) false s.
Definition clearHint (s : Composer) : Composer := set_manual ClearedView false s.

(** [send] from its [await] on: the call of [onSend] and the reset. *)
Definition nonempty (o : option str) : option str := match o with Some [] | None => None | o => o end.

Definition outgoing (c : SendClosure) (viewHint : option str) : Outgoing :=
  let viewHint :=
    match nonempty viewHint, sc_manual c with
    | None, (Untouched | PickedView _) =>
      match res_suggestion (resolveText (sc_trimmed c)) with Some v => Some (ventry_name v) | None => viewHint end
    | _, _ => viewHint
    end in
  if askMode (sc_ui c) then MkOutgoing (sc_trimmed c) None None true
  else match eventsMode (sc_ui c), nonempty (ui_mapping (sc_ui c)), nonempty (ui_streamId (sc_ui c)) with
       | true, Some m, Some st => MkOutgoing (sc_trimmed c) None (Some (MkEventCtx m st)) false
       | _, _, _ => MkOutgoing (sc_trimmed c) viewHint None false
       end.

Definition finish_send (c : SendClosure) (viewHint : option str) (s : Composer) : Composer :=
  let s' := MkComposer [] Untouched None false [] (resolveStamp s) (dropResolve s) (ui s) (timer s) (lookups s)
              (drops s) (waiting s) (sent s ++ [outgoing c viewHint]) in
  commit s s'.

Definition closure (s : Composer) : SendClosure :=
  MkSendClosure (trim (draft s)) (manualView s) (effectiveView s) (ui s).

Definition send (s : Composer) : Composer :=
  if bool_decide (trim (draft s) = []) then s
  else match dropResolve s with
       | Some p =>
         MkComposer (draft s) (manualView s) (autoView s) (pickerOpen s) (resolvedViews s) (resolveStamp s)
           (dropResolve s) (ui s) (timer s) (lookups s) (drops s) (waiting s ++ [(p, closure s)]) (sent s)
       | None => finish_send (closure s) (ventry_name <$> effectiveView s) s
       end.

(** Enter without a modifier. *)
Definition enter (s : Composer) : Composer := if composerLocked (ui s) then s else send s.

(** A lookup of a drop answers ([None] when it fails): the pin, the ref, and
    then the sends that wait for it, in order. *)
Definition drop_view (d : Drop) (r : option ResolveResult) : option str :=
  match r with
  | Some r => match res_suggestion r with Some v => Some (ventry_name v) | None => dp_keyword d end
  | None => dp_keyword d
  end.

Definition drop_answers (p : nat) (r : option ResolveResult) (s : Composer) : Composer :=
  match drops s !! p with
  | None | Some None => s
  | Some (Some d) =>
    let s := match r with Some r => pin r s | None => s end in
    let resumed := filter (λ w : nat * SendClosure, w.1 = p) (waiting s) in
    let s := MkComposer (draft s) (manualView s) (autoView s) (pickerOpen s) (resolvedViews s) (resolveStamp s)
               (if decide (dropResolve s = Some p) then None else dropResolve s) (ui s) (timer s) (lookups s)
               (<[p := None]> (drops s))
               (filter (λ w : nat * SendClosure, w.1 ≠ p) (waiting s)) (sent s) in
    foldl (λ s w, finish_send w.2 (drop_view d r) s) s resumed
  end.

(** * Events *)

Inductive Action :=
| Change (d : str)
| ChangeUi (u : UiState)
| TimerFires
| LookupAnswers (i : nat) (r : ResolveResult)
| DropText (text : str)
| DropAnswers (p : nat) (r : option ResolveResult)
| TogglePicker
| TogglePill
| SelectView (v : ViewIndexEntry)
| ClearHint
| Enter.

Definition act (a : Action) (s : Composer) : Composer :=
  match a with
  | Change d => change d s
  | ChangeUi u => change_ui u s
  | TimerFires => timer_fires s
  | LookupAnswers i r => lookup_answers i r s
  | DropText t => onDrop t s
  | DropAnswers p r => drop_answers p r s
  | TogglePicker => togglePicker s
  | TogglePill => togglePill s
  | SelectView v => selectView v s
  | ClearHint => clearHint s
  | Enter => enter s
  end.

Definition acts (l : list Action) (s : Composer) : Composer := foldl (λ s a, act a s) s l.
End composer.
