(* ===== verification/ComposerLaws.v ===== *)
(** What the chat input sends, and how it works with the chat turn
    ([Composer.v] with [ChatTurn.v]). *)

From S2P Require Export Composer.
From S2P Require ChatTurn.
Import ChatTurn(EventTurnContext, MkEventCtx, ctx_mapping, ctx_streamId).

#[local] Set Warnings "-register-all".

Section laws.
Context (resolveText : str → ResolveResult).

#[local] Abbreviation act := (act resolveText).
#[local] Abbreviation acts := (acts resolveText).

(** * Sending *)

(** The view a message of forms mode goes out with. *)
Definition hint_of (s : Composer) : option str :=
  match manualView s, nonempty (ventry_name <$> effectiveView s) with
  | ClearedView, _ => None
  | _, Some v => Some v
  | _, None =>
    match res_suggestion (resolveText (trim (draft s))) with
    | Some v => Some (ventry_name v)
    | None => ventry_name <$> effectiveView s
    end
  end.

(** What goes out from a state. *)
Definition message_of (s : Composer) : Outgoing :=
  if askMode (ui s) then MkOutgoing (trim (draft s)) None None true
  else match eventsMode (ui s), nonempty (ui_mapping (ui s)), nonempty (ui_streamId (ui s)) with
       | true, Some m, Some st => MkOutgoing (trim (draft s)) None (Some (MkEventCtx m st)) false
       | _, _, _ => MkOutgoing (trim (draft s)) (hint_of s) None false
       end.

(** The composer after a message went out. *)
Definition cleared (s : Composer) (os : list Outgoing) : Composer :=
  MkComposer [] Untouched None false [] (resolveStamp s) (dropResolve s) (ui s) None (lookups s) (drops s) (waiting s)
    (sent s ++ os).

Lemma outgoing_message s : outgoing resolveText (closure s) (ventry_name <$> effectiveView s) = message_of s.
Proof.
  unfold outgoing, message_of, hint_of, closure. cbn [sc_trimmed sc_manual sc_effective sc_ui].
  destruct (askMode (ui s)); [done|].
  destruct (eventsMode (ui s)), (nonempty (ui_mapping (ui s))), (nonempty (ui_streamId (ui s))); try done;
    (destruct (manualView s) eqn:Em; unfold effectiveView; rewrite Em;
     [destruct (nonempty (ventry_name <$> autoView s)) eqn:En | |
      destruct (nonempty (ventry_name <$> Some v)) eqn:En]); try done;
    try (destruct (autoView s) as [[[|c n] ? ? ? ?]|]; try discriminate En; injection En as <-; done);
    try (destruct v as [[|c n] ? ? ? ?]; try discriminate En; injection En as <-; done).
Qed.

Lemma finish_send_cleared c v s :
  draft s ≠ [] → finish_send resolveText c v s = cleared s [outgoing resolveText c v].
Proof.
  intros Hd. unfold finish_send, commit. cbn [draft ui]. rewrite bool_decide_eq_false_2 by done.
  unfold resolve_effect. cbn [set_timer ui draft andb]. rewrite bool_decide_eq_true_2 by done. rewrite orb_true_r. done.
Qed.

Lemma blank_draft s : trim (draft s) ≠ [] → draft s ≠ [].
Proof. intros H Hd. by rewrite Hd in H. Qed.

Lemma enter_eq s :
  dropResolve s = None →
  act Enter s =
    if composerLocked (ui s) || bool_decide (trim (draft s) = []) then s
    else cleared s [message_of s].
Proof.
  intros Hd. unfold Composer.act, enter, send. destruct (composerLocked (ui s)); [done|]. cbn [orb].
  destruct (decide (trim (draft s) = [])) as [Hb|Hb].
  - by rewrite !bool_decide_eq_true_2.
  - rewrite !bool_decide_eq_false_2 by done. rewrite Hd, finish_send_cleared by (by apply blank_draft).
    by rewrite outgoing_message.
Qed.

(** C21: What is sent.  With no drop pending, Enter sends the trimmed draft
    once: in ask mode without context, in events mode with the mapping and the
    stream, and otherwise with the view on the pill, none if the pill was
    removed, and the keyword suggestion when there is no pill; afterwards the
    draft, the pill and the choices are reset.  A blank draft or a locked
    composer sends nothing. *)
Theorem enter_sends s :
  dropResolve s = None →
  act Enter s =
    if composerLocked (ui s) || bool_decide (trim (draft s) = []) then s
    else cleared s [message_of s].
Proof. apply enter_eq. Qed.

(** * The pill *)

(** What edits, lookups and drops do; picking a view and sending are not
    among them. *)
Definition is_edit (a : Action) : bool :=
  match a with
  | Change _ | ChangeUi _ | TimerFires | LookupAnswers _ _ | DropText _ | TogglePicker | TogglePill => true
  | _ => false
  end.

Lemma manual_set_pin v vs s : manualView (set_pin v vs s) = manualView s.
Proof. done. Qed.

Lemma manual_pin r s : manualView (pin r s) = manualView s.
Proof. unfold pin. by destruct (res_suggestion r). Qed.

Lemma manual_effect s : manualView (resolve_effect resolveText s) = manualView s.
Proof.
  unfold resolve_effect. destruct (_ || _); [done|]. cbn [manualView]. by rewrite manual_pin.
Qed.

Lemma manual_commit s s' : manualView (commit resolveText s s') = manualView s'.
Proof. unfold commit. destruct (_ && _); [done|apply manual_effect]. Qed.

Lemma manual_edit a s : is_edit a = true → manualView (act a s) = manualView s.
Proof.
  destruct a; try discriminate 1; intros _; unfold Composer.act.
  - unfold change. by rewrite manual_commit.
  - unfold change_ui. by rewrite manual_commit.
  - unfold timer_fires. by destruct (timer s).
  - unfold lookup_answers. destruct (lookups s !! i); [|done]. destruct (negb _); [done|].
    destruct (other_domain _ _); [by rewrite manual_pin|done].
  - unfold onDrop. destruct (bool_decide _); [done|]. rewrite manual_commit. cbn [manualView]. by rewrite manual_pin.
  - unfold togglePicker. by destruct (_ <? _).
  - done.
Qed.

Lemma manual_edits l s : Forall (λ a, is_edit a = true) l → manualView (acts l s) = manualView s.
Proof.
  revert s. induction l as [|a l IH]; intros s Hl; [done|]. apply Forall_cons in Hl as [Ha Hl].
  change (acts (a :: l) s) with (acts l (act a s)). rewrite (IH (act a s) Hl). by apply manual_edit.
Qed.

(** A choice outlives the draft it was made for.  Once the pill is removed
    or a view picked, no sequence of edits, lookups and drops changes that:
    neither emptying the draft nor typing something else brings automatic pins
    back.  What is then sent in forms mode has the view that was picked, or none. *)
Theorem choice_outlives_draft s l :
  manualView s ≠ Untouched → Forall (λ a, is_edit a = true) l →
  let s' := acts l s in
  manualView s' = manualView s ∧
  (dropResolve s' = None → ui_mode (ui s') = MForms → trim (draft s') ≠ [] →
   ∀ v, manualView s = PickedView v → ventry_name v ≠ [] →
     sent (act Enter s') = sent s' ++ [MkOutgoing (trim (draft s')) (Some (ventry_name v)) None false]) ∧
  (dropResolve s' = None → ui_mode (ui s') = MForms → trim (draft s') ≠ [] → manualView s = ClearedView →
     sent (act Enter s') = sent s' ++ [MkOutgoing (trim (draft s')) None None false]).
Proof.
  intros Hm Hl s'. assert (manualView s' = manualView s) as Hs' by (by apply manual_edits).
  assert (dropResolve s' = None → ui_mode (ui s') = MForms → trim (draft s') ≠ [] →
    sent (act Enter s') = sent s' ++ [MkOutgoing (trim (draft s')) (hint_of s') None false]) as Hsend.
  { intros Hd Hf Ht. rewrite enter_eq by done. unfold composerLocked, eventsMode, documentsMode. rewrite Hf.
    rewrite bool_decide_eq_false_2 by done. cbn [orb andb]. unfold message_of, askMode, eventsMode. by rewrite Hf. }
  split_and!; [done|intros Hd Hf Ht v Hv Hne|intros Hd Hf Ht Hc]; rewrite Hsend by done; unfold hint_of, effectiveView;
    rewrite Hs'; [rewrite Hv|by rewrite Hc].
  cbn [fmap option_fmap option_map]. destruct v as [[|c n] ti dom df fl]; [done|reflexivity].
Qed.

(** A pill for a draft that is gone.  A lookup that is under way when the
    draft is emptied still counts as the latest, since only a draft that is
    resolved takes a new stamp: its answer pins its view on the empty draft,
    and the next message, although it mentions no domain, goes out with it. *)
Theorem stale_lookup_pins s i l r v text :
  lookups s !! i = Some l → lk_stamp l = resolveStamp s → manualView s = Untouched → ui_mode (ui s) = MForms →
  dropResolve s = None → draft s ≠ [] →
  res_suggestion r = Some v → other_domain (lk_domain l) (domain_name r) = true → ventry_name v ≠ [] →
  trim text ≠ [] → res_suggestion (resolveText text) = None →
  let s1 := acts [Change []; LookupAnswers i r] s in
  draft s1 = [] ∧ effectiveView s1 = Some v ∧
  sent (acts [Change text; Enter] s1) = sent s ++ [MkOutgoing (trim text) (Some (ventry_name v)) None false].
Proof.
  intros Hi Hst Hman Hf Hdrop Hd Hr Hother Hv Ht Hno.
  assert (askMode (ui s) = false) as Hask by (unfold askMode; by rewrite Hf).
  assert (acts [Change []; LookupAnswers i r] s =
    MkComposer [] Untouched (Some v) (pickerOpen s) (res_views r) (resolveStamp s) None (ui s) None
      (delete i (lookups s)) (drops s) (waiting s) (sent s)) as ->.
  { unfold Composer.acts, Composer.act, foldl, change, commit. cbn [set_draft draft ui].
    rewrite bool_decide_eq_false_2 by done. unfold resolve_effect. cbn [set_timer set_draft draft ui andb].
    rewrite (bool_decide_eq_true_2 (trim [] = [])) by done. rewrite orb_true_r.
    unfold lookup_answers. cbn [set_pin set_timer set_draft lookups]. rewrite Hi.
    cbn [set_pin set_timer set_draft resolveStamp].
    rewrite Hst, Nat.eqb_refl. cbn [negb]. rewrite Hother. unfold pin. rewrite Hr.
    cbn [set_pin set_timer set_draft draft manualView pickerOpen resolveStamp dropResolve ui timer lookups drops waiting sent].
    by rewrite Hman, Hdrop. }
  cbv zeta. split; [done|]. split; [done|].
  set (s1 := MkComposer _ _ _ _ _ _ _ _ _ _ _ _ _).
  assert (text ≠ []) as Hne by (by intros ->).
  assert (act (Change text) s1 =
    MkComposer text Untouched (Some v) (pickerOpen s) (res_views r) (S (resolveStamp s)) None (ui s)
      (Some (MkLookup (S (resolveStamp s)) text (domain_name (resolveText text)))) (delete i (lookups s)) (drops s)
      (waiting s) (sent s)) as Hc.
  { unfold s1, Composer.act, change, commit. cbn [set_draft draft ui]. rewrite bool_decide_eq_false_2 by (by intros [=]).
    unfold resolve_effect. cbn [set_timer set_draft draft ui andb]. rewrite Hask, bool_decide_eq_false_2 by done.
    cbn [orb]. unfold pin. by rewrite Hno. }
  change (acts [Change text; Enter] s1) with (act Enter (act (Change text) s1)). rewrite Hc, enter_eq by done.
  unfold composerLocked, eventsMode, documentsMode. cbn [ui draft]. rewrite Hf, bool_decide_eq_false_2 by done.
  cbn [andb orb cleared sent]. unfold message_of, eventsMode. cbn [ui draft]. rewrite Hask, Hf.
  unfold hint_of, effectiveView. cbn [manualView autoView fmap option_fmap option_map].
  destruct v as [[|c n] ti dom df fl]; [done|reflexivity].
Qed.

(** * With the chat turn *)

(** The parent's [send], as the closure that the input was rendered with. *)
Definition deliver (c : ChatTurn.Closure) (rand : str) (now : ChatTurn.Now) (chat : ChatTurn.ChatState) (o : Outgoing)
    : ChatTurn.ChatState :=
  ChatTurn.send c (out_text o) (out_view o) (out_event o) (out_ask o) rand now chat.

(** Enter while a turn runs.  The input does not look at the busy flag:
    it hands the message over and forgets the draft, and the chat turn drops
    the message.  The text the user typed is gone. *)
Theorem enter_while_busy s chat settings rand now :
  dropResolve s = None → composerLocked (ui s) = false → trim (draft s) ≠ [] → ChatTurn.busy chat = true →
  let s' := act Enter s in
  draft s' = [] ∧ sent s' = sent s ++ [message_of s] ∧
  deliver (ChatTurn.current chat settings) rand now chat (message_of s) = chat.
Proof.
  intros Hd Hl Ht Hb. cbv zeta. rewrite enter_eq by done. rewrite Hl, bool_decide_eq_false_2 by done.
  split_and!; [done|done|]. unfold deliver, ChatTurn.send, ChatTurn.current. cbn [ChatTurn.c_busy].
  rewrite Hb. by rewrite orb_true_r.
Qed.

(** The fields that resolving leaves alone. *)
Definition kept (s : Composer) :=
  (draft s, manualView s, dropResolve s, ui s, drops s, waiting s, sent s).

Lemma kept_pin r s : kept (pin r s) = kept s.
Proof. unfold pin. by destruct (res_suggestion r). Qed.

Lemma kept_effect s : kept (resolve_effect resolveText s) = kept s.
Proof.
  unfold resolve_effect. destruct (_ || _); [done|].
  transitivity (kept (pin (resolveText (draft s)) (set_timer None s))); [done|]. by rewrite kept_pin.
Qed.

Lemma kept_commit s s' : kept (commit resolveText s s') = kept s'.
Proof. unfold commit. destruct (_ && _); [done|apply kept_effect]. Qed.

Lemma kept_drop text s :
  text ≠ [] →
  kept (act (DropText text) s) =
    (text, manualView s, Some (length (drops s)), ui s,
     drops s ++ [Some (MkDrop text (ventry_name <$> res_suggestion (resolveText text)))], waiting s, sent s).
Proof.
  intros Ht. unfold Composer.act, onDrop. rewrite bool_decide_eq_false_2 by done. rewrite kept_commit.
  pose proof (kept_pin (resolveText text) (set_draft text s)) as H. unfold kept in *.
  cbn [set_draft draft manualView dropResolve ui drops waiting sent] in *. by injection H as -> -> _ -> -> -> ->.
Qed.

Lemma kept_enter_waiting s p :
  composerLocked (ui s) = false → trim (draft s) ≠ [] → dropResolve s = Some p →
  kept (act Enter s) =
    (draft s, manualView s, Some p, ui s, drops s, waiting s ++ [(p, closure s)], sent s) ∧
  effectiveView (act Enter s) = effectiveView s.
Proof.
  intros Hl Ht Hd. unfold Composer.act, enter, send. rewrite Hl, bool_decide_eq_false_2 by done. by rewrite Hd.
Qed.

Lemma finish_send_kept c v s :
  kept (finish_send resolveText c v s) =
    ([], Untouched, dropResolve s, ui s, drops s, waiting s, sent s ++ [outgoing resolveText c v]).
Proof. unfold finish_send. by rewrite kept_commit. Qed.

(** The message of a closure does not depend on what the drop finds beyond the
    view; the sends that wait for a drop go out in order. *)
Lemma drop_answers_sends s p d r ws :
  drops s !! p = Some (Some d) → waiting s = ws → Forall (λ w, w.1 = p) ws →
  sent (act (DropAnswers p r) s) = sent s ++ ((λ w, outgoing resolveText w.2 (drop_view d r)) <$> ws).
Proof.
  intros Hp Hw Hall. unfold Composer.act, drop_answers. rewrite Hp.
  assert (∀ s1, waiting s1 = ws → sent s1 = sent s →
    filter (λ w : nat * SendClosure, w.1 = p) (waiting s1) = ws) as Hf.
  { intros s1 -> _. clear Hw. induction Hall as [|w ws Hwp Hall IH]; [done|].
    rewrite filter_cons_True by done. by f_equal. }
  set (s1 := match r with Some r => pin r s | None => s end).
  assert (kept s1 = kept s) as Hk by (unfold s1; destruct r; [apply kept_pin|done]).
  unfold kept in Hk. injection Hk as _ _ _ _ _ Hw1 Hs1. rewrite (Hf s1) by (by rewrite ?Hw1).
  set (s2 := MkComposer _ _ _ _ _ _ _ _ _ _ _ _ _). assert (sent s2 = sent s) as Hs2 by exact Hs1.
  clear Hw Hf Hall. clearbody s2. rewrite <- Hs2. clear Hs2. revert s2.
  induction ws as [|w ws IH]; intros s2; cbn [foldl fmap list_fmap]; [by rewrite app_nil_r|].
  rewrite IH. pose proof (finish_send_kept w.2 (drop_view d r) s2) as Hk. unfold kept in Hk.
  injection Hk as _ _ _ _ _ _ ->. by rewrite <- app_assoc.
Qed.

Lemma outgoing_text c v : out_text (outgoing resolveText c v) = sc_trimmed c.
Proof.
  unfold outgoing. destruct (askMode (sc_ui c)); [done|].
  by destruct (eventsMode (sc_ui c)), (nonempty (ui_mapping (sc_ui c))), (nonempty (ui_streamId (sc_ui c))).
Qed.

Lemma deliver_idle c rand now chat o :
  ChatTurn.c_busy c = false → trim (out_text o) ≠ [] →
  length (ChatTurn.turns (deliver c rand now chat o)) = S (length (ChatTurn.turns chat)).
Proof.
  intros Hb Ht. unfold deliver, ChatTurn.send. rewrite Hb, bool_decide_eq_false_2 by done.
  cbn [orb ChatTurn.with_turn ChatTurn.with_messages ChatTurn.turns]. rewrite length_app. cbn [length].
  unfold ChatTurn.mint. destruct (ChatTurn.chatIdRef chat); cbn [ChatTurn.with_chat ChatTurn.turns]; lia.
Qed.

(** A drop and two Enters.  While the lookup of a drop runs the draft stays
    and Enter only queues, so a second Enter queues the same text again; when
    the lookup answers both go out, through the [send] of a render in which
    nothing was running, and two turns are in flight. *)
Theorem drop_sends_twice s text r c chat rand1 now1 rand2 now2 :
  dropResolve s = None → waiting s = [] → trim text ≠ [] → composerLocked (ui s) = false → ChatTurn.c_busy c = false →
  let s' := acts [DropText text; Enter; Enter; DropAnswers (length (drops s)) r] s in
  ∃ o1 o2, sent s' = sent s ++ [o1; o2] ∧ out_text o1 = trim text ∧ out_text o2 = trim text ∧
    length (ChatTurn.turns (deliver c rand2 now2 (deliver c rand1 now1 chat o1) o2)) =
      2 + length (ChatTurn.turns chat).
Proof.
  intros Hd Hw Ht Hl Hb. cbv zeta.
  assert (text ≠ []) as Hne by (by intros ->).
  set (p := length (drops s)). set (s1 := act (DropText text) s).
  pose proof (kept_drop text s Hne) as H1. fold s1 in H1. unfold kept in H1.
  injection H1 as Hdr1 Hm1 Hd1 Hu1 Hds1 Hw1 Hs1.
  destruct (kept_enter_waiting s1 p) as [H2 _]; [by rewrite Hu1|by rewrite Hdr1|done|].
  set (s2 := act Enter s1) in *. unfold kept in H2. injection H2 as Hdr2 Hm2 Hd2 Hu2 Hds2 Hw2 Hs2.
  destruct (kept_enter_waiting s2 p) as [H3 _]; [by rewrite Hu2, Hu1|by rewrite Hdr2, Hdr1|done|].
  set (s3 := act Enter s2) in *. unfold kept in H3. injection H3 as Hdr3 Hm3 Hd3 Hu3 Hds3 Hw3 Hs3.
  change (acts [DropText text; Enter; Enter; DropAnswers p r] s) with (act (DropAnswers p r) s3).
  rewrite (drop_answers_sends s3 p (MkDrop text (ventry_name <$> res_suggestion (resolveText text))) r
    [(p, closure s1); (p, closure s2)]).
  - cbn [fmap list_fmap snd]. eexists _, _. rewrite Hs3, Hs2, Hs1. split; [done|]. rewrite !outgoing_text.
    unfold closure. cbn [sc_trimmed]. rewrite Hdr2, Hdr1. split_and!; [done|done|].
    rewrite !deliver_idle; [done|done| |done|]; rewrite outgoing_text; cbn [sc_trimmed];
      rewrite ?Hdr2, ?Hdr1, trim_idemp; done.
  - rewrite Hds3, Hds2, Hds1. unfold p. by rewrite lookup_app_r, Nat.sub_diag by lia.
  - by rewrite Hw3, Hw2, Hw1, Hw.
  - by repeat constructor.
Qed.
End laws.

(** * Examples *)

Definition keywords (text : str) : ResolveResult :=
  let v := MkViewEntry #"person_list" #"Personen" #"person" true [] in
  if includes #"person" text then MkResult (Some (MkDomainEntry #"person" #"person" None [])) [v] (Some v) else no_result.
Definition contracts : ResolveResult :=
  let v := MkViewEntry #"vertrag_list" #"Vertraege" #"vertrag" true [] in
  MkResult (Some (MkDomainEntry #"vertrag" #"vertrag" None [])) [v] (Some v).

(** Forms mode, [alle person] typed. *)
Definition typed : Composer := acts keywords [Change #"alle person "] (initial_composer DEFAULT_UI_STATE).

Lemma enter_sends_witness :
  sent (act keywords Enter typed) = [MkOutgoing #"alle person" (Some #"person_list") None false].
Proof. rewrite (enter_sends keywords typed); vm_compute; reflexivity. Defined.

Lemma choice_outlives_draft_witness :
  sent (act keywords Enter (acts keywords [Change []; Change #"person"] (clearHint typed))) =
    [MkOutgoing #"person" None None false].
Proof.
  destruct (choice_outlives_draft keywords (clearHint typed) [Change []; Change #"person"]) as (_ & _ & H).
  - discriminate.
  - by repeat constructor.
  - rewrite H; [vm_compute; reflexivity|vm_compute; reflexivity|vm_compute; reflexivity|vm_compute; discriminate|reflexivity].
Defined.

Definition looking_up : Composer := acts keywords [Change #"alle Verträge"; TimerFires] (initial_composer DEFAULT_UI_STATE).

Lemma stale_lookup_pins_witness :
  sent (acts keywords [Change #"hallo"; Enter] (acts keywords [Change []; LookupAnswers 0 contracts] looking_up)) =
    [MkOutgoing #"hallo" (Some #"vertrag_list") None false].
Proof.
  destruct (stale_lookup_pins keywords looking_up 0 (MkLookup 1 #"alle Verträge" None) contracts
    (MkViewEntry #"vertrag_list" #"Vertraege" #"vertrag" true []) #"hallo") as (_ & _ & ->);
    try (vm_compute; reflexivity); vm_compute; discriminate.
Defined.

Definition busy_chat (c : ChatTurn.ChatState) : ChatTurn.ChatState := ChatTurn.with_turn true None None [] c.
Definition no_settings : ChatTurn.ChatSettings := ChatTurn.MkChatSettings [] [] [] [].
Definition noon : ChatTurn.Now := ChatTurn.MkNow 0 #"2025-01-01T12:00:00.000Z" 12 0.

Lemma enter_while_busy_witness :
  draft (act keywords Enter typed) = [] ∧
  deliver (ChatTurn.current (busy_chat ChatTurn.initial) no_settings) [] noon (busy_chat ChatTurn.initial)
    (message_of keywords typed) = busy_chat ChatTurn.initial.
Proof.
  destruct (enter_while_busy keywords typed (busy_chat ChatTurn.initial) no_settings [] noon) as (H1 & _ & H2);
    [vm_compute; reflexivity|vm_compute; reflexivity|vm_compute; discriminate|reflexivity|].
  split; [exact H1|exact H2].
Defined.

Lemma drop_sends_twice_witness :
  ∃ o1 o2, sent (acts keywords [DropText #"Personen"; Enter; Enter; DropAnswers 0 None]
                   (initial_composer DEFAULT_UI_STATE)) = [o1; o2] ∧
    let c := ChatTurn.current ChatTurn.initial no_settings in
    length (ChatTurn.turns (deliver c [] noon (deliver c [] noon ChatTurn.initial o1) o2)) = 2.
Proof.
  destruct (drop_sends_twice keywords (initial_composer DEFAULT_UI_STATE) #"Personen" None
    (ChatTurn.current ChatTurn.initial no_settings) ChatTurn.initial [] noon [] noon) as (o1 & o2 & Hs & _ & _ & Ht);
    [reflexivity|reflexivity|vm_compute; discriminate|reflexivity|reflexivity|].
  exists o1, o2. split; [exact Hs|exact Ht].
Defined.
