(* ===== verification/Assistant.v ===== *)
(** The assistant of the editor: [apps/oosd/src/mainview/components/ChatPanel.tsx]
    and the code blocks of its answers.

    The panel is a transition system.  A call of [send] that waits for the
    sources of its domains is part of the state, with the render it closed
    over; tokens, the end of an answer and what [rpc.chat] settles to are
    events. *)

From S2P Require Export JsValue.

#[local] Set Warnings "-register-all".

(** * Code blocks *)

(** [\w] *)
Definition is_word_unit (c : N) : bool := is_lower c || is_upper c || is_digit c || (c =? 95)%N.

Fixpoint word_prefix (s : str) : str :=
  match s with c :: s' => if is_word_unit c then c :: word_prefix s' else [] | [] => [] end.

Definition fence : str := #"```".

(** A block at the start of [s]: three backticks, a language [ok] accepts, a
    newline, and the shortest content that ends in three backticks.  The
    language, the content and the rest. *)
Definition fence_at (ok : str → bool) (s : str) : option (str * str * str) :=
  if negb (starts_with fence s) then None
  else
    let s := drop 3 s in
    let lang := word_prefix s in
    match drop (length lang) s with
    | c :: body =>
      if ok lang && (c =? nl)%N
      then match index_of fence body with
           | Some i => Some (lang, take i body, drop (i + 3) body)
           | None => None
           end
      else None
    | [] => None
    end.

(** The successive matches of [fence.exec(text)]: what comes before each, the
    match, and what is left at the end; [fuel] is the number of code units. *)
Fixpoint scan (ok : str → bool) (fuel : nat) (before s : str) : list (str * (str * str)) * str :=
  match fuel with
  | O => ([], before ++ s)
  | S fuel =>
    match fence_at ok s with
    | Some (lang, content, rest) =>
      let '(ms, last) := scan ok fuel [] rest in ((before, (lang, content)) :: ms, last)
    | None => match s with
              | [] => ([], before)
              | c :: s => scan ok fuel (before ++ [c]) s
              end
    end
  end.

Definition matches (ok : str → bool) (text : str) : list (str * (str * str)) * str :=
  scan ok (S (length text)) [] text.

(** [parseMessageParts] *)
Inductive MessagePart := TextPart (content : str) | CodePart (lang content : str).

Definition text_part (s : str) : list MessagePart := match s with [] => [] | _ => [TextPart s] end.

Definition parseMessageParts (text : str) : list MessagePart :=
  let '(ms, last) := matches (λ _, true) text in
  let parts := flat_map (λ m : str * (str * str), text_part m.1 ++ [CodePart m.2.1 (trim m.2.2)]) ms ++ text_part last in
  match parts with [] => [TextPart text] | _ => parts end.

(** ** DSL blocks *)

Inductive BlockKind := DomainBlock | ViewBlock.
Record DslBlock := MkBlock { bl_kind : BlockKind; bl_id : str; bl_source : str }.

Definition is_comment_line (l : str) : bool := starts_with #"//" (trim l).
Definition first_code_line (source : str) : str :=
  default [] (List.find (λ l, negb (bool_decide (trim l = [])) && negb (is_comment_line l)) (split_on nl source)).

(** [word\s+] at the start: the text behind it. *)
Definition after_word (w s : str) : option str :=
  if starts_with w s
  then match drop (length w) s with
       | c :: rest => if is_space c then Some (trim_start rest) else None
       | [] => None
       end
  else None.

(** [/^\s*(?:default\s+)?word\s+/], the text behind it. *)
Definition after_declaration (w line : str) : option str :=
  let s := trim_start line in
  match after_word #"default" s with
  | Some s' => match after_word w s' with Some r => Some r | None => after_word w s end
  | None => after_word w s
  end.

Definition block_id (line : str) : str :=
  match (match after_declaration #"domain" line with Some r => Some r | None => after_declaration #"view" line end) with
  | Some r => match word_prefix r with [] => #"new" | id => id end
  | None => #"new"
  end.

Definition dsl_block (content : str) : list DslBlock :=
  let source := trim content in
  if bool_decide (source = []) then []
  else
    let line := first_code_line source in
    match after_word #"domain" (trim_start line) with
    | Some _ => [MkBlock DomainBlock (block_id line) source]
    | None => match after_declaration #"view" line with
              | Some _ => [MkBlock ViewBlock (block_id line) source]
              | None => []
              end
    end.

Definition dsl_language (lang : str) : bool :=
  bool_decide (lang ∈ [ #"dsl"; #"domain"; #"view"; [] ]).

Definition extractDslBlocks (text : str) : list DslBlock :=
  flat_map (λ m : str * (str * str), dsl_block m.2.2) (matches dsl_language text).1.

Example blocks_1 :
  let source := #"// Personen
domain person from person @ demo {
}" in
  extractDslBlocks (#"Hier:
```dsl
" ++ source ++ #"
```
und ```ts
domain x
``` fertig") = [MkBlock DomainBlock #"person" source].
Proof. vm_compute. reflexivity. Qed.

(** * The panel *)

Inductive ChatRole := UserRole | AssistantRole.
Record PanelMessage := MkPanelMessage { pm_role : ChatRole; pm_content : str }.

(** The parameter of [rpc.chat]. *)
Record ChatRequest := MkChatRequest {
  rq_history : list PanelMessage; rq_message : str;
  rq_context : option (list (str * str) * option str); rq_activeView : option str }.

(** A [send] that loads the sources of its domains: what it closed over, the
    ids still to load and the sources it has. *)
Record PendingSend := MkPendingSend {
  ps_text : str; ps_history : list PanelMessage; ps_todo : list str; ps_sources : list (str * str);
  ps_view : option str; ps_activeView : option str }.

Record Panel := MkPanel {
  history : list PanelMessage; input : str; busy : bool; streaming : str; error : option str;
  streamingRef : str; resolvedDomainIds : list str; resolvedViewId : option str;
  clearedDomains : list str; viewCleared : bool;
  activeView : option str;                              (** the prop: the view in the editor *)
  pending_sends : list PendingSend; chat_requests : list ChatRequest; opened : list DslBlock }.

Definition initial_panel (view : option str) : Panel :=
  MkPanel [] [] false [] None [] [] None [] false view [] [] [].

Definition visibleDomains (p : Panel) : list str := filter (λ id, id ∉ clearedDomains p) (resolvedDomainIds p).
Definition visibleView (p : Panel) : option str := if viewCleared p then None else resolvedViewId p.

Definition setInput (t : str) (p : Panel) : Panel :=
  MkPanel (history p) t (busy p) (streaming p) (error p) (streamingRef p) (resolvedDomainIds p) (resolvedViewId p)
    (clearedDomains p) (viewCleared p) (activeView p) (pending_sends p) (chat_requests p) (opened p).

Definition set_intent (ids : list str) (view : option str) (cleared : list str) (vc : bool) (p : Panel) : Panel :=
  MkPanel (history p) (input p) (busy p) (streaming p) (error p) (streamingRef p) ids view cleared vc
    (activeView p) (pending_sends p) (chat_requests p) (opened p).

(** The debounce of the live resolution ends; the intent it asks for comes as
    an event of its own. *)
Definition resolveDebounced (p : Panel) : Panel :=
  if bool_decide (trim (input p) = []) then set_intent [] None [] false p
  else set_intent (resolvedDomainIds p) (resolvedViewId p) [] false p.
Definition intent_resolved (ids : list str) (view : option str) (p : Panel) : Panel :=
  set_intent ids view (clearedDomains p) (viewCleared p) p.

Definition clearDomain (id : str) (p : Panel) : Panel :=
  set_intent (resolvedDomainIds p) (resolvedViewId p) (clearedDomains p ++ [id]) (viewCleared p) p.
Definition clearView (p : Panel) : Panel :=
  set_intent (resolvedDomainIds p) (resolvedViewId p) (clearedDomains p) true p.

(** [domainSources.length > 0 || resolvedViewId ? ... : undefined] *)
Definition resolved_context (sources : list (str * str)) (view : option str) : option (list (str * str) * option str) :=
  if (0 <? length sources) || match view with Some (_ :: _) => true | _ => false end then Some (sources, view) else None.

(** The call of [rpc.chat], once the sources are there. *)
Definition request_of (s : PendingSend) : ChatRequest :=
  MkChatRequest (ps_history s) (ps_text s) (resolved_context (ps_sources s) (ps_view s)) (ps_activeView s).

Definition dispatch (s : PendingSend) (p : Panel) : Panel :=
  let '(waiting, requests) :=
    match ps_todo s with
    | [] => (pending_sends p, chat_requests p ++ [request_of s])
    | _ => (pending_sends p ++ [s], chat_requests p)
    end in
  MkPanel (history p) (input p) (busy p) (streaming p) (error p) (streamingRef p) (resolvedDomainIds p)
    (resolvedViewId p) (clearedDomains p) (viewCleared p) (activeView p) waiting requests (opened p).

Definition send (p : Panel) : Panel :=
  let text := trim (input p) in
  if bool_decide (text = []) || busy p then p
  else
    dispatch (MkPendingSend text (history p) (resolvedDomainIds p) [] (resolvedViewId p) (activeView p))
      (MkPanel (history p ++ [MkPanelMessage UserRole text]) [] true [] None [] (resolvedDomainIds p)
         (resolvedViewId p) (clearedDomains p) (viewCleared p) (activeView p) (pending_sends p) (chat_requests p)
         (opened p)).

(** [rpc.loadDomainSource] answers the [i]-th waiting send; it never rejects. *)
Definition source_loaded (i : nat) (source : option str) (p : Panel) : Panel :=
  match pending_sends p !! i with
  | Some (MkPendingSend text h (id :: todo) sources v av) =>
    let sources' := match source with Some (c :: s) => sources ++ [(id, c :: s)] | _ => sources end in
    dispatch (MkPendingSend text h todo sources' v av)
      (MkPanel (history p) (input p) (busy p) (streaming p) (error p) (streamingRef p) (resolvedDomainIds p)
         (resolvedViewId p) (clearedDomains p) (viewCleared p) (activeView p) (delete i (pending_sends p))
         (chat_requests p) (opened p))
  | _ => p
  end.

(** [rpc.chat] settles: only a rejection is looked at. *)
Definition chat_settled (result : outcome bool) (p : Panel) : Panel :=
  match result with
  | Ok _ => p
  | Throw e =>
    MkPanel (history p) (input p) false (streaming p) (Some e) (streamingRef p) (resolvedDomainIds p)
      (resolvedViewId p) (clearedDomains p) (viewCleared p) (activeView p) (pending_sends p) (chat_requests p) (opened p)
  end.

(** The two streaming handlers. *)
Definition token (delta : str) (p : Panel) : Panel :=
  MkPanel (history p) (input p) (busy p) (streaming p ++ delta) (error p) (streamingRef p ++ delta)
    (resolvedDomainIds p) (resolvedViewId p) (clearedDomains p) (viewCleared p) (activeView p) (pending_sends p)
    (chat_requests p) (opened p).

Definition answer (text : str) : list PanelMessage :=
  match text with [] => [] | _ => [MkPanelMessage AssistantRole text] end.

Definition chat_done (ok : bool) (err : option str) (p : Panel) : Panel :=
  let partial := streamingRef p in
  if ok then
    MkPanel (history p ++ answer partial) (input p) false [] (error p) [] (resolvedDomainIds p) (resolvedViewId p)
      (clearedDomains p) (viewCleared p) (activeView p) (pending_sends p) (chat_requests p)
      (opened p ++ extractDslBlocks partial)
  else
    MkPanel (history p) (input p) false [] (Some (default #"Unknown error" err)) [] (resolvedDomainIds p)
      (resolvedViewId p) (clearedDomains p) (viewCleared p) (activeView p) (pending_sends p) (chat_requests p) (opened p).

Definition cancelled_note : str := [nl; nl] ++ #"*Abgebrochen.*".

(** [cancel]; the flags it raises are read nowhere. *)
Definition cancel (p : Panel) : Panel :=
  MkPanel (history p ++ match streamingRef p with [] => [] | t => [MkPanelMessage AssistantRole (t ++ cancelled_note)] end)
    (input p) false [] (error p) [] (resolvedDomainIds p) (resolvedViewId p) (clearedDomains p) (viewCleared p)
    (activeView p) (pending_sends p) (chat_requests p) (opened p).

(** ** Events *)

Inductive PanelEvent :=
| InputChanged (t : str)
| DebounceEnded
| IntentResolved (ids : list str) (view : option str)
| DomainCleared (id : str)
| ViewPillCleared
| Sent
| SourceLoaded (i : nat) (source : option str)
| ChatSettled (result : outcome bool)
| TokenArrived (delta : str)
| DoneArrived (ok : bool) (err : option str)
| CancelClicked.

Definition handle (e : PanelEvent) (p : Panel) : Panel :=
  match e with
  | InputChanged t => setInput t p
  | DebounceEnded => resolveDebounced p
  | IntentResolved ids v => intent_resolved ids v p
  | DomainCleared id => clearDomain id p
  | ViewPillCleared => clearView p
  | Sent => send p
  | SourceLoaded i s => source_loaded i s p
  | ChatSettled r => chat_settled r p
  | TokenArrived d => token d p
  | DoneArrived ok err => chat_done ok err p
  | CancelClicked => cancel p
  end.

Definition handles (es : list PanelEvent) (p : Panel) : Panel := foldl (λ p e, handle e p) p es.

(** [rpc.chat] as it stands: it resolves, and nothing streams. *)
Definition chat_answer : outcome bool := Ok false.
Definition served (e : PanelEvent) : bool :=
  match e with
  | ChatSettled (Ok _) => true
  | ChatSettled (Throw _) | TokenArrived _ | DoneArrived _ _ => false
  | _ => true
  end.

(** * Blocks of an answer *)

Definition no_tick (s : str) : Prop := 96%N ∉ s.

Lemma starts_fence_app s t : no_tick s → s ≠ [] → starts_with fence (s ++ t) = false.
Proof.
  intros Hs Hne. destruct s as [|c s]; [done|]. apply not_elem_of_cons in Hs as [Hc _].
  unfold fence. change (#"```") with [96; 96; 96]%N. cbn [app starts_with].
  by destruct (N.eqb_spec 96 c) as [<-|].
Qed.

Lemma index_fence_app s t : no_tick s → index_of fence (s ++ fence ++ t) = Some (length s).
Proof.
  induction s as [|c s IH]; intros Hs.
  - cbn [app length]. unfold fence. change (#"```") with [96; 96; 96]%N. reflexivity.
  - pose proof (starts_fence_app (c :: s) (fence ++ t) Hs ltac:(discriminate)) as Hst.
    apply not_elem_of_cons in Hs as [_ Hs]. cbn [app length] in *. cbn [index_of]. rewrite Hst.
    by rewrite (IH Hs).
Qed.

Lemma fence_at_none ok s t : no_tick s → s ≠ [] → fence_at ok (s ++ t) = None.
Proof. intros Hs Hne. unfold fence_at. by rewrite starts_fence_app. Qed.

Lemma word_prefix_app w t :
  forallb is_word_unit w = true → match t with c :: _ => is_word_unit c = false | [] => True end →
  word_prefix (w ++ t) = w.
Proof.
  induction w as [|c w IH]; cbn [forallb app word_prefix].
  - destruct t as [|c t]; [done|]. intros _ H. cbn [word_prefix]. by rewrite H.
  - intros [Hc Hw]%andb_prop Ht. rewrite Hc. by rewrite (IH Hw Ht).
Qed.

Lemma fence_at_block ok lang body t :
  forallb is_word_unit lang = true → ok lang = true → no_tick body →
  fence_at ok (fence ++ lang ++ [nl] ++ body ++ fence ++ t) = Some (lang, body, t).
Proof.
  intros Hw Hok Hb. unfold fence_at. rewrite starts_with_app. cbn [negb].
  change (drop 3 (fence ++ lang ++ [nl] ++ body ++ fence ++ t)) with (lang ++ [nl] ++ body ++ fence ++ t).
  rewrite word_prefix_app by done. rewrite drop_app_length. cbn [app]. rewrite Hok. cbn [andb].
  change (nl =? nl)%N with true. cbn [andb]. cbv iota. rewrite index_fence_app by done.
  rewrite take_app_length. f_equal. f_equal.
  rewrite <- drop_drop, drop_app_length. reflexivity.
Qed.

(** Enough fuel: a scan that has a unit of fuel for each unit of text. *)
Lemma scan_skip ok fuel before s t :
  no_tick s → length s ≤ fuel → scan ok fuel before (s ++ t) = scan ok (fuel - length s) (before ++ s) t.
Proof.
  revert fuel before. induction s as [|c s IH]; intros fuel before Hs Hf.
  - cbn [app length]. by rewrite Nat.sub_0_r, app_nil_r.
  - destruct fuel as [|fuel]; [cbn [length] in Hf; lia|]. cbn [scan].
    rewrite (fence_at_none ok (c :: s) t Hs) by discriminate. cbn [app].
    apply not_elem_of_cons in Hs as [_ Hs]. rewrite IH by (done || (cbn [length] in Hf; lia)).
    cbn [length Nat.sub]. by rewrite <- app_assoc.
Qed.

Lemma fence_at_shorter ok s lang content rest : fence_at ok s = Some (lang, content, rest) → length rest < length s.
Proof.
  unfold fence_at. destruct (negb (starts_with fence s)) eqn:Est; [discriminate 1|].
  apply negb_false_iff, starts_with_spec in Est as [k ->].
  change (drop 3 (fence ++ k)) with k. intros H.
  destruct (drop (length (word_prefix k)) k) as [|c body] eqn:Ed; [discriminate H|].
  destruct (ok _ && _); [|discriminate H]. destruct (index_of fence body) as [i|]; [|discriminate H].
  injection H as _ _ <-. apply (f_equal length) in Ed. rewrite length_drop in Ed. cbn [length] in Ed.
  rewrite length_drop, length_app. lia.
Qed.

Lemma scan_fuel ok fuel fuel' before s :
  length s < fuel → length s < fuel' → scan ok fuel before s = scan ok fuel' before s.
Proof.
  revert fuel' before s. induction fuel as [|fuel IH]; intros fuel' before s Hf Hf'; [lia|].
  destruct fuel' as [|fuel']; [lia|]. cbn [scan].
  destruct (fence_at ok s) as [[[lang content] rest]|] eqn:E.
  - apply fence_at_shorter in E. rewrite (IH fuel') by lia. done.
  - destruct s as [|c s]; [done|]. cbn [length] in *. apply IH; lia.
Qed.

Lemma matches_block ok pre lang body post :
  no_tick pre → no_tick body → forallb is_word_unit lang = true → ok lang = true →
  (matches ok (pre ++ fence ++ lang ++ [nl] ++ body ++ fence ++ post)).1 =
    (pre, (lang, body)) :: (matches ok post).1 ∧
  (matches ok (pre ++ fence ++ lang ++ [nl] ++ body ++ fence ++ post)).2 = (matches ok post).2.
Proof.
  intros Hpre Hbody Hlang Hok. unfold matches. rewrite scan_skip by (done || (rewrite length_app; lia)).
  remember (scan ok (S (length post)) [] post) as r eqn:Er.
  rewrite length_app, Nat.sub_succ_l by lia. cbn [scan]. rewrite fence_at_block by done.
  match goal with |- context [scan ok ?n [] post] =>
    assert (length post < n) as Hn; [|rewrite (scan_fuel ok n (S (length post)) [] post Hn), <- Er by lia] end.
  { rewrite ?length_app. cbn [length]. rewrite ?length_app. lia. }
  by destruct r as [ms l].
Qed.

Lemma after_word_app w c rest :
  is_space c = true → after_word w (w ++ c :: rest) = Some (trim_start rest).
Proof. intros Hc. unfold after_word. by rewrite starts_with_app, drop_app_length, Hc. Qed.

Lemma trim_start_word c s : is_word_unit c = true → trim_start (c :: s) = c :: s.
Proof.
  intros Hc. apply trim_start_id. cbn [head]. intros c' [= <-].
  destruct (is_space c) eqn:E; [|done]. exfalso. unfold is_space in E. unfold is_word_unit, is_lower, is_upper, is_digit in Hc.
  apply orb_prop in E as [E|E].
  - apply bool_decide_eq_true_1 in E. repeat (apply elem_of_cons in E as [->|E]; [discriminate Hc|]). by apply elem_of_nil in E.
  - rewrite !orb_true_iff, !andb_true_iff, !N.leb_le, N.eqb_eq in Hc. apply andb_prop in E as [E1 E2].
    apply N.leb_le in E1, E2. lia.
Qed.

(** The declaration a block starts with. *)
Definition keyword_of (k : BlockKind) : str := match k with DomainBlock => #"domain" | ViewBlock => #"view" end.

Lemma dsl_block_declared k id rest body source :
  trim body = source → source ≠ [] → first_code_line source = keyword_of k ++ #" " ++ id ++ rest →
  id ≠ [] → forallb is_word_unit id = true → match rest with c :: _ => is_word_unit c = false | [] => True end →
  dsl_block body = [MkBlock k id source].
Proof.
  intros Hb Hs Hl Hid Hw Hr. unfold dsl_block. rewrite Hb, bool_decide_eq_false_2, Hl by done.
  assert (trim_start (id ++ rest) = id ++ rest) as Hts.
  { destruct id as [|c id]; [done|]. cbn [app]. apply trim_start_word. by apply andb_prop in Hw as [Hc _]. }
  assert (word_prefix (id ++ rest) = id) as Hwp by (by apply word_prefix_app).
  assert (trim_start (keyword_of k ++ #" " ++ id ++ rest) = keyword_of k ++ #" " ++ id ++ rest) as Hk.
  { destruct k; (apply trim_start_id; cbn; intros c [= <-]; reflexivity). }
  assert (∀ w, after_word w (w ++ #" " ++ id ++ rest) = Some (id ++ rest)) as Haw.
  { intros w. change (#" " ++ id ++ rest) with (32%N :: (id ++ rest)). rewrite after_word_app by reflexivity. by rewrite Hts. }
  unfold block_id, after_declaration. rewrite Hk.
  destruct k; cbn [keyword_of].
  - rewrite Haw. change (after_word #"default" (#"domain" ++ #" " ++ id ++ rest)) with (@None str).
    cbv iota. rewrite Hwp. by destruct id.
  - change (after_word #"domain" (#"view" ++ #" " ++ id ++ rest)) with (@None str).
    change (after_word #"default" (#"view" ++ #" " ++ id ++ rest)) with (@None str). cbv iota.
    rewrite Haw, Hwp. by destruct id.
Qed.

(** The blocks of an answer.  A fenced block in one of the four languages,
    with no backtick before it or inside, is the next one found, and what
    follows it is scanned the same way.  It is opened in the editor exactly as
    it declares itself: a block whose first line of code is [domain id] or
    [view id] yields its trimmed source under that kind and that id. *)
Theorem blocks_extracted pre lang body post :
  no_tick pre → no_tick body → lang ∈ [ #"dsl"; #"domain"; #"view"; [] ] →
  extractDslBlocks (pre ++ fence ++ lang ++ [nl] ++ body ++ fence ++ post) = dsl_block body ++ extractDslBlocks post ∧
  ∀ k id rest, trim body ≠ [] → first_code_line (trim body) = keyword_of k ++ #" " ++ id ++ rest →
    id ≠ [] → forallb is_word_unit id = true → match rest with c :: _ => is_word_unit c = false | [] => True end →
    extractDslBlocks (pre ++ fence ++ lang ++ [nl] ++ body ++ fence ++ post) =
      MkBlock k id (trim body) :: extractDslBlocks post.
Proof.
  intros Hpre Hbody Hlang.
  assert (forallb is_word_unit lang = true) as Hw.
  { repeat (apply elem_of_cons in Hlang as [->|Hlang]; [reflexivity|]). by apply elem_of_nil in Hlang. }
  assert (extractDslBlocks (pre ++ fence ++ lang ++ [nl] ++ body ++ fence ++ post) =
          dsl_block body ++ extractDslBlocks post) as Heq.
  { unfold extractDslBlocks. destruct (matches_block dsl_language pre lang body post) as [-> _]; try done.
    by apply bool_decide_eq_true_2. }
  split; [done|]. intros k id rest Hne Hl Hid Hwi Hr. rewrite Heq. by rewrite (dsl_block_declared k id rest body (trim body)).
Qed.

Lemma blocks_extracted_witness :
  extractDslBlocks (#"Neu: " ++ fence ++ #"dsl" ++ [nl] ++ (#"view liste over x {}" ++ [nl]) ++ fence ++ #" fertig") =
    [MkBlock ViewBlock #"liste" #"view liste over x {}"].
Proof.
  destruct (blocks_extracted #"Neu: " #"dsl" (#"view liste over x {}" ++ [nl]) #" fertig") as [_ H].
  - apply (bool_decide_unpack _). vm_compute. exact I.
  - apply (bool_decide_unpack _). vm_compute. exact I.
  - by left.
  - rewrite (H ViewBlock #"liste" #" over x {}"); [reflexivity|vm_compute; discriminate|vm_compute; reflexivity
      |discriminate|reflexivity|reflexivity].
Defined.

(** No text of an answer is lost: the parts between and behind the matches and
    the matches themselves are the text. *)
Definition raw_match (m : str * (str * str)) : str := m.1 ++ fence ++ m.2.1 ++ [nl] ++ m.2.2 ++ fence.

Lemma word_prefix_split k : ∃ r, k = word_prefix k ++ r.
Proof.
  induction k as [|c k IH]; [by exists []|]. cbn [word_prefix]. destruct (is_word_unit c); [|by exists (c :: k)].
  destruct IH as [r Hr]. exists r. cbn [app]. by rewrite <- Hr.
Qed.

Lemma fence_at_raw ok s lang content rest :
  fence_at ok s = Some (lang, content, rest) → s = fence ++ lang ++ [nl] ++ content ++ fence ++ rest.
Proof.
  unfold fence_at. destruct (negb (starts_with fence s)) eqn:Est; [discriminate 1|].
  apply negb_false_iff, starts_with_spec in Est as [k ->]. change (drop 3 (fence ++ k)) with k. intros H.
  destruct (drop (length (word_prefix k)) k) as [|c body] eqn:Ed; [discriminate H|].
  destruct (ok (word_prefix k) && (c =? nl)%N) eqn:Ec; [|discriminate H].
  apply andb_prop in Ec as [_ Hc%N.eqb_eq]. subst c.
  destruct (index_of fence body) as [i|] eqn:Ei; [|discriminate H].
  injection H as <- <- <-. f_equal.
  destruct (word_prefix_split k) as [r Hr]. rewrite Hr in Ed at 2. rewrite drop_app_length in Ed. subst r. rewrite Hr at 1. f_equal.
  cbn [app]. f_equal.
  assert (starts_with fence (drop i body) = true) as Hst.
  { clear -Ei. revert i Ei. induction body as [|c b IH]; intros i; cbn [index_of].
    - unfold fence. change (#"```") with [96; 96; 96]%N. cbn [starts_with]. discriminate 1.
    - destruct (starts_with fence (c :: b)) eqn:E; [by intros [= <-]|].
      destruct (index_of fence b) as [j|]; [|discriminate 1]. intros [= <-]. by apply IH. }
  apply starts_with_spec in Hst as [q Hq].
  rewrite <- (take_drop i body) at 1. f_equal. rewrite Hq. f_equal. rewrite <- drop_drop, Hq. reflexivity.
Qed.

Lemma scan_cover ok fuel before s :
  let r := scan ok fuel before s in before ++ s = (flat_map raw_match r.1) ++ r.2.
Proof.
  cbv zeta. revert before s. induction fuel as [|fuel IH]; intros before s; cbn [scan]; [done|].
  destruct (fence_at ok s) as [[[lang content] rest]|] eqn:E.
  - apply fence_at_raw in E as ->. specialize (IH [] rest).
    destruct (scan ok fuel [] rest) as [ms l]. cbn [fst snd flat_map app] in *. unfold raw_match at 1.
    cbn [fst snd]. rewrite IH. rewrite <- !app_assoc. done.
  - destruct s as [|c s]; [by rewrite app_nil_r|]. rewrite <- IH. by rewrite <- app_assoc.
Qed.

(** * Turns *)

Definition source_for (f : str → option str) (id : str) : list (str * str) :=
  match f id with Some (c :: s) => [(id, c :: s)] | _ => [] end.

(** The sources of the domains arrive in order. *)
Lemma sources_arrive f text h v av todo acc p :
  pending_sends p = [] →
  handles ((λ id, SourceLoaded 0 (f id)) <$> todo) (dispatch (MkPendingSend text h todo acc v av) p) =
  dispatch (MkPendingSend text h [] (acc ++ flat_map (source_for f) todo) v av) p.
Proof.
  revert acc. induction todo as [|id todo IH]; intros acc Hp.
  - cbn [fmap list_fmap flat_map]. by rewrite app_nil_r.
  - cbn [fmap list_fmap flat_map]. unfold handles. cbn [foldl]. fold (handles ((λ id, SourceLoaded 0 (f id)) <$> todo)).
    assert (handle (SourceLoaded 0 (f id)) (dispatch (MkPendingSend text h (id :: todo) acc v av) p) =
            dispatch (MkPendingSend text h todo (acc ++ source_for f id) v av) p) as ->.
    { destruct p. cbn [pending_sends] in Hp. subst. unfold dispatch at 2. cbn [ps_todo pending_sends chat_requests].
      cbn [handle]. unfold source_loaded. cbn [pending_sends app lookup list_lookup].
      unfold source_for. destruct (f id) as [[|c s]|]; rewrite ?app_nil_r; done. }
    change (foldl (λ p e, handle e p) ?q ?l) with (handles l q).
    rewrite IH by done. by rewrite <- app_assoc.
Qed.

Lemma tokens_arrive ds p :
  handles (TokenArrived <$> ds) p =
  MkPanel (history p) (input p) (busy p) (streaming p ++ concat ds) (error p) (streamingRef p ++ concat ds)
    (resolvedDomainIds p) (resolvedViewId p) (clearedDomains p) (viewCleared p) (activeView p) (pending_sends p)
    (chat_requests p) (opened p).
Proof.
  revert p. induction ds as [|d ds IH]; intros p; cbn [fmap list_fmap concat].
  - rewrite !app_nil_r. by destruct p.
  - unfold handles. cbn [foldl]. change (foldl (λ p e, handle e p) ?q ?l) with (handles l q). rewrite IH.
    cbn. by rewrite <- !app_assoc.
Qed.

Lemma handles_app l1 l2 p : handles (l1 ++ l2) p = handles l2 (handles l1 p).
Proof. unfold handles. by rewrite foldl_app. Qed.

(** A turn of the assistant.  From an idle panel, sending a draft that is
    not blank posts the question, loads the sources of the resolved domains in
    order, sends one request with the history before the question and the
    sources that exist, streams the tokens, and when the answer is done posts
    their concatenation and opens its blocks in the editor. *)
Theorem assistant_turn p f tokens :
  busy p = false → pending_sends p = [] → trim (input p) ≠ [] →
  let text := trim (input p) in
  let p' := handles (Sent :: ((λ id, SourceLoaded 0 (f id)) <$> resolvedDomainIds p) ++ (TokenArrived <$> tokens) ++
                       [DoneArrived true None]) p in
  chat_requests p' = chat_requests p ++
    [MkChatRequest (history p) text
       (resolved_context (flat_map (source_for f) (resolvedDomainIds p)) (resolvedViewId p)) (activeView p)] ∧
  history p' = history p ++ [MkPanelMessage UserRole text] ++ answer (concat tokens) ∧
  opened p' = opened p ++ extractDslBlocks (concat tokens) ∧
  busy p' = false ∧ streaming p' = [] ∧ input p' = [] ∧ error p' = None ∧ pending_sends p' = [].
Proof.
  intros Hb Hp Ht. cbv zeta.
  change (handles (Sent :: ?l) p) with (handles l (send p)). unfold send.
  rewrite Hb, bool_decide_eq_false_2 by done. cbn [orb]. rewrite !handles_app, sources_arrive by done.
  rewrite tokens_arrive. unfold dispatch. cbn [ps_todo pending_sends chat_requests]. rewrite Hp.
  cbn. rewrite <- app_assoc. by split_and!.
Qed.

Lemma assistant_turn_witness :
  history (handles (Sent :: ((λ _ : str, SourceLoaded 0 None) <$> []) ++ (TokenArrived <$> [ #"Ha"; #"llo" ]) ++ [DoneArrived true None])
    (setInput #" Hi " (initial_panel None))) = [MkPanelMessage UserRole #"Hi"; MkPanelMessage AssistantRole #"Hallo"].
Proof.
  destruct (assistant_turn (setInput #" Hi " (initial_panel None)) (λ _, None) [ #"Ha"; #"llo" ]) as (_ & H & _);
    [reflexivity|reflexivity|vm_compute; discriminate|]. exact H.
Defined.

(** With the backend of today a turn never ends.  [rpc.chat] resolves with
    an error in its answer, which the panel does not look at, and nothing
    streams: once a message is sent, no sequence of events but the Stop button
    makes the panel idle, shows an error or sends another message. *)
Theorem unserved_turn_hangs es p :
  busy p = true → Forall (λ e, served e = true ∧ e ≠ CancelClicked) es →
  let p' := handles es p in
  busy p' = true ∧ history p' = history p ∧ error p' = error p.
Proof.
  intros Hb Hes. cbv zeta. revert p Hb. induction es as [|e es IH]; intros p Hb; [done|].
  apply Forall_cons in Hes as [[Hs Hc] Hes].
  change (handles (e :: es) p) with (handles es (handle e p)).
  assert (busy (handle e p) = true ∧ history (handle e p) = history p ∧ error (handle e p) = error p) as (Hb' & Hh & He).
  { destruct e; try done; cbn [handle].
    - unfold resolveDebounced. by destruct (bool_decide _).
    - unfold send. by rewrite Hb, orb_true_r.
    - unfold source_loaded. destruct (pending_sends p !! i) as [[tx h [|id todo] so v av]|]; try done.
      unfold dispatch. by destruct todo.
    - by destruct result. }
  destruct (IH Hes (handle e p) Hb') as (H1 & H2 & H3). by rewrite H2, H3.
Qed.

Lemma unserved_turn_hangs_witness :
  busy (handles [ChatSettled chat_answer; InputChanged #"noch da?"; Sent] (send (setInput #"Hi" (initial_panel None)))) = true.
Proof.
  destruct (unserved_turn_hangs [ChatSettled chat_answer; InputChanged #"noch da?"; Sent]
    (send (setInput #"Hi" (initial_panel None)))) as (H & _).
  - vm_compute. reflexivity.
  - by repeat constructor.
  - exact H.
Defined.

(** The same but for the removed pills. *)
Definition with_cleared (cs : list str) (vc : bool) (p : Panel) : Panel :=
  set_intent (resolvedDomainIds p) (resolvedViewId p) cs vc p.

Definition same_but_pills (p q : Panel) : Prop := ∃ cs vc, q = with_cleared cs vc p.

Lemma handle_pills e p q : same_but_pills p q → same_but_pills (handle e p) (handle e q).
Proof.
  intros (cs & vc & ->). destruct e; cbn [handle].
  - by exists cs, vc.
  - unfold resolveDebounced. cbn [with_cleared set_intent input]. destruct (bool_decide _); by exists [], false.
  - by exists cs, vc.
  - by exists (cs ++ [id]), vc.
  - by exists cs, true.
  - unfold send. cbn [with_cleared set_intent input busy]. destruct (_ || _); [by exists cs, vc|].
    exists cs, vc. unfold dispatch. cbn. by destruct (resolvedDomainIds p).
  - unfold source_loaded. cbn [with_cleared set_intent pending_sends].
    destruct (pending_sends p !! i) as [[tx h [|id todo] so v av]|]; try (by exists cs, vc).
    exists cs, vc. unfold dispatch. cbn. by destruct todo.
  - destruct result; by exists cs, vc.
  - by exists cs, vc.
  - unfold chat_done. destruct ok; by exists cs, vc.
  - by exists cs, vc.
Qed.

(** The X on a pill changes nothing but the pill: whatever domains and
    views the user removes, the requests of every later run are the same as if
    none had been removed. *)
Theorem removed_pills_are_sent es p ids :
  chat_requests (handles es (clearView (foldr clearDomain p ids))) = chat_requests (handles es p).
Proof.
  assert (∀ es p q, same_but_pills p q → chat_requests (handles es q) = chat_requests (handles es p)) as Hes.
  { clear. intros es. induction es as [|e es' IH]; intros p q Hpq; [by destruct Hpq as (cs & vc & ->)|].
    change (handles (e :: es') ?x) with (handles es' (handle e x)). by apply IH, handle_pills. }
  apply Hes. assert (same_but_pills p (foldr clearDomain p ids)) as (cs & vc & ->).
  { induction ids as [|id ids IH]; [exists (clearedDomains p), (viewCleared p); by destruct p|].
    cbn [foldr]. destruct IH as (cs & vc & ->). by exists (cs ++ [id]), vc. }
  by exists cs, true.
Qed.

(** Stop does not stop a send that still loads its sources, and the tokens of
    a stopped answer go into the next one. *)
Example stop_does_not_stop :
  let p := intent_resolved [ #"person" ] None (setInput #"Hi" (initial_panel None)) in
  length (chat_requests (handles [Sent; CancelClicked; SourceLoaded 0 None] p)) = 1 ∧
  history (handles [Sent; SourceLoaded 0 None; TokenArrived #"al"; CancelClicked; InputChanged #"Neu"; Sent;
                    SourceLoaded 0 None; TokenArrived #"t"; TokenArrived #"neu"; DoneArrived true None] p) =
    [MkPanelMessage UserRole #"Hi"; MkPanelMessage AssistantRole (#"al" ++ cancelled_note);
     MkPanelMessage UserRole #"Neu"; MkPanelMessage AssistantRole #"tneu"].
Proof. vm_compute. by split. Qed.
