(* ===== verification/Auth.v ===== *)
(** The claims of a session: [apps/oos/src/mainview/store/auth.ts], with the
    base64 of its token, and what the seam ([rpc.ts]) answers about identity,
    settings and permissions. *)

From S2P Require Export Stores.

#[local] Set Warnings "-register-all".

(** * The browser's [atob]

    The forgiving base64 of the web platform: white space is dropped, padding
    is optional, left-over bits are discarded; a byte becomes one code unit. *)

Definition base64_value (c : N) : option N :=
  if is_upper c then Some (c - 65)%N
  else if is_lower c then Some (c - 71)%N
  else if is_digit c then Some (c + 4)%N
  else if (c =? 43)%N then Some 62%N
  else if (c =? 47)%N then Some 63%N
  else None.

Definition ascii_white (c : N) : bool := bool_decide (c ∈ [9; 10; 12; 13; 32]%N).

Fixpoint sextet_bytes (l : list N) : option str :=
  match l with
  | [] => Some []
  | [_] => None
  | [a; b] => Some [ (a * 4 + b / 16)%N ]
  | [a; b; c] => Some [ (a * 4 + b / 16)%N; (b mod 16 * 16 + c / 4)%N ]
  | a :: b :: c :: d :: l =>
    match sextet_bytes l with
    | Some s => Some ((a * 4 + b / 16)%N :: (b mod 16 * 16 + c / 4)%N :: (c mod 4 * 64 + d)%N :: s)
    | None => None
    end
  end.

(** One or two trailing [=] of a text whose length is a multiple of four. *)
Definition strip_padding (s : str) : str :=
  if bool_decide (length s mod 4 = 0)
  then if ends_with #"==" s then slice_end 2 s else if ends_with #"=" s then slice_end 1 s else s
  else s.

Definition atob (s : str) : option str :=
  match mapM base64_value (strip_padding (filter (λ c, ascii_white c = false) s)) with
  | Some l => sextet_bytes l
  | None => None
  end.

(** * [setClaims] *)

Record AuthClaims := MkClaims { cl_username : str; cl_role : str; cl_email : str }.

(** [PRIORITY[part] ?? 0]; an inherited property compares as not a number. *)
Definition PRIORITY (part : str) : nat :=
  if decide (part = #"admin") then 3
  else if decide (part = #"manager") then 2
  else if decide (part = #"user") then 1
  else 0.

Definition better_role (best : str * nat) (part : str) : str * nat :=
  if best.2 <? PRIORITY part then (part, PRIORITY part) else best.

Definition role_of_groups (groups : list str) : str :=
  (foldl (λ best g, foldl better_role best (split_on 45%N g)) ([], 0) groups).1.

Definition string_groups (v : jsval) : list str :=
  match v with VArr l => omap as_string l | _ => [] end.

Definition username_of (preferred email : str) : str :=
  match preferred with
  | [] => if includes #"@" email then default [] (head (split_on 64%N email)) else email
  | _ => preferred
  end.

Definition payload_claims (payload : jsval) : outcome AuthClaims :=
  e ← get_prop #"email" payload;
  p ← get_prop #"preferred_username" payload;
  g ← get_prop #"groups" payload;
  let email := string_or e [] in
  Ok (MkClaims (username_of (string_or p []) email) (role_of_groups (string_groups g)) email).

(** [.replace(/-/g, "+").replace(/_/g, "/")] *)
Definition standard_alphabet (c : N) : N :=
  if (c =? 45)%N then 43%N else if (c =? 95)%N then 47%N else c.

(** What the module variable holds after [setClaims(accessToken)]. *)
Definition setClaims (accessToken : str) : option AuthClaims :=
  match split_on 46%N accessToken with
  | [_; part; _] =>
    match atob (standard_alphabet <$> part) with
    | Some text =>
      match json_parse text with
      | Some payload => match payload_claims payload with Ok c => Some c | Throw _ => None end
      | None => None
      end
    | None => None
    end
  | _ => None
  end.

(** * Tokens

    How an identity provider writes the middle part of a token: UTF-8 text in
    unpadded base64url. *)

Definition utf8_unit (c : N) : list N :=
  (if c <? 128 then [c]
   else if c <? 2048 then [192 + c / 64; 128 + c mod 64]
   else [224 + c / 4096; 128 + c / 64 mod 64; 128 + c mod 64])%N.

Fixpoint utf8 (s : str) : list N :=
  match s with
  | [] => []
  | h :: ((l :: s') as r) =>
    if is_high h && is_low l
    then let c := (65536 + (h - 55296) * 1024 + (l - 56320))%N in
         [240 + c / 262144; 128 + c / 4096 mod 64; 128 + c / 64 mod 64; 128 + c mod 64]%N ++ utf8 s'
    else utf8_unit h ++ utf8 r
  | [c] => utf8_unit c
  end.

Fixpoint sextets (bytes : list N) : list N :=
  match bytes with
  | [] => []
  | [a] => [a / 4; a mod 4 * 16]%N
  | [a; b] => [a / 4; a mod 4 * 16 + b / 16; b mod 16 * 4]%N
  | a :: b :: c :: l => [a / 4; a mod 4 * 16 + b / 16; b mod 16 * 4 + c / 64; c mod 64]%N ++ sextets l
  end.

Definition base64url_char (v : N) : N :=
  (if v <? 26 then v + 65 else if v <? 52 then v + 71 else if v <? 62 then v - 4
   else if v =? 62 then 45 else 95)%N.

Definition base64url (bytes : list N) : str := base64url_char <$> sextets bytes.

Definition token_of (header payload signature : str) : str :=
  header ++ #"." ++ base64url (utf8 payload) ++ #"." ++ signature.

Definition sample_claims : jsval :=
  VObj [ (#"email", VStr #"eva@demo.org"); (#"groups", VArr [VStr #"oos-user"; VNum (num_of_Z 1); VStr #"demo-manager"]) ].

Example claims_1 :
  setClaims (token_of #"h" (json_text sample_claims) #"s") = Some (MkClaims #"eva" #"manager" #"eva@demo.org").
Proof. vm_compute. reflexivity. Qed.

(** The text of the payload is UTF-8, and the bytes are taken for its units. *)
Example claims_2 :
  setClaims (token_of #"h" (json_text (VObj [ (#"preferred_username", VStr #"Jörg") ])) #"s") =
    Some (MkClaims [74; 195; 182; 114; 103]%N [] []).
Proof. vm_compute. reflexivity. Qed.

(** * Tokens read back *)

Definition sextet (v : N) : Prop := (v < 64)%N.
Definition byte (v : N) : Prop := (v < 256)%N.

Ltac div_lia := unfold sextet, byte in *; zify; Z.to_euclidean_division_equations; lia.

Lemma triples_ind (P : list N → Prop) :
  P [] → (∀ a, P [a]) → (∀ a b, P [a; b]) → (∀ a b c l, P l → P (a :: b :: c :: l)) → ∀ l, P l.
Proof.
  intros H0 H1 H2 H3. fix IH 1. intros [|a [|b [|c l]]]; [exact H0|apply H1|apply H2|apply H3, IH].
Qed.

Lemma sextets_small l : Forall byte l → Forall sextet (sextets l).
Proof.
  induction l as [|a|a b|a b c l IH] using triples_ind; intros Hl; cbn [sextets app].
  - done.
  - apply Forall_cons in Hl as [Ha _]. repeat constructor; div_lia.
  - apply Forall_cons in Hl as [Ha [Hb _]%Forall_cons]. repeat constructor; div_lia.
  - apply Forall_cons in Hl as [Ha [Hb [Hc Hl]%Forall_cons]%Forall_cons].
    repeat apply Forall_cons_2; [div_lia..|by apply IH].
Qed.

Lemma sextets_read l : Forall byte l → sextet_bytes (sextets l) = Some l.
Proof.
  induction l as [|a|a b|a b c l IH] using triples_ind; intros Hl; cbn [sextets sextet_bytes app].
  - done.
  - apply Forall_cons in Hl as [Ha _]. repeat f_equal; div_lia.
  - apply Forall_cons in Hl as [Ha [Hb _]%Forall_cons]. repeat f_equal; div_lia.
  - apply Forall_cons in Hl as [Ha [Hb [Hc Hl]%Forall_cons]%Forall_cons]. rewrite IH by done.
    repeat f_equal; div_lia.
Qed.

(** The 64 characters of the alphabet. *)
Lemma url_chars :
  Forall (λ v, base64_value (standard_alphabet (base64url_char v)) = Some v ∧
               ascii_white (standard_alphabet (base64url_char v)) = false ∧
               standard_alphabet (base64url_char v) ≠ 61%N ∧ base64url_char v ≠ 46%N) (N.of_nat <$> seq 0 64).
Proof. apply (bool_decide_unpack _). vm_compute. exact I. Qed.

Lemma url_char v :
  sextet v →
  base64_value (standard_alphabet (base64url_char v)) = Some v ∧
  ascii_white (standard_alphabet (base64url_char v)) = false ∧
  standard_alphabet (base64url_char v) ≠ 61%N ∧ base64url_char v ≠ 46%N.
Proof.
  intros Hv. apply (proj1 (Forall_forall _ _) url_chars). apply list_elem_of_fmap. exists (N.to_nat v). split; [lia|]. apply elem_of_seq. unfold sextet in Hv. lia.
Qed.

Lemma strip_no_padding s : 61%N ∉ s → strip_padding s = s.
Proof.
  intros Hs. unfold strip_padding.
  assert (∀ p, 61%N ∈ p → ends_with p s = false) as Hp.
  { intros p Hin. destruct (ends_with p s) eqn:E; [|done]. apply ends_with_spec in E as [k ->].
    exfalso. apply Hs, elem_of_app. by right. }
  rewrite !Hp by (apply (bool_decide_unpack _); vm_compute; exact I). by destruct (bool_decide _).
Qed.

Lemma atob_base64url l : Forall byte l → atob (standard_alphabet <$> base64url l) = Some l.
Proof.
  intros Hl. pose proof (sextets_small l Hl) as Hs. unfold atob, base64url. rewrite <- list_fmap_compose.
  set (f := standard_alphabet ∘ base64url_char).
  assert (filter (λ c, ascii_white c = false) (f <$> sextets l) = f <$> sextets l) as ->.
  { apply filter_all, Forall_fmap. eapply Forall_impl; [exact Hs|]. intros v Hv. by apply url_char. }
  rewrite strip_no_padding.
  - assert (mapM base64_value (f <$> sextets l) = Some (sextets l)) as ->.
    { apply mapM_Some, Forall2_fmap_l, Forall_Forall2_diag. eapply Forall_impl; [exact Hs|].
      intros v Hv. by apply url_char. }
    by apply sextets_read.
  - intros (v & Hv & Hin)%list_elem_of_fmap. rewrite Forall_forall in Hs.
    destruct (url_char v (Hs v Hin)) as (_ & _ & H & _). by apply H.
Qed.

Lemma base64url_no_dot l : Forall byte l → 46%N ∉ base64url l.
Proof.
  intros Hl (v & Hv & Hin)%list_elem_of_fmap. pose proof (sextets_small l Hl) as Hs. rewrite Forall_forall in Hs.
  destruct (url_char v (Hs v Hin)) as (_ & _ & _ & H). by apply H.
Qed.

Definition ascii (s : str) : Prop := Forall (λ c, (c < 128)%N) s.
Definition wide (s : str) : Prop := Forall (λ c, (c < 65536)%N) s.

Lemma utf8_unit_ascii c : (c < 128)%N → utf8_unit c = [c].
Proof. intros Hc. unfold utf8_unit. by rewrite (proj2 (N.ltb_lt c 128) Hc). Qed.

Lemma utf8_pair h l s :
  utf8 (h :: l :: s) =
    if is_high h && is_low l
    then let c := (65536 + (h - 55296) * 1024 + (l - 56320))%N in
         [240 + c / 262144; 128 + c / 4096 mod 64; 128 + c / 64 mod 64; 128 + c mod 64]%N ++ utf8 s
    else utf8_unit h ++ utf8 (l :: s).
Proof. reflexivity. Qed.

Lemma utf8_ascii s : ascii s → utf8 s = s.
Proof.
  induction 1 as [|c s Hc Hs IH]; [done|]. destruct s as [|l s].
  - by apply utf8_unit_ascii.
  - rewrite utf8_pair. assert (is_high c = false) as ->. { unfold is_high. rewrite andb_false_iff, !N.leb_gt. lia. }
    cbn [andb]. rewrite utf8_unit_ascii by done. by rewrite IH.
Qed.

Lemma utf8_unit_bytes c : (c < 65536)%N → Forall byte (utf8_unit c).
Proof.
  intros Hc. unfold utf8_unit. destruct (N.ltb_spec c 128); [|destruct (N.ltb_spec c 2048)];
    repeat apply Forall_cons_2; try apply Forall_nil_2; div_lia.
Qed.

Lemma utf8_bytes s : wide s → Forall byte (utf8 s).
Proof.
  remember (length s) as n eqn:Hn. revert s Hn. induction (lt_wf n) as [n _ IH]. intros s -> Hs.
  destruct s as [|h [|l s]]; [done| |].
  - cbn [utf8]. apply Forall_cons in Hs as [Hh _]. by apply utf8_unit_bytes.
  - apply Forall_cons in Hs as [Hh Hs]. rewrite utf8_pair. destruct (is_high h && is_low l) eqn:E.
    + apply Forall_app_2; [|apply (IH (length s)); [cbn [length]; lia|done|by apply Forall_cons in Hs as [_ Hs]]].
      unfold is_high, is_low in E. rewrite !andb_true_iff, !N.leb_le in E.
      repeat apply Forall_cons_2; try apply Forall_nil_2; div_lia.
    + apply Forall_app_2; [by apply utf8_unit_bytes|].
      apply (IH (length (l :: s))); [cbn [length]; lia|done|done].
Qed.

(** A token carries the bytes of its payload. *)
Lemma setClaims_token header text signature :
  46%N ∉ header → 46%N ∉ signature → wide text →
  setClaims (token_of header text signature) =
    match json_parse (utf8 text) with
    | Some v => match payload_claims v with Ok c => Some c | Throw _ => None end
    | None => None
    end.
Proof.
  intros Hh Hs Hw. apply utf8_bytes in Hw. unfold setClaims, token_of.
  change (header ++ #"." ++ ?p ++ #"." ++ signature) with (header ++ 46%N :: (p ++ 46%N :: signature)).
  rewrite !split_on_app_sep by (done || by apply base64url_no_dot).
  rewrite (split_on_none _ header), (split_on_none _ (base64url _)), (split_on_none _ signature)
    by (done || by apply base64url_no_dot).
  cbn [app]. cbv iota. by rewrite atob_base64url.
Qed.

(** ** The strongest role *)

Definition named_in (groups : list str) (part : str) : Prop := ∃ g, g ∈ groups ∧ part ∈ split_on 45%N g.

Lemma foldl_better parts r :
  let best := foldl better_role (r, PRIORITY r) parts in
  best.2 = PRIORITY best.1 ∧ (best.1 = r ∨ best.1 ∈ parts ∧ 0 < best.2) ∧
  PRIORITY r ≤ best.2 ∧ ∀ p, p ∈ parts → PRIORITY p ≤ best.2.
Proof.
  cbv zeta. revert r. induction parts as [|q parts IH]; intros r; cbn [foldl fst snd].
  - split_and!; [done|by left|done|by intros p ?%elem_of_nil].
  - change (better_role (r, PRIORITY r) q) with (if PRIORITY r <? PRIORITY q then (q, PRIORITY q) else (r, PRIORITY r)).
    destruct (Nat.ltb_spec (PRIORITY r) (PRIORITY q)) as [Hlt|Hge].
    + destruct (IH q) as (H1 & H2 & H3 & H4). split_and!; [done| |lia|].
      * right. destruct H2 as [->|[Hin Hp]]; [|by split; [apply elem_of_cons; right|]].
        split; [by apply elem_of_cons; left|lia].
      * intros p [->|Hp]%elem_of_cons; [done|by apply H4].
    + destruct (IH r) as (H1 & H2 & H3 & H4). split_and!; [done| |done|].
      * destruct H2 as [->|[Hin Hp]]; [by left|right]. split; [by apply elem_of_cons; right|done].
      * intros p [->|Hp]%elem_of_cons; [lia|by apply H4].
Qed.

Lemma foldl_flatten {A B C} (f : A → B → A) (parts : C → list B) (a : A) l :
  foldl (λ a g, foldl f a (parts g)) a l = foldl f a (flat_map parts l).
Proof. revert a. induction l as [|g l IH]; intros a; [done|]. cbn [foldl flat_map]. by rewrite foldl_app. Qed.

Lemma role_strongest groups :
  let role := role_of_groups groups in
  (role = [] ∨ named_in groups role ∧ 0 < PRIORITY role) ∧
  ∀ part, named_in groups part → PRIORITY part ≤ PRIORITY role.
Proof.
  cbv zeta. unfold role_of_groups. rewrite (foldl_flatten better_role (split_on 45%N)).
  change (foldl better_role ([], 0)) with (foldl better_role ([], PRIORITY [])).
  destruct (foldl_better (flat_map (split_on 45%N) groups) []) as (H1 & H2 & _ & H4).
  set (best := foldl better_role _ _) in *. rewrite <- H1.
  assert (∀ p, p ∈ flat_map (split_on 45%N) groups ↔ named_in groups p) as Hin.
  { intros p. rewrite list_elem_of_In, in_flat_map. unfold named_in. by setoid_rewrite list_elem_of_In. }
  split.
  - destruct H2 as [H2|[H2 Hp]]; [by left|right]. split; [by apply Hin|done].
  - intros p Hp. by apply H4, Hin.
Qed.

Lemma username_local local domain : 64%N ∉ local → username_of [] (local ++ 64%N :: domain) = local.
Proof.
  intros Hl. cbn [username_of].
  assert (includes #"@" (local ++ 64%N :: domain) = true) as ->.
  { apply bool_decide_eq_true_2. change (#"@") with [64%N]. induction local as [|c local IH]; cbn [app index_of].
    - by eexists.
    - apply not_elem_of_cons in Hl as [Hc Hl]. destruct (starts_with _ _); [by eexists|].
      destruct (IH Hl) as [i ->]. by eexists. }
  rewrite split_on_app_sep, split_on_none by done. done.
Qed.

(** C22: The claims of a token.  A token whose payload is an object of ASCII
    text is read back: the e-mail is the payload's, the user name is the
    preferred one or else the part of the e-mail in front of the first @, and
    the role is the strongest of admin, manager and user that a group names
    between its dashes, or none if no group names one.  In general what is read
    back are the claims of the text whose code units are the bytes of the
    payload, so a name with an umlaut is not. *)
Theorem claims_read_back header signature o text :
  46%N ∉ header → 46%N ∉ signature → wide text →
  setClaims (token_of header text signature) =
    match json_parse (utf8 text) with
    | Some v => match payload_claims v with Ok c => Some c | Throw _ => None end
    | None => None
    end ∧
  (text = json_text (VObj o) → ascii text → json_plain (VObj o) = true →
   ∃ c, setClaims (token_of header text signature) = Some c ∧
     cl_email c = string_or (obj_get #"email" o) [] ∧
     (∀ name, obj_get #"preferred_username" o = VStr name → name ≠ [] → cl_username c = name) ∧
     (∀ local domain, string_or (obj_get #"preferred_username" o) [] = [] → cl_email c = local ++ 64%N :: domain →
        64%N ∉ local → cl_username c = local) ∧
     let groups := string_groups (obj_get #"groups" o) in
     (cl_role c = [] ∨ named_in groups (cl_role c) ∧ 0 < PRIORITY (cl_role c)) ∧
     (∀ part, named_in groups part → PRIORITY part ≤ PRIORITY (cl_role c))).
Proof.
  intros Hh Hs Hw. split; [by apply setClaims_token|]. intros -> Ha Hp. eexists. split_and!.
  - rewrite setClaims_token, utf8_ascii, json_plain_parse by done. reflexivity.
  - done.
  - intros name Hn Hne. cbn [cl_username]. rewrite Hn. by destruct name.
  - intros local domain Hn He Hl. cbn [cl_username cl_email] in *. rewrite Hn, He. by apply username_local.
  - apply role_strongest.
Qed.

Lemma claims_read_back_witness :
  ∃ c, setClaims (token_of #"e30" (json_text sample_claims) #"sig") = Some c ∧ cl_username c = #"eva".
Proof.
  assert (ascii (json_text sample_claims)) as Ha by (apply (bool_decide_unpack _); vm_compute; exact I).
  destruct (claims_read_back #"e30" #"sig"
    [ (#"email", VStr #"eva@demo.org"); (#"groups", VArr [VStr #"oos-user"; VNum (num_of_Z 1); VStr #"demo-manager"]) ]
    (json_text sample_claims)) as [_ H].
  - apply (bool_decide_unpack _); vm_compute; exact I.
  - apply (bool_decide_unpack _); vm_compute; exact I.
  - apply (bool_decide_unpack _); vm_compute; exact I.
  - destruct (H eq_refl Ha eq_refl) as (c & Hc & He & _ & Hu & _). exists c. split; [exact Hc|].
    apply (Hu #"eva" #"demo.org"); [reflexivity|rewrite He; reflexivity|apply (bool_decide_unpack _); vm_compute; exact I].
Defined.
