(* ===== verification/Session.v ===== *)
(** Signing in and out of the application: the identity part of the seam
    [apps/oos/src/mainview/rpc.ts], the login screen
    [components/LoginScreen.tsx] and the gate [App] of [App.tsx].

    Calls that wait for the host are part of the state; what they settle to
    are events.  A login screen that is gone may still have calls under way,
    so calls carry the number of the screen that made them. *)

From S2P Require Export Auth.

#[local] Set Warnings "-register-all".

(** * The seam *)

(** What the host reports on a stored token. *)
Record AuthStatusNative := MkAuthStatus {
  authenticated : bool; st_token : str; st_email : str; st_username : str; st_role : str; st_groups : list str }.

Definition AppSettings := list (str * str).

Definition DEFAULT_APP_SETTINGS : AppSettings :=
  [ (#"llmBaseUrl", #"http://localhost:11434"); (#"llmApiKey", []); (#"llmModel", []);
    (#"natsUrl", #"nats://localhost:4222"); (#"authIssuerUrl", []); (#"authClientId", #"oos-desktop");
    (#"authRedirectUri", #"http://localhost:5557/callback"); (#"s3AccessKey", []); (#"s3SecretKey", []) ].

Definition setting (k : str) (s : AppSettings) : str := default [] (assoc_get k s).

(** [store]: the saved record, if the plugin store can be read. *)
Definition readSettings (store : outcome (option AppSettings)) : AppSettings :=
  match store with
  | Ok saved => foldl (λ o p, obj_set p.1 p.2 o) DEFAULT_APP_SETTINGS (default [] saved)
  | Throw _ => DEFAULT_APP_SETTINGS
  end.

Record IamConfig := MkIam { iam_issuer : jsval; iam_clientId : jsval; iam_redirectUri : jsval }.

Definition or_default (v : jsval) (d : str) : jsval := if truthy v then v else VStr d.

(** An entry of the bucket: its operation, and its value decoded. *)
Record KvEntry := MkKvEntry { kv_operation : str; kv_decoded : outcome jsval }.

Definition resolveIamConfig (s : AppSettings) (user : outcome (option KvEntry)) : option IamConfig :=
  match setting #"authIssuerUrl" s with
  | _ :: _ =>
    Some (MkIam (VStr (setting #"authIssuerUrl" s)) (or_default (VStr (setting #"authClientId" s)) #"oos-desktop")
            (or_default (VStr (setting #"authRedirectUri" s)) #"http://localhost:5557/callback"))
  | [] =>
    match user with
    | Ok (Some e) =>
      if bool_decide (kv_operation e = #"DEL" ∨ kv_operation e = #"PURGE") then None
      else
        match (cfg ← kv_decoded e; u ← get_prop #"issuerUrl" cfg; c ← get_prop #"clientId" cfg;
               r ← get_prop #"redirectUri" cfg; Ok (u, c, r)) with
        | Ok (u, c, r) =>
          if truthy u
          then Some (MkIam u (or_default c #"oos-desktop") (or_default r #"http://localhost:5557/callback"))
          else None
        | Throw _ => None
        end
    | _ => None
    end
  end.

Record InitialState := MkInitial {
  in_settings : AppSettings; iamConfigured : bool; hasToken : bool; accessToken : option str; in_nodeId : str }.

Definition getInitialState (store : outcome (option AppSettings)) (node : outcome str)
    (user : outcome (option KvEntry)) (status : outcome AuthStatusNative) : InitialState :=
  let settings := readSettings store in
  let '(hasToken, token) :=
    match status with
    | Ok st => (authenticated st, if authenticated st then Some (st_token st) else None)
    | Throw _ => (false, None)
    end in
  MkInitial settings (bool_decide (is_Some (resolveIamConfig settings user))) hasToken token
    (match node with Ok id => id | Throw _ => [] end).

(** [getAuthStatus]: its answer, and the claims it leaves. *)
Definition getAuthStatus (store : outcome (option AppSettings)) (user : outcome (option KvEntry))
    (status : outcome AuthStatusNative) (claims : option AuthClaims) : (bool * bool) * option AuthClaims :=
  let configured := bool_decide (is_Some (resolveIamConfig (readSettings store) user)) in
  match status with
  | Ok st => ((configured, authenticated st), if authenticated st then setClaims (st_token st) else None)
  | Throw _ => ((configured, false), claims)
  end.

(** [A]: what the bus answers as permissions. *)
Record Permissions (A : Type) := MkPermissions {
  pe_role : str; pe_username : str; pe_permissions : list A; pe_groups : list str; pe_error : option str }.
#[global] Arguments MkPermissions {A} _ _ _ _ _.
#[global] Arguments pe_permissions {A} _.
#[global] Arguments pe_role {A} _.

Definition getMyPermissions {A} (status : outcome AuthStatusNative) (ask : str → outcome (option (list A))) :
    Permissions A :=
  let '(role, username, groups) :=
    match status with
    | Ok st => if authenticated st then (st_role st, st_username st, st_groups st) else ([], [], [])
    | Throw _ => ([], [], [])
    end in
  match role with
  | [] => MkPermissions role username [] groups None
  | _ =>
    match ask role with
    | Ok permissions => MkPermissions role username (default [] permissions) groups None
    | Throw e => MkPermissions role username [] groups (Some e)
    end
  end.

(** * The gate *)

Inductive Phase := Checking | Setup | Ready | LoggingIn | DonePhase.

Record Screen := MkScreen {
  sc_mount : nat; phase : Phase; sc_settings : option AppSettings; sc_error : str;
  issuerUrl : str; clientId : str; redirectUri : str }.

Record Session := MkSession {
  loggedIn : bool;
  screen : option Screen;               (** the mounted login screen *)
  mounts : nat;                         (** login screens so far *)
  claims : option AuthClaims;
  nodeId : str;
  stored : list AppSettings;            (** settings handed to the plugin store *)
  initial_calls : list nat; saves : list nat; logins : list nat;  (** by the screen that called *)
  logouts : nat }.

Definition with_screen (f : Screen → Screen) (m : nat) (s : Session) : Session :=
  MkSession (loggedIn s)
    (match screen s with Some sc => Some (if decide (sc_mount sc = m) then f sc else sc) | None => None end)
    (mounts s) (claims s) (nodeId s) (stored s) (initial_calls s) (saves s) (logins s) (logouts s).

Definition setPhase (p : Phase) (sc : Screen) : Screen :=
  MkScreen (sc_mount sc) p (sc_settings sc) (sc_error sc) (issuerUrl sc) (clientId sc) (redirectUri sc).
Definition setError (e : str) (sc : Screen) : Screen :=
  MkScreen (sc_mount sc) (phase sc) (sc_settings sc) e (issuerUrl sc) (clientId sc) (redirectUri sc).
Definition setSettings (v : AppSettings) (sc : Screen) : Screen :=
  MkScreen (sc_mount sc) (phase sc) (Some v) (sc_error sc) (issuerUrl sc) (clientId sc) (redirectUri sc).
Definition setIam (i c r : str) (sc : Screen) : Screen :=
  MkScreen (sc_mount sc) (phase sc) (sc_settings sc) (sc_error sc) i c r.

Definition set_claims (c : option AuthClaims) (s : Session) : Session :=
  MkSession (loggedIn s) (screen s) (mounts s) c (nodeId s) (stored s) (initial_calls s) (saves s) (logins s) (logouts s).
Definition set_calls (ic sv lg : list nat) (lo : nat) (s : Session) : Session :=
  MkSession (loggedIn s) (screen s) (mounts s) (claims s) (nodeId s) (stored s) ic sv lg lo.

(** [handleDone]: the login screen goes. *)
Definition handleDone (s : Session) : Session :=
  MkSession true None (mounts s) (claims s) (nodeId s) (stored s) (initial_calls s) (saves s) (logins s) (logouts s).

(** A login screen mounts and asks for the initial state. *)
Definition fresh_screen (m : nat) : Screen :=
  MkScreen m Checking None [] #"http://localhost:5556" #"oos-desktop" #"http://localhost:5557/callback".
Definition mount_screen (s : Session) : Session :=
  MkSession false (Some (fresh_screen (mounts s))) (S (mounts s)) (claims s) (nodeId s) (stored s)
    (initial_calls s ++ [mounts s]) (saves s) (logins s) (logouts s).

(** [handleLogout] of [App]; a screen that is mounted stays. *)
Definition handleLogout (s : Session) : Session :=
  let s := set_claims None s in if loggedIn s then mount_screen s else s.

Definition initial_session : Session := mount_screen (MkSession false None 0 None [] [] [] [] [] 0).

(** What [rpc.startLogin] settles to: no identity provider, or the host's answer. *)
Inductive LoginResult := NotConfigured | Native (result : outcome AuthStatusNative).

Inductive SessionEvent :=
| InitialAnswered (i : nat) (st : InitialState)
| FieldsEdited (issuer client redirect : str)
| SaveClicked
| SaveSettled (i : nat)
| EditIamClicked
| LoginClicked
| LoginCancelled
| LoginSettled (i : nat) (result : LoginResult)
| LogoutClicked
| LogoutSettled (result : outcome unit).

Definition initial_answered (m : nat) (st : InitialState) (s : Session) : Session :=
  let s := with_screen (setSettings (in_settings st)) m s in
  let s := match in_nodeId st with
           | [] => s
           | id => MkSession (loggedIn s) (screen s) (mounts s) (claims s) id (stored s) (initial_calls s) (saves s)
                     (logins s) (logouts s)
           end in
  if hasToken st then
    handleDone (match accessToken st with Some (c :: t) => set_claims (setClaims (c :: t)) s | _ => s end)
  else if iamConfigured st then
    with_screen (λ sc, setPhase Ready
      (setIam (setting #"authIssuerUrl" (in_settings st)) (setting #"authClientId" (in_settings st))
         (setting #"authRedirectUri" (in_settings st)) sc)) m s
  else with_screen (setPhase Setup) m s.

(** [handleSaveIAM]: whether the store takes the settings is not looked at. *)
Definition handleSaveIAM (sc : Screen) (s : Session) : Session :=
  match sc_settings sc with
  | None => s
  | Some settings =>
    let next := obj_set #"authRedirectUri" (redirectUri sc)
                  (obj_set #"authClientId" (clientId sc) (obj_set #"authIssuerUrl" (issuerUrl sc) settings)) in
    MkSession (loggedIn s) (screen s) (mounts s) (claims s) (nodeId s) (stored s ++ [next]) (initial_calls s)
      (saves s ++ [sc_mount sc]) (logins s) (logouts s)
  end.

Definition login_failed (e : str) (m : nat) (s : Session) : Session :=
  with_screen (λ sc, setPhase Ready (setError e sc)) m s.

(** [rpc.startLogin] and what [handleLogin] does with its answer. *)
Definition login_settled (m : nat) (r : LoginResult) (s : Session) : Session :=
  match r with
  | NotConfigured => login_failed #"IAM not configured" m s
  | Native (Ok st) =>
    if authenticated st then handleDone (set_claims (setClaims (st_token st)) s)
    else login_failed #"login did not complete" m s
  | Native (Throw e) => login_failed e m s
  end.

(** One event, if the button is there or the call is under way. *)
Definition handle (e : SessionEvent) (s : Session) : option Session :=
  match e with
  | InitialAnswered i st =>
    match initial_calls s !! i with
    | Some m => Some (initial_answered m st (set_calls (delete i (initial_calls s)) (saves s) (logins s) (logouts s) s))
    | None => None
    end
  | FieldsEdited i c r =>
    match screen s with
    | Some sc => match phase sc with Setup => Some (with_screen (setIam i c r) (sc_mount sc) s) | _ => None end
    | None => None
    end
  | SaveClicked =>
    match screen s with
    | Some sc => match phase sc, issuerUrl sc with Setup, _ :: _ => Some (handleSaveIAM sc s) | _, _ => None end
    | None => None
    end
  | SaveSettled i =>
    match saves s !! i with
    | Some m => Some (with_screen (setPhase Ready) m (set_calls (initial_calls s) (delete i (saves s)) (logins s) (logouts s) s))
    | None => None
    end
  | EditIamClicked =>
    match screen s with
    | Some sc => match phase sc with Ready => Some (with_screen (setPhase Setup) (sc_mount sc) s) | _ => None end
    | None => None
    end
  | LoginClicked =>
    match screen s with
    | Some sc =>
      match phase sc with
      | Ready => Some (with_screen (λ sc, setPhase LoggingIn (setError [] sc)) (sc_mount sc)
                         (set_calls (initial_calls s) (saves s) (logins s ++ [sc_mount sc]) (logouts s) s))
      | _ => None
      end
    | None => None
    end
  | LoginCancelled =>
    match screen s with
    | Some sc => match phase sc with LoggingIn => Some (with_screen (setPhase Ready) (sc_mount sc) s) | _ => None end
    | None => None
    end
  | LoginSettled i r =>
    match logins s !! i with
    | Some m => Some (login_settled m r (set_calls (initial_calls s) (saves s) (delete i (logins s)) (logouts s) s))
    | None => None
    end
  | LogoutClicked =>
    if loggedIn s then Some (set_calls (initial_calls s) (saves s) (logins s) (S (logouts s)) s) else None
  | LogoutSettled _ =>
    match logouts s with
    | S n => Some (handleLogout (set_calls (initial_calls s) (saves s) (logins s) n s))
    | O => None
    end
  end.

Fixpoint runs (es : list SessionEvent) (s : Session) : option Session :=
  match es with [] => Some s | e :: es => match handle e s with Some s' => runs es s' | None => None end end.

(** * What a session promises

    Signed in, and on whose token, is what the reports since the last sign-out
    say. *)

Record Abstract := MkAbstract { signed_in : bool; holder : option str }.

Definition observe (e : SessionEvent) (a : Abstract) : Abstract :=
  match e with
  | InitialAnswered _ st =>
    if hasToken st
    then MkAbstract true (match accessToken st with Some (c :: t) => Some (c :: t) | _ => holder a end)
    else a
  | LoginSettled _ (Native (Ok st)) => if authenticated st then MkAbstract true (Some (st_token st)) else a
  | LogoutSettled _ => MkAbstract false None
  | _ => a
  end.

Definition observed (es : list SessionEvent) : Abstract := foldl (λ a e, observe e a) (MkAbstract false None) es.

(** A waiting login screen has its call under way. *)
Definition waits_for_call (s : Session) : Prop :=
  ∀ sc, screen s = Some sc →
    match phase sc with
    | Checking => sc_mount sc ∈ initial_calls s
    | LoggingIn => sc_mount sc ∈ logins s
    | DonePhase => False
    | Setup | Ready => True
    end.

Definition session_ok (a : Abstract) (s : Session) : Prop :=
  loggedIn s = signed_in a ∧ claims s = holder a ≫= setClaims ∧
  (loggedIn s = true ↔ screen s = None) ∧ waits_for_call s ∧
  (∀ sc, screen s = Some sc → sc_mount sc < mounts s).

(** * The gate keeps its promise *)

(** A screen that takes no new phase, or one that waits for nothing, on one
    mount keeps the promise. *)
Lemma with_screen_ok a f m (s : Session) :
  session_ok a s →
  (∀ sc, sc_mount (f sc) = sc_mount sc ∧
         (phase (f sc) = phase sc ∨ phase (f sc) = Setup ∨ phase (f sc) = Ready)) →
  session_ok a (with_screen f m s).
Proof.
  intros (H1 & H2 & H3 & H4 & H5) Hf. split_and!; [done|done| | |].
  - cbn [with_screen loggedIn screen]. rewrite H3. by destruct (screen s).
  - intros sc' Hsc'. cbn [with_screen screen] in Hsc'. destruct (screen s) as [sc|] eqn:E; [|done].
    injection Hsc' as <-. specialize (H4 sc E). destruct (decide _); [|exact H4].
    cbn [with_screen initial_calls logins]. destruct (Hf sc) as [-> [->|[->| ->]]]; done.
  - intros sc' Hsc'. cbn [with_screen screen mounts] in *. destruct (screen s) as [sc|] eqn:E; [|done].
    injection Hsc' as <-. specialize (H5 sc eq_refl). destruct (decide _); [|done]. by rewrite (proj1 (Hf sc)).
Qed.

(** Settling a call of a screen leaves the others waiting for theirs. *)
Lemma settled_ok a (s s' : Session) m :
  session_ok a s →
  loggedIn s' = loggedIn s → claims s' = claims s → mounts s' = mounts s →
  (∀ x, x ≠ m → (x ∈ initial_calls s → x ∈ initial_calls s') ∧ (x ∈ logins s → x ∈ logins s')) →
  (match screen s with
   | Some sc => ∃ sc', screen s' = Some sc' ∧ sc_mount sc' = sc_mount sc ∧
                       (sc_mount sc = m → phase sc' = Setup ∨ phase sc' = Ready) ∧
                       (sc_mount sc ≠ m → phase sc' = phase sc)
   | None => screen s' = None
   end) →
  session_ok a s'.
Proof.
  intros (H1 & H2 & H3 & H4 & H5) Hl Hc Hm Hx Hs.
  split_and!; [by rewrite Hl|by rewrite Hc| | |].
  - rewrite Hl, H3. destruct (screen s); [by destruct Hs as (sc' & -> & _)|by rewrite Hs].
  - intros sc' Hsc'. destruct (screen s) as [sc|] eqn:E; [|congruence].
    destruct Hs as (sc'' & Hs & Hmt & Heq & Hne). rewrite Hs in Hsc'. injection Hsc' as <-.
    specialize (H4 sc E). destruct (decide (sc_mount sc = m)) as [He|He].
    + by destruct (Heq He) as [-> | ->].
    + rewrite (Hne He), Hmt. destruct (Hx _ He) as [Hi Hg]. destruct (phase sc); auto.
  - intros sc' Hsc'. destruct (screen s) as [sc|] eqn:E; [|congruence].
    destruct Hs as (sc'' & Hs & Hmt & _). rewrite Hs in Hsc'. injection Hsc' as <-. rewrite Hmt, Hm. by apply H5.
Qed.

Lemma done_ok b (s : Session) :
  signed_in b = true → claims s = holder b ≫= setClaims → session_ok b (handleDone s).
Proof. intros Hb Hc. split_and!; cbn; [done|done|done|by intros sc|by intros sc]. Qed.

Lemma logout_ok a (s : Session) : session_ok a s → session_ok (MkAbstract false None) (handleLogout s).
Proof.
  intros (H1 & H2 & H3 & H4 & H5). unfold handleLogout. cbn [set_claims loggedIn].
  destruct (loggedIn s) eqn:E.
  - split_and!; cbn; [done|done|done| |].
    + intros sc [= <-]. cbn. apply elem_of_app. right. by apply list_elem_of_singleton.
    + intros sc [= <-]. cbn. lia.
  - split_and!; cbn; [done|done| |exact H4|exact H5]. rewrite E. exact H3.
Qed.

Lemma login_failed_ok a e (s : Session) i m :
  session_ok a s → logins s !! i = Some m →
  session_ok a (login_failed e m (set_calls (initial_calls s) (saves s) (delete i (logins s)) (logouts s) s)).
Proof.
  intros Hok Hi. apply (settled_ok a s _ m); [done..| |].
  - intros x Hx. split; [done|]. intros Hin. cbn. by apply (elem_delete x m).
  - cbn. destruct (screen s) as [sc|]; [|done]. destruct (decide (sc_mount sc = m)) as [He|He].
    + eexists. split_and!; [done|done|by intros _; right|done].
    + by eexists.
Qed.

(** What the answer does when nobody is signed in. *)
Lemma initial_answered_out m st (s : Session) :
  hasToken st = false →
  let s' := initial_answered m st s in
  loggedIn s' = loggedIn s ∧ claims s' = claims s ∧ mounts s' = mounts s ∧
  initial_calls s' = initial_calls s ∧ logins s' = logins s ∧
  match screen s with
  | Some sc => ∃ sc', screen s' = Some sc' ∧ sc_mount sc' = sc_mount sc ∧
                      (sc_mount sc = m → phase sc' = Setup ∨ phase sc' = Ready) ∧
                      (sc_mount sc ≠ m → phase sc' = phase sc)
  | None => screen s' = None
  end.
Proof.
  intros Ht. cbv zeta. unfold initial_answered. rewrite Ht.
  set (f := λ sc : Screen, setPhase Ready _). cbv zeta.
  destruct (in_nodeId st), (iamConfigured st); (do 5 (split; [reflexivity|]));
    cbn [with_screen screen]; (destruct (screen s) as [sc|]; [|reflexivity]);
    (eexists; split; [reflexivity|]); destruct (decide (sc_mount sc = m)) as [He|He];
    cbn [setSettings sc_mount]; rewrite ?(decide_True _ _ He), ?(decide_False _ _ He);
    (split; [reflexivity|]); split; intros ?; try done; try (by left); by right.
Qed.

Lemma initial_answered_ok a st (s : Session) i m :
  session_ok a s → initial_calls s !! i = Some m →
  session_ok (observe (InitialAnswered i st) a)
    (initial_answered m st (set_calls (delete i (initial_calls s)) (saves s) (logins s) (logouts s) s)).
Proof.
  intros Hok Hi. pose proof Hok as (_ & Hc & _). cbn [observe]. destruct (hasToken st) eqn:Ht.
  - unfold initial_answered. rewrite Ht. apply done_ok; [reflexivity|].
    by destruct (in_nodeId st), (accessToken st) as [[|c t]|].
  - match goal with |- session_ok _ (initial_answered _ _ ?q) =>
      destruct (initial_answered_out m st q Ht) as (H1 & H2 & H3 & H4 & H5 & H6) end.
    apply (settled_ok a s _ m); [done..| |exact H6].
    intros x Hx. rewrite H4, H5. split; [|done]. intros Hin. by apply (elem_delete x m).
Qed.

Lemma handle_ok a e (s s' : Session) : session_ok a s → handle e s = Some s' → session_ok (observe e a) s'.
Proof.
  intros Hok. destruct e; cbn [handle].
  - destruct (initial_calls s !! i) as [m|] eqn:Ei; [|done]. intros [= <-]. by apply initial_answered_ok.
  - destruct (screen s) as [sc|]; [|done]. destruct (phase sc); try done. intros [= <-].
    apply with_screen_ok; [done|]. intros sc'. split; [done|by left].
  - destruct (screen s) as [sc|]; [|done]. destruct (phase sc); try done. destruct (issuerUrl sc); [done|].
    intros [= <-]. unfold handleSaveIAM. by destruct (sc_settings sc).
  - destruct (saves s !! i) as [m|]; [|done]. intros [= <-].
    apply with_screen_ok; [exact Hok|]. intros sc'. split; [done|by right; right].
  - destruct (screen s) as [sc|]; [|done]. destruct (phase sc); try done. intros [= <-].
    apply with_screen_ok; [done|]. intros sc'. split; [done|by right; left].
  - destruct (screen s) as [sc|] eqn:E; [|done]. destruct (phase sc); try done. intros [= <-].
    destruct Hok as (H1 & H2 & H3 & H4 & H5). split_and!; cbn; rewrite ?E; cbn; try done.
    + by rewrite H3, E.
    + intros sc' Hsc'. cbn in Hsc'. rewrite E in Hsc'. cbn in Hsc'. rewrite decide_True in Hsc' by done.
      injection Hsc' as <-. cbn. apply elem_of_app. right. by apply list_elem_of_singleton.
    + intros sc' [= <-]. rewrite decide_True by done. by apply (H5 sc).
  - destruct (screen s) as [sc|]; [|done]. destruct (phase sc); try done. intros [= <-].
    apply with_screen_ok; [done|]. intros sc'. split; [done|by right; right].
  - destruct (logins s !! i) as [m|] eqn:Ei; [|done]. intros [= <-]. unfold login_settled. cbn [observe].
    destruct result as [|[st|e]]; try by apply login_failed_ok.
    destruct (authenticated st); [|by apply login_failed_ok]. by apply done_ok.
  - destruct (loggedIn s); [|done]. by intros [= <-].
  - destruct (logouts s) as [|n]; [done|]. intros [= <-]. by apply (logout_ok a).
Qed.

Lemma runs_ok es a (s s' : Session) :
  session_ok a s → runs es s = Some s' → session_ok (foldl (λ a e, observe e a) a es) s'.
Proof.
  revert a s. induction es as [|e es IH]; intros a s Hok; cbn [runs foldl]; [by intros [= <-]|].
  destruct (handle e s) as [s1|] eqn:E; [|done]. apply IH. by apply (handle_ok a e s).
Qed.

Lemma initial_ok : session_ok (MkAbstract false None) initial_session.
Proof.
  split_and!; cbn; [done|done|done| |].
  - intros sc [= <-]. cbn. by apply list_elem_of_singleton.
  - intros sc [= <-]. cbn. lia.
Qed.

Definition reports_token (e : SessionEvent) : bool :=
  match e with
  | InitialAnswered _ st => hasToken st
  | LoginSettled _ (Native (Ok st)) => authenticated st
  | _ => false
  end.

Lemma observe_no_report es a :
  signed_in a = false → holder a = None → Forall (λ e, reports_token e = false) es →
  foldl (λ a e, observe e a) a es = MkAbstract false None.
Proof.
  intros Hs Hh Hes. assert (a = MkAbstract false None) as -> by (destruct a; by f_equal). clear Hs Hh.
  induction Hes as [|e es He Hes IH]; [done|]. cbn [foldl].
  assert (observe e (MkAbstract false None) = MkAbstract false None) as ->; [|exact IH].
  destruct e; try done; cbn [reports_token observe] in *.
  - by rewrite He.
  - destruct result as [|[st|m]]; try done. by rewrite He.
Qed.

(** C23: What the gate shows.  However the user's clicks, the host's answers and
    the calls of login screens that are gone interleave: the workspace is shown
    exactly when a token was reported since the last sign-out, the claims are
    those of the token reported last, a login screen is mounted exactly when the
    workspace is not, and one that shows a spinner has the call it waits for
    under way.  After a sign-out neither claims nor workspace come back before
    the host reports a token again. *)
Theorem session_exact es s :
  runs es initial_session = Some s →
  (loggedIn s = signed_in (observed es) ∧ claims s = holder (observed es) ≫= setClaims ∧
   (loggedIn s = true ↔ screen s = None) ∧ waits_for_call s) ∧
  (∀ es1 r es2, es = es1 ++ LogoutSettled r :: es2 → Forall (λ e, reports_token e = false) es2 →
     loggedIn s = false ∧ claims s = None).
Proof.
  intros Hr. destruct (runs_ok es _ _ _ initial_ok Hr) as (H1 & H2 & H3 & H4 & _).
  fold (observed es) in H1, H2. split; [done|]. intros es1 r es2 -> Hes2.
  unfold observed in H1, H2. rewrite foldl_app in H1, H2. cbn [foldl observe] in H1, H2.
  rewrite observe_no_report in H1, H2 by done. done.
Qed.

Definition eva_token : str := token_of #"h" (json_text sample_claims) #"s".
Definition eva_status : AuthStatusNative := MkAuthStatus true eva_token #"eva@demo.org" #"eva" #"manager" [].
Definition iam_settings : AppSettings := [ (#"authIssuerUrl", #"http://idp") ].
Definition no_token : InitialState :=
  getInitialState (Ok (Some iam_settings)) (Ok #"n1") (Ok None) (Throw #"no entry").

Definition sample_login : list SessionEvent :=
  [InitialAnswered 0 no_token; LoginClicked; LoginCancelled; LoginClicked;
   LoginSettled 1 (Native (Throw #"timeout")); LoginSettled 0 (Native (Ok eva_status)); LogoutClicked;
   LogoutSettled (Ok ()); InitialAnswered 0 no_token].

Lemma session_exact_witness :
  ∃ s, runs sample_login initial_session = Some s ∧ loggedIn s = false ∧ claims s = None.
Proof.
  destruct (runs sample_login initial_session) as [s|] eqn:E; [|vm_compute in E; discriminate E].
  exists s. split; [reflexivity|].
  apply (proj2 (session_exact sample_login s E)
    [InitialAnswered 0 no_token; LoginClicked; LoginCancelled; LoginClicked;
     LoginSettled 1 (Native (Throw #"timeout")); LoginSettled 0 (Native (Ok eva_status)); LogoutClicked]
    (Ok ()) [InitialAnswered 0 no_token]); [reflexivity|].
  constructor; [vm_compute; reflexivity|constructor].
Defined.

(** A sign-out the host could not carry out: the next login screen finds the
    token and signs the same user in again. *)
Example failed_logout :
  loggedIn <$> runs
    [InitialAnswered 0 no_token; LoginClicked; LoginSettled 0 (Native (Ok eva_status)); LogoutClicked;
     LogoutSettled (Throw #"keychain locked");
     InitialAnswered 0 (getInitialState (Ok (Some iam_settings)) (Ok #"n1") (Ok None) (Ok eva_status))]
    initial_session = Some true.
Proof. vm_compute. reflexivity. Qed.

(** A login that was cancelled goes on: its token opens the workspace. *)
Example cancelled_login :
  loggedIn <$> runs [InitialAnswered 0 no_token; LoginClicked; LoginCancelled;
                     LoginSettled 0 (Native (Ok eva_status))] initial_session = Some true.
Proof. vm_compute. reflexivity. Qed.

(** ** Permissions and settings *)

(** Without a role nothing is asked and nothing is permitted. *)
Lemma no_role_no_permissions {A} status (ask ask' : str → outcome (option (list A))) :
  pe_role (getMyPermissions status ask) = [] →
  pe_permissions (getMyPermissions status ask) = [] ∧ getMyPermissions status ask' = getMyPermissions status ask.
Proof.
  unfold getMyPermissions. destruct (match status with Ok _ => _ | Throw _ => _ end) as [[role username] groups].
  destruct role as [|c role]; [done|]. by destruct (ask _).
Qed.

(** An explicit issuer wins over the bucket; without one the bucket decides. *)
Lemma explicit_issuer_wins s user user' :
  setting #"authIssuerUrl" s ≠ [] →
  resolveIamConfig s user = resolveIamConfig s user' ∧
  ∃ cfg, resolveIamConfig s user = Some cfg ∧ iam_issuer cfg = VStr (setting #"authIssuerUrl" s).
Proof. unfold resolveIamConfig. destruct (setting _ s) as [|c u]; [done|]. intros _. split; [done|]. by eexists. Qed.
