(* ===== verification/LogStore.v ===== *)
(** The log buffer of the application:
    [apps/oos/src/mainview/store/log-store.ts].

    An append is four operations of the database with other appends in
    between, because the bus calls [appendLog] for every record and waits for
    none: a task that is somewhere between its operations is part of the
    state. *)

From S2P Require Export Prelude.
From stdpp Require Import list.

#[local] Set Warnings "-register-all".

Definition MAX_LOG_ROWS : nat := 2000.

Section log_store.
Context {R : Type}.                     (* a log record *)

(** * The table [db.logs] *)

(** Rows in the order of their ids, and the id the next row gets. *)
Record LogTable := MkTable { rows : list (nat * R); next_id : nat }.

Definition table_add (r : R) (t : LogTable) : LogTable := MkTable (rows t ++ [(next_id t, r)]) (S (next_id t)).
Definition table_count (t : LogTable) : nat := length (rows t).
Definition oldest_keys (n : nat) (t : LogTable) : list nat := take n (rows t).*1.
Definition bulkDelete (keys : list nat) (t : LogTable) : LogTable :=
  MkTable (filter (λ p, p.1 ∉ keys) (rows t)) (next_id t).
Definition table_clear (t : LogTable) : LogTable := MkTable [] (next_id t).

(** * [appendLog] *)

(** What an append does next. *)
Inductive Append := Add (record : R) | Count | Select (overflow : nat) | Delete (keys : list nat).

Record LogStore := MkStore { table : LogTable; appends : list Append; notified : nat }.

Definition empty_store : LogStore := MkStore (MkTable [] 1) [] 0.

(** One operation of an append: the table, and what is left to do, if anything. *)
Definition append_step (a : Append) (t : LogTable) : LogTable * option Append :=
  match a with
  | Add r => (table_add r t, Some Count)
  | Count => (t, if MAX_LOG_ROWS <? table_count t then Some (Select (table_count t - MAX_LOG_ROWS)) else None)
  | Select n => (t, Some (Delete (oldest_keys n t)))
  | Delete keys => (bulkDelete keys t, None)
  end.

Inductive LogEvent :=
| LogArrived (record : R)
| AppendRuns (i : nat)                  (** the next operation of an append *)
| AppendFails (i : nat)                 (** it is rejected: the append ends *)
| LogsCleared (ok : bool).

Definition log_event (e : LogEvent) (s : LogStore) : LogStore :=
  match e with
  | LogArrived r => MkStore (table s) (appends s ++ [Add r]) (notified s)
  | AppendRuns i =>
    match appends s !! i with
    | Some a =>
      match append_step a (table s) with
      | (t, Some a') => MkStore t (<[i := a']> (appends s)) (notified s)
      | (t, None) => MkStore t (delete i (appends s)) (S (notified s))
      end
    | None => s
    end
  | AppendFails i =>
    match appends s !! i with
    | Some _ => MkStore (table s) (delete i (appends s)) (S (notified s))
    | None => s
    end
  | LogsCleared ok => MkStore (if ok then table_clear (table s) else table s) (appends s) (S (notified s))
  end.

Definition log_events (es : list LogEvent) (s : LogStore) : LogStore := foldl (λ s e, log_event e s) s es.

(** [getRecentLogs] *)
Definition getRecentLogs (limit : nat) (s : LogStore) : list R := take limit (reverse (rows (table s))).*2.

(** An append that nothing interleaves with. *)
Definition appendLog (r : R) (s : LogStore) : LogStore :=
  let i := length (appends s) in
  log_events [LogArrived r; AppendRuns i; AppendRuns i; AppendRuns i; AppendRuns i] s.

(** * The table holds the newest records *)

(** The records of [added], numbered from 1, but for the first [lo]. *)
Definition numbered (added : list R) : list (nat * R) := zip (seq 1 (length added)) added.
Definition holds (added : list R) (lo : nat) (t : LogTable) : Prop :=
  rows t = drop lo (numbered added) ∧ next_id t = S (length added) ∧ lo ≤ length added.

Lemma numbered_snoc added r : numbered (added ++ [r]) = numbered added ++ [(S (length added), r)].
Proof.
  unfold numbered. rewrite length_app, seq_app, zip_with_app by by rewrite length_seq. done.
Qed.

Lemma length_numbered added : length (numbered added) = length added.
Proof. unfold numbered. rewrite length_zip, length_seq. lia. Qed.

Lemma numbered_ids lo added : (drop lo (numbered added)).*1 = seq (S lo) (length added - lo).
Proof. rewrite fmap_drop. unfold numbered. rewrite fst_zip by by rewrite length_seq. by rewrite drop_seq. Qed.

Lemma table_add_holds r added lo t : holds added lo t → holds (added ++ [r]) lo (table_add r t).
Proof.
  intros (Hr & Hn & Hlo). split_and!; cbn [table_add rows next_id].
  - rewrite Hr, Hn, numbered_snoc, drop_app_le; [done|]. by rewrite length_numbered.
  - by rewrite Hn, length_app, Nat.add_1_r.
  - rewrite length_app. lia.
Qed.

Lemma filter_drop_seq (p q : nat) (l : list (nat * R)) (a n : nat) :
  l.*1 = seq a n → p ≤ a → filter (λ x, x.1 ∉ seq p q) l = drop (p + q - a) l.
Proof.
  revert a n. induction l as [|[k r] l IH]; intros a n Hl Hp; [by rewrite drop_nil|].
  destruct n as [|n]; [done|]. cbn [fmap list_fmap seq] in Hl. injection Hl as -> Hl. cbn [fst] in *.
  destruct (decide (a < p + q)) as [Ha|Ha].
  - rewrite filter_cons_False by (cbn [fst]; rewrite elem_of_seq; lia).
    rewrite (IH (S a) n) by (done || lia). replace (p + q - a) with (S (p + q - S a)) by lia. done.
  - rewrite filter_cons_True by (cbn [fst]; rewrite elem_of_seq; lia).
    rewrite (IH (S a) n) by (done || lia). replace (p + q - a) with 0 by lia. by replace (p + q - S a) with 0 by lia.
Qed.

Lemma bulkDelete_holds p q added lo t :
  holds added lo t → p ≤ S lo → q = 0 ∨ p + q ≤ S (length added) →
  holds added (lo `max` (p + q - 1)) (bulkDelete (seq p q) t).
Proof.
  intros (Hr & Hn & Hlo) Hp Hq. split_and!; cbn [bulkDelete rows next_id]; [|done|lia].
  rewrite Hr, (filter_drop_seq p q _ (S lo) (length added - lo)) by (done || apply numbered_ids).
  rewrite drop_drop. f_equal. lia.
Qed.

(** ** Under any interleaving *)

Definition added_by (e : LogEvent) (s : LogStore) : list R :=
  match e with
  | AppendRuns i => match appends s !! i with Some (Add r) => [r] | _ => [] end
  | _ => []
  end.
Fixpoint added (es : list LogEvent) (s : LogStore) : list R :=
  match es with [] => [] | e :: es => added_by e s ++ added es (log_event e s) end.

(** The keys an append is about to delete are old ones, without a gap. *)
Definition old_keys (all : list R) (lo : nat) (a : Append) : Prop :=
  match a with
  | Delete keys => ∃ p q, keys = seq p q ∧ p ≤ S lo ∧ (q = 0 ∨ p + q ≤ S (length all))
  | _ => True
  end.

Definition store_ok (all : list R) (s : LogStore) : Prop :=
  ∃ lo, holds all lo (table s) ∧ Forall (old_keys all lo) (appends s).

Lemma old_keys_mono all all' lo lo' l :
  length all ≤ length all' → lo ≤ lo' → Forall (old_keys all lo) l → Forall (old_keys all' lo') l.
Proof.
  intros Ha Hl Hf. eapply Forall_impl; [exact Hf|]. intros [r| |n|keys]; cbn [old_keys]; try done.
  intros (p & q & -> & Hp & Hq). exists p, q. split_and!; [done|lia|lia].
Qed.

Lemma oldest_keys_old n all lo t :
  holds all lo t → ∃ p q, oldest_keys n t = seq p q ∧ p ≤ S lo ∧ (q = 0 ∨ p + q ≤ S (length all)).
Proof.
  intros (Hr & _ & Hlo). unfold oldest_keys. rewrite Hr, numbered_ids, take_seq.
  exists (S lo), (n `min` (length all - lo)). split_and!; [done|lia|lia].
Qed.

Lemma append_step_ok a all lo t :
  holds all lo t → old_keys all lo a →
  let added := match a with Add r => [r] | _ => [] end in
  let '(t', next) := append_step a t in
  ∃ lo', lo ≤ lo' ∧ holds (all ++ added) lo' t' ∧
         match next with Some a' => old_keys (all ++ added) lo' a' | None => True end.
Proof.
  intros Ht Ha. cbv zeta. destruct a as [r| |n|keys]; cbn [append_step]; rewrite ?app_nil_r.
  - exists lo. split_and!; [done|by apply table_add_holds|done].
  - exists lo. split_and!; [done|done|]. by destruct (_ <? _).
  - exists lo. split_and!; [done|done|]. by eapply oldest_keys_old.
  - destruct Ha as (p & q & -> & Hp & Hq). eexists. split_and!; [|by apply bulkDelete_holds|done]. lia.
Qed.

Lemma log_event_ok e all s : store_ok all s → store_ok (all ++ added_by e s) (log_event e s).
Proof.
  intros (lo & Ht & Hf). destruct e as [r|i|i|ok]; cbn [log_event added_by].
  - rewrite app_nil_r. exists lo. split; [done|]. by apply Forall_app_2, Forall_singleton.
  - destruct (appends s !! i) as [a|] eqn:Ei; [|rewrite app_nil_r; by exists lo].
    pose proof (append_step_ok a all lo _ Ht (Forall_lookup_1 _ _ _ _ Hf Ei)) as H. cbv zeta in H.
    assert (match a with Add r => [r] | _ => [] end = added_by (AppendRuns i) s) as Eadd by (cbn; by rewrite Ei).
    rewrite Eadd in H. cbn [added_by] in H. rewrite Ei in H.
    destruct (append_step a (table s)) as [t [a'|]]; destruct H as (lo' & Hlo & Ht' & Ha');
      exists lo'; (split; [exact Ht'|]); cbn [appends].
    + apply Forall_insert; [|done]. eapply old_keys_mono; [| |exact Hf]; [rewrite length_app; lia|done].
    + apply Forall_delete. eapply old_keys_mono; [| |exact Hf]; [rewrite length_app; lia|done].
  - rewrite app_nil_r. destruct (appends s !! i); exists lo; (split; [done|]); [by apply Forall_delete|done].
  - rewrite app_nil_r. destruct ok; [|by exists lo]. exists (length all). destruct Ht as (Hr & Hn & Hlo).
    split; [|by eapply old_keys_mono; [| |exact Hf]]. split_and!; cbn; [|done|done].
    rewrite drop_ge; [done|]. by rewrite length_numbered.
Qed.

Lemma log_events_ok es all s : store_ok all s → store_ok (all ++ added es s) (log_events es s).
Proof.
  revert all s. induction es as [|e es IH]; intros all s Hs; cbn [added]; [by rewrite app_nil_r|].
  rewrite app_assoc. change (log_events (e :: es) s) with (log_events es (log_event e s)).
  by apply IH, log_event_ok.
Qed.

Lemma empty_store_ok : store_ok [] empty_store.
Proof. exists 0. by split. Qed.

(** ** Bounded once the appends are done *)

(** Why a table that is too large will not stay so. *)
Definition promise (t : LogTable) (a : Append) : Prop :=
  match a with
  | Add _ => False
  | Count => True
  | Select n => length (rows t) ≤ MAX_LOG_ROWS + n
  | Delete keys => length (rows (bulkDelete keys t)) ≤ MAX_LOG_ROWS
  end.

Definition bounded (s : LogStore) : Prop :=
  length (rows (table s)) ≤ MAX_LOG_ROWS ∨ ∃ i a, appends s !! i = Some a ∧ promise (table s) a.

Lemma length_filter_filter {A} (P Q : A → Prop) `{!∀ x, Decision (P x), !∀ x, Decision (Q x)} l :
  length (filter P (filter Q l)) ≤ length (filter P l).
Proof.
  induction l as [|x l IH]; [done|]. rewrite (filter_cons Q). destruct (decide (Q x)).
  - rewrite !(filter_cons P). destruct (decide (P x)); cbn [length]; lia.
  - rewrite (filter_cons P x l). destruct (decide (P x)); cbn [length]; lia.
Qed.

Lemma promise_bulkDelete keys t a : promise t a → promise (bulkDelete keys t) a.
Proof.
  destruct a as [r| |n|ks]; cbn [promise bulkDelete rows]; try done.
  - intros H. pose proof (length_filter (λ p : nat * R, p.1 ∉ keys) (rows t)). lia.
  - intros H. etrans; [apply length_filter_filter|exact H].
Qed.

Lemma promise_clear t a : promise t a → promise (table_clear t) a.
Proof.
  destruct a; cbn [promise table_clear bulkDelete rows]; try done; intros _; apply Nat.le_0_l.
Qed.

Lemma select_promise n all lo t :
  holds all lo t → promise t (Select n) → promise t (Delete (oldest_keys n t)).
Proof.
  intros (Hr & _ & Hlo). cbn [promise bulkDelete rows]. intros Hn. unfold oldest_keys.
  rewrite Hr, numbered_ids, take_seq.
  rewrite (filter_drop_seq (S lo) _ _ (S lo) (length all - lo)) by (done || apply numbered_ids).
  rewrite Hr in Hn. rewrite !length_drop, length_numbered in *. lia.
Qed.

Definition rejected (e : LogEvent) : bool := match e with AppendFails _ => true | _ => false end.

(** The promise of another append survives the step of one. *)
Lemma promise_elsewhere (s : LogStore) i j a (t : LogTable) (o : option Append) n :
  appends s !! j = Some a → j ≠ i → promise t a →
  bounded (MkStore t (match o with Some a' => <[i := a']> (appends s) | None => delete i (appends s) end) n).
Proof.
  intros Hj Hne Hp. right. cbn [appends table]. destruct o as [a'|].
  - exists j, a. by rewrite list_lookup_insert_ne.
  - exists (if decide (j < i) then j else j - 1), a. split; [|done]. rewrite list_lookup_delete.
    destruct (decide (j < i)); [by rewrite decide_True|].
    rewrite decide_False by lia. by replace (S (j - 1)) with j by lia.
Qed.

Lemma append_step_bounded i a lo all (s : LogStore) :
  holds all lo (table s) → appends s !! i = Some a → bounded s →
  bounded (log_event (AppendRuns i) s).
Proof.
  intros Ht Hi Hb. cbn [log_event]. rewrite Hi.
  assert (∀ t o n, append_step a (table s) = (t, o) →
            (length (rows t) ≤ MAX_LOG_ROWS ∨
             (∃ a', o = Some a' ∧ promise t a') ∨
             (∃ j b, appends s !! j = Some b ∧ j ≠ i ∧ promise t b)) →
            bounded (MkStore t (match o with Some a' => <[i := a']> (appends s) | None => delete i (appends s) end) n)) as Hstep.
  { intros t o n _ [H|[(a' & -> & Ha')|(j & b & Hj & Hne & Hp)]].
    - by left.
    - right. exists i, a'. cbn. split; [|done]. rewrite list_lookup_insert_eq; [done|]. by eapply lookup_lt_Some.
    - by eapply promise_elsewhere. }
  assert (let '(t, o) := append_step a (table s) in
            length (rows t) ≤ MAX_LOG_ROWS ∨ (∃ a', o = Some a' ∧ promise t a') ∨
            (∃ j b, appends s !! j = Some b ∧ j ≠ i ∧ promise t b)) as Hcases.
  { destruct a as [r| |n|keys]; cbn [append_step].
    - right. left. by exists Count.
    - destruct (Nat.ltb_spec MAX_LOG_ROWS (table_count (table s))) as [Hc|Hc]; [|by left].
      right. left. eexists. split; [done|]. cbn [promise]. unfold table_count in *. lia.
    - destruct Hb as [Hb|(j & b & Hj & Hp)]; [by left|]. right.
      destruct (decide (j = i)) as [->|Hne]; [left|right; by exists j, b].
      rewrite Hi in Hj. injection Hj as <-. eexists. split; [done|]. by eapply select_promise.
    - destruct Hb as [Hb|(j & b & Hj & Hp)].
      + left. cbn [bulkDelete rows]. pose proof (length_filter (λ p : nat * R, p.1 ∉ keys) (rows (table s))). lia.
      + destruct (decide (j = i)) as [->|Hne].
        * rewrite Hi in Hj. injection Hj as <-. by left.
        * right. right. exists j, b. split_and!; [done|done|]. by apply promise_bulkDelete. }
  destruct (append_step a (table s)) as [t [a'|]] eqn:E; [by apply (Hstep t (Some a'))|by apply (Hstep t None)].
Qed.

Lemma log_event_bounded e all (s : LogStore) :
  store_ok all s → rejected e = false → bounded s → bounded (log_event e s).
Proof.
  intros (lo & Ht & _) Hr Hb. destruct e as [r|i|i|ok]; cbn [log_event].
  - destruct Hb as [Hb|(j & b & Hj & Hp)]; [by left|right]. exists j, b. cbn [appends table].
    split; [by apply lookup_app_l_Some|done].
  - destruct (appends s !! i) as [a|] eqn:Hi; [|done].
    pose proof (append_step_bounded i a lo all s Ht Hi Hb) as H. cbn [log_event] in H. by rewrite Hi in H.
  - done.
  - destruct ok; [|done]. left. cbn. lia.
Qed.

Lemma log_events_bounded es all (s : LogStore) :
  store_ok all s → Forall (λ e, rejected e = false) es → bounded s → bounded (log_events es s).
Proof.
  revert all s. induction es as [|e es IH]; intros all s Hs Hes Hb; [done|].
  apply Forall_cons in Hes as [He Hes]. change (log_events (e :: es) s) with (log_events es (log_event e s)).
  apply (IH (all ++ added_by e s)); [by apply log_event_ok|done|by eapply log_event_bounded].
Qed.

(** ** One append after the other *)

Definition size (s : LogStore) : nat := length (rows (table s)).

Lemma appendLog_alone r all (s : LogStore) :
  store_ok all s → appends s = [] →
  store_ok (all ++ [r]) (appendLog r s) ∧ appends (appendLog r s) = [] ∧
  size (appendLog r s) = S (size s) `min` MAX_LOG_ROWS.
Proof.
  intros Hok Ha.
  pose proof (log_events_ok [LogArrived r; AppendRuns 0; AppendRuns 0; AppendRuns 0; AppendRuns 0] all s Hok) as H.
  unfold appendLog. rewrite Ha. cbn [length].
  destruct s as [t l n]. cbn [appends] in Ha. subst l. cbn [log_events foldl log_event appends app lookup list_lookup
    append_step table insert list_insert added added_by] in *.
  destruct Hok as (lo & (Hrows & Hn & Hlo) & _). cbn [table] in *.
  set (t1 := table_add r t) in *.
  assert (table_count t1 = S (length (rows t))) as Hc.
  { unfold table_count, t1. cbn [table_add rows]. rewrite length_app, Nat.add_1_r. done. }
  rewrite Hc in *. destruct (Nat.ltb_spec MAX_LOG_ROWS (S (length (rows t)))) as [Hm|Hm];
    cbn [log_event appends table lookup list_lookup append_step insert list_insert delete list_delete
         added_by app] in *; rewrite ?app_nil_r in H; (split; [exact H|]); (split; [reflexivity|]);
    unfold size; cbn [table].
  - assert (holds (all ++ [r]) lo t1) as Ht1 by by apply table_add_holds.
    pose proof Ht1 as (Hr1 & _ & Hl1). unfold oldest_keys. cbn [bulkDelete rows].
    rewrite Hr1, numbered_ids, take_seq.
    rewrite (filter_drop_seq (S lo) _ _ (S lo) (length (all ++ [r]) - lo)) by (done || apply numbered_ids).
    unfold table_count in Hc. rewrite Hr1 in Hc. rewrite !length_drop, length_numbered in *. lia.
  - unfold table_count in Hc. rewrite Hc. lia.
Qed.

(** What [getRecentLogs] reads of a table that holds the newest records. *)
Lemma recent_logs all lo (s : LogStore) limit :
  holds all lo (table s) → size s = length all - lo ∧ getRecentLogs limit s = take (limit `min` size s) (reverse all).
Proof.
  intros (Hr & _ & Hlo). assert (size s = length all - lo) as Hs.
  { unfold size. by rewrite Hr, length_drop, length_numbered. }
  split; [done|]. rewrite Hs. unfold getRecentLogs.
  rewrite fmap_reverse, Hr, fmap_drop. unfold numbered. rewrite snd_zip by by rewrite length_seq.
  by rewrite reverse_drop, take_take.
Qed.

Lemma appended_one_by_one rs :
  let s := foldl (λ s r, appendLog r s) empty_store rs in
  store_ok rs s ∧ appends s = [] ∧ size s = length rs `min` MAX_LOG_ROWS.
Proof.
  cbv zeta. induction rs as [|r rs IH] using rev_ind; [split_and!; [apply empty_store_ok|done|done]|].
  rewrite foldl_app. cbn [foldl]. destruct IH as (H1 & H2 & H3).
  destruct (appendLog_alone r rs _ H1 H2) as (H4 & H5 & H6). split_and!; [done|done|].
  rewrite H6, H3, length_app. cbn [length]. lia.
Qed.

(** C24: The log buffer.  However the operations of appends interleave, whichever
    of them fail and whenever the log is cleared: the buffer holds the newest of
    the records that were added, in order and without a gap, and
    [getRecentLogs] reads them newest first.  When no operation failed and no
    append is under way it holds at most 2000 of them; and when every append
    ends before the next begins, exactly the newest 2000. *)
Theorem log_ring (es : list LogEvent) :
  let s := log_events es empty_store in
  size s ≤ length (added es empty_store) ∧
  (∀ limit, getRecentLogs limit s = take (limit `min` size s) (reverse (added es empty_store))) ∧
  (Forall (λ e, rejected e = false) es → appends s = [] → size s ≤ MAX_LOG_ROWS) ∧
  (∀ rs limit, getRecentLogs limit (foldl (λ s r, appendLog r s) empty_store rs) =
                 take (limit `min` MAX_LOG_ROWS) (reverse rs)).
Proof.
  cbv zeta. destruct (log_events_ok es [] empty_store empty_store_ok) as (lo & Ht & _). cbn [app] in Ht.
  split_and!.
  - destruct (recent_logs _ _ _ 0 Ht) as [-> _]. lia.
  - intros limit. by apply (recent_logs _ lo).
  - intros Hes Ha. destruct (log_events_bounded es [] empty_store empty_store_ok Hes) as [H|(i & a & Hi & _)].
    + left. cbn. lia.
    + exact H.
    + by rewrite Ha, lookup_nil in Hi.
  - intros rs limit. destruct (appended_one_by_one rs) as ((l & Hl & _) & _ & Hsz).
    destruct (recent_logs _ _ _ limit Hl) as [_ ->]. rewrite Hsz.
    destruct (decide (length rs ≤ MAX_LOG_ROWS)) as [Hle|Hgt];
      [|by replace (length rs `min` MAX_LOG_ROWS) with MAX_LOG_ROWS by lia].
    replace (limit `min` (length rs `min` MAX_LOG_ROWS)) with ((limit `min` MAX_LOG_ROWS) `min` length rs) by lia.
    rewrite <- take_take. f_equal. apply take_ge. by rewrite length_reverse.
Qed.
End log_store.

Lemma log_ring_witness :
  size (log_events [LogArrived 7; LogArrived 8; AppendRuns 0; AppendRuns 1; AppendRuns 1; AppendRuns 0] empty_store) ≤
    MAX_LOG_ROWS.
Proof.
  apply (log_ring [LogArrived 7; LogArrived 8; AppendRuns 0; AppendRuns 1; AppendRuns 1; AppendRuns 0]);
    [by repeat constructor|vm_compute; reflexivity].
Defined.

(** Two appends to a full buffer: the second counts the row of the first while
    the first has not yet deleted, and a row too many goes. *)
Definition full_store : LogStore := MkStore (MkTable (numbered (seq 0 MAX_LOG_ROWS)) (S MAX_LOG_ROWS)) [] 0.

Example one_row_too_many :
  size (log_events
    [LogArrived 1; AppendRuns 0; AppendRuns 0;         (* the first adds and counts 2001 *)
     LogArrived 2; AppendRuns 1;                       (* the second adds *)
     AppendRuns 0; AppendRuns 1;                       (* the first selects, the second counts 2002 *)
     AppendRuns 0; AppendRuns 0; AppendRuns 0]         (* the first deletes, the second selects and deletes *)
    full_store) = 1999.
Proof. vm_compute. reflexivity. Qed.
