(* ===== verification/RecordForm.v ===== *)
(** A record in a form: the detail tab of the application,
    [apps/oos/src/mainview/components/DetailRenderer.tsx], with the data calls
    of [rpc.ts] it makes.

    Loading is a function of what the calls answer, in the order the code looks
    at the answers.  The open form is a transition system: saves and deletes
    that wait for their answer are part of the state. *)

From S2P Require Export ViewState Tabs.

#[local] Set Warnings "-register-all".

(** * The seam *)

(** The opaque envelope of a forwarded reply. *)
Record JsonEnvelope := MkEnvelope { je_json : str; je_error : option str }.

(** [asJson]; a reply is a value that was parsed from JSON. *)
Definition asJson (reply : outcome jsval) : JsonEnvelope :=
  match reply with
  | Ok v => MkEnvelope (json_text v) None
  | Throw e => MkEnvelope [] (Some e)
  end.

Record DataWhere := MkWhere { w_field : str; w_op : str; w_value : str }.
Record QueryRequest := MkQuery {
  q_domain : str; q_where : option (list DataWhere); q_limit : option nat; q_withOptions : bool }.

(** The reply of the bus, and what [rpc.dataQuery] makes of it. *)
Record QueryReply := MkQueryReply { qr_rows : option (list jsobj); qr_options : option jsobj; qr_error : option str }.
Record QueryResult := MkQueryResult { rows : list jsobj; result_options : option jsobj; query_error : option str }.

Definition dataQuery (reply : outcome QueryReply) : QueryResult :=
  match reply with
  | Ok r =>
    match qr_error r with
    | Some (c :: e) => MkQueryResult [] None (Some (c :: e))
    | _ => MkQueryResult (default [] (qr_rows r)) (qr_options r) None
    end
  | Throw e => MkQueryResult [] None (Some e)
  end.

Inductive MutateOp := OpInsert | OpUpdate | OpDelete.
Record MutateRequest := MkMutate {
  m_domain : str; m_op : MutateOp; m_role : str; m_set : option (list (str * str)); m_id : option str }.

Record MutateReply := MkMutateReply { record : option jsobj; mutate_error : option str }.

(** [rpc.dataMutate] *)
Definition dataMutate (reply : outcome MutateReply) : MutateReply :=
  match reply with
  | Ok r =>
    match mutate_error r with
    | Some (c :: e) => MkMutateReply None (Some (c :: e))
    | _ => MkMutateReply (record r) None
    end
  | Throw e => MkMutateReply None (Some e)
  end.

(** * Loading *)

(** [pickSource] *)
Definition pickSource (json : str) : option str :=
  match json_parse json with
  | Some v => match get_prop #"source" v with Ok (VStr (c :: s)) => Some (c :: s) | _ => None end
  | None => None
  end.

(** What a parse worker posts back. *)
Record ParseResult (A : Type) := MkParsed { parsed_def : option A; diagnostics : list str }.
#[global] Arguments MkParsed {A} _ _.
#[global] Arguments parsed_def {A} _.
#[global] Arguments diagnostics {A} _.

Inductive Stage := Loading | Failed (message : str) | ReadyForm (def : ViewDef) (domain : DomainDef) (state : ViewState).

(** [wrapDataAsEnvelope] *)
Definition envelope_alias (def : ViewDef) : str :=
  match view_domains def with b :: _ => binding_alias b | [] => #"data" end.
Definition wrapDataAsEnvelope (def : ViewDef) (data meta : jsobj) : jsobj :=
  [(#"content", VObj [(envelope_alias def, VObj data)]); (#"meta", VObj meta)].

Record DetailProps := MkProps { p_tabId : str; p_contextName : str; p_viewName : str; p_data : jsobj; p_id : jsval }.

(** Not undefined, the empty string, zero or the text 0. *)
Definition hasId (id : jsval) : bool :=
  negb (no_detail_id id) && match id with VStr s => negb (bool_decide (s = #"0")) | _ => true end.

Definition detail_query (p : DetailProps) : QueryRequest :=
  MkQuery (p_contextName p)
    (if hasId (p_id p) then Some [MkWhere #"id" #"eq" (to_string (p_id p))] else None) (Some 1) true.

(** The row the form is filled with, and the options. *)
Definition detail_row (p : DetailProps) (r : QueryResult) : jsobj :=
  match query_error r, rows r with
  | None, row :: _ => if hasId (p_id p) then row else p_data p
  | _, _ => p_data p
  end.
Definition detail_meta (r : QueryResult) : jsobj :=
  match query_error r with None => default [] (result_options r) | Some _ => [] end.

Definition envelope_failed (e : JsonEnvelope) : bool :=
  match je_error e with Some (_ :: _) => true | _ => false end || bool_decide (je_json e = []).

Definition first_message (ms : list str) (d : str) : str := default d (head ms).

(** The load effect, by the answers of its calls. *)
Definition load_detail (p : DetailProps) (view domain : JsonEnvelope) (parseView : str → ParseResult ViewDef)
    (parseDomain : str → ParseResult DomainDef) (query : QueryRequest → outcome QueryReply) : Stage :=
  if envelope_failed view then Failed (default (#"view " ++ quoted (p_viewName p) ++ #" leer") (je_error view))
  else if envelope_failed domain then Failed (default (#"domain " ++ quoted (p_contextName p) ++ #" leer") (je_error domain))
  else
    match pickSource (je_json view), pickSource (je_json domain) with
    | Some viewSource, Some domainSource =>
      let viewParsed := parseView viewSource in
      let domainParsed := parseDomain domainSource in
      match parsed_def viewParsed with
      | None => Failed (first_message (diagnostics viewParsed) #"view-parse fehlgeschlagen")
      | Some def =>
        match parsed_def domainParsed with
        | None => Failed (first_message (diagnostics domainParsed) #"domain-parse fehlgeschlagen")
        | Some dom =>
          let r := dataQuery (query (detail_query p)) in
          match loadEnvelope (wrapDataAsEnvelope def (detail_row p r) (detail_meta r)) newViewState with
          | Ok st => ReadyForm def dom st
          | Throw e => Failed e
          end
        end
      end
    | _, _ => Failed #"view oder domain ohne Quelle in der DB"
    end.

(** * The open form *)

Inductive Notice := Denied | SaveFailed (message : str) | DeleteFailed (message : str) | NoIdYet.

Record Form := MkForm {
  f_tabId : str; f_contextName : str; f_def : ViewDef; f_domain : DomainDef;
  f_state : ViewState;
  saving : list MutateRequest; deleting : list MutateRequest;    (** requests under way *)
  confirming : option str;                (** the id the open delete dialog asks about *)
  sent : list MutateRequest;              (** every request so far, as the inspector shows them *)
  notices : list Notice; saved : nat;     (** how often the saved stamp was set *)
  published : list (str * str);           (** domain events *)
  closed : bool }.

Definition open_form (p : DetailProps) (def : ViewDef) (dom : DomainDef) (st : ViewState) : Form :=
  MkForm (p_tabId p) (p_contextName p) def dom st [] [] None [] [] 0 [] false.

Definition role : str := [].

Definition primaryAlias (f : Form) : str :=
  match view_domains (f_def f) with b :: _ => binding_alias b | [] => f_contextName f end.
Definition primaryDomainName (f : Form) : str :=
  match view_domains (f_def f) with b :: _ => binding_name b | [] => f_contextName f end.

(** [isEmptyId] *)
Definition isEmptyId (v : option str) : bool :=
  match v with None => true | Some s => bool_decide (trim s = []) || bool_decide (trim s = #"0") end.

(** [indexDomainFields], a later field of the same name wins. *)
Definition indexDomainFields (d : DomainDef) : list (str * DomainFieldDef) :=
  set_loop field_name (λ f : DomainFieldDef, f) [] (fields d).
Definition is_readonly (d : DomainDef) (k : str) : bool :=
  match assoc_get k (indexDomainFields d) with Some f => readOnly f | None => false end.

(** The loop that strips the id and the read-only fields. *)
Definition settable (d : DomainDef) (flat : list (str * str)) : list (str * str) :=
  foldl (λ set p, if bool_decide (p.1 = #"id") || is_readonly d p.1 then set else obj_set p.1 p.2 set) [] flat.

Definition save_request (f : Form) : MutateRequest :=
  let flat := buildEvent (view_name (f_def f)) #"save" (f_state f) in
  let idValue := assoc_get #"id" flat in
  let isUpdate := negb (isEmptyId idValue) in
  MkMutate (f_contextName f) (if isUpdate then OpUpdate else OpInsert) role (Some (settable (f_domain f) flat))
    (if isUpdate then idValue else None).

Definition delete_request (f : Form) (idValue : str) : MutateRequest :=
  MkMutate (f_contextName f) OpDelete role None (Some idValue).

(** [isPermissionError] *)
Definition isPermissionError (error : str) : bool :=
  let e := to_lower error in
  includes #"role required" e || includes #"not allowed" e || includes #"permission" e ||
  includes #"not authenticated" e.

(** [refreshFromRecord] *)
Definition refreshFromRecord (alias : str) (record : option jsobj) (st : ViewState) : ViewState :=
  match record with
  | None => st
  | Some r => foldl (λ st p, if is_nullish p.2 then st else set (under alias p.1) (to_string p.2) st) st r
  end.

Definition with_state (st : ViewState) (f : Form) : Form :=
  MkForm (f_tabId f) (f_contextName f) (f_def f) (f_domain f) st (saving f) (deleting f) (confirming f) (sent f)
    (notices f) (saved f) (published f) (closed f).
Definition with_calls (sv dl : list MutateRequest) (c : option str) (sn : list MutateRequest) (f : Form) : Form :=
  MkForm (f_tabId f) (f_contextName f) (f_def f) (f_domain f) (f_state f) sv dl c sn
    (notices f) (saved f) (published f) (closed f).
Definition notice (n : Notice) (f : Form) : Form :=
  MkForm (f_tabId f) (f_contextName f) (f_def f) (f_domain f) (f_state f) (saving f) (deleting f) (confirming f)
    (sent f) (notices f ++ [n]) (saved f) (published f) (closed f).
Definition publish_changed (f : Form) : Form :=
  MkForm (f_tabId f) (f_contextName f) (f_def f) (f_domain f) (f_state f) (saving f) (deleting f) (confirming f)
    (sent f) (notices f) (saved f) (published f ++ [(primaryDomainName f, #"changed")]) (closed f).
Definition stamp_saved (f : Form) : Form :=
  MkForm (f_tabId f) (f_contextName f) (f_def f) (f_domain f) (f_state f) (saving f) (deleting f) (confirming f)
    (sent f) (notices f) (S (saved f)) (published f) (closed f).
Definition close_form (f : Form) : Form :=
  MkForm (f_tabId f) (f_contextName f) (f_def f) (f_domain f) (f_state f) (saving f) (deleting f) (confirming f)
    (sent f) (notices f) (saved f) (published f) true.

(** [doSave], up to its call *)
Definition doSave (f : Form) : Form :=
  let r := save_request f in with_calls (saving f ++ [r]) (deleting f) (confirming f) (sent f ++ [r]) f.

(** and behind it *)
Definition save_answered (reply : outcome MutateReply) (f : Form) : Form :=
  let resp := dataMutate reply in
  match mutate_error resp with
  | Some (c :: e) => notice (if isPermissionError (c :: e) then Denied else SaveFailed (c :: e)) f
  | _ => publish_changed (stamp_saved (with_state (refreshFromRecord (primaryAlias f) (record resp) (f_state f)) f))
  end.

(** [doConfirmDelete] *)
Definition doConfirmDelete (f : Form) : Form :=
  let idValue := get (under (primaryAlias f) #"id") (f_state f) in
  if bool_decide (idValue = []) || bool_decide (idValue = #"0") then notice NoIdYet f
  else with_calls (saving f) (deleting f) (Some idValue) (sent f) f.

(** [doDelete], and behind its call *)
Definition doDelete (idValue : str) (f : Form) : Form :=
  let r := delete_request f idValue in with_calls (saving f) (deleting f ++ [r]) None (sent f ++ [r]) f.
Definition delete_answered (reply : outcome MutateReply) (f : Form) : Form :=
  let resp := dataMutate reply in
  match mutate_error resp with
  | Some (c :: e) => notice (if isPermissionError (c :: e) then Denied else DeleteFailed (c :: e)) f
  | _ => close_form (publish_changed f)
  end.

(** [handleToolbar]; a form's toolbar ignores the items of a list. *)
Definition handleToolbar (item : ToolbarItemDef) (f : Form) : Form :=
  match item with
  | SaveItem => doSave f
  | DeleteItem _ => doConfirmDelete f
  | ExitItem => close_form f
  | NewItem _ _ _ | RefreshItem _ => f
  end.

(** Edits and toolbar clicks need the tab; dialogs and answers do not. *)
Inductive FormEvent :=
| Edited (bindPath value : str)
| Toolbar (item : ToolbarItemDef)
| DialogClosed (confirmed : bool)
| SaveAnswered (i : nat) (reply : outcome MutateReply)
| DeleteAnswered (i : nat) (reply : outcome MutateReply).

Definition form_event (e : FormEvent) (f : Form) : Form :=
  match e with
  | Edited k v => if closed f then f else with_state (set k v (f_state f)) f
  | Toolbar item => if closed f then f else handleToolbar item f
  | DialogClosed confirmed =>
    match confirming f with
    | Some id => if confirmed then doDelete id f else with_calls (saving f) (deleting f) None (sent f) f
    | None => f
    end
  | SaveAnswered i reply =>
    match saving f !! i with
    | Some _ => save_answered reply (with_calls (delete i (saving f)) (deleting f) (confirming f) (sent f) f)
    | None => f
    end
  | DeleteAnswered i reply =>
    match deleting f !! i with
    | Some _ => delete_answered reply (with_calls (saving f) (delete i (deleting f)) (confirming f) (sent f) f)
    | None => f
    end
  end.
Definition form_events (es : list FormEvent) (f : Form) : Form := foldl (λ f e, form_event e f) f es.

(** * What a save sends and leaves *)

Definition keyed (name : str) (st : ViewState) : Prop :=
  NoDup (values st).*1 ∧ ∀ key, key ∈ (values st).*1 → ∃ k, key = under name k.

Lemma buildEvent_NoDup sid act st : NoDup (buildEvent sid act st).*1.
Proof.
  unfold buildEvent. generalize (snapshot st). intros l.
  assert (NoDup (@nil (str * str)).*1) as Hnil by constructor. revert Hnil. generalize (@nil (str * str)).
  induction l as [|p l IH]; intros m Hm; [done|]. cbn [foldl]. by apply IH, obj_set_keys_NoDup.
Qed.

Definition kept (d : DomainDef) (k : str) : Prop := k ≠ #"id" ∧ is_readonly d k = false.

#[export] Instance kept_decision d k : Decision (kept d k).
Proof. unfold kept. apply _. Defined.

Lemma settable_filter d flat :
  settable d flat = set_loop fst snd [] (filter (λ p : str * str, kept d p.1) flat).
Proof.
  unfold settable, set_loop. generalize (@nil (str * str)). induction flat as [|p flat IH]; intros m; [done|].
  cbn [foldl]. rewrite filter_cons. destruct (decide (kept d p.1)) as [[Hid Hro]|Hk].
  - rewrite bool_decide_eq_false_2, Hro by done. cbn [orb foldl]. apply IH.
  - rewrite <- IH. destruct (decide (p.1 = #"id")) as [Hid|Hid].
    + by rewrite bool_decide_eq_true_2.
    + rewrite bool_decide_eq_false_2 by done. cbn [orb]. destruct (is_readonly d p.1) eqn:E; [done|]. by destruct Hk.
Qed.

Lemma settable_get d flat k :
  NoDup flat.*1 → assoc_get k (settable d flat) = if decide (kept d k) then assoc_get k flat else None.
Proof.
  intros Hnd. rewrite settable_filter. set (l := filter _ flat).
  assert (∀ p, p ∈ l ↔ kept d p.1 ∧ p ∈ flat) as Hl by (intros p; unfold l; by rewrite list_elem_of_filter).
  destruct (decide (kept d k)) as [Hk|Hk].
  - destruct (assoc_get k flat) as [v|] eqn:E.
    + apply assoc_get_elem in E as Hin. apply (set_loop_get fst snd (k, v)); [by apply Hl|].
      intros [k' v'] Hp Hkk. cbn [fst snd] in *. subst k'. apply Hl in Hp as [_ Hp].
      apply elem_assoc_get in Hp; [|done]. congruence.
    + rewrite set_loop_other; [done|]. intros (p & -> & Hp)%list_elem_of_fmap. apply Hl in Hp as [_ Hp].
      apply assoc_get_None in E. apply E. by apply list_elem_of_fmap_2.
  - rewrite set_loop_other; [done|]. intros (p & -> & Hp)%list_elem_of_fmap. apply Hl in Hp as [Hp _]. done.
Qed.

Lemma set_keyed name k v st : keyed name st → keyed name (set (under name k) v st).
Proof. intros [Hnd Hk]. by apply edited_under. Qed.

Lemma refresh_keyed name r st : keyed name st → keyed name (refreshFromRecord name r st).
Proof.
  destruct r as [r|]; [|done]. cbn [refreshFromRecord]. revert st. induction r as [|p r IH]; intros st Hst; [done|].
  cbn [foldl]. apply IH. destruct (is_nullish p.2); [done|]. by apply set_keyed.
Qed.

Lemma refresh_other name r st k :
  (∀ v, (k, v) ∈ r → is_nullish v = true) →
  assoc_get (under name k) (values (refreshFromRecord name (Some r) st)) = assoc_get (under name k) (values st).
Proof.
  cbn [refreshFromRecord]. revert st. induction r as [|[k' v'] r IH]; intros st Hr; [done|].
  cbn [foldl fst snd]. rewrite IH by (intros v Hv; apply Hr; by right).
  destruct (is_nullish v') eqn:E; [done|]. rewrite set_values_get. destruct (decide _) as [Hu|]; [|done].
  apply under_inj in Hu as ->. rewrite (Hr v') in E; [done|by left].
Qed.

Lemma refresh_get name r st k v :
  NoDup r.*1 → (k, v) ∈ r → is_nullish v = false →
  assoc_get (under name k) (values (refreshFromRecord name (Some r) st)) = Some (to_string v).
Proof.
  cbn [refreshFromRecord]. revert st. induction r as [|[k' v'] r IH]; intros st Hnd Hin Hv; [by apply elem_of_nil in Hin|].
  rewrite fmap_cons in Hnd. apply NoDup_cons in Hnd as [Hk' Hnd].
  cbn [foldl fst snd]. apply elem_of_cons in Hin as [[= <- <-]|Hin]; [|by apply IH].
  rewrite Hv. change (foldl _ ?s r) with (refreshFromRecord name (Some r) s). rewrite refresh_other.
  - by rewrite set_values_get, decide_True.
  - intros w Hw. exfalso. apply Hk'. by apply (list_elem_of_fmap_2 fst _ (k, w)).
Qed.

(** ** Reached forms *)

Definition edits_under (name : str) (e : FormEvent) : Prop :=
  match e with Edited k _ => ∃ f, k = under name f | _ => True end.

Record form_of (p : DetailProps) (def : ViewDef) (dom : DomainDef) (name : str) (f : Form) : Prop := {
  of_def : f_def f = def; of_domain : f_domain f = dom; of_context : f_contextName f = p_contextName p;
  of_alias : primaryAlias f = name; of_keyed : keyed name (f_state f) }.

Lemma save_answered_of p def dom name reply f :
  form_of p def dom name f → form_of p def dom name (save_answered reply f).
Proof.
  intros [H1 H2 H3 H4 H5]. unfold save_answered. destruct (mutate_error _) as [[|c e]|]; [| |];
    (split; [done..|]); try done; cbn [publish_changed stamp_saved with_state f_state]; rewrite H4; by apply refresh_keyed.
Qed.

Lemma delete_answered_of p def dom name reply f :
  form_of p def dom name f → form_of p def dom name (delete_answered reply f).
Proof. intros [H1 H2 H3 H4 H5]. unfold delete_answered. by destruct (mutate_error _) as [[|c e]|]. Qed.

Lemma form_event_of p def dom name e f :
  edits_under name e → form_of p def dom name f → form_of p def dom name (form_event e f).
Proof.
  intros He Hf. pose proof Hf as [H1 H2 H3 H4 H5]. destruct e as [k v|item|confirmed|i reply|i reply]; cbn [form_event].
  - destruct (closed f); [done|]. destruct He as [g ->]. split; [done..|]. by apply set_keyed.
  - destruct (closed f); [done|]. destruct item; try done. cbn [handleToolbar]. unfold doConfirmDelete. by destruct (_ || _).
  - destruct (confirming f); [|done]. by destruct confirmed.
  - destruct (saving f !! i); [|done]. by apply save_answered_of.
  - destruct (deleting f !! i); [|done]. by apply delete_answered_of.
Qed.

Lemma form_events_of p def dom name es f :
  Forall (edits_under name) es → form_of p def dom name f → form_of p def dom name (form_events es f).
Proof.
  intros Hes. revert f. induction Hes as [|e es He Hes IH]; intros f Hf; [done|].
  change (form_events (e :: es) f) with (form_events es (form_event e f)). by apply IH, form_event_of.
Qed.

Lemma open_form_of p def dom b bs rec meta :
  view_domains def = b :: bs →
  form_of p def dom (binding_alias b) (open_form p def dom (loaded (binding_alias b) rec meta)).
Proof.
  intros Hb. split; [done..| |].
  - unfold primaryAlias. cbn. by rewrite Hb.
  - destruct (loaded_under (binding_alias b) rec meta) as [Hnd Hk]. split; [done|].
    intros key (k & -> & _)%Hk. by exists k.
Qed.

(** ** One save *)

Lemma save_request_spec p def dom name f :
  46%N ∉ name → form_of p def dom name f →
  let shown k := assoc_get (under name k) (values (f_state f)) in
  m_domain (save_request f) = p_contextName p ∧
  (∃ set, m_set (save_request f) = Some set ∧
     ∀ k, assoc_get k set = if decide (kept dom k) then shown k else None) ∧
  (if isEmptyId (shown #"id") then m_op (save_request f) = OpInsert ∧ m_id (save_request f) = None
   else m_op (save_request f) = OpUpdate ∧ m_id (save_request f) = shown #"id").
Proof.
  intros Hn [H1 H2 H3 H4 [Hnd Hk]]. cbv zeta.
  assert (∀ k, assoc_get k (buildEvent (view_name (f_def f)) #"save" (f_state f)) =
               assoc_get (under name k) (values (f_state f))) as Hflat by (intros k; by apply buildEvent_get).
  unfold save_request. cbn [m_domain m_set m_op m_id]. rewrite !Hflat. split_and!.
  - done.
  - eexists. split; [done|]. intros k. rewrite settable_get by apply buildEvent_NoDup. by rewrite Hflat, H2.
  - by destruct (isEmptyId _).
Qed.

(** C25: What a form saves.  A record opened in a form and edited in any order,
    with saves and deletes under way: a save sends exactly the shown text of the
    fields that are neither the id nor read-only, as an update of the shown id,
    or as an insert while there is none.  When the server answers with the
    record, the form shows its values and keeps the others, a change of the
    domain is published once, and the next save is an update of the id the
    server gave.  When it answers with an error the form stays as it is, one
    notice tells the user, and nothing is published. *)
Theorem form_saves p def dom b bs rec meta es :
  view_domains def = b :: bs → 46%N ∉ binding_alias b → Forall (edits_under (binding_alias b)) es →
  let f := form_events es (open_form p def dom (loaded (binding_alias b) rec meta)) in
  let shown g k := assoc_get (under (binding_alias b) k) (values (f_state g)) in
  (m_domain (save_request f) = p_contextName p ∧
   (∃ set, m_set (save_request f) = Some set ∧
      ∀ k, assoc_get k set = if decide (kept dom k) then shown f k else None) ∧
   (if isEmptyId (shown f #"id") then m_op (save_request f) = OpInsert ∧ m_id (save_request f) = None
    else m_op (save_request f) = OpUpdate ∧ m_id (save_request f) = shown f #"id")) ∧
  (∀ r, NoDup r.*1 →
   let f' := save_answered (Ok (MkMutateReply (Some r) None)) f in
   (∀ k v, (k, v) ∈ r → is_nullish v = false → shown f' k = Some (to_string v)) ∧
   (∀ k, (∀ v, (k, v) ∈ r → is_nullish v = true) → shown f' k = shown f k) ∧
   published f' = published f ++ [(binding_name b, #"changed")] ∧
   (∀ v, (#"id", v) ∈ r → is_nullish v = false → isEmptyId (Some (to_string v)) = false →
      m_op (save_request f') = OpUpdate ∧ m_id (save_request f') = Some (to_string v))) ∧
  (∀ c e reply, dataMutate reply = MkMutateReply None (Some (c :: e)) →
   let f' := save_answered reply f in
   f_state f' = f_state f ∧ published f' = published f ∧ saved f' = saved f ∧ length (notices f') = S (length (notices f))).
Proof.
  intros Hb Hn Hes. cbv zeta. set (f := form_events _ _). set (name := binding_alias b) in *.
  assert (form_of p def dom name f) as Hf
    by exact (form_events_of p def dom name es _ Hes (open_form_of p def dom b bs rec meta Hb)).
  split; [by apply (save_request_spec p def dom name f)|]. split.
  - intros r Hr. pose proof Hf as [H1 _ _ H4 _].
    set (f' := save_answered _ f).
    assert (form_of p def dom name f') as Hf' by by apply save_answered_of.
    assert (∀ k, assoc_get (under name k) (values (f_state f')) =
                 assoc_get (under name k) (values (refreshFromRecord name (Some r) (f_state f)))) as Hst
      by (intros k; unfold f'; cbn [save_answered dataMutate mutate_error]; unfold save_answered; cbn; by rewrite H4).
    split_and!.
    + intros k v Hin Hv. rewrite Hst. by apply refresh_get.
    + intros k Hnull. rewrite Hst. by apply refresh_other.
    + unfold f'. unfold save_answered. cbn [dataMutate mutate_error publish_changed published].
      unfold primaryDomainName. cbn [f_def stamp_saved with_state f_contextName]. by rewrite H1, Hb.
    + intros v Hin Hv Hid. destruct (save_request_spec p def dom name f' Hn Hf') as (_ & _ & Hop).
      rewrite Hst, (refresh_get name r _ _ v) in Hop by done. by rewrite Hid in Hop.
  - intros c e reply Hreply. unfold save_answered. rewrite Hreply. cbn [mutate_error].
    split_and!; try done. cbn [notice notices]. by rewrite length_app, Nat.add_1_r.
Qed.

(** ** A sample *)

Definition note_view : ViewDef :=
  MkViewDef #"note_detail" #"Notiz" [MkBinding #"note" #"n" true] false None [SaveItem; DeleteItem None; ExitItem] [].
Definition note_domain : DomainDef :=
  MkDomainDef #"note" #"note" #"demo" []
    [MkDomainFieldDef #"id" TInt true false None []; MkDomainFieldDef #"title" TString false true None [];
     MkDomainFieldDef #"created" TDatetime true false None []] [] [] [] [].
Definition new_note : DetailProps := MkProps #"detail:note_detail:new-1" #"note" #"note_detail" [] VUndef.
Definition note_record (title : str) : jsobj := [ (#"id", VNum (num_of_Z 7)); (#"title", VStr title); (#"created", VNull) ].

Lemma form_saves_witness :
  let f := form_events [Edited #"n.title" #"Milch"] (open_form new_note note_view note_domain (loaded #"n" [] [])) in
  m_op (save_request f) = OpInsert ∧
  m_id (save_request (save_answered (Ok (MkMutateReply (Some (note_record #"Milch")) None)) f)) = Some #"7".
Proof.
  destruct (form_saves new_note note_view note_domain (MkBinding #"note" #"n" true) [] [] []
    [Edited #"n.title" #"Milch"]) as ((_ & _ & Hop) & Hsave & _).
  - reflexivity.
  - apply (bool_decide_unpack _). vm_compute. exact I.
  - constructor; [exists #"title"; reflexivity|constructor].
  - cbv zeta. split; [exact (proj1 Hop)|].
    destruct (Hsave (note_record #"Milch")) as (_ & _ & _ & Hid).
    + apply (bool_decide_unpack _). vm_compute. exact I.
    + apply (Hid (VNum (num_of_Z 7))); [left|reflexivity|vm_compute; reflexivity].
Defined.

(** Two clicks on save before the first answer: the record is inserted twice. *)
Example saved_twice :
  m_op <$> sent (form_events [Edited #"n.title" #"Milch"; Toolbar SaveItem; Toolbar SaveItem]
                   (open_form new_note note_view note_domain newViewState)) = [OpInsert; OpInsert].
Proof. vm_compute. reflexivity. Qed.

(** What is typed while a save is under way is overwritten by its answer. *)
Example typed_while_saving :
  get #"n.title" (f_state
    (form_events [Edited #"n.title" #"Milch"; Toolbar SaveItem; Edited #"n.title" #"Milch und Brot";
                  SaveAnswered 0 (Ok (MkMutateReply (Some (note_record #"Milch")) None))]
       (open_form new_note note_view note_domain newViewState))) = #"Milch".
Proof. vm_compute. reflexivity. Qed.

(** The role is always empty, so the server denies every save. *)
Lemma role_is_empty es f : Forall (λ r, m_role r = []) (sent f) → Forall (λ r, m_role r = []) (sent (form_events es f)).
Proof.
  revert f. induction es as [|e es IH]; intros f Hf; [done|].
  change (form_events (e :: es) f) with (form_events es (form_event e f)). apply IH.
  destruct e as [k v|item|confirmed|i reply|i reply]; cbn [form_event].
  - by destruct (closed f).
  - destruct (closed f); [done|]. destruct item; try done; cbn [handleToolbar].
    + apply Forall_app_2; [done|by apply Forall_singleton].
    + unfold doConfirmDelete. by destruct (_ || _).
  - destruct (confirming f); [|done]. destruct confirmed; [|done].
    apply Forall_app_2; [done|by apply Forall_singleton].
  - destruct (saving f !! i); [|done]. unfold save_answered. by destruct (mutate_error _) as [[|c e]|].
  - destruct (deleting f !! i); [|done]. unfold delete_answered. by destruct (mutate_error _) as [[|c e]|].
Qed.
