(* ===== verification/EventBus.v ===== *)
(** The bus of domain events: [apps/oos/src/mainview/domain-events.ts].

    A channel is a JavaScript [Set] that its subscribers share and that a
    delivery walks while they may change it, so sets live in a store, as the
    list of entries the language keeps: a deleted entry stays as a hole until
    the walk is past it, a new one goes to the end. *)

From S2P Require Export JsValue.

#[local] Set Warnings "-register-all".

(** * Sets *)

(** A listener is known by an identity. *)

Definition set_has (l : nat) (s : list (option nat)) : bool := bool_decide (Some l ∈ s).
Definition set_add (l : nat) (s : list (option nat)) : list (option nat) := if set_has l s then s else s ++ [Some l].
Definition set_delete (l : nat) (s : list (option nat)) : list (option nat) :=
  (λ e, if decide (e = Some l) then None else e) <$> s.
Definition set_members (s : list (option nat)) : list nat := omap id s.
Definition set_size (s : list (option nat)) : nat := length (set_members s).

(** * The bus *)

(** [channels] by key, the sets by address, the calls made and the errors
    logged, in order. *)
Record Bus := MkBus {
  channels : list (str * nat); sets : list (list (option nat)); called : list nat; logged : list (nat * str) }.

Definition initial_bus : Bus := MkBus [] [] [] [].

Definition channelKey (domain event : str) : str := domain ++ #":" ++ event.

(** [subscribe]; what it returns is [unsubscribe] with the same arguments. *)
Definition subscribe (domain event : str) (l : nat) (b : Bus) : Bus :=
  let key := channelKey domain event in
  match assoc_get key (channels b) with
  | Some a => MkBus (channels b) (alter (set_add l) a (sets b)) (called b) (logged b)
  | None => MkBus (map_set key (length (sets b)) (channels b)) (sets b ++ [set_add l []]) (called b) (logged b)
  end.

Definition unsubscribe (domain event : str) (l : nat) (b : Bus) : Bus :=
  let key := channelKey domain event in
  match assoc_get key (channels b) with
  | Some a =>
    let s := set_delete l (default [] (sets b !! a)) in
    MkBus (if bool_decide (set_size s = 0) then map_delete key (channels b) else channels b)
      (<[a := s]> (sets b)) (called b) (logged b)
  | None => b
  end.

(** What a listener does to the bus while it runs, before it returns or
    throws. *)
Inductive BusCall := Subscribes (domain event : str) (l : nat) | Unsubscribes (domain event : str) (l : nat).

Definition bus_call (c : BusCall) (b : Bus) : Bus :=
  match c with Subscribes d e l => subscribe d e l b | Unsubscribes d e l => unsubscribe d e l b end.
Definition bus_calls (cs : list BusCall) (b : Bus) : Bus := foldl (λ b c, bus_call c b) b cs.

Section delivery.
(** What each listener does, and whether it throws; the bus logs the error
    and goes on either way. *)
Context (body : nat → list BusCall * option str).

Definition call (l : nat) (b : Bus) : Bus :=
  let b := bus_calls (body l).1 (MkBus (channels b) (sets b) (called b ++ [l]) (logged b)) in
  match (body l).2 with
  | Some err => MkBus (channels b) (sets b) (called b) (logged b ++ [(l, err)])
  | None => b
  end.

(** The walk over the set at [a], from its [i]-th entry; [None] when [fuel]
    does not reach the end. *)
Fixpoint walk (fuel : nat) (a i : nat) (b : Bus) : option Bus :=
  match fuel with
  | O => None
  | S fuel =>
    match default [] (sets b !! a) !! i with
    | None => Some b
    | Some None => walk fuel a (S i) b
    | Some (Some l) => walk fuel a (S i) (call l b)
    end
  end.

(** [publish] *)
Definition publish (fuel : nat) (domain event : str) (b : Bus) : option Bus :=
  match assoc_get (channelKey domain event) (channels b) with
  | Some a => walk fuel a 0 b
  | None => Some b
  end.
End delivery.

(** Whom an event reaches. *)
Definition subscribers (domain event : str) (b : Bus) : list nat :=
  match assoc_get (channelKey domain event) (channels b) with
  | Some a => set_members (default [] (sets b !! a))
  | None => []
  end.

(** A listener that leaves and comes back while it is called is called again:
    the delivery never ends. *)
Definition returning (l : nat) : list BusCall * option str :=
  ([Unsubscribes #"note" #"changed" l; Subscribes #"note" #"changed" l], None).
Example returning_listener :
  publish returning 100 #"note" #"changed" (subscribe #"note" #"changed" 1 (subscribe #"note" #"changed" 2 initial_bus)) = None.
Proof. vm_compute. reflexivity. Qed.

(** Two subscriptions of one listener are one: the first to go ends both. *)
Example shared_subscription :
  subscribers #"note" #"changed"
    (unsubscribe #"note" #"changed" 1 (subscribe #"note" #"changed" 1 (subscribe #"note" #"changed" 1 initial_bus))) = [].
Proof. vm_compute. reflexivity. Qed.

(** * Who is subscribed *)

(** The subscribers of a channel after some calls, in the order they came. *)
Definition register (key : str) (c : BusCall) (ls : list nat) : list nat :=
  match c with
  | Subscribes d e l => if bool_decide (channelKey d e = key ∧ l ∉ ls) then ls ++ [l] else ls
  | Unsubscribes d e l => if bool_decide (channelKey d e = key) then filter (λ x, x ≠ l) ls else ls
  end.
Definition registered (key : str) (cs : list BusCall) : list nat := foldl (λ ls c, register key c ls) [] cs.

Lemma members_app s1 s2 : set_members (s1 ++ s2) = set_members s1 ++ set_members s2.
Proof. unfold set_members. by rewrite omap_app. Qed.

Lemma elem_of_members l s : l ∈ set_members s ↔ Some l ∈ s.
Proof. unfold set_members. rewrite list_elem_of_omap. split; [|by exists (Some l)].
  by intros (x & Hx & [= ->]). Qed.

Lemma members_add l s :
  set_members (set_add l s) = if bool_decide (l ∈ set_members s) then set_members s else set_members s ++ [l].
Proof.
  unfold set_add, set_has. rewrite (bool_decide_ext _ _ (elem_of_members l s)).
  destruct (bool_decide (Some l ∈ s)); [done|]. by rewrite members_app.
Qed.

Lemma members_delete l s : set_members (set_delete l s) = filter (λ x, x ≠ l) (set_members s).
Proof.
  unfold set_members, set_delete. induction s as [|[x|] s IH]; [done| |exact IH].
  cbn [fmap list_fmap omap list_omap id]. destruct (decide (Some x = Some l)) as [[= ->]|Hne].
  - rewrite filter_cons_False by by intros []. exact IH.
  - rewrite filter_cons_True by congruence. by rewrite <- IH.
Qed.

Lemma map_delete_NoDup {A} k (m : list (str * A)) : NoDup m.*1 → NoDup (map_delete k m).*1.
Proof.
  unfold map_delete. induction m as [|p m IH]; [done|]. rewrite fmap_cons, NoDup_cons. intros [Hp Hm].
  rewrite filter_cons. destruct (decide _); [|by apply IH]. rewrite fmap_cons. apply NoDup_cons. split; [|by apply IH].
  intros (q & Hq & Hin)%list_elem_of_fmap. apply Hp. rewrite Hq. apply list_elem_of_filter in Hin as [_ Hin].
  by apply list_elem_of_fmap_2.
Qed.

(** The concrete bus keeps what is registered. *)
Record implements (reg : str → list nat) (b : Bus) : Prop := {
  im_keys : NoDup (channels b).*1;
  im_bound : ∀ k a, assoc_get k (channels b) = Some a → a < length (sets b);
  im_distinct : ∀ k k' a, assoc_get k (channels b) = Some a → assoc_get k' (channels b) = Some a → k = k';
  im_members : ∀ k, match assoc_get k (channels b) with
                    | Some a => ∃ s, sets b !! a = Some s ∧ set_members s = reg k ∧ reg k ≠ []
                    | None => reg k = []
                    end }.

Lemma subscribe_implements reg b d e l :
  implements reg b → implements (λ k, register k (Subscribes d e l) (reg k)) (subscribe d e l b).
Proof.
  intros [H1 H2 H3 H4]. unfold subscribe. set (key := channelKey d e). pose proof (H4 key) as Hkey.
  destruct (assoc_get key (channels b)) as [a|] eqn:E.
  - split; cbn [channels sets].
    + done.
    + intros k a' Ha. rewrite length_alter. by apply (H2 k).
    + done.
    + intros k. pose proof (H4 k) as Hk. destruct (assoc_get k (channels b)) as [a'|] eqn:Ek; cbn [register].
      * destruct (decide (k = key)) as [->|Hne].
        -- rewrite E in Ek. injection Ek as <-. destruct Hkey as (s & Hs & Hm & Hne).
           exists (set_add l s). rewrite list_lookup_alter_eq, Hs. split; [done|]. rewrite members_add, Hm.
           destruct (decide (l ∈ reg key)) as [Hin|Hin].
           ++ rewrite bool_decide_eq_true_2, bool_decide_eq_false_2 by tauto. done.
           ++ rewrite bool_decide_eq_false_2, bool_decide_eq_true_2 by tauto. split; [done|]. by destruct (reg key).
        -- rewrite bool_decide_eq_false_2 by (intros [Hc _]; by subst).
           rewrite list_lookup_alter_ne; [done|]. intros <-. apply Hne. by apply (H3 k key a).
      * rewrite bool_decide_eq_false_2; [done|]. intros [Hc _]. fold key in Hc. subst k. congruence.
  - assert (∀ k a, assoc_get k (channels b) = Some a → k ≠ key) as Hold by (intros k a Ha ->; congruence).
    split; cbn [channels sets].
    + by apply map_set_keys_NoDup.
    + intros k a. rewrite map_set_get, length_app, Nat.add_1_r. case_decide; [intros [= <-]; lia|].
      intros Ha. specialize (H2 k a Ha). lia.
    + intros k k' a. rewrite !map_set_get. do 2 case_decide; subst; try done.
      * intros [= <-] Ha. specialize (H2 _ _ Ha). lia.
      * intros Ha [= <-]. specialize (H2 _ _ Ha). lia.
      * apply H3.
    + intros k. rewrite map_set_get. pose proof (H4 k) as Hk. cbn [register]. case_decide as Hc.
      * subst k. exists [Some l]. rewrite lookup_app_r, Nat.sub_diag, Hkey by done. split; [done|].
        rewrite bool_decide_eq_true_2; [done|]. split; [done|]. by apply not_elem_of_nil.
      * rewrite bool_decide_eq_false_2 by (intros [? _]; by subst).
        destruct (assoc_get k (channels b)) as [a|] eqn:Ek; [|done]. by rewrite lookup_app_l by by apply (H2 k).
Qed.

Lemma unsubscribe_implements reg b d e l :
  implements reg b → implements (λ k, register k (Unsubscribes d e l) (reg k)) (unsubscribe d e l b).
Proof.
  intros [H1 H2 H3 H4]. unfold unsubscribe. set (key := channelKey d e). pose proof (H4 key) as Hkey.
  destruct (assoc_get key (channels b)) as [a|] eqn:E.
  - destruct Hkey as (s0 & Hs0 & Hm & Hne). rewrite Hs0.
    change (default [] (Some s0)) with s0. set (s := set_delete l s0).
    pose proof (H2 key a E) as Hlt.
    assert (set_members s = filter (λ x, x ≠ l) (reg key)) as Hs by (unfold s; by rewrite members_delete, Hm).
    assert (∀ k a', k ≠ key → assoc_get k (channels b) = Some a' → <[a:=s]> (sets b) !! a' = sets b !! a') as Hother.
    { intros k a' Hk Ha. rewrite list_lookup_insert_ne; [done|]. intros ->. apply Hk. by apply (H3 k key a'). }
    destruct (decide (set_size s = 0)) as [Hz|Hz].
    + rewrite bool_decide_eq_true_2 by done.
      assert (filter (λ x, x ≠ l) (reg key) = []) as Hnil by (rewrite <- Hs; by apply nil_length_inv).
      split; cbn [channels sets].
      * by apply map_delete_NoDup.
      * intros k a'. rewrite map_delete_get, length_insert. case_decide; [done|]. apply H2.
      * intros k k' a'. rewrite !map_delete_get. do 2 case_decide; try done. apply H3.
      * intros k. rewrite map_delete_get. pose proof (H4 k) as Hk. cbn [register]. case_decide as Hc.
        -- subst k. by rewrite bool_decide_eq_true_2.
        -- rewrite bool_decide_eq_false_2 by done. destruct (assoc_get k (channels b)) as [a'|] eqn:Ek; [|done].
           by rewrite (Hother k).
    + rewrite bool_decide_eq_false_2 by done. split; cbn [channels sets].
      * done.
      * intros k a' Ha. rewrite length_insert. by apply (H2 k).
      * done.
      * intros k. pose proof (H4 k) as Hk. destruct (assoc_get k (channels b)) as [a'|] eqn:Ek; cbn [register].
        -- destruct (decide (k = key)) as [->|Hc].
           ++ rewrite E in Ek. injection Ek as <-. exists s. rewrite list_lookup_insert_eq by done.
              rewrite bool_decide_eq_true_2 by done. split; [done|]. split; [done|].
              intros Hnil. apply Hz. unfold set_size. by rewrite Hs, Hnil.
           ++ rewrite bool_decide_eq_false_2 by done. by rewrite (Hother k).
        -- rewrite Hk. by destruct (bool_decide _).
  - split; [done..|]. intros k. pose proof (H4 k) as Hk. cbn [register].
    destruct (decide (k = key)) as [->|Hc].
    + rewrite E, Hkey. by rewrite bool_decide_eq_true_2.
    + by rewrite bool_decide_eq_false_2.
Qed.

Lemma bus_calls_implement reg b cs :
  implements reg b → implements (λ k, foldl (λ ls c, register k c ls) (reg k) cs) (bus_calls cs b).
Proof.
  revert reg b. induction cs as [|c cs IH]; intros reg b Hb; [done|].
  change (bus_calls (c :: cs) b) with (bus_calls cs (bus_call c b)). cbn [foldl].
  apply (IH (λ k, register k c (reg k))). destruct c; [by apply subscribe_implements|by apply unsubscribe_implements].
Qed.

Lemma initial_implements : implements (λ _, []) initial_bus.
Proof. split; [constructor|done..]. Qed.

(** * Delivery *)

Definition only_leaves (c : BusCall) : Prop := match c with Unsubscribes _ _ _ => True | Subscribes _ _ _ => False end.

Section delivery_laws.
Context (body : nat → list BusCall * option str).
(** Listeners may leave, and make others leave, but not subscribe. *)
Context (Hbody : ∀ l, Forall only_leaves (body l).1).

(** Whom the calls take off a channel. *)
Definition takes_off (key : str) (cs : list BusCall) : list nat :=
  omap (λ c, match c with
             | Unsubscribes d e l => if decide (channelKey d e = key) then Some l else None
             | Subscribes _ _ _ => None
             end) cs.

(** The reference: the subscribers in order, but for those an earlier listener
    took off. *)
Fixpoint reached (key : str) (gone : list nat) (ls : list nat) : list nat :=
  match ls with
  | [] => []
  | l :: ls =>
    if decide (l ∈ gone) then reached key gone ls
    else l :: reached key (gone ++ takes_off key (body l).1) ls
  end.

(** A set some of whose entries are gone. *)
Definition hide1 (gone : list nat) (e : option nat) : option nat :=
  match e with Some l => if decide (l ∈ gone) then None else Some l | None => None end.
Definition hide (gone : list nat) (s : list (option nat)) : list (option nat) := hide1 gone <$> s.

Lemma hide_delete gone l s : set_delete l (hide gone s) = hide (gone ++ [l]) s.
Proof.
  unfold set_delete, hide. rewrite <- list_fmap_compose. apply list_fmap_ext. intros i [x|] _; [|done].
  unfold compose. cbn [hide1]. destruct (decide (x ∈ gone)) as [Hx|Hx].
  - rewrite (decide_True _ _ (proj2 (elem_of_app gone [l] x) (or_introl Hx))). done.
  - destruct (decide (Some x = Some l)) as [[= ->]|Hne].
    + rewrite decide_True; [done|]. apply elem_of_app. right. by apply list_elem_of_singleton.
    + rewrite decide_False; [done|]. intros [Hg|Hg%list_elem_of_singleton]%elem_of_app; congruence.
Qed.

Lemma hide_empty gone l s : set_members (hide gone s) = [] → hide (gone ++ [l]) s = hide gone s.
Proof.
  rewrite <- hide_delete. generalize (hide gone s). intros t. unfold set_delete.
  induction t as [|[x|] t IH]; [done|discriminate 1|]. intros Hm. cbn [fmap list_fmap]. by rewrite IH.
Qed.

(** The walked set is what it was, but for who is gone; nobody else uses it. *)
Definition walked (key : str) (a : nat) (s0 : list (option nat)) (gone : list nat) (b : Bus) : Prop :=
  sets b !! a = Some (hide gone s0) ∧
  (assoc_get key (channels b) = Some a ∨
   assoc_get key (channels b) = None ∧ set_members (hide gone s0) = []) ∧
  ∀ k, k ≠ key → assoc_get k (channels b) ≠ Some a.

Lemma unsubscribe_walked key a s0 gone b d e l :
  walked key a s0 gone b →
  walked key a s0 (gone ++ takes_off key [Unsubscribes d e l]) (unsubscribe d e l b) ∧
  called (unsubscribe d e l b) = called b.
Proof.
  intros (Hs & Hk & Hother). cbn [takes_off omap list_omap]. unfold unsubscribe.
  destruct (decide (channelKey d e = key)) as [Hkey|Hkey].
  - rewrite Hkey. destruct Hk as [Hk|[Hk Hm]]; rewrite Hk.
    + rewrite Hs. change (default [] (Some (hide gone s0))) with (hide gone s0). rewrite hide_delete.
      split; [|done]. split_and!; cbn [sets channels].
      * apply list_lookup_insert_eq. by eapply lookup_lt_Some.
      * destruct (decide (set_size (hide (gone ++ [l]) s0) = 0)) as [Hz|Hz].
        -- right. rewrite bool_decide_eq_true_2 by done. rewrite map_delete_get, decide_True by done.
           split; [done|]. by apply nil_length_inv.
        -- left. by rewrite bool_decide_eq_false_2.
      * intros k Hne. destruct (bool_decide _); [rewrite map_delete_get, decide_False by done|]; by apply Hother.
    + split; [|done]. split_and!; [by rewrite hide_empty|right; by rewrite hide_empty|done].
  - rewrite app_nil_r. destruct (assoc_get (channelKey d e) (channels b)) as [a'|] eqn:E; [|done].
    assert (a' ≠ a) as Hne by (intros ->; by apply (Hother (channelKey d e))).
    split; [|done]. split_and!; cbn [sets channels].
    + by rewrite list_lookup_insert_ne.
    + destruct (bool_decide _); [rewrite map_delete_get, decide_False by done|]; done.
    + intros k Hk'. destruct (bool_decide _); [|by apply Hother].
      rewrite map_delete_get. case_decide; [done|by apply Hother].
Qed.

Lemma leaves_walked key a s0 cs gone b :
  Forall only_leaves cs → walked key a s0 gone b →
  walked key a s0 (gone ++ takes_off key cs) (bus_calls cs b) ∧ called (bus_calls cs b) = called b.
Proof.
  intros Hcs. revert gone b. induction Hcs as [|c cs Hc Hcs IH]; intros gone b Hb; [by rewrite app_nil_r|].
  destruct c as [|d e l]; [done|]. change (bus_calls (_ :: cs) b) with (bus_calls cs (unsubscribe d e l b)).
  destruct (unsubscribe_walked key a s0 gone b d e l Hb) as [Hb' Hc'].
  destruct (IH _ _ Hb') as [Hb'' Hc'']. rewrite Hc'', Hc'. split; [|done].
  rewrite <- app_assoc in Hb''. by change (takes_off key (Unsubscribes d e l :: cs)) with
    (takes_off key ([Unsubscribes d e l] ++ cs)); unfold takes_off in *; rewrite omap_app.
Qed.

Lemma call_walked key a s0 gone b l :
  walked key a s0 gone b →
  walked key a s0 (gone ++ takes_off key (body l).1) (call body l b) ∧ called (call body l b) = called b ++ [l].
Proof.
  intros Hb. unfold call.
  destruct (leaves_walked key a s0 (body l).1 gone (MkBus (channels b) (sets b) (called b ++ [l]) (logged b)) (Hbody l) Hb)
    as [Hw Hc].
  by destruct (body l).2.
Qed.

Lemma walk_reaches key a s0 fuel i gone b :
  i ≤ length s0 → length s0 < fuel + i → walked key a s0 gone b →
  ∃ b', walk body fuel a i b = Some b' ∧ called b' = called b ++ reached key gone (set_members (drop i s0)).
Proof.
  revert i gone b. induction fuel as [|fuel IH]; intros i gone b Hi Hf Hb.
  - lia.
  - pose proof Hb as (Hs & _). cbn [walk]. rewrite Hs. change (default [] (Some (hide gone s0))) with (hide gone s0).
    unfold hide. rewrite list_lookup_fmap. destruct (s0 !! i) as [e|] eqn:Ei; cbn [fmap option_fmap option_map].
    + pose proof (lookup_lt_Some _ _ _ Ei) as Hlt. rewrite (drop_S s0 e i Ei). destruct e as [l|]; cbn [hide1].
      * change (set_members (Some l :: drop (S i) s0)) with (l :: set_members (drop (S i) s0)). cbn [reached].
        destruct (decide (l ∈ gone)); [by apply IH; [lia|lia|]|].
        destruct (call_walked key a s0 gone b l Hb) as [Hb' Hc].
        destruct (IH (S i) _ _ ltac:(lia) ltac:(lia) Hb') as (b' & Hw & Hc'). exists b'. split; [done|].
        by rewrite Hc', Hc, <- app_assoc.
      * change (set_members (None :: drop (S i) s0)) with (set_members (drop (S i) s0)). by apply IH; [lia|lia|].
    + apply lookup_ge_None in Ei. exists b. split; [done|]. rewrite drop_ge by done. by rewrite app_nil_r.
Qed.
End delivery_laws.

(** Publishing reaches the subscribers.  After any subscriptions and their
    ends, publishing an event ends, whoever throws, and calls exactly the
    listeners registered on its channel, each once, in the order they
    subscribed, but for those that a listener called before them took off the
    channel; when no listener touches the bus, all of them. *)
Theorem publish_exact (body : nat → list BusCall * option str) cs domain event :
  (∀ l, Forall only_leaves (body l).1) →
  let b := bus_calls cs initial_bus in
  let key := channelKey domain event in
  subscribers domain event b = registered key cs ∧
  (∃ b' n, (∀ fuel, n ≤ fuel → publish body fuel domain event b = Some b') ∧
     called b' = called b ++ reached body key [] (registered key cs)) ∧
  ((∀ l, (body l).1 = []) → reached body key [] (registered key cs) = registered key cs).
Proof.
  intros Hbody. cbv zeta. set (key := channelKey domain event).
  pose proof (bus_calls_implement _ _ cs initial_implements) as Him. set (b := bus_calls cs initial_bus) in *.
  destruct Him as [_ _ Hdistinct Hmembers]. pose proof (Hmembers key) as Hkey. fold (registered key cs) in Hkey.
  unfold subscribers, publish. fold key. split_and!.
  - destruct (assoc_get key (channels b)) as [a|]; [|done]. by destruct Hkey as (s & -> & <- & _).
  - destruct (assoc_get key (channels b)) as [a|] eqn:E.
    + destruct Hkey as (s & Hs & Hm & _).
      assert (walked key a s [] b) as Hw.
      { assert (hide [] s = s) as Hid.
        { unfold hide. rewrite <- (list_fmap_id s) at 2. apply list_fmap_ext. by intros i [x|] _. }
        split_and!; [by rewrite Hid|by left|]. intros k Hne Ha. apply Hne. by apply (Hdistinct k key a). }
      destruct (walk_reaches body Hbody key a s (S (length s)) 0 [] b) as (b' & Hb' & Hc); [lia|lia|done|].
      exists b', (S (length s)). split; [|by rewrite Hc, drop_0, Hm].
      intros fuel Hf. destruct (walk_reaches body Hbody key a s fuel 0 [] b) as (b2 & Hb2 & _); [lia|lia|done|].
      rewrite Hb2. f_equal.
      assert (∀ n m i c c1 c2, walk body n a i c = Some c1 → walk body m a i c = Some c2 → c1 = c2) as Hdet.
      { clear. intros n. induction n as [|n IH]; intros [|m] i c c1 c2; cbn [walk]; try done.
        destruct (default [] (sets c !! a) !! i) as [[l|]|]; [apply IH|apply IH|congruence]. }
      by eapply Hdet.
    + exists b, 0. split; [done|]. by rewrite Hkey, app_nil_r.
  - intros Hnone. generalize (registered key cs). intros ls. induction ls as [|l ls IH]; [done|].
    cbn [reached]. rewrite decide_False by apply not_elem_of_nil. rewrite Hnone. cbn [app takes_off omap list_omap].
    by rewrite IH.
Qed.

(** Listener 2 throws, listener 1 ends the subscription of 3. *)
Definition sample_body (l : nat) : list BusCall * option str :=
  match l with
  | 1 => ([Unsubscribes #"note" #"changed" 3], None)
  | 2 => ([], Some #"boom")
  | _ => ([], None)
  end.
Definition sample_calls : list BusCall :=
  (λ l, Subscribes #"note" #"changed" l) <$> [2; 1; 3; 4; 1].

Lemma publish_exact_witness :
  ∃ b', publish sample_body 10 #"note" #"changed" (bus_calls sample_calls initial_bus) = Some b' ∧ called b' = [2; 1; 4].
Proof.
  destruct (publish_exact sample_body sample_calls #"note" #"changed") as (_ & (b' & n & Hf & Hc) & _).
  - intros [|[|[|l]]]; repeat constructor.
  - destruct (publish sample_body 10 #"note" #"changed" (bus_calls sample_calls initial_bus)) as [b2|] eqn:E;
      [|vm_compute in E; discriminate E].
    exists b2. split; [reflexivity|]. vm_compute in E. injection E as <-. reflexivity.
Defined.
