(* ===== verification/ListTab.v ===== *)
(** A list of records: the view tab of the application,
    [apps/oos/src/mainview/components/ViewRenderer.tsx], and how it follows the
    forms of its domain through the bus of domain events.

    A load that waits for an answer is part of the state, with the stamp of the
    effect that began it; an answer whose load is no longer the latest is
    dropped.  React runs an effect after the event that caused it; here it runs
    as part of that event. *)

From S2P Require Export RecordForm EventBus.

#[local] Set Warnings "-register-all".

(** * Loading *)

(** [buildRowsEnvelope] *)
Definition buildRowsEnvelope (def : ViewDef) (rows : list jsobj) : jsobj :=
  [(#"content", VObj [(envelope_alias def, VObj [(#"rows", VArr (VObj <$> rows))])])].

(** [fetchRows] *)
Definition fetchRows (reply : outcome QueryReply) : list jsobj :=
  let resp := dataQuery reply in match query_error resp with Some _ => [] | None => rows resp end.

(** The view is defined over other domains than the rows. *)
Definition domain_mismatch (contextName : str) (def : ViewDef) : bool :=
  negb (bool_decide (contextName = [])) && negb (bool_decide (view_domains def = [])) &&
  negb (bool_decide (contextName ∈ (binding_name <$> view_domains def))).

Inductive ListStage := Fallback | ListLoading | ReadyList (def : ViewDef) (state : ViewState).

(** A run of the load effect and what it waits for; [Served] has its rows. *)
Inductive LoadPhase :=
| AwaitView | AwaitParse | AwaitRows (def : ViewDef) | Served (def : ViewDef) (reply : outcome QueryReply).
Record Load := MkLoad { ld_stamp : nat; ld_phase : LoadPhase }.

Record ListTab := MkListTab {
  lt_contextName : str; lt_viewName : option str;
  stage : ListStage; stamp : nat; loads : list Load;
  opened : list (str * str * jsobj * jsval) }.      (** detail tabs asked for *)

Definition set_stage (g : ListStage) (t : ListTab) : ListTab :=
  MkListTab (lt_contextName t) (lt_viewName t) g (stamp t) (loads t) (opened t).
Definition set_loads (ls : list Load) (t : ListTab) : ListTab :=
  MkListTab (lt_contextName t) (lt_viewName t) (stage t) (stamp t) ls (opened t).

(** The load effect. *)
Definition load_effect (t : ListTab) : ListTab :=
  match lt_viewName t with
  | Some (_ :: _) =>
    MkListTab (lt_contextName t) (lt_viewName t) ListLoading (S (stamp t)) (loads t ++ [MkLoad (S (stamp t)) AwaitView])
      (opened t)
  | _ => set_stage Fallback t
  end.

Definition open_list (contextName : str) (viewName : option str) : ListTab :=
  load_effect (MkListTab contextName viewName Fallback 0 [] []).

(** The channel the tab listens on: none while it loads. *)
Definition subscription (t : ListTab) : option AutoRefreshDef :=
  match stage t with ReadyList def _ => view_autoRefresh def | _ => None end.

(** What happens to the load at [i] behind an await: dropped when it is not
    the latest, ended with a stage, or waiting for the next answer. *)
Definition resume_load (i : nat) (l : Load) (next : ListStage + LoadPhase) (t : ListTab) : ListTab :=
  if decide (ld_stamp l = stamp t) then
    match next with
    | inl g => set_stage g (set_loads (delete i (loads t)) t)
    | inr ph => set_loads (<[i := MkLoad (ld_stamp l) ph]> (loads t)) t
    end
  else set_loads (delete i (loads t)) t.

Definition after_view (e : JsonEnvelope) : ListStage + LoadPhase :=
  if envelope_failed e then inl Fallback
  else match pickSource (je_json e) with Some _ => inr AwaitParse | None => inl Fallback end.

Definition after_parse (contextName : str) (r : outcome (ParseResult ViewDef)) : ListStage + LoadPhase :=
  match r with
  | Ok p =>
    match parsed_def p with
    | Some def => if domain_mismatch contextName def then inl Fallback else inr (AwaitRows def)
    | None => inl Fallback
    end
  | Throw _ => inl Fallback
  end.

Definition after_rows (def : ViewDef) (reply : outcome QueryReply) : ListStage + LoadPhase :=
  match loadEnvelope (buildRowsEnvelope def (fetchRows reply)) newViewState with
  | Ok st => inl (ReadyList def st)
  | Throw _ => inl Fallback
  end.

(** * The tab *)

(** [pickBindLocalField] *)
Definition pickBindLocalField (navMods : list NavModifierDef) : option str :=
  match List.find (λ m, match m with BindDef _ => true | _ => false end) navMods with
  | Some (BindDef source) => Some (ref_field source)
  | _ => None
  end.

(** [coerceId] *)
Definition coerceId (v : jsval) : jsval :=
  match v with
  | VNum n => if is_finite n then VNum n else VUndef
  | VStr s => if bool_decide (trim s = []) then VUndef else VStr s
  | _ => VUndef
  end.

Definition ask_detail (viewName : str) (data : jsobj) (id : jsval) (t : ListTab) : ListTab :=
  MkListTab (lt_contextName t) (lt_viewName t) (stage t) (stamp t) (loads t)
    (opened t ++ [(lt_contextName t, viewName, data, id)]).

(** [handleAction]: a click on a row *)
Definition handleAction (a : ViewActionDef) (row : jsobj) (t : ListTab) : ListTab :=
  match action_event a with
  | OnSelect =>
    let id := match pickBindLocalField (action_navMods a) with
              | Some ((_ :: _) as field) => obj_get field row
              | _ => VUndef
              end in
    ask_detail (action_target a) row (coerceId id) t
  | _ => t
  end.

(** The list's own [handleToolbar] *)
Definition list_toolbar (item : ToolbarItemDef) (t : ListTab) : ListTab :=
  match item with
  | NewItem _ target _ => ask_detail target [] VUndef t
  | RefreshItem _ => load_effect t
  | SaveItem | DeleteItem _ | ExitItem => t
  end.

(** The listener the tab leaves on its channel. *)
Definition domain_event (domain event : str) (t : ListTab) : ListTab :=
  match subscription t with
  | Some r =>
    if decide (channelKey (refresh_domain r) (refresh_event r) = channelKey domain event) then load_effect t else t
  | None => t
  end.

(** * A list and a form

    One list tab and one form over the rows of one domain.  The server serves
    the rows of a load, or fails to, and applies a save or a delete to its rows,
    at any time between the request and its answer; an answer may be lost to
    an exception (a timeout), and the rows may change by someone else or by
    such a call that is applied late. *)

Record World := MkWorld {
  db : list jsobj; tab : ListTab; form : Form;
  saves : list (option MutateReply); deletes : list (option MutateReply);  (** what the server made of each call *)
  lost : bool;                          (** a change the tab was not told of, or told of behind the fetch of its latest load *)
  failed : bool }.                      (** the query of the latest load failed *)

(** The event reaches the tab. *)
Definition changed_reaches (events : list (str * str)) (t : ListTab) : ListTab :=
  foldl (λ t p, domain_event p.1 p.2 t) t events.

(** The latest load has its rows already. *)
Definition latest_served (t : ListTab) : bool :=
  existsb (λ l, bool_decide (ld_stamp l = stamp t) && match ld_phase l with Served _ _ => true | _ => false end) (loads t).

(** An event of the form, and what it publishes. *)
Definition form_world (e : FormEvent) (saves deletes : list (option MutateReply)) (w : World) : World :=
  let f := form_event e (form w) in
  let events := drop (length (published (form w))) (published f) in
  let t := changed_reaches events (tab w) in
  let reloads := negb (bool_decide (stamp t = stamp (tab w))) in
  MkWorld (db w) t f saves deletes
    (match events with
     | [] => lost w
     | _ => if reloads then false else lost w || latest_served t
     end) (negb reloads && failed w).

(** The tab shows rows, or has those it will show. *)
Definition holds_rows (t : ListTab) : bool :=
  latest_served t || match stage t with ReadyList _ _ => true | _ => false end.
(** The rows are no longer those the tab was told of. *)
Definition lose (w : World) : World :=
  MkWorld (db w) (tab w) (form w) (saves w) (deletes w) (lost w || holds_rows (tab w)) (failed w).

Inductive WorldEvent :=
| UserEdits (bindPath value : str)
| UserClicks (item : ToolbarItemDef)            (** on the form's toolbar *)
| UserAnswers (confirmed : bool)                (** in its delete dialog *)
| UserRefreshes                                 (** on the list's toolbar *)
| SaveApplied (i : nat) (rows : list jsobj) (record : option jsobj)
| SaveRefused (i : nat) (c : N) (error : str)
| DeleteApplied (i : nat) (rows : list jsobj)
| DeleteRefused (i : nat) (c : N) (error : str)
| SaveReturns (i : nat)
| DeleteReturns (i : nat)
| SaveFails (i : nat) (e : str)                 (** an exception for an answer, applied or not *)
| DeleteFails (i : nat) (e : str)
| OtherChange (rows : list jsobj)               (** by someone else, or by a call that had failed *)
| ViewArrives (i : nat) (e : JsonEnvelope)
| ParseArrives (i : nat) (r : outcome (ParseResult ViewDef))
| RowsServed (i : nat)
| RowsFailed (i : nat) (reply : outcome QueryReply)   (** refused, or an exception *)
| RowsArrive (i : nat).

(** The server made the change of a call. *)
Definition applied (call : option MutateReply) : bool :=
  match call with Some (MkMutateReply _ None) => true | _ => false end.

Definition with_tab (t : ListTab) (w : World) : World :=
  MkWorld (db w) t (form w) (saves w) (deletes w) (lost w) (failed w).
Definition fresh_tab (t : ListTab) (w : World) : World := MkWorld (db w) t (form w) (saves w) (deletes w) false false.
Definition with_failed (b : bool) (w : World) : World :=
  MkWorld (db w) (tab w) (form w) (saves w) (deletes w) (lost w) b.

(** The calls of the form after one of its events, none of them applied. *)
Definition new_calls (before after : list MutateRequest) (calls : list (option MutateReply)) : list (option MutateReply) :=
  calls ++ replicate (length after - length before) None.

Definition user_event (e : FormEvent) (w : World) : World :=
  form_world e (new_calls (saving (form w)) (saving (form_event e (form w))) (saves w))
    (new_calls (deleting (form w)) (deleting (form_event e (form w))) (deletes w)) w.

Definition on_load (i : nat) (f : Load → ListTab → ListTab) (w : World) : World :=
  match loads (tab w) !! i with Some l => with_tab (f l (tab w)) w | None => w end.

Definition world_event (e : WorldEvent) (w : World) : World :=
  match e with
  | UserEdits k v => user_event (Edited k v) w
  | UserClicks item => user_event (Toolbar item) w
  | UserAnswers confirmed => user_event (DialogClosed confirmed) w
  | UserRefreshes =>
    match stage (tab w) with
    | ReadyList _ _ =>
      let t := list_toolbar (RefreshItem []) (tab w) in
      if decide (stamp t = stamp (tab w)) then with_tab t w else fresh_tab t w
    | _ => w
    end
  | SaveApplied i rows r =>
    match saves w !! i with
    | Some None => MkWorld rows (tab w) (form w) (<[i := Some (MkMutateReply r None)]> (saves w)) (deletes w) (lost w) (failed w)
    | _ => w
    end
  | SaveRefused i c e =>
    match saves w !! i with
    | Some None => MkWorld (db w) (tab w) (form w) (<[i := Some (MkMutateReply None (Some (c :: e)))]> (saves w)) (deletes w) (lost w) (failed w)
    | _ => w
    end
  | DeleteApplied i rows =>
    match deletes w !! i with
    | Some None => MkWorld rows (tab w) (form w) (saves w) (<[i := Some (MkMutateReply None None)]> (deletes w)) (lost w) (failed w)
    | _ => w
    end
  | DeleteRefused i c e =>
    match deletes w !! i with
    | Some None => MkWorld (db w) (tab w) (form w) (saves w) (<[i := Some (MkMutateReply None (Some (c :: e)))]> (deletes w)) (lost w) (failed w)
    | _ => w
    end
  | SaveReturns i =>
    match saves w !! i with
    | Some (Some reply) => form_world (SaveAnswered i (Ok reply)) (delete i (saves w)) (deletes w) w
    | _ => w
    end
  | DeleteReturns i =>
    match deletes w !! i with
    | Some (Some reply) => form_world (DeleteAnswered i (Ok reply)) (saves w) (delete i (deletes w)) w
    | _ => w
    end
  | SaveFails i e =>
    match saves w !! i with
    | Some call => form_world (SaveAnswered i (Throw e)) (delete i (saves w)) (deletes w) (if applied call then lose w else w)
    | None => w
    end
  | DeleteFails i e =>
    match deletes w !! i with
    | Some call => form_world (DeleteAnswered i (Throw e)) (saves w) (delete i (deletes w)) (if applied call then lose w else w)
    | None => w
    end
  | OtherChange rows => let w := lose w in MkWorld rows (tab w) (form w) (saves w) (deletes w) (lost w) (failed w)
  | ViewArrives i e =>
    on_load i (λ l t, match ld_phase l with AwaitView => resume_load i l (after_view e) t | _ => t end) w
  | ParseArrives i r =>
    on_load i (λ l t, match ld_phase l with AwaitParse => resume_load i l (after_parse (lt_contextName t) r) t | _ => t end) w
  | RowsServed i =>
    on_load i (λ l t, match ld_phase l with
                      | AwaitRows def =>
                        set_loads (<[i := MkLoad (ld_stamp l) (Served def (Ok (MkQueryReply (Some (db w)) None None)))]> (loads t)) t
                      | _ => t
                      end) w
  | RowsFailed i reply =>
    match loads (tab w) !! i with
    | Some l =>
      match ld_phase l, query_error (dataQuery reply) with
      | AwaitRows def, Some _ =>
        with_failed (failed w || bool_decide (ld_stamp l = stamp (tab w)))
          (with_tab (set_loads (<[i := MkLoad (ld_stamp l) (Served def reply)]> (loads (tab w))) (tab w)) w)
      | _, _ => w
      end
    | None => w
    end
  | RowsArrive i =>
    on_load i (λ l t, match ld_phase l with Served def reply => resume_load i l (after_rows def reply) t | _ => t end) w
  end.
Definition world_events (es : list WorldEvent) (w : World) : World := foldl (λ w e, world_event e w) w es.

Definition open_world (rows : list jsobj) (contextName : str) (viewName : option str) (f : Form) : World :=
  MkWorld rows (open_list contextName viewName) f [] [] false false.

(** * The list follows the form *)

(** The view reloads on changes of the domain. *)
Definition follows (domain : str) (def : ViewDef) : Prop :=
  view_autoRefresh def = Some (MkAutoRefresh domain #"changed").

(** The server has applied a call whose answer the form has not seen. *)
Definition succeeded (call : option MutateReply) : Prop := ∃ r, call = Some (MkMutateReply r None).
Definition pending (w : World) : Prop := Exists succeeded (saves w) ∨ Exists succeeded (deletes w).

Definition excused (w : World) : Prop := pending w ∨ lost w = true.

(** The rows are the server's, or the tab cannot know better. *)
Definition accounts (w : World) (rs : list jsobj) : Prop := rs = db w ∨ excused w ∨ failed w = true ∧ rs = [].

Record world_ok (domain : str) (w : World) : Prop := {
  wo_domain : primaryDomainName (form w) = domain;
  wo_saves : length (saves w) = length (saving (form w));
  wo_deletes : length (deletes w) = length (deleting (form w));
  wo_stamps : Forall (λ l, ld_stamp l ≤ stamp (tab w)) (loads (tab w));
  wo_served : ∀ l def reply, l ∈ loads (tab w) → ld_stamp l = stamp (tab w) → ld_phase l = Served def reply →
                accounts w (fetchRows reply);
  wo_shown : ∀ def st, stage (tab w) = ReadyList def st → follows domain def →
                ∃ rows, loadEnvelope (buildRowsEnvelope def rows) newViewState = Ok st ∧ accounts w rows }.

Lemma primaryDomainName_event e f : primaryDomainName (form_event e f) = primaryDomainName f.
Proof.
  unfold primaryDomainName.
  assert (f_def (form_event e f) = f_def f ∧ f_contextName (form_event e f) = f_contextName f) as [-> ->]; [|done].
  destruct e as [k v|item|confirmed|i reply|i reply]; cbn [form_event].
  - by destruct (closed f).
  - destruct (closed f); [done|]. destruct item; try done. cbn [handleToolbar]. unfold doConfirmDelete. by destruct (_ || _).
  - destruct (confirming f); [|done]. by destruct confirmed.
  - destruct (saving f !! i); [|done]. unfold save_answered. by destruct (mutate_error _) as [[|c e]|].
  - destruct (deleting f !! i); [|done]. unfold delete_answered. by destruct (mutate_error _) as [[|c e]|].
Qed.

(** The calls of the form grow by the clicks of the user and shrink by answers. *)
Lemma user_calls e f :
  match e with SaveAnswered _ _ | DeleteAnswered _ _ => False | _ => True end →
  length (saving f) ≤ length (saving (form_event e f)) ∧ length (deleting f) ≤ length (deleting (form_event e f)) ∧
  published (form_event e f) = published f.
Proof.
  destruct e as [k v|item|confirmed|i reply|i reply]; cbn [form_event]; try done; intros _.
  - by destruct (closed f).
  - destruct (closed f); [done|]. destruct item; try done; cbn [handleToolbar].
    + cbn. rewrite length_app. split_and!; [lia|done|done].
    + unfold doConfirmDelete. by destruct (_ || _).
  - destruct (confirming f); [|done]. destruct confirmed; [|done]. cbn. rewrite length_app. split_and!; [done|lia|done].
Qed.

Lemma answered_calls i reply f call :
  saving f !! i = Some call →
  let f' := form_event (SaveAnswered i (Ok reply)) f in
  saving f' = delete i (saving f) ∧ deleting f' = deleting f ∧
  published f' = published f ++
    match mutate_error reply with Some (_ :: _) => [] | _ => [(primaryDomainName f, #"changed")] end.
Proof.
  intros Hi. cbv zeta. cbn [form_event]. rewrite Hi. unfold save_answered.
  destruct reply as [r [[|c e]|]]; cbn [dataMutate mutate_error]; rewrite ?app_nil_r; done.
Qed.

Lemma delete_answered_calls i reply f call :
  deleting f !! i = Some call →
  let f' := form_event (DeleteAnswered i (Ok reply)) f in
  saving f' = saving f ∧ deleting f' = delete i (deleting f) ∧
  published f' = published f ++
    match mutate_error reply with Some (_ :: _) => [] | _ => [(primaryDomainName f, #"changed")] end.
Proof.
  intros Hi. cbv zeta. cbn [form_event]. rewrite Hi. unfold delete_answered.
  destruct reply as [r [[|c e]|]]; cbn [dataMutate mutate_error]; rewrite ?app_nil_r; done.
Qed.

(** ** The tab under one event *)

(** A reload leaves nothing to be stale. *)
Lemma load_effect_fresh t :
  Forall (λ l, ld_stamp l ≤ stamp t) (loads t) →
  let t' := load_effect t in
  Forall (λ l, ld_stamp l ≤ stamp t') (loads t') ∧ (∀ def st, stage t' ≠ ReadyList def st) ∧
  (stamp t' = stamp t → loads t' = loads t) ∧
  (stamp t' ≠ stamp t → ∀ l, l ∈ loads t' → ld_stamp l = stamp t' → ld_phase l = AwaitView).
Proof.
  intros Hs. cbv zeta. unfold load_effect. destruct (lt_viewName t) as [[|c v]|]; [split_and!; done| |split_and!; done].
  cbn [stamp loads stage]. split_and!.
  - apply Forall_app_2; [|by apply Forall_singleton]. eapply Forall_impl; [exact Hs|]. cbn. lia.
  - done.
  - lia.
  - intros _ l [Hl|Hl]%elem_of_app Hst; [|by apply list_elem_of_singleton in Hl as ->].
    rewrite Forall_forall in Hs. specialize (Hs l Hl). lia.
Qed.

(** What one published event does to the tab. *)
Lemma domain_event_cases domain t :
  (domain_event domain #"changed" t = load_effect t) ∨
  (domain_event domain #"changed" t = t ∧ ∀ def st, stage t = ReadyList def st → ¬ follows domain def).
Proof.
  unfold domain_event, subscription. destruct (stage t) as [| |def st] eqn:E.
  - right. by split.
  - right. by split.
  - destruct (view_autoRefresh def) as [r|] eqn:Er.
    + destruct (decide _) as [|Hne]; [by left|right]. split; [done|]. intros def' st' [= <- <-] Hf.
      unfold follows in Hf. rewrite Er in Hf. injection Hf as ->. by apply Hne.
    + right. split; [done|]. intros def' st' [= <- <-] Hf. unfold follows in Hf. congruence.
Qed.

Lemma latest_served_true t l def reply :
  l ∈ loads t → ld_stamp l = stamp t → ld_phase l = Served def reply → latest_served t = true.
Proof.
  intros Hin Hs Hp. unfold latest_served. apply existsb_exists. exists l. split; [by apply list_elem_of_In|].
  by rewrite bool_decide_eq_true_2, Hp.
Qed.

(** ** The world under one event *)

Lemma holds_served t l def reply :
  l ∈ loads t → ld_stamp l = stamp t → ld_phase l = Served def reply → holds_rows t = true.
Proof. intros H1 H2 H3. unfold holds_rows. by rewrite (latest_served_true t l def reply). Qed.
Lemma holds_shown t def st : stage t = ReadyList def st → holds_rows t = true.
Proof. intros H. unfold holds_rows. rewrite H. apply orb_true_r. Qed.

(** What the tab is owed stays true where nothing it knows of is forgotten. *)
Lemma world_ok_weaken domain w w' :
  world_ok domain w → primaryDomainName (form w') = domain →
  length (saves w') = length (saving (form w')) → length (deletes w') = length (deleting (form w')) → tab w' = tab w →
  (∀ rs, holds_rows (tab w) = true → accounts w rs → accounts w' rs) → world_ok domain w'.
Proof.
  intros [_ _ _ H4 H5 H6] Hd Hs Hdl Ht Ha. split; try done; rewrite Ht; try done.
  - intros l def reply Hl Hst Hph. apply Ha; [by eapply holds_served|]. by eapply H5.
  - intros def st Hst Hf. destruct (H6 def st Hst Hf) as (rs & Hrs & Hx). exists rs. split; [done|]. apply Ha; [by eapply holds_shown|done].
Qed.

Lemma lose_ok domain w : world_ok domain w → world_ok domain (lose w).
Proof.
  intros Hw. pose proof Hw as [H1 H2 H3 _ _ _]. apply (world_ok_weaken domain w); try done.
  intros rs Hh _. right; left; right. cbn [lose lost]. rewrite Hh. apply orb_true_r.
Qed.
(** Whatever the rows become, a tab that lost track is owed nothing. *)
Lemma other_change_ok domain rs w :
  world_ok domain w → world_ok domain (world_event (OtherChange rs) w).
Proof.
  intros Hw. pose proof Hw as [H1 H2 H3 _ _ _]. apply (world_ok_weaken domain w); try done.
  intros x Hh _. right; left; right. cbn [world_event lose lost]. rewrite Hh. apply orb_true_r.
Qed.

Lemma form_world_quiet domain e sv dl w :
  world_ok domain w → published (form_event e (form w)) = published (form w) →
  length sv = length (saving (form_event e (form w))) → length dl = length (deleting (form_event e (form w))) →
  (pending w → (Exists succeeded sv ∨ Exists succeeded dl) ∨ (holds_rows (tab w) = true → lost w = true)) →
  world_ok domain (form_world e sv dl w).
Proof.
  intros Hw Hp Hsv Hdl Hpend. pose proof Hw as [H1 _ _ _ _ _].
  assert (drop (length (published (form w))) (published (form_event e (form w))) = []) as Hev
    by (rewrite Hp; by apply drop_ge).
  apply (world_ok_weaken domain w); unfold form_world; rewrite ?Hev; cbn [changed_reaches foldl form saves deletes tab]; try done.
  - by rewrite primaryDomainName_event.
  - intros rs Hh [?|[[Hpe|Hl]|Hf]].
    + by left.
    + right; left. destruct (Hpend Hpe) as [?|?]; [by left|right; auto].
    + right; left. by right.
    + right; right. cbn [failed]. by rewrite bool_decide_eq_true_2.
Qed.

Lemma form_world_change domain e sv dl w :
  world_ok domain w →
  published (form_event e (form w)) = published (form w) ++ [(domain, #"changed")] →
  length sv = length (saving (form_event e (form w))) → length dl = length (deleting (form_event e (form w))) →
  world_ok domain (form_world e sv dl w).
Proof.
  intros [H1 H2 H3 H4 H5 H6] Hp Hsv Hdl.
  assert (drop (length (published (form w))) (published (form_event e (form w))) = [(domain, #"changed")]) as Hev
    by (rewrite Hp; apply drop_app_length).
  unfold form_world. rewrite Hev. cbn [changed_reaches foldl fst snd].
  destruct (domain_event_cases domain (tab w)) as [->|[-> Hnot]].
  - destruct (load_effect_fresh (tab w) H4) as (Hst & Hnr & Hsame & Hnew).
    split; cbn [form saves deletes tab db]; [by rewrite primaryDomainName_event|done|done|done| |].
    + intros l def reply Hl Hs Hph. destruct (decide (stamp (load_effect (tab w)) = stamp (tab w))) as [He|Hne].
      * right; left. right. cbn [lost]. rewrite (latest_served_true _ l def reply), bool_decide_eq_true_2 by done.
        apply orb_true_r.
      * by rewrite (Hnew Hne l Hl Hs) in Hph.
    + intros def st Hs. by destruct (Hnr def st).
  - split; cbn [form saves deletes tab db]; [by rewrite primaryDomainName_event|done|done|done| |].
    + intros l def reply Hl Hs Hph. right; left. right. cbn [lost]. rewrite bool_decide_eq_true_2 by done.
      rewrite (latest_served_true _ l def reply) by done. apply orb_true_r.
    + intros def st Hs Hf. by destruct (Hnot def st Hs).
Qed.

Lemma new_calls_length before after calls :
  length calls = length before → length before ≤ length after → length (new_calls before after calls) = length after.
Proof. intros H1 H2. unfold new_calls. rewrite length_app, length_replicate. lia. Qed.

Lemma user_event_ok domain e w :
  match e with SaveAnswered _ _ | DeleteAnswered _ _ => False | _ => True end →
  world_ok domain w → world_ok domain (user_event e w).
Proof.
  intros He Hw. pose proof Hw as [_ H2 H3 _ _ _]. destruct (user_calls e (form w) He) as (Hs & Hd & Hp).
  apply form_world_quiet; [done|done|by apply new_calls_length|by apply new_calls_length|].
  unfold new_calls. intros [Hpe|Hpe]; left; [left|right]; apply Exists_app; by left.
Qed.

Lemma refused_pending i r c e (calls : list (option MutateReply)) :
  calls !! i = Some (Some (MkMutateReply r (Some (c :: e)))) → Exists succeeded calls → Exists succeeded (delete i calls).
Proof.
  rewrite !Exists_exists. intros Hi (x & Hx & r' & ->). exists (Some (MkMutateReply r' None)).
  split; [|by exists r']. by apply (elem_delete _ (Some (MkMutateReply r (Some (c :: e))))).
Qed.

Lemma delete_length {A} i (l : list A) x : l !! i = Some x → length (delete i l) = length l - 1.
Proof. intros Hi. rewrite length_delete; [done|]. by exists x. Qed.

(** Replies the server gives: the record, or a refusal. *)
Definition server_reply (call : option MutateReply) : Prop :=
  match call with
  | None => True
  | Some r => mutate_error r = None ∨ ∃ c e, mutate_error r = Some (c :: e)
  end.

Lemma save_returns_ok domain i w :
  Forall server_reply (saves w) → world_ok domain w → world_ok domain (world_event (SaveReturns i) w).
Proof.
  intros Hr Hw. pose proof Hw as [H1 H2 H3 _ _ _]. cbn [world_event].
  destruct (saves w !! i) as [[reply|]|] eqn:Ei; try done.
  assert (is_Some (saving (form w) !! i)) as [call Hcall].
  { apply lookup_lt_is_Some. rewrite <- H2. by eapply lookup_lt_Some. }
  destruct (answered_calls i reply (form w) call Hcall) as (Hs & Hd & Hp).
  assert (length (delete i (saves w)) = length (saving (form_event (SaveAnswered i (Ok reply)) (form w)))) as Hlen.
  { rewrite Hs. by rewrite (delete_length i _ _ Ei), (delete_length i _ _ Hcall), H2. }
  destruct (Forall_lookup_1 _ _ _ _ Hr Ei) as [He|(c & e & He)]; rewrite He in Hp.
  - rewrite H1 in Hp. apply form_world_change; [done|done|done|by rewrite Hd].
  - rewrite app_nil_r in Hp. apply form_world_quiet; [done|done|done|by rewrite Hd|].
    intros [Hpe|Hpe]; left; [left|by right]. destruct reply as [r err]. cbn [mutate_error] in He. subst err.
    by eapply refused_pending.
Qed.

Lemma delete_returns_ok domain i w :
  Forall server_reply (deletes w) → world_ok domain w → world_ok domain (world_event (DeleteReturns i) w).
Proof.
  intros Hr Hw. pose proof Hw as [H1 H2 H3 _ _ _]. cbn [world_event].
  destruct (deletes w !! i) as [[reply|]|] eqn:Ei; try done.
  assert (is_Some (deleting (form w) !! i)) as [call Hcall].
  { apply lookup_lt_is_Some. rewrite <- H3. by eapply lookup_lt_Some. }
  destruct (delete_answered_calls i reply (form w) call Hcall) as (Hs & Hd & Hp).
  assert (length (delete i (deletes w)) = length (deleting (form_event (DeleteAnswered i (Ok reply)) (form w)))) as Hlen.
  { rewrite Hd. by rewrite (delete_length i _ _ Ei), (delete_length i _ _ Hcall), H3. }
  destruct (Forall_lookup_1 _ _ _ _ Hr Ei) as [He|(c & e & He)]; rewrite He in Hp.
  - rewrite H1 in Hp. apply form_world_change; [done|done|by rewrite Hs|done].
  - rewrite app_nil_r in Hp. apply form_world_quiet; [done|done|by rewrite Hs|done|].
    intros [Hpe|Hpe]; left; [by left|right]. destruct reply as [r err]. cbn [mutate_error] in He. subst err.
    by eapply refused_pending.
Qed.

(** The server takes or refuses a call. *)
Lemma insert_pending i r (calls : list (option MutateReply)) :
  calls !! i = Some None → Exists succeeded calls → Exists succeeded (<[i := Some r]> calls).
Proof.
  rewrite !Exists_exists. intros Hi (x & Hx & r' & ->). exists (Some (MkMutateReply r' None)). split; [|by exists r'].
  apply list_elem_of_lookup in Hx as [j Hj]. apply list_elem_of_lookup. exists j.
  rewrite list_lookup_insert_ne; [done|]. intros ->. congruence.
Qed.

Lemma applied_pending i r (calls : list (option MutateReply)) :
  calls !! i = Some None → Exists succeeded (<[i := Some (MkMutateReply r None)]> calls).
Proof.
  intros Hi. apply Exists_exists. exists (Some (MkMutateReply r None)). split; [|by exists r].
  apply list_elem_of_lookup. exists i. apply list_lookup_insert_eq. by eapply lookup_lt_Some.
Qed.

(** The state of the server and its calls changes, the rest stays. *)
Lemma server_ok domain w rs sv dl :
  world_ok domain w → length sv = length (saves w) → length dl = length (deletes w) →
  (let w' := MkWorld rs (tab w) (form w) sv dl (lost w) (failed w) in
   pending w' ∨ rs = db w ∧ (pending w → pending w')) →
  world_ok domain (MkWorld rs (tab w) (form w) sv dl (lost w) (failed w)).
Proof.
  cbv zeta. intros Hw Hs Hd Hp. pose proof Hw as [H1 H2 H3 _ _ _].
  apply (world_ok_weaken domain w); [done|done|exact (eq_trans Hs H2)|exact (eq_trans Hd H3)|done|].
  intros x _ Hx. destruct Hp as [Hp|[-> Hp]]; [right; left; by left|].
  destruct Hx as [?|[[?|?]|?]]; [by left|right; left; left; auto|right; left; by right|by right; right].
Qed.

(** The answer to a call is an exception. *)
Lemma save_thrown_calls i e f call :
  saving f !! i = Some call →
  let f' := form_event (SaveAnswered i (Throw e)) f in
  saving f' = delete i (saving f) ∧ deleting f' = deleting f ∧
  published f' = published f ++ match e with _ :: _ => [] | [] => [(primaryDomainName f, #"changed")] end.
Proof.
  intros Hi. cbv zeta. cbn [form_event]. rewrite Hi. unfold save_answered.
  destruct e as [|c e]; cbn [dataMutate mutate_error]; rewrite ?app_nil_r; done.
Qed.
Lemma delete_thrown_calls i e f call :
  deleting f !! i = Some call →
  let f' := form_event (DeleteAnswered i (Throw e)) f in
  saving f' = saving f ∧ deleting f' = delete i (deleting f) ∧
  published f' = published f ++ match e with _ :: _ => [] | [] => [(primaryDomainName f, #"changed")] end.
Proof.
  intros Hi. cbv zeta. cbn [form_event]. rewrite Hi. unfold delete_answered.
  destruct e as [|c e]; cbn [dataMutate mutate_error]; rewrite ?app_nil_r; done.
Qed.
Lemma unapplied_pending i call (calls : list (option MutateReply)) :
  calls !! i = Some call → applied call = false → Exists succeeded calls → Exists succeeded (delete i calls).
Proof.
  rewrite !Exists_exists. intros Hi Ha (x & Hx & r' & ->). exists (Some (MkMutateReply r' None)).
  split; [|by exists r']. apply (elem_delete _ call); [done|done|]. intros <-. discriminate Ha.
Qed.
(** An exception for an answer: what the form was not told of, the tab lost. *)
Lemma thrown_ok domain (e : FormEvent) (text : str) sv dl (call : option MutateReply) w :
  world_ok domain w →
  length sv = length (saving (form_event e (form w))) → length dl = length (deleting (form_event e (form w))) →
  published (form_event e (form w)) = published (form w) ++ match text with _ :: _ => [] | [] => [(primaryDomainName (form w), #"changed")] end →
  (applied call = false → pending w → Exists succeeded sv ∨ Exists succeeded dl) →
  world_ok domain (form_world e sv dl (if applied call then lose w else w)).
Proof.
  intros Hw Hs Hd Hp Ha. pose proof Hw as [H1 _ _ _ _ _]. set (w' := if applied call then lose w else w).
  assert (world_ok domain w') as Hw' by (unfold w'; destruct (applied call); [by apply lose_ok|done]).
  assert (form w' = form w) as Ef by (unfold w'; by destruct (applied call)). rewrite <- Ef in Hs, Hd, Hp.
  destruct text as [|c text].
  - apply form_world_change; [done| |done|done]. rewrite Hp, Ef. by rewrite H1.
  - rewrite app_nil_r in Hp. apply form_world_quiet; [done|done|done|done|]. intros Hpe. unfold w' in *. destruct (applied call).
    + right. intros Hh. cbn [lose lost]. cbn [lose tab] in Hh. rewrite Hh. apply orb_true_r.
    + left. by apply Ha.
Qed.

(** A load goes on. *)
Definition good_next (w : World) (next : ListStage + LoadPhase) : Prop :=
  match next with
  | inl (ReadyList def st) =>
    ∃ rs, loadEnvelope (buildRowsEnvelope def rs) newViewState = Ok st ∧ accounts w rs
  | inl _ => True
  | inr (Served _ reply) => accounts w (fetchRows reply)
  | inr _ => True
  end.

Lemma insert_load_ok domain w i l ph :
  world_ok domain w → loads (tab w) !! i = Some l → (ld_stamp l = stamp (tab w) → good_next w (inr ph)) →
  world_ok domain (with_tab (set_loads (<[i := MkLoad (ld_stamp l) ph]> (loads (tab w))) (tab w)) w).
Proof.
  intros [H1 H2 H3 H4 H5 H6] Hi Hn.
  split; cbn [with_tab set_loads tab form saves deletes db stage loads stamp]; try done.
  - apply Forall_insert; [done|]. cbn [ld_stamp]. by apply (Forall_lookup_1 _ _ _ _ H4 Hi).
  - intros x def reply Hx Hst Hph. apply list_elem_of_lookup in Hx as [j Hj].
    destruct (decide (j = i)) as [->|Hne].
    + rewrite list_lookup_insert_eq in Hj by by eapply lookup_lt_Some. injection Hj as <-.
      cbn [ld_phase ld_stamp] in Hph, Hst. subst ph. by apply Hn.
    + rewrite list_lookup_insert_ne in Hj by done. apply (H5 x def reply); [|done|done].
      apply list_elem_of_lookup. by exists j.
Qed.

Lemma resume_ok domain w i l next :
  world_ok domain w → loads (tab w) !! i = Some l → good_next w next →
  world_ok domain (with_tab (resume_load i l next (tab w)) w).
Proof.
  intros [H1 H2 H3 H4 H5 H6] Hi Hn. unfold resume_load.
  assert (∀ x, x ∈ delete i (loads (tab w)) → x ∈ loads (tab w)) as Hdel.
  { intros x. rewrite delete_take_drop. intros [H|H]%elem_of_app; [|];
      apply list_elem_of_lookup in H as [j Hj]; apply list_elem_of_lookup.
    - apply lookup_take_Some in Hj as [Hj _]. by exists j.
    - rewrite lookup_drop in Hj. by eexists. }
  assert (Forall (λ l, ld_stamp l ≤ stamp (tab w)) (delete i (loads (tab w)))) as Hfd by by apply Forall_delete.
  destruct (decide (ld_stamp l = stamp (tab w))) as [Hs|Hs].
  - destruct next as [g|ph].
    + split; cbn [with_tab set_stage set_loads tab form saves deletes db stage loads stamp]; try done.
      * intros x def reply Hx Hst Hph. by apply (H5 x def reply (Hdel x Hx)).
      * intros def st -> _. exact Hn.
    + apply insert_load_ok; [done..|]. by intros _.
  - split; cbn [with_tab set_loads tab form saves deletes db stage loads stamp]; try done.
    intros x def reply Hx Hst Hph. by apply (H5 x def reply (Hdel x Hx)).
Qed.

Lemma fetched_rows w : fetchRows (Ok (MkQueryReply (Some (db w)) None None)) = db w.
Proof. reflexivity. Qed.

Lemma on_load_ok domain i (f : Load → ListTab → ListTab) w :
  world_ok domain w →
  (∀ l, loads (tab w) !! i = Some l → world_ok domain (with_tab (f l (tab w)) w)) →
  world_ok domain (on_load i f w).
Proof. intros Hw Hf. unfold on_load. destruct (loads (tab w) !! i) as [l|] eqn:E; [by apply Hf|done]. Qed.

Lemma same_tab_ok domain w : world_ok domain w → world_ok domain (with_tab (tab w) w).
Proof. by destruct w. Qed.

Lemma refresh_ok domain w :
  world_ok domain w →
  let t := load_effect (tab w) in
  world_ok domain (if decide (stamp t = stamp (tab w)) then with_tab t w else fresh_tab t w).
Proof.
  intros [H1 H2 H3 H4 H5 H6]. cbv zeta. destruct (load_effect_fresh (tab w) H4) as (Hst & Hnr & Hsame & Hnew).
  destruct (decide (stamp (load_effect (tab w)) = stamp (tab w))) as [He|Hne];
    (split; cbn [with_tab fresh_tab form saves deletes tab db]; [done|done|done|done| |]).
  - intros l def reply Hl Hs Hph. rewrite (Hsame He) in Hl. rewrite He in Hs. exact (H5 l def reply Hl Hs Hph).
  - intros def st Hs. by destruct (Hnr def st).
  - intros l def reply Hl Hs Hph. by rewrite (Hnew Hne l Hl Hs) in Hph.
  - intros def st Hs. by destruct (Hnr def st).
Qed.

(** The query of a load fails: if it is the latest, the tab is owed no rows. *)
Lemma rows_failed_ok domain i reply w : world_ok domain w → world_ok domain (world_event (RowsFailed i reply) w).
Proof.
  intros Hw. cbn [world_event]. destruct (loads (tab w) !! i) as [l|] eqn:Hl; [|done].
  destruct (ld_phase l) as [| |def|def r] eqn:Eph; try done. destruct (query_error (dataQuery reply)) as [e|] eqn:Ee; [|done].
  assert (world_ok domain (with_failed (failed w || bool_decide (ld_stamp l = stamp (tab w))) w)) as Hw'.
  { pose proof Hw as [H1 H2 H3 _ _ _]. apply (world_ok_weaken domain w); try done.
    intros rs _ [?|[?|[Hf ?]]]; [by left|by right; left|right; right; split; [|done]]. cbn [with_failed failed]. by rewrite Hf. }
  assert (∀ b, with_failed b (with_tab (set_loads (<[i:=MkLoad (ld_stamp l) (Served def reply)]> (loads (tab w))) (tab w)) w) =
          with_tab (set_loads (<[i:=MkLoad (ld_stamp l) (Served def reply)]> (loads (tab (with_failed b w)))) (tab (with_failed b w))) (with_failed b w)) as ->
    by done.
  apply insert_load_ok; [done|done|]. intros Hs. right; right. cbn [with_failed failed tab] in *.
  rewrite (bool_decide_eq_true_2 _ Hs), orb_true_r. split; [done|]. unfold fetchRows. by rewrite Ee.
Qed.

Lemma save_fails_ok domain i e w : world_ok domain w → world_ok domain (world_event (SaveFails i e) w).
Proof.
  intros Hw. pose proof Hw as [H1 H2 H3 _ _ _]. cbn [world_event]. destruct (saves w !! i) as [call|] eqn:Ei; [|done].
  assert (is_Some (saving (form w) !! i)) as [r Hr].
  { apply lookup_lt_is_Some. rewrite <- H2. by eapply lookup_lt_Some. }
  destruct (save_thrown_calls i e (form w) r Hr) as (Hs & Hd & Hp). apply (thrown_ok domain _ e); [done| |by rewrite Hd|done|].
  - rewrite Hs. by rewrite (delete_length i _ _ Ei), (delete_length i _ _ Hr), H2.
  - intros Ha [Hpe|Hpe]; [left|by right]. by apply (unapplied_pending i call).
Qed.
Lemma delete_fails_ok domain i e w : world_ok domain w → world_ok domain (world_event (DeleteFails i e) w).
Proof.
  intros Hw. pose proof Hw as [H1 H2 H3 _ _ _]. cbn [world_event]. destruct (deletes w !! i) as [call|] eqn:Ei; [|done].
  assert (is_Some (deleting (form w) !! i)) as [r Hr].
  { apply lookup_lt_is_Some. rewrite <- H3. by eapply lookup_lt_Some. }
  destruct (delete_thrown_calls i e (form w) r Hr) as (Hs & Hd & Hp). apply (thrown_ok domain _ e); [done|by rewrite Hs| |done|].
  - rewrite Hd. by rewrite (delete_length i _ _ Ei), (delete_length i _ _ Hr), H3.
  - intros Ha [Hpe|Hpe]; [by left|right]. by apply (unapplied_pending i call).
Qed.

Definition replies_ok (w : World) : Prop := Forall server_reply (saves w) ∧ Forall server_reply (deletes w).

Lemma world_event_ok domain e w :
  world_ok domain w → replies_ok w → world_ok domain (world_event e w) ∧ replies_ok (world_event e w).
Proof.
  intros Hw Hr. pose proof Hr as [Hrs Hrd]. pose proof Hw as [H1 H2 H3 H4 H5 H6].
  assert (∀ before after calls, Forall server_reply calls → Forall server_reply (new_calls before after calls)) as Hnew.
  { intros before after calls Hc. apply Forall_app_2; [done|]. by apply Forall_replicate. }
  assert (∀ i f, replies_ok (on_load i f w)) as Hload by (intros i f; unfold on_load; by destruct (_ !! _)).
  destruct e as [k v|item|confirmed| |i rs r|i c e|i rs|i c e|i|i|i e|i e|rs|i e|i r|i|i r|i]; cbn [world_event].
  - split; [by apply user_event_ok|split; by apply Hnew].
  - split; [by apply user_event_ok|split; by apply Hnew].
  - split; [by apply user_event_ok|split; by apply Hnew].
  - destruct (stage (tab w)) eqn:E; try done. split; [by apply refresh_ok|]. cbv zeta. by destruct (decide _).
  - destruct (saves w !! i) as [[r'|]|] eqn:Ei; try done. split.
    + apply server_ok; [done|by rewrite length_insert|done|]. left. left. by apply applied_pending.
    + split; [|done]. apply Forall_insert; [done|]. by left.
  - destruct (saves w !! i) as [[r'|]|] eqn:Ei; try done. split.
    + apply server_ok; [done|by rewrite length_insert|done|]. right. split; [done|].
      intros [Hp|Hp]; [left|by right]. by apply insert_pending.
    + split; [|done]. apply Forall_insert; [done|]. right. by eexists _, _.
  - destruct (deletes w !! i) as [[r'|]|] eqn:Ei; try done. split.
    + apply server_ok; [done|done|by rewrite length_insert|]. left. right. by apply applied_pending.
    + split; [done|]. apply Forall_insert; [done|]. by left.
  - destruct (deletes w !! i) as [[r'|]|] eqn:Ei; try done. split.
    + apply server_ok; [done|done|by rewrite length_insert|]. right. split; [done|].
      intros [Hp|Hp]; [by left|right]. by apply insert_pending.
    + split; [done|]. apply Forall_insert; [done|]. right. by eexists _, _.
  - split; [by apply save_returns_ok|]. destruct (saves w !! i) as [[r'|]|]; try done.
    split; [by apply Forall_delete|done].
  - split; [by apply delete_returns_ok|]. destruct (deletes w !! i) as [[r'|]|]; try done.
    split; [done|by apply Forall_delete].
  - split; [by apply save_fails_ok|]. destruct (saves w !! i) as [call|]; [|done]. split; [by apply Forall_delete|by destruct (applied call)].
  - split; [by apply delete_fails_ok|]. destruct (deletes w !! i) as [call|]; [|done]. split; [by destruct (applied call)|by apply Forall_delete].
  - split; [by apply other_change_ok|done].
  - split; [|done]. apply on_load_ok; [done|]. intros l Hl. destruct (ld_phase l); try by apply same_tab_ok.
    apply (resume_ok domain); [done|done|]. unfold after_view. destruct (envelope_failed e); [done|]. by destruct (pickSource _).
  - split; [|done]. apply on_load_ok; [done|]. intros l Hl. destruct (ld_phase l); try by apply same_tab_ok.
    apply (resume_ok domain); [done|done|]. unfold after_parse. destruct r as [p|]; [|done].
    destruct (parsed_def p); [|done]. by destruct (domain_mismatch _ _).
  - split; [|done]. apply on_load_ok; [done|]. intros l Hl. destruct (ld_phase l) as [| |def|def reply]; try by apply same_tab_ok.
    apply insert_load_ok; [done|done|]. intros _. by left.
  - split; [by apply rows_failed_ok|]. destruct (loads (tab w) !! i) as [l|]; [|done]. destruct (ld_phase l); try done. by destruct (query_error _).
  - split; [|done]. apply on_load_ok; [done|]. intros l Hl. destruct (ld_phase l) as [| |def|def reply] eqn:Eph; try by apply same_tab_ok.
    destruct (decide (ld_stamp l = stamp (tab w))) as [Hs|Hs].
    + apply (resume_ok domain); [done|done|]. unfold after_rows.
      destruct (loadEnvelope _ _) as [st|] eqn:El; [|done]. exists (fetchRows reply). split; [done|].
      apply (H5 l def reply); [|done|done]. apply list_elem_of_lookup. by exists i.
    + unfold resume_load. rewrite decide_False by done.
      pose proof (resume_ok domain w i l (inl Fallback) Hw Hl I) as H. unfold resume_load in H.
      by rewrite decide_False in H.
Qed.

Lemma world_events_ok domain es w :
  world_ok domain w → replies_ok w → world_ok domain (world_events es w).
Proof.
  revert w. induction es as [|e es IH]; intros w Hw Hr; [done|].
  change (world_events (e :: es) w) with (world_events es (world_event e w)).
  destruct (world_event_ok domain e w Hw Hr). by apply IH.
Qed.

Lemma open_world_ok rows contextName viewName p def dom st :
  world_ok (primaryDomainName (open_form p def dom st))
    (open_world rows contextName viewName (open_form p def dom st)) ∧
  replies_ok (open_world rows contextName viewName (open_form p def dom st)).
Proof.
  assert (∀ c v, open_list contextName (Some (c :: v)) =
            MkListTab contextName (Some (c :: v)) ListLoading 1 [MkLoad 1 AwaitView] []) as Hlist by done.
  assert (∀ o, match o with Some (_ :: _) => False | _ => True end →
            open_list contextName o = MkListTab contextName o Fallback 0 [] []) as Hnone by (by intros [[|c v]|]).
  split; [|by split; constructor]. unfold open_world. destruct viewName as [[|c v]|].
  - rewrite Hnone by done. split; cbn; try done; try (by constructor); by intros l d reply ?%elem_of_nil.
  - rewrite Hlist. split; cbn; try done; try (by apply Forall_singleton); by intros l d reply ->%list_elem_of_singleton _ ?.
  - rewrite Hnone by done. split; cbn; try done; try (by constructor); by intros l d reply ?%elem_of_nil.
Qed.

(** The rows of a list state are those it was loaded with. *)
Lemma list_state_rows def rows st alias td :
  envelope_alias def = alias → alias ≠ [] → rowSource td = MkFieldRefDef alias #"rows" →
  json_plain (VArr (VObj <$> rows)) = true →
  loadEnvelope (buildRowsEnvelope def rows) newViewState = Ok st → table_rows td st = VObj <$> rows.
Proof.
  intros Ha Hne Htd Hp. unfold loadEnvelope, buildRowsEnvelope. rewrite Ha.
  change (obj_has #"content" _ || obj_has #"meta" _) with true. cbv beta iota. unfold load_sections.
  change (obj_get #"content" _) with (VObj [(alias, VObj [(#"rows", VArr (VObj <$> rows))])]).
  change (obj_get #"meta" _) with VUndef. cbv beta iota.
  rewrite flattenInto_leaves.
  2:{ cbn [has_bigint existsb snd]. rewrite !orb_false_r. exact (proj1 (json_plain_no_bigint _ Hp)). }
  assert (leaves [] (VObj [(alias, VObj [(#"rows", VArr (VObj <$> rows))])]) =
          [(under alias #"rows", json_text (VArr (VObj <$> rows)))]) as ->.
  { cbn [leaves]. change (join_key [] alias) with alias. unfold join_key. by rewrite decide_False. }
  pose proof (json_plain_parse _ Hp) as Hparse. remember (json_text (VArr (VObj <$> rows))) as text eqn:Et. clear Et.
  intros [= <-]. unfold table_rows. rewrite Htd. cbn [ref_domain ref_field].
  change (alias ++ #"." ++ #"rows") with (under alias #"rows"). cbn [set_all foldl fst snd].
  assert (∀ k v (s : ViewState), get k (set k v s) = v) as Hget by (intros k v s; by rewrite set_get, decide_True).
  rewrite Hget, Hparse. destruct (decide (text = [])) as [->|]; [|done]. vm_compute in Hparse. discriminate Hparse.
Qed.

(** C26: A list follows the forms of its domain.  Whatever the user does in the
    form and the list, however the server's answers interleave, whichever of
    them fail and whoever else changes the rows: when the list has loaded a
    view that reloads on changes of the domain, its table shows the server's
    rows, or none if the query of its latest load failed, provided no change
    the server has applied still waits for its answer, and since that load
    fetched its rows no change was published to the tab behind the fetch and
    none was made that is not published: by someone else, or by a call whose
    answer failed.  A change published while the list is shown, and a refresh
    of the user, make it load anew. *)
Theorem list_follows p def dom st rows contextName viewName es def' st' td :
  let domain := primaryDomainName (open_form p def dom st) in
  let w := world_events es (open_world rows contextName viewName (open_form p def dom st)) in
  stage (tab w) = ReadyList def' st' → follows domain def' → ¬ pending w →
  envelope_alias def' ≠ [] → rowSource td = MkFieldRefDef (envelope_alias def') #"rows" →
  json_plain (VArr (VObj <$> db w)) = true →
  (lost w = false → table_rows td st' = VObj <$> db w ∨ failed w = true ∧ table_rows td st' = []) ∧
  domain_event domain #"changed" (tab w) = load_effect (tab w) ∧
  tab (world_event UserRefreshes w) = load_effect (tab w).
Proof.
  cbv zeta. set (domain := primaryDomainName _). set (w0 := open_world _ _ _ _).
  intros Hst Hf Hp Ha Htd Hplain.
  destruct (open_world_ok rows contextName viewName p def dom st) as [Hok Hr]. fold w0 domain in Hok, Hr.
  pose proof (world_events_ok domain es w0 Hok Hr) as [_ _ _ _ _ H6]. set (w := world_events es w0) in *.
  split_and!.
  - intros Hl. destruct (H6 def' st' Hst Hf) as (rs & Hrs & [->|[[?|?]|[Hfl ->]]]); [|done|congruence|].
    + left. by apply (list_state_rows def' _ _ (envelope_alias def')).
    + right. split; [done|]. by apply (list_state_rows def' [] _ (envelope_alias def')).
  - unfold domain_event, subscription. rewrite Hst. unfold follows in Hf. rewrite Hf. by rewrite decide_True.
  - cbn [world_event]. rewrite Hst. cbv zeta. by destruct (decide _).
Qed.

(** ** A sample *)

Definition note_list_view : ViewDef :=
  MkViewDef #"note_list" #"Notizen" [MkBinding #"note" #"n" true] true (Some (MkAutoRefresh #"note" #"changed"))
    [RefreshItem #"Neu laden"] [].
Definition note_table : TableDef := MkTableDef (MkFieldRefDef #"n" #"rows") [] [].
Definition source_envelope : JsonEnvelope := asJson (Ok (VObj [(#"source", VStr #"view note_list")])).
Definition arrives (i : nat) : list WorldEvent :=
  [ViewArrives i source_envelope; ParseArrives i (Ok (MkParsed (Some note_list_view) [])); RowsServed i; RowsArrive i].
Definition note_world : World :=
  open_world [note_record #"Milch"] #"note" (Some #"note_list") (open_form new_note note_view note_domain newViewState).

(** The list loads, the form saves a second note, the list loads again. *)
Definition second_note : list jsobj := [note_record #"Milch"; note_record #"Brot"].
Definition sample_run : list WorldEvent :=
  arrives 0 ++ [UserEdits #"n.title" #"Brot"; UserClicks SaveItem; SaveApplied 0 second_note (Some (note_record #"Brot"));
                SaveReturns 0] ++ arrives 0.

Lemma list_follows_witness :
  ∃ def st, stage (tab (world_events sample_run note_world)) = ReadyList def st ∧
    table_rows note_table st = VObj <$> second_note.
Proof.
  destruct (stage (tab (world_events sample_run note_world))) as [| |def st] eqn:E;
    [vm_compute in E; discriminate E|vm_compute in E; discriminate E|].
  exists def, st. split; [reflexivity|].
  assert (def = note_list_view) as Hd by (vm_compute in E; injection E as <- _; reflexivity).
  assert (failed (world_events sample_run note_world) = false) as Hf by (vm_compute; reflexivity).
  destruct (list_follows new_note note_view note_domain newViewState [note_record #"Milch"] #"note" (Some #"note_list")
    sample_run def st note_table) as [H _].
  - exact E.
  - rewrite Hd. reflexivity.
  - intros [H|H]; vm_compute in H; inversion H.
  - rewrite Hd. discriminate.
  - rewrite Hd. reflexivity.
  - vm_compute. reflexivity.
  - destruct (H ltac:(vm_compute; reflexivity)) as [E'|[E' _]]; [exact E'|]. exfalso.
    change (failed (world_events sample_run note_world) = true) in E'. rewrite Hf in E'. discriminate E'.
Defined.

(** A change published behind a fetch: the list was loading, so it was not
    subscribed, and goes on to show the old rows. *)
Example change_lost :
  let w := world_events
    ([UserEdits #"n.title" #"Brot"; UserClicks SaveItem] ++
     [ViewArrives 0 source_envelope; ParseArrives 0 (Ok (MkParsed (Some note_list_view) [])); RowsServed 0] ++
     [SaveApplied 0 second_note (Some (note_record #"Brot")); SaveReturns 0; RowsArrive 0]) note_world in
  match stage (tab w) with ReadyList _ st => table_rows note_table st | _ => [] end = VObj <$> [note_record #"Milch"] ∧
  db w = second_note ∧ loads (tab w) = [] ∧ saves w = [].
Proof. vm_compute. by split_and!. Qed.

(** A query that fails shows a table without rows, as if there were none. *)
Example failed_query :
  let w := world_events
    [ViewArrives 0 source_envelope; ParseArrives 0 (Ok (MkParsed (Some note_list_view) [])); RowsFailed 0 (Throw #"timeout"); RowsArrive 0]
    note_world in
  match stage (tab w) with ReadyList _ st => table_rows note_table st = [] | _ => False end ∧ db w = [note_record #"Milch"] ∧ failed w = true.
Proof. vm_compute. by split_and!. Qed.
(** A save that is applied but whose answer is lost leaves the list with the old rows. *)
Example answer_lost :
  let w := world_events (arrives 0 ++ [UserEdits #"n.title" #"Brot"; UserClicks SaveItem; SaveApplied 0 second_note (Some (note_record #"Brot"));
    SaveFails 0 #"timeout"]) note_world in
  match stage (tab w) with ReadyList _ st => table_rows note_table st | _ => [] end = VObj <$> [note_record #"Milch"] ∧
  db w = second_note ∧ lost w = true ∧ loads (tab w) = [].
Proof. vm_compute. by split_and!. Qed.

(** A click on a row opens the detail view with the row and its identifier. *)
Example row_click :
  let row := [(#"id", VNum (num_of_Z 7)); (#"title", VStr #"Milch")] in
  let action := MkViewActionDef OnSelect #"note_detail" [BindDef (MkFieldRefDef #"n" #"id")] in
  opened (handleAction action row (open_list #"note" (Some #"note_list"))) =
  [(#"note", #"note_detail", row, VNum (num_of_Z 7))].
Proof. vm_compute. reflexivity. Qed.
