(* ===== verification/EventContent.v ===== *)
(** The event editor's text, apps/oos/src/mainview/components/StreamDetailPanel.tsx:
    which fields a grammar asks for, the text an event is edited as, and what
    is saved of the edited text.  [saved_fields] says which of an event's fields
    survive being opened and saved. *)

From S2P Require Export Regex JsonWrite.
From Stdlib Require Import ZifyBool.

#[local] Set Warnings "-register-all".

(** * The patterns *)

(** The source of a pattern that is known to parse. *)
Definition pattern (s : str) : Regex := default REmpty (parse_pattern s).

(** [/\b(required|optional)\s+(\w+)\s*:\s*(string|number|boolean)/g] *)
Definition field_pattern : Search :=
  MkSearch word_boundary
    [(true, pattern #"required|optional"); (false, pattern #"\s+"); (true, pattern #"\w+");
     (false, pattern #"\s*:\s*"); (true, pattern #"string|number|boolean")]
    (λ _, true).

(** A string literal, a number without sign and exponent, or a boolean. *)
Definition string_pattern : Regex := pattern (quoted (#"(?:[^" ++ [dq] ++ #"\\]|\\.)*")).
Definition number_pattern : Regex := pattern #"\d+(?:\.\d+)?".
Definition value_pattern : Regex := RAlt string_pattern (RAlt number_pattern (pattern #"true|false")).

(** [/^\s*(\w+)\s*:\s*(value)\s*$/gm] *)
Definition entry_pattern : Search :=
  MkSearch line_start
    [(false, pattern #"\s*"); (true, pattern #"\w+"); (false, pattern #"\s*"); (false, pattern #":");
     (false, pattern #"\s*"); (true, value_pattern); (false, pattern #"\s*")]
    line_end.

(** * The operations *)

Record FieldDef := MkFieldDef { field_name : str; field_type : str; field_required : bool }.

Definition extractFields (source : str) : list FieldDef :=
  omap (λ m, match m with
             | [m1; m2; m3] => Some (MkFieldDef m2 m3 (bool_decide (m1 = #"required")))
             | _ => None
             end) (exec_all field_pattern source).

(** What a field starts as. *)
Definition placeholder (type : str) : str :=
  if decide (type = #"string") then quoted [] else if decide (type = #"number") then #"0" else #"false".

(** The completion items, and the text each inserts. *)
Definition field_suggestion (f : FieldDef) : str * str * str :=
  (field_name f, (if field_required f then #"required " else #"optional ") ++ field_type f,
   field_name f ++ #": " ++ placeholder (field_type f)).

(** The loop reads the grammar with the pattern of [extractFields], the
    keyword's group apart. *)
Definition buildStub (eventTypeName grammarSource : str) : str :=
  join [nl]
    ((eventTypeName ++ #" {") ::
     ((λ f, #"  " ++ field_name f ++ #": " ++ placeholder (field_type f)) <$> extractFields grammarSource)
     ++ [ #"}"]).

Definition field_line (k : str) (v : jsval) : str := #"  " ++ k ++ #": " ++ json_text v.

(** The payload was parsed from JSON: it holds no [undefined], and
    [JSON.stringify] answers with a text for each of its values. *)
Definition buildFromEvent (eventType text : str) (payload : jsobj) : str :=
  join [nl]
    ((eventType ++ #" {") :: field_line #"text" (VStr text) ::
     ((λ p : str * jsval, field_line p.1 p.2) <$> payload) ++ [ #"}"]).

(** [result[k] = v] for a [v] that is no object: assigning such a value to
    [__proto__] does nothing. *)
Definition assign_field (k : str) (v : jsval) (o : jsobj) : jsobj :=
  if decide (k = #"__proto__") then o else obj_set k v o.

(** [try { JSON.parse(m[2]) } catch { m[2] }] *)
Definition field_value (s : str) : jsval := default (VStr s) (json_parse s).

Definition parsed_fields (content : str) : jsobj :=
  foldl (λ o m, match m with [k; v] => assign_field k (field_value v) o | _ => o end) []
    (exec_all entry_pattern content).

Definition parseEventContent (content : str) : str * jsobj :=
  let result := parsed_fields content in
  (match obj_get #"text" result with VStr s => s | _ => [] end, map_delete #"text" result).

(** * What the editor keeps *)

(** A value the line pattern can read back: a text, a boolean, a number
    without a sign. *)
Definition editable (v : jsval) : bool :=
  match v with
  | VStr _ | VBool _ => true
  | VNum (Dec m _) => (0 <=? m)%Z
  | _ => false
  end.

Definition plain_line (s : str) : bool := forallb (λ c, negb (is_line_end c)) s.

(** A payload as the grammar's field names make it: the names are words, none
    of them is [text], and a value that cannot be edited prints on one line. *)
Definition payload_ok (payload : jsobj) : Prop :=
  NoDup payload.*1 ∧
  Forall (λ p : str * jsval,
    (p.1 ≠ [] ∧ forallb is_word p.1 = true ∧ p.1 ≠ #"text" ∧ p.1 ≠ #"__proto__" ∧ array_index p.1 = None) ∧
    json_plain p.2 = true ∧ (editable p.2 = false → plain_line (json_text p.2) = true)) payload.

(** ** The languages of the parts *)

Lemma in_spaces w : in_lang (pattern #"\s*") w ↔ Forall (λ c, is_space c = true) w.
Proof.
  change (pattern #"\s*") with (RStar false (RSet false [Space])). rewrite in_lang_run.
  apply Forall_proper; [|done]. intros c. rewrite set_has_pos. cbn [existsb item_has]. by rewrite orb_false_r.
Qed.

Lemma in_word w : in_lang (pattern #"\w+") w ↔ w ≠ [] ∧ Forall (λ c, is_word c = true) w.
Proof.
  change (pattern #"\w+") with (RSeq (RSet false [Word]) (RStar false (RSet false [Word]))).
  assert (∀ c, set_has false [Word] c = is_word c) as Hc.
  { intros c. rewrite set_has_pos. cbn [existsb item_has]. by rewrite orb_false_r. }
  split.
  - intros H. inversion H as [| |? ? w1 w2 H1 H2| | | |]; subst. inversion H1; subst. split; [done|].
    apply in_lang_run in H2. constructor; [by rewrite <- Hc|]. eapply Forall_impl; [exact H2|]. intros d. cbv beta. by rewrite Hc.
  - intros [Hne Hw]. destruct Hw as [|c w Hcw Hw]; [done|].
    apply (in_cat _ _ [c] w); [constructor; by rewrite Hc|]. apply in_lang_run.
    eapply Forall_impl; [exact Hw|]. intros d. cbv beta. by rewrite Hc.
Qed.

Lemma in_colon w : in_lang (pattern #":") w ↔ w = [58%N].
Proof.
  change (pattern #":") with (one 58). split.
  - intros H. inversion H as [? ? c Hc| | | | | |]; subst. rewrite set_has_pos in Hc. cbn [existsb item_has] in Hc.
    rewrite orb_false_r in Hc. f_equal. lia.
  - intros ->. by constructor.
Qed.

(** Where the literal behind an opening quote ends. *)
Fixpoint string_end (s : str) : option str :=
  match s with
  | [] => None
  | c :: s =>
    if (c =? dq)%N then Some s
    else if (c =? backslash)%N then match s with _ :: s => string_end s | [] => None end
    else string_end s
  end.

Definition string_unit : Regex := RAlt (RSet true [Range 34 34; Range 92 92])
  (RSeq (one 92) (RSet true [Range 10 10; Range 13 13; Range 8232 8233])).

Lemma string_pattern_eq : string_pattern = RSeq (one 34) (RSeq (RStar false string_unit) (one 34)).
Proof. vm_compute. reflexivity. Qed.

Lemma in_one c w : in_lang (one c) w → w = [c].
Proof.
  intros H. inversion H as [? ? d Hc| | | | | |]; subst. rewrite set_has_pos in Hc. cbn [existsb item_has] in Hc.
  rewrite orb_false_r in Hc. f_equal. lia.
Qed.

Lemma string_units_end w rest :
  in_lang (RStar false string_unit) w → string_end (w ++ dq :: rest) = Some rest.
Proof.
  remember (RStar false string_unit) as r eqn:E. induction 1 as [| | | | |lz r0|lz r0 w1 w2 H1 _ H2 IH]; try done.
  injection E as -> ->. specialize (IH eq_refl). rewrite <- app_assoc. inversion H1 as [| | |? ? ? Hu|? ? ? Hu| |]; subst.
  - inversion Hu as [? ? c Hc| | | | | |]; subst. rewrite set_has_neg in Hc. cbn [existsb item_has] in Hc.
    cbn [app string_end]. destruct (N.eqb_spec c dq) as [->|]; [done|]. by destruct (N.eqb_spec c backslash) as [->|].
  - inversion Hu as [| |? ? u1 u2 Ha Hb| | | |]; subst. apply in_one in Ha as ->.
    inversion Hb; subst. exact IH.
Qed.

Lemma string_pattern_end w rest : in_lang string_pattern w → ∃ s, w = dq :: s ∧ string_end (s ++ rest) = Some rest.
Proof.
  rewrite string_pattern_eq. intros H. inversion H as [| |? ? w1 w2 H1 H2| | | |]; subst. apply in_one in H1 as ->.
  inversion H2 as [| |? ? w3 w4 H3 H4| | | |]; subst. apply in_one in H4 as ->. exists (w3 ++ [34%N]). split; [done|].
  rewrite <- app_assoc. by apply string_units_end.
Qed.

Lemma in_unit c : (c =? dq)%N = false → (c =? backslash)%N = false → in_lang string_unit [c].
Proof.
  intros H1 H2. apply in_left. constructor. rewrite set_has_neg. cbn [existsb item_has]. unfold dq, backslash in *.
  rewrite negb_true_iff, !orb_false_iff. lia.
Qed.

Lemma in_escape c : is_line_end c = false → in_lang string_unit [backslash; c].
Proof.
  intros H. apply in_right, (in_cat _ _ [92%N] [c]); [by constructor|]. constructor. rewrite set_has_neg.
  cbn [existsb item_has]. unfold is_line_end in H. apply bool_decide_eq_false in H.
  rewrite !elem_of_cons, elem_of_nil in H. rewrite negb_true_iff, !orb_false_iff. lia.
Qed.

Lemma hex_digit_plain d : (d < 16)%N → (hex_digit d =? dq)%N = false ∧ (hex_digit d =? backslash)%N = false.
Proof. unfold hex_digit, dq, backslash. destruct (d <? 10)%N eqn:E; lia. Qed.

Lemma star_app lz r w1 w2 : in_lang (RStar lz r) w1 → in_lang (RStar lz r) w2 → in_lang (RStar lz r) (w1 ++ w2).
Proof.
  remember (RStar lz r) as rs eqn:E. intros H. induction H as [| | | | |lz' r'|lz' r' u1 u2 H1 _ H2 IH]; try done.
  intros Hw. injection E as -> ->. rewrite <- app_assoc. constructor; [done|]. by apply IH.
Qed.

Lemma star_one lz r w : in_lang r w → in_lang (RStar lz r) w.
Proof. intros H. rewrite <- (app_nil_r w). constructor; [done|constructor]. Qed.

Lemma quote_unit_star c : in_lang (RStar false string_unit) (quote_unit c).
Proof.
  unfold quote_unit.
  repeat match goal with
  | |- in_lang _ (if (?a =? ?b)%N then _ else _) =>
    destruct (a =? b)%N eqn:?; [apply star_one, in_escape; reflexivity|]
  end.
  destruct (_ || _) eqn:E; [|by apply star_one, in_unit].
  assert (c < 65536)%N as Hc by (unfold is_high, is_low in E; lia).
  unfold hex4. apply (star_app _ _ [backslash; 117%N]); [apply star_one, in_escape; reflexivity|].
  repeat match goal with
  | |- in_lang _ [] => constructor
  | |- in_lang (RStar ?lz ?r) (hex_digit ?d :: ?l) =>
    apply (in_more lz r [hex_digit d] l);
    [apply in_unit; apply (hex_digit_plain d);
     try (apply N.mod_lt; discriminate); rewrite !N.Div0.div_div; apply N.Div0.div_lt_upper_bound; lia|]
  end.
Qed.

Lemma quote_units_star s : in_lang (RStar false string_unit) (quote_units s).
Proof.
  induction s as [s IH] using (induction_ltof1 _ (@length N)); unfold ltof in IH.
  destruct s as [|c [|d s]]; [constructor|apply quote_unit_star|].
  cbn [quote_units]. destruct (is_high c && is_low d) eqn:E.
  - assert ((c =? dq)%N = false ∧ (c =? backslash)%N = false ∧ (d =? dq)%N = false ∧ (d =? backslash)%N = false) as (?&?&?&?).
    { unfold is_high, is_low, dq, backslash in *. lia. }
    apply (in_more _ _ [c]); [by apply in_unit|]. apply (in_more _ _ [d]); [by apply in_unit|].
    apply IH. cbn [length]. lia.
  - apply star_app; [apply quote_unit_star|]. apply (IH (d :: s)). cbn [length]. lia.
Qed.

Lemma json_quote_pattern s : in_lang string_pattern (json_quote s).
Proof.
  rewrite string_pattern_eq. unfold json_quote. apply in_cat; [by constructor|].
  apply in_cat; [apply quote_units_star|by constructor].
Qed.

(** ** Numbers and booleans *)

Definition number_unit (c : N) : bool := is_digit c || (c =? 46)%N.

Lemma in_digits w : in_lang (RPlus false (RSet false [Range 48 57])) w ↔ w ≠ [] ∧ forallb is_digit w = true.
Proof.
  assert (∀ c, set_has false [Range 48 57] c = is_digit c) as Hc.
  { intros c. rewrite set_has_pos. cbn [existsb item_has]. by rewrite orb_false_r. }
  split.
  - intros H. inversion H as [| |? ? w1 w2 H1 H2| | | |]; subst. inversion H1; subst. split; [done|].
    apply in_lang_run in H2. cbn [app forallb]. apply andb_true_iff. split; [by rewrite <- Hc|]. apply forallb_forall.
    intros d Hd. rewrite <- Hc. rewrite Forall_forall in H2. by apply H2, list_elem_of_In.
  - intros [Hne Hw]. destruct w as [|c w]; [done|]. cbn [forallb] in Hw. apply andb_true_iff in Hw as [Hcw Hw].
    apply (in_cat _ _ [c] w); [constructor; by rewrite Hc|]. apply in_lang_run, Forall_forall.
    intros d Hd. rewrite Hc. rewrite forallb_forall in Hw. by apply Hw, list_elem_of_In.
Qed.

Definition digits_pattern : Regex := RPlus false (RSet false [Range 48 57]).
Lemma number_pattern_eq : number_pattern = RSeq digits_pattern (ROpt (RSeq (one 46) digits_pattern)).
Proof. vm_compute. reflexivity. Qed.

Lemma in_number w :
  in_lang number_pattern w ↔
  ∃ d frac, w = d ++ fraction_text frac ∧ d ≠ [] ∧ forallb is_digit d = true ∧ forallb is_digit frac = true.
Proof.
  rewrite number_pattern_eq. split.
  - intros H. inversion H as [| |? ? w1 w2 H1 H2| | | |]; subst. apply in_digits in H1 as [Hne Hd].
    inversion H2 as [| | |? ? ? Hf|? ? ? Hf| |]; subst.
    + inversion Hf as [| |? ? w5 w6 H5 H6| | | |]; subst. apply in_one in H5 as ->. apply in_digits in H6 as [? H6].
      exists w1, w6. split_and!; [|done..]. by destruct w6.
    + inversion Hf; subst. by exists w1, [].
  - intros (d & frac & -> & Hne & Hd & Hf). constructor; [by apply in_digits|].
    destruct frac as [|c frac]; [apply in_right; constructor|].
    apply in_left, (in_cat _ _ [46%N]); [by constructor|]. by apply in_digits.
Qed.

Lemma in_number_units w : in_lang number_pattern w →
  (∃ c s, w = c :: s ∧ is_digit c = true) ∧ Forall (λ c, number_unit c = true) w.
Proof.
  intros (d & frac & -> & Hne & Hd & Hf)%in_number. split.
  - destruct d as [|c d]; [done|]. cbn [forallb] in Hd. apply andb_true_iff in Hd as [Hc _]. by exists c, (d ++ fraction_text frac).
  - assert (∀ l, forallb is_digit l = true → Forall (λ c, number_unit c = true) l) as H.
    { intros l Hl. apply Forall_forall. intros c Hc%list_elem_of_In. rewrite forallb_forall in Hl.
      unfold number_unit. by rewrite Hl. }
    apply Forall_app. split; [by apply H|]. destruct frac as [|c frac]; [done|]. constructor; [done|]. by apply H.
Qed.

Lemma in_boolean w : in_lang (pattern #"true|false") w ↔ w = json_text (VBool true) ∨ w = json_text (VBool false).
Proof.
  assert (∀ w, test_whole (pattern #"true|false") w = true ↔ in_lang (pattern #"true|false") w) as Ht by (intros; apply test_whole_lang).
  split; [|intros [-> | ->]; apply Ht; vm_compute; reflexivity].
  change (pattern #"true|false")
    with (RAlt (RSeq (one 116) (RSeq (one 114) (RSeq (one 117) (one 101))))
               (RSeq (one 102) (RSeq (one 97) (RSeq (one 108) (RSeq (one 115) (one 101)))))).
  intros H.
  repeat match goal with
  | H : in_lang (RAlt _ _) _ |- _ => inversion H; clear H; subst
  | H : in_lang (RSeq _ _) _ |- _ => inversion H; clear H; subst
  | H : in_lang (one _) _ |- _ => apply in_one in H as ->
  end; [by left|by right].
Qed.

(** ** One line *)

Definition head_not (P : N → bool) (s : str) : Prop := match s with c :: _ => P c = false | [] => True end.

Lemma run_unique (P : N → bool) w a w' b :
  w ++ a = w' ++ b → Forall (λ c, P c = true) w → Forall (λ c, P c = true) w' → head_not P a → head_not P b →
  w = w' ∧ a = b.
Proof.
  intros E Hw. revert w' E. induction Hw as [|c w Hc Hw IH]; intros w' E Hw' Ha Hb.
  - destruct Hw' as [|d w' Hd _]; [done|]. cbn [app] in E. subst a. cbn [head_not] in Ha. congruence.
  - destruct Hw' as [|d w' Hd Hw']; cbn [app] in E.
    + subst b. cbn [head_not] in Hb. congruence.
    + injection E as -> E. by destruct (IH w' E Hw' Ha Hb) as [-> ->].
Qed.

Lemma word_no_space c : is_word c = true → is_space c = false.
Proof.
  intros H. destruct (is_space c) eqn:E; [|done]. exfalso. unfold is_space in E. apply orb_true_iff in E as [E|E].
  - apply bool_decide_eq_true in E. elem_cases; subst; vm_compute in H; discriminate.
  - unfold is_word, is_lower, is_upper, is_digit in H. lia.
Qed.

Lemma space_no_word c : is_space c = true → is_word c = false.
Proof. intros H. destruct (is_word c) eqn:E; [|done]. apply word_no_space in E. congruence. Qed.

Lemma line_end_space c : is_line_end c = true → is_space c = true.
Proof.
  intros H. unfold is_line_end in H. apply bool_decide_eq_true in H. elem_cases; subst; reflexivity.
Qed.

Lemma value_cases w :
  in_lang value_pattern w →
  in_lang string_pattern w ∨ in_lang number_pattern w ∨ w = json_text (VBool true) ∨ w = json_text (VBool false).
Proof.
  unfold value_pattern. rewrite !in_lang_alt, in_boolean. tauto.
Qed.

Definition opens_field (c : N) : bool := (c =? dq)%N || is_digit c || (c =? 116)%N || (c =? 102)%N.

Lemma value_head w : in_lang value_pattern w → ∃ c s, w = c :: s ∧ opens_field c = true ∧ is_space c = false.
Proof.
  intros [(s & -> & _)%(λ H, string_pattern_end w [] H)|[[(c & s & -> & Hc) _]%in_number_units|[->| ->]]]%value_cases.
  - by exists dq, s.
  - exists c, s. split; [done|]. unfold opens_field. rewrite Hc. split; [by rewrite orb_true_r|].
    apply word_no_space. unfold is_word. by rewrite Hc, orb_true_r.
  - by exists 116%N, (#"rue").
  - by exists 102%N, (#"alse").
Qed.

(** What the number prints as. *)
Lemma num_text_sign m e :
  num_plain (Dec m e) = true → ∃ w frac,
  num_to_string (Dec m e) = (if (m <? 0)%Z then #"-" else []) ++ w ++ fraction_text frac ∧
  whole_part w ∧ forallb is_digit frac = true.
Proof.
  intros H. destruct (num_plain_parts _ H) as (neg & w & frac & Ht & Hw & Hf & E). exists w, frac. split; [|done].
  rewrite Ht. injection E as Em _. cbv zeta in Em. destruct (Z.ltb_spec m 0), neg; try done; [lia|].
  assert (m = 0)%Z as -> by lia. by change (num_to_string (Dec 0 e)) with (#"0") in Ht.
Qed.

Lemma editable_value v : editable v = true → json_plain v = true → in_lang value_pattern (json_text v).
Proof.
  unfold value_pattern. destruct v as [| | [] |n|s| | |]; try done; intros He Hp.
  - apply in_right, in_right, in_boolean. by left.
  - apply in_right, in_right, in_boolean. by right.
  - destruct n as [| |m e]; [done..|]. cbn [editable json_plain] in *. apply in_right, in_left.
    destruct (num_text_sign m e Hp) as (w & frac & E & [Hd Hw] & Hf). cbn [json_text is_finite]. rewrite E.
    destruct (Z.ltb_spec m 0); [lia|]. apply in_number. exists w, frac. split_and!; [done| |done..].
    intros ->. by destruct Hw as [|(? & ? & ? & _)].
  - apply in_left, json_quote_pattern.
Qed.

Lemma dropped_head v :
  editable v = false → json_plain v = true → ∃ c s, json_text v = c :: s ∧ opens_field c = false ∧ is_space c = false.
Proof.
  destruct v as [| |b|n|s| |l|o]; try done; intros He Hp.
  - by exists 110%N, (#"ull").
  - destruct n as [| |m e]; [done..|]. cbn [editable json_plain] in *.
    destruct (num_text_sign m e Hp) as (w & frac & E & _). cbn [json_text is_finite]. rewrite E.
    destruct (Z.ltb_spec m 0); [|lia]. by exists 45%N, (w ++ fraction_text frac).
  - by eexists 91%N, _.
  - by eexists 123%N, _.
Qed.

Lemma line_captures k t tail g rest :
  k ≠ [] → Forall (λ c, is_word c = true) k → head_not is_space (t ++ tail) →
  (g, rest) ∈ captures (search_parts entry_pattern) (#"  " ++ k ++ #": " ++ t ++ tail) →
  ∃ w w7, g = [k; w] ∧ in_lang value_pattern w ∧ Forall (λ c, is_space c = true) w7 ∧ t ++ tail = w ++ w7 ++ rest.
Proof.
  intros Hk Hkw Ht. cbn [search_parts entry_pattern].
  intros (w1 & s1 & g1 & E1 & H1%in_spaces & H & ->)%captures_spec.
  apply captures_spec in H as (w2 & s2 & g2 & -> & [Hn2 H2]%in_word & H & ->).
  apply captures_spec in H as (w3 & s3 & g3 & -> & H3%in_spaces & H & ->).
  apply captures_spec in H as (w4 & s4 & g4 & -> & ->%in_colon & H & ->).
  apply captures_spec in H as (w5 & s5 & g5 & -> & H5%in_spaces & H & ->).
  apply captures_spec in H as (w6 & s6 & g6 & -> & H6 & H & ->).
  apply captures_spec in H as (w7 & s7 & g7 & -> & H7%in_spaces & [-> ->]%captures_done & ->).
  destruct (run_unique is_space [32; 32]%N _ w1 _ E1) as [<- E2]; [by repeat constructor|done| | |].
  { destruct Hkw; [done|]. by apply word_no_space. }
  { destruct H2; [done|]. by apply word_no_space. }
  destruct (run_unique is_word k (58%N :: 32%N :: t ++ tail) w2 _ E2) as [<- E3]; [done|done|done| |].
  { destruct H3; [done|]. by apply space_no_word. }
  destruct (run_unique is_space [] (58%N :: 32%N :: t ++ tail) w3 _ E3) as [<- E4]; [done..|].
  injection E4 as E4. destruct (value_head w6 H6) as (c & s & Ew & _ & Hc).
  destruct (run_unique is_space [32%N] (t ++ tail) w5 _ E4) as [<- E5]; [by repeat constructor|done|done|by subst w6|].
  by exists w6, w7.
Qed.

Lemma line_consumes s g rest : (g, rest) ∈ captures (search_parts entry_pattern) s → length rest < length s.
Proof.
  cbn [search_parts entry_pattern].
  intros (w1 & s1 & g1 & -> & _ & H & _)%captures_spec.
  apply captures_spec in H as (w2 & s2 & g2 & -> & _ & H & _).
  apply captures_spec in H as (w3 & s3 & g3 & -> & _ & H & _).
  apply captures_spec in H as (w4 & s4 & g4 & -> & ->%in_colon & H & _).
  apply captures_spec in H as (w5 & s5 & g5 & -> & _ & H & _).
  apply captures_spec in H as (w6 & s6 & g6 & -> & _ & H & _).
  apply captures_spec in H as (w7 & s7 & g7 & -> & _ & [-> ->]%captures_done & _).
  rewrite !length_app. cbn [length]. lia.
Qed.

(** What follows a field: the next line, which is not empty. *)
Definition line_tail (tail : str) : Prop :=
  ∃ sp c t, tail = nl :: sp ++ c :: t ∧ Forall (λ c, c = 32%N) sp ∧ is_space c = false.

Lemma line_end_head w7 rest (P : N → bool) :
  (∀ c, is_space c = true → P c = false) → Forall (λ c, is_space c = true) w7 → line_end rest = true →
  head_not P (w7 ++ rest).
Proof.
  intros HP [|c l Hc _] Hr; [|by apply HP]. destruct rest as [|c rest]; [done|]. by apply HP, line_end_space.
Qed.

Lemma tail_only tail w7 rest :
  line_tail tail → tail = w7 ++ rest → Forall (λ c, is_space c = true) w7 → line_end rest = true → w7 = [] ∧ rest = tail.
Proof.
  intros (sp & c & t & -> & Hsp & Hc) E Hw Hr. destruct Hw as [|d w7 _ Hw]; [done|].
  exfalso. injection E as _ E. revert w7 Hw E. induction Hsp as [|x sp -> Hsp IH]; intros w7 Hw E.
  - destruct Hw as [|d' w7 Hd _]; cbn [app] in E; [|injection E as -> _; congruence].
    subst rest. apply line_end_space in Hr. congruence.
  - destruct Hw as [|d' w7 Hd Hw]; cbn [app] in E; [by subst rest|]. injection E as _ E. by apply (IH w7).
Qed.

Lemma number_unit_space c : is_space c = true → number_unit c = false.
Proof.
  intros H. destruct (number_unit c) eqn:E; [|done]. unfold number_unit in E. apply orb_true_iff in E as [E|E].
  - assert (is_word c = true) as Hw by (unfold is_word; by rewrite E, orb_true_r). apply word_no_space in Hw. congruence.
  - apply N.eqb_eq in E as ->. done.
Qed.

Lemma value_whole v w w7 rest tail :
  editable v = true → json_plain v = true → in_lang value_pattern w → json_text v ++ tail = w ++ w7 ++ rest →
  Forall (λ c, is_space c = true) w7 → line_end rest = true → line_tail tail → w = json_text v ∧ tail = w7 ++ rest.
Proof.
  intros He Hp Hw E H7 Hr (sp & d & t' & Et & _).
  destruct (value_cases _ (editable_value v He Hp)) as [Hs|[Hn|Hb]].
  - destruct (string_pattern_end _ tail Hs) as (s & Es & Hend). rewrite Es in E.
    apply value_cases in Hw as [Hw|[Hw|[->| ->]]]; [|exfalso..|]; try done.
    + destruct (string_pattern_end _ (w7 ++ rest) Hw) as (s' & -> & Hend'). injection E as E.
      rewrite E, Hend' in Hend. injection Hend as Hend. rewrite Hend in *. apply app_inv_tail in E as ->. by rewrite Es.
    + apply in_number_units in Hw as [(c & s' & -> & Hc) _]. by injection E as <- _.
  - destruct (in_number_units _ Hn) as [(c & s & Es & Hc) Hu].
    apply value_cases in Hw as [Hw|[Hw|Hw]].
    + destruct (string_pattern_end _ [] Hw) as (s' & -> & _). rewrite Es in E. by injection E as -> _.
    + apply in_number_units in Hw as [_ Hw]. destruct (run_unique number_unit _ _ _ _ E) as [-> ->]; try done.
      * by rewrite Et.
      * apply line_end_head; [exact number_unit_space|done..].
    + rewrite Es in E. by destruct Hw as [-> | ->]; injection E as -> _.
  - apply value_cases in Hw as [Hw|[Hw|Hw]].
    + destruct (string_pattern_end _ [] Hw) as (s' & -> & _). by destruct Hb as [Hb|Hb]; rewrite Hb in E.
    + apply in_number_units in Hw as [(c & s' & -> & Hc) _].
      by destruct Hb as [Hb|Hb]; rewrite Hb in E; injection E as <- _.
    + destruct Hb as [Hb|Hb], Hw as [-> | ->]; rewrite Hb in *; try done; split; try done; by apply app_inv_head in E.
Qed.

Lemma line_saved k v tail :
  k ≠ [] → Forall (λ c, is_word c = true) k → editable v = true → json_plain v = true → line_tail tail →
  exec_here entry_pattern (Some nl) (field_line k v ++ tail) = Some ([k; json_text v], tail).
Proof.
  intros Hk Hkw He Hp Ht.
  assert (field_line k v ++ tail = #"  " ++ k ++ #": " ++ json_text v ++ tail) as ->.
  { unfold field_line. by rewrite <- !app_assoc. }
  pose proof (editable_value v He Hp) as Hv. destruct (value_head _ Hv) as (c & s & Ev & _ & Hc).
  apply exec_here_only; [done| | |].
  - cbn [search_parts entry_pattern].
    apply captures_spec. eexists (#"  "), _, _. split_and!; [done|by apply in_spaces; repeat constructor| |done].
    apply captures_spec. eexists k, _, _. split_and!; [done|by apply in_word| |done].
    apply captures_spec. eexists [], _, _. split_and!; [done|by apply in_spaces| |done].
    apply captures_spec. eexists [58%N], (32%N :: json_text v ++ tail), _. split_and!; [done|by apply in_colon| |done].
    apply captures_spec. eexists [32%N], _, _. split_and!; [done|by apply in_spaces; repeat constructor| |done].
    apply captures_spec. eexists (json_text v), _, _. split_and!; [done|done| |done].
    apply captures_spec. eexists [], _, _. split_and!; [done|by apply in_spaces| |done].
    by apply captures_done.
  - destruct Ht as (sp & d & t & -> & _). done.
  - intros [g rest] Hg Hr. apply line_captures in Hg as (w & w7 & -> & Hw & H7 & E); [|done|done|by rewrite Ev].
    destruct (value_whole v w w7 rest tail He Hp Hw E H7 Hr Ht) as [-> E'].
    by destruct (tail_only tail w7 rest Ht E' H7 Hr) as [_ ->].
Qed.

Lemma line_dropped k v tail :
  k ≠ [] → Forall (λ c, is_word c = true) k → editable v = false → json_plain v = true →
  exec_here entry_pattern (Some nl) (field_line k v ++ tail) = None.
Proof.
  intros Hk Hkw He Hp.
  assert (field_line k v ++ tail = #"  " ++ k ++ #": " ++ json_text v ++ tail) as ->.
  { unfold field_line. by rewrite <- !app_assoc. }
  destruct (dropped_head v He Hp) as (c & s & Ev & Hc & Hsp).
  apply exec_here_none. intros [g rest] Hg _. apply line_captures in Hg as (w & w7 & -> & Hw & H7 & E); [|done|done|by rewrite Ev].
  destruct (value_head w Hw) as (c' & s' & -> & Hc' & _). rewrite Ev in E. injection E as -> _. congruence.
Qed.

(** ** The whole text *)

Lemma value_last w : in_lang value_pattern w → ∃ t c, w = t ++ [c] ∧ is_line_end c = false.
Proof.
  intros [Hw|[[(c & s & E & _) Hw]%in_number_units|[->| ->]]]%value_cases.
  - rewrite string_pattern_eq in Hw. inversion Hw as [| |? ? w1 w2 _ H2| | | |]; subst.
    inversion H2 as [| |? ? w3 w4 _ H4| | | |]; subst. apply in_one in H4 as ->. exists (w1 ++ w3), 34%N. by rewrite app_assoc.
  - destruct w as [|d w _] using rev_ind; [done|]. exists w, d. split; [done|].
    apply Forall_app in Hw as [_ [Hd _]%Forall_cons]. destruct (is_line_end d) eqn:El; [|done].
    apply line_end_space, number_unit_space in El. congruence.
  - by exists (#"tru"), 101%N.
  - by exists (#"fals"), 101%N.
Qed.

Lemma from_newline c rest :
  is_line_end c = false → exec_from entry_pattern (Some c) (nl :: rest) = exec_from entry_pattern (Some nl) rest.
Proof. intros Hc. by apply (exec_from_line entry_pattern line_consumes c [] rest). Qed.

Lemma plain_line_Forall s : plain_line s = true → Forall (λ c, is_line_end c = false) s.
Proof.
  intros H. apply Forall_forall. intros c Hc%list_elem_of_In. unfold plain_line in H. rewrite forallb_forall in H.
  by apply negb_true_iff, H.
Qed.

(** A line without a match is passed over. *)
Lemma skip_line prev c w rest :
  Forall (λ c, is_line_end c = false) (c :: w) → exec_here entry_pattern prev (c :: w ++ nl :: rest) = None →
  exec_from entry_pattern prev (c :: w ++ nl :: rest) = exec_from entry_pattern (Some nl) rest.
Proof.
  intros [Hc Hw]%Forall_cons H. rewrite (exec_from_miss entry_pattern line_consumes prev c _ H).
  by apply (exec_from_line entry_pattern line_consumes).
Qed.

Lemma word_no_line_end c : is_word c = true → is_line_end c = false.
Proof. intros H%word_no_space. destruct (is_line_end c) eqn:E; [|done]. apply line_end_space in E. congruence. Qed.

Lemma colon_first u x h y :
  u ++ 58%N :: x = h ++ 123%N :: y → 58%N ∉ h → Forall (λ c, is_space c || is_word c = true) u → False.
Proof.
  revert u. induction h as [|c h IH]; intros u E Hh Hu.
  - destruct Hu as [|d u Hd Hu]; cbn [app] in E; [done|]. by injection E as -> _.
  - destruct Hu as [|d u Hd Hu]; cbn [app] in E.
    + injection E as <- _. apply Hh. by left.
    + injection E as _ E. apply (IH u E); [|done]. intros Hin. apply Hh. by right.
Qed.

Lemma header_none ty rest : 58%N ∉ ty → exec_here entry_pattern None (ty ++ #" {" ++ nl :: rest) = None.
Proof.
  intros Hty. apply exec_here_none. intros [g rest'] H _. revert H. cbn [search_parts entry_pattern].
  intros (w1 & s1 & g1 & E & H1%in_spaces & H & _)%captures_spec.
  apply captures_spec in H as (w2 & s2 & g2 & -> & [_ H2]%in_word & H & _).
  apply captures_spec in H as (w3 & s3 & g3 & -> & H3%in_spaces & H & _).
  apply captures_spec in H as (w4 & s4 & g4 & -> & ->%in_colon & _).
  apply (colon_first (w1 ++ w2 ++ w3) s4 (ty ++ [32%N]) (nl :: rest)).
  - rewrite <- !app_assoc. symmetry. exact E.
  - rewrite elem_of_app, list_elem_of_singleton. by intros [?|?].
  - apply Forall_app; split; [|apply Forall_app; split]; (eapply Forall_impl; [eassumption|]); cbv beta; intros c ->;
      [done|by rewrite orb_true_r|done].
Qed.

Definition field_lines (payload : jsobj) : list str :=
  ((λ p : str * jsval, field_line p.1 p.2) <$> payload) ++ [ #"}"].

Lemma field_lines_tail payload :
  Forall (λ p : str * jsval, p.1 ≠ [] ∧ Forall (λ c, is_word c = true) p.1) payload →
  line_tail (nl :: join [nl] (field_lines payload)).
Proof.
  intros [|[k v] l [Hk Hw] _]; unfold field_lines; cbn [fmap list_fmap app].
  - by exists [], 125%N, [].
  - cbn [fst snd] in *. destruct Hw as [|c k Hc Hw]; [done|]. rewrite join_cons by by destruct l. unfold field_line.
    rewrite <- !app_assoc. exists [32; 32]%N, c. eexists. split_and!; [reflexivity|by repeat constructor|by apply word_no_space].
Qed.

Definition field_ok (p : str * jsval) : Prop :=
  (p.1 ≠ [] ∧ Forall (λ c, is_word c = true) p.1) ∧ json_plain p.2 = true ∧
  (editable p.2 = false → plain_line (json_text p.2) = true).

Lemma matched_fields payload :
  Forall field_ok payload →
  exec_from entry_pattern (Some nl) (join [nl] (field_lines payload))
  = (λ p : str * jsval, [p.1; json_text p.2]) <$> filter (λ p, editable p.2 = true) payload.
Proof.
  induction 1 as [|[k v] l ((Hk & Hw) & Hp & Hd) Hl IH]; [vm_compute; reflexivity|]. cbn [fst snd] in *.
  assert (line_tail (nl :: join [nl] (field_lines l))) as Ht.
  { apply field_lines_tail. eapply Forall_impl; [exact Hl|]. by intros p [? _]. }
  change (field_lines ((k, v) :: l)) with (field_line k v :: field_lines l).
  rewrite join_cons by (unfold field_lines; by destruct l). change ([nl] ++ join [nl] (field_lines l)) with (nl :: join [nl] (field_lines l)).
  set (tail := join [nl] (field_lines l)) in *. rewrite filter_cons. cbn [snd]. destruct (editable v) eqn:He.
  - rewrite decide_True by done. rewrite fmap_cons. cbn [fst snd].
    rewrite (exec_from_hit entry_pattern line_consumes _ _ _ _ (line_saved k v _ Hk Hw He Hp Ht)). f_equal.
    rewrite length_app, Nat.add_sub, take_app_length.
    destruct (value_last _ (editable_value v He Hp)) as (t & c & E & Hc). unfold field_line. rewrite E.
    rewrite !app_assoc, last_snoc. by rewrite from_newline.
  - rewrite decide_False by done. pose proof (line_dropped k v (nl :: tail) Hk Hw He Hp) as H.
    unfold field_line in *. change (#"  " ++ k ++ #": " ++ json_text v) with (32%N :: (32%N :: k ++ #": " ++ json_text v)) in *.
    rewrite (skip_line _ 32%N (32%N :: k ++ #": " ++ json_text v) tail); [done| |exact H].
    do 2 (constructor; [done|]). apply Forall_app. split.
    + eapply Forall_impl; [exact Hw|]. exact word_no_line_end.
    + do 2 (constructor; [done|]). by apply plain_line_Forall, Hd.
Qed.

Definition names_ok (fields : jsobj) : Prop :=
  NoDup fields.*1 ∧ Forall (λ p : str * jsval, p.1 ≠ #"__proto__" ∧ array_index p.1 = None) fields.

(** A name the text can start with. *)
Definition header_ok (ty : str) : Prop := (58%N ∉ ty) ∧ plain_line ty = true.

Lemma Forall_filter {A} (P Q : A → Prop) `{!∀ x, Decision (Q x)} l : Forall P l → Forall P (filter Q l).
Proof. rewrite !Forall_forall. intros Hl x [_ Hx]%list_elem_of_filter. by apply Hl. Qed.

Lemma forallb_word k : forallb is_word k = true → Forall (λ c, is_word c = true) k.
Proof. intros H. apply Forall_forall. intros c Hc%list_elem_of_In. rewrite forallb_forall in H. by apply H. Qed.

Lemma assigned_fields fields acc :
  Forall field_ok fields → names_ok (acc ++ fields) →
  foldl (λ o m, match m with [k; v] => assign_field k (field_value v) o | _ => o end) acc
    ((λ p : str * jsval, [p.1; json_text p.2]) <$> fields) = acc ++ fields.
Proof.
  intros Hf. revert acc. induction Hf as [|[k v] l (_ & Hp & _) Hl IH]; intros acc [Hnd Hn]; cbn [fmap list_fmap foldl fst snd].
  - by rewrite app_nil_r.
  - unfold assign_field, field_value. rewrite json_plain_parse by done. cbn [default from_option].
    pose proof Hn as Hk. apply Forall_app in Hk as [_ [[Hproto Hidx] _]%Forall_cons]. cbn [fst] in *.
    rewrite decide_False by done. rewrite obj_set_snoc; [|done|].
    + change ((k, v) :: l) with ([(k, v)] ++ l) in *. rewrite app_assoc in Hnd, Hn |- *. by apply IH.
    + rewrite fmap_app in Hnd. apply NoDup_app in Hnd as (_ & Hnd & _). intros Hin. apply (Hnd _ Hin). by left.
Qed.

Lemma parse_lines ty fields :
  header_ok ty → Forall field_ok fields → names_ok fields →
  parsed_fields (join [nl] ((ty ++ #" {") :: field_lines fields)) = filter (λ p, editable p.2 = true) fields.
Proof.
  intros [Hc Ht] Hf [Hnd Hn]. unfold parsed_fields, exec_all.
  rewrite join_cons by (unfold field_lines; by destruct fields). change ([nl] ++ ?s) with (nl :: s).
  assert (Forall (λ c, is_line_end c = false) (ty ++ #" {")) as Hh.
  { apply Forall_app. split; [by apply plain_line_Forall|by repeat constructor]. }
  pose proof (header_none ty (join [nl] (field_lines fields)) Hc) as H. rewrite app_assoc in H.
  destruct (ty ++ #" {") as [|c w] eqn:E; [by apply app_nil_iff in E as [_ E]|]. cbn [app] in *.
  rewrite (skip_line None c w _ Hh H), matched_fields by done.
  apply (assigned_fields _ []); [by apply Forall_filter|]. split.
  - by apply NoDup_fmap_filter.
  - by apply Forall_filter.
Qed.

Lemma delete_text (fields : jsobj) : Forall (λ p : str * jsval, p.1 ≠ #"text") fields → map_delete #"text" fields = fields.
Proof. intros H. unfold map_delete. by apply filter_all. Qed.

(** * What is saved *)

(** C99: An event that is opened in the editor and saved again keeps its text and,
    of its payload, exactly the fields whose value is a string, a boolean or a
    number without a sign; [null], negative numbers, lists and objects are
    lost. *)
Theorem saved_fields ty text payload :
  header_ok ty → payload_ok payload →
  parseEventContent (buildFromEvent ty text payload) = (text, filter (λ p, editable p.2 = true) payload).
Proof.
  intros Hty [Hnd Hp]. unfold parseEventContent, buildFromEvent.
  assert (Forall field_ok ((#"text", VStr text) :: payload)) as Hf.
  { constructor; [split_and!; [done|by repeat constructor|done..]|]. eapply Forall_impl; [exact Hp|].
    intros p ((? & Hw & _) & ? & ?). split_and!; [done| |done..]. by apply forallb_word. }
  assert (parsed_fields (join [nl] ((ty ++ #" {") :: field_lines ((#"text", VStr text) :: payload)))
          = (#"text", VStr text) :: filter (λ p, editable p.2 = true) payload) as E.
  { rewrite parse_lines; [by rewrite filter_cons, decide_True|done|done|]. split.
    - cbn [fmap list_fmap fst]. apply NoDup_cons. split; [|done]. intros (p & E & Hin)%list_elem_of_fmap.
      rewrite Forall_forall in Hp. by destruct (Hp p Hin) as ((_ & _ & Hne & _) & _).
    - constructor; [done|]. eapply Forall_impl; [exact Hp|]. by intros p ((_ & _ & _ & ? & ?) & _). }
  change (join [nl] _) with (join [nl] ((ty ++ #" {") :: field_lines ((#"text", VStr text) :: payload))). rewrite E.
  f_equal. change (map_delete #"text" ([(#"text", VStr text)] ++ filter (λ p, editable p.2 = true) payload)
    = filter (λ p, editable p.2 = true) payload).
  unfold map_delete at 1. rewrite filter_app, filter_cons, decide_False by (by intros ?). cbn [filter list_filter app].
  apply delete_text, Forall_filter. eapply Forall_impl; [exact Hp|]. by intros p ((_ & _ & ? & _) & _).
Qed.

Lemma saved_fields_witness :
  (header_ok #"note" ∧
   payload_ok [(#"title", VStr #"a: 1"); (#"price", VNum (Dec 125 (-1))); (#"loss", VNum (Dec (-3) 0)); (#"tags", VArr [VStr #"x"])]) ∧
  parseEventContent (buildFromEvent #"note" #"two
lines" [(#"title", VStr #"a: 1"); (#"price", VNum (Dec 125 (-1))); (#"loss", VNum (Dec (-3) 0)); (#"tags", VArr [VStr #"x"])])
  = (#"two
lines", [(#"title", VStr #"a: 1"); (#"price", VNum (Dec 125 (-1)))]).
Proof.
  assert (header_ok #"note" ∧
    payload_ok [(#"title", VStr #"a: 1"); (#"price", VNum (Dec 125 (-1))); (#"loss", VNum (Dec (-3) 0)); (#"tags", VArr [VStr #"x"])]) as [H1 H2].
  { split; [split; [js_decide|vm_compute; reflexivity]|]. split; [js_decide|].
    repeat constructor; cbn [fst snd]; try js_decide; vm_compute; (reflexivity || discriminate || (intros; reflexivity)). }
  split; [done|]. rewrite (saved_fields #"note" #"two
lines" _ H1 H2). vm_compute. reflexivity.
Defined.

(** A payload field named [text] takes the place of the event's text. *)
Example text_field_collides :
  parseEventContent (buildFromEvent #"note" #"the text" [(#"text", VStr #"the field")]) = (#"the field", []).
Proof. vm_compute. reflexivity. Qed.

(** ** A new event *)

(** The payload a grammar's stub stands for. *)
Definition default_value (type : str) : jsval :=
  if decide (type = #"string") then VStr [] else if decide (type = #"number") then VNum (Dec 0 0) else VBool false.
Definition stub_payload (source : str) : jsobj := (λ f, (field_name f, default_value (field_type f))) <$> extractFields source.

Lemma placeholder_text type : placeholder type = json_text (default_value type).
Proof. unfold placeholder, default_value. do 2 (case_decide; [reflexivity|]). reflexivity. Qed.

Lemma exec_loop_elem p fuel prev s m :
  m ∈ exec_loop fuel p prev s → ∃ s' rest, (m, rest) ∈ captures (search_parts p) s'.
Proof.
  revert prev s. induction fuel as [|fuel IH]; intros prev s; cbn [exec_loop]; [intros []%elem_of_nil|].
  destruct (exec_here p prev s) as [[g rest]|] eqn:E.
  - apply exec_here_elem in E as [E _]. intros [->|H]%elem_of_cons; [by eexists _, _|by apply IH in H].
  - destruct s; [by intros []%elem_of_nil|]. apply IH.
Qed.

Lemma extracted_name source f :
  f ∈ extractFields source → field_name f ≠ [] ∧ Forall (λ c, is_word c = true) (field_name f).
Proof.
  intros (m & Hm & E)%list_elem_of_omap. apply exec_loop_elem in Hm as (s & rest & H). cbn [search_parts field_pattern] in H.
  apply captures_spec in H as (w1 & s1 & g1 & _ & _ & H & ->).
  apply captures_spec in H as (w2 & s2 & g2 & _ & _ & H & ->).
  apply captures_spec in H as (w3 & s3 & g3 & _ & H3%in_word & H & ->).
  apply captures_spec in H as (w4 & s4 & g4 & _ & _ & H & ->).
  apply captures_spec in H as (w5 & s5 & g5 & _ & _ & [-> _]%captures_done & ->). by injection E as <-.
Qed.

(** A new event that is saved as its stub stands has the default of every
    field of its grammar, and no text: the stub's [text] line, if the grammar
    has one, is not a field. *)
Lemma stub_saved ty source :
  header_ok ty → names_ok (stub_payload source) →
  parseEventContent (buildStub ty source) = ([], map_delete #"text" (stub_payload source)).
Proof.
  intros Hty Hn.
  assert (Forall field_ok (stub_payload source)) as Hf.
  { apply Forall_forall. intros p (f & -> & Hin)%list_elem_of_fmap. cbn [field_ok fst snd]. split; [by apply extracted_name in Hin|].
    unfold default_value. cbn [snd]. do 2 (case_decide; [by split|]). by split. }
  assert (parsed_fields (buildStub ty source) = stub_payload source) as E.
  { transitivity (parsed_fields (join [nl] ((ty ++ #" {") :: field_lines (stub_payload source)))).
    - unfold buildStub, field_lines, stub_payload. rewrite <- list_fmap_compose. do 4 f_equal. apply list_fmap_ext.
      intros _ f _. cbn [compose fst snd]. unfold field_line. by rewrite placeholder_text.
    - rewrite parse_lines by done. apply filter_all, Forall_forall.
      intros p (f & -> & _)%list_elem_of_fmap. cbn [snd]. unfold default_value. by do 2 (case_decide; [done|]). }
  unfold parseEventContent. rewrite E. f_equal. unfold obj_get.
  destruct (assoc_get _ (stub_payload source)) as [v|] eqn:Ev; [|done].
  apply assoc_get_elem, list_elem_of_fmap in Ev as (f & [= _ ->] & _). cbn [default from_option]. unfold default_value.
  by do 2 (case_decide; [done|]).
Qed.

(** The fields of a grammar, and its stub. *)
Example stub_1 :
  buildStub #"note" #"event note { required title : string, optional n:number
 optional done: boolean requires x: string }"
  = join [nl] [ #"note {"; #"  title: " ++ quoted []; #"  n: 0"; #"  done: false"; #"}"].
Proof. vm_compute. reflexivity. Qed.

(** The schema language has two more types; a field of such a type is not in the
    stub of an event. *)
Example date_fields_missing : extractFields #"required d: date required t: datetime" = [].
Proof. vm_compute. reflexivity. Qed.
