(* ===== verification/StreamDetail.v ===== *)
(** The event panel of one stream, the component of
    apps/oos/src/mainview/components/StreamDetailPanel.tsx, as a transition
    system: what the user does, the answers of the service, and the two modals.
    A callback that waits keeps the values of the render it was made in, so a
    call in flight carries them.  [panel_writes] says what the panel ever asks
    the service to change. *)

From S2P Require Export EventContent.

#[local] Set Warnings "-register-all".

(** * Data *)

Record EventTypeOption := MkEventType { type_name : str; type_source : str }.

Record EventRow := MkEventRow {
  row_id : Z; row_type : str; row_text : str; row_payload : jsobj;
  row_closed : bool; closed_at : option str; created_at : str }.

Inductive PanelMode := Idle | New | Edit (eventId : Z) (closed : bool).
Inductive SortOrder := Desc | Asc.

(** The part of the state that the transitions of the mode replace together. *)
Record Editor := MkEditor {
  mode : PanelMode; typeInput : str; selectedType : option EventTypeOption; editorContent : str;
  saveMsg : option (bool * str) }.

(** What the panel asks the service to change; the mapping is the panel's. *)
Inductive PanelRequest :=
| InsertEvent (stream eventType text : str) (payload : jsobj)
| UpdateEvent (id : Z) (text : str) (payload : jsobj)
| CloseEvent (id : Z)
| DeleteEvent (id : Z).

(** A call in flight, with what its callback holds: the stream of its render,
    and the mode of the render the menu was opened in. *)
Inductive Call :=
| EventsCall (stream : str) | TypesCall (stream : str) | TagCall (stream : str)
| InsertCall (stream eventType : str)
| UpdateCall (stream : str) (id : Z)
| CloseCall (stream : str) (id : Z) (held : PanelMode)
| DeleteCall (stream : str) (id : Z) (held : PanelMode).

Inductive Reply :=
| EventsReply (l : option (list EventRow)) | TypesReply (l : option (list EventTypeOption)) | TagReply (t : option str)
| OkReply (id : option str) | ErrorReply (error : option str) | Rejected.

Inductive Modal := CloseModal (ev : EventRow) (held : PanelMode) | DeleteModal (ev : EventRow) (held : PanelMode).

Record Panel := MkPanel {
  streamId : str; settingsLoaded : bool;
  events : list EventRow; eventsLoading : bool; sortOrder : SortOrder;
  eventTypes : list EventTypeOption; typesLoading : bool; streamTag : option str;
  editor : Editor; saving : bool;
  monaco : bool; completions : option (list FieldDef);
  modal : option Modal; calls : list Call; sent : list PanelRequest }.

(** * Updates of one part *)

Definition set_editor (e : Editor) (p : Panel) : Panel :=
  MkPanel (streamId p) (settingsLoaded p) (events p) (eventsLoading p) (sortOrder p) (eventTypes p) (typesLoading p)
    (streamTag p) e (saving p) (monaco p) (completions p) (modal p) (calls p) (sent p).
Definition set_events (l : list EventRow) (p : Panel) : Panel :=
  MkPanel (streamId p) (settingsLoaded p) l (eventsLoading p) (sortOrder p) (eventTypes p) (typesLoading p)
    (streamTag p) (editor p) (saving p) (monaco p) (completions p) (modal p) (calls p) (sent p).
Definition set_eventsLoading (b : bool) (p : Panel) : Panel :=
  MkPanel (streamId p) (settingsLoaded p) (events p) b (sortOrder p) (eventTypes p) (typesLoading p)
    (streamTag p) (editor p) (saving p) (monaco p) (completions p) (modal p) (calls p) (sent p).
Definition set_sortOrder (o : SortOrder) (p : Panel) : Panel :=
  MkPanel (streamId p) (settingsLoaded p) (events p) (eventsLoading p) o (eventTypes p) (typesLoading p)
    (streamTag p) (editor p) (saving p) (monaco p) (completions p) (modal p) (calls p) (sent p).
Definition set_types (l : list EventTypeOption) (loading : bool) (p : Panel) : Panel :=
  MkPanel (streamId p) (settingsLoaded p) (events p) (eventsLoading p) (sortOrder p) l loading
    (streamTag p) (editor p) (saving p) (monaco p) (completions p) (modal p) (calls p) (sent p).
Definition set_tag (t : option str) (p : Panel) : Panel :=
  MkPanel (streamId p) (settingsLoaded p) (events p) (eventsLoading p) (sortOrder p) (eventTypes p) (typesLoading p)
    t (editor p) (saving p) (monaco p) (completions p) (modal p) (calls p) (sent p).
Definition set_panel_saving (b : bool) (p : Panel) : Panel :=
  MkPanel (streamId p) (settingsLoaded p) (events p) (eventsLoading p) (sortOrder p) (eventTypes p) (typesLoading p)
    (streamTag p) (editor p) b (monaco p) (completions p) (modal p) (calls p) (sent p).
Definition set_completions (l : list FieldDef) (p : Panel) : Panel :=
  MkPanel (streamId p) (settingsLoaded p) (events p) (eventsLoading p) (sortOrder p) (eventTypes p) (typesLoading p)
    (streamTag p) (editor p) (saving p) (monaco p) (Some l) (modal p) (calls p) (sent p).
Definition set_modal (m : option Modal) (p : Panel) : Panel :=
  MkPanel (streamId p) (settingsLoaded p) (events p) (eventsLoading p) (sortOrder p) (eventTypes p) (typesLoading p)
    (streamTag p) (editor p) (saving p) (monaco p) (completions p) m (calls p) (sent p).
Definition set_calls (l : list Call) (p : Panel) : Panel :=
  MkPanel (streamId p) (settingsLoaded p) (events p) (eventsLoading p) (sortOrder p) (eventTypes p) (typesLoading p)
    (streamTag p) (editor p) (saving p) (monaco p) (completions p) (modal p) l (sent p).
Definition mount_editor (p : Panel) : Panel :=
  MkPanel (streamId p) (settingsLoaded p) (events p) (eventsLoading p) (sortOrder p) (eventTypes p) (typesLoading p)
    (streamTag p) (editor p) (saving p) true (completions p) (modal p) (calls p) (sent p).
Definition set_context (stream : str) (loaded : bool) (p : Panel) : Panel :=
  MkPanel stream loaded (events p) (eventsLoading p) (sortOrder p) (eventTypes p) (typesLoading p)
    (streamTag p) (editor p) (saving p) (monaco p) (completions p) (modal p) (calls p) (sent p).
(** A request that changes something, and the callback that waits for it. *)
Definition send_request (r : PanelRequest) (c : Call) (p : Panel) : Panel :=
  MkPanel (streamId p) (settingsLoaded p) (events p) (eventsLoading p) (sortOrder p) (eventTypes p) (typesLoading p)
    (streamTag p) (editor p) (saving p) (monaco p) (completions p) (modal p) (calls p ++ [c]) (sent p ++ [r]).

Definition set_saveMsg (m : option (bool * str)) (p : Panel) : Panel :=
  let e := editor p in set_editor (MkEditor (mode e) (typeInput e) (selectedType e) (editorContent e) m) p.
Definition set_mode (m : PanelMode) (p : Panel) : Panel :=
  let e := editor p in set_editor (MkEditor m (typeInput e) (selectedType e) (editorContent e) (saveMsg e)) p.

(** ** Loading *)

(** [loadEvents] and [loadTypes] of a render for [stream]; nothing before the
    settings are there. *)
Definition loadEvents (stream : str) (p : Panel) : Panel :=
  if settingsLoaded p then set_calls (calls p ++ [EventsCall stream]) (set_eventsLoading true p) else p.
Definition loadTypes (stream : str) (p : Panel) : Panel :=
  if settingsLoaded p then set_calls (calls p ++ [TypesCall stream]) (set_types (eventTypes p) true p) else p.
Definition loadTag (stream : str) (p : Panel) : Panel :=
  if settingsLoaded p then set_calls (calls p ++ [TagCall stream]) p else p.

(** ** Transitions of the mode *)

Definition idle_editor : Editor := MkEditor Idle [] None [] None.
Definition startNew (p : Panel) : Panel := set_editor (MkEditor New [] None [] None) p.
Definition cancel (p : Panel) : Panel := set_editor idle_editor p.

Definition find_type (name : str) (p : Panel) : option EventTypeOption :=
  find (λ t, bool_decide (type_name t = name)) (eventTypes p).

Definition updateCompletions (source : str) (p : Panel) : Panel :=
  if monaco p then set_completions (extractFields source) p else p.

Definition startEdit (ev : EventRow) (p : Panel) : Panel :=
  let found := default (MkEventType (row_type ev) []) (find_type (row_type ev) p) in
  let p := set_editor (MkEditor (Edit (row_id ev) (row_closed ev)) (row_type ev) (Some found)
                         (buildFromEvent (row_type ev) (row_text ev) (row_payload ev)) None) p in
  match type_source found with [] => p | source => updateCompletions source p end.

Definition selectType (name : str) (p : Panel) : Panel :=
  match find_type name p with
  | None => p
  | Some found =>
    updateCompletions (type_source found)
      (set_editor (MkEditor (mode (editor p)) name (Some found) (buildStub name (type_source found)) None) p)
  end.

(** ** Saving *)

Definition handleSave (p : Panel) : Panel :=
  let e := editor p in
  match selectedType e with
  | None => p
  | Some t =>
    if decide (trim (editorContent e) = []) then p
    else
      let parsed := parseEventContent (editorContent e) in
      let busy := set_panel_saving true (set_saveMsg None p) in
      match mode e with
      | Edit _ true => p
      | Idle => set_panel_saving false busy
      | New => send_request (InsertEvent (streamId p) (type_name t) parsed.1 parsed.2) (InsertCall (streamId p) (type_name t)) busy
      | Edit id false => send_request (UpdateEvent id parsed.1 parsed.2) (UpdateCall (streamId p) id) busy
      end
  end.

Definition editingClosed (e : Editor) : bool := match mode e with Edit _ c => c | _ => false end.
Definition canSave (e : Editor) : bool :=
  negb (editingClosed e) && bool_decide (is_Some (selectedType e)) && negb (bool_decide (trim (editorContent e) = []))
  && match mode e with Idle => false | _ => true end.

(** ** What is shown *)

Definition saveLabel (m : PanelMode) : str := match m with Edit _ _ => #"Aktualisieren" | _ => #"Speichern" end.
Definition headerSub (mapping sourceTable : str) (m : PanelMode) : str :=
  match m with
  | New => #"Neuer Event"
  | Edit id closed => #"Bearbeiten: #" ++ show_Z id ++ (if closed then #" (geschlossen)" else [])
  | Idle => mapping ++ #" · " ++ sourceTable
  end.
(** The line of a row: its text, or its payload. *)
Definition row_caption (ev : EventRow) : str :=
  match row_text ev with [] => json_text (VObj (row_payload ev)) | t => t end.

(** * The events *)

Inductive Event :=
| SettingsLoaded | StreamChanged (stream : str)
| NewClicked | RowClicked (n : nat) | CancelClicked | RefreshClicked | Sorted (o : SortOrder) | MessageClosed
| TypeTyped (v : str) | TypeSubmitted (v : str) | EditorMounted | Edited (v : str)
| SaveClicked
| CloseAsked (n : nat) | DeleteAsked (n : nat) | ModalConfirmed | ModalCancelled
| Answered (n : nat) (r : Reply).

Definition rows_shown (p : Panel) : list EventRow :=
  match sortOrder p with Desc => events p | Asc => reverse (events p) end.

(** What the callback of a call does with its answer. *)
Definition message (ok : bool) (m : str) (p : Panel) : Panel := set_saveMsg (Some (ok, m)) p.
Definition call_failed (r : Reply) (fallback : str) (p : Panel) : Panel :=
  match r with ErrorReply e => message false (default fallback e) p | _ => p end.

Definition answer (c : Call) (r : Reply) (p : Panel) : Panel :=
  match c with
  | EventsCall _ => set_eventsLoading false (match r with EventsReply l => set_events (default [] l) p | _ => p end)
  | TypesCall _ => match r with TypesReply l => set_types (default [] l) false p | _ => set_types (eventTypes p) false p end
  | TagCall _ => match r with TagReply t => set_tag t p | _ => set_tag None p end
  | InsertCall stream t =>
    set_panel_saving false
      (match r with
       | OkReply id => loadEvents stream (message true (#"Event " ++ t ++ #" angelegt (id: " ++ default #"?" id ++ #").") p)
       | _ => call_failed r #"insert failed" p
       end)
  | UpdateCall stream id =>
    set_panel_saving false
      (match r with
       | OkReply _ => loadEvents stream (message true (#"Event #" ++ show_Z id ++ #" aktualisiert.") p)
       | _ => call_failed r #"update failed" p
       end)
  | CloseCall stream id held =>
    match r with
    | OkReply _ =>
      let p := loadEvents stream (message true (#"Event #" ++ show_Z id ++ #" geschlossen.") p) in
      match held with Edit id' _ => if decide (id' = id) then set_mode (Edit id true) p else p | _ => p end
    | _ => call_failed r #"close failed" p
    end
  | DeleteCall stream id held =>
    match r with
    | OkReply _ =>
      let p := loadEvents stream (message true (#"Event #" ++ show_Z id ++ #" gelöscht.") p) in
      match held with
      | Edit id' _ => if decide (id' = id) then set_editor (MkEditor Idle [] None [] (saveMsg (editor p))) p else p
      | _ => p
      end
    | _ => call_failed r #"delete failed" p
    end
  end.

(** The effects of a first render with the settings, and of one with another
    stream, in the order they are declared. *)
Definition settings_loaded (p : Panel) : Panel :=
  let p := set_context (streamId p) true p in loadTypes (streamId p) (loadTag (streamId p) (loadEvents (streamId p) p)).
Definition stream_changed (stream : str) (p : Panel) : Panel :=
  let p := set_context stream (settingsLoaded p) p in
  loadTypes stream (loadTag stream (set_editor idle_editor (loadEvents stream p))).

(** The modal's button: the modal closes, then its callback runs. *)
Definition confirmed (m : Modal) (p : Panel) : Panel :=
  let p := set_modal None p in
  match m with
  | CloseModal ev held => send_request (CloseEvent (row_id ev)) (CloseCall (streamId p) (row_id ev) held) p
  | DeleteModal ev held => send_request (DeleteEvent (row_id ev)) (DeleteCall (streamId p) (row_id ev) held) p
  end.

(** What the picker, the editor and the buttons allow. *)
Definition picker_enabled (p : Panel) : bool :=
  match mode (editor p) with New => negb (typesLoading p) && bool_decide (eventTypes p ≠ []) | _ => false end.
Definition editor_shown (e : Editor) : bool :=
  match mode e with Idle => false | _ => bool_decide (is_Some (selectedType e)) end.
Definition can_cancel (e : Editor) : bool := match mode e with New | Edit _ false => true | _ => false end.

(** What the user does where no modal covers the panel. *)
Definition user_event (e : Event) (p : Panel) : Panel :=
  match e with
  | NewClicked => startNew p
  | RowClicked n => match rows_shown p !! n with Some ev => startEdit ev p | None => p end
  | CancelClicked => if can_cancel (editor p) then cancel p else p
  | RefreshClicked => if eventsLoading p then p else loadEvents (streamId p) p
  | Sorted o => set_sortOrder o p
  | MessageClosed => set_saveMsg None p
  | TypeTyped v =>
    if picker_enabled p then
      let e := editor p in
      let p := set_editor (MkEditor (mode e) v (selectedType e) (editorContent e) (saveMsg e)) p in
      if existsb (λ t, bool_decide (type_name t = v)) (eventTypes p) then selectType v p else p
    else p
  | TypeSubmitted v => if picker_enabled p then selectType v p else p
  | EditorMounted =>
    if editor_shown (editor p) then
      let p := mount_editor p in
      match selectedType (editor p) with
      | Some (MkEventType _ ((_ :: _) as source)) => updateCompletions source p
      | _ => p
      end
    else p
  | Edited v =>
    if editor_shown (editor p) && negb (editingClosed (editor p)) then
      let e := editor p in set_editor (MkEditor (mode e) (typeInput e) (selectedType e) v None) p
    else p
  | SaveClicked => if canSave (editor p) && negb (saving p) then handleSave p else p
  | CloseAsked n =>
    match rows_shown p !! n with
    | Some ev => if row_closed ev then p else set_modal (Some (CloseModal ev (mode (editor p)))) p
    | None => p
    end
  | DeleteAsked n =>
    match rows_shown p !! n with
    | Some ev => if row_closed ev then p else set_modal (Some (DeleteModal ev (mode (editor p)))) p
    | None => p
    end
  | _ => p
  end.

Definition panel_event (e : Event) (p : Panel) : Panel :=
  match e with
  | SettingsLoaded => if settingsLoaded p then p else settings_loaded p
  | StreamChanged stream => if decide (stream = streamId p) then p else stream_changed stream p
  | Answered n r => match calls p !! n with Some c => answer c r (set_calls (delete n (calls p)) p) | None => p end
  | ModalConfirmed => match modal p with Some m => confirmed m p | None => p end
  | ModalCancelled => set_modal None p
  | _ => match modal p with Some _ => p | None => user_event e p end
  end.

Definition initial_panel (stream : str) : Panel :=
  MkPanel stream false [] false Desc [] false None idle_editor false false None None [] [].
Definition run (stream : str) (es : list Event) : Panel := foldl (λ p e, panel_event e p) (initial_panel stream) es.

(** * What the editor holds

    Where the text in the editor came from: the row that was opened, the stub of
    the type that was picked. *)

Inductive Origin := NoSource | FromRow (ev : EventRow) | FromStub (name : str).

Definition fills (e : Event) (p : Panel) : option Origin :=
  match modal p with
  | Some _ => None
  | None =>
    match e with
    | RowClicked n => FromRow <$> rows_shown p !! n
    | NewClicked => Some NoSource
    | TypeTyped v | TypeSubmitted v =>
      if picker_enabled p then FromStub ∘ type_name <$> find_type v p else None
    | _ => None
    end
  end.

Definition traced_event (s : Panel * Origin) (e : Event) : Panel * Origin :=
  (panel_event e s.1, default s.2 (fills e s.1)).
Definition traced (stream : str) (es : list Event) : Panel * Origin :=
  foldl traced_event (initial_panel stream, NoSource) es.

Lemma traced_run stream es : (traced stream es).1 = run stream es.
Proof.
  unfold traced, run. generalize (initial_panel stream), NoSource. induction es as [|e es IH]; intros p o; [done|]. apply IH.
Qed.

Definition editor_ok (e : Editor) (o : Origin) : Prop :=
  match mode e with
  | Edit id false => ∃ ev, o = FromRow ev ∧ row_id ev = id ∧ row_closed ev = false
  | New => match selectedType e with Some t => o = FromStub (type_name t) | None => True end
  | _ => True
  end.
Definition modal_ok (m : option Modal) : Prop :=
  match m with Some (CloseModal ev _ | DeleteModal ev _) => row_closed ev = false | None => True end.
Definition panel_ok (p : Panel) (o : Origin) : Prop := editor_ok (editor p) o ∧ modal_ok (modal p).

(** What a transition keeps of the state the invariant speaks of. *)
Definition same_core (p p' : Panel) : Prop := editor p' = editor p ∧ modal p' = modal p ∧ sent p' = sent p.

Lemma loadEvents_core s p : same_core p (loadEvents s p).
Proof. unfold loadEvents. by destruct (settingsLoaded p). Qed.
Lemma loadTypes_core s p : same_core p (loadTypes s p).
Proof. unfold loadTypes. by destruct (settingsLoaded p). Qed.
Lemma loadTag_core s p : same_core p (loadTag s p).
Proof. unfold loadTag. by destruct (settingsLoaded p). Qed.
Lemma updateCompletions_core s p : same_core p (updateCompletions s p).
Proof. unfold updateCompletions. by destruct (monaco p). Qed.

Lemma find_type_name v p t : find_type v p = Some t → type_name t = v.
Proof. unfold find_type. intros H%find_some. by destruct H as [_ H%bool_decide_eq_true]. Qed.

(** The callback of a call sends nothing and opens nothing; at most it closes
    the editor, or makes it read-only. *)
Lemma answer_keeps c r p o :
  panel_ok p o → panel_ok (answer c r p) o ∧ sent (answer c r p) = sent p.
Proof.
  intros [He Hm].
  assert (∀ ok m q, same_core p q → panel_ok (message ok m q) o ∧ sent (message ok m q) = sent p) as Hmsg.
  { intros ok m q (E1 & E2 & E3). unfold message, set_saveMsg. split; [|done]. split; cbn [editor modal set_editor].
    - unfold editor_ok in *. cbn [mode selectedType]. by rewrite E1.
    - by rewrite E2. }
  assert (∀ f, panel_ok (call_failed r f p) o ∧ sent (call_failed r f p) = sent p) as Hfail.
  { intros f. unfold call_failed. destruct r; (split; [by split|done]) || by apply Hmsg. }
  assert (∀ s m, panel_ok (loadEvents s (message true m p)) o ∧ sent (loadEvents s (message true m p)) = sent p) as Hload.
  { intros s m. destruct (loadEvents_core s (message true m p)) as (E1 & E2 & E3). unfold panel_ok.
    rewrite E1, E2, E3. by apply Hmsg. }
  destruct c; cbn [answer].
  - by destruct r.
  - by destruct r.
  - by destruct r.
  - destruct r; try apply Hfail. apply Hload.
  - destruct r; try apply Hfail. apply Hload.
  - destruct r; try apply Hfail. specialize (Hload stream). destruct held as [| |id' cl]; try apply Hload.
    case_decide; [|by apply Hload]. unfold set_mode. destruct (Hload (#"Event #" ++ show_Z id ++ #" geschlossen.")) as [[_ ?] ?].
    by split.
  - destruct r; try apply Hfail. specialize (Hload stream). destruct held as [| |id' cl]; try apply Hload.
    case_decide; [|apply Hload]. destruct (Hload (#"Event #" ++ show_Z id ++ #" gelöscht.")) as [[_ ?] ?]. by split.
Qed.

Lemma selectType_keeps v p o :
  panel_ok p o → (∀ id, mode (editor p) ≠ Edit id false) →
  panel_ok (selectType v p) (default o (FromStub ∘ type_name <$> find_type v p)) ∧ sent (selectType v p) = sent p.
Proof.
  intros [He Hm] Hmode. unfold selectType. destruct (find_type v p) as [t|]; [|done].
  destruct (updateCompletions_core (type_source t)
    (set_editor (MkEditor (mode (editor p)) v (Some t) (buildStub v (type_source t)) None) p)) as (E1 & E2 & E3).
  unfold panel_ok. rewrite E1, E2, E3. split; [|done]. split; [|done]. unfold editor_ok. cbn [editor set_editor mode selectedType].
  destruct (mode (editor p)) as [| |id []] eqn:E; [done|done|done|]. by destruct (Hmode id).
Qed.

(** What may be sent where the panel stands: a row's own text, to the row that
    was opened while it was not closed; a new event of the type whose stub was
    edited, to the panel's stream; and what a modal asks for. *)
Definition allowed (e : Event) (p : Panel) (o : Origin) (r : PanelRequest) : Prop :=
  match r with
  | InsertEvent stream type text payload =>
    e = SaveClicked ∧ mode (editor p) = New ∧ stream = streamId p ∧ o = FromStub type ∧
    (text, payload) = parseEventContent (editorContent (editor p))
  | UpdateEvent id text payload =>
    e = SaveClicked ∧ mode (editor p) = Edit id false ∧
    (∃ ev, o = FromRow ev ∧ row_id ev = id ∧ row_closed ev = false) ∧
    (text, payload) = parseEventContent (editorContent (editor p))
  | CloseEvent id =>
    e = ModalConfirmed ∧ ∃ ev held, modal p = Some (CloseModal ev held) ∧ row_id ev = id ∧ row_closed ev = false
  | DeleteEvent id =>
    e = ModalConfirmed ∧ ∃ ev held, modal p = Some (DeleteModal ev held) ∧ row_id ev = id ∧ row_closed ev = false
  end.

(** The transition keeps the invariant and sends at most one request, which the
    state before allows. *)
Definition step_ok (e : Event) (p : Panel) (o : Origin) (p' : Panel) (o' : Origin) : Prop :=
  panel_ok p' o' ∧ ∃ r : option PanelRequest, sent p' = sent p ++ option_list r ∧ from_option (allowed e p o) True r.

Lemma quiet e p o p' o' : panel_ok p' o' → sent p' = sent p → step_ok e p o p' o'.
Proof. intros H Hs. split; [done|]. exists None. by rewrite app_nil_r. Qed.

Lemma core_ok p p' o : same_core p p' → panel_ok p o → panel_ok p' o.
Proof. intros (E1 & E2 & _) [H1 H2]. unfold panel_ok. by rewrite E1, E2. Qed.

Lemma handleSave_ok p o :
  panel_ok p o → modal p = None → step_ok SaveClicked p o (handleSave p) o.
Proof.
  intros [He Hm] Hmodal. unfold handleSave. destruct (selectedType (editor p)) as [t|] eqn:Ht; [|by apply quiet].
  case_decide; [by apply quiet|]. unfold editor_ok in He. destruct (mode (editor p)) as [| |id [|]] eqn:Hmode.
  - apply quiet; [|done]. split; [|done]. unfold editor_ok. cbn. by rewrite Hmode.
  - rewrite Ht in He. split.
    + split; [|done]. unfold editor_ok. cbn. by rewrite Hmode, Ht.
    + eexists (Some _). split; [reflexivity|]. cbn [from_option allowed]. split_and!; [done..|]. by destruct (parseEventContent _).
  - apply quiet; [|done]. split; [|done]. unfold editor_ok. by rewrite Hmode.
  - split.
    + split; [|done]. unfold editor_ok. cbn. by rewrite Hmode.
    + eexists (Some _). split; [reflexivity|]. cbn [from_option allowed]. split_and!; [done..|]. by destruct (parseEventContent _).
Qed.

Lemma same_editor_ok e e' o : mode e' = mode e → selectedType e' = selectedType e → editor_ok e o → editor_ok e' o.
Proof. unfold editor_ok. by intros -> ->. Qed.

Lemma picker_mode p id : picker_enabled p = true → mode (editor p) ≠ Edit id false.
Proof. unfold picker_enabled. by intros H E; rewrite E in H. Qed.

Lemma startEdit_ok e ev p o : modal_ok (modal p) → step_ok e p o (startEdit ev p) (FromRow ev).
Proof.
  intros Hm. unfold startEdit. set (found := default _ _). set (p1 := set_editor _ p).
  assert (panel_ok p1 (FromRow ev)) as Hp.
  { split; [|done]. unfold editor_ok, p1. cbn [editor set_editor mode]. destruct (row_closed ev) eqn:E; [done|]. by exists ev. }
  destruct (type_source found); [by apply quiet|]. destruct (updateCompletions_core (n :: l) p1) as (E1 & E2 & E3).
  apply quiet; [|by rewrite E3]. by apply (core_ok p1).
Qed.

Lemma panel_user_ok e p o :
  panel_ok p o → modal p = None → step_ok e p o (user_event e p) (default o (fills e p)).
Proof.
  intros Hp Hmodal. pose proof Hp as [He Hm]. unfold fills. rewrite Hmodal.
  destruct e as [|s| |n| | |so| |v|v| |v| |n|n| | |n r]; cbn [user_event default from_option];
    try (by apply quiet).
  - destruct (rows_shown p !! n) as [ev|]; [|by apply quiet]. cbn [fmap option_fmap option_map default from_option id].
    by apply startEdit_ok.
  - destruct (can_cancel (editor p)); by apply quiet.
  - destruct (eventsLoading p); [by apply quiet|]. pose proof (loadEvents_core (streamId p) p) as H.
    apply quiet; [by apply (core_ok p)|apply H].
  - destruct (picker_enabled p) eqn:Epick; [|by apply quiet]. set (p1 := set_editor _ p).
    assert (panel_ok p1 o) as Hp1 by by split; [apply (same_editor_ok (editor p))|].
    assert (find_type v p1 = find_type v p) as Ef by done.
    destruct (existsb _ (eventTypes p1)) eqn:Ex.
    + destruct (selectType_keeps v p1 o Hp1) as [H1 H2]; [intros id; by apply picker_mode|]. rewrite Ef in H1. by apply quiet.
    + apply quiet; [|done]. assert (find_type v p = None) as ->.
      { rewrite <- Ef. unfold find_type. destruct (find _ (eventTypes p1)) as [t|] eqn:Et; [|done].
        apply find_some in Et as [Hin Hn]. exfalso. assert (existsb (λ t, bool_decide (type_name t = v)) (eventTypes p1) = true) as H.
        { apply existsb_exists. by exists t. } congruence. }
      done.
  - destruct (picker_enabled p) eqn:Epick; [|by apply quiet].
    destruct (selectType_keeps v p o Hp) as [H1 H2]; [intros id; by apply picker_mode|]. by apply quiet.
  - destruct (editor_shown (editor p)); [|by apply quiet]. assert (panel_ok (mount_editor p) o) as Hp1 by done.
    destruct (selectedType (editor (mount_editor p))) as [[nm [|c src]]|]; try (by apply quiet).
  - destruct (_ && _); [|by apply quiet]. apply quiet; [|done]. by split; [apply (same_editor_ok (editor p))|].
  - destruct (_ && _); [by apply handleSave_ok|by apply quiet].
  - destruct (rows_shown p !! n) as [ev|]; [|by apply quiet]. destruct (row_closed ev) eqn:E; by apply quiet.
  - destruct (rows_shown p !! n) as [ev|]; [|by apply quiet]. destruct (row_closed ev) eqn:E; by apply quiet.
Qed.

Lemma effects_ok e stream p p1 o :
  panel_ok p o → same_core p p1 → step_ok e p o (loadTypes stream (loadTag stream p1)) o.
Proof.
  intros Hp (E1 & E2 & E3). destruct (loadTag_core stream p1) as (F1 & F2 & F3), (loadTypes_core stream (loadTag stream p1)) as (G1 & G2 & G3).
  apply quiet; [|congruence]. apply (core_ok p); [|done]. split_and!; congruence.
Qed.

Lemma stream_changed_ok e stream p o : panel_ok p o → step_ok e p o (stream_changed stream p) o.
Proof.
  intros [_ Hm]. unfold stream_changed. set (p1 := set_context _ _ p). destruct (loadEvents_core stream p1) as (E1 & E2 & E3).
  destruct (effects_ok e stream (set_editor idle_editor (loadEvents stream p1)) (set_editor idle_editor (loadEvents stream p1)) o)
    as [H1 (r & H2 & _)]; [|done|].
  - split; [done|]. cbn [modal set_editor]. by rewrite E2.
  - destruct (loadTag_core stream (set_editor idle_editor (loadEvents stream p1))) as (_ & _ & F3),
      (loadTypes_core stream (loadTag stream (set_editor idle_editor (loadEvents stream p1)))) as (_ & _ & G3).
    apply quiet; [done|]. rewrite G3, F3. exact E3.
Qed.

Lemma confirmed_ok m p o : panel_ok p o → modal p = Some m → step_ok ModalConfirmed p o (confirmed m p) o.
Proof.
  intros [He Hm] E. rewrite E in Hm. unfold confirmed. destruct m as [ev held|ev held]; (split; [by split|]); eexists (Some _);
    (split; [reflexivity|]); cbn [from_option allowed]; (split; [done|]); by exists ev, held.
Qed.

Lemma event_ok e p o : panel_ok p o → step_ok e p o (panel_event e p) (default o (fills e p)).
Proof.
  intros Hp. pose proof Hp as [He Hm]. destruct (modal p) as [m|] eqn:Hmodal.
  - assert (fills e p = None) as -> by (unfold fills; by rewrite Hmodal). cbn [default from_option].
    destruct e as [|s| |n| | |so| |v|v| |v| |n|n| | |n r]; cbn [panel_event]; rewrite ?Hmodal; try (by apply quiet; [split; rewrite ?Hmodal|]).
    + destruct (settingsLoaded p); [by apply quiet|]. apply (effects_ok _ _ p); [done|exact (loadEvents_core (streamId p) (set_context (streamId p) true p))].
    + case_decide; [by apply quiet|]. by apply stream_changed_ok.
    + by apply confirmed_ok.
    + destruct (calls p !! n) as [c|]; [|by apply quiet].
      destruct (answer_keeps c r (set_calls (delete n (calls p)) p) o) as [H1 H2]; [done|]. by apply quiet.
  - pose proof (panel_user_ok e p o Hp Hmodal) as Hu.
    destruct e as [|s| |n| | |so| |v|v| |v| |n|n| | |n r]; cbn [panel_event]; rewrite ?Hmodal; try exact Hu;
      unfold fills; rewrite Hmodal; cbn [default from_option].
    + destruct (settingsLoaded p); [by apply quiet|]. apply (effects_ok _ _ p); [done|exact (loadEvents_core (streamId p) (set_context (streamId p) true p))].
    + case_decide; [by apply quiet|]. by apply stream_changed_ok.
    + by apply quiet.
    + destruct (calls p !! n) as [c|]; [|by apply quiet].
      destruct (answer_keeps c r (set_calls (delete n (calls p)) p) o) as [H1 H2]; [done|]. by apply quiet.
Qed.

Lemma traced_ok stream es : let s := traced stream es in panel_ok s.1 s.2.
Proof.
  cbv zeta. unfold traced. assert (panel_ok (initial_panel stream) NoSource) as H by done. revert H.
  generalize (initial_panel stream), NoSource. induction es as [|e es IH]; intros p o H; [done|]. cbn [foldl].
  apply IH. by apply event_ok.
Qed.

(** * What the panel changes *)

(** C31: Whatever was clicked, typed and answered before, an event makes the
    panel send at most one request.  An update goes to the row that was opened
    while it was not closed, with what the editor holds of it; an insertion has
    the type whose stub is being edited, and the panel's stream; a row is closed
    or deleted only by the modal that was opened for it, and not when it is
    closed already. *)
Theorem panel_writes stream es e :
  let '(p, o) := traced stream es in
  ∃ r : option PanelRequest, sent (panel_event e p) = sent p ++ option_list r ∧ from_option (allowed e p o) True r.
Proof.
  pose proof (traced_ok stream es) as H. destruct (traced stream es) as [p o]. exact (proj2 (event_ok e p o H)).
Qed.

Lemma event_text_nonempty ty text payload : trim (buildFromEvent ty text payload) ≠ [].
Proof.
  apply (trim_nonempty 123%N); [|done]. unfold buildFromEvent. rewrite join_cons by done.
  apply elem_of_app. left. apply elem_of_app. right. by right; left.
Qed.

(** An open row that is clicked and saved as it stands is sent back with its
    text and those of its fields whose value is a string, a boolean or a number
    without a sign: [null], negative numbers, lists and objects are erased from
    the stored event. *)
Theorem resave_drops p n ev :
  modal p = None → saving p = false → rows_shown p !! n = Some ev → row_closed ev = false →
  header_ok (row_type ev) → payload_ok (row_payload ev) →
  sent (panel_event SaveClicked (panel_event (RowClicked n) p))
  = sent p ++ [UpdateEvent (row_id ev) (row_text ev) (filter (λ f, editable f.2 = true) (row_payload ev))].
Proof.
  intros Hm Hs Hn Hc Hh Hp. cbn [panel_event]. rewrite Hm. cbn [user_event]. rewrite Hn.
  set (q := startEdit ev p). set (t := default (MkEventType (row_type ev) []) (find_type (row_type ev) p)).
  assert (editor q = MkEditor (Edit (row_id ev) false) (row_type ev) (Some t)
            (buildFromEvent (row_type ev) (row_text ev) (row_payload ev)) None ∧
          modal q = None ∧ sent q = sent p ∧ saving q = false) as (E1 & E2 & E3 & E4).
  { unfold q, startEdit. fold t. rewrite Hc. destruct (type_source t); [done|]. unfold updateCompletions.
    destruct (monaco _); done. }
  rewrite E2. unfold canSave, handleSave, editingClosed. rewrite E1, E4. cbn [mode selectedType editorContent negb andb].
  rewrite bool_decide_eq_true_2 by done. rewrite bool_decide_eq_false_2 by apply event_text_nonempty. cbn [negb andb].
  rewrite decide_False by apply event_text_nonempty. rewrite (saved_fields _ _ _ Hh Hp). cbn [send_request sent fst snd].
  change (sent (set_panel_saving true (set_saveMsg None q))) with (sent q). by rewrite E3.
Qed.

(** ** Sessions *)

Definition row_1 : EventRow := MkEventRow 1 #"note" #"one" [(#"n", VNum (Dec (-3) 0)); (#"ok", VBool true)] false None #"".
Definition row_2 : EventRow := MkEventRow 2 #"note" #"two" [] false None #"".
Definition two_rows : list Event := [SettingsLoaded; Answered 0 (EventsReply (Some [row_1; row_2]))].

Lemma resave_drops_witness :
  let p := run #"s" two_rows in
  (modal p = None ∧ saving p = false ∧ rows_shown p !! 0 = Some row_1 ∧ header_ok (row_type row_1) ∧ payload_ok (row_payload row_1)) ∧
  sent (panel_event SaveClicked (panel_event (RowClicked 0) p)) = [UpdateEvent 1 #"one" [(#"ok", VBool true)]].
Proof.
  cbv zeta. assert (header_ok (row_type row_1)) as Hh by (split; [js_decide|vm_compute; reflexivity]).
  assert (payload_ok (row_payload row_1)) as Hp.
  { split; [js_decide|]. repeat constructor; cbn [fst snd]; try js_decide; vm_compute; (reflexivity || discriminate || (intros; reflexivity)). }
  assert (modal (run #"s" two_rows) = None ∧ saving (run #"s" two_rows) = false ∧ rows_shown (run #"s" two_rows) !! 0 = Some row_1)
    as (Hm & Hs & Hn) by (vm_compute; done).
  split; [done|]. rewrite (resave_drops (run #"s" two_rows) 0 row_1 Hm Hs Hn eq_refl Hh Hp). vm_compute. reflexivity.
Defined.

(** The modal's callback holds the mode it was opened in.  The row that was
    opened meanwhile is thrown out of the editor … *)
Example late_delete :
  let p := run #"s" (two_rows ++ [RowClicked 0; DeleteAsked 0; ModalConfirmed; RowClicked 1; Edited #"x"; Answered 2 (OkReply None)]) in
  (mode (editor p), editorContent (editor p)) = (Idle, []).
Proof. vm_compute. reflexivity. Qed.

(** … or stands there, read-only, as the event that was closed. *)
Example late_close :
  let p := run #"s" (two_rows ++ [RowClicked 0; CloseAsked 0; ModalConfirmed; RowClicked 1; Answered 2 (OkReply None)]) in
  (mode (editor p), editorContent (editor p)) = (Edit 1 true, buildFromEvent #"note" #"two" []).
Proof. vm_compute. reflexivity. Qed.

(** A row that is opened after its closing was confirmed stays editable. *)
Example close_unseen :
  let p := run #"s" (two_rows ++ [CloseAsked 0; ModalConfirmed; RowClicked 0; Answered 2 (OkReply None); SaveClicked]) in
  (mode (editor p), sent p) = (Edit 1 false, [CloseEvent 1; UpdateEvent 1 #"one" [(#"ok", VBool true)]]).
Proof. vm_compute. reflexivity. Qed.

(** The history of the stream that was left can arrive last. *)
Example late_history :
  let p := run #"s" [SettingsLoaded; StreamChanged #"t"; Answered 3 (EventsReply (Some [])); Answered 0 (EventsReply (Some [row_1]))] in
  (streamId p, row_id <$> events p) = (#"t", [1%Z]).
Proof. vm_compute. reflexivity. Qed.

(** After an insertion the panel still holds the new event: saving again
    inserts it again. *)
Example insert_twice :
  let p := run #"s" [SettingsLoaded; Answered 2 (TypesReply (Some [MkEventType #"note" #"event note { required ok: boolean }"]));
                     NewClicked; TypeSubmitted #"note"; SaveClicked; Answered 2 (OkReply (Some #"7")); SaveClicked] in
  sent p = let r := InsertEvent #"s" #"note" [] [(#"ok", VBool false)] in [r; r].
Proof. vm_compute. reflexivity. Qed.
