(* ===== verification/NewEvent.v ===== *)
(** The panel that inserts an event,
    apps/oos/src/mainview/components/NewEventPanel.tsx: the three pickers with
    their loads, the text a language model turns into JSON, and the save.
    [insertions_fit] says which insertions the panel can make while its loads
    succeed.  (At this commit [rpc.ts] answers every one of the event calls with
    an error; the panel is modelled against what they are declared to answer.) *)

From S2P Require Export JsonPretty.

#[local] Set Warnings "-register-all".

(** * State *)

Record EventInsert := MkInsert { i_mapping : str; i_stream : str; i_type : str; i_text : str; i_payload : jsobj }.
Record EventMapping := MkMapping { mapping_name : str; enabled : bool }.

Record Pickers := MkPickers {
  mappings : list EventMapping;
  selectedMapping : option str;
  streams : list str; streamsLoading : bool; streams_live : bool; selectedStream : option str;
  schemas : list str; schemasLoading : bool; schemas_live : bool; selectedType : option str;
  grammarSource : str; grammar_live : bool }.

(** [streams_live], [schemas_live] and [grammar_live]: the effect's call is in
    flight and not cancelled.  The answer of a cancelled call does nothing. *)
Record EventForm := MkEventForm {
  pickers : Pickers;
  freeText : str; filling : bool; fillError : option str;
  eventJson : str;
  saving : bool; saveMsg : option (bool * str);
  inserted : list EventInsert }.

Definition code_fence : str := #"```".

(** [raw.replace(/^```json\s*|```\s*$/g, "").trim()] of a trimmed text. *)
Definition strip_fence (raw : str) : str :=
  let opened := if starts_with (code_fence ++ #"json") raw then trim_start (drop 7 raw) else raw in
  trim (if ends_with code_fence opened then slice_end 3 opened else opened).

(** What the editor shows of a completion. *)
Definition filled_text (answer : str) : str :=
  let raw := strip_fence (trim answer) in
  match json_parse raw with Some v => json_pretty 0 v | None => raw end.

Definition systemPrompt (grammar : str) : str :=
  join [nl]
    [ #"You are a data-extraction assistant. The user provides a free-text description of an event.";
      #"Extract the event fields according to the Grammar below and return ONLY a JSON object.";
      #"The JSON must have exactly these top-level keys: " ++ quoted #"text" ++ #" (string) and " ++ quoted #"payload" ++ #" (object).";
      quoted #"text" ++ #" is a clean prose summary of the event suitable for full-text storage.";
      quoted #"payload" ++ #" contains all structured fields extracted from the free text.";
      #"Do not include any explanation, markdown, or code fences — only the raw JSON.";
      [];
      #"Grammar:";
      grammar].
Definition userMessage (type text : str) : str :=
  #"Event type: " ++ type ++ [nl; nl] ++ #"Free text:" ++ [nl] ++ text.

(** * The pickers *)

(** The effects of a render with another mapping: what the last ones asked for
    is cancelled. *)
Definition mapping_effects (p : Pickers) : Pickers :=
  match selectedMapping p with
  | None | Some [] =>
    MkPickers (mappings p) (selectedMapping p) [] (streamsLoading p) false None [] (schemasLoading p) false None [] false
  | Some (_ :: _) =>
    MkPickers (mappings p) (selectedMapping p) (streams p) true true (selectedStream p) (schemas p) true true
      (selectedType p) (grammarSource p) (grammar_live p)
  end.

(** The effect of a render with another mapping or type: it asks for the
    grammar, or empties it and the editor; the second part of the result says
    which. *)
Definition grammar_effect (p : Pickers) : Pickers * bool :=
  match selectedMapping p, selectedType p with
  | Some (_ :: _), Some (_ :: _) =>
    (MkPickers (mappings p) (selectedMapping p) (streams p) (streamsLoading p) (streams_live p) (selectedStream p)
       (schemas p) (schemasLoading p) (schemas_live p) (selectedType p) (grammarSource p) true, false)
  | _, _ =>
    (MkPickers (mappings p) (selectedMapping p) (streams p) (streamsLoading p) (streams_live p) (selectedStream p)
       (schemas p) (schemasLoading p) (schemas_live p) (selectedType p) [] false, true)
  end.

Definition pick_mapping (v : option str) (p : Pickers) : Pickers :=
  MkPickers (mappings p) v (streams p) (streamsLoading p) (streams_live p) None (schemas p) (schemasLoading p)
    (schemas_live p) None [] (grammar_live p).
Definition pick_stream (v : option str) (p : Pickers) : Pickers :=
  MkPickers (mappings p) (selectedMapping p) (streams p) (streamsLoading p) (streams_live p) v (schemas p)
    (schemasLoading p) (schemas_live p) (selectedType p) (grammarSource p) (grammar_live p).
Definition pick_type (v : option str) (p : Pickers) : Pickers :=
  MkPickers (mappings p) (selectedMapping p) (streams p) (streamsLoading p) (streams_live p) (selectedStream p)
    (schemas p) (schemasLoading p) (schemas_live p) v (grammarSource p) (grammar_live p).
Definition set_mappings (l : list EventMapping) (p : Pickers) : Pickers :=
  MkPickers l (selectedMapping p) (streams p) (streamsLoading p) (streams_live p) (selectedStream p)
    (schemas p) (schemasLoading p) (schemas_live p) (selectedType p) (grammarSource p) (grammar_live p).

(** The answers of the effects' calls; [None] is an error. *)
Definition streams_answered (r : option (list str)) (p : Pickers) : Pickers :=
  if streams_live p then
    MkPickers (mappings p) (selectedMapping p) (default (streams p) r) false false (selectedStream p)
      (schemas p) (schemasLoading p) (schemas_live p) (selectedType p) (grammarSource p) (grammar_live p)
  else p.
Definition schemas_answered (r : option (list str)) (p : Pickers) : Pickers :=
  if schemas_live p then
    MkPickers (mappings p) (selectedMapping p) (streams p) (streamsLoading p) (streams_live p) (selectedStream p)
      (default (schemas p) r) false false (selectedType p) (grammarSource p) (grammar_live p)
  else p.
Definition grammar_answered (r : option str) (p : Pickers) : Pickers :=
  if grammar_live p then
    MkPickers (mappings p) (selectedMapping p) (streams p) (streamsLoading p) (streams_live p) (selectedStream p)
      (schemas p) (schemasLoading p) (schemas_live p) (selectedType p) (default (grammarSource p) r) false
  else p.

(** What the pickers offer. *)
Definition mappingOptions (p : Pickers) : list str := mapping_name <$> filter (λ m, enabled m = true) (mappings p).
Definition streams_open (p : Pickers) : bool :=
  bool_decide (selectedMapping p ≠ None) && negb (bool_decide (selectedMapping p = Some [])) && negb (streamsLoading p)
  && negb (bool_decide (streams p = [])).
Definition types_open (p : Pickers) : bool :=
  bool_decide (selectedMapping p ≠ None) && negb (bool_decide (selectedMapping p = Some [])) && negb (schemasLoading p)
  && negb (bool_decide (schemas p = [])).

(** * The panel *)

Definition set_pickers (p : Pickers) (f : EventForm) : EventForm :=
  MkEventForm p (freeText f) (filling f) (fillError f) (eventJson f) (saving f) (saveMsg f) (inserted f).
Definition set_text (t : str) (f : EventForm) : EventForm :=
  MkEventForm (pickers f) t (filling f) None (eventJson f) (saving f) (saveMsg f) (inserted f).
Definition set_fill (busy : bool) (e : option str) (json : str) (f : EventForm) : EventForm :=
  MkEventForm (pickers f) (freeText f) busy e json (saving f) (saveMsg f) (inserted f).
Definition set_json (json : str) (m : option (bool * str)) (f : EventForm) : EventForm :=
  MkEventForm (pickers f) (freeText f) (filling f) (fillError f) json (saving f) m (inserted f).
Definition set_save (busy : bool) (m : option (bool * str)) (f : EventForm) : EventForm :=
  MkEventForm (pickers f) (freeText f) (filling f) (fillError f) (eventJson f) busy m (inserted f).

(** What a value of the editor stands for; [None] is the exception that
    reading a property of [null] raises. *)
Definition event_of (v : jsval) : option (str * jsobj) :=
  match v with
  | VNull | VUndef => None
  | VObj o =>
    Some (match obj_get #"text" o with VStr s => s | _ => [] end, match obj_get #"payload" o with VObj q => q | _ => [] end)
  | _ => Some ([], [])
  end.

(** [handleSave] up to its request. *)
Definition handleSave (f : EventForm) : EventForm :=
  match selectedMapping (pickers f), selectedStream (pickers f), selectedType (pickers f) with
  | Some ((_ :: _) as m), Some ((_ :: _) as s), Some ((_ :: _) as t) =>
    if decide (trim (eventJson f) = []) then f
    else
      match json_parse (eventJson f) with
      | None => set_save false (Some (false, #"Invalid JSON — please fix the event before saving.")) f
      | Some v =>
        match event_of v with
        | None => set_save false None f
        | Some (text, payload) =>
          MkEventForm (pickers f) (freeText f) (filling f) (fillError f) (eventJson f) true None
            (inserted f ++ [MkInsert m s t text payload])
        end
      end
  | _, _, _ => f
  end.
(** Behind it: the identifier of the new event, or the error. *)
Definition insert_answered (r : str + option str) (f : EventForm) : EventForm :=
  match r with
  | inl id =>
    MkEventForm (pickers f) [] (filling f) (fillError f) [] false (Some (true, #"Event inserted (id: " ++ id ++ #").")) (inserted f)
  | inr e => set_save false (Some (false, default #"insert failed" e)) f
  end.

(** [handleFill] up to its request, and behind it. *)
Definition handleFill (f : EventForm) : EventForm :=
  match selectedType (pickers f), grammarSource (pickers f) with
  | Some (_ :: _), _ :: _ => if decide (trim (freeText f) = []) then f else set_fill true None [] f
  | _, _ => f
  end.
Definition fill_answered (r : str + str) (f : EventForm) : EventForm :=
  match r with
  | inl text => set_fill false (fillError f) (filled_text text) f
  | inr e => set_fill false (Some e) (eventJson f) f
  end.

Definition nonempty (o : option str) : bool := match o with Some (_ :: _) => true | _ => false end.
Definition canSave (f : EventForm) : bool :=
  nonempty (selectedMapping (pickers f)) && nonempty (selectedStream (pickers f)) && nonempty (selectedType (pickers f))
  && negb (bool_decide (trim (eventJson f) = [])).
Definition canFill (llmModel : str) (f : EventForm) : bool :=
  nonempty (selectedType (pickers f)) && negb (bool_decide (grammarSource (pickers f) = []))
  && negb (bool_decide (trim (freeText f) = [])) && negb (bool_decide (llmModel = [])).

Inductive Event :=
| MappingsLoaded (l : list EventMapping)
| MappingPicked (v : option str) | StreamPicked (v : option str) | TypePicked (v : option str)
| StreamsAnswered (r : option (list str)) | SchemasAnswered (r : option (list str)) | GrammarAnswered (r : option str)
| TextTyped (t : str) | JsonTyped (t : str)
| FillClicked | FillAnswered (r : str + str)
| SaveClicked | SaveAnswered (r : str + option str) | MessageClosed.

(** A picker offers its options, and nothing. *)
Definition offered (v : option str) (options : list str) : bool :=
  match v with Some s => bool_decide (s ∈ options) | None => true end.

(** A render with another type or mapping runs [grammar_effect]. *)
Definition regrammar (f : EventForm) : EventForm :=
  let '(p, clear) := grammar_effect (pickers f) in
  let f := set_pickers p f in
  if clear : bool then set_json [] (saveMsg f) f else f.

Definition panel_step (llmModel : str) (f : EventForm) (e : Event) : EventForm :=
  let p := pickers f in
  match e with
  | MappingsLoaded l => set_pickers (set_mappings l p) f
  | MappingPicked v =>
    if offered v (mappingOptions p) && negb (bool_decide (mappingOptions p = [])) then
      let same := bool_decide (selectedMapping p = v) in
      let f := set_json [] None (set_pickers (pick_mapping v p) f) in
      if same && bool_decide (selectedType p = None) then f
      else regrammar (if same then f else set_pickers (mapping_effects (pickers f)) f)
    else f
  | StreamPicked v =>
    if streams_open p && offered v (streams p) then set_json (eventJson f) None (set_pickers (pick_stream v p) f) else f
  | TypePicked v =>
    if types_open p && offered v (schemas p) then
      let f := set_json [] None (set_pickers (pick_type v p) f) in
      if decide (selectedType p = v) then f else regrammar f
    else f
  | StreamsAnswered r => set_pickers (streams_answered r p) f
  | SchemasAnswered r => set_pickers (schemas_answered r p) f
  | GrammarAnswered r => set_pickers (grammar_answered r p) f
  | TextTyped t => if nonempty (selectedType p) then set_text t f else f
  | JsonTyped t => set_json t None f
  | FillClicked => if canFill llmModel f && negb (filling f) then handleFill f else f
  | FillAnswered r => if filling f then fill_answered r f else f
  | SaveClicked => if canSave f && negb (saving f) then handleSave f else f
  | SaveAnswered r => if saving f then insert_answered r f else f
  | MessageClosed => set_save (saving f) None f
  end.

Definition initial_form : EventForm :=
  MkEventForm (MkPickers [] None [] false false None [] false false None [] false) [] false None [] false None [].
Definition run (llmModel : str) (es : list Event) : EventForm := foldl (panel_step llmModel) initial_form es.

(** * What is inserted *)

Section served.
(** The streams and the event types the service lists for a mapping. *)
Context (stream_names type_names : str → list str) (llmModel : str).

(** The answers of the two lists are the service's, and no error. *)
Definition served (p : Pickers) (e : Event) : Prop :=
  match e with
  | StreamsAnswered r => ∀ m, selectedMapping p = Some m → r = Some (stream_names m)
  | SchemasAnswered r => ∀ m, selectedMapping p = Some m → r = Some (type_names m)
  | _ => True
  end.

Inductive reaches : EventForm → Prop :=
| reaches_start : reaches initial_form
| reaches_event f e : reaches f → served (pickers f) e → reaches (panel_step llmModel f e).

Definition pickers_ok (p : Pickers) : Prop :=
  (streams_live p = true → streamsLoading p = true) ∧ (schemas_live p = true → schemasLoading p = true) ∧
  (∀ m, selectedMapping p = Some m → m ≠ [] → streamsLoading p = false → streams p = stream_names m) ∧
  (∀ m, selectedMapping p = Some m → m ≠ [] → schemasLoading p = false → schemas p = type_names m) ∧
  (∀ s, selectedStream p = Some s → ∃ m, selectedMapping p = Some m ∧ s ∈ stream_names m) ∧
  (∀ t, selectedType p = Some t → ∃ m, selectedMapping p = Some m ∧ t ∈ type_names m).

Definition insert_ok (i : EventInsert) : Prop :=
  i_stream i ∈ stream_names (i_mapping i) ∧ i_type i ∈ type_names (i_mapping i) ∧
  ∃ json v, json_parse json = Some v ∧ event_of v = Some (i_text i, i_payload i).

Definition form_ok (f : EventForm) : Prop := pickers_ok (pickers f) ∧ Forall insert_ok (inserted f).

Lemma grammar_effect_ok p : pickers_ok p → pickers_ok (grammar_effect p).1.
Proof. intros H. unfold grammar_effect. destruct (selectedMapping p) as [[|? ?]|] eqn:E, (selectedType p) as [[|? ?]|] eqn:E2; unfold pickers_ok in *; cbn [fst streams_live streamsLoading schemas_live schemasLoading selectedMapping streams schemas selectedStream selectedType] in *; rewrite ?E, ?E2 in *; exact H. Qed.

Lemma regrammar_ok f : form_ok f → form_ok (regrammar f).
Proof.
  intros [Hp Hi]. unfold regrammar. pose proof (grammar_effect_ok _ Hp) as H. destruct (grammar_effect (pickers f)) as [p []]; by split.
Qed.

Lemma mapping_picked_ok v p : pickers_ok p → (selectedMapping p ≠ v → pickers_ok (mapping_effects (pick_mapping v p))) ∧
  (selectedMapping p = v → pickers_ok (pick_mapping v p)).
Proof.
  intros (H1 & H2 & H3 & H4 & _ & _). split.
  - intros _. unfold mapping_effects. cbn [selectedMapping pick_mapping].
    destruct v as [[|c m]|]; split_and!; cbn; try done; by intros ? [= <-].
  - intros <-. by split_and!; cbn.
Qed.

Lemma streams_open_spec p : streams_open p = true → ∃ m, selectedMapping p = Some m ∧ m ≠ [] ∧ streamsLoading p = false.
Proof.
  unfold streams_open. rewrite !andb_true_iff, !negb_true_iff. intros (((H1%bool_decide_eq_true & H2%bool_decide_eq_false) & H3) & _).
  destruct (selectedMapping p) as [m|]; [|done]. exists m. split_and!; [done| |done]. by intros ->.
Qed.
Lemma types_open_spec p : types_open p = true → ∃ m, selectedMapping p = Some m ∧ m ≠ [] ∧ schemasLoading p = false.
Proof.
  unfold types_open. rewrite !andb_true_iff, !negb_true_iff. intros (((H1%bool_decide_eq_true & H2%bool_decide_eq_false) & H3) & _).
  destruct (selectedMapping p) as [m|]; [|done]. exists m. split_and!; [done| |done]. by intros ->.
Qed.

Lemma stream_picked_ok v p : pickers_ok p → streams_open p = true → offered v (streams p) = true → pickers_ok (pick_stream v p).
Proof.
  intros (H1 & H2 & H3 & H4 & H5 & H6) (m & Em & Hm & Hl)%streams_open_spec Hv. split_and!; try done.
  cbn. intros s ->. exists m. split; [done|]. rewrite <- (H3 m Em Hm Hl). by apply bool_decide_eq_true in Hv.
Qed.
Lemma type_picked_ok v p : pickers_ok p → types_open p = true → offered v (schemas p) = true → pickers_ok (pick_type v p).
Proof.
  intros (H1 & H2 & H3 & H4 & H5 & H6) (m & Em & Hm & Hl)%types_open_spec Hv. split_and!; try done.
  cbn. intros s ->. exists m. split; [done|]. rewrite <- (H4 m Em Hm Hl). by apply bool_decide_eq_true in Hv.
Qed.

Lemma lists_answered_ok e p : pickers_ok p → served p e →
  match e with
  | StreamsAnswered r => pickers_ok (streams_answered r p)
  | SchemasAnswered r => pickers_ok (schemas_answered r p)
  | GrammarAnswered r => pickers_ok (grammar_answered r p)
  | _ => True
  end.
Proof.
  intros H Hs. pose proof H as (H1 & H2 & H3 & H4 & H5 & H6). destruct e; try done; cbn [served] in Hs.
  - unfold streams_answered. destruct (streams_live p); [|done]. split_and!; cbn; try done. intros m Em _ _. by rewrite (Hs m Em).
  - unfold schemas_answered. destruct (schemas_live p); [|done]. split_and!; cbn; try done. intros m Em _ _. by rewrite (Hs m Em).
  - unfold grammar_answered. by destruct (grammar_live p).
Qed.

Lemma insert_saved_ok f : form_ok f → form_ok (handleSave f).
Proof.
  intros [Hp Hi]. unfold handleSave. destruct (selectedMapping (pickers f)) as [[|cm m]|] eqn:Em; try by split.
  destruct (selectedStream (pickers f)) as [[|cs s]|] eqn:Es; try by split.
  destruct (selectedType (pickers f)) as [[|ct t]|] eqn:Et; try by split.
  case_decide; [by split|]. destruct (json_parse (eventJson f)) as [v|] eqn:Ej; [|by split].
  destruct (event_of v) as [[text payload]|] eqn:Ev; [|by split]. split; [done|]. cbn [inserted]. apply Forall_app. split; [done|].
  constructor; [|done]. destruct Hp as (_ & _ & _ & _ & H5 & H6). rewrite Em in H5, H6.
  destruct (H5 _ Es) as (m1 & [= <-] & Hs), (H6 _ Et) as (m2 & [= <-] & Ht). split_and!; [done..|]. by exists (eventJson f), v.
Qed.

Lemma panel_step_ok f e : form_ok f → served (pickers f) e → form_ok (panel_step llmModel f e).
Proof.
  intros Hf Hs. pose proof Hf as [Hp Hi]. pose proof (lists_answered_ok e _ Hp Hs) as Ha. destruct e; cbn [panel_step]; try by split.
  - destruct (_ && _); [|done]. destruct (mapping_picked_ok v _ Hp) as [Hne Heq]. destruct (bool_decide (selectedMapping _ = v)) eqn:E.
    + apply bool_decide_eq_true in E. cbn [andb]. destruct (bool_decide _); [by split; [apply Heq|]|]. apply regrammar_ok. by split; [apply Heq|].
    + apply bool_decide_eq_false in E. cbn [andb]. apply regrammar_ok. by split; [apply Hne|].
  - destruct (streams_open _ && offered _ _) eqn:E; [|done]. apply andb_true_iff in E as [? ?]. by split; [apply stream_picked_ok|].
  - destruct (types_open _ && offered _ _) eqn:E; [|done]. apply andb_true_iff in E as [? ?].
    case_decide; [by split; [apply type_picked_ok|]|]. apply regrammar_ok. by split; [apply type_picked_ok|].
  - by destruct (nonempty _).
  - destruct (_ && _); [|done]. unfold handleFill. destruct (selectedType _) as [[|? ?]|]; try done.
    destruct (grammarSource _); [done|]. by case_decide.
  - destruct (filling f); [|done]. by destruct r.
  - destruct (_ && _); [|done]. by apply insert_saved_ok.
  - destruct (saving f); [|done]. by destruct r.
Qed.

Lemma reaches_ok f : reaches f → form_ok f.
Proof.
  induction 1 as [|f e _ IH Hs]; [|by apply panel_step_ok]. split; [|done]. by split_and!; cbn.
Qed.

(** While the lists of streams and event types are answered without an
    error, every event that is inserted goes to a stream and has a type the
    service lists for its mapping, and its text and payload are what the JSON in
    the editor says. *)
Theorem insertions_fit f : reaches f → Forall insert_ok (inserted f).
Proof. intros H. apply (reaches_ok f H). Qed.
End served.

(** ** Sessions *)

Definition police_streams (m : str) : list str := if decide (m = #"police") then [ #"case-1"] else [ #"dock-2"].
Definition police_types (m : str) : list str := if decide (m = #"police") then [ #"theft"; #"fire"] else [ #"arrival"].
Definition both_mappings : Event := MappingsLoaded [MkMapping #"police" true; MkMapping #"warehouse" true].
Definition picked : list Event :=
  [both_mappings; MappingPicked (Some #"police"); StreamsAnswered (Some [ #"case-1"]); SchemasAnswered (Some [ #"theft"; #"fire"]);
   StreamPicked (Some #"case-1"); TypePicked (Some #"theft")].
Definition event_json : str := #"{" ++ quoted #"text" ++ #":" ++ quoted #"a" ++ #"," ++ quoted #"payload" ++ #":{" ++ quoted #"n" ++ #":1}}".

Lemma insertions_fit_witness :
  let f := run [] (picked ++ [JsonTyped event_json; SaveClicked]) in
  reaches police_streams police_types [] f ∧
  inserted f = [MkInsert #"police" #"case-1" #"theft" #"a" [(#"n", VNum (Dec 1 0))]] ∧
  Forall (insert_ok police_streams police_types) (inserted f).
Proof.
  cbv zeta. assert (reaches police_streams police_types [] (run [] (picked ++ [JsonTyped event_json; SaveClicked]))) as H.
  { unfold run, picked. cbn [app foldl].
    repeat (apply reaches_event; [|cbn [served]; try exact I; vm_compute; intros ? [= <-]; reflexivity]). apply reaches_start. }
  split; [exact H|]. split; [vm_compute; reflexivity|]. exact (insertions_fit police_streams police_types [] _ H).
Defined.

(** If the list of streams is answered by an error, the streams of the last
    mapping stay on offer, and an event goes to one of them. *)
Example stale_streams :
  inserted (run [] (picked ++
    [MappingPicked (Some #"warehouse"); StreamsAnswered None; SchemasAnswered (Some [ #"arrival"]);
     StreamPicked (Some #"case-1"); TypePicked (Some #"arrival"); JsonTyped event_json; SaveClicked]))
  = [MkInsert #"warehouse" #"case-1" #"arrival" #"a" [(#"n", VNum (Dec 1 0))]].
Proof. vm_compute. reflexivity. Qed.

(** What the model extracted for one type stands in the editor, and is saved,
    under the type that was picked meanwhile. *)
Example late_fill :
  inserted (run #"m" (picked ++
    [GrammarAnswered (Some #"event theft { }"); TextTyped #"stolen"; FillClicked; TypePicked (Some #"fire");
     FillAnswered (inl event_json); SaveClicked]))
  = [MkInsert #"police" #"case-1" #"fire" #"a" [(#"n", VNum (Dec 1 0))]].
Proof. vm_compute. reflexivity. Qed.

(** Until the grammar of a new type arrives, the prompt has the old one. *)
Example old_grammar :
  let f := run #"m" (picked ++ [GrammarAnswered (Some #"event theft { }"); TypePicked (Some #"fire"); TextTyped #"x"]) in
  (canFill #"m" f, selectedType (pickers f), grammarSource (pickers f)) = (true, Some #"fire", #"event theft { }").
Proof. vm_compute. reflexivity. Qed.

(** Any JSON is an event: a number is one without text and fields; [null]
    ends the save without a message. *)
Example bare_value : inserted (run [] (picked ++ [JsonTyped #"5"; SaveClicked])) = [MkInsert #"police" #"case-1" #"theft" [] []].
Proof. vm_compute. reflexivity. Qed.
Example null_value :
  let f := run [] (picked ++ [JsonTyped #"null"; SaveClicked]) in (inserted f, saveMsg f, saving f) = ([], None, false).
Proof. vm_compute. reflexivity. Qed.

Example filled_1 : filled_text (code_fence ++ #"json" ++ [nl] ++ #"[1,{}]" ++ [nl] ++ code_fence) = join [nl] [ #"["; #"  1,"; #"  {}"; #"]"].
Proof. vm_compute. reflexivity. Qed.
