(* ===== verification/ChatHistory.v ===== *)
(** The list of saved chats, apps/oos/src/mainview/components/ChatHistoryPanel.tsx:
    grouping by title, the search, deletion of a group through
    chat-events.ts, the text a dragged row carries, and the age of a row.
    [groups_exact] says what the grouping is without its loop; the age is in
    seconds, the calendar date behind a week is the platform's. *)

From S2P Require Export Stores.
From Stdlib Require Import ZifyBool.

#[local] Set Warnings "-register-all".

(** * Grouping *)

Record ChatSummary := MkSummary { chat_id : str; title : str; updatedAt : str }.
Record ChatGroup := MkGroup { key : str; group_title : str; group_updatedAt : str; members : list ChatSummary }.

(** [s.replace(/\s+/g, " ")] *)
Fixpoint collapse_spaces (in_space : bool) (s : str) : str :=
  match s with
  | [] => []
  | c :: s =>
    if is_space c then (if in_space then collapse_spaces true s else 32%N :: collapse_spaces true s)
    else c :: collapse_spaces false s
  end.
Definition normaliseTitle (t : str) : str := collapse_spaces false (to_lower (trim t)).

(** One turn of the loop: [byKey] refers to the groups of [out]. *)
Fixpoint add_member (k : str) (chat : ChatSummary) (out : list ChatGroup) : list ChatGroup :=
  match out with
  | [] => []
  | g :: out =>
    if decide (key g = k) then MkGroup (key g) (group_title g) (group_updatedAt g) (members g ++ [chat]) :: out
    else g :: add_member k chat out
  end.
Definition group_step (out : list ChatGroup) (chat : ChatSummary) : list ChatGroup :=
  let k := normaliseTitle (title chat) in
  if decide (k ∈ key <$> out) then add_member k chat out else out ++ [MkGroup k (title chat) (updatedAt chat) [chat]].
Definition groupByTitle (chats : list ChatSummary) : list ChatGroup := foldl group_step [] chats.

(** ** The search *)

Definition filtered (query : str) (groups : list ChatGroup) : list ChatGroup :=
  let needle := to_lower (trim query) in
  if decide (needle = []) then groups else filter (λ g, includes needle (to_lower (group_title g)) = true) groups.

(** * Rows *)

Inductive ChatEvent := LoadChat (id : str) | DeleteChat (id : str).

Definition handleClick (g : ChatGroup) : list ChatEvent := match members g with c :: _ => [LoadChat (chat_id c)] | [] => [] end.
(** [confirmed]: the answer of the dialog, which asks only for a group of several. *)
Definition handleDelete (g : ChatGroup) (confirmed : bool) : list ChatEvent :=
  match members g with
  | [c] => [DeleteChat (chat_id c)]
  | ms => if confirmed then DeleteChat ∘ chat_id <$> ms else []
  end.

(** The stored chats after the events. *)
Definition apply_event (chats : list ChatSummary) (e : ChatEvent) : list ChatSummary :=
  match e with DeleteChat id => filter (λ c, chat_id c ≠ id) chats | LoadChat _ => chats end.
Definition after_events (chats : list ChatSummary) (es : list ChatEvent) : list ChatSummary := foldl apply_event chats es.

(** * Dragging *)

Record StoredMessage := MkStored { from_user : bool; message_text : str }.

(** The slot [pendingDragText], the loads under way, the text of the row that is dragged. *)
Record Drag := MkDrag { pendingDragText : option str; drag_loads : list str; transfer : str }.

Inductive DragEvent :=
| DragStart (g : ChatGroup)
| LoadAnswered (n : nat) (messages : option (list StoredMessage))   (** of the n-th load; [None]: no such chat *)
| Drop.

(** [upgraded ?? fallback], and the slot is cleared. *)
Definition dropped (d : Drag) : str := default (transfer d) (pendingDragText d).
Definition first_user (ms : list StoredMessage) : option str := message_text <$> List.find from_user ms.
Definition drag_event (e : DragEvent) (d : Drag) : Drag :=
  match e with
  | DragStart g =>
    match members g with
    | c :: _ => MkDrag (pendingDragText d) (drag_loads d ++ [chat_id c]) (title c)
    | [] => d
    end
  | LoadAnswered n full =>
    match drag_loads d !! n with
    | Some _ =>
      let loads := delete n (drag_loads d) in
      match full ≫= first_user with
      | Some t => MkDrag (if decide (trim t = []) then pendingDragText d else Some t) loads (transfer d)
      | None => MkDrag (pendingDragText d) loads (transfer d)
      end
    | None => d
    end
  | Drop => MkDrag None (drag_loads d) (transfer d)
  end.

(** * The age of a row *)

(** [Math.round(a / b)] of whole numbers. *)
Definition round_div (a b : Z) : Z := ((2 * a + b) / (2 * b))%Z.

Section relative.
Context {D : Type} (parse_date : str → option D) (getTime : D → Z) (locale_date : D → str).
Definition formatRelative (now : Z) (iso : str) : str :=
  match parse_date iso with
  | None => iso
  | Some d =>
    let diffSec := round_div (now - getTime d) 1000 in
    if (diffSec <? 60)%Z then #"gerade eben"
    else if (diffSec <? 60 * 60)%Z then #"vor " ++ num_to_string (Dec (round_div diffSec 60) 0) ++ #" min"
    else if (diffSec <? 60 * 60 * 24)%Z then
      let hours := round_div diffSec 3600 in
      #"vor " ++ num_to_string (Dec hours 0) ++ #" " ++ (if decide (hours = 1%Z) then #"Stunde" else #"Stunden")
    else if (diffSec <? 60 * 60 * 24 * 2)%Z then #"gestern"
    else if (diffSec <? 60 * 60 * 24 * 7)%Z then #"vor " ++ num_to_string (Dec (round_div diffSec (60 * 60 * 24)) 0) ++ #" Tagen"
    else locale_date d
  end.
End relative.

(** * What the grouping is *)

Definition chat_key (c : ChatSummary) : str := normaliseTitle (title c).
Definition group_of (chats : list ChatSummary) (k : str) : list ChatGroup :=
  match filter (λ c, chat_key c = k) chats with
  | [] => []
  | c :: ms => [MkGroup k (title c) (updatedAt c) (c :: ms)]
  end.
Definition groups (chats : list ChatSummary) : list ChatGroup := firsts (chat_key <$> chats) ≫= group_of chats.

(** * Lemmas *)

(** ** One turn *)

Lemma add_member_other k c out : k ∉ key <$> out → add_member k c out = out.
Proof.
  induction out as [|g out IH]; [done|]. rewrite fmap_cons, elem_of_cons. intros H. cbn [add_member].
  rewrite decide_False by (intros E; apply H; by left). f_equal. apply IH. tauto.
Qed.

Lemma group_of_keys chats k : key <$> group_of chats k = if decide (k ∈ chat_key <$> chats) then [k] else [].
Proof.
  unfold group_of. destruct (filter _ chats) as [|c ms] eqn:E.
  - rewrite decide_False; [done|]. intros (c & -> & Hc)%list_elem_of_fmap.
    assert (c ∈ filter (λ c', chat_key c' = chat_key c) chats) as Hin by (by apply list_elem_of_filter). rewrite E in Hin. by apply elem_of_nil in Hin.
  - rewrite decide_True; [done|]. assert (c ∈ filter (λ c, chat_key c = k) chats) as Hin by (rewrite E; by left).
    apply list_elem_of_filter in Hin as [<- Hc]. apply list_elem_of_fmap. by exists c.
Qed.

Lemma keys_of_groups chats ks : (∀ k, k ∈ ks → k ∈ chat_key <$> chats) → key <$> (ks ≫= group_of chats) = ks.
Proof.
  intros H. induction ks as [|k ks IH]; [done|]. rewrite bind_cons, fmap_app, group_of_keys, decide_True by (apply H; by left).
  cbn [app]. f_equal. apply IH. intros k' Hk'. apply H. by right.
Qed.

Lemma group_of_snoc chats c k :
  group_of (chats ++ [c]) k
  = if decide (chat_key c = k) then
      if decide (k ∈ chat_key <$> chats) then add_member k c (group_of chats k) else [MkGroup k (title c) (updatedAt c) [c]]
    else group_of chats k.
Proof.
  unfold group_of at 1. rewrite filter_app. destruct (decide (chat_key c = k)) as [E|E].
  - rewrite (filter_cons_True _ c []) by done. rewrite filter_nil. pose proof (group_of_keys chats k) as Hk. unfold group_of in *.
    destruct (filter _ chats) as [|c0 ms]; destruct (decide (k ∈ chat_key <$> chats)); try done.
    cbn [add_member key app members group_title group_updatedAt]. by rewrite decide_True.
  - rewrite (filter_cons_False _ c []) by done. by rewrite filter_nil, app_nil_r.
Qed.

Lemma group_of_others chats c ks : (∀ k, k ∈ ks → k ≠ chat_key c) → ks ≫= group_of (chats ++ [c]) = ks ≫= group_of chats.
Proof.
  intros H. induction ks as [|k ks IH]; [done|]. rewrite !bind_cons, group_of_snoc.
  rewrite decide_False by (intros E; by apply (H k); [left|]). f_equal. apply IH. intros k' Hk'. apply H. by right.
Qed.

Lemma add_member_groups chats c ks :
  NoDup ks → (∀ k, k ∈ ks → k ∈ chat_key <$> chats) → add_member (chat_key c) c (ks ≫= group_of chats) = ks ≫= group_of (chats ++ [c]).
Proof.
  induction ks as [|k ks IH]; [done|]. intros [Hk Hnd]%NoDup_cons H. rewrite !bind_cons, group_of_snoc.
  assert (k ∈ chat_key <$> chats) as Hin by (apply H; by left). pose proof (group_of_keys chats k) as Hkeys. rewrite decide_True in Hkeys by done.
  destruct (group_of chats k) as [|g [|]] eqn:Eg; try done. injection Hkeys as Hg. cbn [app add_member].
  destruct (decide (chat_key c = k)) as [E|E].
  - rewrite decide_True by congruence. rewrite decide_True by done. rewrite (decide_True (P := key g = k)) by done. cbn [app]. f_equal.
    symmetry. apply group_of_others. intros k' Hk' ->. apply Hk. by rewrite <- E.
  - rewrite decide_False by congruence. cbn [app]. f_equal. apply IH; [done|]. intros k' Hk'. apply H. by right.
Qed.

Lemma group_step_exact chats c : group_step (groups chats) c = groups (chats ++ [c]).
Proof.
  unfold group_step, groups. fold (chat_key c).
  rewrite keys_of_groups by (intros k; by rewrite elem_of_firsts). rewrite fmap_app. cbn [fmap list_fmap]. rewrite firsts_snoc.
  destruct (decide (chat_key c ∈ firsts (chat_key <$> chats))) as [Hc|Hc].
  - rewrite decide_True by by apply elem_of_firsts. apply add_member_groups; [apply firsts_NoDup|]. intros k. by rewrite elem_of_firsts.
  - rewrite decide_False by (by rewrite <- elem_of_firsts). rewrite bind_app, group_of_others by (intros k Hk ->; done).
    f_equal. cbn. rewrite group_of_snoc, decide_True by done. rewrite decide_False by (by rewrite <- elem_of_firsts). done.
Qed.

Lemma groupByTitle_groups chats : groupByTitle chats = groups chats.
Proof.
  induction chats as [|c chats IH] using rev_ind; [done|]. unfold groupByTitle in *. rewrite foldl_app. cbn [foldl]. rewrite IH.
  apply group_step_exact.
Qed.

(** ** What the groups hold *)

Lemma group_members chats k : (group_of chats k ≫= members) = filter (λ c, chat_key c = k) chats.
Proof. unfold group_of. destruct (filter _ chats); [done|]. cbn. by rewrite app_nil_r. Qed.

Lemma partition_by ks chats :
  NoDup ks → (∀ c, c ∈ chats → chat_key c ∈ ks) → (ks ≫= λ k, filter (λ c, chat_key c = k) chats) ≡ₚ chats.
Proof.
  revert chats. induction ks as [|k ks IH]; intros chats Hnd H.
  - destruct chats as [|c chats]; [done|]. assert (chat_key c ∈ []) as Hin by (apply H; by left). by apply elem_of_nil in Hin.
  - apply NoDup_cons in Hnd as [Hk Hnd]. rewrite bind_cons.
    assert ((ks ≫= λ k', filter (λ c, chat_key c = k') chats)
            = ks ≫= λ k', filter (λ c, chat_key c = k') (filter (λ c, ¬ chat_key c = k) chats)) as ->.
    { clear IH H Hnd. induction ks as [|k' ks IHk]; [done|]. rewrite !bind_cons, IHk by (intros Hin; apply Hk; by right). f_equal.
      rewrite list_filter_filter. apply list_filter_iff. intros c. split; [|tauto]. intros E. split; [exact E|].
      intros E'. apply Hk. rewrite <- E', E. by left. }
    rewrite IH; [apply filter_app_complement|done|].
    intros c [Hc Hin]%list_elem_of_filter. by apply H, elem_of_cons in Hin as [?|?].
Qed.

Lemma groups_partition chats : (groupByTitle chats ≫= members) ≡ₚ chats.
Proof.
  rewrite groupByTitle_groups. unfold groups.
  assert (∀ ks, (ks ≫= group_of chats) ≫= members = ks ≫= λ k, filter (λ c, chat_key c = k) chats) as ->.
  { induction ks as [|k ks IH]; [done|]. by rewrite !bind_cons, bind_app, group_members, IH. }
  apply partition_by; [apply firsts_NoDup|]. intros c Hc. apply elem_of_firsts, list_elem_of_fmap. by exists c.
Qed.

(** ** Titles *)

(** The words of a text: what stands between white space. *)
Fixpoint words_from (w : str) (s : str) : list str :=
  match s with
  | [] => match w with [] => [] | _ => [w] end
  | c :: s =>
    if is_space c then match w with [] => words_from [] s | _ => w :: words_from [] s end
    else words_from (w ++ [c]) s
  end.
Definition words (s : str) : list str := words_from [] s.

Lemma lower_space c : is_space (to_lower1 c) = is_space c.
Proof.
  unfold to_lower1. destruct (is_upper c) eqn:E.
  - assert (c ∈ N.of_nat <$> seq 65 26) as Hin.
    { apply list_elem_of_fmap. exists (N.to_nat c). rewrite N2Nat.id. split; [done|]. apply elem_of_seq. unfold is_upper in E. lia. }
    assert (forallb (λ c, negb (is_space (c + 32)%N) && negb (is_space c)) (N.of_nat <$> seq 65 26) = true) as Hall by by vm_compute.
    rewrite forallb_forall in Hall. apply list_elem_of_In, Hall, andb_true_iff in Hin as [H1 H2].
    apply negb_true_iff in H1, H2. by rewrite H1, H2.
  - destruct ((192 <=? c) && (c <=? 222) && negb (c =? 215))%N eqn:E'; [|done].
    assert (c ∈ N.of_nat <$> seq 192 31) as Hin.
    { apply list_elem_of_fmap. exists (N.to_nat c). rewrite N2Nat.id. split; [done|]. apply elem_of_seq. lia. }
    assert (forallb (λ c, negb (is_space (c + 32)%N) && negb (is_space c)) (N.of_nat <$> seq 192 31) = true) as Hall by by vm_compute.
    rewrite forallb_forall in Hall. apply list_elem_of_In, Hall, andb_true_iff in Hin as [H1 H2].
    apply negb_true_iff in H1, H2. by rewrite H1, H2.
Qed.

Lemma words_lower w s : words_from (to_lower w) (to_lower s) = to_lower <$> words_from w s.
Proof.
  unfold to_lower. revert w. induction s as [|c s IH]; intros w; [by destruct w|]. rewrite fmap_cons. cbn [words_from]. rewrite lower_space.
  destruct (is_space c); [destruct w; cbn [fmap list_fmap]; by rewrite <- IH|]. rewrite <- IH. by rewrite fmap_app.
Qed.

(** Behind the white space in front. *)
Lemma words_trim_start s : words (trim_start s) = words s.
Proof. unfold words. induction s as [|c s IH]; [done|]. cbn [trim_start words_from]. destruct (is_space c) eqn:E; [done|].
  cbn [words_from]. by rewrite E.
Qed.

Lemma words_space_end w s c : is_space c = true → words_from w (s ++ [c]) = words_from w s.
Proof.
  intros Hc. revert w. induction s as [|a s IH]; intros w; cbn [words_from app]; [rewrite Hc; by destruct w|].
  destruct (is_space a); [by destruct w; rewrite IH|by rewrite IH].
Qed.
Lemma words_trim_end s : words (trim_end s) = words s.
Proof.
  unfold trim_end. induction s as [|c s IH] using rev_ind; [done|]. rewrite reverse_app. cbn [reverse rev_append app].
  change (reverse [c]) with [c]. cbn [app trim_start]. destruct (is_space c) eqn:Hc.
  - rewrite IH. unfold words. by rewrite words_space_end.
  - change (c :: reverse s) with (reverse [c] ++ reverse s). by rewrite <- reverse_app, reverse_involutive.
Qed.

(** Collapsing writes the words one space apart, where the text ends in a word. *)
Definition ends_in_word (s : str) : Prop := ∀ c, last s = Some c → is_space c = false.

Lemma ends_in_word_cons a c s : ends_in_word (a :: c :: s) → ends_in_word (c :: s).
Proof. done. Qed.

Lemma collapse_words s :
  ends_in_word s →
  (∀ w, w ≠ [] → w ++ collapse_spaces false s = join [32%N] (words_from w s))
  ∧ (s ≠ [] → collapse_spaces true s = join [32%N] (words_from [] s) ∧ words_from [] s ≠ []).
Proof.
  induction s as [|c s IH]; intros He.
  - split; [|done]. intros w Hw. rewrite app_nil_r. by destruct w.
  - assert (ends_in_word s) as He' by (destruct s; [done|by apply ends_in_word_cons in He]). destruct (IH He') as [IH1 IH2].
    cbn [collapse_spaces words_from]. destruct (is_space c) eqn:Hc.
    + assert (s ≠ []) as Hs by (intros ->; specialize (He c eq_refl); congruence). destruct (IH2 Hs) as [E Hne]. split.
      * intros w Hw. destruct w as [|a w]; [done|]. rewrite join_cons by done. by rewrite E.
      * intros _. by split.
    + split.
      * intros w Hw. rewrite <- IH1 by (by destruct w). by rewrite <- app_assoc.
      * intros _. change ([] ++ [c]) with [c]. rewrite <- (IH1 [c]) by done. split; [done|]. clear. assert (∀ w s', w ≠ [] → words_from w s' ≠ []) as H.
        { intros w s'. revert w. induction s' as [|a s' IHs]; intros w Hw; cbn [words_from]; [by destruct w|].
          destruct (is_space a); [by destruct w|]. apply IHs. by destruct w. }
        by apply H.
Qed.

Lemma normaliseTitle_words t : normaliseTitle t = join [32%N] (to_lower <$> words t).
Proof.
  unfold normaliseTitle. assert (words t = words (trim t)) as -> by (unfold trim; by rewrite words_trim_end, words_trim_start).
  unfold words. rewrite <- (words_lower [] (trim t)). change (to_lower []) with (@nil N).
  destruct (trim_ends t) as [Hh Hl]. destruct (trim t) as [|c s]; [done|].
  assert (ends_in_word (to_lower (c :: s))) as He.
  { intros d. unfold to_lower. rewrite fmap_last. destruct (last (c :: s)) as [e|] eqn:E; [|done]. intros [= <-]. rewrite lower_space. by apply Hl. }
  unfold to_lower in *. rewrite fmap_cons in *. cbn [collapse_spaces words_from]. rewrite lower_space, (Hh c eq_refl).
  assert (ends_in_word (to_lower1 <$> s)) as He' by (destruct s; [done|by apply ends_in_word_cons in He]).
  destruct (collapse_words _ He') as [Hc _]. cbn [app]. rewrite <- (Hc [to_lower1 c]) by done. done.
Qed.

(** ** Deleting a group *)

Lemma filter_ext_in {A} (P1 P2 : A → Prop) `{!∀ x, Decision (P1 x), !∀ x, Decision (P2 x)} (l : list A) :
  (∀ x, x ∈ l → P1 x ↔ P2 x) → filter P1 l = filter P2 l.
Proof.
  induction l as [|a l IH]; intros Hl; [done|]. assert (filter P1 l = filter P2 l) as E by (apply IH; intros x Hx; apply Hl; by right).
  pose proof (Hl a ltac:(by left)) as Ha. destruct (decide (P1 a)) as [H1|H1].
  - rewrite !filter_cons_True by tauto. by rewrite E.
  - rewrite !filter_cons_False by tauto. exact E.
Qed.

Lemma delete_all chats ids :
  after_events chats (DeleteChat <$> ids) = filter (λ c, chat_id c ∉ ids) chats.
Proof.
  revert chats. induction ids as [|i ids IH]; intros chats; cbn.
  - induction chats as [|c chats IH]; [done|]. rewrite filter_cons_True by (by intros ?%elem_of_nil). by rewrite <- IH.
  - unfold after_events in *. cbn [foldl apply_event] in *. rewrite IH, list_filter_filter. apply list_filter_iff. intros c. rewrite elem_of_cons. tauto.
Qed.

Lemma group_in chats g : g ∈ groupByTitle chats → ∃ c ms, filter (λ c, chat_key c = key g) chats = c :: ms ∧ members g = c :: ms
  ∧ group_title g = title c ∧ group_updatedAt g = updatedAt c.
Proof.
  rewrite groupByTitle_groups. intros (k & Hg & _)%list_elem_of_bind. unfold group_of in Hg.
  destruct (filter _ chats) as [|c ms] eqn:E; [by apply elem_of_nil in Hg|]. apply list_elem_of_singleton in Hg as ->. by exists c, ms.
Qed.

(** C36: the grouping is the list of the distinct normalised titles in the order in which they come up, each with its chats
    in their order; the normalised title is the lower-case words one space apart; the groups partition the chats, and
    a confirmed deletion of one leaves exactly the chats of the others. *)
Theorem groups_exact chats :
  groupByTitle chats = groups chats
  ∧ key <$> groupByTitle chats = firsts (chat_key <$> chats)
  ∧ (∀ c, chat_key c = join [32%N] (to_lower <$> words (title c)))
  ∧ (groupByTitle chats ≫= members) ≡ₚ chats
  ∧ (NoDup (chat_id <$> chats) → ∀ g, g ∈ groupByTitle chats →
     handleClick g = LoadChat <$> (chat_id <$> take 1 (filter (λ c, chat_key c = key g) chats))
     ∧ after_events chats (handleDelete g true) = filter (λ c, chat_key c ≠ key g) chats).
Proof.
  split; [apply groupByTitle_groups|]. split.
  { rewrite groupByTitle_groups. apply keys_of_groups. intros k. by rewrite elem_of_firsts. }
  split; [intros c; apply normaliseTitle_words|]. split; [apply groups_partition|].
  intros Hid g Hg. destruct (group_in chats g Hg) as (c & ms & Hf & Hm & _). split; [unfold handleClick; by rewrite Hm, Hf|].
  assert (handleDelete g true = DeleteChat <$> (chat_id <$> members g)) as ->.
  { unfold handleDelete. rewrite Hm. rewrite <- list_fmap_compose. by destruct ms. }
  rewrite delete_all, Hm, <- Hf. apply filter_ext_in. intros c' Hc'. rewrite list_elem_of_fmap. split.
  - intros Hn E. apply Hn. exists c'. by rewrite list_elem_of_filter.
  - intros Hn (c'' & E & [Hk Hc'']%list_elem_of_filter). apply Hn.
    apply list_elem_of_lookup in Hc' as [i Hi], Hc'' as [j Hj]. assert (i = j) as ->; [|congruence].
    eapply NoDup_lookup; [exact Hid| |]; rewrite list_lookup_fmap; [by rewrite Hi|by rewrite Hj, E].
Qed.

(** * Cases *)

Definition summary (i t : string) : ChatSummary := MkSummary (js i) (js t) #"2024-05-01".
Definition history : list ChatSummary :=
  [summary "c" "Zeige  mir alle Personen "; summary "b" "Umsatz?"; summary "a" "zeige mir ALLE personen"; summary "z" "umsatz"].

Example groups_exact_witness :
  (key <$> groupByTitle history = [ #"zeige mir alle personen"; #"umsatz?"; #"umsatz"])
  ∧ ∃ g, g ∈ groupByTitle history ∧ after_events history (handleDelete g true) = filter (λ c, chat_key c ≠ key g) history.
Proof.
  assert (NoDup (chat_id <$> history)) as Hid by decide_closed.
  destruct (groups_exact history) as (_ & H1 & _ & _ & H2). split; [rewrite H1; by vm_compute|].
  assert (∃ g, g ∈ groupByTitle history) as [g Hg] by (eexists; vm_compute; left).
  exists g. split; [exact Hg|]. by apply (H2 Hid).
Defined.

(** The search looks at the newest title only, and takes its white space as it is. *)
Example search_misses :
  filtered #"zeige mir" (groupByTitle history) = [] ∧ length (filtered #"UMSATZ" (groupByTitle history)) = 2.
Proof. split; by vm_compute. Qed.

(** Nothing is deleted without the dialog, except a single chat. *)
Example delete_asks :
  (λ g, handleDelete g false) <$> groupByTitle history = [ []; [DeleteChat #"b"]; [DeleteChat #"z"] ].
Proof. by vm_compute. Qed.

(** A drag is dropped before its chat is loaded: the text waits for the next drop, of another row. *)
Definition no_drag : Drag := MkDrag None [] [].
Definition drags (es : list DragEvent) : Drag := foldl (λ d e, drag_event e d) no_drag es.
Definition row (i t : string) : ChatGroup := MkGroup (js t) (js t) [] [summary i t].
Example late_text :
  dropped (drags [DragStart (row "a" "one"); Drop; LoadAnswered 0 (Some [MkStored true #"first question"]); DragStart (row "b" "two")])
  = #"first question".
Proof. by vm_compute. Qed.
Example text_in_time :
  dropped (drags [DragStart (row "a" "one"); LoadAnswered 0 (Some [MkStored false #"hello"; MkStored true #"first question"])])
  = #"first question" ∧ dropped (drags [DragStart (row "a" "one")]) = #"one".
Proof. split; by vm_compute. Qed.

(** Just under an hour is 60 minutes, just under a day 24 hours. *)
Example ages :
  (λ s, formatRelative (λ _, Some ()) (λ _, 0%Z) (λ _, #"date") (s * 1000) []) <$> [0; 59; 3599; 3600; 86399; 86400; 604799; 604800]%Z
  = [ #"gerade eben"; #"gerade eben"; #"vor 60 min"; #"vor 1 Stunde"; #"vor 24 Stunden"; #"gestern"; #"vor 7 Tagen"; #"date"].
Proof. by vm_compute. Qed.
