(* ===== verification/GrammarTypes.v ===== *)
(** The panel of the event types, apps/oosd/src/mainview/components/EventTypesPanel.tsx,
    as a transition system: a list, an editor with its tags, the dialog for a new
    type and the one that deletes.  [saves_fit] says what a save sends while
    the user waits for the answers; the sessions at the end, what it sends
    otherwise. *)

From S2P Require Export Lexing.

#[local] Set Warnings "-register-all".

Definition stubGrammar (name : str) : str :=
  #"EventType " ++ quoted name ++ #" {" ++ [nl] ++ #"  required text: string" ++ [nl] ++ #"}" ++ [nl].

(** * State *)

Record GrammarType := MkGrammarType { gt_name : str; gt_tags : list str }.

(** The calls, each with the callback that waits for it. *)
Inductive Call :=
| ListCall
| LoadCall (name : str)
| SaveCall
| TagsCall (name : str) (tags : list str)
| InsertCall (name : str)             (** [insertGrammarType] *)
| StubCall (name : str)               (** the save of the stub behind it *)
| RelistCall (name : str)             (** and the list behind that *)
| DeleteCall
| UnlistCall.                         (** the list behind a deletion *)

(** What a method of the seam answers: a list, which is [undefined] in a refusal
    the seam does not see; a source, and whether there is an error; a result. *)
Inductive Reply :=
| TypesReply (l : option (list GrammarType))
| SourceReply (source : option str)
| OkReply (ok : bool) (error : option str).

Inductive Write :=
| SaveSource (name source : str) | SaveTags (name : str) (tags : list str) | Insert (name : str) | Delete (name : str).

Record Panel := MkPanel {
  types : option (list GrammarType);  (** [None]: [undefined], which the next render fails on *)
  typesLoading : bool;
  selected : option GrammarType;
  source : str; dirty : bool; saving : bool; saveMsg : option (bool * str);
  tags : list str; tagsDirty : bool; tagsSaving : bool;
  newOpen : bool; newName : str; newError : option str; inserting : bool;
  deleteOpen : bool; deleting : bool;
  calls : list Call; written : list Write }.

(** ** Updates of one part *)

Definition set_types (l : option (list GrammarType)) (loading : bool) (p : Panel) : Panel :=
  MkPanel l loading (selected p) (source p) (dirty p) (saving p) (saveMsg p) (tags p) (tagsDirty p) (tagsSaving p)
    (newOpen p) (newName p) (newError p) (inserting p) (deleteOpen p) (deleting p) (calls p) (written p).
Definition set_selected (t : option GrammarType) (p : Panel) : Panel :=
  MkPanel (types p) (typesLoading p) t (source p) (dirty p) (saving p) (saveMsg p) (tags p) (tagsDirty p) (tagsSaving p)
    (newOpen p) (newName p) (newError p) (inserting p) (deleteOpen p) (deleting p) (calls p) (written p).
Definition set_text (s : str) (d : bool) (p : Panel) : Panel :=
  MkPanel (types p) (typesLoading p) (selected p) s d (saving p) (saveMsg p) (tags p) (tagsDirty p) (tagsSaving p)
    (newOpen p) (newName p) (newError p) (inserting p) (deleteOpen p) (deleting p) (calls p) (written p).
Definition set_save (b : bool) (m : option (bool * str)) (p : Panel) : Panel :=
  MkPanel (types p) (typesLoading p) (selected p) (source p) (dirty p) b m (tags p) (tagsDirty p) (tagsSaving p)
    (newOpen p) (newName p) (newError p) (inserting p) (deleteOpen p) (deleting p) (calls p) (written p).
Definition set_tags (l : list str) (d busy : bool) (p : Panel) : Panel :=
  MkPanel (types p) (typesLoading p) (selected p) (source p) (dirty p) (saving p) (saveMsg p) l d busy
    (newOpen p) (newName p) (newError p) (inserting p) (deleteOpen p) (deleting p) (calls p) (written p).
Definition set_new (opened : bool) (name : str) (e : option str) (busy : bool) (p : Panel) : Panel :=
  MkPanel (types p) (typesLoading p) (selected p) (source p) (dirty p) (saving p) (saveMsg p) (tags p) (tagsDirty p)
    (tagsSaving p) opened name e busy (deleteOpen p) (deleting p) (calls p) (written p).
Definition set_confirm (opened busy : bool) (p : Panel) : Panel :=
  MkPanel (types p) (typesLoading p) (selected p) (source p) (dirty p) (saving p) (saveMsg p) (tags p) (tagsDirty p)
    (tagsSaving p) (newOpen p) (newName p) (newError p) (inserting p) opened busy (calls p) (written p).
Definition set_calls (l : list Call) (p : Panel) : Panel :=
  MkPanel (types p) (typesLoading p) (selected p) (source p) (dirty p) (saving p) (saveMsg p) (tags p) (tagsDirty p)
    (tagsSaving p) (newOpen p) (newName p) (newError p) (inserting p) (deleteOpen p) (deleting p) l (written p).
Definition call (c : Call) (p : Panel) : Panel := set_calls (calls p ++ [c]) p.
Definition write (w : Write) (p : Panel) : Panel :=
  MkPanel (types p) (typesLoading p) (selected p) (source p) (dirty p) (saving p) (saveMsg p) (tags p) (tagsDirty p)
    (tagsSaving p) (newOpen p) (newName p) (newError p) (inserting p) (deleteOpen p) (deleting p) (calls p) (written p ++ [w]).

(** * The callbacks *)

(** [loadTypes], with the callback that goes on behind it. *)
Definition loadTypes (c : Call) (p : Panel) : Panel := call c (set_types (types p) true p).

Definition selectType (t : GrammarType) (p : Panel) : Panel :=
  call (LoadCall (gt_name t))
    (set_tags (gt_tags t) false (tagsSaving p) (set_text (source p) false (set_save (saving p) None (set_selected (Some t) p)))).

Definition handleSave (p : Panel) : Panel :=
  match selected p with
  | None => p
  | Some t => call SaveCall (write (SaveSource (gt_name t) (source p)) (set_save true None p))
  end.

Definition handleSaveTags (p : Panel) : Panel :=
  match selected p with
  | None => p
  | Some t =>
    call (TagsCall (gt_name t) (tags p)) (write (SaveTags (gt_name t) (tags p)) (set_tags (tags p) (tagsDirty p) true p))
  end.

Definition handleInsert (p : Panel) : Panel :=
  let name := trim (newName p) in
  if decide (name = []) then set_new (newOpen p) (newName p) (Some #"Name is required.") (inserting p) p
  else if existsb (λ t, bool_decide (gt_name t = name)) (default [] (types p)) then
    set_new (newOpen p) (newName p) (Some #"An event type with this name already exists.") (inserting p) p
  else call (InsertCall name) (write (Insert name) (set_new (newOpen p) (newName p) None true p)).

Definition handleDelete (p : Panel) : Panel :=
  match selected p with
  | None => p
  | Some t => call DeleteCall (write (Delete (gt_name t)) (set_confirm (deleteOpen p) true p))
  end.

(** The entry of the list with its new tags. *)
Definition retag (name : str) (l : list str) (ts : list GrammarType) : list GrammarType :=
  (λ t, if decide (gt_name t = name) then MkGrammarType (gt_name t) l else t) <$> ts.

Definition listed (r : Reply) (p : Panel) : Panel :=
  match r with TypesReply l => set_types l false p | _ => set_types (types p) false p end.

(** What follows the list behind an insertion: the new type is shown. *)
Definition show_new (name : str) (p : Panel) : Panel :=
  set_new (newOpen p) (newName p) (newError p) false
    (set_text (stubGrammar name) false (set_selected (Some (MkGrammarType name [])) p)).

Definition answer (c : Call) (r : Reply) (p : Panel) : Panel :=
  match c with
  | ListCall => listed r p
  | LoadCall name =>
    set_text (match r with SourceReply (Some s) => s | _ => stubGrammar name end) (dirty p) p
  | SaveCall =>
    match r with
    | OkReply true _ => set_save false (Some (true, #"Saved.")) (set_text (source p) false p)
    | OkReply false e => set_save false (Some (false, default #"save failed" e)) p
    | _ => set_save false (Some (false, #"save failed")) p
    end
  | TagsCall name l =>
    match r with
    | OkReply true _ =>
      set_tags (tags p) false false (set_types (retag name l <$> types p) (typesLoading p) p)
    | OkReply false e => set_tags (tags p) (tagsDirty p) false (set_save (saving p) (Some (false, default #"tags save failed" e)) p)
    | _ => set_tags (tags p) (tagsDirty p) false (set_save (saving p) (Some (false, #"tags save failed")) p)
    end
  | InsertCall name =>
    match r with
    | OkReply true _ => call (StubCall name) (write (SaveSource name (stubGrammar name)) p)
    | OkReply false e => set_new (newOpen p) (newName p) (Some (default #"insert failed" e)) false p
    | _ => set_new (newOpen p) (newName p) (Some #"insert failed") false p
    end
  | StubCall name => loadTypes (RelistCall name) (set_new false [] (newError p) (inserting p) p)
  | RelistCall name => show_new name (listed r p)
  | DeleteCall =>
    match r with
    | OkReply true _ =>
      loadTypes UnlistCall
        (set_confirm false (deleting p) (set_save (saving p) None
           (set_tags [] false (tagsSaving p) (set_text [] false (set_selected None p)))))
    | OkReply false e => set_confirm false false (set_save (saving p) (Some (false, default #"delete failed" e)) p)
    | _ => set_confirm false false (set_save (saving p) (Some (false, #"delete failed")) p)
    end
  | UnlistCall => set_confirm (deleteOpen p) false (listed r p)
  end.

(** * The events *)

Inductive Event :=
| Refresh | Select (n : nat) | Edited (s : str) | SaveClicked | MessageClosed
| TagsEdited (l : list str) | TagsClicked
| NewClicked | NewNamed (s : str) | NewCancelled | CreateClicked
| DeleteClicked | DeleteCancelled | DeleteConfirmed
| Answered (n : nat) (r : Reply).

(** What the buttons allow; a dialog covers the rest.  [disabled] is the
    panel's property. *)
Definition uncovered (p : Panel) : bool := negb (newOpen p) && negb (deleteOpen p).

Definition user_event (disabled : bool) (e : Event) (p : Panel) : Panel :=
  match e with
  | Refresh => if disabled || typesLoading p then p else loadTypes ListCall p
  | Select n => match default [] (types p) !! n with Some t => selectType t p | None => p end
  | Edited s => match selected p with Some _ => set_save (saving p) None (set_text s true p) | None => p end
  | SaveClicked => if dirty p && negb (saving p) then handleSave p else p
  | MessageClosed => set_save (saving p) None p
  | TagsEdited l => match selected p with Some _ => set_tags l true (tagsSaving p) p | None => p end
  | TagsClicked => if tagsDirty p && negb (tagsSaving p) then handleSaveTags p else p
  | NewClicked => if disabled then p else set_new true [] None (inserting p) p
  | DeleteClicked => match selected p with Some _ => if saving p then p else set_confirm true (deleting p) p | None => p end
  | _ => p
  end.

Definition panel_event (disabled : bool) (p : Panel) (e : Event) : Panel :=
  match e with
  | Answered n r => match calls p !! n with Some c => answer c r (set_calls (delete n (calls p)) p) | None => p end
  | NewNamed s => if newOpen p then set_new true s None (inserting p) p else p
  | NewCancelled => if newOpen p then set_new false (newName p) (newError p) (inserting p) p else p
  | CreateClicked =>
    if newOpen p && negb (bool_decide (trim (newName p) = [])) && negb (inserting p) then handleInsert p else p
  | DeleteCancelled => if deleteOpen p then set_confirm false (deleting p) p else p
  | DeleteConfirmed => if deleteOpen p && negb (deleting p) then handleDelete p else p
  | _ => if uncovered p then user_event disabled e p else p
  end.

(** The effect of the first render lists the types. *)
Definition initial_panel : Panel :=
  loadTypes ListCall
    (MkPanel (Some []) false None [] false false None [] false false false [] None false false false [] []).
Definition run (disabled : bool) (es : list Event) : Panel := foldl (panel_event disabled) initial_panel es.

(** * What a save sends *)

(** The name whose text stands in the editor: it was loaded, or created, under
    it. *)
Definition owner_after (p : Panel) (e : Event) (o : option str) : option str :=
  match e with
  | Answered n _ =>
    match calls p !! n with
    | Some (LoadCall name | RelistCall name) => Some name
    | _ => o
    end
  | _ => o
  end.

(** The user waits: nothing is picked, saved, created or deleted while a call is
    in flight. *)
Definition waits (p : Panel) (e : Event) : Prop :=
  match e with Select _ | SaveClicked | CreateClicked | DeleteConfirmed => calls p = [] | _ => True end.

Inductive reaches (disabled : bool) : Panel → option str → Prop :=
| reaches_start : reaches disabled initial_panel None
| reaches_event p o e : reaches disabled p o → waits p e → reaches disabled (panel_event disabled p e) (owner_after p e o).

(** The calls whose callback changes what is selected, or the text. *)
Definition decides (c : Call) : Prop :=
  match c with ListCall | SaveCall | TagsCall _ _ => False | _ => True end.
#[local] Instance decides_dec c : Decision (decides c).
Proof. destruct c; solve_decision. Defined.
Definition deciding (p : Panel) : list Call := filter decides (calls p).

Definition fits (p : Panel) (o : option str) : Prop := ∀ t, selected p = Some t → o = Some (gt_name t).
Definition panel_ok (p : Panel) (o : option str) : Prop :=
  match deciding p with
  | [] | [InsertCall _] | [StubCall _] | [DeleteCall] | [UnlistCall] => fits p o
  | [LoadCall name] => ∃ t, selected p = Some t ∧ gt_name t = name
  | [RelistCall _] => True
  | _ => False
  end.

(** What a transition keeps: the selection, and the calls that decide. *)
Definition keeps (p p' : Panel) : Prop := selected p' = selected p ∧ deciding p' = deciding p.

Lemma keeps_ok p p' o : keeps p p' → panel_ok p o → panel_ok p' o.
Proof. intros [E1 E2]. unfold panel_ok, fits. by rewrite E2, E1. Qed.

Lemma deciding_call c p : deciding (call c p) = deciding p ++ filter decides [c].
Proof. apply filter_app. Qed.

Lemma deciding_answered n c p :
  calls p !! n = Some c →
  (¬ decides c → deciding (set_calls (delete n (calls p)) p) = deciding p) ∧
  (decides c → (∃ o, panel_ok p o) → deciding p = [c] ∧ deciding (set_calls (delete n (calls p)) p) = []).
Proof.
  intros Hn. unfold deciding. cbn [calls set_calls]. pose proof (take_drop_middle _ _ _ Hn) as E. rewrite delete_take_drop.
  assert (filter decides (calls p) = filter decides (take n (calls p)) ++ filter decides (c :: drop (S n) (calls p))) as Ef.
  { rewrite <- filter_app. by rewrite E. }
  rewrite filter_app. split.
  - intros Hc. rewrite Ef, filter_cons, decide_False by done. done.
  - intros Hc Hok. rewrite filter_cons, decide_True in Ef by done.
    assert (length (filter decides (calls p)) ≤ 1) as Hl.
    { destruct Hok as [o Hok]; unfold panel_ok, deciding in Hok; destruct (filter decides (calls p)) as [|[] [|? ?]]; cbn; try lia; done. }
    rewrite Ef in Hl |- *. rewrite length_app in Hl. cbn [length] in Hl.
    destruct (filter decides (take n (calls p))), (filter decides (drop (S n) (calls p))); cbn in *; try lia. done.
Qed.

Lemma answer_other c r p : ¬ decides c → keeps p (answer c r p).
Proof.
  intros Hc. destruct c; try (exfalso; by apply Hc); cbn [answer listed];
    destruct r as [l|s|[] e]; done.
Qed.

Lemma answer_ok c r p q o :
  decides c → panel_ok p o → deciding p = [c] → selected q = selected p → deciding q = [] →
  panel_ok (answer c r q) (match c with LoadCall name | RelistCall name => Some name | _ => o end).
Proof.
  intros Hc Hp Ep Es Eq. unfold panel_ok in Hp. rewrite Ep in Hp.
  assert (∀ q' o', selected q' = selected q → deciding q' = deciding q → fits p o' → panel_ok q' o') as Hk.
  { intros q' o' E1 E2 Hf. unfold panel_ok. rewrite E2, Eq. unfold fits. by rewrite E1, Es. }
  destruct c; try (exfalso; by apply Hc); cbn [answer].
  - destruct Hp as (t & Et & <-). apply Hk; [done|done|]. intros t'. rewrite Et. by intros [= <-].
  - destruct r as [l|s|[] e]; try (by apply Hk). unfold panel_ok. rewrite deciding_call.
    change (deciding (write _ q)) with (deciding q). rewrite Eq. unfold fits. cbn. by rewrite Es.
  - unfold panel_ok, loadTypes. rewrite deciding_call. change (deciding (set_types _ _ _)) with (deciding q). by rewrite Eq.
  - unfold panel_ok. assert (deciding (show_new name (listed r q)) = []) as -> by by destruct r. by intros t [= <-].
  - destruct r as [l|s|[] e]; try (by apply Hk). unfold panel_ok, loadTypes. rewrite deciding_call.
    change (deciding (set_types _ _ _)) with (deciding q). by rewrite Eq.
  - apply Hk; [by destruct r|by destruct r|done].
Qed.

Lemma panel_event_ok disabled p e o : panel_ok p o → waits p e → panel_ok (panel_event disabled p e) (owner_after p e o).
Proof.
  intros Hp Hw.
  assert (∀ p', keeps p p' → panel_ok p' o) as Hk by (intros p' H; by apply (keeps_ok p)).
  assert (keeps p p) as Hrefl by done.
  assert (calls p = [] → deciding p = []) as Hnone by (unfold deciding; by intros ->).
  assert (calls p = [] → fits p o) as Hfits by (intros E%Hnone; unfold panel_ok in Hp; by rewrite E in Hp).
  destruct e; cbn [panel_event owner_after waits] in *; try (destruct (uncovered p); [|by apply Hk]); cbn [user_event].
  - destruct (disabled || typesLoading p); [by apply Hk|]. apply Hk. split; [done|]. unfold loadTypes. by rewrite deciding_call, app_nil_r.
  - destruct (default [] (types p) !! n) as [t|]; [|by apply Hk]. unfold panel_ok, selectType. rewrite deciding_call.
    change (deciding (set_tags _ _ _ _)) with (deciding p). rewrite (Hnone Hw). by exists t.
  - destruct (selected p) eqn:E; by apply Hk.
  - destruct (_ && _); [|by apply Hk]. unfold handleSave. destruct (selected p) eqn:E; [|by apply Hk].
    apply Hk. split; [done|]. by rewrite deciding_call, app_nil_r.
  - by apply Hk.
  - destruct (selected p) eqn:E; by apply Hk.
  - destruct (_ && _); [|by apply Hk]. unfold handleSaveTags. destruct (selected p) eqn:E; [|by apply Hk].
    apply Hk. split; [done|]. by rewrite deciding_call, app_nil_r.
  - destruct disabled; by apply Hk.
  - destruct (newOpen p); by apply Hk.
  - destruct (newOpen p); by apply Hk.
  - destruct (_ && _); [|by apply Hk]. unfold handleInsert. case_decide; [by apply Hk|]. destruct (existsb _ _); [by apply Hk|].
    unfold panel_ok. rewrite deciding_call. change (deciding (write _ _)) with (deciding p). rewrite (Hnone Hw). by apply Hfits.
  - destruct (selected p) eqn:E; [destruct (saving p)|]; by apply Hk.
  - destruct (deleteOpen p); by apply Hk.
  - destruct (_ && _); [|by apply Hk]. unfold handleDelete. destruct (selected p) eqn:E; [|by apply Hk].
    unfold panel_ok. rewrite deciding_call. change (deciding (write _ _)) with (deciding p). rewrite (Hnone Hw). by apply Hfits.
  - destruct (calls p !! n) as [c|] eqn:E; [|by apply Hk]. destruct (deciding_answered n c p E) as [Hno Hyes].
    destruct (decide (decides c)) as [Hc|Hc].
    + destruct (Hyes Hc (ex_intro _ o Hp)) as [Hp1 Hp2]. by apply (answer_ok c r p).
    + destruct (answer_other c r (set_calls (delete n (calls p)) p) Hc) as [E1 E2].
      assert (panel_ok (answer c r (set_calls (delete n (calls p)) p)) o) as H.
      { apply Hk. split; [done|]. by rewrite E2, Hno. }
      destruct c; try done; exfalso; by apply Hc.
Qed.

Lemma wrote_nothing (p : Panel) (w : Write) : written p = written p ++ [w] → False.
Proof. intros H%(f_equal length). rewrite length_app in H. cbn [length] in H. lia. Qed.

Lemma owner_ok disabled p o : reaches disabled p o → panel_ok p o.
Proof. induction 1 as [|p o e _ IH Hw]; [by vm_compute|by apply panel_event_ok]. Qed.

(** While the user waits for the answers, every save sends the text that was
    loaded or created under the name it is saved under, or what was typed over
    it; and nothing else than a save, the stub of a creation, or what a dialog
    confirmed is written. *)
Theorem saves_fit disabled p o :
  reaches disabled p o → calls p = [] →
  (∀ t, selected p = Some t → o = Some (gt_name t)) ∧
  (∀ e w, waits p e → written (panel_event disabled p e) = written p ++ [w] →
    match w with
    | SaveSource name text => e = SaveClicked ∧ dirty p = true ∧ o = Some name ∧ text = source p
    | SaveTags name _ => e = TagsClicked ∧ o = Some name
    | Insert name => e = CreateClicked ∧ name ≠ [] ∧ name ∉ gt_name <$> default [] (types p)
    | Delete name => e = DeleteConfirmed ∧ o = Some name
    end).
Proof.
  intros Hr Hc. pose proof (owner_ok _ _ _ Hr) as Hp. unfold panel_ok, deciding in Hp. rewrite Hc in Hp. cbn in Hp.
  split; [exact Hp|]. intros e w _ Hw. pose proof (wrote_nothing p w) as Hno.
  destruct e; cbn [panel_event] in Hw; try (destruct (uncovered p); [|by apply Hno in Hw]); cbn [user_event] in Hw.
  - destruct (disabled || typesLoading p); by apply Hno in Hw.
  - destruct (default [] (types p) !! n); by apply Hno in Hw.
  - destruct (selected p); by apply Hno in Hw.
  - destruct (dirty p) eqn:Ed, (saving p); try (by apply Hno in Hw). cbn [andb negb] in Hw. unfold handleSave in Hw.
    destruct (selected p) as [t|] eqn:Et; [|by apply Hno in Hw]. apply app_inv_head in Hw as [= <-]. split_and!; [done|done|by apply Hp|done].
  - by apply Hno in Hw.
  - destruct (selected p); by apply Hno in Hw.
  - destruct (_ && _); [|by apply Hno in Hw]. unfold handleSaveTags in Hw.
    destruct (selected p) as [t|] eqn:Et; [|by apply Hno in Hw]. apply app_inv_head in Hw as [= <-]. split; [done|by apply Hp].
  - destruct disabled; by apply Hno in Hw.
  - destruct (newOpen p); by apply Hno in Hw.
  - destruct (newOpen p); by apply Hno in Hw.
  - destruct (_ && _); [|by apply Hno in Hw]. unfold handleInsert in Hw. case_decide as Hne; [by apply Hno in Hw|].
    destruct (existsb _ _) eqn:Ex; [by apply Hno in Hw|]. apply app_inv_head in Hw as [= <-]. split_and!; [done|done|].
    intros (t & En & Hin)%list_elem_of_fmap. enough (existsb (λ t, bool_decide (gt_name t = trim (newName p))) (default [] (types p)) = true) by congruence.
    apply existsb_exists. exists t. split; [by apply list_elem_of_In|]. by apply bool_decide_eq_true.
  - destruct (selected p); [destruct (saving p)|]; by apply Hno in Hw.
  - destruct (deleteOpen p); by apply Hno in Hw.
  - destruct (_ && _); [|by apply Hno in Hw]. unfold handleDelete in Hw.
    destruct (selected p) as [t|] eqn:Et; [|by apply Hno in Hw]. apply app_inv_head in Hw as [= <-]. split; [done|by apply Hp].
  - rewrite Hc in Hw. by apply Hno in Hw.
Qed.

(** ** Sessions *)

Definition two_types : list Event :=
  [Answered 0 (TypesReply (Some [MkGrammarType #"A" []; MkGrammarType #"B" [ #"t"]]))].

Definition edited_a : list Event := two_types ++ [Select 0; Answered 0 (SourceReply (Some #"a")); Edited #"a2"].

(** The user waits throughout, and the owner of the text at the end. *)
Fixpoint waits_all (disabled : bool) (p : Panel) (o : option str) (es : list Event) : Prop * option str :=
  match es with
  | [] => (True, o)
  | e :: es => let r := waits_all disabled (panel_event disabled p e) (owner_after p e o) es in (waits p e ∧ r.1, r.2)
  end.
Lemma reaches_all disabled p o es :
  reaches disabled p o → (waits_all disabled p o es).1 →
  reaches disabled (foldl (panel_event disabled) p es) (waits_all disabled p o es).2.
Proof.
  revert p o. induction es as [|e es IH]; intros p o Hr; [done|]. cbn [waits_all fst snd foldl]. intros [Hw Hes].
  apply IH; [by apply reaches_event|done].
Qed.

Lemma saves_fit_witness :
  let p := run false edited_a in
  (reaches false p (Some #"A") ∧ calls p = []) ∧
  written (panel_event false p SaveClicked) = written p ++ [SaveSource #"A" #"a2"] ∧
  Some #"A" = Some #"A".
Proof.
  cbv zeta. assert (reaches false (run false edited_a) (Some #"A")) as Hr.
  { assert ((waits_all false initial_panel None edited_a).2 = Some #"A") as <- by (vm_compute; reflexivity).
    apply reaches_all; [apply reaches_start|]. vm_compute. tauto. }
  assert (calls (run false edited_a) = []) as Hc by (vm_compute; reflexivity).
  assert (written (panel_event false (run false edited_a) SaveClicked) = written (run false edited_a) ++ [SaveSource #"A" #"a2"])
    as Hw by (vm_compute; reflexivity).
  split; [done|]. split; [exact Hw|].
  destruct (proj2 (saves_fit false (run false edited_a) (Some #"A") Hr Hc) SaveClicked (SaveSource #"A" #"a2") Hc Hw) as (_ & _ & H & _).
  exact H.
Defined.

(** A type that is picked while the text of another one is on its way gets
    that text, if it comes last … *)
Example late_source :
  written (run false (two_types ++
    [Select 0; Select 1; Answered 1 (SourceReply (Some #"b")); Answered 0 (SourceReply (Some #"a")); Edited #"a!"; SaveClicked]))
  = [SaveSource #"B" #"a!"].
Proof. vm_compute. reflexivity. Qed.

(** … and until its own text comes it has the last one's. *)
Example early_save :
  written (run false (two_types ++ [Select 0; Answered 0 (SourceReply (Some #"a")); Select 1; Edited #"a!"; SaveClicked]))
  = [SaveSource #"B" #"a!"].
Proof. vm_compute. reflexivity. Qed.

(** A source that cannot be loaded is shown as the stub of a new type, and
    saved as one. *)
Example refused_source :
  let p := run false (two_types ++ [Select 0; Answered 0 (SourceReply None)]) in (source p, saveMsg p) = (stubGrammar #"A", None).
Proof. vm_compute. reflexivity. Qed.

(** A refused list leaves nothing to render. *)
Example refused_list : types (run false [Answered 0 (TypesReply None)]) = None.
Proof. vm_compute. reflexivity. Qed.

(** A new type is shown with the tags of the last one, which can be saved as
    its own. *)
Example tags_of_another :
  written (run false (two_types ++
    [Select 1; Answered 0 (SourceReply (Some #"b")); TagsEdited [ #"u"]; NewClicked; NewNamed #"C"; CreateClicked;
     Answered 0 (OkReply true None); Answered 0 (OkReply true None); Answered 0 (TypesReply (Some [])); TagsClicked]))
  = [Insert #"C"; SaveSource #"C" (stubGrammar #"C"); SaveTags #"C" [ #"u"]].
Proof. vm_compute. reflexivity. Qed.

(** The stub is a sentence of the event schema language, unless the name ends
    its string. *)
Example stub_parses :
  is_phrase EventSchemaGrammar.EventSchemaGrammar 300 0 (stubGrammar #"Einsatz") = Some true ∧
  is_phrase EventSchemaGrammar.EventSchemaGrammar 300 0 (stubGrammar (#"a" ++ [dq])) ≠ Some true.
Proof. vm_compute. by split. Qed.
