(* ===== verification/EventContext.v ===== *)
(** The panel for new event contexts, apps/oosd/src/mainview/components/EventsPanel.tsx:
    the identifiers it derives from a name, the block of SQL it writes, and its
    callbacks.  The block is read back with the lexical rules of PostgreSQL
    ([sql_tokens]: words, strings, [$$] bodies, line comments; not quoted
    identifiers, escape strings, block comments), and [context_built] says
    what it creates; identifiers are cut to 63 characters, as PostgreSQL does, and
    a word it reserves is no name of a column ([RESERVED]). *)

From S2P Require Export JsValue.
From Stdlib Require Import ZifyBool.

#[local] Set Warnings "-register-all".

(** * The form *)

Record FormState := MkFormState {
  name : str; textField : str; idField : str; form_sourceTable : str; form_embeddingsTable : str }.
Definition EMPTY_FORM : FormState := MkFormState [] #"text" #"id" [] [].

Record Derived := MkDerived { sourceTable : str; embeddingsTable : str; notifyFn : str; notifyChannel : str }.

(** [s || d] *)
Definition or_text (s d : str) : str := match s with [] => d | _ => s end.

Definition derive (f : FormState) : Derived :=
  let base := trim (name f) in
  let sourceTable := or_text (trim (form_sourceTable f)) (base ++ #"_events") in
  let embeddingsTable := or_text (trim (form_embeddingsTable f)) (base ++ #"_embeddings") in
  MkDerived sourceTable embeddingsTable (#"notify_" ++ sourceTable) (sourceTable ++ #"_notify").

Definition isFormValid (f : FormState) : bool :=
  negb (bool_decide (trim (name f) = [])) && negb (bool_decide (trim (textField f) = []))
  && negb (bool_decide (trim (idField f) = [])).

(** * [buildSql], section by section *)

Definition notify_body (channel : str) : str :=
  #"
BEGIN
	PERFORM pg_notify('" ++ channel ++ #"', row_to_json(NEW)::text);
	RETURN NEW;
END;
".
Definition notify_sql (d : Derived) : str :=
  #"-- Notify trigger function
CREATE OR REPLACE FUNCTION " ++ notifyFn d ++ #"()
	RETURNS trigger AS $$" ++ notify_body (notifyChannel d) ++ #"$$ LANGUAGE plpgsql;

".

Definition source_sql (text : str) (d : Derived) : str :=
  #"-- Source events table
CREATE TABLE public." ++ sourceTable d ++ #" (
	id serial4 NOT NULL,
	stream varchar(200) NOT NULL,
	event_type varchar(200) NOT NULL,
	" ++ text ++ #" text NOT NULL,
	payload jsonb DEFAULT '{}'::jsonb NOT NULL,
	processed bool DEFAULT false NOT NULL,
	created_at timestamptz DEFAULT now() NOT NULL,
	CONSTRAINT " ++ (sourceTable d ++ #"_pkey") ++ #" PRIMARY KEY (id)
);

".

Definition trigger_sql (d : Derived) : str :=
  #"CREATE TRIGGER " ++ (sourceTable d ++ #"_notify") ++ #"
	AFTER INSERT ON public." ++ sourceTable d ++ #"
	FOR EACH ROW EXECUTE FUNCTION " ++ notifyFn d ++ #"();

ALTER TABLE public." ++ sourceTable d ++ #"
	ADD CONSTRAINT " ++ (sourceTable d ++ #"_stream_fkey") ++ #"
	FOREIGN KEY (stream) REFERENCES public.event_streams(stream);

".

Definition embeddings_sql (d : Derived) : str :=
  #"-- Embeddings table
CREATE TABLE public." ++ embeddingsTable d ++ #" (
	id uuid DEFAULT gen_random_uuid() NOT NULL,
	source_id text NOT NULL,
	stream_id text NOT NULL,
	event_type text NOT NULL,
	text_content text NOT NULL,
	metadata jsonb DEFAULT '{}'::jsonb NOT NULL,
	embedding public.vector(384) NULL,
	created_at timestamptz DEFAULT now() NOT NULL,
	CONSTRAINT " ++ (embeddingsTable d ++ #"_pkey") ++ #" PRIMARY KEY (id),
	CONSTRAINT " ++ (embeddingsTable d ++ #"_source_id_key") ++ #" UNIQUE (source_id)
);

".

Definition index_sql (d : Derived) : str :=
  #"CREATE INDEX " ++ (embeddingsTable d ++ #"_stream_idx") ++ #"
	ON public." ++ embeddingsTable d ++ #" USING btree (stream_id, created_at);

CREATE INDEX " ++ (embeddingsTable d ++ #"_vector_idx") ++ #"
	ON public." ++ embeddingsTable d ++ #" USING ivfflat (embedding vector_cosine_ops)
	WITH (lists='100');

".

Definition mapping_sql (f : FormState) (d : Derived) : str :=
  #"-- Event mapping registration
INSERT INTO public.event_mappings (
	name, source_schema, source_table,
	source_text_field, source_id_field, notify_channel,
	target_schema, target_table, enabled
) VALUES (
	'" ++ trim (name f) ++ #"', 'public', '" ++ sourceTable d ++ #"',
	'" ++ textField f ++ #"', '" ++ idField f ++ #"', '" ++ notifyChannel d ++ #"',
	'public', '" ++ embeddingsTable d ++ #"', true
);
".

Definition buildSql (f : FormState) : str :=
  let d := derive f in
  notify_sql d ++ source_sql (textField f) d ++ trigger_sql d ++ embeddings_sql d ++ index_sql d ++ mapping_sql f d.

(** * Reading SQL *)

Inductive token := Word (s : str) | Str (s : str) | Body (s : str) | Sym (c : N).
#[global] Instance token_eq_dec : EqDecision token.
Proof. solve_decision. Defined.

Inductive mode :=
| Between
| InWord (w : str)
| InString (s : str)
| QuoteSeen (s : str)                (** a quote in a string: its end, or the first of two *)
| Dash | Comment
| Dollar | InBody (s : str) | BodyDollar (s : str).

Definition quote : N := 39.
Definition is_word_char (c : N) : bool :=
  is_digit c || is_upper c || is_lower c || (c =? 95)%N || (128 <=? c)%N.
(** The identifier a word stands for. *)
Definition ident (w : str) : str := take 63 (to_lower w).

(** A character outside of words, strings, bodies and comments. *)
Definition start (c : N) : mode * list token :=
  if is_space c then (Between, [])
  else if is_word_char c then (InWord [c], [])
  else if (c =? quote)%N then (InString [], [])
  else if (c =? 45)%N then (Dash, [])
  else if (c =? 36)%N then (Dollar, [])
  else (Between, [Sym c]).
Definition lex (m : mode) (c : N) : mode * list token :=
  let after (ts : list token) := let '(m', ts') := start c in (m', ts ++ ts') in
  match m with
  | Between => start c
  | InWord w => if is_word_char c then (InWord (w ++ [c]), []) else after [Word (ident w)]
  | InString s => if (c =? quote)%N then (QuoteSeen s, []) else (InString (s ++ [c]), [])
  | QuoteSeen s => if (c =? quote)%N then (InString (s ++ [c]), []) else after [Str s]
  | Dash => if (c =? 45)%N then (Comment, []) else after [Sym 45]
  | Comment => if (c =? nl)%N then (Between, []) else (Comment, [])
  | Dollar => if (c =? 36)%N then (InBody [], []) else after [Sym 36]
  | InBody s => if (c =? 36)%N then (BodyDollar s, []) else (InBody (s ++ [c]), [])
  | BodyDollar s => if (c =? 36)%N then (Between, [Body s]) else (InBody (s ++ [36%N; c]), [])
  end.
Fixpoint run (m : mode) (s : str) : mode * list token :=
  match s with
  | [] => (m, [])
  | c :: s => let '(m1, ts1) := lex m c in let '(m2, ts2) := run m1 s in (m2, ts1 ++ ts2)
  end.
(** The tokens of a text that ends between two; a text that ends in the middle of
    one is no SQL. *)
Definition sql_tokens (s : str) : option (list token) :=
  match run Between (s ++ [nl]) with (Between, ts) => Some ts | _ => None end.

(** The statements: what stands before each semicolon. *)
Fixpoint statements (ts : list token) : list (list token) :=
  match ts with
  | [] => []
  | t :: ts =>
    if decide (t = Sym 59) then [] :: statements ts
    else match statements ts with [] => [ [t] ] | st :: sts => (t :: st) :: sts end
  end.

(** ** What a block creates *)

(** A prefix of a statement, [None] for a name; the names, and what follows. *)
Fixpoint take_words (p : list (option token)) (ts : list token) : option (list str * list token) :=
  match p, ts with
  | [], _ => Some ([], ts)
  | Some t :: p, t' :: ts => if decide (t = t') then take_words p ts else None
  | None :: p, Word w :: ts => '(ws, rest) ← take_words p ts; Some (w :: ws, rest)
  | _, _ => None
  end.
(** What stands between commas up to the closing bracket, and what follows. *)
Definition add_first (t : token) (l : list (list token)) : list (list token) :=
  match l with [] => [ [t] ] | i :: l => (t :: i) :: l end.
Fixpoint items (depth : nat) (ts : list token) : list (list token) * list token :=
  match ts with
  | [] => ([ [] ], [])
  | t :: ts =>
    if decide (t = Sym 40) then let '(l, r) := items (S depth) ts in (add_first t l, r)
    else if decide (t = Sym 41) then
      match depth with O => ([ [] ], ts) | S n => let '(l, r) := items n ts in (add_first t l, r) end
    else if decide (t = Sym 44 ∧ depth = 0) then let '(l, r) := items depth ts in ([] :: l, r)
    else let '(l, r) := items depth ts in (add_first t l, r)
  end.

Definition kw (s : string) : option token := Some (Word (js s)).
Definition open_ : option token := Some (Sym 40).
Definition close_ : option token := Some (Sym 41).
Definition in_public : list (option token) := [kw "public"; Some (Sym 46); None].

Definition column_of (i : list token) : option str :=
  match i with Word w :: _ => if decide (w = #"constraint") then None else Some w | _ => None end.
Definition key_of (i : list token) : option str :=
  match i with Word w :: Word k :: _ => if decide (w = #"constraint") then Some k else None | _ => None end.
Definition value_of (i : list token) : option token := head i.

(** The channel a body notifies first. *)
Fixpoint notified (ts : list token) : option str :=
  match ts with
  | [] => None
  | t :: ts' =>
    match take_words [kw "pg_notify"; open_] ts with
    | Some (_, Str c :: _) => Some c
    | _ => notified ts'
    end
  end.

Definition function_of (st : list token) : option (str * str) :=
  match take_words [kw "create"; kw "or"; kw "replace"; kw "function"; None; open_; close_; kw "returns"; kw "trigger"; kw "as"] st with
  | Some ([f], Body b :: _) => Some (f, b)
  | _ => None
  end.
Definition table_of (st : list token) : option (str * list (list token)) :=
  match take_words ([kw "create"; kw "table"] ++ in_public ++ [open_]) st with
  | Some ([t], r) => Some (t, (items 0 r).1)
  | _ => None
  end.
Definition trigger_of (st : list token) : option (str * str * str) :=
  match take_words ([kw "create"; kw "trigger"; None; kw "after"; kw "insert"; kw "on"] ++ in_public
                    ++ [kw "for"; kw "each"; kw "row"; kw "execute"; kw "function"; None]) st with
  | Some ([g; t; f], _) => Some (g, t, f)
  | _ => None
  end.
Definition reference_of (st : list token) : option (str * str * str) :=
  match take_words ([kw "alter"; kw "table"] ++ in_public
                    ++ [kw "add"; kw "constraint"; None; kw "foreign"; kw "key"; open_; None; close_; kw "references"] ++ in_public) st with
  | Some ([t; _; c; t'], _) => Some (t, c, t')
  | _ => None
  end.
Definition index_of (st : list token) : option (str * str) :=
  match take_words ([kw "create"; kw "index"; None; kw "on"] ++ in_public) st with
  | Some ([i; t], _) => Some (i, t)
  | _ => None
  end.
Definition row_of (st : list token) : option (list (str * token)) :=
  match take_words ([kw "insert"; kw "into"; kw "public"; Some (Sym 46); kw "event_mappings"; open_]) st with
  | Some (_, r) =>
    let '(cols, r) := items 0 r in
    match take_words [kw "values"; open_] r with
    | Some (_, r) => Some (zip (omap column_of cols) (omap value_of (items 0 r).1))
    | None => None
    end
  | None => None
  end.

Record Context := MkContext {
  functions : list (str * option str);          (** with the channel they notify *)
  tables : list (str * list str);               (** with their columns *)
  relations : list str;                         (** indexes and the indexes of keys *)
  triggers : list (str * str * str);            (** name, table, function *)
  references : list (str * str * str);          (** table, column, referenced table *)
  mappings : list (list (str * token)) }.       (** the rows of [event_mappings] *)

(** The words PostgreSQL takes for the name of a column in quotes only: the reserved ones, and those that may name a type or a function. *)
Definition RESERVED : list str := [
    #"all"; #"analyse"; #"analyze"; #"and"; #"any"; #"array"; #"as"; #"asc"; #"asymmetric"; #"both"; #"case"; #"cast";
    #"check"; #"collate"; #"column"; #"constraint"; #"create"; #"current_catalog"; #"current_date"; #"current_role";
    #"current_time"; #"current_timestamp"; #"current_user"; #"default"; #"deferrable"; #"desc"; #"distinct"; #"do"; #"else";
    #"end"; #"except"; #"false"; #"fetch"; #"for"; #"foreign"; #"from"; #"grant"; #"group"; #"having"; #"in"; #"initially";
    #"intersect"; #"into"; #"lateral"; #"leading"; #"limit"; #"localtime"; #"localtimestamp"; #"not"; #"null"; #"offset";
    #"on"; #"only"; #"or"; #"order"; #"placing"; #"primary"; #"references"; #"returning"; #"select"; #"session_user";
    #"some"; #"symmetric"; #"system_user"; #"table"; #"then"; #"to"; #"trailing"; #"true"; #"union"; #"unique"; #"user";
    #"using"; #"variadic"; #"when"; #"where"; #"window"; #"with";
    #"authorization"; #"binary"; #"collation"; #"concurrently"; #"cross"; #"current_schema"; #"freeze"; #"full"; #"ilike";
    #"inner"; #"is"; #"isnull"; #"join"; #"left"; #"like"; #"natural"; #"notnull"; #"outer"; #"overlaps"; #"right";
    #"similar"; #"tablesample"; #"verbose" ].
Definition columns_allowed (ts : list (str * list (list token))) : bool :=
  forallb (λ t, forallb (λ c, bool_decide (c ∉ RESERVED)) (omap column_of t.2)) ts.

Definition context_of (sql : str) : option Context :=
  ts ← sql_tokens sql;
  let sts := statements ts in
  let ts := omap table_of sts in
  if negb (columns_allowed ts) then None else
  Some (MkContext (prod_map id (λ b, sql_tokens b ≫= notified) <$> omap function_of sts) (prod_map id (omap column_of) <$> ts)
          ((ts ≫= λ t, omap key_of t.2) ++ (omap index_of sts).*1)
          (omap trigger_of sts) (omap reference_of sts) (omap row_of sts)).

(** What a row of [event_mappings] says of its event source holds. *)
Definition registered (column : str) (row : list (str * token)) : option str :=
  match assoc_get column row with Some (Str s) => Some s | _ => None end.
Definition row_fits (c : Context) (row : list (str * token)) : bool :=
  match registered #"source_table" row, registered #"source_text_field" row, registered #"source_id_field" row,
        registered #"notify_channel" row, registered #"target_table" row with
  | Some s, Some t, Some i, Some ch, Some e =>
    match assoc_get s (tables c) with Some cols => bool_decide (t ∈ cols) && bool_decide (i ∈ cols) | None => false end
    && bool_decide (is_Some (assoc_get e (tables c)))
    && existsb (λ g, bool_decide (g.1.2 = s) && bool_decide (assoc_get g.2 (functions c) = Some (Some ch))) (triggers c)
  | _, _, _, _, _ => false
  end.

(** * The panel *)

Record EventMapping := MkEventMapping { mapping_id : Z; mapping_name : str }.

Inductive Call :=
| ListCall          (** [loadMappings] *)
| ExecCall          (** [execEventContext] *)
| RelistCall.       (** the [loadMappings] that [handleExecute] awaits *)
Inductive Reply :=
| MappingsReply (l : option (list EventMapping))    (** [None]: the reply has no list *)
| OkReply (ok : bool) (error : option str).

Record Panel := MkPanel {
  listed_mappings : option (list EventMapping);     (** [None]: [undefined], which the next render fails on *)
  loading : bool; selected : option EventMapping; form : FormState; advanced : bool; executing : bool;
  result : option (bool * str);
  calls : list Call; sent : list str }.             (** calls in flight; the blocks sent, latest first *)
Definition initial_panel : Panel := MkPanel (Some []) true None EMPTY_FORM false false None [ListCall] [].

Definition set_list (l : option (list EventMapping)) (b : bool) (p : Panel) : Panel :=
  MkPanel l b (selected p) (form p) (advanced p) (executing p) (result p) (calls p) (sent p).
Definition set_form (f : FormState) (a : bool) (r : option (bool * str)) (p : Panel) : Panel :=
  MkPanel (listed_mappings p) (loading p) (selected p) f a (executing p) r (calls p) (sent p).
Definition select (m : option EventMapping) (p : Panel) : Panel :=
  MkPanel (listed_mappings p) (loading p) m (form p) (advanced p) (executing p) (result p) (calls p) (sent p).
Definition set_executing (b : bool) (p : Panel) : Panel :=
  MkPanel (listed_mappings p) (loading p) (selected p) (form p) (advanced p) b (result p) (calls p) (sent p).
Definition set_calls (l : list Call) (out : list str) (p : Panel) : Panel :=
  MkPanel (listed_mappings p) (loading p) (selected p) (form p) (advanced p) (executing p) (result p) l out.
Definition wait (c : Call) (p : Panel) : Panel := set_calls (calls p ++ [c]) (sent p) p.

(** The block on show. *)
Definition sql (p : Panel) : str :=
  match selected p with None => if isFormValid (form p) then buildSql (form p) else [] | Some _ => [] end.

Definition loadMappings (c : Call) (p : Panel) : Panel := wait c (set_list (listed_mappings p) true p).
Definition startNew (p : Panel) : Panel := set_form EMPTY_FORM false None (select None p).
Definition handleExecute (p : Panel) : Panel :=
  if negb (isFormValid (form p)) || executing p then p
  else set_calls (calls p ++ [ExecCall]) (sql p :: sent p) (set_form (form p) (advanced p) None (set_executing true p)).

Definition answer (c : Call) (r : Reply) (p : Panel) : Panel :=
  match c, r with
  | ListCall, MappingsReply l => set_list l false p
  | RelistCall, MappingsReply l => set_executing false (set_list l false p)
  | ExecCall, OkReply ok e =>
    if ok then loadMappings RelistCall (set_form EMPTY_FORM false (Some (true, #"Event context created successfully.")) p)
    else set_executing false (set_form (form p) (advanced p) (Some (false, default #"unknown error" e)) p)
  | _, _ => p
  end.

Inductive Field := NameField | TextField | IdField | SourceTableField | EmbeddingsTableField.
Definition set_field (k : Field) (v : str) (f : FormState) : FormState :=
  match k with
  | NameField => MkFormState v (textField f) (idField f) (form_sourceTable f) (form_embeddingsTable f)
  | TextField => MkFormState (name f) v (idField f) (form_sourceTable f) (form_embeddingsTable f)
  | IdField => MkFormState (name f) (textField f) v (form_sourceTable f) (form_embeddingsTable f)
  | SourceTableField => MkFormState (name f) (textField f) (idField f) v (form_embeddingsTable f)
  | EmbeddingsTableField => MkFormState (name f) (textField f) (idField f) (form_sourceTable f) v
  end.

(** A click reaches what the last render shows: the fields and the button of the
    form only while no mapping is selected. *)
Inductive Event :=
| SetField (k : Field) (v : str) | StartNew | SelectMapping (m : EventMapping) | ToggleAdvanced | DismissResult
| Execute | Refresh
| Answer (n : nat) (r : Reply).     (** of the n-th call in flight *)

Definition panel_event (e : Event) (p : Panel) : Panel :=
  match e with
  | SetField k v => match selected p with None => set_form (set_field k v (form p)) (advanced p) None p | Some _ => p end
  | StartNew => startNew p
  | SelectMapping m => set_form (form p) (advanced p) None (select (Some m) p)
  | ToggleAdvanced => match selected p with None => set_form (form p) (negb (advanced p)) (result p) p | Some _ => p end
  | DismissResult => set_form (form p) (advanced p) None p
  | Execute => match selected p with None => handleExecute p | Some _ => p end
  | Refresh => if loading p then p else loadMappings ListCall p
  | Answer n r =>
    match calls p !! n with Some c => answer c r (set_calls (delete n (calls p)) (sent p) p) | None => p end
  end.
Definition run_panel (es : list Event) : Panel := foldl (λ p e, panel_event e p) initial_panel es.

(** * The block read back *)

Definition plain_char (c : N) : bool := is_lower c || is_digit c || (c =? 95)%N.
Definition plain (w : str) : bool :=
  match w with [] => false | c :: _ => negb (is_digit c) && forallb plain_char w end.

Definition reads (m : mode) (s : str) (m' : mode) (ts : list token) : Prop := run m s = (m', ts).

Lemma reads_app m s m1 ts1 s' m2 ts2 : reads m s m1 ts1 → reads m1 s' m2 ts2 → reads m (s ++ s') m2 (ts1 ++ ts2).
Proof.
  unfold reads. revert m ts1. induction s as [|c s IH]; intros m ts1; [by intros [= -> <-]|].
  cbn [run app]. destruct (lex m c) as [m' ts']. destruct (run m' s) as [m'' ts''] eqn:E. intros [= -> <-] H2.
  by rewrite (IH _ _ E H2), app_assoc.
Qed.

Lemma plain_char_word c : plain_char c = true → is_word_char c = true ∧ is_space c = false ∧ to_lower1 c = c.
Proof.
  intros H. assert (c ∈ N.of_nat <$> seq 0 128) as Hin.
  { apply list_elem_of_fmap. exists (N.to_nat c). rewrite N2Nat.id. split; [done|]. apply elem_of_seq.
    unfold plain_char, is_lower, is_digit in H. lia. }
  assert (forallb (λ c, implb (plain_char c) (is_word_char c && negb (is_space c) && (to_lower1 c =? c)%N))
            (N.of_nat <$> seq 0 128) = true) as Hall by by vm_compute.
  rewrite forallb_forall in Hall. specialize (Hall c). rewrite H in Hall. cbn [implb] in Hall.
  apply list_elem_of_In, Hall in Hin. apply andb_true_iff in Hin as [[H1 H2]%andb_true_iff H3].
  split; [done|]. split; [by apply negb_true_iff|by apply N.eqb_eq].
Qed.

Lemma plain_ident w : forallb plain_char w = true → length w ≤ 63 → ident w = w.
Proof.
  intros Hw Hl. unfold ident. assert (to_lower w = w) as ->; [|by apply take_ge].
  clear Hl. unfold to_lower. induction w as [|c w IH]; [done|]. cbn [forallb] in Hw. apply andb_true_iff in Hw as [Hc Hw].
  rewrite fmap_cons, IH by done. by destruct (plain_char_word c Hc) as (_ & _ & ->).
Qed.

Lemma reads_word_rest u w : forallb plain_char w = true → reads (InWord u) w (InWord (u ++ w)) [].
Proof.
  unfold reads. revert u. induction w as [|c w IH]; intros u H; [by rewrite app_nil_r|].
  cbn [forallb] in H. apply andb_true_iff in H as [Hc H]. destruct (plain_char_word c Hc) as [Hw _].
  cbn [run lex]. rewrite Hw, IH by done. by rewrite <- app_assoc.
Qed.

(** A name, where the text behind it ends the word. *)
Definition ends_word (s : str) : bool := match s with c :: _ => negb (is_word_char c) | [] => false end.

Lemma reads_word w s m ts :
  plain w = true → length w ≤ 63 → ends_word s = true → reads Between s m ts → reads Between (w ++ s) m (Word w :: ts).
Proof.
  intros Hw Hl Hs Hr. destruct w as [|a w]; [done|]. cbn [plain] in Hw. apply andb_true_iff in Hw as [_ Hw].
  pose proof Hw as [Ha Hw']%andb_true_iff. destruct (plain_char_word a Ha) as (Hwa & Hsa & _).
  change ((a :: w) ++ s) with ([a] ++ (w ++ s)). change (Word (a :: w) :: ts) with ([] ++ ([] ++ (Word (a :: w) :: ts))).
  assert (reads Between [a] (InWord [a]) []) as Hfirst by (unfold reads; cbn [run]; unfold lex, start; by rewrite Hsa, Hwa).
  eapply reads_app; [exact Hfirst|].
  eapply reads_app; [by apply reads_word_rest|]. destruct s as [|c s]; [done|]. cbn [ends_word] in Hs. apply negb_true_iff in Hs.
  change ([a] ++ w) with (a :: w). unfold reads in *. cbn [run] in *. cbn [lex] in *. rewrite Hs. destruct (start c) as [m1 ts1].
  destruct (run m1 s) as [m2 ts2]. rewrite plain_ident by done. by injection Hr as -> <-.
Qed.

Lemma reads_string u s : quote ∉ s → reads (InString u) s (InString (u ++ s)) [].
Proof.
  unfold reads. revert u. induction s as [|c s IH]; intros u H; [by rewrite app_nil_r|]. apply not_elem_of_cons in H as [Hc H].
  cbn [run lex]. destruct (N.eqb_spec c quote) as [->|_]; [done|]. rewrite IH by done. by rewrite <- app_assoc.
Qed.
Lemma reads_body u s : 36%N ∉ s → reads (InBody u) s (InBody (u ++ s)) [].
Proof.
  unfold reads. revert u. induction s as [|c s IH]; intros u H; [by rewrite app_nil_r|]. apply not_elem_of_cons in H as [Hc H].
  cbn [run lex]. destruct (N.eqb_spec c 36) as [->|_]; [done|]. rewrite IH by done. by rewrite <- app_assoc.
Qed.

(** The next piece of a text: a literal is run, a name is read whole. *)
Ltac read_literal :=
  lazymatch goal with
  | |- reads ?m (js ?l ++ ?s) _ _ =>
    let r := eval vm_compute in (run m (js l)) in
    lazymatch r with (?m1, ?ts1) => eapply (reads_app m (js l) m1 ts1 s); [by vm_compute|] end
  | |- reads ?m (js ?l) _ _ =>
    let r := eval vm_compute in (run m (js l)) in
    lazymatch r with (?m1, ?ts1) => refine (_ : reads m (js l) m1 ts1); by vm_compute end
  end.
Ltac read_name := apply reads_word; [solve [auto]|solve [auto]|by vm_compute|].
Ltac read_text := eapply reads_app; [apply reads_string; solve [auto]|]; cbn [app].

Ltac read_piece := first [read_literal | read_text | read_name].

Definition name_ok (limit : nat) (w : str) : bool := plain w && (length w <=? limit).
Definition names_of (d : Derived) : list str :=
  let s := sourceTable d in let e := embeddingsTable d in
  [s; notifyFn d; s ++ #"_pkey"; s ++ #"_notify"; s ++ #"_stream_fkey"; e; e ++ #"_pkey"; e ++ #"_source_id_key";
   e ++ #"_stream_idx"; e ++ #"_vector_idx"].
Definition texts_of (f : FormState) (d : Derived) : list str :=
  [trim (name f); sourceTable d; textField f; idField f; notifyChannel d; embeddingsTable d].

Definition source_columns (text : str) : list str :=
  [ #"id"; #"stream"; #"event_type"; text; #"payload"; #"processed"; #"created_at"].
Definition embeddings_columns : list str :=
  [ #"id"; #"source_id"; #"stream_id"; #"event_type"; #"text_content"; #"metadata"; #"embedding"; #"created_at"].
Definition mapping_row (f : FormState) (d : Derived) : list (str * token) :=
  [(#"name", Str (trim (name f))); (#"source_schema", Str #"public"); (#"source_table", Str (sourceTable d));
   (#"source_text_field", Str (textField f)); (#"source_id_field", Str (idField f)); (#"notify_channel", Str (notifyChannel d));
   (#"target_schema", Str #"public"); (#"target_table", Str (embeddingsTable d)); (#"enabled", Word #"true")].

Lemma omap_middle {A B} (g : A → option B) l1 x l2 y : g x = Some y → omap g (l1 ++ x :: l2) = omap g l1 ++ y :: omap g l2.
Proof. intros E. rewrite omap_app. f_equal. cbn. by rewrite E. Qed.
Lemma omap_middle_none {A B} (g : A → option B) l1 x l2 : g x = None → omap g (l1 ++ x :: l2) = omap g l1 ++ omap g l2.
Proof. intros E. rewrite omap_app. f_equal. cbn. by rewrite E. Qed.

(** The statements of the block, its names standing for any words and texts. *)
Lemma block_reads f d :
  Forall (λ w, plain w = true ∧ length w ≤ 63) (textField f :: names_of d) → Forall (λ s, quote ∉ s) (texts_of f d) →
  36%N ∉ notify_body (notifyChannel d) → textField f ≠ #"constraint" →
  ∃ ts, reads Between (notify_sql d ++ source_sql (textField f) d ++ trigger_sql d ++ embeddings_sql d ++ index_sql d
                       ++ mapping_sql f d ++ [nl]) Between ts
    ∧ length (statements ts) = 8
    ∧ omap function_of (statements ts) = [(notifyFn d, notify_body (notifyChannel d))]
    ∧ (∃ i1 i2, omap table_of (statements ts) = [(sourceTable d, i1); (embeddingsTable d, i2)]
         ∧ omap column_of i1 = source_columns (textField f) ∧ omap column_of i2 = embeddings_columns
         ∧ omap key_of i1 = [sourceTable d ++ #"_pkey"]
         ∧ omap key_of i2 = [embeddingsTable d ++ #"_pkey"; embeddingsTable d ++ #"_source_id_key"])
    ∧ omap index_of (statements ts)
      = [(embeddingsTable d ++ #"_stream_idx", embeddingsTable d); (embeddingsTable d ++ #"_vector_idx", embeddingsTable d)]
    ∧ omap trigger_of (statements ts) = [(sourceTable d ++ #"_notify", sourceTable d, notifyFn d)]
    ∧ omap reference_of (statements ts) = [(sourceTable d, #"stream", #"event_streams")]
    ∧ omap row_of (statements ts) = [mapping_row f d].
Proof.
  destruct d as [s e fn ch].
  unfold names_of, texts_of, notify_sql, source_sql, trigger_sql, embeddings_sql, index_sql, mapping_sql, mapping_row, source_columns.
  cbn [sourceTable embeddingsTable notifyFn notifyChannel].
  generalize (notify_body ch), (s ++ #"_pkey"), (s ++ #"_notify"), (s ++ #"_stream_fkey"), (e ++ #"_pkey"), (e ++ #"_source_id_key"),
    (e ++ #"_stream_idx"), (e ++ #"_vector_idx"), (trim (name f)), (textField f), (idField f).
  intros b k1 k2 k3 k4 k5 k6 k7 n t i Hw Hq Hb Ht.
  repeat (apply Forall_cons in Hw as [[? ?] Hw]). repeat (apply Forall_cons in Hq as [? Hq]).
  eexists. split.
  { rewrite <- !app_assoc. read_literal. read_name. read_literal. eapply reads_app; [by apply reads_body|]. cbn [app].
    repeat read_piece. reflexivity. }
  do 2 (split; [by vm_compute|]). split; [|by repeat split; vm_compute].
  do 2 eexists. split; [by vm_compute|].
  split; [|split; [by vm_compute|split; [|by vm_compute]]].
  - eapply eq_trans; [refine (omap_middle column_of [_; _; _] (Word t :: _) _ t _)|by vm_compute].
    unfold column_of. by rewrite decide_False.
  - eapply eq_trans; [refine (omap_middle_none key_of [_; _; _] (Word t :: Word _ :: _) _ _)|by vm_compute].
    unfold key_of. by rewrite decide_False.
Qed.

Lemma body_channel ch : quote ∉ ch → sql_tokens (notify_body ch) ≫= notified = Some ch.
Proof.
  intros Hq. unfold sql_tokens. assert (∃ ts, reads Between (notify_body ch ++ [nl]) Between ts ∧ notified ts = Some ch) as (ts & E & Hn).
  { eexists. split; [unfold notify_body; rewrite <- !app_assoc; repeat read_piece; reflexivity|by vm_compute]. }
  unfold reads in E. by rewrite E.
Qed.

(** ** The block of a form *)

Lemma plain_app w s : plain w = true → forallb plain_char s = true → plain (w ++ s) = true.
Proof.
  destruct w as [|c w]; [done|]. unfold plain. cbn [app]. rewrite app_comm_cons, forallb_app. intros [-> ->]%andb_true_iff ->. done.
Qed.
Lemma plain_prefix p w : plain p = true → plain w = true → plain (p ++ w) = true.
Proof. intros Hp Hw. apply plain_app; [done|]. destruct w; [done|]. unfold plain in Hw. by apply andb_true_iff in Hw as [_ ?]. Qed.
Lemma plain_without c w : plain_char c = false → plain w = true → c ∉ w.
Proof.
  intros Hc Hw. destruct w as [|a w]; [done|]. unfold plain in Hw. apply andb_true_iff in Hw as [_ Hw]. rewrite forallb_forall in Hw.
  intros Hin%list_elem_of_In%Hw. by rewrite Hc in Hin.
Qed.

(** The names are identifiers PostgreSQL keeps as they are, with room for what is
    put behind them, and the column is no reserved word; the texts have no quotes. *)
Definition usable (f : FormState) : Prop :=
  let d := derive f in
  plain (sourceTable d) = true ∧ length (sourceTable d) ≤ 51 ∧ plain (embeddingsTable d) = true ∧ length (embeddingsTable d) ≤ 49
  ∧ plain (textField f) = true ∧ length (textField f) ≤ 63 ∧ (textField f ∉ RESERVED)
  ∧ (quote ∉ trim (name f)) ∧ (quote ∉ idField f).

(** A code unit is not in a literal. *)
Ltac not_in H := let P := type of H in refine (bool_decide_eq_false_1 P _ H); by vm_compute.

Lemma usable_names f :
  usable f → Forall (λ w, plain w = true ∧ length w ≤ 63) (textField f :: names_of (derive f))
             ∧ Forall (λ s, quote ∉ s) (texts_of f (derive f)) ∧ (36%N ∉ notify_body (notifyChannel (derive f))).
Proof.
  intros (Hs & Ls & He & Le & Ht & Lt & _ & Hn & Hi). unfold names_of, texts_of.
  assert (notifyFn (derive f) = #"notify_" ++ sourceTable (derive f)) as -> by done.
  assert (notifyChannel (derive f) = sourceTable (derive f) ++ #"_notify") as -> by done.
  revert Hs Ls He Le. generalize (sourceTable (derive f)), (embeddingsTable (derive f)). intros s e Hs Ls He Le.
  split; [|split].
  - rewrite !Forall_cons, !length_app. repeat split; try done; try (by apply plain_app); try (by apply plain_prefix);
      match goal with |- _ + length (js ?x) ≤ _ => let n := eval vm_compute in (length (js x)) in change (length (js x)) with n; lia
      | |- length (js ?x) + _ ≤ _ => let n := eval vm_compute in (length (js x)) in change (length (js x)) with n; lia | _ => lia end.
  - rewrite !Forall_cons. repeat split; try done; apply plain_without; try done. by apply plain_app.
  - unfold notify_body. rewrite !elem_of_app. intros [Hin|[[Hin|Hin]|Hin]].
    + not_in Hin.
    + by revert Hin; apply plain_without.
    + not_in Hin.
    + not_in Hin.
Qed.

Definition context (f : FormState) : Context :=
  let d := derive f in let s := sourceTable d in let e := embeddingsTable d in
  MkContext [(notifyFn d, Some (notifyChannel d))] [(s, source_columns (textField f)); (e, embeddings_columns)]
    [s ++ #"_pkey"; e ++ #"_pkey"; e ++ #"_source_id_key"; e ++ #"_stream_idx"; e ++ #"_vector_idx"]
    [(s ++ #"_notify", s, notifyFn d)] [(s, #"stream", #"event_streams")] [mapping_row f d].

Lemma source_columns_allowed t : t ∉ RESERVED → forallb (λ c, bool_decide (c ∉ RESERVED)) (source_columns t) = true.
Proof.
  intros Ht. unfold source_columns. cbn [forallb]. rewrite (bool_decide_eq_true_2 _ Ht), andb_true_l.
  repeat (rewrite bool_decide_eq_true_2 by decide_closed; rewrite andb_true_l). done.
Qed.
Lemma embeddings_columns_allowed : forallb (λ c, bool_decide (c ∉ RESERVED)) embeddings_columns = true.
Proof. by vm_compute. Qed.

Lemma block_context f : usable f → context_of (buildSql f) = Some (context f).
Proof.
  intros Hu. pose proof (usable_names f Hu) as (Hw & Hq & Hb). destruct Hu as (_ & _ & _ & _ & _ & _ & Hres & _).
  assert (textField f ≠ #"constraint") as Ht by (intros E; apply Hres; rewrite E; apply (bool_decide_unpack _); vm_compute; exact I).
  destruct (block_reads f (derive f) Hw Hq Hb Ht) as (ts & E & _ & Hf & (i1 & i2 & Htab & Hc1 & Hc2 & Hk1 & Hk2) & Hi & Hg & Hr & Hm).
  assert (sql_tokens (buildSql f) = Some ts) as Hts.
  { unfold sql_tokens. unfold buildSql. cbv zeta. rewrite <- !app_assoc. unfold reads in E. by rewrite E. }
  unfold context_of. rewrite Hts. cbn [mbind option_bind]. rewrite Hf, Htab, Hi, Hg, Hr, Hm.
  unfold columns_allowed at 1. cbn [forallb snd]. rewrite Hc1, Hc2, source_columns_allowed, embeddings_columns_allowed by done. cbn [andb negb].
  unfold context. f_equal.
  assert (sql_tokens (notify_body (notifyChannel (derive f))) ≫= notified = Some (notifyChannel (derive f))) as Hch
    by (apply body_channel; rewrite Forall_forall in Hq; apply Hq; unfold texts_of; do 4 right; by left).
  change (prod_map id (λ b, sql_tokens b ≫= notified) <$> [(notifyFn (derive f), notify_body (notifyChannel (derive f)))])
    with [(notifyFn (derive f), sql_tokens (notify_body (notifyChannel (derive f))) ≫= notified)]. rewrite Hch. clear Hch.
  cbn [fmap list_fmap prod_map mbind list_bind fst snd app]. unfold prod_map. cbn [fst snd]. by rewrite Hc1, Hc2, Hk1, Hk2.
Qed.

(** * What the panel sends *)

Definition is_exec (c : Call) : bool := match c with ListCall => false | _ => true end.
Definition panel_ok (p : Panel) : Prop :=
  length (List.filter is_exec (calls p)) = (if executing p then 1 else 0)
  ∧ Forall (λ s, ∃ f, isFormValid f = true ∧ s = buildSql f) (sent p).

Lemma filter_delete_call (l : list Call) n c :
  l !! n = Some c → length (List.filter is_exec l) = length (List.filter is_exec (delete n l)) + (if is_exec c then 1 else 0).
Proof.
  revert n. induction l as [|a l IH]; intros [|n] E; [done..| |].
  - injection E as ->. change (delete 0 (c :: l)) with l. cbn [List.filter]. destruct (is_exec c); cbn [length]; lia.
  - apply IH in E. change (delete (S n) (a :: l)) with (a :: delete n l). cbn [List.filter]. destruct (is_exec a); cbn [length]; lia.
Qed.

Lemma filter_snoc l c : length (List.filter is_exec (l ++ [c])) = length (List.filter is_exec l) + (if is_exec c then 1 else 0).
Proof. rewrite List.filter_app, length_app. f_equal. cbn. by destruct (is_exec c). Qed.

(** Answers that fit their call. *)
Definition fits_call (c : Call) (r : Reply) : bool :=
  match c, r with ExecCall, OkReply _ _ | (ListCall | RelistCall), MappingsReply _ => true | _, _ => false end.
Definition fitting (p : Panel) (e : Event) : Prop :=
  match e with Answer n r => match calls p !! n with Some c => fits_call c r = true | None => True end | _ => True end.

Inductive reaches : Panel → Prop :=
| reaches_initial : reaches initial_panel
| reaches_event p e : reaches p → fitting p e → reaches (panel_event e p).

Lemma context_event_ok p e : panel_ok p → fitting p e → panel_ok (panel_event e p).
Proof.
  intros Hp Hf. pose proof Hp as [Hc Hs]. destruct e as [k v| |m| | | | |n r]; cbn [panel_event].
  - destruct (selected p); exact Hp.
  - exact Hp.
  - exact Hp.
  - destruct (selected p); exact Hp.
  - exact Hp.
  - destruct (selected p) eqn:Es; [done|]. unfold handleExecute. destruct (isFormValid (form p)) eqn:Ev; [|done].
    destruct (executing p) eqn:Ee; [done|]. cbn [negb orb]. split; cbn [calls executing sent set_calls set_form set_executing].
    + by rewrite filter_snoc, Hc.
    + constructor; [|done]. exists (form p). split; [done|]. unfold sql. by rewrite Es, Ev.
  - destruct (loading p); [done|]. split; [|done]. unfold loadMappings, wait. cbn [calls executing set_calls set_list]. by rewrite filter_snoc, Hc, Nat.add_0_r.
  - cbn [fitting] in Hf. destruct (calls p !! n) as [c|] eqn:En; [|done]. pose proof (filter_delete_call _ _ _ En) as Hd. rewrite Hc in Hd.
    destruct c, r as [l|ok er]; try discriminate Hf; clear Hf; cbn [answer]; try destruct ok; cbn [is_exec] in Hd;
      unfold panel_ok, loadMappings, wait; cbn [calls executing sent set_calls set_list set_form set_executing];
      rewrite ?filter_snoc; cbn [is_exec]; (split; [|exact Hs]); destruct (executing p); lia.
Qed.

Lemma reached_context_ok p : reaches p → panel_ok p.
Proof. induction 1 as [|p e _ IH Hf]; [split; [done|by apply Forall_nil]|]. by apply context_event_ok. Qed.

Lemma names_distinct f :
  trim (form_sourceTable f) = [] → trim (form_embeddingsTable f) = [] → NoDup ((tables (context f)).*1 ++ relations (context f)).
Proof.
  intros Hs He. unfold context, derive. rewrite Hs, He. cbn [or_text sourceTable embeddingsTable tables relations fmap list_fmap app fst].
  generalize (trim (name f)). intros b. rewrite <- !app_assoc.
  change (NoDup ((b ++.) <$> [ #"_events"; #"_embeddings"; #"_events" ++ #"_pkey"; #"_embeddings" ++ #"_pkey";
    #"_embeddings" ++ #"_source_id_key"; #"_embeddings" ++ #"_stream_idx"; #"_embeddings" ++ #"_vector_idx"])).
  apply NoDup_fmap_2; [intros x y; apply app_inv_head|]. decide_closed.
Qed.

Lemma row_fits_context f : row_fits (context f) (mapping_row f (derive f)) = bool_decide (idField f ∈ source_columns (textField f)).
Proof.
  unfold row_fits, context. generalize (derive f). intros d.
  assert (∀ col s, assoc_get col (mapping_row f d) = Some (Str s) → registered col (mapping_row f d) = Some s) as Hr
    by (intros col s E; unfold registered; by rewrite E).
  rewrite (Hr #"source_table" (sourceTable d)), (Hr #"source_text_field" (textField f)), (Hr #"source_id_field" (idField f)),
    (Hr #"notify_channel" (notifyChannel d)), (Hr #"target_table" (embeddingsTable d)) by by vm_compute.
  assert (textField f ∈ source_columns (textField f)) as Ht by (unfold source_columns; do 3 right; by left).
  assert (∀ A k (v : A) l, assoc_get k ((k, v) :: l) = Some v) as Hhead by (intros; cbn; by rewrite decide_True).
  assert (is_Some (assoc_get (embeddingsTable d) [(sourceTable d, source_columns (textField f)); (embeddingsTable d, embeddings_columns)])) as He
    by (cbn; case_decide; [by eexists|rewrite decide_True by done; by eexists]).
  cbn [tables functions triggers existsb fst snd]. rewrite !Hhead.
  rewrite (bool_decide_eq_true_2 _ Ht), (bool_decide_eq_true_2 _ (eq_refl (sourceTable d))),
    (bool_decide_eq_true_2 _ (eq_refl (Some (Some (notifyChannel d))))), (bool_decide_eq_true_2 _ He). cbn [andb orb].
  by rewrite !andb_true_r.
Qed.

Lemma source_columns_distinct t :
  NoDup (source_columns t) ↔ t ∉ [ #"id"; #"stream"; #"event_type"; #"payload"; #"processed"; #"created_at"].
Proof.
  unfold source_columns. change ([ #"id"; #"stream"; #"event_type"; t; #"payload"; #"processed"; #"created_at"])
    with ([ #"id"; #"stream"; #"event_type"] ++ t :: [ #"payload"; #"processed"; #"created_at"]).
  change ([ #"id"; #"stream"; #"event_type"; #"payload"; #"processed"; #"created_at"])
    with ([ #"id"; #"stream"; #"event_type"] ++ [ #"payload"; #"processed"; #"created_at"]).
  rewrite <- Permutation_middle, NoDup_cons. split; [by intros [? _]|]. intros Ht. split; [exact Ht|]. decide_closed.
Qed.

(** C34: every block the panel sends is the one of a valid form, and no two are under way at once; a block with
    names PostgreSQL keeps, whose text field is no reserved word, creates exactly the function, tables, trigger, keys and the row the form stands for, and
    the row names a column its table lacks exactly if the id field does; without overrides no two relations share a
    name, and the columns of the source table are distinct unless the text field is one of its own. *)
Theorem context_built p :
  reaches p →
  length (List.filter is_exec (calls p)) ≤ 1
  ∧ (∀ s, s ∈ sent p → ∃ f, isFormValid f = true ∧ s = buildSql f)
  ∧ ∀ f, usable f →
    context_of (buildSql f) = Some (context f)
    ∧ forallb (row_fits (context f)) (mappings (context f)) = bool_decide (idField f ∈ source_columns (textField f))
    ∧ (NoDup (source_columns (textField f))
       ↔ textField f ∉ [ #"id"; #"stream"; #"event_type"; #"payload"; #"processed"; #"created_at"])
    ∧ (trim (form_sourceTable f) = [] → trim (form_embeddingsTable f) = [] →
       NoDup ((tables (context f)).*1 ++ relations (context f))).
Proof.
  intros [Hc Hs]%reached_context_ok. split; [rewrite Hc; destruct (executing p); lia|]. rewrite Forall_forall in Hs. split; [exact Hs|].
  intros f Hu. split; [by apply block_context|].
  split; [|split; [apply source_columns_distinct|apply names_distinct]].
  change (mappings (context f)) with [mapping_row f (derive f)]. cbn [forallb]. by rewrite row_fits_context, andb_true_r.
Qed.

(** * Cases *)

Definition form_of (n t i : string) : FormState := MkFormState (js n) (js t) (js i) [] [].
Definition typed (f : FormState) : list Event := [SetField NameField (name f); SetField TextField (textField f); SetField IdField (idField f)].
Definition warehouse : FormState := form_of " warehouse " "text" "event_id".

Example context_built_witness :
  (∃ f, isFormValid f = true ∧ buildSql warehouse = buildSql f)
  ∧ context_of (buildSql warehouse) = Some (context warehouse)
  ∧ forallb (row_fits (context warehouse)) (mappings (context warehouse)) = false.
Proof.
  assert (reaches (run_panel (typed warehouse ++ [Execute]))) as Hr by (do 4 (eapply reaches_event; [|done]); apply reaches_initial).
  assert (sent (run_panel (typed warehouse ++ [Execute])) = [buildSql warehouse]) as Hs by by vm_compute.
  assert (usable warehouse) as Hu.
  { unfold usable. cbv zeta. do 7 (split; [first [by vm_compute|apply Nat.leb_le; by vm_compute|decide_closed]|]). split; decide_closed. }
  destruct (context_built _ Hr) as (_ & H & H'). destruct (H' warehouse Hu) as (H1 & H2 & _).
  split; [apply H; rewrite Hs; by left|]. split; [exact H1|]. rewrite H2. by vm_compute.
Defined.

(** The table keeps its column [id] whatever the form says; the row names the other. *)
Example id_field_ignored : row_fits (context warehouse) (mapping_row warehouse (derive warehouse)) = false.
Proof. by vm_compute. Qed.

(** Spaces around the text field are kept in the row, not in the column; a capital letter
    is kept in the row, not in the table; a text field [stream] doubles a column. *)
Definition rows_hold (f : FormState) : option bool :=
  (λ c, forallb (row_fits c) (mappings c)) <$> context_of (buildSql f).
Example registered_otherwise :
  rows_hold (form_of "warehouse" "text " "id") = Some false ∧ rows_hold (form_of "Warehouse" "text" "id") = Some false
  ∧ rows_hold (form_of "warehouse" "text" "id") = Some true
  ∧ ((λ c, forallb (λ t, bool_decide (NoDup t.2)) (tables c)) <$> context_of (buildSql (form_of "a" "stream" "id"))) = Some false.
Proof. repeat split; by vm_compute. Qed.

(** A name with an apostrophe ends a string; the block is not a text of SQL any more, or another. *)
Example apostrophe : context_of (buildSql (form_of "o'brien" "text" "id")) = None.
Proof. by vm_compute. Qed.

(** A reserved word is taken for the text field, and the block is refused. *)
Example reserved_word : isFormValid (form_of "a" "order" "id") = true ∧ context_of (buildSql (form_of "a" "order" "id")) = None.
Proof. split; by vm_compute. Qed.

(** The form that was filled in meanwhile is emptied by the answer. *)
Example late_wipe :
  form (run_panel (typed (form_of "a" "text" "id") ++ [Execute; SetField NameField #"b"; Answer 1 (OkReply true None)])) = EMPTY_FORM.
Proof. by vm_compute. Qed.

(** A reply without a list leaves none. *)
Example refused_mappings : listed_mappings (run_panel [Answer 0 (MappingsReply None)]) = None.
Proof. by vm_compute. Qed.
