(* ===== verification/ParseWorker.v ===== *)
(** The parse worker both applications share and its clients on the main thread:
    lang/worker/{worker,parse-client,diagnostics-client,diagnostics-worker}.ts of
    apps/oosd and apps/oos, over parse and languageUri of
    packages/oos-dsls-ts/src/services.ts.

    A world is the clients, the two directions of the port and the tasks of the
    worker; its events interleave as they like.  Langium is a parameter: the tree
    and the diagnostics of a text.  [DocumentBuilder.update] drops a document when
    it is called and waits; [addDocument] throws if there is one. *)

From S2P Require Export DslValidation.

#[local] Set Warnings "-register-all".

(** * Messages *)

Inductive OnisinLanguage := LangDomain | LangView | LangEventSchema.
#[global] Instance language_eq_dec : EqDecision OnisinLanguage.
Proof. solve_decision. Defined.
Inductive Kind := KindDomain | KindView | KindEventTypes.

Record Position := MkPosition { line : N; character : N }.
Record LspDiagnostic := MkLsp {
  lsp_severity : option N; range_start : Position; range_end : Position; lsp_message : str; lsp_source : option str }.

Inductive RequestType := Validate (l : OnisinLanguage) | ParseView | ParseDomain.
#[global] Instance request_type_eq_dec : EqDecision RequestType.
Proof. solve_decision. Defined.
Record ParseRequest := MkRequest { r_id : nat; r_type : RequestType; r_uri : str; r_text : str }.

Inductive ReplyBody :=
| DiagnosticsBody (ds : list LspDiagnostic)
| ViewBody (def : option ViewDef) (ds : list LspDiagnostic)
| DomainBody (def : option DomainDef) (ds : list LspDiagnostic).
Record Reply := MkReply { p_id : nat; p_uri : str; p_body : ReplyBody }.

Definition language_of (t : RequestType) : OnisinLanguage :=
  match t with Validate l => l | ParseView => LangView | ParseDomain => LangDomain end.

(** * Markers *)

Inductive MarkerSeverity := MarkError | MarkWarning | MarkInfo | MarkHint.
Record Marker := MkMarker {
  marker_severity : MarkerSeverity; marker_message : str;
  startLineNumber : N; startColumn : N; endLineNumber : N; endColumn : N; marker_source : option str }.

Definition mapSeverity (s : option N) : MarkerSeverity :=
  match s with Some 1%N => MarkError | Some 2%N => MarkWarning | Some 3%N => MarkInfo | Some 4%N => MarkHint | _ => MarkError end.
Definition toMarker (d : LspDiagnostic) : Marker :=
  MkMarker (mapSeverity (lsp_severity d)) (lsp_message d) (line (range_start d) + 1) (character (range_start d) + 1)
    (line (range_end d) + 1) (character (range_end d) + 1) (lsp_source d).

Record Uri := MkUri { uri_prefix : str; uri_path : str }.
#[global] Instance uri_eq_dec : EqDecision Uri.
Proof. solve_decision. Defined.

Definition extension (l : OnisinLanguage) : str :=
  match l with LangDomain => #".domain" | LangEventSchema => #".event-schema" | LangView => #".view" end.

Section worker.
(** [URI.parse]; what Langium makes of a text; what [addDocument] throws. *)
Context (parse_uri : str → Uri).
Context (view_service : str → option ViewDecl * list LspDiagnostic).
Context (domain_service : str → option DomainDecl * list LspDiagnostic).
Context (event_service : str → list LspDiagnostic).
Context (duplicate : Uri → str).

Definition languageUri (rawUri : str) (language : OnisinLanguage) : Uri :=
  let uri := parse_uri rawUri in
  let ext := extension language in
  if ends_with ext (uri_path uri) then uri else MkUri (uri_prefix uri) (uri_path uri ++ ext).
Definition document (r : ParseRequest) : Uri := languageUri (r_uri r) (language_of (r_type r)).

(** * The worker *)

(** What the three handlers post when their parse returns. *)
Definition body_of (r : ParseRequest) : ReplyBody :=
  match r_type r with
  | Validate l =>
    DiagnosticsBody (match l with
                     | LangView => (view_service (r_text r)).2
                     | LangDomain => (domain_service (r_text r)).2
                     | LangEventSchema => event_service (r_text r)
                     end)
  | ParseView => let '(def, ds) := parseView view_service (r_text r) in ViewBody def ds
  | ParseDomain => let '(def, ds) := parseDomain domain_service (r_text r) in DomainBody def ds
  end.
Definition answer_of (r : ParseRequest) : Reply := MkReply (r_id r) (r_uri r) (body_of r).

(** [postFailure] *)
Definition synthetic (message : str) : LspDiagnostic :=
  MkLsp (Some 1%N) (MkPosition 0 0) (MkPosition 0 0) (#"worker failure: " ++ message) (Some #"onisin-worker").
Definition failure_body (t : RequestType) (message : str) : ReplyBody :=
  match t with
  | Validate _ => DiagnosticsBody [synthetic message]
  | ParseView => ViewBody None [synthetic message]
  | ParseDomain => DomainBody None [synthetic message]
  end.
Definition postFailure (r : ParseRequest) (message : str) : Reply := MkReply (r_id r) (r_uri r) (failure_body (r_type r) message).

Record Worker := MkWorker {
  documents : list Uri;
  updating : list ParseRequest;       (** behind [await builder.update] *)
  building : list ParseRequest }.     (** behind [await builder.build] *)

(** [parse] up to its first [await]. *)
Definition receive (r : ParseRequest) (w : Worker) : Worker :=
  let uri := document r in
  if decide (uri ∈ documents w) then MkWorker (filter (λ u, u ≠ uri) (documents w)) (updating w ++ [r]) (building w)
  else MkWorker (uri :: documents w) (updating w) (building w ++ [r]).
(** From there to the second, or the throw of [addDocument]. *)
Definition after_update (r : ParseRequest) (w : Worker) : Worker * list Reply :=
  let uri := document r in
  if decide (uri ∈ documents w) then (w, [postFailure r (duplicate uri)])
  else (MkWorker (uri :: documents w) (updating w) (building w ++ [r]), []).

(** * The clients *)

(** A timer holds the model it was set for: whether that is still there, as it is until the model is disposed of. *)
Record Timer := MkTimer { t_kind : Kind; t_held : bool }.
Definition let_go (t : Timer) : Timer := MkTimer (t_kind t) false.

Record World := MkWorld {
  nextId : nat;
  pendingViews : list nat; pendingDomains : list nat;
  resolved : list (nat * ReplyBody);             (** the promises that were resolved, by request *)
  pendingByModel : list (str * nat);
  debounceTimers : list (str * Timer);
  models : list (str * str);                     (** the editor's models and their texts *)
  markers : list (str * list Marker);
  to_worker : list ParseRequest; tasks : Worker; to_client : list Reply;
  asked : list ParseRequest; delivered : list nat }.  (** all requests, and the replies the client has seen *)

Definition initial_world : World := MkWorld 1 [] [] [] [] [] [] [] [] (MkWorker [] [] []) [] [] [].

Definition set_client (n : nat) (pv pd : list nat) (out : list (nat * ReplyBody)) (w : World) : World :=
  MkWorld n pv pd out (pendingByModel w) (debounceTimers w) (models w) (markers w) (to_worker w) (tasks w) (to_client w)
    (asked w) (delivered w).
Definition set_editor (pm : list (str * nat)) (ts : list (str * Timer)) (ms : list (str * str)) (mk : list (str * list Marker))
    (w : World) : World :=
  MkWorld (nextId w) (pendingViews w) (pendingDomains w) (resolved w) pm ts ms mk (to_worker w) (tasks w) (to_client w)
    (asked w) (delivered w).
Definition set_port (inbox : list ParseRequest) (t : Worker) (outbox : list Reply) (w : World) : World :=
  MkWorld (nextId w) (pendingViews w) (pendingDomains w) (resolved w) (pendingByModel w) (debounceTimers w) (models w)
    (markers w) inbox t outbox (asked w) (delivered w).

(** [newRequestId()], then [postMessage]. *)
Definition post (t : RequestType) (uri text : str) (w : World) : World :=
  let r := MkRequest (nextId w) t uri text in
  MkWorld (S (nextId w)) (pendingViews w) (pendingDomains w) (resolved w) (pendingByModel w) (debounceTimers w) (models w)
    (markers w) (to_worker w ++ [r]) (tasks w) (to_client w) (asked w ++ [r]) (delivered w).

Definition parseViewInWorker (text uri : str) (w : World) : World :=
  post ParseView uri text (set_client (nextId w) (nextId w :: pendingViews w) (pendingDomains w) (resolved w) w).
Definition parseDomainInWorker (text uri : str) (w : World) : World :=
  post ParseDomain uri text (set_client (nextId w) (pendingViews w) (nextId w :: pendingDomains w) (resolved w) w).

Definition validateModel (uri : str) (kind : Kind) (w : World) : World :=
  set_editor (pendingByModel w) (map_set uri (MkTimer kind (bool_decide (is_Some (assoc_get uri (models w))))) (debounceTimers w)) (models w) (markers w) w.
Definition kind_language (kind : Kind) : OnisinLanguage :=
  match kind with KindEventTypes => LangEventSchema | KindDomain => LangDomain | KindView => LangView end.
(** [dispatch]; the text of a model that was disposed of throws, whether or not there is another of its name by now. *)
Definition dispatch (uri : str) (t : Timer) (w : World) : World :=
  let w := set_editor (map_set uri (nextId w) (pendingByModel w)) (debounceTimers w) (models w) (markers w) w in
  match (if t_held t then assoc_get uri (models w) else None) with
  | Some text => post (Validate (kind_language (t_kind t))) uri text w
  | None => set_client (S (nextId w)) (pendingViews w) (pendingDomains w) (resolved w) w
  end.
Definition debounce_fires (uri : str) (w : World) : World :=
  match assoc_get uri (debounceTimers w) with
  | Some t => dispatch uri t (set_editor (pendingByModel w) (map_delete uri (debounceTimers w)) (models w) (markers w) w)
  | None => w
  end.
Definition clearMarkers (uri : str) (w : World) : World :=
  match assoc_get uri (models w) with
  | Some _ => set_editor (pendingByModel w) (debounceTimers w) (models w) (map_set uri [] (markers w)) w
  | None => w
  end.

(** The two handlers of replies. *)
Definition on_reply (p : Reply) (w : World) : World :=
  match p_body p with
  | ViewBody _ _ =>
    if decide (p_id p ∈ pendingViews w) then
      set_client (nextId w) (filter (λ i, i ≠ p_id p) (pendingViews w)) (pendingDomains w) (resolved w ++ [(p_id p, p_body p)]) w
    else w
  | DomainBody _ _ =>
    if decide (p_id p ∈ pendingDomains w) then
      set_client (nextId w) (pendingViews w) (filter (λ i, i ≠ p_id p) (pendingDomains w)) (resolved w ++ [(p_id p, p_body p)]) w
    else w
  | DiagnosticsBody ds =>
    match assoc_get (p_uri p) (models w) with
    | None => w
    | Some _ =>
      if decide (assoc_get (p_uri p) (pendingByModel w) = Some (p_id p)) then
        set_editor (pendingByModel w) (debounceTimers w) (models w) (map_set (p_uri p) (toMarker <$> ds) (markers w)) w
      else w
    end
  end.

(** * Events *)

Inductive Event :=
| CallParseView (text uri : str) | CallParseDomain (text uri : str)
| SetText (uri text : str)                 (** of a new model or a known one *)
| Dispose (uri : str)                      (** the markers of a model go with it *)
| CallValidateModel (uri : str) (kind : Kind) | CallClearMarkers (uri : str)
| TimerFires (uri : str)
| Receive | Resume (n : nat) | Built (n : nat)   (** the worker: the next message, the n-th task of each kind *)
| Deliver.

Definition world_event (e : Event) (w : World) : World :=
  match e with
  | CallParseView text uri => parseViewInWorker text uri w
  | CallParseDomain text uri => parseDomainInWorker text uri w
  | SetText uri text => set_editor (pendingByModel w) (debounceTimers w) (map_set uri text (models w)) (markers w) w
  | Dispose uri =>
    set_editor (pendingByModel w) ((λ p, if decide (p.1 = uri) then (p.1, let_go p.2) else p) <$> debounceTimers w)
      (map_delete uri (models w)) (map_delete uri (markers w)) w
  | CallValidateModel uri kind => validateModel uri kind w
  | CallClearMarkers uri => clearMarkers uri w
  | TimerFires uri => debounce_fires uri w
  | Receive =>
    match to_worker w with
    | r :: rest => set_port rest (receive r (tasks w)) (to_client w) w
    | [] => w
    end
  | Resume n =>
    match updating (tasks w) !! n with
    | Some r =>
      let '(t, ps) := after_update r (MkWorker (documents (tasks w)) (delete n (updating (tasks w))) (building (tasks w))) in
      set_port (to_worker w) t (to_client w ++ ps) w
    | None => w
    end
  | Built n =>
    match building (tasks w) !! n with
    | Some r =>
      set_port (to_worker w) (MkWorker (documents (tasks w)) (updating (tasks w)) (delete n (building (tasks w))))
        (to_client w ++ [answer_of r]) w
    | None => w
    end
  | Deliver =>
    match to_client w with
    | p :: rest =>
      let w := on_reply p (set_port (to_worker w) (tasks w) rest w) in
      MkWorld (nextId w) (pendingViews w) (pendingDomains w) (resolved w) (pendingByModel w) (debounceTimers w) (models w)
        (markers w) (to_worker w) (tasks w) (to_client w) (asked w) (delivered w ++ [p_id p])
    | [] => w
    end
  end.
End worker.

(** * Laws *)

Section laws.
Context (parse_uri : str → Uri).
Context (view_service : str → option ViewDecl * list LspDiagnostic).
Context (domain_service : str → option DomainDecl * list LspDiagnostic).
Context (event_service : str → list LspDiagnostic).
Context (duplicate : Uri → str).
#[local] Abbreviation doc := (document parse_uri).
#[local] Abbreviation answer := (answer_of view_service domain_service event_service).
#[local] Abbreviation step := (world_event parse_uri view_service domain_service event_service duplicate).

Definition jobs (w : World) : list ParseRequest := updating (tasks w) ++ building (tasks w).
Definition in_flight (w : World) : list nat := (r_id <$> to_worker w) ++ (r_id <$> jobs w) ++ (p_id <$> to_client w).

(** [apart]: the worker takes a request in only when no other on the same document
    is at work. *)
Definition admits (apart : bool) (w : World) (e : Event) : Prop :=
  match e with
  | Receive => match to_worker w with r :: _ => apart = true → doc r ∉ doc <$> jobs w | [] => True end
  | _ => True
  end.
Inductive reaches (apart : bool) : World → Prop :=
| reaches_initial : reaches apart initial_world
| reaches_event w e : reaches apart w → admits apart w e → reaches apart (step e w).

Definition replies (apart : bool) (r : ParseRequest) (p : Reply) : Prop :=
  p = answer r ∨ (apart = false ∧ p = postFailure r (duplicate (doc r))).

(** ** Requests go one way *)

Record flow_ok (apart : bool) (w : World) : Prop := {
  ids_fresh : Forall (λ r, r_id r < nextId w) (asked w);
  ids_once : NoDup (r_id <$> asked w);
  ids_placed : r_id <$> asked w ≡ₚ in_flight w ++ delivered w;
  requests_known : ∀ r, r ∈ to_worker w ++ jobs w → r ∈ asked w;
  replies_known : ∀ p, p ∈ to_client w → ∃ r, r ∈ asked w ∧ replies apart r p;
  documents_apart : apart = true → (∀ r, r ∈ updating (tasks w) → doc r ∉ documents (tasks w)) ∧ NoDup (doc <$> jobs w) }.

Lemma replies_id apart r p : replies apart r p → p_id p = r_id r ∧ p_uri p = r_uri r.
Proof. by intros [->|[_ ->]]. Qed.

Lemma take_job {A} (l : list A) n x : l !! n = Some x → l ≡ₚ x :: delete n l.
Proof. apply delete_Permutation. Qed.

(** An event that neither posts nor moves a message. *)
Definition same_flow (w w' : World) : Prop :=
  nextId w ≤ nextId w' ∧ asked w' = asked w ∧ to_worker w' = to_worker w ∧ tasks w' = tasks w ∧ to_client w' = to_client w
  ∧ delivered w' = delivered w.

Lemma same_flow_ok apart w w' : same_flow w w' → flow_ok apart w → flow_ok apart w'.
Proof.
  intros (Hn & Ha & Hi & Ht & Ho & Hd) [H1 H2 H3 H4 H5 H6]. unfold in_flight, jobs in *. constructor; unfold in_flight, jobs; rewrite ?Ha, ?Hi, ?Ht, ?Ho, ?Hd; try done.
  eapply Forall_impl; [exact H1|]. cbn. intros r Hr. lia.
Qed.

Lemma post_ok apart t uri text w : flow_ok apart w → flow_ok apart (post t uri text w).
Proof.
  intros [H1 H2 H3 H4 H5 H6]. unfold post. constructor; unfold in_flight, jobs in *; cbn.
  - apply Forall_app. split; [eapply Forall_impl; [exact H1|]; cbn; intros r Hr; lia|]. constructor; [cbn; lia|done].
  - rewrite fmap_app. apply NoDup_app. split; [done|]. split; [|apply NoDup_singleton].
    intros i Hi ->%list_elem_of_singleton. apply list_elem_of_fmap in Hi as (r & Hr & Hin). rewrite Forall_forall in H1.
    apply H1 in Hin. cbn in Hr. lia.
  - rewrite !fmap_app. rewrite !fmap_app in H3. rewrite H3. cbn [fmap list_fmap r_id]. rewrite <- !app_assoc.
    apply Permutation_app_head. rewrite (Permutation_app_comm [nextId w]). by rewrite <- !app_assoc.
  - intros r Hr. rewrite !elem_of_app in Hr. apply elem_of_app.
    destruct Hr as [[Hr|Hr]|Hr]; [left|right; exact Hr|left]; apply H4; rewrite !elem_of_app; tauto.
  - intros p Hp. destruct (H5 p Hp) as (r & Hr & Hrp). exists r. split; [|done]. apply elem_of_app. by left.
  - done.
Qed.

Lemma on_reply_flow p w : same_flow w (on_reply p w).
Proof.
  unfold on_reply, same_flow. destruct (p_body p); [destruct (assoc_get _ _); [|done]| |]; case_decide; done.
Qed.

Lemma move_ok apart (w : World) inbox t outbox :
  flow_ok apart w →
  (r_id <$> inbox) ++ (r_id <$> updating t ++ building t) ++ (p_id <$> outbox) ≡ₚ in_flight w →
  (∀ r, r ∈ inbox ++ updating t ++ building t → r ∈ to_worker w ++ jobs w) →
  (∀ p, p ∈ outbox → p ∈ to_client w ∨ ∃ r, r ∈ to_worker w ++ jobs w ∧ replies apart r p) →
  (apart = true → (∀ r, r ∈ updating t → doc r ∉ documents t) ∧ NoDup (doc <$> updating t ++ building t)) →
  flow_ok apart (set_port inbox t outbox w).
Proof.
  intros [H1 H2 H3 H4 H5 H6] Hids Hreq Hrep Hap. constructor; [exact H1|exact H2| | | |exact Hap].
  - unfold in_flight, jobs. cbn [to_worker tasks to_client delivered asked set_port]. by rewrite Hids.
  - intros r Hr. by apply H4, Hreq.
  - intros p Hp. destruct (Hrep p Hp) as [Hp'|(r & Hr & Hrp)]; [by apply H5|]. exists r. split; [by apply H4|done].
Qed.

Lemma receive_ok apart r rest w :
  to_worker w = r :: rest → (apart = true → doc r ∉ doc <$> jobs w) → flow_ok apart w →
  flow_ok apart (set_port rest (receive parse_uri r (tasks w)) (to_client w) w).
Proof.
  intros Hr Ha Hw. pose proof Hw as [_ _ _ _ _ H6].
  assert (updating (receive parse_uri r (tasks w)) ++ building (receive parse_uri r (tasks w)) ≡ₚ r :: jobs w) as Hj.
  { unfold receive, jobs. case_decide; cbn [updating building]; [rewrite <- app_assoc; symmetry; apply Permutation_middle|].
    rewrite app_assoc. symmetry. apply Permutation_cons_append. }
  apply move_ok; [done| | | |].
  - rewrite Hj. unfold in_flight. rewrite Hr. cbn [fmap list_fmap app]. by rewrite <- Permutation_middle.
  - intros x. rewrite Hr, elem_of_app, Hj. cbn [app]. rewrite !elem_of_cons, elem_of_app. tauto.
  - intros p Hp. by left.
  - intros E. specialize (Ha E). destruct (H6 E) as [Hu Hn]. split.
    + unfold receive. intros x Hx. destruct (decide (doc r ∈ documents (tasks w))) as [Hd|Hd]; cbn [updating documents] in *.
      * rewrite list_elem_of_filter. intros [Hne Hin]. apply elem_of_app in Hx as [Hx| ->%list_elem_of_singleton]; [by apply (Hu x)|done].
      * rewrite elem_of_cons. intros [Hx'|Hin]; [|by apply (Hu x)]. apply Ha. apply list_elem_of_fmap. exists x. split; [done|].
        apply elem_of_app. by left.
    + rewrite Hj. rewrite fmap_cons. apply NoDup_cons. split; [done|exact Hn].
Qed.

Lemma resume_task_ok apart n r w :
  updating (tasks w) !! n = Some r → flow_ok apart w →
  flow_ok apart (step (Resume n) w).
Proof.
  intros Hn Hw. pose proof Hw as [_ _ _ _ _ H6]. cbn [world_event]. rewrite Hn.
  pose proof (take_job _ _ _ Hn) as Hp. unfold after_update. cbn [documents updating building].
  revert Hp. generalize (delete n (updating (tasks w))). intros left_ Hp.
  assert (left_ ++ building (tasks w) ++ [r] ≡ₚ r :: left_ ++ building (tasks w)) as Hq
    by (rewrite app_assoc; symmetry; apply Permutation_cons_append).
  assert (r ∈ to_worker w ++ jobs w) as Hin.
  { apply elem_of_app. right. apply elem_of_app. left. by apply list_elem_of_lookup_2 in Hn. }
  destruct (decide (doc r ∈ documents (tasks w))) as [Hd|Hd]; apply move_ok; cbn [updating building documents]; try done.
  - unfold in_flight, jobs. rewrite Hp, !fmap_app. cbn [fmap list_fmap app p_id postFailure]. apply Permutation_app_head.
    rewrite (Permutation_app_comm _ [r_id r]), app_assoc. by rewrite (Permutation_app_comm _ [r_id r]).
  - intros x. unfold jobs. rewrite Hp. rewrite !elem_of_app, elem_of_cons. tauto.
  - intros p. rewrite elem_of_app. intros [Hx| ->%list_elem_of_singleton]; [by left|]. right. exists r. split; [done|].
    destruct apart; [|by right]. destruct (H6 eq_refl) as [Hu _]. by apply list_elem_of_lookup_2, Hu in Hn.
  - intros E. destruct (H6 E) as [Hu _]. by apply list_elem_of_lookup_2, Hu in Hn.
  - unfold in_flight, jobs. rewrite app_nil_r, Hp, Hq. done.
  - intros x. unfold jobs. rewrite Hp. rewrite !elem_of_app, !elem_of_cons, elem_of_nil. tauto.
  - intros p. rewrite app_nil_r. by left.
  - intros E. destruct (H6 E) as [Hu Hnd]. unfold jobs in Hnd. rewrite Hp in Hnd. cbn [app] in Hnd. rewrite fmap_cons in Hnd.
    pose proof Hnd as [Hnr _]%NoDup_cons. split.
    + intros x Hx. rewrite elem_of_cons. intros [Ex|Hin'].
      * apply Hnr. rewrite <- Ex. apply list_elem_of_fmap. exists x. split; [done|]. apply elem_of_app. by left.
      * apply (Hu x); [|done]. rewrite Hp. by right.
    + rewrite Hq. exact Hnd.
Qed.

Lemma built_ok apart n r w :
  building (tasks w) !! n = Some r → flow_ok apart w → flow_ok apart (step (Built n) w).
Proof.
  intros Hn Hw. pose proof Hw as [_ _ _ _ _ H6]. cbn [world_event]. rewrite Hn. pose proof (take_job _ _ _ Hn) as Hp.
  revert Hp. generalize (delete n (building (tasks w))). intros left_ Hp.
  apply move_ok; cbn [updating building documents]; [done| | | |].
  - unfold in_flight, jobs. rewrite Hp, !fmap_app. cbn [fmap list_fmap app p_id answer_of]. apply Permutation_app_head.
    rewrite (Permutation_app_comm _ [r_id r]), app_assoc. rewrite (Permutation_app_comm _ [r_id r]). cbn [app].
    rewrite <- Permutation_middle. done.
  - intros x. unfold jobs. rewrite Hp. rewrite !elem_of_app, elem_of_cons. tauto.
  - intros p. rewrite elem_of_app. intros [Hx| ->%list_elem_of_singleton]; [by left|]. right. exists r. split; [|by left].
    apply elem_of_app. right. apply elem_of_app. right. by apply list_elem_of_lookup_2 in Hn.
  - intros E. destruct (H6 E) as [Hu Hnd]. split; [done|]. unfold jobs in Hnd. rewrite Hp, fmap_app in Hnd. cbn [fmap list_fmap] in Hnd.
    rewrite <- Permutation_middle in Hnd. apply NoDup_cons in Hnd as [_ Hnd]. by rewrite fmap_app.
Qed.

Lemma deliver_ok apart p rest w :
  to_client w = p :: rest → flow_ok apart w → flow_ok apart (step Deliver w).
Proof.
  intros Hc Hw. cbn [world_event]. rewrite Hc. pose proof (on_reply_flow p (set_port (to_worker w) (tasks w) rest w)) as Hs.
  destruct Hs as (Hn & Ha & Hi & Ht & Ho & Hd). destruct Hw as [H1 H2 H3 H4 H5 H6].
  cbn [nextId asked to_worker tasks to_client delivered set_port] in *.
  constructor; unfold in_flight, jobs; cbn [nextId asked to_worker tasks to_client delivered]; rewrite ?Ha, ?Hi, ?Ht, ?Ho, ?Hd; try done.
  - eapply Forall_impl; [exact H1|]. cbn. intros r Hr. lia.
  - rewrite H3. unfold in_flight, jobs. rewrite Hc. cbn [fmap list_fmap]. rewrite <- !app_assoc. do 2 apply Permutation_app_head.
    cbn [app]. rewrite app_assoc. apply Permutation_cons_append.
  - intros q Hq. apply H5. rewrite Hc. by right.
Qed.

Lemma flow_event_ok apart w e : admits apart w e → flow_ok apart w → flow_ok apart (step e w).
Proof.
  intros Ha Hw. destruct e as [text uri|text uri|uri text|uri|uri kind|uri|uri| |n|n|].
  - apply post_ok. eapply same_flow_ok; [|exact Hw]. by repeat split.
  - apply post_ok. eapply same_flow_ok; [|exact Hw]. by repeat split.
  - eapply same_flow_ok; [|exact Hw]. by repeat split.
  - eapply same_flow_ok; [|exact Hw]. by repeat split.
  - eapply same_flow_ok; [|exact Hw]. by repeat split.
  - cbn [world_event]. unfold clearMarkers. destruct (assoc_get _ _); [|done]. eapply same_flow_ok; [|exact Hw]. by repeat split.
  - cbn [world_event]. unfold debounce_fires. destruct (assoc_get _ _) as [[kind held]|]; [|done]. unfold dispatch. cbn [models set_editor t_kind t_held].
    destruct (if held then _ else _); [apply post_ok|]; (eapply same_flow_ok; [|exact Hw]); repeat split; cbn; lia.
  - cbn [world_event]. destruct (to_worker w) as [|r rest] eqn:E; [done|]. apply receive_ok; [done| |done]. cbn [admits] in Ha. by rewrite E in Ha.
  - destruct (updating (tasks w) !! n) as [r|] eqn:E; [by apply (resume_task_ok _ _ r)|]. cbn [world_event]. by rewrite E.
  - destruct (building (tasks w) !! n) as [r|] eqn:E; [by apply (built_ok _ _ r)|]. cbn [world_event]. by rewrite E.
  - destruct (to_client w) as [|p rest] eqn:E; [cbn [world_event]; by rewrite E|]. by apply (deliver_ok _ p rest).
Qed.

Lemma reaches_flow apart w : reaches apart w → flow_ok apart w.
Proof.
  induction 1 as [|w e _ IH Ha]; [|by apply flow_event_ok]. constructor.
  - by apply Forall_nil.
  - by apply NoDup_nil.
  - done.
  - intros r Hr. by apply elem_of_nil in Hr.
  - intros p Hp. by apply elem_of_nil in Hp.
  - intros _. split; [intros r Hr; by apply elem_of_nil in Hr|by apply NoDup_nil].
Qed.
End laws.

Section promises.
Context (parse_uri : str → Uri).
Context (view_service : str → option ViewDecl * list LspDiagnostic).
Context (domain_service : str → option DomainDecl * list LspDiagnostic).
Context (event_service : str → list LspDiagnostic).
Context (duplicate : Uri → str).
#[local] Abbreviation step := (world_event parse_uri view_service domain_service event_service duplicate).
#[local] Abbreviation answers := (replies parse_uri view_service domain_service event_service duplicate).
#[local] Abbreviation flow := (flow_ok parse_uri view_service domain_service event_service duplicate).

(** ** Every promise is resolved once, with the reply to its own request *)

Definition is_parse (t : RequestType) : bool := match t with Validate _ => false | _ => true end.

Record promises_ok (apart : bool) (w : World) : Prop := {
  views_pending : ∀ i, i ∈ pendingViews w ↔ ∃ r, r ∈ asked w ∧ r_type r = ParseView ∧ r_id r = i ∧ i ∉ delivered w;
  domains_pending : ∀ i, i ∈ pendingDomains w ↔ ∃ r, r ∈ asked w ∧ r_type r = ParseDomain ∧ r_id r = i ∧ i ∉ delivered w;
  resolved_own : ∀ i b, (i, b) ∈ resolved w →
    ∃ r p, r ∈ asked w ∧ r_id r = i ∧ is_parse (r_type r) = true ∧ answers apart r p ∧ b = p_body p ∧ i ∈ delivered w;
  resolved_once : NoDup (resolved w).*1;
  resolved_all : ∀ r, r ∈ asked w → is_parse (r_type r) = true → r_id r ∈ delivered w → r_id r ∈ (resolved w).*1 }.

Definition same_promises (w w' : World) : Prop :=
  asked w' = asked w ∧ delivered w' = delivered w ∧ pendingViews w' = pendingViews w ∧ pendingDomains w' = pendingDomains w
  ∧ resolved w' = resolved w.
Lemma same_promises_ok apart w w' : same_promises w w' → promises_ok apart w → promises_ok apart w'.
Proof. intros (Ha & Hd & Hv & Hm & Ho) [H1 H2 H3 H4 H5]. by constructor; rewrite ?Ha, ?Hd, ?Hv, ?Hm, ?Ho. Qed.

Lemma delivered_asked apart w i : flow apart w → i ∈ delivered w → i < nextId w.
Proof.
  intros [H1 _ H3 _ _ _] Hi. assert (i ∈ r_id <$> asked w) as Hin by (rewrite H3; apply elem_of_app; by right).
  apply list_elem_of_fmap in Hin as (r & -> & Hr). rewrite Forall_forall in H1. by apply H1.
Qed.
Lemma delivered_fresh apart w p rest : flow apart w → to_client w = p :: rest → p_id p ∉ delivered w.
Proof.
  intros [_ H2 H3 _ _ _] Hc Hi. rewrite H3 in H2. apply NoDup_app in H2 as (_ & Hd & _). apply (Hd (p_id p)); [|done].
  unfold in_flight. rewrite Hc, !elem_of_app. right. right. by left.
Qed.
Lemma asked_once apart w r r' : flow apart w → r ∈ asked w → r' ∈ asked w → r_id r = r_id r' → r = r'.
Proof.
  intros [_ H2 _ _ _ _] Hr Hr' E. apply list_elem_of_lookup in Hr as [i Hi], Hr' as [j Hj].
  assert (i = j) as ->; [|congruence]. eapply NoDup_lookup; [exact H2| |]; rewrite list_lookup_fmap; [by rewrite Hi|by rewrite Hj, E].
Qed.

Lemma replies_body apart r p : answers apart r p →
  match r_type r, p_body p with
  | Validate _, DiagnosticsBody _ | ParseView, ViewBody _ _ | ParseDomain, DomainBody _ _ => True
  | _, _ => False
  end.
Proof.
  intros [->|[_ ->]]; cbn [p_body answer_of postFailure].
  - unfold body_of. destruct (r_type r); [done|by destruct (parseView _ _)|by destruct (parseDomain _ _)].
  - unfold failure_body. by destruct (r_type r).
Qed.

(** A request of the clients: one of the three tables gets its number. *)
Lemma post_promises apart t uri text pv pd w :
  flow apart w → promises_ok apart w →
  (∀ i, i ∈ pv ↔ i ∈ pendingViews w ∨ (t = ParseView ∧ i = nextId w)) →
  (∀ i, i ∈ pd ↔ i ∈ pendingDomains w ∨ (t = ParseDomain ∧ i = nextId w)) →
  promises_ok apart (post t uri text (set_client (nextId w) pv pd (resolved w) w)).
Proof.
  intros Hw [H1 H2 H3 H4 H5] Hv Hd. assert (nextId w ∉ delivered w) as Hfresh
    by (intros Hin; apply (delivered_asked apart w _ Hw) in Hin; lia).
  assert (∀ T i, (∃ r, r ∈ asked w ++ [MkRequest (nextId w) t uri text] ∧ r_type r = T ∧ r_id r = i ∧ i ∉ delivered w)
    ↔ (∃ r, r ∈ asked w ∧ r_type r = T ∧ r_id r = i ∧ i ∉ delivered w) ∨ (t = T ∧ i = nextId w)) as Hask.
  { intros T i. split.
    - intros (r & [Hr| ->%list_elem_of_singleton]%elem_of_app & Ht & Hi & Hn); [left; by exists r|right; by split].
    - intros [(r & Hr & Hrest)|[-> ->]]; [exists r; split; [apply elem_of_app; by left|done]|].
      exists (MkRequest (nextId w) T uri text). split; [apply elem_of_app; right; by left|]. done. }
  constructor; cbn [pendingViews pendingDomains resolved asked delivered post set_client].
  - intros i. by rewrite Hask, Hv, H1.
  - intros i. by rewrite Hask, Hd, H2.
  - intros i b Hin. destruct (H3 i b Hin) as (r & p & Hr & Hrest). exists r, p. split; [apply elem_of_app; by left|done].
  - done.
  - intros r [Hr| ->%list_elem_of_singleton]%elem_of_app Hp Hin; [by apply H5|done].
Qed.

(** After the reply [p] to the request [r]. *)
Lemma deliver_fields apart w w' r p :
  flow apart w → promises_ok apart w → r ∈ asked w → answers apart r p → p_id p ∉ delivered w →
  asked w' = asked w → delivered w' = delivered w ++ [p_id p] →
  (∀ i, i ∈ pendingViews w' ↔ i ∈ pendingViews w ∧ i ≠ p_id p) → (∀ i, i ∈ pendingDomains w' ↔ i ∈ pendingDomains w ∧ i ≠ p_id p) →
  resolved w' = resolved w ++ (if is_parse (r_type r) then [(p_id p, p_body p)] else []) →
  promises_ok apart w'.
Proof.
  intros Hw [H1 H2 H3 H4 H5] Hr Hrp Hn Ha Hd Hv Hm Ho. destruct (replies_id _ _ _ _ _ _ _ _ Hrp) as [Hid _].
  assert (∀ T i, (∃ r', r' ∈ asked w ∧ r_type r' = T ∧ r_id r' = i ∧ i ∉ delivered w ++ [p_id p])
    ↔ (∃ r', r' ∈ asked w ∧ r_type r' = T ∧ r_id r' = i ∧ i ∉ delivered w) ∧ i ≠ p_id p) as Hex.
  { intros T i. split.
    - intros (r' & H1' & H2' & H3' & H4'). rewrite elem_of_app, list_elem_of_singleton in H4'. split; [exists r'|]; tauto.
    - intros [(r' & H1' & H2' & H3' & H4') Hne]. exists r'. rewrite elem_of_app, list_elem_of_singleton. tauto. }
  constructor; rewrite ?Ha, ?Hd, ?Ho.
  - intros i. by rewrite Hex, Hv, H1.
  - intros i. by rewrite Hex, Hm, H2.
  - intros i b [Hin|Hin]%elem_of_app.
    + destruct (H3 i b Hin) as (r' & p' & Hr' & Hi & Ht & Hp & Hb & Hdel). exists r', p'. rewrite elem_of_app. tauto.
    + destruct (is_parse (r_type r)) eqn:Et; [|by apply elem_of_nil in Hin]. apply list_elem_of_singleton in Hin as [= -> ->].
      exists r, p. rewrite elem_of_app. repeat split; try done. right. by left.
  - rewrite fmap_app. apply NoDup_app. split; [done|]. destruct (is_parse (r_type r)); [|split; [intros x _ Hx; by apply elem_of_nil in Hx|apply NoDup_nil; exact I]].
    split; [|apply NoDup_singleton]. intros x Hx Hx'%list_elem_of_singleton. cbn in Hx'. subst x.
    apply list_elem_of_fmap in Hx as ([j b'] & Ej & Hin). cbn in Ej. subst j. by apply H3 in Hin as (? & ? & _ & _ & _ & _ & _ & Hdel).
  - intros r' Hr' Ht [Hin|Hin]%elem_of_app; rewrite fmap_app, elem_of_app; [left; by apply H5|right].
    apply list_elem_of_singleton in Hin. rewrite Hid in Hin. apply (asked_once _ _ _ _ Hw Hr' Hr) in Hin as ->. rewrite Ht, Hid. by left.
Qed.

Lemma other_table apart w r i T :
  flow apart w → r ∈ asked w → r_type r ≠ T → (∃ r', r' ∈ asked w ∧ r_type r' = T ∧ r_id r' = i ∧ i ∉ delivered w) → i ≠ r_id r.
Proof.
  intros Hw Hr Ht (r' & Hr' & Ht' & Hi & _) ->. apply Ht. by rewrite (asked_once _ _ _ _ Hw Hr Hr').
Qed.

Lemma deliver_promises apart p rest w :
  to_client w = p :: rest → flow apart w → promises_ok apart w → promises_ok apart (step Deliver w).
Proof.
  intros Hc Hw Hp. pose proof (delivered_fresh _ _ _ _ Hw Hc) as Hn. pose proof Hw as [_ _ _ _ Hreq _].
  destruct (Hreq p) as (r & Hr & Hrp); [rewrite Hc; by left|]. pose proof (replies_body _ _ _ Hrp) as Hb.
  destruct (replies_id _ _ _ _ _ _ _ _ Hrp) as [Hid _]. cbn [world_event]. rewrite Hc. pose proof Hp as [H1 H2 _ _ _].
  assert (∀ T i, r_type r ≠ T → (∃ r', r' ∈ asked w ∧ r_type r' = T ∧ r_id r' = i ∧ i ∉ delivered w) → i ≠ p_id p) as Hoth
    by (intros T i Ht Hex; rewrite Hid; by apply (other_table apart w r i T)).
  unfold on_reply. cbn [models pendingByModel pendingViews pendingDomains set_port].
  destruct (r_type r) as [l| |] eqn:Et, (p_body p) as [ds|def ds|def ds] eqn:Eb; try done.
  - apply (deliver_fields apart w _ r p); try done; rewrite ?Et; cbn [is_parse]; rewrite ?app_nil_r;
      (destruct (assoc_get (p_uri p) (models w)); [case_decide|]); try done;
      intros i; cbn [pendingViews pendingDomains set_editor set_port]; rewrite ?H1, ?H2; (split; [|tauto]); intros Hex; (split; [done|]);
      eapply Hoth; try exact Hex; done.
  - rewrite decide_True by (apply H1; exists r; by rewrite Hid in *).
    apply (deliver_fields apart w _ r p); try done; rewrite ?Et, ?Eb; try done;
      intros i; cbn [pendingViews pendingDomains set_client set_port].
    + rewrite list_elem_of_filter. tauto.
    + rewrite H2. split; [|tauto]. intros Hex. split; [done|]. eapply Hoth; [|exact Hex]. done.
  - rewrite decide_True by (apply H2; exists r; by rewrite Hid in *).
    apply (deliver_fields apart w _ r p); try done; rewrite ?Et, ?Eb; try done;
      intros i; cbn [pendingViews pendingDomains set_client set_port].
    + rewrite H1. split; [|tauto]. intros Hex. split; [done|]. eapply Hoth; [|exact Hex]. done.
    + rewrite list_elem_of_filter. tauto.
Qed.

Lemma promises_event_ok apart w e : flow apart w → promises_ok apart w → promises_ok apart (step e w).
Proof.
  intros Hw Hp. destruct e as [text uri|text uri|uri text|uri|uri kind|uri|uri| |n|n|].
  - apply post_promises; [done..| |]; intros i; rewrite ?elem_of_cons; [split; [intros [->|]|intros [|[_ ->]]]; tauto|].
    split; [tauto|]. by intros [|[? _]].
  - apply post_promises; [done..| |]; intros i; rewrite ?elem_of_cons; [|split; [intros [->|]|intros [|[_ ->]]]; tauto].
    split; [tauto|]. by intros [|[? _]].
  - eapply same_promises_ok; [|exact Hp]. by repeat split.
  - eapply same_promises_ok; [|exact Hp]. by repeat split.
  - eapply same_promises_ok; [|exact Hp]. by repeat split.
  - cbn [world_event]. unfold clearMarkers. destruct (assoc_get _ _); [|done]. eapply same_promises_ok; [|exact Hp]. by repeat split.
  - cbn [world_event]. unfold debounce_fires. destruct (assoc_get _ _) as [[kind held]|]; [|done]. unfold dispatch. cbn [models set_editor t_kind t_held].
    destruct (if held then _ else _) as [text|]; [|eapply same_promises_ok; [|exact Hp]; by repeat split].
    eapply same_promises_ok; [|apply (post_promises apart (Validate (kind_language kind)) uri text (pendingViews w) (pendingDomains w) w Hw Hp)];
      [by repeat split|intros i; split; [tauto|by intros [|[? _]]]..].
  - cbn [world_event]. destruct (to_worker w); [done|]. eapply same_promises_ok; [|exact Hp]. by repeat split.
  - cbn [world_event]. destruct (updating (tasks w) !! n); [|done]. destruct (after_update _ _ _ _) as [t ps]. eapply same_promises_ok; [|exact Hp]. by repeat split.
  - cbn [world_event]. destruct (building (tasks w) !! n); [|done]. eapply same_promises_ok; [|exact Hp]. by repeat split.
  - destruct (to_client w) as [|p rest] eqn:E; [cbn [world_event]; by rewrite E|]. by apply (deliver_promises _ p rest).
Qed.

(** ** Markers *)

Record markers_ok (apart : bool) (w : World) : Prop := {
  no_model : ∀ uri, assoc_get uri (models w) = None → assoc_get uri (markers w) = None;
  latest_old : ∀ uri i, assoc_get uri (pendingByModel w) = Some i → i < nextId w;
  latest_shown : ∀ uri i r, assoc_get uri (pendingByModel w) = Some i → r ∈ asked w → r_id r = i →
    r_uri r = uri ∧ is_parse (r_type r) = false
    ∧ (i ∈ delivered w →
       default [] (assoc_get uri (markers w)) = []
       ∨ ∃ p ds, answers apart r p ∧ p_body p = DiagnosticsBody ds ∧ assoc_get uri (markers w) = Some (toMarker <$> ds)) }.

Definition same_markers (w w' : World) : Prop :=
  nextId w' = nextId w ∧ asked w' = asked w ∧ delivered w' = delivered w ∧ pendingByModel w' = pendingByModel w
  ∧ models w' = models w ∧ markers w' = markers w.
Lemma same_markers_ok apart w w' : same_markers w w' → markers_ok apart w → markers_ok apart w'.
Proof. intros (Hn & Ha & Hd & Hp & Hm & Hk) [H1 H2 H3]. constructor; rewrite ?Hn, ?Ha, ?Hd, ?Hp, ?Hm, ?Hk; done. Qed.

Lemma post_markers apart t uri text pv pd out w : markers_ok apart w → markers_ok apart (post t uri text (set_client (nextId w) pv pd out w)).
Proof.
  intros [H1 H2 H3]. constructor; cbn [models markers pendingByModel nextId asked delivered post set_client]; [done| |].
  - intros u i Hi%H2. lia.
  - intros u i r Hi [Hr| ->%list_elem_of_singleton]%elem_of_app Hid; [by apply (H3 u i r)|]. apply H2 in Hi. cbn in Hid. lia.
Qed.

Lemma dispatch_markers apart uri t w : flow apart w → markers_ok apart w → markers_ok apart (dispatch uri t w).
Proof.
  intros Hw [H1 H2 H3]. pose proof Hw as [Hf _ _ _ _ _]. rewrite Forall_forall in Hf. unfold dispatch. cbn [models set_editor].
  destruct (if t_held t then assoc_get uri (models w) else None) as [text|]; constructor;
    cbn [models markers pendingByModel nextId asked delivered post set_client set_editor]; try done.
  - intros u i. rewrite map_set_get. case_decide; [intros [= <-]; lia|]. intros Hi%H2. lia.
  - intros u i r. rewrite map_set_get. case_decide as Eu.
    + intros [= <-] [Hr| ->%list_elem_of_singleton]%elem_of_app Hid; [apply Hf in Hr; lia|]. subst u. split; [done|]. split; [done|].
      intros Hd. apply (delivered_asked apart w _ Hw) in Hd. lia.
    + intros Hi [Hr| ->%list_elem_of_singleton]%elem_of_app Hid; [by apply H3|]. apply H2 in Hi. cbn in Hid. lia.
  - intros u i. rewrite map_set_get. case_decide; [intros [= <-]; lia|]. intros Hi%H2. lia.
  - intros u i r. rewrite map_set_get. case_decide as Eu; [|apply H3]. intros [= <-] Hr Hid. apply Hf in Hr. lia.
Qed.

Lemma deliver_markers apart p rest w :
  to_client w = p :: rest → flow apart w → markers_ok apart w → markers_ok apart (step Deliver w).
Proof.
  intros Hc Hw Hm. pose proof (delivered_fresh _ _ _ _ Hw Hc) as Hn. pose proof Hw as [_ _ _ _ Hreq _].
  destruct (Hreq p) as (r & Hr & Hrp); [rewrite Hc; by left|]. pose proof (replies_body _ _ _ Hrp) as Hb.
  destruct (replies_id _ _ _ _ _ _ _ _ Hrp) as [Hid Huri]. cbn [world_event]. rewrite Hc. destruct Hm as [H1 H2 H3].
  (* the request of the latest number is this one, or was answered before *)
  assert (∀ u i r', assoc_get u (pendingByModel w) = Some i → r' ∈ asked w → r_id r' = i → i = p_id p → r' = r ∧ r_uri r = u
    ∧ is_parse (r_type r) = false) as Hthis.
  { intros u i r' Hi Hr' Hid' Ei. assert (r' = r) as -> by (apply (asked_once _ _ _ _ Hw Hr' Hr); congruence).
    destruct (H3 u i r Hi Hr Hid') as (? & ? & _). done. }
  unfold on_reply. cbn [models pendingByModel pendingViews pendingDomains set_port].
  destruct (p_body p) as [ds|def ds|def ds] eqn:Eb.
  - destruct (assoc_get (p_uri p) (models w)) as [text|] eqn:Em; [case_decide as El|]; constructor;
      cbn [models markers pendingByModel nextId asked delivered set_editor set_port]; try done.
    + intros u Hu. rewrite map_set_get. case_decide; [by subst; rewrite Em in Hu|by apply H1].
    + intros u i r' Hi Hr' Hid'. destruct (H3 u i r' Hi Hr' Hid') as (Hu & Ht & Hd). split; [done|]. split; [done|].
      rewrite elem_of_app, list_elem_of_singleton, map_set_get. intros Hin. destruct (decide (u = p_uri p)) as [->|Hne].
      * right. rewrite El in Hi. injection Hi as <-. destruct (Hthis _ _ _ El Hr' Hid' eq_refl) as (-> & _). by exists p, ds.
      * destruct Hin as [Hin|Hin]; [by apply Hd|]. destruct (Hthis _ _ _ Hi Hr' Hid' Hin) as (-> & Hu' & _). exfalso. apply Hne.
        by rewrite Huri.
    + intros u i r' Hi Hr' Hid'. destruct (H3 u i r' Hi Hr' Hid') as (Hu & Ht & Hd). split; [done|]. split; [done|].
      rewrite elem_of_app, list_elem_of_singleton. intros [Hin|Hin]; [by apply Hd|]. exfalso. apply El.
      destruct (Hthis _ _ _ Hi Hr' Hid' Hin) as (-> & Hu' & _). rewrite Huri, Hu'. by rewrite Hi, Hin.
    + intros u i r' Hi Hr' Hid'. destruct (H3 u i r' Hi Hr' Hid') as (Hu & Ht & Hd). split; [done|]. split; [done|].
      rewrite elem_of_app, list_elem_of_singleton. intros [Hin|Hin]; [by apply Hd|]. left.
      destruct (Hthis _ _ _ Hi Hr' Hid' Hin) as (-> & Hu' & _). rewrite Huri, Hu' in Em. by rewrite (H1 _ Em).
  - case_decide; constructor; cbn [models markers pendingByModel nextId asked delivered set_client set_port]; try done;
      intros u i r' Hi Hr' Hid'; destruct (H3 u i r' Hi Hr' Hid') as (Hu & Ht & Hd); (split; [done|]; split; [done|]);
      rewrite elem_of_app, list_elem_of_singleton; (intros [Hin|Hin]; [by apply Hd|]);
      destruct (Hthis _ _ _ Hi Hr' Hid' Hin) as (-> & _ & Hpar); by destruct (r_type r).
  - case_decide; constructor; cbn [models markers pendingByModel nextId asked delivered set_client set_port]; try done;
      intros u i r' Hi Hr' Hid'; destruct (H3 u i r' Hi Hr' Hid') as (Hu & Ht & Hd); (split; [done|]; split; [done|]);
      rewrite elem_of_app, list_elem_of_singleton; (intros [Hin|Hin]; [by apply Hd|]);
      destruct (Hthis _ _ _ Hi Hr' Hid' Hin) as (-> & _ & Hpar); by destruct (r_type r).
Qed.

Lemma markers_event_ok apart w e : flow apart w → markers_ok apart w → markers_ok apart (step e w).
Proof.
  intros Hw Hm. pose proof Hm as [H1 H2 H3]. destruct e as [text uri|text uri|uri text|uri|uri kind|uri|uri| |n|n|].
  - by apply post_markers.
  - by apply post_markers.
  - constructor; cbn [world_event models markers pendingByModel nextId asked delivered set_editor]; try done.
    intros u. rewrite map_set_get. case_decide; [done|apply H1].
  - constructor; cbn [world_event models markers pendingByModel nextId asked delivered set_editor]; try done.
    + intros u. rewrite !map_delete_get. case_decide; [done|apply H1].
    + intros u i r Hi Hr Hid. destruct (H3 u i r Hi Hr Hid) as (Hu & Ht & Hd). split; [done|]. split; [done|].
      rewrite map_delete_get. case_decide; [by left|done].
  - eapply same_markers_ok; [|exact Hm]. by repeat split.
  - cbn [world_event]. unfold clearMarkers. destruct (assoc_get uri (models w)) as [text|] eqn:Em; [|done].
    constructor; cbn [models markers pendingByModel nextId asked delivered set_editor]; try done.
    + intros u Hu. rewrite map_set_get. case_decide; [by subst; rewrite Em in Hu|by apply H1].
    + intros u i r Hi Hr Hid. destruct (H3 u i r Hi Hr Hid) as (Hu & Ht & Hd). split; [done|]. split; [done|].
      rewrite map_set_get. case_decide; [by left|done].
  - cbn [world_event]. unfold debounce_fires. destruct (assoc_get _ _) as [t|]; [|done]. apply dispatch_markers.
    + eapply same_flow_ok; [|exact Hw]. by repeat split.
    + eapply same_markers_ok; [|exact Hm]. by repeat split.
  - cbn [world_event]. destruct (to_worker w); [done|]. eapply same_markers_ok; [|exact Hm]. by repeat split.
  - cbn [world_event]. destruct (updating (tasks w) !! n); [|done]. destruct (after_update _ _ _ _) as [t ps].
    eapply same_markers_ok; [|exact Hm]. by repeat split.
  - cbn [world_event]. destruct (building (tasks w) !! n); [|done]. eapply same_markers_ok; [|exact Hm]. by repeat split.
  - destruct (to_client w) as [|p rest] eqn:E; [cbn [world_event]; by rewrite E|]. by apply (deliver_markers _ p rest).
Qed.

#[local] Abbreviation reached := (reaches parse_uri view_service domain_service event_service duplicate).

Lemma reaches_clients apart w : reached apart w → promises_ok apart w ∧ markers_ok apart w.
Proof.
  induction 1 as [|w e Hr [Hp Hm] _].
  - split; constructor; cbn; try done; try (intros i; split; [by intros Hi%elem_of_nil|by intros (r & Hr%elem_of_nil & _)]);
      try (intros i b Hi; by apply elem_of_nil in Hi); try (intros r Hr; by apply elem_of_nil in Hr). apply NoDup_nil. exact I.
  - apply reaches_flow in Hr. split; [by apply promises_event_ok|by apply markers_event_ok].
Qed.

(** Any events at all. *)
Lemma any_run es w : reached false w → reached false (foldl (λ w e, step e w) w es).
Proof.
  revert w. induction es as [|e es IH]; intros w Hw; [done|]. apply IH. apply reaches_event; [done|].
  destruct e; try done. cbn [admits]. by destruct (to_worker w).
Qed.

(** C35: whatever the order of calls, timers, tasks and messages, every request is in exactly one place, every
    promise is resolved at most once and with the reply to its own request, which is the answer to its text or, if the
    worker interleaves requests on one document, a failure; when nothing is under way no promise is left, and a
    model shows no markers or those of its latest request. *)
Theorem parses_answered apart w :
  reached apart w →
  (NoDup (r_id <$> asked w) ∧ r_id <$> asked w ≡ₚ in_flight w ++ delivered w)
  ∧ (NoDup (resolved w).*1 ∧ ∀ i b, (i, b) ∈ resolved w →
       ∃ r p, r ∈ asked w ∧ r_id r = i ∧ is_parse (r_type r) = true ∧ answers apart r p ∧ b = p_body p)
  ∧ (in_flight w = [] →
     pendingViews w = [] ∧ pendingDomains w = [] ∧ (∀ r, r ∈ asked w → is_parse (r_type r) = true → r_id r ∈ (resolved w).*1)
     ∧ ∀ uri i r, assoc_get uri (pendingByModel w) = Some i → r ∈ asked w → r_id r = i →
         default [] (assoc_get uri (markers w)) = []
         ∨ ∃ p ds, answers apart r p ∧ p_body p = DiagnosticsBody ds ∧ assoc_get uri (markers w) = Some (toMarker <$> ds)).
Proof.
  intros Hr. destruct (reaches_clients _ _ Hr) as [[H1 H2 H3 H4 H5] [_ _ M3]]. apply reaches_flow in Hr as [_ F2 F3 _ _ _].
  split; [done|]. split; [split; [done|]|].
  - intros i b Hin. destruct (H3 i b Hin) as (r & p & ? & ? & ? & ? & ? & _). by exists r, p.
  - intros Hf. rewrite Hf in F3. cbn [app] in F3.
    assert (∀ r, r ∈ asked w → r_id r ∈ delivered w) as Hall
      by (intros r Hr; rewrite <- F3; apply list_elem_of_fmap; by exists r).
    repeat split.
    + destruct (pendingViews w) as [|i l]; [done|]. destruct (proj1 (H1 i)) as (r & Hr & _ & <- & Hn); [by left|]. by apply Hall in Hr.
    + destruct (pendingDomains w) as [|i l]; [done|]. destruct (proj1 (H2 i)) as (r & Hr & _ & <- & Hn); [by left|]. by apply Hall in Hr.
    + intros r Hr Ht. apply H5; [done..|by apply Hall].
    + intros uri i r Hi Hr Hid. destruct (M3 uri i r Hi Hr Hid) as (_ & _ & Hd). apply Hd. rewrite <- Hid. by apply Hall.
Qed.
End promises.

(** * Cases *)

(** Langium as a table: a text is in order, or is not. *)
Definition complaint : LspDiagnostic := MkLsp (Some 1%N) (MkPosition 2 4) (MkPosition 2 7) #"unexpected" None.
Definition toy_diagnostics (s : str) : list LspDiagnostic := if decide (s = #"bad") then [complaint] else [].
Definition toy_uri (s : str) : Uri := MkUri #"inmemory" s.
Definition play (es : list Event) : World :=
  foldl (λ w e, world_event toy_uri (λ s, (None, toy_diagnostics s)) (λ s, (None, toy_diagnostics s)) toy_diagnostics
                  (λ u, #"duplicate") e w) initial_world es.
Definition check_of (uri text : str) : list Event := [SetText uri text; CallValidateModel uri KindView; TimerFires uri].
Definition turn_of_worker : list Event := [Receive; Resume 0; Built 0; Deliver].

Definition two_checks : World :=
  play ([CallParseView #"bad" #"p"] ++ check_of #"m" #"bad" ++ turn_of_worker ++ turn_of_worker).
Example parses_answered_witness :
  NoDup (resolved two_checks).*1 ∧ pendingViews two_checks = [] ∧ 1 ∈ (resolved two_checks).*1.
Proof.
  assert (reaches toy_uri (λ s, (None, toy_diagnostics s)) (λ s, (None, toy_diagnostics s)) toy_diagnostics (λ u, #"duplicate") false
            two_checks) as Hr by (unfold two_checks, play; apply any_run, reaches_initial).
  destruct (parses_answered _ _ _ _ _ _ _ Hr) as (_ & [H _] & H'). destruct H' as (H1 & _ & H2 & _); [by vm_compute|].
  split; [exact H|]. split; [exact H1|]. apply (H2 (MkRequest 1 ParseView #"p" #"bad")); [by left|done].
Defined.

(** The red squiggles come and go with the text. *)
Example squiggles :
  assoc_get #"m" (markers two_checks) = Some [toMarker complaint]
  ∧ assoc_get #"m" (markers (play (check_of #"m" #"bad" ++ turn_of_worker ++ check_of #"m" #"good" ++ turn_of_worker))) = Some [].
Proof. split; by vm_compute. Qed.

(** A late reply: the markers of the last buffer come back onto the next, although they
    were cleared for it, until the next check is through. *)
Example late_squiggles :
  let w := play (check_of #"m" #"bad" ++ [SetText #"m" #"good"; CallClearMarkers #"m"; CallValidateModel #"m" KindView] ++ turn_of_worker) in
  assoc_get #"m" (models w) = Some #"good" ∧ assoc_get #"m" (markers w) = Some [toMarker complaint].
Proof. split; by vm_compute. Qed.

(** The timer of a model that was disposed of asks for nothing, even if there is another model of its name. *)
Example model_gone :
  (λ es, length (asked (play es))) <$>
    [ check_of #"m" #"bad"; [SetText #"m" #"bad"; CallValidateModel #"m" KindView; Dispose #"m"; SetText #"m" #"bad"; TimerFires #"m"] ] = [1; 0].
Proof. by vm_compute. Qed.

(** Two loads of one view, where the worker lets the second in while it drops the document of an
    earlier one: the first fails. *)
Example overlapping_parses :
  resolved (play ([CallParseView #"v" #"p"] ++ turn_of_worker ++
                  [CallParseView #"v" #"p"; CallParseView #"v" #"p"; Receive; Receive; Resume 0; Deliver]))
  = [(1, ViewBody None []); (2, ViewBody None [synthetic #"duplicate"])].
Proof. by vm_compute. Qed.
