(* ===== verification/Widgets.v ===== *)
(** The bound widgets of a view, [packages/oos-ui-ts/src/components/widgets.tsx]
    with [format.ts]: what each widget shows of the text its field holds, and the
    text an input puts there.  [input_shown] is the round trip through the view
    state, for the inputs that have one ([input_ok]).  Dates and numbers for readers are the platform's: what [new Date]
    and the [Intl] formatters answer are parameters. *)

From S2P Require Export ViewState.

#[local] Set Warnings "-register-all".

(** * [Number(s)]

    The decimal a literal denotes; its rounding to a double is not modelled. *)

Fixpoint radix_value (base : N) (acc : N) (s : str) : option N :=
  match s with
  | [] => Some acc
  | c :: s =>
    d ← hex_value c;
    if (d <? base)%N then radix_value base (acc * base + d) s else None
  end.
Definition radix_number (base : N) (s : str) : jsnum :=
  match s with
  | [] => NaN
  | _ => match radix_value base 0 s with Some n => Dec (Z.of_N n) 0 | None => NaN end
  end.

(** The rest of a literal behind its digits: nothing, or an exponent. *)
Definition exact_exponent (s : str) : option Z :=
  match s with
  | [] => Some 0%Z
  | (101%N | 69%N) :: r =>
    let '(neg, r) := match r with 45%N :: r' => (true, r') | 43%N :: r' => (false, r') | _ => (false, r) end in
    if all_digits r then let z := Z.of_N (digits_value r) in Some (if neg : bool then - z else z)%Z else None
  | _ => None
  end.

Definition decimal_number (neg : bool) (s : str) : jsnum :=
  if bool_decide (s = #"Infinity") then Infinite neg
  else
    let whole := digit_prefix s in
    let '(frac, rest) := parse_fraction (drop (digits_count s) s) in
    if bool_decide (whole ++ frac = []) then NaN
    else
      match exact_exponent rest with
      | None => NaN
      | Some e => let m := Z.of_N (digits_value (whole ++ frac)) in Dec (if neg then - m else m) (e - Z.of_nat (length frac))
      end.

Definition str_number (s : str) : jsnum :=
  match trim s with
  | [] => Dec 0 0
  | 48%N :: (120%N | 88%N) :: d => radix_number 16 d
  | 48%N :: (111%N | 79%N) :: d => radix_number 8 d
  | 48%N :: (98%N | 66%N) :: d => radix_number 2 d
  | 45%N :: s => decimal_number true s
  | 43%N :: s => decimal_number false s
  | s => decimal_number false s
  end.

Inductive NumberStyle := DecimalStyle | PercentStyle | CurrencyStyle (code : str).

Section platform.
(** What [new Date(s)] is, [None] if it is not a date; the formatters, [None] where
    they throw (a digit count out of range, an unknown currency). *)
Context {D : Type} (parse_date : str → option D).
Context (format_number : str → NumberStyle → option jsnum → jsnum → option str).
Context (format_date : str → option DateStyle → option DateStyle → D → option str).
Context (default_locale : str).

(** * [format.ts] *)

Definition mapDateStyle (detail : option FormatDetail) : DateStyle :=
  match detail with Some (DetailStyle s) => s | _ => Medium end.

Definition digits_of (detail : option FormatDetail) : option jsnum :=
  match detail with Some (DetailNumber n) => Some n | _ => None end.

Definition finite_or (raw : str) (f : jsnum → option str) : option str :=
  let n := str_number raw in if is_finite n then f n else Some raw.

Definition formatValue (raw : str) (format : option FormatDef) (locale currency : option str) : option str :=
  match format with
  | None => Some raw
  | Some f =>
    if decide (raw = []) then Some raw
    else
      let locale := default default_locale locale in
      let currency := default #"EUR" currency in
      let style := Some (mapDateStyle (fmt_detail f)) in
      match fmt_kind f with
      | FmtCurrency => finite_or raw (format_number locale (CurrencyStyle currency) None)
      | FmtNumber => finite_or raw (format_number locale DecimalStyle (digits_of (fmt_detail f)))
      | FmtPercent => finite_or raw (format_number locale PercentStyle (digits_of (fmt_detail f)))
      | FmtDatetime => match parse_date raw with Some d => format_date locale style style d | None => Some raw end
      | FmtDate => match parse_date raw with Some d => format_date locale style None d | None => Some raw end
      | FmtTime => match parse_date raw with Some d => format_date locale None style d | None => Some raw end
      end
  end.

(** * [widgets.tsx] *)

(** What a widget puts into its Mantine component. *)
Inductive Shown :=
| ShowText (s : str)
| ShowNumber (n : option jsnum)                     (** [None]: the empty field *)
| ShowSlider (n : jsnum)
| ShowRange (lo hi : jsnum)
| ShowDate (d : option D)
| ShowDates (from to : option D)
| ShowChoice (options : list OptionEntry) (v : option str)
| ShowChoices (options : list OptionEntry) (l : list str)
| ShowRadio (options : list OptionEntry) (v : str)
| ShowChecked (b : bool)
| ShowTags (l : list str)
| ShowBadge (s : option str)                          (** [None]: the render throws *)
| ShowAvatar (src : option str) (initials : str)
| ShowFile.                                         (** the component keeps its own value *)

(** What the number field hands to its [onChange]: a number, or its text (the empty
    one, or one that is no number yet or is too long for one). *)
Inductive Entered := AsNumber (n : jsnum) | AsText (s : str).
(** The empty text stays empty, everything else is put through [String]. *)
Definition entered_text (v : Entered) : str := match v with AsNumber n => num_to_string n | AsText s => s end.

(** What a component hands to its [onChange]. *)
Inductive Input :=
| Typed (s : str)
| Entry (v : Entered)
| Slid (n : jsnum)
| Ranged (lo hi : jsnum)
| PickedDate (v : option str)
| PickedDates (f t : option str)
| Picked (v : option str)
| PickedMany (l : list str)
| Checked (b : bool)
| PickedFile (name : option str)
| Tagged (l : list str).

Definition path (def : WidgetDef) : str := ref_domain (widget_bind def) ++ #"." ++ ref_field (widget_bind def).
Definition comma : N := 44.

Definition finite_or_zero (n : jsnum) : jsnum := if is_finite n then n else Dec 0 0.
(** [w[0]?.toUpperCase() ?? ""] *)
Definition word_initial (w : str) : str := match w with c :: _ => to_upper1 c | [] => [] end.
Definition initials_of (value : str) : str := concat (take 2 (word_initial <$> split_on 32%N value)).

Definition optional_date (s : option str) : option D :=
  match s with Some ((_ :: _) as s) => parse_date s | _ => None end.

(** The options of the field's list on the domain in scope. *)
Definition options_of (domain : option DomainDef) (def : WidgetDef) (st : ViewState) : list OptionEntry :=
  getOptions (default [] (useFieldOptionsKey domain (ref_field (widget_bind def)))) st.

Definition number_field (value : str) : option jsnum := if decide (value = []) then None else Some (str_number value).
Definition slider_at (def : WidgetDef) (value : str) : jsnum :=
  finite_or_zero (if decide (value = []) then default (Dec 0 0) (widget_min def) else str_number value).
Definition range_at (def : WidgetDef) (value : str) : jsnum * jsnum :=
  let fallback := (default (Dec 0 0) (widget_min def), default (Dec 100 0) (widget_max def)) in
  match str_number <$> split_on comma value with
  | [lo; hi] => if is_finite lo && is_finite hi then (lo, hi) else fallback
  | _ => fallback
  end.
Definition score_of (value : str) : jsnum := finite_or_zero (if decide (value = []) then Dec 0 0 else str_number value).
Definition chosen (value : str) : list str := if decide (value = []) then [] else split_on comma value.
Definition tags_of (value : str) : list str := if decide (value = []) then [] else trim <$> split_on comma value.
Definition date_range (value : str) : option D * option D :=
  let l := split_on comma value in (optional_date (l !! 0), optional_date (l !! 1)).

Definition shown (def : WidgetDef) (options : list OptionEntry) (value : str) : Shown :=
  match widget def with
  | WText | WEmail | WPassword | WTextarea | WJson | WTime | WColor => ShowText value
  | WNumber => ShowNumber (number_field value)
  | WSlider => ShowSlider (slider_at def value)
  | WRangeslider => let '(lo, hi) := range_at def value in ShowRange lo hi
  | WRating | WProgress => ShowSlider (score_of value)
  | WDate => ShowDate (optional_date (Some value))
  | WDaterange => let '(from, to) := date_range value in ShowDates from to
  | WSelect | WCombobox => ShowChoice options (if decide (value = []) then None else Some value)
  | WMultiselect => ShowChoices options (chosen value)
  | WRadio => ShowRadio options value
  | WCheck | WSwitch => ShowChecked (bool_decide (value = #"true"))
  | WFile => ShowFile
  | WTags => ShowTags (tags_of value)
  | WBadge =>
    ShowBadge (match formatValue value (widget_format def) None None with Some [] => Some #"—" | s => s end)
  | WAvatar =>
    if starts_with #"http" value || starts_with #"/" value then ShowAvatar (Some value) []
    else ShowAvatar None (match initials_of value with [] => #"?" | s => s end)
  end.

(** The argument of [setValue], for an input the widget's component makes. *)
Definition written (def : WidgetDef) (i : Input) : option str :=
  if widget_readOnly def then None
  else
    match widget def, i with
    | (WText | WEmail | WPassword | WTextarea | WJson | WTime | WColor | WRadio), Typed s => Some s
    | WNumber, Entry v => Some (entered_text v)
    | (WSlider | WRating), Slid n => Some (num_to_string n)
    | WRangeslider, Ranged lo hi => Some (num_to_string lo ++ [comma] ++ num_to_string hi)
    | WDate, PickedDate v => Some (default [] v)
    | WDaterange, PickedDates f t => Some (default [] f ++ [comma] ++ default [] t)
    | (WSelect | WCombobox), Picked v => Some (default [] v)
    | WMultiselect, PickedMany l => Some (join [comma] l)
    | (WCheck | WSwitch), Checked b => Some (if b then #"true" else #"false")
    | WFile, PickedFile name => Some (default [] name)
    | WTags, Tagged l => Some (join [comma] l)
    | _, _ => None
    end.

(** [BoundWidget] over the view state, and an input to it. *)
Definition render (domain : option DomainDef) (def : WidgetDef) (st : ViewState) : Shown :=
  shown def (options_of domain def st) (get (path def) st).
Definition input (def : WidgetDef) (i : Input) (st : ViewState) : ViewState :=
  match written def i with Some v => set (path def) v st | None => st end.

(** * The round trip *)

(** What a component shows that holds the input itself. *)
Definition display (def : WidgetDef) (options : list OptionEntry) (i : Input) : Shown :=
  match i with
  | Typed s => match widget def with WRadio => ShowRadio options s | _ => ShowText s end
  | Entry (AsNumber n) => ShowNumber (Some n)
  | Entry (AsText s) => ShowNumber (number_field s)
  | Slid n => ShowSlider n
  | Ranged lo hi => ShowRange lo hi
  | PickedDate v => ShowDate (optional_date v)
  | PickedDates f t => ShowDates (optional_date f) (optional_date t)
  | Picked v => ShowChoice options v
  | PickedMany l => ShowChoices options l
  | Checked b => ShowChecked b
  | PickedFile _ => ShowFile
  | Tagged l => ShowTags l
  end.

(** The inputs a field can hold: a single choice is not the empty text, the members of
    a list have no comma in them and are not one empty text, tags have no white space around them either,
    the ends of a range of dates have no comma, and numbers print without an exponent. *)
Definition list_ok (l : list str) : Prop := Forall (λ s, comma ∉ s) l ∧ l ≠ [ [] ].
Definition input_ok (i : Input) : Prop :=
  match i with
  | Entry (AsNumber n) | Slid n => num_plain n = true
  | Ranged lo hi => num_plain lo = true ∧ num_plain hi = true
  | PickedDates f t => (comma ∉ default [] f) ∧ (comma ∉ default [] t)
  | Picked v => v ≠ Some []
  | PickedMany l => list_ok l
  | Tagged l => list_ok l ∧ Forall space_free_ends l
  | _ => True
  end.
(** Choices and tags. *)
Definition is_choice (i : Input) : bool := match i with Picked _ | PickedMany _ | Tagged _ => true | _ => false end.
End platform.

(** ** Numbers *)

Lemma decimal_number_reads neg w frac :
  whole_part w → forallb is_digit frac = true →
  decimal_number neg (w ++ fraction_text frac)
  = Dec (let m := Z.of_N (digits_value (w ++ frac)) in if neg then - m else m) (- Z.of_nat (length frac)).
Proof.
  intros [Hd Hw] Hf. unfold decimal_number.
  assert (w ≠ []) as Hne by (intros ->; by destruct Hw as [|(? & ? & ? & _)]).
  rewrite bool_decide_eq_false_2.
  2:{ intros E. destruct w as [|c w]; [done|]. apply (f_equal head) in E. cbn in E. injection E as ->. by cbn in Hd. }
  assert (no_digit_head (fraction_text frac)) as Hr by by destruct frac.
  destruct (digit_prefix_app w (fraction_text frac) Hd Hr) as [-> ->].
  assert (parse_fraction (fraction_text frac) = (frac, [])) as ->.
  { destruct frac as [|c frac]; [done|]. unfold fraction_text, parse_fraction.
    destruct (digit_prefix_app (c :: frac) [] Hf I) as [E1 E2]. rewrite app_nil_r in E1, E2. by rewrite E1, E2. }
  rewrite bool_decide_eq_false_2; [|intros E%app_nil_iff; by destruct E]. cbn [exact_exponent]. f_equal.
Qed.

Lemma digit_unit c : is_digit c = true → c ∈ [48; 49; 50; 51; 52; 53; 54; 55; 56; 57]%N.
Proof. unfold is_digit. intros [H1 H2]%andb_true_iff. apply N.leb_le in H1, H2. rewrite !elem_of_cons. lia. Qed.

Lemma digits_spaceless s : forallb is_digit s = true → Forall (λ c, is_space c = false) s.
Proof.
  intros H. apply Forall_forall. intros c Hc%list_elem_of_In. rewrite forallb_forall in H. apply H, digit_unit in Hc.
  elem_cases; subst; done.
Qed.

Lemma spaceless_ends s : Forall (λ c, is_space c = false) s → space_free_ends s.
Proof.
  intros H. rewrite Forall_forall in H. split; intros c Hc; apply H; [|by apply last_Some_elem_of].
  destruct s; [done|]. injection Hc as ->. by left.
Qed.

Lemma str_number_plain n : num_plain n = true → str_number (num_to_string n) = n.
Proof.
  intros Hn. destruct (num_plain_parts n Hn) as (neg & w & frac & -> & Hw & Hf & En). pose proof Hw as [Hd Hw'].
  unfold str_number. rewrite trim_id.
  2:{ apply spaceless_ends, Forall_app. split; [by destruct neg; repeat constructor|]. apply Forall_app.
      split; [by apply digits_spaceless|]. destruct frac as [|c frac]; [done|]. constructor; [done|]. by apply digits_spaceless. }
  rewrite En, <- decimal_number_reads by done. destruct neg; [done|]. cbn [app]. destruct Hw' as [->|(c & s & -> & Hc)].
  - by destruct frac.
  - cbn [forallb] in Hd. apply andb_true_iff in Hd as [Hdc _]. apply digit_unit in Hdc. elem_cases; subst; done.
Qed.

Lemma num_text_nonempty n : num_plain n = true → num_to_string n ≠ [].
Proof. intros (a & s & -> & _)%num_plain_head. done. Qed.
Lemma num_plain_finite n : num_plain n = true → is_finite n = true.
Proof. by destruct n. Qed.
Lemma num_text_comma n : num_plain n = true → comma ∉ num_to_string n.
Proof.
  intros Hn. destruct (num_plain_parts n Hn) as (neg & w & frac & -> & [Hd _] & Hf & _).
  assert (∀ s, forallb is_digit s = true → comma ∉ s) as Hs.
  { intros s Hs Hin%list_elem_of_In. rewrite forallb_forall in Hs. by apply Hs in Hin. }
  rewrite !elem_of_app. intros [Hin|[Hin|Hin]]; [|by apply Hs in Hin|].
  - destruct neg; [|by apply elem_of_nil in Hin]. change (#"-") with [45%N] in Hin. by apply list_elem_of_singleton in Hin.
  - destruct frac as [|c frac]; [by apply elem_of_nil in Hin|]. apply elem_of_cons in Hin as [Hin|Hin]; [done|by apply Hs in Hin].
Qed.

(** ** Lists *)

Lemma split_on_pieces c s : Forall (λ p, c ∉ p) (split_on c s).
Proof.
  induction s as [|a s IH]; [by repeat constructor; intros ?%elem_of_nil|]. cbn [split_on].
  destruct (N.eqb_spec a c) as [->|Hne]; [constructor; [by intros ?%elem_of_nil|done]|].
  assert (∀ p, c ∉ p → c ∉ a :: p) as Hcons by (intros p Hp [E|H]%elem_of_cons; [by subst|done]).
  destruct IH as [|p ps Hp Hps]; constructor; [apply Hcons; by intros ?%elem_of_nil|apply Forall_nil; exact I|by apply Hcons|exact Hps].
Qed.

(** The list a field holds reads as the one that was put there, exactly if its
    members have no comma and it is not one empty text. *)
Lemma list_reads l : chosen (join [comma] l) = l ↔ list_ok l.
Proof.
  unfold chosen, list_ok. split.
  - case_decide as E; [intros <-; by split|]. intros <-. split; [apply split_on_pieces|]. intros El.
    rewrite <- (join_split_on comma (join [comma] l)), El in E. done.
  - intros [Hl Hne]. destruct l as [|s [|s' l]]; [done| |].
    + cbn [join]. case_decide as E; [by subst|]. apply split_on_none. by apply Forall_cons in Hl as [? _].
    + rewrite decide_False; [by apply split_on_join|]. rewrite join_cons by done. intros [_ E]%app_nil_iff. done.
Qed.

Lemma trimmed_comma s : comma ∉ s → comma ∉ trim s.
Proof. destruct (trim_part s) as (k1 & k2 & E). intros Hs Ht. apply Hs. rewrite E, !elem_of_app. auto. Qed.

Lemma two_parts a b : comma ∉ a → comma ∉ b → split_on comma (a ++ comma :: b) = [a; b].
Proof. intros Ha Hb. apply (split_on_join comma [a; b]); [done|by repeat constructor]. Qed.

Lemma trim_all l : Forall space_free_ends l → trim <$> l = l.
Proof. induction 1 as [|s l Hs _ IH]; [done|]. rewrite fmap_cons, IH. by rewrite trim_id. Qed.

(** Tags come back exactly if there is no white space around them either. *)
Lemma tags_read l : tags_of (join [comma] l) = l ↔ list_ok l ∧ Forall space_free_ends l.
Proof.
  unfold tags_of. split.
  - case_decide as E; [intros <-; repeat split; [|done|]; apply Forall_nil; exact I|]. intros El. split; [split|].
    + rewrite <- El. apply Forall_fmap. eapply Forall_impl; [apply split_on_pieces|]. intros s. apply trimmed_comma.
    + intros E1. by rewrite E1 in E.
    + rewrite <- El. apply Forall_fmap, Forall_true. intros s. apply trim_ends.
  - intros [Hl Hs]. apply list_reads in Hl. unfold chosen in Hl. case_decide; [done|]. rewrite Hl. by apply trim_all.
Qed.

Lemma set_options p v st key : getOptions key (set p v st) = getOptions key st.
Proof. unfold getOptions, set. by case_decide. Qed.

Section laws.
Context {D : Type} (parse_date : str → option D).
Context (format_number : str → NumberStyle → option jsnum → jsnum → option str).
Context (format_date : str → option DateStyle → option DateStyle → D → option str).
Context (default_locale : str).
#[local] Abbreviation looks := (shown parse_date format_number format_date default_locale).
#[local] Abbreviation widget_of := (render parse_date format_number format_date default_locale).
#[local] Abbreviation holds := (display parse_date).

Lemma shown_written def options i v :
  written def i = Some v → input_ok i → looks def options v = holds def options i.
Proof.
  unfold written, shown, display, number_field, slider_at, range_at, score_of, chosen, tags_of, date_range. destruct (widget_readOnly def); [done|].
  destruct (widget def) eqn:Ew, i as [s|[n|s]|n|lo hi|d|f t|o|l|b|o|l]; intros [= <-] Hi; try done; cbn [input_ok] in Hi.
  - rewrite decide_False by by apply num_text_nonempty. by rewrite str_number_plain.
  - by destruct d as [[|c d]|].
  - destruct Hi as [Hf Ht]. cbn [app]. rewrite two_parts by done. by destruct f as [[|]|], t as [[|]|].
  - destruct o as [[|c o]|]; [done| |done]. by rewrite decide_False.
  - apply list_reads in Hi. unfold chosen in Hi. by rewrite Hi.
  - destruct o as [[|c o]|]; [done| |done]. by rewrite decide_False.
  - by destruct b.
  - by destruct b.
  - rewrite decide_False by by apply num_text_nonempty. unfold finite_or_zero. by rewrite str_number_plain, num_plain_finite.
  - destruct Hi as [Hlo Hhi]. cbn [app]. rewrite two_parts by by apply num_text_comma. rewrite !fmap_cons, fmap_nil.
    by rewrite !str_number_plain, !num_plain_finite.
  - rewrite decide_False by by apply num_text_nonempty. unfold finite_or_zero. by rewrite str_number_plain, num_plain_finite.
  - apply tags_read in Hi. unfold tags_of in Hi. by rewrite Hi.
Qed.

(** For choices and tags the provisos are needed. *)
Lemma shown_choice def options i v :
  is_choice i = true → written def i = Some v → looks def options v = holds def options i → input_ok i.
Proof.
  unfold written, shown, display. destruct (widget_readOnly def); [done|].
  destruct (widget def) eqn:Ew, i as [s|n|n|lo hi|d|f t|o|l|b|o|l]; intros [=] [= <-] [= E]; cbn [input_ok].
  all: first [by apply list_reads | by apply tags_read | intros ->; by cbn in E].
Qed.

(** C33: What is put into a widget that is not read-only is shown by it, under the provisos of [input_ok]: a single choice is not the empty
    text; the members of a list of choices or tags have no comma in them and are not one empty text; tags have no white space around
    them; the ends of a range of dates have no comma; a number prints without an exponent.  For choices and tags the provisos are exact.
    A text the number field hands over is stored as it is and shown as the number it denotes.  No widget on another path changes. *)
Theorem input_shown domain def i v st :
  written def i = Some v →
  (input_ok i → widget_of domain def (input def i st) = holds def (options_of domain def st) i)
  ∧ (is_choice i = true → widget_of domain def (input def i st) = holds def (options_of domain def st) i → input_ok i)
  ∧ (∀ s, i = Entry (AsText s) →
       get (path def) (input def i st) = s ∧ widget_of domain def (input def i st) = ShowNumber (number_field s))
  ∧ (∀ domain' def', path def' ≠ path def → widget_of domain' def' (input def i st) = widget_of domain' def' st).
Proof.
  intros Hv. unfold render, input. rewrite Hv. unfold options_of. rewrite set_options, set_get, decide_True by done. split_and!.
  - by apply shown_written.
  - intros Hc. by apply shown_choice.
  - intros s ->. assert (v = s) as ->; [|by split; [|apply (shown_written def _ _ _ Hv)]].
    unfold written in Hv. destruct (widget_readOnly def); [done|]. destruct (widget def); try discriminate Hv. by injection Hv as <-.
  - intros domain' def' Hp. rewrite set_options, set_get. by rewrite decide_False.
Qed.
End laws.

(** * Cases *)

Definition widget_at (k : WidgetKindDef) (field : str) : WidgetDef :=
  MkWidgetDef k None (MkFieldRefDef #"note" field) false false false None None None None None [].
Definition showing (k : WidgetKindDef) (value : str) : Shown :=
  shown (λ s : str, Some s) (λ _ _ _ _, None) (λ _ _ _ s, Some s) #"de-DE" (widget_at k #"f") [] value.

Example input_shown_witness :
  render (λ s : str, Some s) (λ _ _ _ _, None) (λ _ _ _ s, Some s) #"de-DE" None (widget_at WTags #"f")
    (input (widget_at WTags #"f") (Tagged [ #"red"; #"dark blue"]) newViewState)
  = ShowTags [ #"red"; #"dark blue"].
Proof.
  assert (written (widget_at WTags #"f") (Tagged [ #"red"; #"dark blue"]) = Some #"red,dark blue") as H by by vm_compute.
  apply (input_shown (λ s : str, Some s) (λ _ _ _ _, None) (λ _ _ _ s, Some s) #"de-DE" None (widget_at WTags #"f")
           (Tagged [ #"red"; #"dark blue"]) _ newViewState H).
  split; [apply list_reads|]; vm_compute.
  - reflexivity.
  - repeat constructor; intros c [= <-]; reflexivity.
Defined.

(** A choice with a comma comes back as two. *)
Example choice_with_comma :
  (written (widget_at WMultiselect #"f") (PickedMany [ #"red, dark"; #"blue"]) = Some #"red, dark,blue")
  ∧ showing WMultiselect #"red, dark,blue" = ShowChoices [] [ #"red"; #" dark"; #"blue"].
Proof. split; by vm_compute. Qed.

(** A number with a decimal point and nothing behind it yet is stored as it was typed, and shown without the point; an empty
    choice is no choice; the white space around a tag goes. *)
Example provisos_needed :
  (written (widget_at WNumber #"f") (Entry (AsText #"1.")) = Some #"1." ∧ showing WNumber #"1." = ShowNumber (Some (Dec 1 0)))
  ∧ (written (widget_at WSelect #"f") (Picked (Some [])) = Some [] ∧ showing WSelect [] = ShowChoice [] None)
  ∧ (written (widget_at WTags #"f") (Tagged [ #" red "]) = Some #" red " ∧ showing WTags #" red " = ShowTags [ #"red"]).
Proof. repeat split; by vm_compute. Qed.

(** A number that is no number is shown as one by the number field, as zero by the slider. *)
Example no_number :
  showing WNumber #"12 kg" = ShowNumber (Some NaN) ∧ showing WSlider #"12 kg" = ShowSlider (Dec 0 0)
  ∧ showing WRangeslider #"5," = ShowRange (Dec 5 0) (Dec 0 0) ∧ showing WNumber #" 0x1F " = ShowNumber (Some (Dec 31 0)).
Proof. repeat split; by vm_compute. Qed.

(** Two spaces between two names hide the second initial; a path is a picture. *)
Example initials_lost :
  showing WAvatar #"ada lovelace" = ShowAvatar None #"AL" ∧ showing WAvatar #"ada  lovelace" = ShowAvatar None #"A"
  ∧ showing WAvatar #"httpd" = ShowAvatar (Some #"httpd") [].
Proof. repeat split; by vm_compute. Qed.

(** The file field never shows the name it holds. *)
Example file_unseen name : showing WFile name = ShowFile.
Proof. done. Qed.
