(* ===== verification/Translate.v ===== *)
(** The translation panel, apps/oos/src/mainview/components/TranslatePanel.tsx, as
    a transition system.  [translation_placed] says what the panes hold
    after a translation that is left alone, [late_translation] what happens when the sides
    are swapped meanwhile.  The model's tuning is passed through and left out. *)

From S2P Require Export JsString.

#[local] Set Warnings "-register-all".

Definition AUTO : str := #"auto".
Definition LANGS : list str := [ #"Deutsch"; #"English"; #"Français"; #"Español"; #"Italiano"; #"Português"].
Definition SOURCE_OPTIONS : list str := AUTO :: LANGS.

Record TranslateRequest := MkRequest { req_source : str; req_sourceLang : str; req_targetLang : str }.
(** What [translateTurn] answers; its rejection or that of [loadFinetuning] before it. *)
Inductive Answer := Translated (text : str) (error : option str) | Rejected (message : str).

Record Panel := MkPanel {
  source_pane : str; target_pane : str; sourceLang : str; targetLang : str; busy : bool; error : option str;
  requests : list TranslateRequest }.      (** asked for, the latest first; [busy] while one is out *)

Definition initial_panel : Panel := MkPanel [] [] #"Deutsch" #"English" false None [].

Definition translate (p : Panel) : Panel :=
  if bool_decide (trim (source_pane p) = []) || busy p then p
  else
    MkPanel (source_pane p) (target_pane p) (sourceLang p) (targetLang p) true None
      (MkRequest (source_pane p) (if decide (sourceLang p = AUTO) then [] else sourceLang p) (targetLang p) :: requests p).
Definition translated (r : Answer) (p : Panel) : Panel :=
  if busy p then
    match r with
    | Translated text (Some ((_ :: _) as e)) => MkPanel (source_pane p) (target_pane p) (sourceLang p) (targetLang p) false (Some e) (requests p)
    | Translated text _ => MkPanel (source_pane p) text (sourceLang p) (targetLang p) false (error p) (requests p)
    | Rejected m => MkPanel (source_pane p) (target_pane p) (sourceLang p) (targetLang p) false (Some m) (requests p)
    end
  else p.
Definition swap (p : Panel) : Panel :=
  if decide (sourceLang p = AUTO) then p
  else MkPanel (target_pane p) (source_pane p) (targetLang p) (sourceLang p) (busy p) (error p) (requests p).

Inductive Event :=
| TypeSource (s : str) | TypeTarget (s : str) | PickSource (l : str) | PickTarget (l : str)
| ClickTranslate | ClickSwap | Answered (r : Answer).

(** [v && setSourceLang(v)] *)
Definition picked (v old : str) : str := match v with [] => old | _ => v end.
Definition panel_event (e : Event) (p : Panel) : Panel :=
  match e with
  | TypeSource s => MkPanel s (target_pane p) (sourceLang p) (targetLang p) (busy p) (error p) (requests p)
  | TypeTarget s => MkPanel (source_pane p) s (sourceLang p) (targetLang p) (busy p) (error p) (requests p)
  | PickSource l => MkPanel (source_pane p) (target_pane p) (picked l (sourceLang p)) (targetLang p) (busy p) (error p) (requests p)
  | PickTarget l => MkPanel (source_pane p) (target_pane p) (sourceLang p) (picked l (targetLang p)) (busy p) (error p) (requests p)
  | ClickTranslate => translate p
  | ClickSwap => swap p
  | Answered r => translated r p
  end.
Definition run (es : list Event) (p : Panel) : Panel := foldl (λ p e, panel_event e p) p es.

(** * Laws *)

Lemma swap_twice p : sourceLang p ≠ AUTO → targetLang p ≠ AUTO → swap (swap p) = p.
Proof.
  intros Hs Ht. assert (∀ q, sourceLang q ≠ AUTO →
    swap q = MkPanel (target_pane q) (source_pane q) (targetLang q) (sourceLang q) (busy q) (error q) (requests q)) as E
    by (intros q Hq; unfold swap; by rewrite decide_False).
  rewrite (E p), E by done. by destruct p.
Qed.

(** The target language is one of the list, and so is the source unless it is left open. *)
Definition languages_ok (p : Panel) : Prop := sourceLang p ∈ SOURCE_OPTIONS ∧ targetLang p ∈ LANGS.
Definition offered (e : Event) : Prop :=
  match e with PickSource l => l ∈ SOURCE_OPTIONS | PickTarget l => l ∈ LANGS | _ => True end.

Lemma languages_event e p : offered e → languages_ok p → languages_ok (panel_event e p).
Proof.
  intros He [Hs Ht]. destruct e as [s|s|l|l| | |r]; cbn [panel_event].
  - by split.
  - by split.
  - split; [|done]. cbn [sourceLang]. by destruct l.
  - split; [done|]. cbn [targetLang]. by destruct l.
  - unfold translate. case_match; by split.
  - unfold swap. case_decide as E; [by split|]. split; cbn [sourceLang targetLang]; [by right|].
    by apply elem_of_cons in Hs as [Hs|Hs].
  - unfold translated. destruct (busy p); [|by split]. destruct r as [t [[|]|]|m]; by split.
Qed.

(** No request has an unknown language, an empty text, or is sent while another is out. *)
Definition request_ok (r : TranslateRequest) : Prop :=
  trim (req_source r) ≠ [] ∧ req_targetLang r ∈ LANGS ∧ (req_sourceLang r = [] ∨ req_sourceLang r ∈ LANGS).
Lemma requests_event e p : languages_ok p → Forall request_ok (requests p) → Forall request_ok (requests (panel_event e p)).
Proof.
  intros [Hs Ht] Hr. destruct e as [s|s|l|l| | |r]; cbn [panel_event]; try exact Hr.
  - unfold translate. destruct (bool_decide (trim (source_pane p) = [])) eqn:Et; [exact Hr|]. destruct (busy p); [exact Hr|]. cbn [orb requests].
    constructor; [|exact Hr]. apply bool_decide_eq_false in Et. split; [exact Et|]. split; [exact Ht|]. cbn [req_sourceLang].
    case_decide; [by left|right]. by apply elem_of_cons in Hs as [?|?].
  - unfold swap. case_decide; exact Hr.
  - unfold translated. destruct (busy p); [|exact Hr]. destruct r as [t [[|]|]|m]; exact Hr.
Qed.

(** From the first render on, with the languages the two lists offer: every request is in order, and one that is left
    alone puts its translation into the target pane and nothing else. *)
Lemma translation_placed es :
  Forall offered es →
  let p := run es initial_panel in
  Forall request_ok (requests p)
  ∧ ∀ text, busy p = false → trim (source_pane p) ≠ [] →
      run [ClickTranslate; Answered (Translated text None)] p
      = MkPanel (source_pane p) text (sourceLang p) (targetLang p) false None
          (MkRequest (source_pane p) (if decide (sourceLang p = AUTO) then [] else sourceLang p) (targetLang p) :: requests p).
Proof.
  intros He. cbv zeta. split.
  - assert (∀ p, languages_ok p → Forall request_ok (requests p) → Forall request_ok (requests (run es p))) as H.
    { induction He as [|e es Hoff _ IH]; intros p Hl Hr; [done|]. apply IH; [by apply languages_event|by apply requests_event]. }
    apply H; [|by apply Forall_nil]. split; decide_closed.
  - intros text Hb Ht. cbn [run foldl panel_event]. unfold translate. rewrite bool_decide_eq_false_2, Hb by done. done.
Qed.

(** * Cases *)

(** The sides are swapped while a translation is out: it replaces the text that was
    to be translated, in the pane of the other language. *)
Example late_translation :
  let p := run [TypeSource #"Guten Tag"; ClickTranslate; ClickSwap; Answered (Translated #"Good day" None)] initial_panel in
  (source_pane p, target_pane p, sourceLang p, targetLang p) = ([], #"Good day", #"English", #"Deutsch").
Proof. by vm_compute. Qed.
(** With the target also the source, the panel asks for a translation into the same language. *)
Example same_language :
  requests (run [TypeSource #"Hallo"; PickTarget #"Deutsch"; ClickTranslate] initial_panel) = [MkRequest #"Hallo" #"Deutsch" #"Deutsch"].
Proof. by vm_compute. Qed.
