(* ===== verification/Activity.v ===== *)
(** The activity tabs, apps/oos/src/mainview/components/ActivityListPanel.tsx,
    ActivityDetailPanel.tsx and PipelineStepTimeline.tsx: the rows and their search, the
    vital statistics of a turn, its steps, and the panel that loads a turn.

    [formatDuration] divides and rounds in binary floating point; the quotient is
    written out here as a 53-bit significand.  [duration_shown] says how far
    from the measured time the text is.  Times are whole milliseconds below 2^52, token
    counts whole numbers; the calendar date behind a week is the platform's, as in ChatHistory.v. *)

From S2P Require Export Stores.
From S2P Require Import ChatHistory.
From Stdlib Require Import ZifyBool.

#[local] Set Warnings "-register-all".

(** * Durations *)

(** The integer nearest to [n / d], the even one of two. *)
Definition half_even (n d : Z) : Z :=
  let q := (n / d)%Z in
  let r := (n mod d)%Z in
  if (2 * r <? d)%Z then q else if (d <? 2 * r)%Z then (q + 1)%Z else if Z.even q then q else (q + 1)%Z.
(** A double, [significand / 2^places]. *)
Record Double := MkDouble { significand : Z; places : Z }.
(** [a / b] for [0 <= a < b * 2^52] *)
Definition quotient (a b : Z) : Double :=
  let k := (52 + Z.log2 b - Z.log2 a)%Z in
  let k := if (a * 2 ^ k <? b * 2 ^ 52)%Z then (k + 1)%Z else k in
  MkDouble (half_even (a * 2 ^ k) b) k.

(** [Math.round(x)], and the integer of tenths [x.toFixed(1)] prints: of two that are as near, the larger. *)
Definition rounded (scale : Z) (x : Double) : Z := ((2 * scale * significand x + 2 ^ places x) / (2 * 2 ^ places x))%Z.
Definition math_round : Double → Z := rounded 1.
Definition show_tenths (n : Z) : str := show_Z (n / 10) ++ #"." ++ show_Z (n mod 10).
Definition toFixed1 (x : Double) : str := show_tenths (rounded 10 x).

(** [s.padStart(2, "0")] *)
Definition padStart2 (s : str) : str := repeat 48%N (2 - length s) ++ s.
Definition EM_DASH : str := #"—".

Definition formatDuration (ms : Z) : str :=
  if (ms <? 0)%Z then EM_DASH
  else if (ms <? 1000)%Z then show_Z ms ++ #"ms"
  else if (ms <? 10000)%Z then toFixed1 (quotient ms 1000) ++ #"s"
  else if (ms <? 60000)%Z then show_Z (math_round (quotient ms 1000)) ++ #"s"
  else
    let min := (ms / 60000)%Z in
    let sec := math_round (quotient (ms mod 60000) 1000) in
    show_Z min ++ #"m" ++ padStart2 (show_Z sec) ++ #"s".

(** * Turns *)

Inductive TurnStatus := SSuccess | SError | SCancelled | SStepLimit.
Record TokenUsage := MkTokens { prompt : Z; completion : Z; total : Z }.
Record ToolCall := MkCall { call_name : str; call_ok : bool; call_durationMs : Z }.
Record ShownTurn := MkShownTurn {
  id : str; chatId : option str; createdAt : str; durationMs : Z; model : str; userText : str; viewHint : option str;
  finalText : str; status : TurnStatus; steps : Z; toolCalls : list ToolCall; usage : TokenUsage; errorMessage : option str }.

Record Badge := MkBadge { label : str; color : str; variant : str }.
Definition STATUS_CONFIG (s : TurnStatus) : Badge :=
  match s with
  | SSuccess => MkBadge #"OK" #"teal" #"light"
  | SError => MkBadge #"Fehler" #"red" #"filled"
  | SCancelled => MkBadge #"Abbruch" #"gray" #"light"
  | SStepLimit => MkBadge #"Step-Limit" #"yellow" #"filled"
  end.

(** ** The list *)

Definition filtered (query : str) (turns : list ShownTurn) : list ShownTurn :=
  let needle := to_lower (trim query) in
  if decide (needle = []) then turns else filter (λ t, includes needle (to_lower (userText t)) = true) turns.

(** [n || "—"] *)
Definition or_dash (n : Z) : str := if decide (n = 0%Z) then EM_DASH else show_Z n.

Section rows.
Context {D : Type} (parse_date : str → option D) (getTime : D → Z) (locale_date : D → str).
Definition formatRelative (now : Z) (iso : str) : str :=
  match parse_date iso with
  | None => iso
  | Some d =>
    let diffSec := round_div (now - getTime d) 1000 in
    if (diffSec <? 60)%Z then #"gerade eben"
    else if (diffSec <? 60 * 60)%Z then #"vor " ++ show_Z (round_div diffSec 60) ++ #" min"
    else if (diffSec <? 60 * 60 * 24)%Z then #"vor " ++ show_Z (round_div diffSec 3600) ++ #"h"
    else if (diffSec <? 60 * 60 * 24 * 2)%Z then #"gestern"
    else if (diffSec <? 60 * 60 * 24 * 7)%Z then #"vor " ++ show_Z (round_div diffSec (60 * 60 * 24)) ++ #"d"
    else locale_date d
  end.

(** The cells of [TurnRow], and the turn a click opens. *)
Record TurnCells := MkTurnCells { badge : Badge; cells : list str; opens : str }.
Definition turn_row (now : Z) (t : ShownTurn) : TurnCells :=
  MkTurnCells (STATUS_CONFIG (status t))
    [formatRelative now (createdAt t); model t; userText t; or_dash (total (usage t)); formatDuration (durationMs t);
     or_dash (Z.of_nat (length (toolCalls t)))]
    (id t).

Inductive ListBody := EmptyState | NoMatch | Rows (rows : list TurnCells).
Definition ActivityListPanel (now : Z) (query : str) (turns : list ShownTurn) (loaded : bool) : ListBody :=
  if loaded && bool_decide (turns = []) then EmptyState
  else match filtered query turns with [] => NoMatch | ts => Rows (turn_row now <$> ts) end.
End rows.

(** ** One turn *)

Definition formatUsage (t : ShownTurn) : str :=
  let u := usage t in
  if decide (total u = 0%Z) then EM_DASH
  else show_Z (prompt u) ++ #"+" ++ show_Z (completion u) ++ #" = " ++ show_Z (total u).
Definition shortId (i : str) : str := if length i <=? 16 then i else #"…" ++ drop (length i - 12) i.

(** [x && ...] of a string that may be missing. *)
Definition when_some (f : str → list (str * str)) (o : option str) : list (str * str) :=
  match o with Some ((_ :: _) as s) => f s | _ => [] end.
Definition VitalsRow (t : ShownTurn) : list (str * str) :=
  [ (#"Dauer", formatDuration (durationMs t)); (#"Steps", show_Z (steps t)); (#"Tokens", formatUsage t);
    (#"Tool-Calls", show_nat (length (toolCalls t)))]
  ++ when_some (λ h, [ (#"View-Hint", h)]) (viewHint t)
  ++ when_some (λ c, [ (#"Chat", shortId c)]) (chatId t).

(** The steps of a pipeline run. *)
Record RunStep := MkStep { stepIndex : Z; stepName : str; stepKind : str; chunks : list str; step_ms : Z; step_usage : TokenUsage }.

Definition KIND_COLOR : list (str * str) :=
  [ (#"where", #"blue"); (#"semantic", #"violet"); (#"duck", #"indigo"); (#"llm", #"teal")].
Definition KindBadge (kind : str) : str * str :=
  (default #"gray" ((λ e, e.2.2) <$> list_find (λ e, e.1 = kind) KIND_COLOR),
   match kind with [] => #"step" | _ => kind end).
Definition token_note (s : RunStep) : list str :=
  if (0 <? total (step_usage s))%Z then [show_Z (total (step_usage s)) ++ #" tok"] else [].
Definition StepHeader (s : RunStep) : list str :=
  [ #"#" ++ show_Z (stepIndex s + 1); (KindBadge (stepKind s)).2; stepName s; formatDuration (step_ms s)] ++ token_note s.
Definition chunk_label (n i : nat) : str :=
  if 1 <? n then #"Chunk " ++ show_nat (S i) ++ #" / " ++ show_nat n else #"Ausgabe".
Definition StepBody (s : RunStep) : list (str * str) :=
  imap (λ i c, (chunk_label (length (chunks s)) i, c)) (chunks s).

(** What stands under the messages. *)
Inductive Timeline := PipelineSteps (turnId : str) | ToolCalls (calls : list (str * bool * str)).
Definition timeline (t : ShownTurn) : Timeline :=
  if decide (viewHint t = Some #"pipeline_run") then PipelineSteps (id t)
  else ToolCalls ((λ c, (call_name c, call_ok c, formatDuration (call_durationMs c))) <$> toolCalls t).
Definition answer_shown (t : ShownTurn) : str := match finalText t with [] => #"(leer)" | s => s end.

(** ** Loading it

    One panel serves every tab of this kind: its effect runs again when the
    tab names another turn, and only the answer to the last run is taken. *)

Record Detail := MkDetail { shown : option (option ShownTurn); wanted : list str }.   (** [wanted]: one id per run, the latest first *)
Inductive DetailEvent := Wants (turnId : str) | Loads (run : nat) (row : option ShownTurn).
Definition initial_detail : Detail := MkDetail None [].
Definition detail_event (e : DetailEvent) (d : Detail) : Detail :=
  match e with
  | Wants i =>
    match wanted d with
    | j :: _ => if decide (i = j) then d else MkDetail (shown d) (i :: wanted d)
    | [] => MkDetail (shown d) [i]
    end
  | Loads run row => if decide (S run = length (wanted d)) then MkDetail (Some row) (wanted d) else d
  end.
Definition visit (es : list DetailEvent) : Detail := foldl (λ d e, detail_event e d) initial_detail es.

(** * Laws *)

Lemma half_even_near n d : (0 < d)%Z → (- d <= 2 * (half_even n d * d - n) <= d)%Z.
Proof.
  intros Hd. pose proof (Z.div_mod n d ltac:(lia)). pose proof (Z.mod_pos_bound n d Hd). unfold half_even.
  repeat case_match; nia.
Qed.
Lemma rounded_near scale x :
  let P := (2 ^ places x)%Z in (0 < P)%Z → (- P <= 2 * (rounded scale x * P - scale * significand x) <= P)%Z.
Proof.
  intros P HP. unfold rounded. fold P.
  pose proof (Z.div_mod (2 * scale * significand x + P) (2 * P) ltac:(lia)).
  pose proof (Z.mod_pos_bound (2 * scale * significand x + P) (2 * P) ltac:(lia)). nia.
Qed.
Lemma places_many a b : (0 <= a < 2 ^ 20)%Z → (0 < b)%Z → (32 <= places (quotient a b))%Z.
Proof.
  intros Ha Hb. assert (Z.log2 a <= 20)%Z.
  { etrans; [apply Z.log2_le_mono with (b := (2 ^ 20)%Z); lia|]. by vm_compute. }
  pose proof (Z.log2_nonneg b). unfold quotient. cbn [places]. case_match; lia.
Qed.
(** Rounding the double nearest to a quotient is as good as rounding the quotient. *)
Lemma rounded_quotient scale a b :
  (0 <= a < 2 ^ 20)%Z → (0 < b < 2 ^ 20)%Z → (0 < scale <= 2 ^ 10)%Z →
  (- b <= 2 * (rounded scale (quotient a b) * b - scale * a) <= b)%Z.
Proof.
  intros Ha Hb Hs. pose proof (places_many a b Ha ltac:(lia)) as Hk.
  assert (significand (quotient a b) = half_even (a * 2 ^ places (quotient a b)) b) as Es by done.
  set (k := places (quotient a b)) in *.
  assert (2 ^ 32 <= 2 ^ k)%Z as HP by (apply Z.pow_le_mono_r; lia).
  pose proof (rounded_near scale (quotient a b)) as Hr. fold k in Hr. cbv zeta in Hr. specialize (Hr ltac:(lia)).
  pose proof (half_even_near (a * 2 ^ k) b ltac:(lia)) as Hq. rewrite <-Es in Hq.
  generalize dependent (significand (quotient a b)). generalize dependent (rounded scale (quotient a b)).
  generalize dependent (2 ^ k)%Z. intros P HP n m _ Hn Hm.
  change (2 ^ 32)%Z with 4294967296%Z in HP. change (2 ^ 20)%Z with 1048576%Z in *. change (2 ^ 10)%Z with 1024%Z in *.
  (* multiplied by P, the distance is within that of the two roundings *)
  assert (scale * b <= 1024 * 1048576)%Z by (apply Z.mul_le_mono_nonneg; lia).
  assert (2 * (n * b - scale * a) * P = b * (2 * (n * P - scale * m)) + scale * (2 * (m * b - a * P)))%Z as E by ring.
  destruct Hn as [Hn1 Hn2], Hm as [Hm1 Hm2].
  apply (Z.mul_le_mono_nonneg_l _ _ b ltac:(lia)) in Hn1, Hn2. apply (Z.mul_le_mono_nonneg_l _ _ scale ltac:(lia)) in Hm1, Hm2.
  split; apply Z.lt_succ_r; apply (Z.mul_lt_mono_pos_r P); lia.
Qed.

(** C38: The duration shown is exact below a second, within 50 ms below ten, and within half a second from then on, whatever
    the rounding of the division; the seconds of a minute run from 0 to 60. *)
Theorem duration_shown ms :
  (0 <= ms < 2 ^ 52)%Z →
  if (ms <? 1000)%Z then formatDuration ms = show_Z ms ++ #"ms"
  else if (ms <? 10000)%Z then ∃ n, formatDuration ms = show_tenths n ++ #"s" ∧ (10 <= n <= 100)%Z ∧ (Z.abs (100 * n - ms) <= 50)%Z
  else if (ms <? 60000)%Z then ∃ n, formatDuration ms = show_Z n ++ #"s" ∧ (10 <= n <= 60)%Z ∧ (Z.abs (1000 * n - ms) <= 500)%Z
  else ∃ m n, formatDuration ms = show_Z m ++ #"m" ++ padStart2 (show_Z n) ++ #"s" ∧ (0 < m)%Z ∧ (0 <= n <= 60)%Z
              ∧ (Z.abs (60000 * m + 1000 * n - ms) <= 500)%Z.
Proof.
  intros [H0 _]. unfold formatDuration. destruct (Z.ltb_spec ms 0) as [|_]; [lia|].
  destruct (Z.ltb_spec ms 1000) as [|H1]; [done|]. destruct (Z.ltb_spec ms 10000) as [Hl|H2].
  { exists (rounded 10 (quotient ms 1000)). split; [done|]. pose proof (rounded_quotient 10 ms 1000 ltac:(lia) ltac:(lia) ltac:(lia)). lia. }
  destruct (Z.ltb_spec ms 60000) as [Hl|H3].
  { exists (math_round (quotient ms 1000)). split; [done|]. pose proof (rounded_quotient 1 ms 1000 ltac:(lia) ltac:(lia) ltac:(lia)).
    unfold math_round. lia. }
  exists (ms / 60000)%Z, (math_round (quotient (ms mod 60000) 1000)). split; [done|].
  pose proof (Z.div_mod ms 60000 ltac:(lia)). pose proof (Z.mod_pos_bound ms 60000 ltac:(lia)).
  pose proof (rounded_quotient 1 (ms mod 60000) 1000 ltac:(lia) ltac:(lia) ltac:(lia)). unfold math_round.
  pose proof (Z.div_le_lower_bound ms 60000 1 ltac:(lia) ltac:(lia)). lia.
Qed.
Lemma duration_shown_witness :
  (0 <= 1250 < 2 ^ 52)%Z ∧
  ∃ n, formatDuration 1250 = show_tenths n ++ #"s" ∧ (10 <= n <= 100)%Z ∧ (Z.abs (100 * n - 1250) <= 50)%Z.
Proof. split; [by split|]. exact (duration_shown 1250 ltac:(lia)). Defined.

(** The search keeps the order, and what it shows has the query in its question. *)
Lemma filtered_exact query turns t :
  t ∈ filtered query turns ↔ t ∈ turns ∧ (trim query = [] ∨ includes (to_lower (trim query)) (to_lower (userText t)) = true).
Proof.
  unfold filtered. destruct (decide (to_lower (trim query) = [])) as [E|E].
  - apply fmap_nil_inv in E. rewrite E. naive_solver.
  - rewrite list_elem_of_filter. assert (trim query ≠ []) by (intros E'; apply E; by rewrite E'). naive_solver.
Qed.

(** The answer to the last load is shown, whatever came before and whichever earlier load answers afterwards. *)
Definition outdated (n : nat) (e : DetailEvent) : Prop := match e with Wants _ => False | Loads run _ => run < n end.
Lemma detail_shows es i row late :
  let d := visit es in
  head (wanted d) ≠ Some i →
  Forall (outdated (length (wanted d))) late →
  shown (visit (es ++ [Wants i; Loads (length (wanted d)) row] ++ late)) = Some row.
Proof.
  intros d Hi Hl. unfold visit. rewrite !foldl_app. fold (visit es). fold d.
  assert (detail_event (Wants i) d = MkDetail (shown d) (i :: wanted d)) as E.
  { cbn [detail_event]. destruct (wanted d) as [|j w]; [done|]. by rewrite decide_False by (intros ->; by apply Hi). }
  cbn [foldl]. rewrite E. cbn [detail_event wanted length]. rewrite decide_True by done.
  induction Hl as [|[i'|run row'] late He _ IH]; [done|done|]. cbn [outdated] in He. cbn [foldl detail_event wanted length].
  rewrite decide_False by lia. exact IH.
Qed.

(** * Cases *)

(** The seconds are rounded after the unit is chosen. *)
Example sixty_seconds :
  formatDuration <$> [59499; 59500; 119499; 119500; 9949; 9950; 999; 1000; 1050; 1150; 60000; -1]%Z
  = [ #"59s"; #"60s"; #"1m59s"; #"1m60s"; #"9.9s"; #"9.9s"; #"999ms"; #"1.0s"; #"1.1s"; #"1.1s"; #"1m00s"; EM_DASH].
Proof. by vm_compute. Qed.
(** A tab of another turn shows the turn before until its own is loaded, and keeps it when the load fails. *)
Example other_turn :
  let t := MkShownTurn #"a" None [] 0 [] [] None [] SSuccess 1 [] (MkTokens 0 0 0) None in
  shown (visit [Wants #"a"; Loads 0 (Some t); Wants #"b"]) = Some (Some t).
Proof. by vm_compute. Qed.
(** The age has the terse units here, not those of the list of chats. *)
Example terse_age :
  let ages fmt := fmt <$> [0; 59; 3599; 3600; 86399; 86400; 172800; 604799; 604800]%Z in
  ages (λ s, formatRelative (λ _, Some ()) (λ _, 0%Z) (λ _, #"date") (s * 1000) [])
  = [ #"gerade eben"; #"gerade eben"; #"vor 60 min"; #"vor 1h"; #"vor 24h"; #"gestern"; #"vor 2d"; #"vor 7d"; #"date"].
Proof. by vm_compute. Qed.
Example run_steps :
  (StepHeader (MkStep 0 #"analyse" #"llm" [] 1500 (MkTokens 3 4 7)), fst <$> StepBody (MkStep 0 [] [] [ #"x"; #"y"] 0 (MkTokens 0 0 0)),
   KindBadge [])
  = ([ #"#1"; #"llm"; #"analyse"; #"1.5s"; #"7 tok"], [ #"Chunk 1 / 2"; #"Chunk 2 / 2"], (#"gray", #"step")).
Proof. by vm_compute. Qed.
