(* ===== verification/PipelineRun.v ===== *)
(** The panel of a pipeline run, apps/oos/src/mainview/components/PipelineRunPanel.tsx,
    over the payload of its tab ([update_run] of Tabs.v): mounts and unmounts, the
    call that starts a run, the pushed result and progress.

    The header of the file says that a remount never starts a second run and
    that a result is never lost.  [run_kept] says when that is so; [early_remount],
    [refused_again], [missed_result] and [empty_result] are the ways it is not.  The
    Markdown editor holds what it was last given; typing into it is not kept by anything. *)

From S2P Require Export Tabs.
From Stdlib Require Import ZifyBool SpecFloat.

#[local] Set Warnings "-register-all".

(** * The text *)

(** [/i]: letters of the pattern are ASCII. *)
Definition ascii_lower (c : N) : N := if is_upper c then (c + 32)%N else c.
Definition lowered (s : str) : str := ascii_lower <$> s.

(** [s.replace(/<tag>[\s\S]*?<\/tag>/gi, "")]; a tag without its end leaves the rest as it is. *)
Fixpoint remove_blocks (fuel : nat) (opening closing s : str) : str :=
  match fuel with
  | 0 => s
  | S fuel =>
    match index_of opening (lowered s) with
    | None => s
    | Some i =>
      let after := drop (i + length opening) s in
      match index_of closing (lowered after) with
      | None => s
      | Some j => take i s ++ remove_blocks fuel opening closing (drop (j + length closing) after)
      end
    end
  end.
Definition replace_blocks (opening closing s : str) : str := remove_blocks (S (length s)) opening closing s.

Definition stripReasoningBlocks (md : str) : str :=
  let clean := replace_blocks #"<think>" #"</think>" (replace_blocks #"<er_thought>" #"</er_thought>" md) in
  let clean :=
    if starts_with #"---er_thought" (lowered (trim_start clean))
    then match index_of [10; 10]%N clean with Some blankLine => trim (drop blankLine clean) | None => [] end
    else clean in
  trim clean.

(** * The panel *)

Record Progress := MkProgress {
  pr_runId : str; stepIndex : Z; stepName : str; stepKind : str; rowIndex : Z; totalRows : Z; totalSteps : option Z }.
Record RunResult := MkResult { res_runId : str; res_ok : bool; res_output : str; res_error : option str }.
(** What [runPipeline] answers, or its rejection. *)
Inductive StartReply := Accepted (runId : str) | Refused (error : option str) | Failed (message : str).

Record Panel := MkPanel {
  mount : nat;                   (** which mount of the component this is *)
  status : RunStatus; error : option str; runId : option str; progress : option Progress; editor : str }.
Definition set_status (s : RunStatus) (e : option str) (p : Panel) : Panel :=
  MkPanel (mount p) s e (runId p) (progress p) (editor p).

(** The tab's payload while it is open, the panel while it is mounted, the mounts
    whose start is unanswered, the mounts so far, and the runs asked for. *)
Record World := MkWorld {
  payload : option PipelineRun; panel : option Panel; starting : list nat; mounts : nat; requested : nat }.
Definition opened (name : str) : World := MkWorld (Some (MkRun name RunIdle [] None None)) None [] 0 0.

(** [x ?? d], and [!!x] of a string that may be missing. *)
Definition truthy (o : option str) : bool := match o with Some (_ :: _) => true | _ => false end.

Definition has_result (p : PipelineRun) : bool := negb (bool_decide (trim (run_output p) = [])).
Definition has_pending (p : PipelineRun) : bool := negb (has_result p) && truthy (run_runId p).
Definition startState (p : PipelineRun) : RunStatus :=
  if has_result p then RunDone
  else match run_status p with RunError => RunError | _ => RunRunning end.

(** The first render, its effect, and the part of [start] before its [await]. *)
Definition mounted (n : nat) (p : PipelineRun) : Panel :=
  MkPanel n (startState p) (run_error p) (run_runId p) None (if has_result p then stripReasoningBlocks (run_output p) else []).
Definition cold (p : PipelineRun) : bool := negb (has_result p || has_pending p).
Definition started (p : Panel) : Panel := MkPanel (mount p) RunRunning None None None (editor p).
Definition mount_panel (w : World) : World :=
  match payload w, panel w with
  | Some p, None =>
    let shown := mounted (mounts w) p in
    if cold p then MkWorld (payload w) (Some (started shown)) (mounts w :: starting w) (S (mounts w)) (S (requested w))
    else MkWorld (payload w) (Some shown) (starting w) (S (mounts w)) (requested w)
  | _, _ => w
  end.

(** [setX] of a component that is gone does nothing; the payload is updated all the same. *)
Definition on_mount (k : nat) (f : Panel → Panel) (p : Panel) : Panel := if decide (mount p = k) then f p else p.
Definition store (u : RunUpdate) (w : World) : option PipelineRun := update_run u <$> payload w.

Definition start_answered (k : nat) (r : StartReply) (w : World) : World :=
  if decide (k ∈ starting w) then
    let '(f, u) :=
      match r with
      | Accepted i => (λ p, MkPanel (mount p) (status p) (error p) (Some i) (progress p) (editor p), MkRunUpdate RunRunning None None (Some i))
      | Refused e => (set_status RunError (Some (default #"Pipeline rejected" e)), MkRunUpdate RunError None e None)
      | Failed m => (set_status RunError (Some m), MkRunUpdate RunError None (Some m) None)
      end in
    MkWorld (store u w) (on_mount k f <$> panel w) (filter (λ j, j ≠ k) (starting w)) (mounts w) (requested w)
  else w.

Definition listens (p : Panel) (i : str) : bool := truthy (runId p) && bool_decide (runId p = Some i).
Definition result_pushed (r : RunResult) (w : World) : World :=
  match panel w with
  | Some p =>
    if listens p (res_runId r) then
      if res_ok r
      then MkWorld (store (MkRunUpdate RunDone (Some (res_output r)) None None) w)
             (Some (MkPanel (mount p) RunDone (error p) (runId p) (progress p) (stripReasoningBlocks (res_output r))))
             (starting w) (mounts w) (requested w)
      else MkWorld (store (MkRunUpdate RunError None (res_error r) None) w)
             (Some (set_status RunError (Some (default #"unknown error" (res_error r))) p)) (starting w) (mounts w) (requested w)
    else w
  | None => w
  end.
Definition progress_pushed (e : Progress) (w : World) : World :=
  match panel w with
  | Some p =>
    if listens p (pr_runId e)
    then MkWorld (payload w) (Some (MkPanel (mount p) (status p) (error p) (runId p) (Some e) (editor p)))
           (starting w) (mounts w) (requested w)
    else w
  | None => w
  end.

Inductive Event := Mount | Unmount | CloseTab | Started (mount : nat) (r : StartReply) | Pushed (r : RunResult) | Progressed (e : Progress).
Definition panel_event (e : Event) (w : World) : World :=
  match e with
  | Mount => mount_panel w
  | Unmount => MkWorld (payload w) None (starting w) (mounts w) (requested w)
  | CloseTab => MkWorld None None (starting w) (mounts w) (requested w)
  | Started k r => start_answered k r w
  | Pushed r => result_pushed r w
  | Progressed e => progress_pushed e w
  end.
Definition run (es : list Event) (w : World) : World := foldl (λ w e, panel_event e w) w es.

(** The alert over the editor: [status === "error" && error &&]. *)
Definition alert (p : Panel) : option str := match status p with RunError => if truthy (error p) then error p else None | _ => None end.

(** ** The bar *)

Definition double (z : Z) : spec_float := binary_normalize 53 1024 z 0 false.
(** [Math.round] of a number that is not negative; [NaN] and infinities do not occur behind the guards. *)
Definition Math_round (x : spec_float) : Z :=
  match x with
  | S754_finite false m e => if (0 <=? e)%Z then (Z.pos m * 2 ^ e)%Z else ((2 * Z.pos m + 2 ^ (- e)) / (2 * 2 ^ (- e)))%Z
  | _ => 0%Z
  end.
Definition add : spec_float → spec_float → spec_float := SFadd 53 1024.
Definition mul : spec_float → spec_float → spec_float := SFmul 53 1024.
Definition div : spec_float → spec_float → spec_float := SFdiv 53 1024.
(** For indices and counts that are not negative. *)
Definition percent (e : Progress) : Z :=
  let total := default 0%Z (totalSteps e) in
  let rowFraction := if (0 <? totalRows e)%Z then div (double (rowIndex e + 1)) (double (totalRows e)) else double 1 in
  if (0 <? total)%Z
  then Z.min 100 (Math_round (mul (div (add (double (stepIndex e)) rowFraction) (double total)) (double 100)))
  else 0%Z.
Definition stepLabel (e : Progress) : str :=
  let total := default 0%Z (totalSteps e) in
  #"Schritt " ++ show_Z (stepIndex e + 1) ++ (if (0 <? total)%Z then #" / " ++ show_Z total else []).
Definition rowLabel (e : Progress) : str :=
  if (1 <? totalRows e)%Z then #" · Zeile " ++ show_Z (rowIndex e + 1) ++ #" / " ++ show_Z (totalRows e) else [].
Definition RunProgress (e : option Progress) : str * Z :=
  match e with
  | None => (#"Pipeline startet…", 0%Z)
  | Some e => (stepLabel e ++ rowLabel e ++ #" — " ++ stepKind e ++ #" " ++ stepName e, percent e)
  end.

(** * Laws *)

Lemma index_of_first c p s : c ∉ s → index_of (c :: p) s = None.
Proof.
  induction s as [|d s IH]; intros H; [done|]. apply not_elem_of_cons in H as [Hd Hs].
  cbn [index_of starts_with]. apply N.eqb_neq in Hd as ->. cbn [andb]. by rewrite IH.
Qed.
Lemma lowered_other c s : is_upper c = false → is_lower c = false → c ∉ s → c ∉ lowered s.
Proof.
  intros Hu Hl Hc (d & E & Hd)%list_elem_of_fmap. unfold ascii_lower in E. destruct (is_upper d) eqn:Ed; [|by subst].
  unfold is_upper, is_lower in *. lia.
Qed.
Lemma blocks_plain c o cl s : is_upper c = false → is_lower c = false → c ∉ s → replace_blocks (c :: o) cl s = s.
Proof. intros ?? Hc. unfold replace_blocks. cbn [remove_blocks]. by rewrite index_of_first by (by apply lowered_other). Qed.
Lemma index_of_within p s i : index_of p s = Some i → i + length p ≤ length s.
Proof.
  revert i. induction s as [|c s IH]; intros i; cbn [index_of].
  - destruct (starts_with p []) eqn:E; [|done]. intros [= <-]. by apply starts_with_spec in E as [k [-> ->]%eq_sym%app_nil].
  - destruct (starts_with p (c :: s)) eqn:E.
    + intros [= <-]. apply starts_with_spec in E as [k E]. rewrite E, length_app. lia.
    + intros (j & Hj & ->)%fmap_Some. apply IH in Hj. cbn [length]. lia.
Qed.
(** The fuel is never felt: every block takes at least its opening. *)
Lemma remove_blocks_fuel o c s n m : o ≠ [] → length s < n → length s < m → remove_blocks n o c s = remove_blocks m o c s.
Proof.
  intros Ho. revert s m. induction n as [|n IH]; intros s [|m] Hn Hm; [lia..|]. cbn [remove_blocks].
  destruct (index_of o (lowered s)) as [i|] eqn:Ei; [|done]. cbv zeta. destruct (index_of c _) as [j|]; [|done].
  apply index_of_within in Ei. unfold lowered in Ei. rewrite length_fmap in Ei.
  assert (length o ≠ 0) by (by destruct o). f_equal. apply IH; rewrite !length_drop; lia.
Qed.
(** A text without tags and without the heading is only trimmed. *)
Lemma strip_plain md : 60%N ∉ md → starts_with #"---er_thought" (lowered (trim_start md)) = false → stripReasoningBlocks md = trim md.
Proof.
  intros Hc Hh. unfold stripReasoningBlocks.
  rewrite (blocks_plain 60%N #"er_thought>" _ md), (blocks_plain 60%N #"think>" _ md) by done. cbv zeta. by rewrite Hh.
Qed.
Lemma strip_blank md : trim md = [] → stripReasoningBlocks md = [].
Proof.
  intros Hb. assert (∀ c, c ∈ md → is_space c = true) as Hs.
  { intros c Hc. destruct (is_space c) eqn:E; [done|]. by destruct (trim_nonempty c md Hc E). }
  rewrite strip_plain; [done| |].
  - intros Hc. by apply Hs in Hc.
  - destruct (trim_start md) as [|c s] eqn:E; [done|]. exfalso.
    assert (is_space c = false) as Hc by (apply (trim_start_head md); by rewrite E).
    rewrite (Hs c) in Hc; [done|]. destruct (trim_start_suffix md) as (k & -> & _). rewrite E. set_solver.
Qed.

(** What is shown is what is stored. *)
Definition editor_ok (w : World) : Prop :=
  ∀ p, panel w = Some p → ∃ t, payload w = Some t ∧ editor p = stripReasoningBlocks (run_output t).
Lemma mounted_editor n t : editor (mounted n t) = stripReasoningBlocks (run_output t).
Proof.
  unfold mounted, has_result. cbn [editor]. case_bool_decide as E; cbn [negb]; [|done]. by rewrite strip_blank.
Qed.
Lemma on_mount_editor k f p : (∀ q, editor (f q) = editor q) → editor (on_mount k f p) = editor p.
Proof. intros Hf. unfold on_mount. by case_decide. Qed.
Lemma editor_event e w : editor_ok w → editor_ok (panel_event e w).
Proof.
  intros Hok. destruct e as [| | |k r|r|e]; cbn [panel_event].
  - unfold mount_panel. destruct (payload w) as [t|] eqn:Et, (panel w) as [p|] eqn:Ep; try exact Hok.
    destruct (cold t); intros q Hq; cbn [panel payload] in *; apply Some_inj in Hq as <-; exists t; (split; [done|]);
      [cbn [started editor]|]; apply mounted_editor.
  - by intros p Hp.
  - by intros p Hp.
  - unfold start_answered. case_decide; [|exact Hok].
    destruct r as [i|x|m]; intros q Hq; cbn [panel payload] in *; unfold store; apply fmap_Some in Hq as (p & Hp & ->);
      destruct (Hok p Hp) as (t & Ht & He); rewrite Ht; (eexists; split; [done|]); by rewrite on_mount_editor.
  - unfold result_pushed. destruct (panel w) as [p|] eqn:Ep; [|exact Hok]. destruct (listens p (res_runId r)); [|exact Hok].
    destruct (Hok p Ep) as (t & Ht & He).
    destruct (res_ok r); intros q Hq; cbn [panel payload] in *; unfold store; rewrite Ht; apply Some_inj in Hq as <-; (eexists; split; [done|]); done.
  - unfold progress_pushed. destruct (panel w) as [p|] eqn:Ep; [|exact Hok]. destruct (listens p (pr_runId e)); [|exact Hok].
    intros q Hq. apply Some_inj in Hq as <-. exact (Hok p Ep).
Qed.

(** No mount is newer than the last. *)
Lemma on_mount_mount k f p : (∀ q, mount (f q) = mount q) → mount (on_mount k f p) = mount p.
Proof. intros Hf. unfold on_mount. by case_decide. Qed.
Definition mounts_ok (w : World) : Prop := ∀ p, panel w = Some p → mount p < mounts w.
Lemma mounts_event e w : mounts_ok w → mounts_ok (panel_event e w).
Proof.
  intros Hok. destruct e as [| | |k r|r|e]; cbn [panel_event].
  - unfold mount_panel. destruct (payload w) as [t|], (panel w) as [p|] eqn:Ep; try exact Hok.
    destruct (cold t); intros q Hq; apply Some_inj in Hq as <-; cbn [started mounted mount mounts]; lia.
  - by intros p Hp.
  - by intros p Hp.
  - unfold start_answered. case_decide; [|exact Hok].
    destruct r as [i|x|m]; intros q Hq; cbn [panel mounts] in *; apply fmap_Some in Hq as (p & Hp & ->);
      rewrite on_mount_mount by done; exact (Hok p Hp).
  - unfold result_pushed. destruct (panel w) as [p|] eqn:Ep; [|exact Hok]. destruct (listens p (res_runId r)); [|exact Hok].
    destruct (res_ok r); intros q Hq; apply Some_inj in Hq as <-; exact (Hok p Ep).
  - unfold progress_pushed. destruct (panel w) as [p|] eqn:Ep; [|exact Hok]. destruct (listens p (pr_runId e)); [|exact Hok].
    intros q Hq. apply Some_inj in Hq as <-. exact (Hok p Ep).
Qed.
Lemma run_invariant (R : World → Prop) es w : (∀ e v, R v → R (panel_event e v)) → R w → R (run es w).
Proof. intros He. revert w. induction es as [|e es IH]; intros w Hw; [done|]. apply IH. by apply He. Qed.

(** An accepted run, behind [n] requests: [P] of the payload, and [Q] of the panel, which holds of each mount from [m] on. *)
Record kept (i : str) (n m : nat) (P : PipelineRun → Prop) (Q : Panel → Prop) (w : World) : Prop := MkKept {
  kept_starting : starting w = [];
  kept_requested : requested w = n;
  kept_mounts : m ≤ mounts w;
  kept_payload t : payload w = Some t → run_runId t = Some i ∧ P t;
  kept_panel p : panel w = Some p → runId p = Some i ∧ Q p }.
Definition other_result (i : str) (e : Event) : Prop := match e with Pushed r => res_runId r ≠ i | _ => True end.

Section kept.
Context (i : str) (n m : nat) (P : PipelineRun → Prop) (Q : Panel → Prop).
Context (Hi : i ≠ []) (Hmount : ∀ k t, m ≤ k → run_runId t = Some i → P t → Q (mounted k t)).
Context (Hprogress : ∀ p e, Q p → Q (MkPanel (mount p) (status p) (error p) (runId p) e (editor p))).

Lemma pending_warm t : run_runId t = Some i → cold t = false.
Proof. intros E. unfold cold, has_pending. rewrite E. unfold truthy. destruct i; [done|]. by destruct (has_result t). Qed.
Lemma kept_event e w : other_result i e → kept i n m P Q w → kept i n m P Q (panel_event e w).
Proof using All.
  intros He Hk. pose proof Hk as [Hs Hr Hm Ht Hp]. destruct e as [| | |k r|r|e]; cbn [panel_event].
  - unfold mount_panel. destruct (payload w) as [t|] eqn:Et; [|exact Hk].
    destruct (panel w) as [p|] eqn:Ep; [exact Hk|]. destruct (Ht t eq_refl) as [Hti HPt].
    rewrite (pending_warm t Hti). split; cbn [starting requested mounts payload panel]; [done|done|lia|exact Ht|].
    intros p Hq. apply Some_inj in Hq as <-. split; [done|]. by apply Hmount.
  - by split.
  - by split.
  - unfold start_answered. rewrite decide_False by (rewrite Hs; apply not_elem_of_nil). exact Hk.
  - unfold result_pushed. destruct (panel w) as [p|] eqn:Ep; [|exact Hk].
    assert (listens p (res_runId r) = false) as ->; [|exact Hk].
    unfold listens. destruct (Hp p eq_refl) as [-> _]. rewrite andb_false_iff. right. apply bool_decide_eq_false.
    intros [= E]. by apply He.
  - unfold progress_pushed. destruct (panel w) as [p|] eqn:Ep; [|exact Hk].
    destruct (listens p (pr_runId e)); [|exact Hk]. destruct (Hp p eq_refl) as [Hpi HQ].
    split; [done|done|done|done|]. intros q Hq. apply Some_inj in Hq as <-. split; [done|]. by apply Hprogress.
Qed.
Lemma kept_run es w : Forall (other_result i) es → kept i n m P Q w → kept i n m P Q (run es w).
Proof using All. intros He. revert w. induction He as [|e es He _ IH]; intros w Hw; [done|]. apply IH. by apply kept_event. Qed.
End kept.

#[export] Instance other_result_dec i e : Decision (other_result i e).
Proof. destruct e; cbn [other_result]; apply _. Defined.

Definition any {A} (_ : A) : Prop := True.
(** What a result leaves in the tab and in the panel that hears it. *)
Definition result_update (r : RunResult) : RunUpdate :=
  if res_ok r then MkRunUpdate RunDone (Some (res_output r)) None None else MkRunUpdate RunError None (res_error r) None.
Definition result_shown (r : RunResult) (q : Panel) : Panel :=
  if res_ok r then MkPanel (mount q) RunDone (error q) (runId q) (progress q) (stripReasoningBlocks (res_output r))
  else set_status RunError (Some (default #"unknown error" (res_error r))) q.

(** A result for the run, at a mounted panel. *)
Lemma result_kept (P : PipelineRun → Prop) (Q : Panel → Prop) i n m r q w :
  i ≠ [] → res_runId r = i → kept i n 0 any any w → m ≤ mounts w → panel w = Some q →
  (∀ t, payload w = Some t → P (update_run (result_update r) t)) → Q (result_shown r q) →
  kept i n m P Q (panel_event (Pushed r) w).
Proof.
  intros Hi Hr [Hs Hn _ Ht Hp] Hm Hq HP HQ. destruct (Hp q Hq) as [Hqi _].
  assert (listens q (res_runId r) = true) as Hl by (unfold listens; rewrite Hqi, Hr, bool_decide_eq_true_2 by done; by destruct i).
  cbn [panel_event]. unfold result_pushed, result_update, result_shown in *. rewrite Hq, Hl.
  destruct (res_ok r); (split; cbn [starting requested mounts payload panel]; [done|done|done| |]); unfold store.
  1, 3: intros t' (t & E & ->)%fmap_Some; split; [exact (proj1 (Ht t E))|exact (HP t E)].
  all: intros p E; apply Some_inj in E as <-; by split.
Qed.
Lemma stays_kept i n es w : i ≠ [] → kept i n 0 any any w → kept i n 0 any any (run es w).
Proof.
  intros Hi. revert w. induction es as [|e es IH]; intros w Hw; [done|]. apply IH. clear IH es.
  destruct (decide (other_result i e)) as [He|He]; [by apply kept_event|].
  destruct e as [| | | |r|]; try by destruct He. destruct (panel w) as [q|] eqn:Eq.
  - apply (result_kept any any i n 0 r q w); [done| |done|lia|done..]. by apply dec_stable.
  - cbn [panel_event]. unfold result_pushed. by rewrite Eq.
Qed.

(** The one start that is not answered, of the mounted panel if there is one, is accepted. *)
Definition sole_start (k : nat) (w : World) : Prop := starting w = [k] ∧ ∀ p, panel w = Some p → mount p = k.
Lemma accepted_kept k i w : sole_start k w → kept i (requested w) 0 any any (panel_event (Started k (Accepted i)) w).
Proof.
  intros [Hs Hp]. cbn [panel_event]. unfold start_answered. rewrite decide_True by (rewrite Hs; by left).
  split; cbn [starting requested mounts payload panel]; [|done|lia| |].
  - rewrite Hs, filter_cons_False, filter_nil; [done|]. intros H. by apply H.
  - unfold store. intros t' (t & E & ->)%fmap_Some. done.
  - intros p' (p & E & ->)%fmap_Some. unfold on_mount. by rewrite decide_True by by apply Hp.
Qed.

(** What stays of a result for the panel [q] that heard it, and for later mounts, if [text] says that there was one before. *)
Definition stays_done (r : RunResult) (q p : Panel) : Prop :=
  editor p = stripReasoningBlocks (res_output r)
  ∧ status p = (if decide (mount p = mount q ∨ trim (res_output r) ≠ []) then RunDone else RunRunning).
Definition stays_told (r : RunResult) (text : bool) (q p : Panel) : Prop :=
  alert p = match (if decide (mount p = mount q) then Some (default #"unknown error" (res_error r)) else if text then None else res_error r)
            with Some [] => None | e => e end.

Lemma done_kept i n es' r q w :
  i ≠ [] → res_runId r = i → Forall (other_result i) es' → kept i n 0 any any w → mounts_ok w → panel w = Some q → res_ok r = true →
  ∀ p, panel (run es' (panel_event (Pushed r) w)) = Some p → stays_done r q p.
Proof.
  intros Hi Hr He Hw Hm Hq Hok p Hp. refine (proj2 (kept_panel _ _ _ _ _ _ (kept_run i n (S (mount q))
    (λ t, run_status t = RunDone ∧ run_output t = res_output r) (stays_done r q) Hi _ _ es' _ He
    (result_kept _ _ i n _ r q w Hi Hr Hw _ Hq _ _)) p Hp)).
  - intros k t Hk _ [Es Et]. split; [by rewrite mounted_editor, Et|]. cbn [mounted mount status]. unfold startState, has_result. rewrite Es, Et.
    destruct (decide (trim (res_output r) = [])) as [E|E].
    + rewrite bool_decide_eq_true_2 by done. rewrite decide_False by (intros [?|?]; [lia|done]). done.
    + rewrite bool_decide_eq_false_2 by done. by rewrite decide_True by by right.
  - done.
  - exact (Hm q Hq).
  - intros t _. unfold result_update. by rewrite Hok.
  - unfold result_shown. rewrite Hok. split; [done|]. cbn [mount status]. by rewrite decide_True by by left.
Qed.
Lemma told_kept i n es' r q t w :
  i ≠ [] → res_runId r = i → Forall (other_result i) es' → kept i n 0 any any w → mounts_ok w → panel w = Some q → payload w = Some t →
  res_ok r = false → ∀ p, panel (run es' (panel_event (Pushed r) w)) = Some p → stays_told r (has_result t) q p.
Proof.
  intros Hi Hr He Hw Hm Hq Ht Hok p Hp. refine (proj2 (kept_panel _ _ _ _ _ _ (kept_run i n (S (mount q))
    (λ t', run_status t' = RunError ∧ run_error t' = res_error r ∧ has_result t' = has_result t) (stays_told r (has_result t) q) Hi _ _ es' _ He
    (result_kept _ _ i n _ r q w Hi Hr Hw _ Hq _ _)) p Hp)).
  - intros k t' Hk _ (Es & Ee & Eh). unfold stays_told, alert. cbn [mounted mount status error]. unfold startState. rewrite Es, Ee, Eh.
    rewrite decide_False by lia. destruct (has_result t); [done|]. by destruct (res_error r) as [[|]|].
  - done.
  - exact (Hm q Hq).
  - intros t' Ht'. rewrite Ht in Ht'. apply Some_inj in Ht' as <-. unfold result_update. by rewrite Hok.
  - unfold result_shown. rewrite Hok. unfold stays_told, alert. cbn [set_status mount status error]. rewrite decide_True by done.
    by destruct (default _ _).
Qed.

(** C39: Let a start be accepted while no other is unanswered and no newer mount of the panel is shown.  From then on no mount asks for another
    run, and the panel, mounted any number of times, listens to that run and shows the stored text.  A result of the run that reaches a mounted
    panel stays: its text is shown from then on, as done, except that a blank one is shown as running by every later mount; a failure is told by its
    message, by the panel that heard it as an unknown error if it has none; later mounts tell the message alone, and nothing if a
    text came before. *)
Theorem run_kept name before k i es r es' :
  sole_start k (run before (opened name)) → i ≠ [] → res_runId r = i → Forall (other_result i) es' →
  let w := run (before ++ Started k (Accepted i) :: es) (opened name) in
  let w' := run (before ++ Started k (Accepted i) :: es ++ Pushed r :: es') (opened name) in
  requested w' = requested (run before (opened name))
  ∧ (∀ p, panel w' = Some p → runId p = Some i ∧ ∃ t, payload w' = Some t ∧ editor p = stripReasoningBlocks (run_output t))
  ∧ ∀ q t p, panel w = Some q → payload w = Some t → panel w' = Some p →
      if res_ok r then stays_done r q p else stays_told r (has_result t) q p.
Proof.
  intros Hk Hi Hr He. cbv zeta. unfold run. rewrite !foldl_app. cbn [foldl]. rewrite foldl_app. cbn [foldl].
  fold (run before (opened name)). set (w0 := run before (opened name)) in *. set (w1 := panel_event (Started k (Accepted i)) w0).
  fold (run es w1). set (w := run es w1). fold (run es' (panel_event (Pushed r) w)).
  assert (kept i (requested w0) 0 any any w) as Hw by by apply stays_kept, accepted_kept.
  assert (kept i (requested w0) 0 any any (run es' (panel_event (Pushed r) w))) as Hw' by by apply (stays_kept i _ (Pushed r :: es')).
  assert (∀ R : World → Prop, (∀ e v, R v → R (panel_event e v)) → R (opened name) → R w) as Hall
    by (intros R HR H; by apply run_invariant, HR, run_invariant).
  assert (mounts_ok w) as Hm by by apply (Hall mounts_ok mounts_event).
  assert (editor_ok w) as Hed by by apply (Hall editor_ok editor_event).
  split; [by destruct Hw'|]. split.
  { intros p Hp. split; [by destruct (kept_panel _ _ _ _ _ _ Hw' p Hp)|]. revert p Hp.
    apply (run_invariant editor_ok es'); [apply editor_event|]. by apply editor_event. }
  intros q t p Hq Ht Hp. destruct (res_ok r) eqn:Hok; [by apply (done_kept i (requested w0) es' r q w)|by apply (told_kept i (requested w0) es' r q t w)].
Qed.
Definition good : RunResult := MkResult #"r1" true #"text" None.
(** The first start is refused, the second accepted. *)
Definition second_start : list Event := [Mount; Started 0 (Refused (Some #"no")); Unmount; Mount].
Lemma run_kept_witness :
  ∃ p, panel (run (second_start ++ Started 1 (Accepted #"r1") :: [Unmount; Mount] ++ Pushed good :: [Unmount; Mount]) (opened #"p")) = Some p
       ∧ requested (run (second_start ++ Started 1 (Accepted #"r1") :: [Unmount; Mount] ++ Pushed good :: [Unmount; Mount]) (opened #"p")) = 2
       ∧ status p = RunDone ∧ mount p = 3.
Proof.
  eexists. split; [by vm_compute|].
  destruct (run_kept #"p" second_start 1 #"r1" [Unmount; Mount] good [Unmount; Mount]
    ltac:(split; [by vm_compute|by intros p [= <-]]) ltac:(discriminate) ltac:(reflexivity) ltac:(repeat constructor)) as (Hn & _ & _).
  split; [exact Hn|]. split; by vm_compute.
Defined.

(** * Cases *)

Definition accepted_run : list Event := [Mount; Started 0 (Accepted #"r1")].
(** A tab left and opened again before the run is accepted starts a second one. *)
Example early_remount :
  let w := run [Mount; Unmount; Mount; Started 0 (Accepted #"r1"); Started 1 (Accepted #"r2")] (opened #"p") in
  (requested w, runId <$> panel w, run_runId <$> payload w) = (2, Some (Some #"r2"), Some (Some #"r2")).
Proof. by vm_compute. Qed.
(** A run that was refused is asked for again by every mount. *)
Example refused_again :
  let w := run [Mount; Started 0 (Refused (Some #"no")); Unmount; Mount; Started 1 (Refused (Some #"no")); Unmount; Mount] (opened #"p") in
  (requested w, status <$> panel w) = (3, Some RunRunning).
Proof. by vm_compute. Qed.
(** A result pushed while another tab is in front is lost: the run is shown as running from then on. *)
Example missed_result :
  let w := run (accepted_run ++ [Unmount; Pushed (MkResult #"r1" true #"text" None); Mount]) (opened #"p") in
  (status <$> panel w, editor <$> panel w, run_status <$> payload w) = (Some RunRunning, Some [], Some RunRunning).
Proof. by vm_compute. Qed.
(** A run that ends without text is shown as running after a remount. *)
Example empty_result :
  let w := run (accepted_run ++ [Pushed (MkResult #"r1" true [] None)]) (opened #"p") in
  (status <$> panel w, run_status <$> payload w, status <$> panel (run [Unmount; Mount] w)) = (Some RunDone, Some RunDone, Some RunRunning).
Proof. by vm_compute. Qed.
(** A failure without a message is told once; after a remount there is none. *)
Example unnamed_failure :
  let w := run (accepted_run ++ [Pushed (MkResult #"r1" false [] None)]) (opened #"p") in
  (alert <$> panel w, alert <$> panel (run [Unmount; Mount] w)) = (Some (Some #"unknown error"), Some None).
Proof. by vm_compute. Qed.
Example reasoning_removed :
  stripReasoningBlocks <$>
    [ #" <think>a</think>b<THINK>c</Think> d "; #"<think>open"; #"<thi<think>x</think>nk>y</think>z"; #"---er_thought why" ++ [10; 10]%N ++ #"text";
      #"---ER_thought"; [10; 10]%N ++ #"---er_thought why" ++ [10; 10]%N ++ #"text" ]
  = [ #"b d"; #"<think>open"; #"<think>y</think>z"; #"text"; []; #"---er_thought why" ++ [10; 10]%N ++ #"text" ].
Proof. by vm_compute. Qed.
Example progress_shown :
  RunProgress <$> [None; Some (MkProgress #"r" 0 #"a" #"llm" 0 8 (Some 1%Z)); Some (MkProgress #"r" 1 #"b" #"where" 0 0 (Some 2%Z));
                   Some (MkProgress #"r" 1 #"b" #"duck" 2 4 None); Some (MkProgress #"r" 0 #"a" #"llm" 28 200 (Some 1%Z))]
  = [(#"Pipeline startet…", 0%Z); (#"Schritt 1 / 1 · Zeile 1 / 8 — llm a", 13%Z); (#"Schritt 2 / 2 — where b", 100%Z);
     (#"Schritt 2 · Zeile 3 / 4 — duck b", 0%Z); (#"Schritt 1 / 1 · Zeile 29 / 200 — llm a", 14%Z)].
Proof. by vm_compute. Qed.
