(* ===== verification/PipelineList.v ===== *)
(** The list of pipelines, apps/oos/src/mainview/components/PipelineListPanel.tsx,
    and the examples beside it, PipelineExamplesDrawer.tsx.

    The panel is a transition system: a click, a key or an answer is an event,
    a call that is out keeps what it was made with.  [list_kept] says what holds
    when every call is answered before the next event, the cases after it what happens
    when not; [examples_parse] reads the examples and the text of a new pipeline with
    the grammar.  Ctrl-S runs the function the editor was mounted with, as the wrapper's
    [onMount] is called once; the editor is mounted while a pipeline is selected. *)

From S2P Require Export Lexing.
From S2P Require PipelineGrammar Console.
Import PipelineGrammar(PipelineGrammar).
From Stdlib Require Import ZifyBool.

#[local] Set Warnings "-register-all".

Definition NL : str := [10%N].

(** * The texts *)

Definition newTemplate (name : str) : str :=
  join NL
    [ #"pipeline " ++ quoted name ++ #" {"; [];
      #"  source db   main"; [];
      #"  mode    context"; #"  llm     " ++ quoted #"gemma4:26b"; #"  embedding " ++ quoted #"bge-m3:latest"; [];
      #"  step llm analyse {"; #"    from   main"; #"    mode   aggregate";
      #"    prompt " ++ quoted #"Analysiere die Daten und erstelle eine Zusammenfassung"; #"  }"; [];
      #"  out editor"; #"}" ].

Record PipelineExample := MkExample { ex_label : str; ex_description : str; ex_source : str }.
Definition q := quoted.
Definition EXPERT : str := #"    system " ++ q #"Du bist ein erfahrener Versicherungsgutachter.".
Definition EXAMPLES : list PipelineExample :=
  [ MkExample #"Einfacher LLM" #"Alle Dokumente einer DB-Quelle direkt in ein LLM laden (mode=context)." (join NL
      [ #"pipeline " ++ q #"Einfache Analyse" ++ #" {"; #"  source db schaeden from pipeline_documents"; [];
        #"  mode    context"; #"  llm     " ++ q #"gemma4:26b"; [];
        #"  step llm zusammenfassung {"; #"    from   schaeden"; #"    mode   aggregate"; EXPERT;
        #"    prompt " ++ q #"Erstelle eine strukturierte Zusammenfassung aller Fälle."; #"  }"; []; #"  out editor"; #"}" ]);
    MkExample #"Einzelfall" #"Einen einzelnen Fall analysieren — Fall-Nr direkt im Editor eintragen." (join NL
      [ #"pipeline " ++ q #"Einzel-Fall Analyse" ++ #" {"; #"  source db schaeden from pipeline_documents"; [];
        #"  mode    context"; #"  llm     " ++ q #"gemma4:latest"; [];
        #"  step where einzel {"; #"    from schaeden"; #"    where {";
        #"      { fall_nr: { _eq: " ++ q #"SCH-2024-0001" ++ #" } }"; #"    }"; #"  }"; [];
        #"  step llm analyse {"; #"    from   einzel"; #"    mode   aggregate"; EXPERT;
        #"    prompt " ++ q #"Erstelle eine präzise Zusammenfassung dieses Schadensfalles."; #"  }"; []; #"  out editor"; #"}" ]);
    MkExample #"SQL + Semantic" #"SQL-Filter → Cosine-Suche → LLM Analyse." (join NL
      [ #"pipeline " ++ q #"Betrugs-Analyse" ++ #" {"; #"  source db schaeden from pipeline_documents"; [];
        #"  mode      context"; #"  llm       " ++ q #"gemma4:26b"; #"  embedding " ++ q #"bge-m3:latest"; [];
        #"  step where vorauswahl {"; #"    from schaeden"; #"    where {";
        #"      { kategorie: { _eq: " ++ q #"Einbruch" ++ #" } }"; #"    }"; #"  }"; [];
        #"  step semantic betrug {"; #"    from   vorauswahl"; #"    query  " ++ q #"Betrugsverdacht mit Serientäter";
        #"    query  " ++ q #"kein unabhängiger Zeuge"; #"    limit  20"; #"  }"; [];
        #"  step llm pruefung {"; #"    from   betrug"; #"    mode   per-row"; EXPERT;
        #"    prompt " ++ q #"Prüfe diesen Fall auf Betrugsindikatoren. Antworte strukturiert."; #"  }"; [];
        #"  step llm bericht {"; #"    from   pruefung"; #"    mode   aggregate";
        #"    prompt " ++ q #"Erstelle einen Betrugsbericht mit Risikoranking."; #"  }"; []; #"  out editor"; #"}" ]);
    MkExample #"Map-Reduce" #"Alle Fälle einzeln analysieren, dann zusammenfassen." (join NL
      [ #"pipeline " ++ q #"Portfolio Analyse" ++ #" {"; #"  source db schaeden from pipeline_documents"; [];
        #"  mode    context"; #"  llm     " ++ q #"gemma4:26b"; [];
        #"  step llm analyse {"; #"    from   schaeden"; #"    mode   per-row"; EXPERT;
        #"    prompt " ++ q #"Prüfe diesen Schadensfall: Betrug? Risiko? Besonderheiten?"; #"  }"; [];
        #"  step llm bericht {"; #"    from   analyse"; #"    mode   aggregate";
        #"    prompt " ++ q #"Erstelle eine Zusammenfassung aller auffälligen Punkte mit Risikoranking."; #"  }"; []; #"  out editor"; #"}" ]);
    MkExample #"Vektor-Vorauswahl (mass)" #"Vektor-Vorauswahl → LLM pro Fall → aggregierter Bericht (mode=mass)." (join NL
      [ #"pipeline " ++ q #"Fraud Detection (mass)" ++ #" {"; #"  source db  schaeden from pipeline_documents"; [];
        #"  mode      mass"; #"  llm       " ++ q #"gemma4:26b"; #"  embedding " ++ q #"bge-m3:latest"; [];
        #"  step semantic vorauswahl {"; #"    from  schaeden"; #"    query " ++ q #"Anzeichen von Versicherungsbetrug";
        #"    query " ++ q #"widersprüchliche Angaben zum Schadenshergang"; #"    limit 20"; #"  }"; [];
        #"  step llm pruefung {"; #"    from   vorauswahl"; #"    mode   per-row";
        #"    prompt " ++ q #"Prüfe auf Anzeichen von Versicherungsbetrug"; #"  }"; [];
        #"  step llm bericht {"; #"    from   pruefung"; #"    mode   aggregate";
        #"    prompt " ++ q #"Erstelle einen Betrugsprüfungs-Bericht mit Risikoranking"; #"  }"; []; #"  out editor"; #"}" ]) ].

(** * The panel *)

Record PipelineRow := MkRow { row_name : str; row_source : str }.
#[export] Instance row_eq_dec : EqDecision PipelineRow.
Proof. solve_decision. Defined.

Definition named (n : str) (l : list PipelineRow) : Prop := n ∈ row_name <$> l.
#[export] Instance named_dec n l : Decision (named n l).
Proof. unfold named. apply _. Defined.

(** A call that is out, with what it was made with; [selected] of a deletion is that of the click. *)
Inductive Call := SaveCall (name source : str) | CreateCall (name source : str) | DeleteCall (name : str) (selected : option str).
(** [savePipeline] and [deletePipeline] answer a failure of the connection as a refusal (rpc.ts). *)
Inductive Reply := Done | Refused (error : option str).

Record Panel := MkPanel {
  pipelines : list PipelineRow; selected : option str; source : str; dirty : bool; saving : bool; error : option str;
  newName : str; creating : bool;
  bound : option (option str * bool * str);      (** [selected], [dirty] and [source] of the render the editor was mounted in *)
  calls : list Call;                             (** out, in order *)
  runs : list str }.                             (** tabs of runs opened, the latest first *)

Definition initial_panel : Panel := MkPanel [] None [] false false None [] false None [] [].
Definition set_list (l : list PipelineRow) (p : Panel) : Panel :=
  MkPanel l (selected p) (source p) (dirty p) (saving p) (error p) (newName p) (creating p) (bound p) (calls p) (runs p).
Definition set_editor (s : option str) (t : str) (d : bool) (p : Panel) : Panel :=
  MkPanel (pipelines p) s t d (saving p) (error p) (newName p) (creating p) (bound p) (calls p) (runs p).
Definition mark_saving (b : bool) (p : Panel) : Panel :=
  MkPanel (pipelines p) (selected p) (source p) (dirty p) b (error p) (newName p) (creating p) (bound p) (calls p) (runs p).
Definition set_error (e : option str) (p : Panel) : Panel :=
  MkPanel (pipelines p) (selected p) (source p) (dirty p) (saving p) e (newName p) (creating p) (bound p) (calls p) (runs p).
Definition set_new (n : str) (c : bool) (p : Panel) : Panel :=
  MkPanel (pipelines p) (selected p) (source p) (dirty p) (saving p) (error p) n c (bound p) (calls p) (runs p).
Definition send (c : Call) (p : Panel) : Panel :=
  MkPanel (pipelines p) (selected p) (source p) (dirty p) (saving p) (error p) (newName p) (creating p) (bound p) (calls p ++ [c]) (runs p).
Definition set_calls (cs : list Call) (p : Panel) : Panel :=
  MkPanel (pipelines p) (selected p) (source p) (dirty p) (saving p) (error p) (newName p) (creating p) (bound p) cs (runs p).

Section panel.
Context (localeCompare : str → str → Z).

Definition by_name (a b : PipelineRow) : Z := localeCompare (row_name a) (row_name b).

(** [loadList] after its [await]: the rows, or the error. *)
Definition loadList (r : list PipelineRow + str) (p : Panel) : Panel :=
  match r with inl rows => set_list rows p | inr e => set_error (Some e) p end.
Definition handleSelect (name : str) (p : Panel) : Panel :=
  match list_find (λ r, row_name r = name) (pipelines p) with
  | None => p
  | Some (_, row) => set_error None (set_editor (Some name) (row_source row) false p)
  end.
Definition handleCreate (p : Panel) : Panel :=
  let name := trim (newName p) in
  if decide (name = []) then p
  else if decide (named name (pipelines p))
  then set_error (Some (#"Pipeline " ++ quoted name ++ #" already exists.")) p
  else send (CreateCall name (newTemplate name)) p.
Definition handleDelete (name : str) (p : Panel) : Panel := send (DeleteCall name (selected p)) p.
(** With what the function was created with. *)
Definition handleSave (sel : option str) (isDirty : bool) (src : str) (p : Panel) : Panel :=
  match sel with
  | Some ((_ :: _) as n) => if isDirty then send (SaveCall n src) (mark_saving true p) else p
  | _ => p
  end.

Definition replace_source (n src : str) (l : list PipelineRow) : list PipelineRow :=
  (λ r, if decide (row_name r = n) then MkRow (row_name r) src else r) <$> l.
(** What follows the [await]s. *)
Definition answered (c : Call) (r : Reply) (p : Panel) : Panel :=
  match c, r with
  | SaveCall n src, Done => mark_saving false (set_error None (set_editor (selected p) (source p) false (set_list (replace_source n src (pipelines p)) p)))
  | SaveCall _ _, Refused e => mark_saving false (set_error (Some (default #"save failed" e)) p)
  | CreateCall n src, Done =>
    set_error None (set_new [] false (set_editor (Some n) src false (set_list (Console.js_sort by_name (pipelines p ++ [MkRow n src])) p)))
  | CreateCall _ _, Refused e => set_error (Some (default #"save failed" e)) p
  | DeleteCall n sel, Done =>
    let p := set_list (filter (λ r, row_name r ≠ n) (pipelines p)) p in
    if decide (sel = Some n) then set_editor None [] false p else p
  | DeleteCall _ _, Refused e => set_error (Some (default #"delete failed" e)) p
  end.

Inductive Event :=
| Loaded (r : list PipelineRow + str) | ClickRow (name : str) | ClickNew | TypeName (s : str) | Enter | Escape
| ClickDelete (name : str) | TypeSource (s : str) | ClickSave | CtrlS | ClickRun | Answered (n : nat) (r : Reply).

(** A name is truthy unless it is empty. *)
Definition picked (p : Panel) : option str := match selected p with Some [] => None | s => s end.
(** The editor appears with the first render in which a pipeline is selected, and goes with the last. *)
Definition rebind (old new : Panel) : Panel :=
  let b := match picked old, picked new with
           | _, None => None
           | None, Some _ => Some (selected new, dirty new, source new)
           | Some _, Some _ => bound new
           end in
  MkPanel (pipelines new) (selected new) (source new) (dirty new) (saving new) (error new) (newName new) (creating new) b (calls new) (runs new).
Definition handle (e : Event) (p : Panel) : Panel :=
  match e with
  | Loaded r => loadList r p
  | ClickRow n => handleSelect n p
  | ClickNew => set_new (newName p) true p
  | TypeName s => if creating p then set_new s true p else p
  | Enter => if creating p then handleCreate p else p
  | Escape => if creating p then set_new [] false p else p
  | ClickDelete n => if decide (named n (pipelines p)) then handleDelete n p else p
  | TypeSource s => match picked p with Some n => set_editor (Some n) s true p | None => p end
  | ClickSave => if dirty p && negb (saving p) then handleSave (selected p) (dirty p) (source p) p else p
  | CtrlS => match bound p with Some (sel, d, src) => handleSave sel d src p | None => p end
  | ClickRun =>
    match picked p with
    | Some n => MkPanel (pipelines p) (selected p) (source p) (dirty p) (saving p) (error p) (newName p) (creating p) (bound p) (calls p) (n :: runs p)
    | None => p
    end
  | Answered k r =>
    match calls p !! k with Some c => answered c r (set_calls (delete k (calls p)) p) | None => p end
  end.
Definition panel_event (e : Event) (p : Panel) : Panel := rebind p (handle e p).
Definition run (es : list Event) : Panel := foldl (λ p e, panel_event e p) initial_panel es.
End panel.

(** * The texts *)

Definition string_terminal : Terminal :=
  let body c := RSeq (one c) (RSeq (RStar false (RSet true [Range c c])) (one c)) in MkTerminal 29 false (RAlt (body 34%N) (body 39%N)).
(** Those before the strings in the grammar. *)
Definition words_first : list Terminal :=
  let digits := RPlus false (RSet false [Range 48 57]) in
  [ MkTerminal 26 false (RSeq (RSet false [Range 95 95; Range 97 122; Range 65 90]) (RStar false (RSet false [Word; Range 45 45])));
    MkTerminal 27 false digits;
    MkTerminal 28 false (RSeq (ROpt (one 45)) (RSeq digits (ROpt (RSeq (one 46) digits)))) ].
Definition hidden_last : list Terminal := Eval vm_compute in drop 4 (terminals PipelineGrammar).
Lemma pipeline_terminals : terminals PipelineGrammar = words_first ++ string_terminal :: hidden_last.
Proof. vm_compute. reflexivity. Qed.

(** A text in quotes is one token. *)
Lemma step_quoted w rest :
  dq ∉ w → next_token (keywords PipelineGrammar) (terminals PipelineGrammar) (quoted w ++ rest) = Some (Some (TTerm 29 (quoted w)), rest).
Proof.
  intros Hw. assert (quoted w ++ rest = dq :: w ++ dq :: rest) as Eq by (unfold quoted; by rewrite <- !app_assoc).
  apply (next_text _ _ (quoted w) rest words_first string_terminal hidden_last); [| exact pipeline_terminals | | | done | done ].
  - rewrite Eq. vm_compute. reflexivity.
  - rewrite Eq. repeat (apply Forall_cons_2; [exact I|]). apply Forall_nil_2.
  - assert (match_at (RSeq (one 34) (RSeq (RStar false (RSet true [Range 34 34])) (one 34))) (dq :: w ++ dq :: rest) = Some rest) as Hm.
    { eapply match_seq; [by apply match_one|]. apply (match_seq _ _ _ (dq :: rest)); [|by apply match_one]. apply match_run; [|done].
      apply Forall_forall. intros c Hc. rewrite set_has_neg. cbn [existsb item_has]. assert (c ≠ 34%N) by (by intros ->). lia. }
    rewrite Eq. unfold match_at in *. cbn [tm_pattern string_terminal]. cbn [remainders] in *.
    match goal with |- head (?l ++ _) = _ => destruct l as [|x l']; [done|exact Hm] end.
Qed.

(** What follows the name in the text of a new pipeline. *)
Definition template_tail : str := Eval vm_compute in drop 11 (newTemplate []).
Lemma template_shape name : newTemplate name = #"pipeline " ++ quoted name ++ template_tail.
Proof. unfold newTemplate, template_tail. rewrite join_cons by done. cbn [app]. rewrite <- !app_assoc. reflexivity. Qed.
Definition template_tokens : list token := default [] (tokens PipelineGrammar template_tail).

Ltac no_terminals := repeat (apply Forall_cons_2; [exact I|]); apply Forall_nil_2.
Lemma template_read name :
  dq ∉ name → tokens PipelineGrammar (newTemplate name) = Some (TKey #"pipeline" :: TTerm 29 (quoted name) :: template_tokens).
Proof.
  intros Hn. rewrite template_shape. unfold tokens.
  eapply (tokens_shown _ _ _ _ (32%N :: quoted name ++ template_tail)).
  { change (#"pipeline " ++ ?s) with ((112%N :: #"ipeline") ++ 32%N :: s).
    rewrite (next_keyword _ _ _ #"pipeline"); [reflexivity|vm_compute; reflexivity|].
    rewrite pipeline_terminals. cbn [words_first app]. apply Forall_cons_2; [|no_terminals]. unfold too_short. cbn [tm_pattern].
    rewrite (match_word false _ false _ 112%N #"ipeline" (32%N :: quoted name ++ template_tail));
      [rewrite Nat.add_comm; reflexivity|reflexivity|by decide_closed|reflexivity]. }
  eapply tokens_skipped.
  { apply (next_hidden _ _ _ (words_first ++ [string_terminal]) (nth 0 hidden_last string_terminal) (drop 1 hidden_last)).
    - vm_compute. reflexivity.
    - exact pipeline_terminals.
    - no_terminals.
    - apply (match_word _ _ _ _ 32%N [] (quoted name ++ template_tail)); [reflexivity|constructor|reflexivity].
    - cbn [length]. lia.
    - reflexivity. }
  eapply tokens_shown; [by apply step_quoted|]. vm_compute. reflexivity.
Qed.

(** The examples are read by the grammar.  The text of a new pipeline is not, whatever its name, unless
    there is a quotation mark in it: the grammar wants the table a source is from. *)
Lemma examples_parse :
  Forall (λ e, parses PipelineGrammar (ex_source e)) EXAMPLES ∧ ∀ name, dq ∉ name → ¬ parses PipelineGrammar (newTemplate name).
Proof.
  split.
  - assert (Forall (λ e, is_phrase PipelineGrammar 400 0 (ex_source e) = Some true) EXAMPLES) as H by decide_closed.
    eapply Forall_impl; [exact H|]. intros e He. by apply (is_phrase_spec _ _ _ _ _ He).
  - intros name Hn Hp. assert (is_phrase PipelineGrammar 400 0 (newTemplate name) = Some false) as Hf.
    { unfold is_phrase. rewrite (template_read name Hn). vm_compute. reflexivity. }
    apply (is_phrase_spec _ _ _ _ _ Hf) in Hp. done.
Qed.
(** With a table it is. *)
Example with_table :
  is_phrase PipelineGrammar 400 0 (#"pipeline " ++ quoted #"p" ++ #" { source db main from t mode context llm " ++ quoted #"m"
    ++ #" step llm analyse { from main mode aggregate prompt " ++ quoted #"x" ++ #" } out editor }") = Some true.
Proof. by vm_compute. Qed.

(** * The panel *)

(** The function the editor was mounted with saw no edit: Ctrl-S does nothing, ever. *)
Definition bound_ok (p : Panel) : Prop :=
  match bound p with Some (_, d, _) => d = false ∧ picked p ≠ None | None => picked p = None end.

Section laws.
Context (localeCompare : str → str → Z).
(** What is newly picked is clean, and what stays picked keeps the mounted function. *)
Lemma handle_bound e p :
  bound (handle localeCompare e p) = bound p ∧ (picked p = None → picked (handle localeCompare e p) ≠ None → dirty (handle localeCompare e p) = false).
Proof.
  destruct e as [[r|r]|n| |s| | |n|s| | | |k r]; cbn [handle loadList]; try (by split).
  - unfold handleSelect. case_match; [case_match|]; by split.
  - destruct (creating p); by split.
  - destruct (creating p); [|by split]. unfold handleCreate. repeat case_decide; by split.
  - destruct (creating p); by split.
  - case_decide; by split.
  - destruct (picked p) as [n|] eqn:E; [|by split; [|rewrite E]]. by split.
  - destruct (dirty p && negb (saving p)); [|by split]. unfold handleSave. destruct (selected p) as [[|]|], (dirty p); by split.
  - destruct (bound p) as [[[sel d] t]|] eqn:E; [|by split; [rewrite ?E|]]. unfold handleSave. destruct sel as [[|]|], d; by split; [rewrite ?E|].
  - destruct (picked p) as [n|] eqn:E; by split; [|rewrite ?E].
  - destruct (calls p !! k) as [c|]; [|by split]. destruct c as [n t|n t|n sel], r as [|x]; cbn [answered]; try (by split).
    case_decide; by split.
Qed.
Lemma bound_event e p : bound_ok p → bound_ok (panel_event localeCompare e p).
Proof.
  intros H. destruct (handle_bound e p) as [Hb Hd]. unfold panel_event. generalize dependent (handle localeCompare e p). intros n Hb Hd.
  assert (picked (rebind p n) = picked n) as Hp by done. unfold bound_ok in *. rewrite Hp. unfold rebind. cbn [bound].
  destruct (picked p) as [y|] eqn:Ep, (picked n) as [x|] eqn:En; try done.
  - rewrite Hb. destruct (bound p) as [[[? ?] ?]|]; [|done]. split; [by destruct H|done].
  - split; [by apply Hd|done].
Qed.
Lemma run_bound es : bound_ok (run localeCompare es).
Proof.
  unfold run. assert (∀ p, bound_ok p → bound_ok (foldl (λ p e, panel_event localeCompare e p) p es)) as H; [|by apply H].
  induction es as [|e es IH]; intros p Hp; [done|]. apply IH. by apply bound_event.
Qed.
Lemma ctrl_s_silent es : panel_event localeCompare CtrlS (run localeCompare es) = run localeCompare es.
Proof.
  pose proof (run_bound es) as H. destruct (run localeCompare es) as [l s t d sv er nn cr b cs rs]. unfold panel_event, handle, bound_ok in *.
  cbn [bound] in *. destruct b as [[[sel d'] t']|].
  - destruct H as [-> Hp]. assert (∀ p, handleSave sel false t' p = p) as -> by (intros p; unfold handleSave; by destruct sel as [[|]|]).
    unfold rebind. by destruct (picked _).
  - unfold rebind. by rewrite H.
Qed.

(** ** Answers at once

    The stored rows change as the service documents: a save writes the row of its
    name or adds one, a deletion removes it, a refusal changes nothing.  [quiet_step] is an
    event whose call, if it makes one, is answered before the next. *)
Definition apply_call (c : Call) (l : list PipelineRow) : list PipelineRow :=
  match c with
  | SaveCall n src | CreateCall n src => if decide (named n l) then replace_source n src l else l ++ [MkRow n src]
  | DeleteCall n _ => filter (λ r, row_name r ≠ n) l
  end.
Record World := MkWorld { panel : Panel; stored : list PipelineRow }.
Definition quiet_step (w : World) (x : Event * Reply) : World :=
  let p := panel_event localeCompare x.1 (panel w) in
  match calls p with
  | [] => MkWorld p (stored w)
  | c :: _ =>
    MkWorld (panel_event localeCompare (Answered 0 x.2) p)
      (match x.2 with Done => apply_call c (stored w) | Refused _ => stored w end)
  end.
(** The list is loaded once, before anything else; answers come with [quiet_step]. *)
Definition users (x : Event * Reply) : Prop := match x.1 with Loaded _ | Answered _ _ => False | _ => True end.

(** The list is the stored rows, a clean editor the stored source of the selected one. *)
Record agree (p : Panel) (l : list PipelineRow) : Prop := MkAgree {
  agree_list : pipelines p ≡ₚ l;
  agree_names : NoDup (row_name <$> l);
  agree_selected n : selected p = Some n → named n l ∧ (dirty p = false → MkRow n (source p) ∈ l);
  agree_idle : selected p = None → dirty p = false }.
Lemma agree_same p p' l :
  agree p l → pipelines p' = pipelines p → selected p' = selected p → source p' = source p → dirty p' = dirty p → agree p' l.
Proof. intros [] E1 E2 E3 E4. split; rewrite ?E1, ?E2, ?E3, ?E4; done. Qed.

Lemma replace_names n src l : row_name <$> replace_source n src l = row_name <$> l.
Proof. unfold replace_source. rewrite <-list_fmap_compose. apply list_fmap_ext. intros i r _. cbn. by case_decide. Qed.
Lemma replace_has n src l : named n l → MkRow n src ∈ replace_source n src l.
Proof.
  intros (r & -> & Hr)%list_elem_of_fmap. apply list_elem_of_fmap. exists r. split; [by rewrite decide_True|done].
Qed.
Lemma named_perm n l l' : l ≡ₚ l' → named n l ↔ named n l'.
Proof. intros E. unfold named. by rewrite E. Qed.
Lemma named_row r l : r ∈ l → named (row_name r) l.
Proof. intros H. apply list_elem_of_fmap. by exists r. Qed.

(** The call was made by a panel as it is now. *)
Definition fits (c : Call) (p : Panel) (l : list PipelineRow) : Prop :=
  match c with
  | SaveCall n src => selected p = Some n ∧ source p = src
  | CreateCall n _ => ¬ named n l
  | DeleteCall _ sel => sel = selected p
  end.
Lemma save_agree n src p l : agree p l → fits (SaveCall n src) p l →
  agree (answered localeCompare (SaveCall n src) Done p) (apply_call (SaveCall n src) l).
Proof.
  intros [Hl Hn Hs Hi] [Es <-]. destruct (Hs n Es) as [Hnl _]. cbn [answered apply_call]. rewrite decide_True by done.
  split; cbn [mark_saving set_error set_editor set_list pipelines selected source dirty].
  - unfold replace_source. by rewrite Hl.
  - by rewrite replace_names.
  - intros m Em. rewrite Es in Em. apply Some_inj in Em as <-. split; [unfold named; by rewrite replace_names|]. intros _. by apply replace_has.
  - done.
Qed.
Lemma create_agree n src p l : agree p l → fits (CreateCall n src) p l →
  agree (answered localeCompare (CreateCall n src) Done p) (apply_call (CreateCall n src) l).
Proof.
  intros [Hl Hn Hs Hi] Hnl. cbn [fits answered apply_call] in *. rewrite decide_False by done.
  split; cbn [set_new set_error set_editor set_list pipelines selected source dirty].
  - by rewrite Console.js_sort_perm, Hl.
  - rewrite fmap_app. apply NoDup_app. split_and!; [done| |by apply NoDup_singleton].
    intros x Hx Hx'. apply Hnl. cbn in Hx'. by apply list_elem_of_singleton in Hx' as ->.
  - intros m Em. apply Some_inj in Em as <-. assert (MkRow n src ∈ l ++ [MkRow n src]) as H by (apply elem_of_app; right; by left).
    split; [exact (named_row _ _ H)|done].
  - done.
Qed.
Lemma delete_agree n sel p l : agree p l → fits (DeleteCall n sel) p l →
  agree (answered localeCompare (DeleteCall n sel) Done p) (apply_call (DeleteCall n sel) l).
Proof.
  intros [Hl Hn Hs Hi] Esel. cbn [fits answered apply_call] in *. subst sel.
  assert (filter (λ r, row_name r ≠ n) (pipelines p) ≡ₚ filter (λ r, row_name r ≠ n) l) as Hf by (by rewrite Hl).
  assert (NoDup (row_name <$> filter (λ r, row_name r ≠ n) l)) as Hnd by (by apply NoDup_fmap_filter).
  case_decide as E; split; cbn [set_editor set_list pipelines selected source dirty]; [exact Hf|exact Hnd|done|done|exact Hf|exact Hnd| |exact Hi].
  intros m Em. assert (m ≠ n) as Hmn by (intros ->; by rewrite Em in E). destruct (Hs m Em) as [Hm Hc]. split.
  - apply list_elem_of_fmap in Hm as (r & -> & Hr). apply named_row, list_elem_of_filter. by split.
  - intros Hd. apply list_elem_of_filter. split; [done|by apply Hc].
Qed.
Lemma answer_agree c r p l :
  agree p l → fits c p l → agree (answered localeCompare c r p) (match r with Done => apply_call c l | Refused _ => l end).
Proof.
  intros Ha Hf. destruct r as [|e].
  - destruct c; [by apply save_agree|by apply create_agree|by apply delete_agree].
  - destruct c; by apply (agree_same p).
Qed.

Record in_step (w : World) : Prop := MkInStep {
  step_calls : calls (panel w) = [];
  step_saving : saving (panel w) = false;
  step_agree : agree (panel w) (stored w);
  step_bound : bound_ok (panel w) }.
Definition saves (c : Call) : bool := match c with SaveCall _ _ => true | _ => false end.

(** A user's event makes no call or one of its own. *)
Definition silent (p : Panel) (l : list PipelineRow) : Prop := calls p = [] ∧ saving p = false ∧ agree p l.
Definition calling (p : Panel) (l : list PipelineRow) : Prop := ∃ c, calls p = [c] ∧ saving p = saves c ∧ agree p l ∧ fits c p l.
Lemma user_event e p l :
  users (e, Done) → calls p = [] → saving p = false → agree p l → bound_ok p →
  silent (handle localeCompare e p) l ∨ calling (handle localeCompare e p) l.
Proof.
  intros Hu Hc Hs Ha Hb. assert (silent p l) as Hp by done. pose proof Ha as [Hl Hn Hsel Hi].
  destruct e as [r|n| |s| | |n|s| | | |k r]; cbn [handle]; try done.
  - left. unfold handleSelect. destruct (list_find _ _) as [[i row]|] eqn:E; [|done].
    apply list_find_Some in E as (Hr & <- & _). apply list_elem_of_lookup_2 in Hr. rewrite Hl in Hr.
    split_and!; [done|done|]. split; [done|done| |done]. intros m Em. apply Some_inj in Em as <-. cbn [set_error set_editor source].
    split; [by apply named_row|]. intros _. by destruct row.
  - left. by destruct Hp.
  - left. by destruct (creating p).
  - destruct (creating p); [|by left]. unfold handleCreate. cbv zeta. case_decide; [by left|]. case_decide as Hnm; [left; by destruct Hp|].
    right. eexists. split; [cbn [send calls]; by rewrite Hc|]. split; [done|]. split; [done|]. cbn [fits]. by rewrite <-(named_perm _ _ _ Hl).
  - left. by destruct (creating p).
  - case_decide; [|by left]. right. eexists. split; [cbn [handleDelete send calls]; by rewrite Hc|]. done.
  - left. destruct (picked p) as [n|] eqn:E; [|done]. assert (selected p = Some n) as Es.
    { unfold picked in E. destruct (selected p) as [[|]|]; congruence. }
    split_and!; [done|done|]. split; [done|done| |done]. intros m Em. apply Some_inj in Em as <-. split; [by apply Hsel|done].
  - destruct (dirty p) eqn:Ed; [|by left]. rewrite Hs. cbn [andb negb]. unfold handleSave.
    destruct (selected p) as [[|c n]|] eqn:Es; [by left| |by left]. right. eexists.
    split; [cbn [send mark_saving calls]; by rewrite Hc|]. split; [done|]. split; [|done].
    apply (agree_same p); [done|done|cbn; congruence|done|cbn; congruence].
  - left. unfold bound_ok in Hb. destruct (bound p) as [[[sel d] t]|]; [|done]. destruct Hb as [-> _].
    unfold handleSave. by destruct sel as [[|]|].
  - left. by destruct (picked p).
Qed.

Lemma quiet_in_step w x : users x → in_step w → in_step (quiet_step w x).
Proof.
  intros Hu [Hc Hs Ha Hb]. destruct x as [e r]. assert (users (e, Done)) as Hu' by done.
  pose proof (bound_event e (panel w) Hb) as Hb'. unfold quiet_step. cbn [fst snd].
  destruct (user_event e (panel w) (stored w) Hu' Hc Hs Ha Hb) as [(Hc' & Hs' & Ha')|(c & Hc' & Hs' & Ha' & Hf)].
  - assert (calls (panel_event localeCompare e (panel w)) = []) as -> by exact Hc'. split; [exact Hc'|exact Hs'|by apply (agree_same _ _ _ Ha')|exact Hb'].
  - assert (calls (panel_event localeCompare e (panel w)) = [c]) as Hc1 by exact Hc'. rewrite Hc1.
    set (p1 := panel_event localeCompare e (panel w)) in *.
    assert (panel_event localeCompare (Answered 0 r) p1 = rebind p1 (answered localeCompare c r (set_calls [] p1))) as E1.
    { unfold panel_event at 1. cbn [handle]. by rewrite Hc1. }
    assert (agree (answered localeCompare c r (set_calls [] p1)) (match r with Done => apply_call c (stored w) | Refused _ => stored w end)) as Ha2.
    { apply answer_agree; [by apply (agree_same _ _ _ Ha')|]. by destruct c. }
    split; cbn [panel stored].
    + rewrite E1. cbn [rebind calls]. destruct c, r; try done. cbn [answered]. by case_decide.
    + rewrite E1. cbn [rebind saving]. assert (saving p1 = saves c) as Hs1 by exact Hs'.
      destruct c, r; try done; try exact Hs1. cbn [answered]. case_decide; exact Hs1.
    + rewrite E1. by apply (agree_same _ _ _ Ha2).
    + by apply bound_event.
Qed.

(** With a list of distinct names loaded first and every call answered at once, no call stays out, the list is always
    what is stored, in some order, under distinct names, and an editor without unsaved text shows the stored source. *)
Lemma list_kept rows xs :
  NoDup (row_name <$> rows) → Forall users xs →
  let w := foldl quiet_step (MkWorld (panel_event localeCompare (Loaded (inl rows)) initial_panel) rows) xs in
  calls (panel w) = [] ∧ saving (panel w) = false ∧ pipelines (panel w) ≡ₚ stored w ∧ NoDup (row_name <$> stored w)
  ∧ ∀ n, selected (panel w) = Some n → named n (stored w) ∧ (dirty (panel w) = false → MkRow n (source (panel w)) ∈ stored w).
Proof.
  intros Hn Hx w. assert (in_step w) as [Hc Hs [Hl Hnd Hsel _] _]; [|by split_and!].
  subst w. assert (∀ w, in_step w → in_step (foldl quiet_step w xs)) as H.
  { induction Hx as [|x xs Hu _ IH]; intros w Hw; [done|]. apply IH. by apply quiet_in_step. }
  apply H. by split.
Qed.
End laws.

(** * Cases *)

Definition units_compare (a b : str) : Z := if decide (a = b) then 0%Z else 1%Z.
Definition two : list PipelineRow := [MkRow #"a" #"1"; MkRow #"b" #"2"].
Definition loaded : list Event := [Loaded (inl two)].
(** What is typed while a save is out counts as saved. *)
Example edited_while_saving :
  let p := run units_compare (loaded ++ [ClickRow #"a"; TypeSource #"x"; ClickSave; TypeSource #"y"; Answered 0 Done]) in
  (source p, dirty p, pipelines p) = (#"y", false, [MkRow #"a" #"x"; MkRow #"b" #"2"]).
Proof. by vm_compute. Qed.
(** So does the text of another pipeline that is selected and edited meanwhile. *)
Example other_selected :
  let p := run units_compare (loaded ++ [ClickRow #"a"; TypeSource #"x"; ClickSave; ClickRow #"b"; TypeSource #"y"; Answered 0 Done]) in
  (selected p, source p, dirty p) = (Some #"b", #"y", false).
Proof. by vm_compute. Qed.
(** Enter twice creates the row twice. *)
Example created_twice :
  row_name <$> pipelines (run units_compare [ClickNew; TypeName #"c"; Enter; Enter; Answered 0 Done; Answered 0 Done]) = [ #"c"; #"c"].
Proof. by vm_compute. Qed.
(** A pipeline selected while its deletion is out stays in the editor; saved, it is stored again but not listed. *)
Example deleted_selected :
  let p := run units_compare (loaded ++ [ClickDelete #"a"; ClickRow #"a"; Answered 0 Done; TypeSource #"x"; ClickSave]) in
  (selected p, pipelines p, calls p) = (Some #"a", [MkRow #"b" #"2"], [SaveCall #"a" #"x"]).
Proof. by vm_compute. Qed.
(** Selecting another row drops unsaved text without a question; a run takes the stored text. *)
Example unsaved_dropped :
  let p := run units_compare (loaded ++ [ClickRow #"a"; TypeSource #"x"; ClickRun; ClickRow #"b"; ClickRow #"a"]) in
  (source p, runs p) = (#"1", [ #"a"]).
Proof. by vm_compute. Qed.
