(* ===== verification/StreamManager.v ===== *)
(** The stream manager, apps/oos/src/mainview/components/StreamManagerPanel.tsx:
    the mappings, the streams of the chosen one, creation and deletion, over
    [openStreamDetail] of the tab workspace.

    A call that is out keeps the mapping it was made for.  The list of streams is one
    component for all mappings: [manager_current] says what it shows when every call is answered before
    the next event, [other_mapping] what a click does on a list that is not. *)

From S2P Require Export Tabs.

#[local] Set Warnings "-register-all".

Record Mapping := MkMapping { mapping_id : Z; mapping_name : str; source_table : str; enabled : bool }.
Record StreamRow := MkStreamRow { stream : str; description : str; row_mapping : option str; row_tag : option str }.

#[export] Instance mapping_eq_dec : EqDecision Mapping.
Proof. solve_decision. Defined.
#[export] Instance stream_row_eq_dec : EqDecision StreamRow.
Proof. solve_decision. Defined.

(** [load] of a deletion is awaited before [deleting] ends. *)
Inductive Call :=
| LoadCall (mapping : str) (of_deletion : bool)
| DeleteCall (mapping stream : str)
| CreateCall (mapping stream description : str) (event_mapping_id : Z) (tag : option str)
| TagsCall (mapping : str).
(** The answers: rows, tags, success, or an error with its text if it has one. *)
Inductive Reply := RowsReply (rows : list StreamRow) | TagsReply (tags : list str) | Done | Failed (error : option str).

Record Modal := MkModal {
  m_stream : str; m_description : str; m_tag : option str; m_tags : list str; m_saving : bool; m_error : option str }.
Record Panel := MkPanel {
  mappings : list Mapping; active : option Mapping;
  streams : list StreamRow; loading : bool; error : option str; newOpen : bool; deleteTarget : option str; deleting : bool;
  modal : Modal; calls : list Call;
  tabs : list (str * str * str) }.          (** what [openStreamDetail] was called with, the latest first *)

Definition blank : Modal := MkModal [] [] None [] false None.
Definition initial_panel : Panel := MkPanel [] None [] false None false None false blank [] [].
Definition set_active (m : option Mapping) (p : Panel) : Panel :=
  MkPanel (mappings p) m (streams p) (loading p) (error p) (newOpen p) (deleteTarget p) (deleting p) (modal p) (calls p) (tabs p).
Definition set_streams (l : list StreamRow) (ld : bool) (e : option str) (p : Panel) : Panel :=
  MkPanel (mappings p) (active p) l ld e (newOpen p) (deleteTarget p) (deleting p) (modal p) (calls p) (tabs p).
Definition set_deletion (t : option str) (d : bool) (p : Panel) : Panel :=
  MkPanel (mappings p) (active p) (streams p) (loading p) (error p) (newOpen p) t d (modal p) (calls p) (tabs p).
Definition set_modal (o : bool) (m : Modal) (p : Panel) : Panel :=
  MkPanel (mappings p) (active p) (streams p) (loading p) (error p) o (deleteTarget p) (deleting p) m (calls p) (tabs p).
Definition set_calls (cs : list Call) (p : Panel) : Panel :=
  MkPanel (mappings p) (active p) (streams p) (loading p) (error p) (newOpen p) (deleteTarget p) (deleting p) (modal p) cs (tabs p).
Definition send (c : Call) (p : Panel) : Panel := set_calls (calls p ++ [c]) p.
Definition shows (p : Panel) : option str := mapping_name <$> active p.

(** [load] before its [await], in the render of a mapping. *)
Definition load (mapping : str) (of_deletion : bool) (p : Panel) : Panel :=
  send (LoadCall mapping of_deletion) (set_streams (streams p) true None p).
(** [setActiveMapping], and the effect on its name. *)
Definition activate_mapping (m : Mapping) (p : Panel) : Panel :=
  let p' := set_active (Some m) p in
  if decide (shows p = Some (mapping_name m)) then p'
  else
    let p' := load (mapping_name m) false p' in
    if newOpen p && negb (bool_decide (mapping_name m = [])) then send (TagsCall (mapping_name m)) p' else p'.
(** The rows that came, of those enabled; the first is chosen, as none was. *)
Definition mappings_loaded (l : list Mapping) (p : Panel) : Panel :=
  let list := filter (λ m, enabled m = true) l in
  let p' := MkPanel list (active p) (streams p) (loading p) (error p) (newOpen p) (deleteTarget p) (deleting p) (modal p) (calls p) (tabs p) in
  match list with m :: _ => activate_mapping m p' | [] => p' end.

Definition handleEdit (s : StreamRow) (p : Panel) : Panel :=
  match active p with
  | Some m =>
    MkPanel (mappings p) (active p) (streams p) (loading p) (error p) (newOpen p) (deleteTarget p) (deleting p) (modal p) (calls p)
      ((mapping_name m, source_table m, stream s) :: tabs p)
  | None => p
  end.
Definition handleDelete (s : str) (p : Panel) : Panel :=
  match active p with
  | Some m => send (DeleteCall (mapping_name m) s) (set_streams (streams p) (loading p) None (set_deletion (deleteTarget p) true p))
  | None => p
  end.
Definition reset (m : Modal) : Modal := MkModal [] [] None (m_tags m) (m_saving m) None.
Definition handleSubmit (p : Panel) : Panel :=
  let m := modal p in
  match active p with
  | Some a =>
    if decide (trim (m_stream m) = []) then p
    else send (CreateCall (mapping_name a) (trim (m_stream m)) (trim (m_description m)) (mapping_id a) (m_tag m))
           (set_modal (newOpen p) (MkModal (m_stream m) (m_description m) (m_tag m) (m_tags m) true None) p)
  | None => p
  end.
Definition with_saving (b : bool) (e : option str) (m : Modal) : Modal :=
  MkModal (m_stream m) (m_description m) (m_tag m) (m_tags m) b e.

(** What follows the [await]s. *)
Definition answered (c : Call) (r : Reply) (p : Panel) : Panel :=
  match c, r with
  | LoadCall m d, RowsReply rows =>
    let p := set_streams (filter (λ s, row_mapping s = Some m) rows) false (error p) p in
    if d then set_deletion (deleteTarget p) false p else p
  | LoadCall _ d, Failed e =>
    let p := set_streams (streams p) false e p in if d then set_deletion (deleteTarget p) false p else p
  | DeleteCall m _, Done => load m true (set_deletion None (deleting p) p)
  | DeleteCall _ _, Failed e => set_deletion (deleteTarget p) false (set_streams (streams p) (loading p) (Some (default #"delete failed" e)) p)
  | CreateCall m _ _ _ _, Done => load m false (set_modal false (with_saving false None (reset (modal p))) p)
  | CreateCall _ _ _ _ _, Failed e => set_modal (newOpen p) (with_saving false (Some (default #"create failed" e)) (modal p)) p
  | TagsCall _, TagsReply ts => set_modal (newOpen p) (MkModal (m_stream (modal p)) (m_description (modal p)) (m_tag (modal p)) ts (m_saving (modal p)) (m_error (modal p))) p
  | _, _ => p
  end.

Inductive Event :=
| MappingsLoaded (l : list Mapping) | ClickMapping (m : Mapping) | Refresh | ClickRow (s : StreamRow) | MenuDelete (s : StreamRow)
| CancelDelete | ConfirmDelete | OpenNew | CloseNew | TypeStream (s : str) | TypeDescription (s : str) | PickTag (t : option str)
| Enter | ClickCreate | DismissError | Answered (n : nat) (r : Reply).
Definition edit_modal (f : Modal → Modal) (p : Panel) : Panel := if newOpen p then set_modal true (f (modal p)) p else p.
(** Clicks on rows that are shown; a dialog that is open takes the other clicks. *)
Definition panel_event (e : Event) (p : Panel) : Panel :=
  match e with
  | MappingsLoaded l => match active p with None => mappings_loaded l p | Some _ => p end
  | ClickMapping m => if decide (m ∈ mappings p) then activate_mapping m p else p
  | Refresh => match active p with Some m => if loading p then p else load (mapping_name m) false p | None => p end
  | ClickRow s => if decide (s ∈ streams p) then handleEdit s p else p
  | MenuDelete s => if decide (s ∈ streams p) then set_deletion (Some (stream s)) (deleting p) p else p
  | CancelDelete => set_deletion None (deleting p) p
  | ConfirmDelete => match deleteTarget p with Some ((_ :: _) as s) => if deleting p then p else handleDelete s p | _ => p end
  | OpenNew =>
    match active p with
    | Some m =>
      let p' := set_modal true (modal p) p in
      if newOpen p || bool_decide (mapping_name m = []) then p' else send (TagsCall (mapping_name m)) p'
    | None => p
    end
  | CloseNew => set_modal false (reset (modal p)) p
  | TypeStream s => edit_modal (λ m, MkModal s (m_description m) (m_tag m) (m_tags m) (m_saving m) (m_error m)) p
  | TypeDescription s => edit_modal (λ m, MkModal (m_stream m) s (m_tag m) (m_tags m) (m_saving m) (m_error m)) p
  | PickTag t => edit_modal (λ m, MkModal (m_stream m) (m_description m) t (m_tags m) (m_saving m) (m_error m)) p
  | Enter => if newOpen p then handleSubmit p else p
  | ClickCreate => if newOpen p && negb (m_saving (modal p)) then handleSubmit p else p
  | DismissError => set_streams (streams p) (loading p) None p
  | Answered k r => match calls p !! k with Some c => answered c r (set_calls (delete k (calls p)) p) | None => p end
  end.
Definition run (es : list Event) (p : Panel) : Panel := foldl (λ p e, panel_event e p) p es.

(** * Answers at once

    [stored] are the rows of the service: a load brings them, a success leaves others, given
    with the event.  [settle] answers what is out, the oldest call first, until nothing is. *)

Record World := MkWorld { panel : Panel; stored : list StreamRow }.
Definition call_mapping (c : Call) : str :=
  match c with LoadCall m _ | DeleteCall m _ | CreateCall m _ _ _ _ | TagsCall m => m end.
(** The answer to a call, and the rows after it. *)
Definition served (o : option (list StreamRow)) (c : Call) (st : list StreamRow) : Reply * list StreamRow :=
  match c with
  | LoadCall _ _ => (RowsReply st, st)
  | TagsCall _ => (TagsReply [], st)
  | _ => match o with Some st' => (Done, st') | None => (Failed None, st) end
  end.
Fixpoint settle (fuel : nat) (o : option (list StreamRow)) (w : World) : World :=
  match fuel, calls (panel w) with
  | S fuel, c :: _ => let '(r, st) := served o c (stored w) in settle fuel o (MkWorld (panel_event (Answered 0 r) (panel w)) st)
  | _, _ => w
  end.
Definition quiet_step (w : World) (x : Event * option (list StreamRow)) : World :=
  settle 3 x.2 (MkWorld (panel_event x.1 (panel w)) (stored w)).
Definition users (x : Event * option (list StreamRow)) : Prop := match x.1 with Answered _ _ => False | _ => True end.

(** The list shown is that of the active mapping. *)
Definition of_mapping (n : str) (l : list StreamRow) : list StreamRow := filter (λ s, row_mapping s = Some n) l.
Definition fresh (p : Panel) (st : list StreamRow) : Prop := ∀ n, shows p = Some n → streams p = of_mapping n st.
(** Tabs are opened for a mapping of the list, with its table. *)
Definition tabs_ok (p : Panel) : Prop :=
  (∀ m, active p = Some m → m ∈ mappings p) ∧ (active p = None → tabs p = []) ∧ Forall (λ t, ∃ m, m ∈ mappings p ∧ t.1 = (mapping_name m, source_table m)) (tabs p).

(** Every call is for the active mapping, and the list is current or a load is out. *)
Definition due (p : Panel) : Prop := ∃ m d, LoadCall m d ∈ calls p.
Definition coming (p : Panel) (st : list StreamRow) : Prop :=
  Forall (λ c, shows p = Some (call_mapping c)) (calls p) ∧ (due p ∨ fresh p st).
Definition weight (cs : list Call) : nat := sum_list_with (λ c, match c with LoadCall _ _ | TagsCall _ => 1 | _ => 2 end) cs.

Lemma weight_app cs cs' : weight (cs ++ cs') = weight cs + weight cs'.
Proof. apply sum_list_with_app. Qed.

(** What an answer leaves of it: no field the claims read changes but the calls and the list. *)
Lemma coming_loading m d p cs st :
  calls p = cs ++ [LoadCall m d] → Forall (λ c, shows p = Some (call_mapping c)) cs → shows p = Some m → coming p st.
Proof.
  intros Hc Hcs Hm. split; [rewrite Hc; apply Forall_app_2; [done|by apply Forall_singleton]|].
  left. exists m, d. rewrite Hc. apply elem_of_app. right. by left.
Qed.
Lemma coming_rest c p p' cs st :
  (∀ m d, c ≠ LoadCall m d) → calls p = c :: cs → coming p st → shows p' = shows p → streams p' = streams p → calls p' = cs → coming p' st.
Proof.
  intros Hnl Hc [Hf Hd] Es Est Hc'. rewrite Hc in Hf. apply Forall_cons in Hf as [_ Hf]. split; [rewrite Hc'; by rewrite Es|].
  destruct Hd as [(m & d & Hin)|Hfr]; [left|right].
  - rewrite Hc in Hin. apply elem_of_cons in Hin as [E|Hin]; [by destruct (Hnl m d)|]. exists m, d. by rewrite Hc'.
  - intros n Hn. rewrite Est. apply Hfr. by rewrite <-Es.
Qed.

Lemma answer_step o c cs p st :
  calls p = c :: cs → coming p st → tabs_ok p →
  let p' := panel_event (Answered 0 (served o c st).1) p in
  coming p' (served o c st).2 ∧ tabs_ok p' ∧ weight (calls p') < weight (calls p).
Proof.
  intros Hc Hcom Ht p'. assert (p' = answered c (served o c st).1 (set_calls cs p)) as Ep'.
  { subst p'. cbn [panel_event]. by rewrite Hc. }
  rewrite Ep', Hc. clear Ep' p'. replace (weight (c :: cs)) with (weight [c] + weight cs) by (by rewrite <-weight_app).
  pose proof Hcom as [Hf _]. rewrite Hc in Hf. apply Forall_cons in Hf as [Hm Hf].
  destruct c as [m d|m s|m s ds i tg|m].
  - cbn [served fst snd answered]. split_and!; [|by destruct d|by destruct d; apply Nat.lt_succ_diag_r].
    split; [by destruct d|]. right. intros n Hn. assert (Some n = Some m) as [= ->] by (etrans; [symmetry; exact Hn|]; etrans; [|exact Hm]; by destruct d).
    by destruct d.
  - destruct o as [st'|]; cbn [served fst snd answered].
    + split_and!; [by apply (coming_loading m true _ cs)|done|]. cbn [load send set_calls calls set_streams set_deletion]. rewrite weight_app, Nat.add_comm. by apply Nat.add_lt_mono_r, Nat.lt_succ_diag_r.
    + split_and!; [by apply (coming_rest (DeleteCall m s) p _ cs)|done|apply Nat.lt_add_pos_l, Nat.lt_0_succ].
  - destruct o as [st'|]; cbn [served fst snd answered].
    + split_and!; [by apply (coming_loading m false _ cs)|done|]. cbn [load send set_calls calls set_streams set_modal]. rewrite weight_app, Nat.add_comm. by apply Nat.add_lt_mono_r, Nat.lt_succ_diag_r.
    + split_and!; [by apply (coming_rest (CreateCall m s ds i tg) p _ cs)|done|apply Nat.lt_add_pos_l, Nat.lt_0_succ].
  - cbn [served fst snd answered]. split_and!; [by apply (coming_rest (TagsCall m) p _ cs)|done|apply Nat.lt_add_pos_l, Nat.lt_0_succ].
Qed.
Lemma settle_done n o w :
  weight (calls (panel w)) ≤ n → coming (panel w) (stored w) → tabs_ok (panel w) →
  let w' := settle n o w in calls (panel w') = [] ∧ fresh (panel w') (stored w') ∧ tabs_ok (panel w').
Proof.
  revert w. induction n as [|n IH]; intros w Hw Hc Ht.
  - destruct (calls (panel w)) as [|c cs] eqn:E; [|destruct c; cbn in Hw; lia]. cbn [settle]. split_and!; [done| |done].
    destruct Hc as [_ [(m & d & H)|H]]; [|done]. rewrite E in H. by apply elem_of_nil in H.
  - cbn [settle]. destruct (calls (panel w)) as [|c cs] eqn:E.
    + split_and!; [done| |done]. destruct Hc as [_ [(m & d & H)|H]]; [|done]. rewrite E in H. by apply elem_of_nil in H.
    + destruct (answer_step o c cs (panel w) (stored w) E Hc Ht) as (H1 & H2 & H3). destruct (served o c (stored w)) as [r st].
      cbn [fst snd] in *. apply IH; [cbn [panel stored]; rewrite E in H3; lia|done|done].
Qed.

(** A user's event: the list stays that of the mapping, or a load is on its way. *)
Lemma coming_kept p p' st :
  fresh p st → shows p' = shows p → streams p' = streams p → Forall (λ c, shows p' = Some (call_mapping c)) (calls p') → coming p' st.
Proof. intros Hf Es Est Hc. split; [done|]. right. intros n Hn. rewrite Est. apply Hf. by rewrite <-Es. Qed.
Lemma activate_step m p st :
  calls p = [] → fresh p st → m ∈ mappings p → tabs_ok p →
  let p' := activate_mapping m p in coming p' st ∧ tabs_ok p' ∧ weight (calls p') ≤ 3.
Proof.
  intros Hc Hf Hm (Hact & Hnone & Ht) p'. subst p'. unfold activate_mapping. cbv zeta.
  assert (∀ p', active p' = Some m → mappings p' = mappings p → tabs p' = tabs p → tabs_ok p') as Htabs.
  { intros p' Ea Em Et. split; [intros x Hx; rewrite Ea in Hx; apply Some_inj in Hx as <-; by rewrite Em|].
    split; [by rewrite Ea|by rewrite Em, Et]. }
  case_decide as E.
  - split_and!; [|by apply Htabs|cbn [set_active calls]; rewrite Hc; apply Nat.le_0_l].
    apply (coming_kept p); [done|by rewrite E|done|]. cbn [set_active calls]. rewrite Hc. by apply Forall_nil.
  - destruct (newOpen p && _).
    + split_and!; [|by apply Htabs|cbn [load send set_streams set_active set_calls calls]; rewrite Hc; by repeat constructor].
      split.
      * cbn [load send set_streams set_active set_calls calls]. rewrite Hc. by repeat apply Forall_cons_2; [..|apply Forall_nil].
      * left. exists (mapping_name m), false. cbn [load send set_streams set_active set_calls calls]. rewrite Hc. by left.
    + split_and!; [|by apply Htabs|cbn [load send set_streams set_active set_calls calls]; rewrite Hc; by repeat constructor].
      apply (coming_loading (mapping_name m) false _ []); [cbn [load send set_streams set_active set_calls calls]; by rewrite Hc|by apply Forall_nil|done].
Qed.
Lemma submit_step p st :
  calls p = [] → fresh p st → tabs_ok p →
  let p' := handleSubmit p in coming p' st ∧ tabs_ok p' ∧ weight (calls p') ≤ 3.
Proof.
  intros Hc Hf Ht. cbv zeta. unfold handleSubmit. cbv zeta.
  assert (coming p st ∧ tabs_ok p ∧ weight (calls p) ≤ 3) as Hp.
  { split_and!; [|done|rewrite Hc; apply Nat.le_0_l]. apply (coming_kept p); [done..|]. rewrite Hc. by apply Forall_nil. }
  destruct (active p) as [m|] eqn:Ea; [|exact Hp]. case_decide; [exact Hp|].
  split_and!; [|done|cbn [send set_modal set_calls calls]; rewrite Hc; by repeat constructor].
  apply (coming_kept p); [done|done|done|]. cbn [send set_modal set_calls calls]. rewrite Hc.
  apply Forall_singleton. unfold shows. cbn [active set_calls set_modal send]. by rewrite Ea.
Qed.
Lemma user_step e p st :
  (∀ k r, e ≠ Answered k r) → calls p = [] → fresh p st → tabs_ok p →
  let p' := panel_event e p in coming p' st ∧ tabs_ok p' ∧ weight (calls p') ≤ 3.
Proof.
  intros He Hc Hf Ht. cbv zeta.
  assert (coming p st ∧ tabs_ok p ∧ weight (calls p) ≤ 3) as Hp.
  { split_and!; [|done|rewrite Hc; apply Nat.le_0_l]. apply (coming_kept p); [done..|]. rewrite Hc. by apply Forall_nil. }
  destruct e as [l|m| |s|s| | | | |s|s|t| | | |k r]; cbn [panel_event]; try exact Hp; try by destruct (He k r).
  - destruct (active p) as [a|] eqn:Ea; [exact Hp|]. unfold mappings_loaded. cbv zeta. destruct Ht as (_ & Hnone & _).
    destruct (filter _ l) as [|m l'] eqn:El.
    + split_and!; [|split_and!; cbn; [by rewrite Ea|done|by rewrite Hnone]|cbn [calls]; rewrite Hc; apply Nat.le_0_l].
      apply (coming_kept p); [done..|]. cbn [calls]. rewrite Hc. by apply Forall_nil.
    + apply activate_step; [done|done|by left|]. split_and!; cbn [active tabs mappings]; [by rewrite Ea|done|by rewrite Hnone].
  - case_decide as Hm; [|exact Hp]. by apply activate_step.
  - destruct (active p) as [m|] eqn:Ea; [|exact Hp]. destruct (loading p); [exact Hp|].
    split_and!; [|done|cbn [load send set_streams set_calls calls]; rewrite Hc; by repeat constructor].
    apply (coming_loading (mapping_name m) false _ []); [cbn [load send set_streams set_calls calls]; by rewrite Hc|by apply Forall_nil|].
    unfold shows. cbn [load send set_streams set_calls active]. by rewrite Ea.
  - case_decide as Hs; [|exact Hp]. unfold handleEdit. destruct (active p) as [m|] eqn:Ea; [|exact Hp]. destruct Hp as (Hp1 & _ & Hp3).
    split_and!; [| |exact Hp3].
    + apply (coming_kept p); [done|unfold shows; cbn [active]; by rewrite Ea|done|]. cbn [calls]. rewrite Hc. by apply Forall_nil.
    + destruct Ht as (Hact & _ & Ht). split_and!; cbn [active mappings tabs]; [by intros x [= <-]; apply Hact|done|].
      apply Forall_cons_2; [|done]. exists m. split; [by apply Hact|done].
  - case_decide; exact Hp.
  - destruct (deleteTarget p) as [[|c t]|]; [exact Hp| |exact Hp]. destruct (deleting p); [exact Hp|]. unfold handleDelete.
    destruct (active p) as [m|] eqn:Ea; [|exact Hp]. split_and!; [|done|cbn [send set_streams set_calls set_deletion calls]; rewrite Hc; by repeat constructor].
    apply (coming_kept p); [done|done|done|]. cbn [send set_streams set_calls set_deletion calls]. rewrite Hc.
    apply Forall_singleton. unfold shows. cbn [active set_calls set_streams set_deletion send]. by rewrite Ea.
  - destruct (active p) as [m|] eqn:Ea; [|exact Hp]. destruct (newOpen p || _); [exact Hp|].
    split_and!; [|done|cbn [send set_modal set_calls calls]; rewrite Hc; by repeat constructor].
    apply (coming_kept p); [done|done|done|]. cbn [send set_modal set_calls calls]. rewrite Hc.
    apply Forall_singleton. unfold shows. cbn [active set_calls set_modal send]. by rewrite Ea.
  - unfold edit_modal. case_match; exact Hp.
  - unfold edit_modal. case_match; exact Hp.
  - unfold edit_modal. case_match; exact Hp.
  - destruct (newOpen p); [|exact Hp]. by apply submit_step.
  - destruct (newOpen p && _); [|exact Hp]. by apply submit_step.
Qed.

(** From the mappings' arrival on, with every call answered before the next event: no call stays out, the list is the
    streams of the active mapping among those stored, so a row that is clicked opens the stream under its own
    mapping, and with the table of a listed one. *)
Lemma manager_current l st xs :
  Forall users xs →
  let w := foldl quiet_step (MkWorld initial_panel st) ((MappingsLoaded l, None) :: xs) in
  let p := panel w in
  calls p = [] ∧ (∀ m, active p = Some m → streams p = of_mapping (mapping_name m) (stored w)) ∧
  Forall (λ t, ∃ m, m ∈ mappings p ∧ t.1 = (mapping_name m, source_table m)) (tabs p) ∧
  ∀ s m, active p = Some m → s ∈ streams p →
    row_mapping s = Some (mapping_name m) ∧ tabs (panel_event (ClickRow s) p) = (mapping_name m, source_table m, stream s) :: tabs p.
Proof.
  intros Hx w p. set (good w := calls (panel w) = [] ∧ fresh (panel w) (stored w) ∧ tabs_ok (panel w)).
  assert (∀ w x, users x → good w → good (quiet_step w x)) as Hstep.
  { intros v [e o] Hu (Hc & Hf & Ht). destruct (user_step e (panel v) (stored v)) as (H1 & H2 & H3); [by intros k r ->|done..|].
    by apply settle_done. }
  assert (good w) as (Hc & Hf & (Hact & _ & Ht)).
  { subst w. cbn [foldl]. assert (good (quiet_step (MkWorld initial_panel st) (MappingsLoaded l, None))) as H0.
    { apply Hstep; [done|]. split_and!; [done|done|]. split_and!; [done|done|by apply Forall_nil]. }
    generalize dependent (quiet_step (MkWorld initial_panel st) (MappingsLoaded l, None)). clear -Hx Hstep.
    induction Hx as [|x xs Hu _ IH]; intros w Hw; [done|]. cbn [foldl]. apply IH. by apply Hstep. }
  assert (∀ m, active p = Some m → streams p = of_mapping (mapping_name m) (stored w)) as Hs.
  { intros m Hm. apply Hf. subst p. unfold shows. by rewrite Hm. }
  split_and!; [done|done|done|]. intros s m Hm Hin. split.
  - rewrite (Hs m Hm) in Hin. by apply list_elem_of_filter in Hin as [? _].
  - cbn [panel_event]. rewrite decide_True by done. unfold handleEdit. by rewrite Hm.
Qed.

(** * Cases *)

Definition accounts : Mapping := MkMapping 1 #"accounts" #"acc" true.
Definition claims : Mapping := MkMapping 2 #"claims" #"clm" true.
Definition rows : list StreamRow := [MkStreamRow #"a1" [] (Some #"accounts") None; MkStreamRow #"c1" [] (Some #"claims") None].
Definition at_accounts : list Event := [MappingsLoaded [accounts; claims]; Answered 0 (RowsReply rows)].
(** Until the list of another mapping is there, or when its load fails, the rows are those of the mapping before: a
    click opens its stream under the other mapping and table. *)
Example other_mapping :
  let p := run (at_accounts ++ [ClickMapping claims; ClickRow (MkStreamRow #"a1" [] (Some #"accounts") None)]) initial_panel in
  tabs p = [(#"claims", #"clm", #"a1")].
Proof. by vm_compute. Qed.
(** The answers to two loads come in the other order: the list of the mapping before stays. *)
Example late_list :
  let p := run [MappingsLoaded [accounts; claims]; ClickMapping claims; Answered 1 (RowsReply rows); Answered 0 (RowsReply rows)] initial_panel in
  (shows p, stream <$> streams p) = (Some #"claims", [ #"a1"]).
Proof. by vm_compute. Qed.
(** Enter is not held back while a stream is being created. *)
Example created_twice_at_once :
  calls (run (at_accounts ++ [OpenNew; TypeStream #"n"; Enter; Enter]) initial_panel)
  = [TagsCall #"accounts"; CreateCall #"accounts" #"n" [] 1 None; CreateCall #"accounts" #"n" [] 1 None].
Proof. by vm_compute. Qed.
(** The answer to a creation closes the dialog that is open when it comes, and clears what is typed there. *)
Example new_dialog_closed :
  let p := run (at_accounts ++ [OpenNew; Answered 0 (TagsReply []); TypeStream #"n"; ClickCreate; CloseNew; OpenNew; TypeStream #"m"; Answered 0 Done]) initial_panel in
  (newOpen p, m_stream (modal p)) = (false, []).
Proof. by vm_compute. Qed.
