(* ===== verification/Finetuning.v ===== *)
(** The fine-tuning panel, apps/oos/src/mainview/components/SettingsFinetuningPanel.tsx,
    over the hook of store/finetuning.ts: the durations it prints and reads, the
    presets, and the form as a transition system over the models and what is stored for each.

    [timeout_read_back] is the round trip of a duration.  Times are whole
    milliseconds; a field of digits too long for a double is read exactly here.  The
    note that something was saved is left out. *)

From S2P Require Export Stores Regex.
From S2P Require Import ChatHistory.
From Stdlib Require Import ZifyBool.

#[local] Set Warnings "-register-all".

(** * Durations *)

Definition formatTimeout (ms : Z) : str :=
  if (ms <=? 0)%Z then #"5m"
  else
    let totalSec := round_div ms 1000 in
    let h := (totalSec / 3600)%Z in
    let m := (totalSec mod 3600 / 60)%Z in
    let s := (totalSec mod 60)%Z in
    if (0 <? h)%Z && (m =? 0)%Z && (s =? 0)%Z then show_Z h ++ #"h"
    else if (h =? 0)%Z && (0 <? m)%Z && (s =? 0)%Z then show_Z m ++ #"m"
    else if (h =? 0)%Z && (m =? 0)%Z then show_Z s ++ #"s"
    else if (h =? 0)%Z then show_Z m ++ #"m" ++ show_Z s ++ #"s"
    else show_Z h ++ #"h" ++ show_Z m ++ #"m" ++ show_Z s ++ #"s".

(** [/(\d+)\s*(h|m|s)/g] *)
Definition units : Regex := RAlt (one 104) (RAlt (one 109) (one 115)).
Definition timeout_pattern : Search :=
  MkSearch anywhere [(true, RPlus false (RSet false [Range 48 57])); (false, RStar false (RSet false [Space])); (true, units)] (λ _, true).
Definition unit_ms (u : str) : Z :=
  if decide (u = #"h") then 3600 * 1000 else if decide (u = #"m") then 60 * 1000 else 1000.
Definition match_ms (groups : list str) : Z :=
  match groups with [n; u] => Z.of_N (digits_value n) * unit_ms u | _ => 0 end.
Definition parseTimeout (text : str) : option Z :=
  let trimmed := to_lower (trim text) in
  if decide (trimmed = []) then None
  else if all_digits trimmed then Some (Z.of_N (digits_value trimmed) * 1000)%Z
  else
    match exec_all timeout_pattern trimmed with
    | [] => None
    | ms => let total := foldr Z.add 0%Z (match_ms <$> ms) in if (total <=? 0)%Z then None else Some total
    end.

(** * Settings *)

Record Tuning := MkTuning { temperature : jsnum; timeoutMs : Z; maxTokens : jsnum; topHits : jsnum }.
Inductive Preset := Cloud | Local_.
Definition FINETUNING_PRESETS (p : Preset) : Tuning :=
  match p with
  | Cloud => MkTuning (Dec 2 (-1)) (5 * 60 * 1000) (num_of_Z 4096) (num_of_Z 10)
  | Local_ => MkTuning (Dec 2 (-1)) (90 * 1000) (num_of_Z 1024) (num_of_Z 10)
  end.
Definition DEFAULT_TUNING : Tuning := FINETUNING_PRESETS Cloud.
Definition PRESET_DESCRIPTIONS (p : Preset) : str :=
  match p with
  | Cloud => #"Lange Timeouts, große Antworten — Cloud-LLMs sind schnell und liefern lange Tokenströme zuverlässig."
  | Local_ => #"Kürzere Timeouts und Antworten — lokale Modelle sollen schnell scheitern statt fünf Minuten zu blockieren."
  end.

(** The fields of the form. *)
Record Form := MkForm { f_temperature : jsnum; f_timeoutText : str; f_maxTokens : jsnum; f_topHits : jsnum; f_timeoutErr : bool }.
Definition seeded (t : Tuning) : Form := MkForm (temperature t) (formatTimeout (timeoutMs t)) (maxTokens t) (topHits t) false.

(** [===] of finite numbers: they print alike. *)
Definition same_number (a b : jsnum) : bool := bool_decide (num_to_string a = num_to_string b).
Definition matches (f : Form) (p : Tuning) : bool :=
  same_number (temperature p) (f_temperature f) && bool_decide (parseTimeout (f_timeoutText f) = Some (timeoutMs p))
  && same_number (maxTokens p) (f_maxTokens f) && same_number (topHits p) (f_topHits f).
Definition describePreset (f : Form) : str :=
  if matches f (FINETUNING_PRESETS Cloud) then #"Aktuell: Cloud — " ++ PRESET_DESCRIPTIONS Cloud
  else if matches f (FINETUNING_PRESETS Local_) then #"Aktuell: Lokal — " ++ PRESET_DESCRIPTIONS Local_
  else #"Eigene Werte. Wähle ein Preset, um einen sauberen Startpunkt zu setzen.".

(** * The panel *)

(** [kv]: what is stored, by model; [out]: the saves that wait; [loads]: one model per run of the effect, the latest
    first, of which only the last is listened to. *)
Record Panel := MkPanel {
  loads : list str; settings : Tuning; loaded : bool; form : Form; kv : list (str * Tuning); out : list (str * Tuning) }.
Definition modelId (p : Panel) : str := default [] (head (loads p)).
Definition stored (kv : list (str * Tuning)) (m : str) : Tuning :=
  default DEFAULT_TUNING ((λ e, e.2.2) <$> list_find (λ e, e.1 = m) kv).
(** [loadFinetuning]: no model, no row. *)
Definition loadFinetuning (kv : list (str * Tuning)) (m : str) : Tuning :=
  match m with [] => DEFAULT_TUNING | _ => stored kv m end.
Definition mounted (m : str) (kv : list (str * Tuning)) : Panel := MkPanel [m] DEFAULT_TUNING false (seeded DEFAULT_TUNING) kv [].
Definition set_form (f : Form) (p : Panel) : Panel := MkPanel (loads p) (settings p) (loaded p) f (kv p) (out p).
(** [setSettings], and the effect that seeds the form once the row is there. *)
Definition setSettings (t : Tuning) (ld : bool) (p : Panel) : Panel :=
  MkPanel (loads p) t ld (if ld then seeded t else form p) (kv p) (out p).

Definition applyPreset (n : Preset) (p : Panel) : Panel := set_form (seeded (FINETUNING_PRESETS n)) p.
Definition save (t : Tuning) (p : Panel) : Panel :=
  match modelId p with [] => p | m => MkPanel (loads p) (settings p) (loaded p) (form p) (kv p) (out p ++ [(m, t)]) end.
Definition submit (p : Panel) : Panel :=
  let f := form p in
  match parseTimeout (f_timeoutText f) with
  | None => set_form (MkForm (f_temperature f) (f_timeoutText f) (f_maxTokens f) (f_topHits f) true) p
  | Some ms =>
    save (MkTuning (f_temperature f) ms (f_maxTokens f) (f_topHits f))
      (set_form (MkForm (f_temperature f) (f_timeoutText f) (f_maxTokens f) (f_topHits f) false) p)
  end.
Definition resetDefaults (p : Panel) : Panel := save DEFAULT_TUNING p.

Inductive Event :=
| UseModel (m : str) | RowRead (run : nat) (t : Tuning) | Saved (k : nat)
| SetTemperature (n : jsnum) | TypeTimeout (s : str) | SetMaxTokens (n : jsnum) | SetTopHits (n : jsnum)
| ClickPreset (p : Preset) | ClickSave | ClickReset.
Definition panel_event (e : Event) (p : Panel) : Panel :=
  let f := form p in
  match e with
  | UseModel m => if decide (m = modelId p) then p else MkPanel (m :: loads p) (settings p) false f (kv p) (out p)
  | RowRead run t => if decide (S run = length (loads p)) then setSettings t true p else p
  | Saved k =>
    match out p !! k with
    | Some (m, t) =>
      let p' := MkPanel (loads p) (settings p) (loaded p) f ((m, t) :: kv p) (delete k (out p)) in
      if decide (m = modelId p) then setSettings t (loaded p) p' else p'
    | None => p
    end
  | SetTemperature n => set_form (MkForm n (f_timeoutText f) (f_maxTokens f) (f_topHits f) (f_timeoutErr f)) p
  | TypeTimeout s => set_form (MkForm (f_temperature f) s (f_maxTokens f) (f_topHits f) (f_timeoutErr f)) p
  | SetMaxTokens n => set_form (MkForm (f_temperature f) (f_timeoutText f) n (f_topHits f) (f_timeoutErr f)) p
  | SetTopHits n => set_form (MkForm (f_temperature f) (f_timeoutText f) (f_maxTokens f) n (f_timeoutErr f)) p
  | ClickPreset n => applyPreset n p
  | ClickSave => submit p
  | ClickReset => resetDefaults p
  end.
Definition run (es : list Event) (p : Panel) : Panel := foldl (λ p e, panel_event e p) p es.

(** * Laws *)

Lemma digit_set c : set_has false [Range 48 57] c = is_digit c.
Proof. rewrite set_has_pos. cbn [existsb item_has]. unfold is_digit. by rewrite orb_false_r. Qed.
Definition is_unit (u : N) : Prop := u ∈ [104; 109; 115]%N.
Lemma unit_letter u : is_unit u → is_digit u = false ∧ is_space u = false ∧ to_lower1 u = u.
Proof. intros H. repeat (apply elem_of_cons in H as [->|H]; [done|]). by apply elem_of_nil in H. Qed.
Lemma in_units w : in_lang units w ↔ ∃ u, w = [u] ∧ is_unit u.
Proof.
  assert (∀ a w, in_lang (one a) w ↔ w = [a]) as H1.
  { intros a v. split.
    - intros H. inversion H as [neg items c Hc| | | | | |]; subst. rewrite set_has_pos in Hc. cbn [existsb item_has] in Hc. f_equal. lia.
    - intros ->. constructor. rewrite set_has_pos. cbn [existsb item_has]. lia. }
  unfold units. rewrite !in_lang_alt, !H1. unfold is_unit. split.
  - intros [E|[E|E]]; rewrite E; eexists; (split; [done|]); set_solver.
  - intros (u & -> & H). repeat (apply elem_of_cons in H as [->|H]; [tauto|]). by apply elem_of_nil in H.
Qed.

(** A match is digits, white space and a unit. *)
Lemma timeout_captures s g rest :
  (g, rest) ∈ captures (search_parts timeout_pattern) s ↔
  ∃ w sp u, s = w ++ sp ++ u :: rest ∧ w ≠ [] ∧ Forall (λ c, is_digit c = true) w ∧ Forall (λ c, is_space c = true) sp ∧ is_unit u
            ∧ g = [w; [u]].
Proof.
  assert (∀ w, in_lang (RPlus false (RSet false [Range 48 57])) w ↔ w ≠ [] ∧ Forall (λ c, is_digit c = true) w) as Hd.
  { intros w. unfold RPlus. split.
    - intros H. inversion H as [| |r1 r2 w1 w2 Hw1 Hw2| | | |]; subst. inversion Hw1 as [neg items c Hc| | | | | |]; subst.
      split; [done|]. apply Forall_cons. split; [by rewrite <-digit_set|]. apply in_lang_run in Hw2.
      eapply Forall_impl; [exact Hw2|]. intros x Hx. exact (eq_trans (eq_sym (digit_set x)) Hx).
    - intros [Hne Hw]. destruct w as [|c w]; [done|]. apply Forall_cons in Hw as [Hc Hw]. apply (in_cat _ _ [c] w).
      + constructor. by rewrite digit_set.
      + apply in_lang_run. eapply Forall_impl; [exact Hw|]. intros x Hx. exact (eq_trans (digit_set x) Hx). }
  assert (∀ w, in_lang (RStar false (RSet false [Space])) w ↔ Forall (λ c, is_space c = true) w) as Hs.
  { intros w. rewrite in_lang_run. assert (∀ c, set_has false [Space] c = is_space c) as E.
    { intros c. rewrite set_has_pos. apply orb_false_r. }
    split; (intros H; eapply Forall_impl; [exact H|]); intros x Hx; [exact (eq_trans (eq_sym (E x)) Hx)|exact (eq_trans (E x) Hx)]. }
  cbn [search_parts timeout_pattern]. rewrite captures_spec. split.
  - intros (w & s1 & g1 & -> & [Hw1 Hw2]%Hd & H1 & ->). apply captures_spec in H1 as (sp & s2 & g2 & -> & Hsp%Hs & H2 & ->).
    apply captures_spec in H2 as (v & s3 & g3 & -> & (u & -> & Hu)%in_units & [-> ->]%captures_done & ->).
    exists w, sp, u. by split_and!.
  - intros (w & sp & u & -> & Hw1 & Hw2 & Hsp & Hu & ->). exists w, (sp ++ u :: rest), [[u]]. split_and!; [done|by apply Hd| |done].
    apply captures_spec. exists sp, (u :: rest), [[u]]. split_and!; [done|by apply Hs| |done].
    apply captures_spec. exists [u], rest, []. split_and!; [done|apply in_units; by exists u|by apply captures_done|done].
Qed.
Lemma timeout_consumes s g rest : (g, rest) ∈ captures (search_parts timeout_pattern) s → length rest < length s.
Proof. intros (w & sp & u & -> & _)%timeout_captures. rewrite !length_app. cbn [length]. lia. Qed.

(** Two ways to read digits up to another character are one. *)
Lemma digits_split d w x r y r' :
  Forall (λ c, is_digit c = true) d → Forall (λ c, is_digit c = true) w → is_digit x = false → is_digit y = false →
  d ++ x :: r = w ++ y :: r' → d = w ∧ x :: r = y :: r'.
Proof.
  intros Hd. revert w. induction Hd as [|c d Hc Hd IH]; intros w Hw Hx Hy E.
  - destruct Hw as [|c w Hc Hw]; [done|]. injection E as -> _. congruence.
  - destruct Hw as [|c' w Hc' Hw]; [injection E as <- _; congruence|]. injection E as <- E. destruct (IH w Hw Hx Hy E) as [-> ?]. done.
Qed.
Lemma timeout_hit prev n u rest :
  is_unit u → exec_here timeout_pattern prev (show_N n ++ u :: rest) = Some ([show_N n; [u]], rest).
Proof.
  intros Hu. destruct (unit_letter u Hu) as (Hud & Hus & _).
  assert (Forall (λ c, is_digit c = true) (show_N n)) as Hn.
  { rewrite Forall_forall. intros c Hc. destruct (is_digit c) eqn:E; [done|]. by destruct (show_N_not_in c n E). }
  apply exec_here_only; [done| |done|].
  - apply timeout_captures. exists (show_N n), [], u. split_and!; [done|apply show_N_nonempty|done|by apply Forall_nil|done|done].
  - intros [g rest'] (w & sp & v & E & Hne & Hw & Hsp & Hv & ->)%timeout_captures _. destruct (unit_letter v Hv) as (Hvd & _ & _).
    assert (∀ c, is_space c = true → is_digit c = false) as Hsd.
    { intros c Hc. destruct (is_digit c) eqn:E1; [|done]. unfold is_digit, is_space in *.
      apply orb_true_iff in Hc as [Hc|Hc]; [|lia]. apply bool_decide_eq_true in Hc.
      repeat (apply elem_of_cons in Hc as [->|Hc]; [done|]). by apply elem_of_nil in Hc. }
    destruct Hsp as [|c sp Hc Hsp]; cbn [app] in E.
    + apply digits_split in E as [<- [= -> ->]]; done.
    + apply digits_split in E as [_ [= -> _]]; [congruence|done|done|done|by apply Hsd].
Qed.

(** Numbers with their units, one after the other. *)
Definition seg_text (l : list (N * N)) : str := l ≫= λ e, show_N e.1 ++ [e.2].
Lemma seg_matches prev l : Forall (λ e, is_unit e.2) l → exec_from timeout_pattern prev (seg_text l) = (λ e, [show_N e.1; [e.2]]) <$> l.
Proof.
  intros Hl. revert prev. induction Hl as [|[n u] l Hu _ IH]; intros prev; cbn [seg_text mbind list_bind fst snd].
  - apply (exec_from_nil timeout_pattern). apply exec_here_none. intros [g r] H _. apply timeout_consumes in H. cbn [length] in H. lia.
  - rewrite <-app_assoc. cbn [app]. rewrite (exec_from_hit timeout_pattern timeout_consumes _ _ _ _ (timeout_hit prev n u _ Hu)).
    cbn [fmap list_fmap fst snd]. f_equal. apply IH.
Qed.
Lemma seg_chars l c : Forall (λ e, is_unit e.2) l → c ∈ seg_text l → is_space c = false ∧ to_lower1 c = c.
Proof.
  intros Hl ([n u] & Hc & He)%list_elem_of_bind. rewrite Forall_forall in Hl. specialize (Hl _ He). cbn [fst snd] in *.
  apply elem_of_app in Hc as [Hc|Hc].
  - destruct (is_digit c) eqn:E; [|by destruct (show_N_not_in c n E)]. unfold is_digit in E. split.
    + unfold is_space. apply orb_false_iff. split; [|lia]. apply bool_decide_eq_false. intros H.
      repeat (apply elem_of_cons in H as [->|H]; [done|]). by apply elem_of_nil in H.
    + unfold to_lower1, is_upper. repeat case_match; lia.
  - apply list_elem_of_singleton in Hc as ->. by destruct (unit_letter u Hl) as (_ & ? & ?).
Qed.
Lemma seg_parsed l :
  l ≠ [] → Forall (λ e, is_unit e.2) l →
  parseTimeout (seg_text l) =
  (let total := foldr Z.add 0%Z ((λ e, Z.of_N e.1 * unit_ms [e.2])%Z <$> l) in if (total <=? 0)%Z then None else Some total).
Proof.
  intros Hne Hl. unfold parseTimeout. assert (to_lower (trim (seg_text l)) = seg_text l) as ->.
  { rewrite trim_id.
    - unfold to_lower. transitivity (id <$> seg_text l); [|by rewrite list_fmap_id]. apply list_fmap_ext. intros i c Hc.
      apply list_elem_of_lookup_2 in Hc. by destruct (seg_chars l c Hl Hc).
    - split; intros c Hc; apply (seg_chars l c Hl).
      + destruct (seg_text l); [done|]. injection Hc as ->. by left.
      + by apply last_Some_elem_of. }
  destruct l as [|[n u] l]; [done|]. apply Forall_cons in Hl as Hu. destruct Hu as [Hu _]. cbn [snd] in Hu.
  cbv zeta. rewrite decide_False by (cbn [seg_text mbind list_bind fst snd]; intros E; apply (f_equal length) in E;
    rewrite !length_app in E; cbn [length] in E; lia).
  assert (all_digits (seg_text ((n, u) :: l)) = false) as ->.
  { unfold all_digits. apply andb_false_iff. right. apply not_true_iff_false. rewrite forallb_forall. intros H.
    destruct (unit_letter u Hu) as (Hd & _). enough (is_digit u = true) by congruence. apply H, list_elem_of_In.
    cbn [seg_text mbind list_bind fst snd]. apply elem_of_app. left. apply elem_of_app. right. by left. }
  unfold exec_all. rewrite (seg_matches None _ Hl).
  assert (match_ms <$> ((λ e : N * N, [show_N e.1; [e.2]]) <$> (n, u) :: l) = (λ e, Z.of_N e.1 * unit_ms [e.2])%Z <$> (n, u) :: l) as E.
  { rewrite <-list_fmap_compose. apply list_fmap_ext. intros i e _. cbn [compose match_ms]. by rewrite digits_value_show_N. }
  destruct ((λ e : N * N, [show_N e.1; [e.2]]) <$> (n, u) :: l) as [|g gs] eqn:Eg; [done|]. by rewrite E.
Qed.

Lemma show_Z_N z : (0 <= z)%Z → show_Z z = show_N (Z.to_N z).
Proof. by destruct z. Qed.
(** What [formatTimeout] writes, as numbers with units. *)
Lemma format_segments ms :
  (0 < ms)%Z →
  let t := round_div ms 1000 in
  ∃ l, formatTimeout ms = seg_text l ∧ l ≠ [] ∧ Forall (λ e, is_unit e.2) l
       ∧ foldr Z.add 0%Z ((λ e, Z.of_N e.1 * unit_ms [e.2])%Z <$> l) = (1000 * t)%Z.
Proof.
  intros Hms t. unfold formatTimeout. assert ((ms <=? 0)%Z = false) as -> by lia. cbv zeta. fold t.
  assert (0 <= t)%Z as Ht by (apply Z.div_pos; lia).
  pose proof (Z.div_mod t 3600 ltac:(lia)) as H1. pose proof (Z.mod_pos_bound t 3600 ltac:(lia)).
  pose proof (Z.div_mod (t mod 3600) 60 ltac:(lia)) as H2. pose proof (Z.mod_pos_bound (t mod 3600) 60 ltac:(lia)).
  assert (t mod 60 = (t mod 3600) mod 60)%Z as H3.
  { rewrite H1 at 1. replace (3600 * (t / 3600) + t mod 3600)%Z with (t mod 3600 + (60 * (t / 3600)) * 60)%Z by ring. apply Z.mod_add. lia. }
  rewrite <-H3 in H2.
  assert (0 <= t / 3600)%Z by (apply Z.div_pos; lia). assert (0 <= t mod 3600 / 60)%Z by (apply Z.div_pos; lia).
  assert (0 <= t mod 60)%Z by (apply Z.mod_pos_bound; lia).
  set (h := (t / 3600)%Z) in *. set (m := (t mod 3600 / 60)%Z) in *. set (s := (t mod 60)%Z) in *. clearbody h m s.
  assert (t = 3600 * h + 60 * m + s)%Z as Et by lia. clear H1 H2 H3.
  assert (is_unit 104 ∧ is_unit 109 ∧ is_unit 115) as (U1 & U2 & U3) by (unfold is_unit; split_and!; set_solver).
  assert (unit_ms [104%N] = 3600000 ∧ unit_ms [109%N] = 60000 ∧ unit_ms [115%N] = 1000)%Z as (M1 & M2 & M3) by done.
  rewrite !show_Z_N by done.
  repeat match goal with |- context [if ?b then _ else _] => destruct b eqn:? end;
    [exists [(Z.to_N h, 104%N)] | exists [(Z.to_N m, 109%N)] | exists [(Z.to_N s, 115%N)]
    | exists [(Z.to_N m, 109%N); (Z.to_N s, 115%N)] | exists [(Z.to_N h, 104%N); (Z.to_N m, 109%N); (Z.to_N s, 115%N)]];
    (split; [cbn [seg_text mbind list_bind fst snd]; rewrite <-?app_assoc; by rewrite ?app_nil_r|]);
    (split; [done|]); (split; [by repeat apply Forall_cons_2; [..|apply Forall_nil]|]);
    cbn [fmap list_fmap foldr fst snd]; rewrite ?M1, ?M2, ?M3, !Z2N.id by done; lia.
Qed.

Lemma rounded_seconds ms : (- 500 <= 1000 * round_div ms 1000 - ms <= 500)%Z.
Proof.
  unfold round_div. pose proof (Z.div_mod (2 * ms + 1000) (2 * 1000) ltac:(lia)).
  pose proof (Z.mod_pos_bound (2 * ms + 1000) (2 * 1000) ltac:(lia)). lia.
Qed.
Lemma format_parsed ms :
  (0 < ms)%Z → let t := round_div ms 1000 in parseTimeout (formatTimeout ms) = (if (t =? 0)%Z then None else Some (1000 * t)%Z).
Proof.
  intros Hms t. destruct (format_segments ms Hms) as (l & -> & Hne & Hl & Hsum). rewrite (seg_parsed l Hne Hl), Hsum. fold t. cbv zeta.
  assert (0 <= t)%Z by (apply Z.div_pos; lia).
  destruct (Z.eqb_spec t 0) as [->|]; [done|]. assert ((1000 * t <=? 0)%Z = false) as -> by lia. done.
Qed.
Lemma whole_seconds ms : (0 < ms)%Z → (ms mod 1000 = 0)%Z → parseTimeout (formatTimeout ms) = Some ms.
Proof.
  intros Hms Hmod. pose proof (format_parsed ms Hms) as H. cbv zeta in H. rewrite H. pose proof (rounded_seconds ms) as Hr.
  pose proof (Z.div_mod ms 1000 ltac:(lia)). set (t := round_div ms 1000) in *. assert (1000 * t = ms)%Z as E by lia.
  destruct (Z.eqb_spec t 0); [lia|]. by rewrite E.
Qed.

(** A positive duration is printed so that it is read back as the nearest whole seconds, exactly if it is of whole seconds; only what
    is shorter than half a second is printed as a text that is refused. *)
Theorem timeout_read_back ms :
  (0 < ms)%Z →
  match parseTimeout (formatTimeout ms) with
  | Some v => (- 500 <= v - ms <= 500)%Z ∧ (v mod 1000 = 0)%Z ∧ (ms mod 1000 = 0 → v = ms)%Z
  | None => (ms < 500)%Z
  end.
Proof.
  intros Hms. pose proof (format_parsed ms Hms) as H. cbv zeta in H. rewrite H. pose proof (rounded_seconds ms) as Hr.
  destruct (Z.eqb_spec (round_div ms 1000) 0) as [E|E].
  - unfold round_div in E. pose proof (Z.div_mod (2 * ms + 1000) (2 * 1000) ltac:(lia)).
    pose proof (Z.mod_pos_bound (2 * ms + 1000) (2 * 1000) ltac:(lia)). lia.
  - split_and!; [lia|lia|rewrite Z.mul_comm; apply Z.mod_mul; lia|]. intros Hmod. pose proof (whole_seconds ms Hms Hmod) as Hw.
    rewrite H in Hw. by apply Some_inj in Hw.
Qed.
Lemma timeout_read_back_witness :
  (0 < 5405400)%Z ∧ match parseTimeout (formatTimeout 5405400) with Some v => (v mod 1000 = 0)%Z | None => False end.
Proof. split; [done|]. pose proof (timeout_read_back 5405400 ltac:(done)) as H. destruct (parseTimeout _); [apply H|done]. Defined.

(** Whatever model the panel is on, a row of whole seconds that is loaded and saved as it stands is stored again. *)
Lemma saved_unchanged p n t :
  modelId p ≠ [] → S n = length (loads p) → (0 < timeoutMs t)%Z → (timeoutMs t mod 1000 = 0)%Z → out p = [] →
  let p' := run [RowRead n t; ClickSave; Saved 0] p in
  stored (kv p') (modelId p) = t ∧ form p' = seeded t ∧ out p' = [].
Proof.
  intros Hne Hr Hpos Hmod Ho. pose proof (whole_seconds (timeoutMs t) Hpos Hmod) as Hb. cbv zeta.
  assert (panel_event (RowRead n t) p = setSettings t true p) as E1 by (cbn [panel_event]; by rewrite decide_True).
  assert (submit (setSettings t true p) = MkPanel (loads p) t true (seeded t) (kv p) [(modelId p, t)]) as E2.
  { unfold submit. cbn [setSettings form seeded f_timeoutText f_temperature f_maxTokens f_topHits]. rewrite Hb. unfold save, set_form.
    change (modelId _) with (modelId p). destruct (modelId p) as [|c m] eqn:Em; [done|]. cbn [loads settings loaded kv out setSettings form]. rewrite Ho.
    by destruct t. }
  cbn [run foldl]. rewrite E1. cbn [panel_event]. rewrite E2. cbn [out lookup list_lookup]. rewrite decide_True by done.
  cbn [setSettings kv form out delete list_delete loaded]. split_and!; [|done|done].
  unfold stored. cbn [list_find]. by rewrite decide_True.
Qed.

(** * Cases *)

(** Text around the numbers is skipped: one and a half hours are five, ten milliseconds ten minutes; [0] is taken, [0s] is not. *)
Example odd_timeouts :
  parseTimeout <$> [ #"30s"; #"5m"; #"1h"; #" 5 M "; #"90"; #"1.5h"; #"10ms"; #"5 min"; #"in 5m please"; #"0s"; #"0"; #"h"; #"1h30"; []]
  = [Some 30000; Some 300000; Some 3600000; Some 300000; Some 90000; Some 18000000; Some 600000; Some 300000; Some 300000; None; Some 0; None;
     Some 3600000; None]%Z.
Proof. by vm_compute. Qed.
Example printed_timeouts :
  formatTimeout <$> [300000; 90000; 3600000; 3601000; 3660000; 400; 0; 1500]%Z
  = [ #"5m"; #"1m30s"; #"1h"; #"1h0m1s"; #"1h1m0s"; #"0s"; #"5m"; #"2s"].
Proof. by vm_compute. Qed.
Definition local : Tuning := FINETUNING_PRESETS Local_.
(** A save while the row of another model is being loaded stores the values of the model before for it. *)
Example other_model :
  let p := run [RowRead 0 local; UseModel #"b"; ClickSave; Saved 0] (mounted #"a" []) in
  (stored (kv p) #"b", loaded p) = (local, false).
Proof. by vm_compute. Qed.
(** What is changed while a save waits is gone when it is done. *)
Example changed_while_saving :
  let p := run [RowRead 0 local; ClickSave; SetTopHits (num_of_Z 20); Saved 0] (mounted #"a" []) in (f_topHits (form p), topHits (stored (kv p) #"a"))
  = (num_of_Z 10, num_of_Z 10).
Proof. by vm_compute. Qed.
(** A reset stores the defaults: the row stays. *)
Example reset_stores :
  kv (run [RowRead 0 local; ClickReset; Saved 0] (mounted #"a" [])) = [(#"a", DEFAULT_TUNING)].
Proof. by vm_compute. Qed.
Example presets_described :
  (describePreset (seeded DEFAULT_TUNING), describePreset (seeded local), matches (seeded local) DEFAULT_TUNING)
  = (#"Aktuell: Cloud — " ++ PRESET_DESCRIPTIONS Cloud, #"Aktuell: Lokal — " ++ PRESET_DESCRIPTIONS Local_, false).
Proof. by vm_compute. Qed.
