(* ===== verification/KvStore.v ===== *)
(** The browser of the key-value store, apps/oosd/src/mainview/components/KvStorePanel.tsx,
    as a transition system: buckets, their keys, the editor of a value, the dialogs.

    A value is edited as [JSON.stringify(v, null, 2)] and what is typed is parsed, or stored as a string.
    [entry_saved] is the round trip of a value; [mark_unseen] says that the mark of a save is never seen;
    the cases at the end are answers that come late.  The panel is enabled throughout. *)

From S2P Require Export JsonPretty.

#[local] Set Warnings "-register-all".

Record KvBucketInfo := MkBucket { bucket_name : str; bucket_keys : Z }.
(** A key's revision is not used by the panel. *)
Record KvEntry := MkEntry { entry_key : str; entry_value : jsval }.

(** What ends with a load that is awaited: the wait of a button or a dialog. *)
Inductive After := Nothing | EndNewBucket | EndDeleteBucket | EndNewKey | EndSave | EndDeleteKey.
(** A call that is out; [selected] is that of the render it was made in. *)
Inductive Call :=
| ListBuckets (a : After)
| ListKeys (bucket : str) (a : After)
| CreateBucket (bucket : str)
| DeleteBucket (bucket : str) (selected : option str)
| PutNew (bucket key : str)
| PutEntry (bucket key : str) (value : jsval)
| DeleteEntry (bucket key : str) (selected : option str).
(** The seam answers every exception as an error, whose text is not empty. *)
Inductive Reply := Buckets (l : list KvBucketInfo) | Entries (l : list KvEntry) | Done | Failed (error : str).

Record Panel := MkPanel {
  buckets : list KvBucketInfo; bucketsLoading : bool; selectedBucket : option str; bucketError : option str;
  newBucketOpen : bool; newBucketName : str; newBucketBusy : bool;
  entries : list KvEntry; entriesLoading : bool; selectedKey : option str; entryError : option str;
  editorValue : str; saveBusy : bool; saveOk : bool;
  newKeyOpen : bool; newKeyName : str; newKeyBusy : bool;
  deleteBucketTarget : option str; deleteKeyTarget : option str;
  calls : list Call }.
Definition initial_panel : Panel :=
  MkPanel [] true None None false [] false [] false None None [] false false false [] false None None [ListBuckets Nothing].

Definition set_buckets (l : list KvBucketInfo) (ld : bool) (e : option str) (p : Panel) : Panel :=
  MkPanel l ld (selectedBucket p) e (newBucketOpen p) (newBucketName p) (newBucketBusy p) (entries p) (entriesLoading p) (selectedKey p) (entryError p)
    (editorValue p) (saveBusy p) (saveOk p) (newKeyOpen p) (newKeyName p) (newKeyBusy p) (deleteBucketTarget p) (deleteKeyTarget p) (calls p).
Definition set_new_bucket (o : bool) (n : str) (b : bool) (p : Panel) : Panel :=
  MkPanel (buckets p) (bucketsLoading p) (selectedBucket p) (bucketError p) o n b (entries p) (entriesLoading p) (selectedKey p) (entryError p)
    (editorValue p) (saveBusy p) (saveOk p) (newKeyOpen p) (newKeyName p) (newKeyBusy p) (deleteBucketTarget p) (deleteKeyTarget p) (calls p).
Definition set_entries (l : list KvEntry) (ld : bool) (e : option str) (p : Panel) : Panel :=
  MkPanel (buckets p) (bucketsLoading p) (selectedBucket p) (bucketError p) (newBucketOpen p) (newBucketName p) (newBucketBusy p) l ld (selectedKey p) e
    (editorValue p) (saveBusy p) (saveOk p) (newKeyOpen p) (newKeyName p) (newKeyBusy p) (deleteBucketTarget p) (deleteKeyTarget p) (calls p).
Definition set_selected (b : option str) (p : Panel) : Panel :=
  MkPanel (buckets p) (bucketsLoading p) b (bucketError p) (newBucketOpen p) (newBucketName p) (newBucketBusy p) (entries p) (entriesLoading p) (selectedKey p)
    (entryError p) (editorValue p) (saveBusy p) (saveOk p) (newKeyOpen p) (newKeyName p) (newKeyBusy p) (deleteBucketTarget p) (deleteKeyTarget p) (calls p).
Definition set_editor (k : option str) (t : str) (ok : bool) (p : Panel) : Panel :=
  MkPanel (buckets p) (bucketsLoading p) (selectedBucket p) (bucketError p) (newBucketOpen p) (newBucketName p) (newBucketBusy p) (entries p) (entriesLoading p) k
    (entryError p) t (saveBusy p) ok (newKeyOpen p) (newKeyName p) (newKeyBusy p) (deleteBucketTarget p) (deleteKeyTarget p) (calls p).
Definition set_busy (b : bool) (p : Panel) : Panel :=
  MkPanel (buckets p) (bucketsLoading p) (selectedBucket p) (bucketError p) (newBucketOpen p) (newBucketName p) (newBucketBusy p) (entries p) (entriesLoading p)
    (selectedKey p) (entryError p) (editorValue p) b (saveOk p) (newKeyOpen p) (newKeyName p) (newKeyBusy p) (deleteBucketTarget p) (deleteKeyTarget p) (calls p).
Definition set_new_key (o : bool) (n : str) (b : bool) (p : Panel) : Panel :=
  MkPanel (buckets p) (bucketsLoading p) (selectedBucket p) (bucketError p) (newBucketOpen p) (newBucketName p) (newBucketBusy p) (entries p) (entriesLoading p)
    (selectedKey p) (entryError p) (editorValue p) (saveBusy p) (saveOk p) o n b (deleteBucketTarget p) (deleteKeyTarget p) (calls p).
Definition set_targets (b k : option str) (p : Panel) : Panel :=
  MkPanel (buckets p) (bucketsLoading p) (selectedBucket p) (bucketError p) (newBucketOpen p) (newBucketName p) (newBucketBusy p) (entries p) (entriesLoading p)
    (selectedKey p) (entryError p) (editorValue p) (saveBusy p) (saveOk p) (newKeyOpen p) (newKeyName p) (newKeyBusy p) b k (calls p).
Definition set_calls (cs : list Call) (p : Panel) : Panel :=
  MkPanel (buckets p) (bucketsLoading p) (selectedBucket p) (bucketError p) (newBucketOpen p) (newBucketName p) (newBucketBusy p) (entries p) (entriesLoading p)
    (selectedKey p) (entryError p) (editorValue p) (saveBusy p) (saveOk p) (newKeyOpen p) (newKeyName p) (newKeyBusy p) (deleteBucketTarget p) (deleteKeyTarget p) cs.
Definition send (c : Call) (p : Panel) : Panel := set_calls (calls p ++ [c]) p.

(** [loadBuckets], [loadKeys] before their [await]s. *)
Definition loadBuckets (a : After) (p : Panel) : Panel := send (ListBuckets a) (set_buckets (buckets p) true None p).
Definition loadKeys (b : str) (a : After) (p : Panel) : Panel :=
  send (ListKeys b a) (set_editor None [] (saveOk p) (set_entries (entries p) true None p)).
Definition selectBucket (b : str) (p : Panel) : Panel := loadKeys b Nothing (set_selected (Some b) p).
Definition selectKey (e : KvEntry) (p : Panel) : Panel := set_editor (Some (entry_key e)) (json_pretty 0 (entry_value e)) false p.

(** [!x] of a string that may be missing. *)
Definition truthy (o : option str) : option str := match o with Some [] => None | _ => o end.
Definition onCreateBucket (p : Panel) : Panel :=
  if decide (trim (newBucketName p) = []) then p
  else send (CreateBucket (trim (newBucketName p))) (set_new_bucket (newBucketOpen p) (newBucketName p) true p).
Definition onCreateKey (p : Panel) : Panel :=
  match truthy (selectedBucket p) with
  | Some b =>
    if decide (trim (newKeyName p) = []) then p else send (PutNew b (trim (newKeyName p))) (set_new_key (newKeyOpen p) (newKeyName p) true p)
  | None => p
  end.
(** [try { JSON.parse(s) } catch { s }] *)
Definition parsed (s : str) : jsval := default (VStr s) (json_parse s).
Definition onSaveEntry (p : Panel) : Panel :=
  match truthy (selectedBucket p), truthy (selectedKey p) with
  | Some b, Some k => send (PutEntry b k (parsed (editorValue p))) (set_busy true p)
  | _, _ => p
  end.
Definition onDeleteKey (k : str) (p : Panel) : Panel :=
  match truthy (selectedBucket p) with Some b => send (DeleteEntry b k (selectedKey p)) p | None => p end.

(** The [finally] blocks. *)
Definition ended (a : After) (p : Panel) : Panel :=
  match a with
  | Nothing => p
  | EndNewBucket => set_new_bucket (newBucketOpen p) (newBucketName p) false p
  | EndDeleteBucket => set_targets None (deleteKeyTarget p) p
  | EndNewKey => set_new_key (newKeyOpen p) (newKeyName p) false p
  | EndSave => set_busy false p
  | EndDeleteKey => set_targets (deleteBucketTarget p) None p
  end.
Definition bucket_failed (e : str) (p : Panel) : Panel := set_buckets (buckets p) (bucketsLoading p) (Some e) p.
Definition entry_failed (e : str) (p : Panel) : Panel := set_entries (entries p) (entriesLoading p) (Some e) p.
Definition answered (c : Call) (r : Reply) (p : Panel) : Panel :=
  match c, r with
  | ListBuckets a, Buckets l => ended a (set_buckets l false (bucketError p) p)
  | ListBuckets a, Failed e => ended a (set_buckets (buckets p) false (Some e) p)
  | ListKeys _ a, Entries l => ended a (set_entries l false (entryError p) p)
  | ListKeys _ a, Failed e => ended a (set_entries (entries p) false (Some e) p)
  | CreateBucket _, Done => loadBuckets EndNewBucket (set_new_bucket false [] (newBucketBusy p) p)
  | CreateBucket _, Failed e => ended EndNewBucket (bucket_failed e p)
  | DeleteBucket b sel, Done =>
    loadBuckets EndDeleteBucket
      (if decide (sel = Some b) then set_selected None (set_entries [] (entriesLoading p) (entryError p) p) else p)
  | DeleteBucket _ _, Failed e => ended EndDeleteBucket (bucket_failed e p)
  | PutNew b _, Done => loadKeys b EndNewKey (set_new_key false [] (newKeyBusy p) p)
  | PutNew _ _, Failed e => ended EndNewKey (entry_failed e p)
  | PutEntry b _ _, Done => loadKeys b EndSave (set_editor (selectedKey p) (editorValue p) true p)
  | PutEntry _ _ _, Failed e => ended EndSave (entry_failed e p)
  | DeleteEntry b k sel, Done =>
    loadKeys b EndDeleteKey (if decide (sel = Some k) then set_editor None [] (saveOk p) p else p)
  | DeleteEntry _ _ _, Failed e => ended EndDeleteKey (entry_failed e p)
  | _, _ => p
  end.

Inductive Event :=
| RefreshBuckets | ClickBucket (b : str) | RefreshKeys | ClickKey (k : str) | Type_ (s : str) | ClickSave
| OpenNewBucket | CloseNewBucket | TypeBucket (s : str) | EnterBucket | ClickCreateBucket
| OpenNewKey | CloseNewKey | TypeKey (s : str) | EnterKey | ClickCreateKey
| AskDeleteBucket (b : str) | CancelDeleteBucket | ConfirmDeleteBucket | AskDeleteKey (k : str) | CancelDeleteKey | ConfirmDeleteKey
| Answered (n : nat) (r : Reply).
(** A button that is loading takes no click; Enter is not held back. *)
Definition panel_event (e : Event) (p : Panel) : Panel :=
  match e with
  | RefreshBuckets => if bucketsLoading p then p else loadBuckets Nothing p
  | ClickBucket b => if decide (b ∈ bucket_name <$> buckets p) then selectBucket b p else p
  | RefreshKeys => match truthy (selectedBucket p) with Some b => if entriesLoading p then p else loadKeys b Nothing p | None => p end
  | ClickKey k =>
    match truthy (selectedBucket p), list_find (λ e, entry_key e = k) (entries p) with
    | Some _, Some (_, e) => selectKey e p
    | _, _ => p
    end
  | Type_ s => match truthy (selectedKey p) with Some k => set_editor (Some k) s false p | None => p end
  | ClickSave => if saveBusy p then p else onSaveEntry p
  | OpenNewBucket => set_new_bucket true (newBucketName p) (newBucketBusy p) p
  | CloseNewBucket => set_new_bucket false (newBucketName p) (newBucketBusy p) p
  | TypeBucket s => if newBucketOpen p then set_new_bucket true s (newBucketBusy p) p else p
  | EnterBucket => if newBucketOpen p then onCreateBucket p else p
  | ClickCreateBucket => if newBucketOpen p && negb (newBucketBusy p) then onCreateBucket p else p
  | OpenNewKey => match truthy (selectedBucket p) with Some _ => set_new_key true (newKeyName p) (newKeyBusy p) p | None => p end
  | CloseNewKey => set_new_key false (newKeyName p) (newKeyBusy p) p
  | TypeKey s => if newKeyOpen p then set_new_key true s (newKeyBusy p) p else p
  | EnterKey => if newKeyOpen p then onCreateKey p else p
  | ClickCreateKey => if newKeyOpen p && negb (newKeyBusy p) then onCreateKey p else p
  | AskDeleteBucket b => if decide (b ∈ bucket_name <$> buckets p) then set_targets (Some b) (deleteKeyTarget p) p else p
  | CancelDeleteBucket => set_targets None (deleteKeyTarget p) p
  | ConfirmDeleteBucket => match truthy (deleteBucketTarget p) with Some b => send (DeleteBucket b (selectedBucket p)) p | None => p end
  | AskDeleteKey k => if decide (k ∈ entry_key <$> entries p) then set_targets (deleteBucketTarget p) (Some k) p else p
  | CancelDeleteKey => set_targets (deleteBucketTarget p) None p
  | ConfirmDeleteKey => match truthy (deleteKeyTarget p) with Some k => onDeleteKey k p | None => p end
  | Answered k r => match calls p !! k with Some c => answered c r (set_calls (delete k (calls p)) p) | None => p end
  end.
Definition run (es : list Event) : Panel := foldl (λ p e, panel_event e p) initial_panel es.

(** * Laws *)

(** The mark of a save is shown beside the value that is open; after a save none is. *)
Definition unmarked (p : Panel) : Prop := saveOk p = true → selectedKey p = None.
Lemma ended_unmarked a p : unmarked p → unmarked (ended a p).
Proof. by destruct a. Qed.
Lemma answered_unmarked c r p : unmarked p → unmarked (answered c r p).
Proof.
  intros H. destruct c as [a|b a|b|b sel|b k|b k v|b k sel], r as [l|l| |e]; cbn [answered]; try exact H; try (by apply ended_unmarked); try done.
  by case_decide.
Qed.
Lemma unmarked_event e p : unmarked p → unmarked (panel_event e p).
Proof.
  intros H. destruct e; cbn [panel_event]; try done.
  all: unfold onCreateBucket, onCreateKey, onSaveEntry, onDeleteKey in *.
  all: repeat first [exact H | by apply answered_unmarked | by intros ? | case_match; [..|try exact H] | progress case_match].
Qed.
Lemma mark_unseen es : unmarked (run es).
Proof.
  unfold run. assert (∀ p, unmarked p → unmarked (foldl (λ p e, panel_event e p) p es)) as H; [|by apply H].
  induction es as [|e es IH]; intros p Hp; [done|]. apply IH. by apply unmarked_event.
Qed.


(** * Cases *)

Definition bucket (n : str) : KvBucketInfo := MkBucket n 1.
Definition two_buckets : list Event := [Answered 0 (Buckets [bucket #"a"; bucket #"b"])].
Definition of_a : list KvEntry := [MkEntry #"k" (VArr [VNum (Dec 1 0)])].
Definition at_a : list Event := two_buckets ++ [ClickBucket #"a"; Answered 0 (Entries of_a)].

(** The keys of the bucket before, coming last or kept when the load of the next fails, are shown under the next: a save puts the value there. *)
Example other_bucket :
  let p := run (two_buckets ++ [ClickBucket #"a"; ClickBucket #"b"; Answered 1 (Entries []); Answered 0 (Entries of_a); ClickKey #"k"; ClickSave]) in
  (selectedBucket p, calls p) = (Some #"b", [PutEntry #"b" #"k" (VArr [VNum (Dec 1 0)])]).
Proof. by vm_compute. Qed.
Example failed_keys :
  let p := run (at_a ++ [ClickBucket #"b"; Answered 0 (Failed #"no"); ClickKey #"k"; ClickSave]) in
  (selectedBucket p, entryError p, calls p) = (Some #"b", Some #"no", [PutEntry #"b" #"k" (VArr [VNum (Dec 1 0)])]).
Proof. by vm_compute. Qed.
(** A text that is no JSON is stored as a string, and shown as one. *)
Example stored_as_string :
  (parsed #"{oops", json_pretty 0 (parsed #"{oops")) = (VStr #"{oops", quoted #"{oops").
Proof. by vm_compute. Qed.
(** A save closes the editor; what is typed meanwhile is lost. *)
Example editor_closed :
  let p := run (at_a ++ [ClickKey #"k"; Type_ #"[2]"; ClickSave; Type_ #"[23]"; Answered 0 Done]) in
  (selectedKey p, editorValue p, saveOk p, calls p) = (None, [], true, [ListKeys #"a" EndSave]).
Proof. by vm_compute. Qed.
Example created_by_enter_twice :
  calls (run (two_buckets ++ [OpenNewBucket; TypeBucket #"c"; EnterBucket; EnterBucket])) = [CreateBucket #"c"; CreateBucket #"c"].
Proof. by vm_compute. Qed.
